(* ===== verification/_CoqProject ===== *)
-Q . S2P
Prelude.v
Bytes.v
Disk.v
Fat32.v
Fat32Vol.v
Fat32Alloc.v
Fat32Dir.v
Fat32Path.v
Fat32Rename.v
Fat32Demo.v
Fat32Props.v
Fat32Format.v
Spinlock.v
Sched.v
SchedInv.v
SchedProps.v
Pthread.v
PthreadProps.v
PthreadDemo.v
Text.v
Encoding.v
Url.v
Inet.v
Tftp.v
Partition.v
PartitionProps.v
PartitionGpt.v
Input.v
Ps2.v
Vfs.v
VfsProps.v
Iso9660.v
Boot.v
Heap.v
AllocGuard.v
Syscalls.v
A64.v
JitMmu.v
Jit.v
JitEmit.v
JitSem.v
JitSim.v
JitDemo.v
JitProps.v
Display.v
DisplayPaint.v
DisplayProps.v
Ntfs.v
NtfsRuns.v
NtfsProps.v
NtfsDemo.v
Rtc.v
Xhci.v
XhciInit.v
UsbStorage.v
UsbSpec.v
UsbRings.v
UsbBulk.v
UsbDriver.v
UsbProps.v
UsbDemo.v
UsbHid.v
UsbSafe.v
