(* ===== verification/Prelude.v ===== *)
(** * CanBoot: a verification development

    CanBoot is a small kernel that boots a scripting runtime on bare
    hardware.  This library models the parts of it that compute on data and
    on shared state, and proves what they promise.  C code is translated by
    hand, function by function, with the names of the source.

    ** The program and the files that model it

    - Loader information.  [Boot]: module [Mb2] is the tag walk of
      [arch/x86_64/mb2_parse.c] into [struct boot_info], module [Fdt] the
      device-tree walk of [arch/aarch64/fdt.c].
    - Block devices.  [Disk]: [struct canboot_disk] of [hal/disk.h] as the
      class [BlockDevice], what a driver has to keep as [BlockDeviceLaws], a
      RAM disk as instance, and the registry of [hal/disk/disk.c].
    - USB.  [Xhci] and [XhciInit] are the host controller driver
      [hal/usb/xhci.c] (rings, events, transfers, reports; enumeration and
      bring-up), [UsbStorage] is [hal/disk/usb_storage.c] on top of it.  The
      controller is the class [Controller], static addresses are [Layout].
      [UsbSpec] says what the hardware promises, [UsbRings] and [UsbBulk] have
      the invariants of the shared rings, [UsbDriver] the run of a transfer,
      [UsbProps], [UsbHid] and [UsbSafe] the theorems on disks, keyboards and
      arbitrary hardware, [UsbDemo] a machine.
    - FAT32, [fs/fat32.c].  [Fat32] has every function of the file as an
      action on a block device.  [Fat32Vol] gives the abstract volume (the
      successor function in the FAT and the cluster contents), [Fat32Alloc]
      allocation and chains, [Fat32Dir] directories, [Fat32Path] and
      [Fat32Rename] the path operations, [Fat32Format] names and mkfs,
      [Fat32Demo] a concrete volume, [Fat32Props] the theorems for callers.
    - Partition tables, [fs/partition.c].  [Partition] is the code,
      [PartitionProps] the checksum, [PartitionGpt] the GPT on disk.
    - ISO 9660, [fs/iso9660.c]: [Iso9660].
    - NTFS, [fs/ntfs.c].  [Ntfs] is the reader with its static buffers,
      [NtfsRuns] fixups and mapping pairs, [NtfsProps] the volume, [NtfsDemo]
      a concrete one.
    - POSIX files, [fs/vfs.c].  [Vfs] is the code over [Fat32], [VfsProps]
      its theorems.  The ext4 and NTFS libraries are records of operations.
    - Locks and threads.  [Spinlock] is the ticket lock of
      [rt/sync/include/sync/spinlock.h].  [Sched] is [rt/sched/sched.c],
      whose operations run under that lock and are transitions on one state
      record; [SchedInv] is its invariant, [SchedProps] the transition system
      of the CPUs.  [Pthread] is [rt/pthread_stub/pthread.c] as sequences of
      such transitions, [PthreadProps] its theorems, [PthreadDemo] runs.
    - Input.  [Input] is the ring and the pointer of
      [hal/input/input_queue.c], which runs drivers through the class
      [PumpLaw]; [Ps2] is the driver [hal/input/ps2.c], over the controller
      class [I8042], and discharges that law.
    - Display.  [Display] is [hal/display/display.c] and [kernel/fb.c] on
      framebuffer memory, [DisplayPaint] what a call paints, [DisplayProps]
      the theorems.
    - Clock.  [Rtc] is [arch/x86_64/rtc.c] over the ports of the CMOS clock.
    - C library.  [Heap], [AllocGuard] and [Syscalls] are the three parts of
      [rt/picolibc_port/syscalls.c]: the choice of the heap, the lock around
      the allocator and the file descriptors.
    - Just-in-time compiler, [cando_port/jit/codegen_aarch64.c].  [Jit] is the
      code generator and [JitMmu] the making of executable memory; [A64] is
      the instruction set, [JitEmit] the code each operation gets, [JitSem]
      and [JitSim] the meaning of traces and of the code, [JitProps] the
      theorems, [JitDemo] a machine with a trace.
    - Network and script helpers.  [Tftp] is the client of [net/tftp.c],
      [Inet] the address parsers of [net/mbedtls_port/inet_pton.c], [Url]
      [cando_port/lib/url.c], [Encoding] [cando_port/lib/encoding.c].
    - Shared.  This file has machine integers and the effect monad, [Bytes]
      packed structures and [memcpy], [Text] C strings and decimal numbers.

    ** How state and effects are rendered

    Unsigned integers are [Z], reduced with [u8] ... [u64] where the source
    computes at that width.  Buffers and C strings are lists of byte values.
    A function on a device or other state is [S -> outcome A * S]: [ERR] is
    [return -1] with the state reached so far, [STUCK] an access outside what
    a buffer holds or a division by zero, [NOFUEL] a loop bound running out.
    Concurrency is interleaving: of single atomic accesses in [Spinlock] and
    [AllocGuard], of critical sections in [SchedProps] and [Pthread], of the
    driver's polls and the controller's work in [Xhci].  Memory shared with
    hardware or by address is explicit: words in [Display] and [A64], rings of
    blocks and bytes in [Xhci].

    ** What the theorems show

    - FAT32: a written file reads back; writing, unlinking and renaming
      leave every other file as it was; a removed name is gone and its
      clusters are free; a new directory resolves and is empty; a non-empty
      one is not removed; both FAT copies are kept equal; allocation returns
      a chain of free clusters; a formatted disk opens as an empty volume,
      except from 16 GiB on, where the cluster is too long for the readers;
      a cyclic directory is walked forever.
    - USB: whatever the controller mixes in, reading and writing a USB disk is
      reading and writing the block device it stands for; the events of every
      key of a keyboard alternate and follow its reports; a bulk transfer
      returns on any hardware, inside of its rings, and frees its lock.
    - NTFS: on a volume whose root directory is in its index root, opening,
      listing and reading return the volume's label, entries and contents;
      mapping pairs read as the clusters they stand for, up to the 16 KiB a
      piece may have; fixups are undone; entries in index blocks are missed.
    - Display: each drawing call changes exactly the visible points of its
      shape; overlapping moves copy as if at once; a line ends and is never
      more than half a pixel off.
    - Clock: a reading is the time of one moment, for any ticks during it.
    - C library: the heap overlaps nothing in use; the allocator is entered by
      one processor at a time, also recursively; an opened file reads back;
      a position past the end overruns the copy.
    - Just-in-time compiler: every trace of supported operations within the
      limits compiles, and the code does what the trace means; code is
      executable and coherent before it runs.
    - Spinlock: mutual exclusion and first-come first-served, across the
      wrap-around of the counters.
    - Scheduler: thread states agree with the queues and CPUs in every
      reachable state; a joiner gets the value its thread exited with; ticks
      take the CPU around the run queue in turn.
    - Threads: mutual exclusion, no lost wake-up, initialisers run once,
      waiting on a condition variable gives up the mutex and sleeps in one
      step; a thread that exits with the VM lock keeps it.
    - Partition tables: the table-driven CRC is the bit-serial one; a fresh
      GPT is valid, in both copies; a created partition is listed and the
      others are unchanged; resizing checks no conflict; detection overruns
      its buffer on long blocks.
    - ISO 9660: lookup and read on a directory are right, but opening a
      standard volume takes the root directory from the wrong place.
    - POSIX files: normalisation gives the canonical path, for components up
      to 31 characters; [readdir] returns the live directory entries in order.
    - Input: the ring refines a bounded first-in first-out queue that drops
      what does not fit; text typed on the keyboard is what [getc] returns.
    - TFTP: a download that reports success holds the file, whatever the
      network loses, repeats or delays, and it does report success when the
      blocks come in time.
    - Texts: base64, hex and URLs round trip; the IPv4 parser accepts dotted
      quads and nothing else; the IPv6 parser rejects single colons.
    - Loader: a well-formed Multiboot2 structure is collected exactly; both
      walks end on every input.

    ** Fuel

    Walks along a FAT chain take a bound on the clusters they visit, since
    the source has none: [Fat32Path.enough] is the number of clusters of the
    volume, which a chain without repetition cannot exceed, and the theorems
    conclude that the operation returns for all such bounds.  For cyclic
    chains [NOFUEL] is proved for every bound.  The walks of [Boot] use the
    length of the structure and are proved never to run out.  [Iso9660]
    bounds the records of one block by the block length, [Ntfs] its walks by
    the length of the buffer and the number of index blocks by an argument.  A
    line takes the larger distance plus one rounds.  The loops of [JitMmu] take
    a bound above the length of the code, and a trace has at most 2^20 bytes of
    code.  Waiting for the USB controller takes a bound on the polls: [UsbProps]
    needs 65 more than the polls the controller takes to answer, [UsbSafe] the
    limit of the source, and neither runs out.  [Rtc] has the source's limits of
    17 samples and 10^6 polls.  The other loops follow their own counters.

    ** Not modelled

    - Drivers for AHCI, NVMe and virtio disks, network cards, audio, the
      virtio GPU, PCI, serial lines, interrupt controllers and power: they are
      register and DMA programming whose meaning is in the hardware.  Block
      devices, the i8042 controller, the CMOS ports, the USB controller and
      the timer tick enter as the interfaces above.
    - Assembly (boot entry, context switch, trampolines) and UEFI calls.
    - Bindings to the CanDo virtual machine, and the adapters to lwIP, Mbed
      TLS, lwext4, libntfs-3g, stb and minimp3: the other side of each call is
      not in the repository.
    - Console messages, and [extract_filename] of [fs/ntfs.c], which nothing
      calls.
    - Data races outside the locks, and except in [Ntfs] and [Xhci] static
      buffers shared between calls: each call starts with what its own first
      read puts into the buffer.  The USB controller works between polls and
      register reads, not between two stores of the driver. *)
From stdpp Require Export base list list_numbers strings gmap.
From Stdlib Require Export ZArith Lia.

#[global] Open Scope Z_scope.
#[global] Set Default Goal Selector "!".

(** ** Machine integers

    An unsigned C integer of width [w] is a [Z] in [0, 2^w); the wrap-around
    of C arithmetic is written out by these functions where the source
    computes at that width. *)
Definition u8 (x : Z) : Z := x mod 2 ^ 8.
Definition u16 (x : Z) : Z := x mod 2 ^ 16.
Definition u32 (x : Z) : Z := x mod 2 ^ 32.
Definition u64 (x : Z) : Z := x mod 2 ^ 64.

(** A signed 32-bit value: the two's-complement reading of the low 32 bits. *)
Definition s32 (x : Z) : Z := (x + 2 ^ 31) mod 2 ^ 32 - 2 ^ 31.

(** ** Effects

    A C routine that works on a state [S] (a disk, a scheduler) is a function
    [S -> outcome A * S].  [ERR] is the early [return -1] of the source: the
    state reached so far is kept, because the source does not roll back.
    [STUCK] is an access the C code makes outside what its buffer holds, or a
    division by zero.  [NOFUEL] is the bound on loop iterations running out. *)
Inductive outcome (A : Type) : Type :=
| OK (a : A)
| ERR
| STUCK
| NOFUEL.
Arguments OK {A} _.
Arguments ERR {A}.
Arguments STUCK {A}.
Arguments NOFUEL {A}.

Definition M (S A : Type) : Type := S -> outcome A * S.

Definition ret {S A : Type} (a : A) : M S A := fun s => (OK a, s).
Definition err {S A : Type} : M S A := fun s => (ERR, s).
Definition stuck {S A : Type} : M S A := fun s => (STUCK, s).
Definition nofuel {S A : Type} : M S A := fun s => (NOFUEL, s).
Definition get {S : Type} : M S S := fun s => (OK s, s).
Definition put {S : Type} (s : S) : M S unit := fun _ => (OK tt, s).

Definition bind {S A B : Type} (m : M S A) (k : A -> M S B) : M S B := fun s =>
  match m s with
  | (OK a, s') => k a s'
  | (ERR, s') => (ERR, s')
  | (STUCK, s') => (STUCK, s')
  | (NOFUEL, s') => (NOFUEL, s')
  end.

(** [attempt m] turns the [-1] of [m] into a value, for the callers that do
    not return at once when the callee fails. *)
Definition attempt {S A : Type} (m : M S A) : M S (option A) := fun s =>
  match m s with
  | (OK a, s') => (OK (Some a), s')
  | (ERR, s') => (OK None, s')
  | (STUCK, s') => (STUCK, s')
  | (NOFUEL, s') => (NOFUEL, s')
  end.

(** [from_opt o] is stuck on [None]: the source has no check there. *)
Definition from_opt {S A : Type} (o : option A) : M S A :=
  match o with Some a => ret a | None => stuck end.

Declare Scope canboot_scope.
Delimit Scope canboot_scope with cb.
Notation "'let!' x ':=' m 'in' k" := (bind m (fun x => k))
  (at level 10, x pattern, m at level 100, k at level 200) : canboot_scope.
Notation "m ';;!' k" := (bind m (fun _ => k))
  (at level 100, k at level 200, right associativity) : canboot_scope.
#[global] Open Scope canboot_scope.

Create HintDb canboot.

Lemma bind_OK {S A B} (m : M S A) (k : A -> M S B) s a s' :
  m s = (OK a, s') -> bind m k s = k a s'.
Proof. unfold bind. by intros ->. Qed.

Lemma bind_ERR {S A B} (m : M S A) (k : A -> M S B) s s' :
  m s = (ERR, s') -> bind m k s = (ERR, s').
Proof. unfold bind. by intros ->. Qed.

Lemma bind_STUCK {S A B} (m : M S A) (k : A -> M S B) s s' :
  m s = (STUCK, s') -> bind m k s = (STUCK, s').
Proof. unfold bind. by intros ->. Qed.

Lemma bind_NOFUEL {S A B} (m : M S A) (k : A -> M S B) s s' :
  m s = (NOFUEL, s') -> bind m k s = (NOFUEL, s').
Proof. unfold bind. by intros ->. Qed.

Lemma bind_ret {S A B} (a : A) (k : A -> M S B) s : bind (ret a) k s = k a s.
Proof. reflexivity. Qed.

Lemma attempt_OK {S A} (m : M S A) s a s' :
  m s = (OK a, s') -> attempt m s = (OK (Some a), s').
Proof. unfold attempt. by intros ->. Qed.

Lemma bind_OK_inv {S A B} (m : M S A) (k : A -> M S B) s b s' :
  bind m k s = (OK b, s') -> exists a s1, m s = (OK a, s1) /\ k a s1 = (OK b, s').
Proof. unfold bind. destruct (m s) as [[a| | |] s1]; intros; simplify_eq; eauto. Qed.

(** [bstep H] runs the first action of a [bind] in the goal with the equation
    [H] of that action. *)
Ltac bstep H :=
  first [ rewrite (bind_OK _ _ _ _ _ H)
        | rewrite (bind_ERR _ _ _ _ H)
        | rewrite (bind_STUCK _ _ _ _ H)
        | rewrite (bind_NOFUEL _ _ _ _ H) ]; cbv beta.

(** [binv H] opens a successful run of a [bind] in [H]. *)
Ltac binv H :=
  let a := fresh "a" in let s := fresh "s" in let H1 := fresh "Hrun" in
  apply bind_OK_inv in H as (a & s & H1 & H); cbv beta in H.

(** ** Arithmetic automation *)
Ltac zdm := Z.div_mod_to_equations; nia.

Lemma u32_small x : 0 <= x < 2 ^ 32 -> u32 x = x.
Proof. intros. unfold u32. by rewrite Z.mod_small. Qed.
Lemma u64_small x : 0 <= x < 2 ^ 64 -> u64 x = x.
Proof. intros. unfold u64. by rewrite Z.mod_small. Qed.
Lemma u16_small x : 0 <= x < 2 ^ 16 -> u16 x = x.
Proof. intros. unfold u16. by rewrite Z.mod_small. Qed.
Lemma u8_small x : 0 <= x < 2 ^ 8 -> u8 x = x.
Proof. intros. unfold u8. by rewrite Z.mod_small. Qed.
Lemma u32_range x : 0 <= u32 x < 2 ^ 32.
Proof. apply Z.mod_pos_bound. lia. Qed.
Lemma u64_range x : 0 <= u64 x < 2 ^ 64.
Proof. apply Z.mod_pos_bound. lia. Qed.
Lemma u16_range x : 0 <= u16 x < 2 ^ 16.
Proof. apply Z.mod_pos_bound. lia. Qed.
Lemma u8_range x : 0 <= u8 x < 2 ^ 8.
Proof. apply Z.mod_pos_bound. lia. Qed.

(** ** Bit-level equations

    [zbits] proves an equation between [Z]s built with [Z.land], [Z.lor],
    [Z.lxor], shifts and [Z.ones] bit by bit. *)
Ltac zbits :=
  let i := fresh "i" in let Hi := fresh "Hi" in
  apply Z.bits_inj'; intros i Hi;
  repeat first
    [ rewrite Z.lor_spec | rewrite Z.land_spec | rewrite Z.lxor_spec
    | rewrite Z.shiftl_spec by lia | rewrite Z.shiftr_spec by lia
    | rewrite Z.testbit_ones by lia ];
  repeat match goal with
    | |- context [ ?a <=? ?b ] => destruct (Z.leb_spec a b)
    | |- context [ ?a <? ?b ] => destruct (Z.ltb_spec a b)
    end;
  try (exfalso; lia);
  repeat match goal with
    | |- context [ Z.testbit (Z.shiftr ?a ?k) ?b ] =>
        tryif (assert (b < 0) by lia) then rewrite (Z.testbit_neg_r (Z.shiftr a k) b) by lia
        else rewrite (Z.shiftr_spec a k b) by lia
    | |- _ => first [rewrite Z.sub_add | rewrite Z.add_simpl_r]
    end;
  repeat match goal with
    | |- context [ Z.testbit ?a ?b ] =>
        tryif (assert (b < 0) by lia) then rewrite (Z.testbit_neg_r a b) by lia
        else destruct (Z.testbit a b)
    end; try reflexivity.

(** Clearing the low [k] bits of a [w]-bit number with [& ~mask]. *)
Lemma land_clear_low w k x :
  0 <= k -> 0 <= x < 2 ^ w -> Z.land x (Z.lnot (Z.ones k) mod 2 ^ w) = 2 ^ k * (x / 2 ^ k).
Proof.
  intros Hk Hx. destruct (Z.le_gt_cases 0 w) as [Hw|Hw]; [|rewrite Z.pow_neg_r in Hx by lia; lia].
  rewrite <- Z.land_ones, Z.land_assoc, (Z.land_comm x), <- Z.land_assoc, Z.land_ones, Z.mod_small by done.
  rewrite Z.land_comm, <- Z.ldiff_land, Z.ldiff_ones_r, Z.shiftl_mul_pow2, Z.shiftr_div_pow2 by lia. lia.
Qed.
