(* ===== verification/Bytes.v ===== *)
(** * Byte buffers

    A C byte buffer is a [list Z].  This file has the little-endian fields of
    the packed structs the drivers overlay on their buffers, [memcpy] into a
    buffer ([splice]) and the read/write laws the components share. *)
From S2P Require Import Prelude.

(** The characters of a string literal. *)
Definition str (s : String.string) : list Z :=
  (fun c => Z.of_N (Ascii.N_of_ascii c)) <$> String.list_ascii_of_string s.
Arguments str s%_string.

(** The little-endian value of some bytes, and the bytes of a value. *)
Fixpoint le_dec (bs : list Z) : Z :=
  match bs with
  | [] => 0
  | b :: t => b + 256 * le_dec t
  end.

Fixpoint le_enc (n : nat) (v : Z) : list Z :=
  match n with
  | O => []
  | S k => v mod 256 :: le_enc k (v / 256)
  end.

(** [slice off n buf]: the [n] bytes at [off]. *)
Definition slice {A} (off n : nat) (buf : list A) : list A := take n (drop off buf).

(** [splice off bs buf]: [memcpy(buf + off, bs, |bs|)], inside the buffer. *)
Definition splice {A} (off : nat) (bs buf : list A) : list A :=
  take off buf ++ bs ++ drop (off + length bs) buf.

(** A little-endian field of [n] bytes at byte offset [off]; [None] when the
    field does not lie inside the buffer. *)
Definition getle (n : nat) (off : Z) (buf : list Z) : option Z :=
  if (0 <=? off) && (off + Z.of_nat n <=? Z.of_nat (length buf))
  then Some (le_dec (slice (Z.to_nat off) n buf))
  else None.

Definition putle (n : nat) (off v : Z) (buf : list Z) : option (list Z) :=
  if (0 <=? off) && (off + Z.of_nat n <=? Z.of_nat (length buf))
  then Some (splice (Z.to_nat off) (le_enc n v) buf)
  else None.

Lemma length_le_enc n v : length (le_enc n v) = n.
Proof. revert v; induction n; intros; simpl; congruence. Qed.

Lemma le_dec_enc n v : le_dec (le_enc n v) = v mod 2 ^ (8 * Z.of_nat n).
Proof.
  revert v; induction n as [|n IH]; intros v; simpl le_enc; simpl le_dec.
  - change (8 * Z.of_nat 0) with 0. by rewrite Z.mod_1_r.
  - rewrite IH. replace (8 * Z.of_nat (S n)) with (8 + 8 * Z.of_nat n) by lia.
    rewrite Z.pow_add_r by lia. change (2 ^ 8) with 256.
    rewrite Z.rem_mul_r by lia. lia.
Qed.

Lemma le_enc_mod n v : le_enc n (v mod 2 ^ (8 * Z.of_nat n)) = le_enc n v.
Proof.
  revert v; induction n as [|n IH]; intros v; [done|]. cbn [le_enc].
  replace (8 * Z.of_nat (S n)) with (8 + 8 * Z.of_nat n) by lia.
  rewrite Z.pow_add_r by lia. change (2 ^ 8) with 256.
  rewrite Z.rem_mul_r by lia. f_equal.
  - rewrite (Z.mul_comm 256), Z.mod_add by lia. apply Z.mod_mod. lia.
  - rewrite <- (IH (v / 256)). f_equal.
    rewrite (Z.mul_comm 256), Z.div_add by lia.
    rewrite Z.div_small by (apply Z.mod_pos_bound; lia). lia.
Qed.

(** Bytes in range: what a C [uint8_t] can hold. *)
Definition byte_ok (b : Z) : Prop := 0 <= b < 256.

Lemma le_dec_range bs : Forall byte_ok bs -> 0 <= le_dec bs < 2 ^ (8 * Z.of_nat (length bs)).
Proof.
  induction 1 as [|b t Hb _ IH]; cbn [le_dec length]; [lia|].
  replace (8 * Z.of_nat (S (length t))) with (8 + 8 * Z.of_nat (length t)) by lia.
  rewrite Z.pow_add_r by lia. unfold byte_ok in Hb. change (2 ^ 8) with 256. lia.
Qed.

Lemma le_enc_dec bs : Forall byte_ok bs -> le_enc (length bs) (le_dec bs) = bs.
Proof.
  induction 1 as [|b t Hb _ IH]; [done|]. cbn [le_dec length le_enc].
  unfold byte_ok in Hb. rewrite (Z.mul_comm 256).
  rewrite Z.mod_add, Z.mod_small by lia. rewrite Z.div_add, Z.div_small by lia.
  by rewrite Z.add_0_l, IH.
Qed.

Lemma le_enc_byte_ok n v : Forall byte_ok (le_enc n v).
Proof.
  revert v; induction n as [|n IH]; intros v; constructor; [|apply IH].
  unfold byte_ok. apply Z.mod_pos_bound. lia.
Qed.

(** ** Slices *)
Section slices.
Context {A : Type}.
Implicit Types (bs buf : list A) (off n : nat).

Lemma length_slice off n buf : (off + n <= length buf)%nat -> length (slice off n buf) = n.
Proof. intros. unfold slice. rewrite length_take, length_drop. lia. Qed.

Lemma lookup_slice off n buf i :
  (i < n)%nat -> slice off n buf !! i = buf !! (off + i)%nat.
Proof. intros. unfold slice. rewrite lookup_take_lt by done. apply lookup_drop. Qed.

Lemma length_splice off bs buf :
  (off + length bs <= length buf)%nat -> length (splice off bs buf) = length buf.
Proof. intros. unfold splice. rewrite !length_app, length_take, length_drop. lia. Qed.

Lemma lookup_splice_in off bs buf i :
  (off + length bs <= length buf)%nat -> (off <= i < off + length bs)%nat ->
  splice off bs buf !! i = bs !! (i - off)%nat.
Proof.
  intros. unfold splice. rewrite lookup_app_r by (rewrite length_take; lia).
  rewrite length_take, Nat.min_l by lia. rewrite lookup_app_l by lia. done.
Qed.

Lemma lookup_splice_out off bs buf i :
  (off + length bs <= length buf)%nat -> (i < off \/ off + length bs <= i)%nat ->
  splice off bs buf !! i = buf !! i.
Proof.
  intros ? [?|?]; unfold splice.
  - rewrite lookup_app_l by (rewrite length_take; lia). by rewrite lookup_take_lt.
  - rewrite lookup_app_r by (rewrite length_take; lia).
    rewrite length_take, Nat.min_l by lia. rewrite lookup_app_r by lia.
    rewrite lookup_drop. f_equal. lia.
Qed.

Lemma list_eq_lookup_lt (l k : list A) :
  length l = length k -> (forall i, (i < length l)%nat -> l !! i = k !! i) -> l = k.
Proof.
  intros Hl H. apply list_eq. intros i. destruct (decide (i < length l)%nat); [auto|].
  rewrite !lookup_ge_None_2 by lia. done.
Qed.

Lemma slice_splice_same off bs buf :
  (off + length bs <= length buf)%nat -> slice off (length bs) (splice off bs buf) = bs.
Proof.
  intros. apply list_eq_lookup_lt.
  - rewrite length_slice; [done|]. rewrite length_splice; lia.
  - rewrite length_slice by (rewrite length_splice; lia). intros i ?.
    rewrite lookup_slice, lookup_splice_in by lia. f_equal. lia.
Qed.

Lemma slice_splice_other off bs buf off' n :
  (off + length bs <= length buf)%nat -> (off' + n <= length buf)%nat ->
  (off' + n <= off \/ off + length bs <= off')%nat ->
  slice off' n (splice off bs buf) = slice off' n buf.
Proof.
  intros ?? Hd. apply list_eq_lookup_lt; rewrite !length_slice; rewrite ?length_splice; try lia.
  intros i ?. rewrite !lookup_slice by lia. apply lookup_splice_out; lia.
Qed.

(** A slice that contains the spliced range is the splice of the slice. *)
Lemma slice_splice_within off bs buf off' n :
  (off' <= off)%nat -> (off + length bs <= off' + n)%nat -> (off' + n <= length buf)%nat ->
  slice off' n (splice off bs buf) = splice (off - off') bs (slice off' n buf).
Proof.
  intros. apply list_eq_lookup_lt.
  { rewrite length_splice, !length_slice; rewrite ?length_slice; rewrite ?length_splice; lia. }
  rewrite length_slice by (rewrite length_splice; lia). intros i ?.
  rewrite lookup_slice by lia.
  destruct (decide (off <= off' + i < off + length bs)%nat).
  - rewrite !lookup_splice_in by (rewrite ?length_slice; lia). f_equal. lia.
  - rewrite !lookup_splice_out by (rewrite ?length_slice; lia).
    by rewrite lookup_slice by lia.
Qed.

Lemma splice_slice_id off n buf :
  (off + n <= length buf)%nat -> splice off (slice off n buf) buf = buf.
Proof.
  intros. unfold splice. rewrite length_slice by done. unfold slice.
  rewrite <- drop_drop, take_drop. apply take_drop.
Qed.

Lemma slice_slice off n off' n' buf :
  (off' + n' <= n)%nat -> slice off' n' (slice off n buf) = slice (off + off') n' buf.
Proof.
  intros. unfold slice. rewrite skipn_firstn_comm, drop_drop, take_take.
  f_equal. lia.
Qed.

Lemma slice_full buf : slice 0 (length buf) buf = buf.
Proof. unfold slice. rewrite drop_0. apply firstn_all. Qed.
End slices.

Lemma Forall_slice {A} (P : A -> Prop) off n (buf : list A) :
  Forall P buf -> Forall P (slice off n buf).
Proof. intros. by apply Forall_take, Forall_drop. Qed.

Lemma Forall_splice {A} (P : A -> Prop) off (bs buf : list A) :
  Forall P bs -> Forall P buf -> Forall P (splice off bs buf).
Proof.
  intros. unfold splice. rewrite !Forall_app.
  auto using Forall_take, Forall_drop.
Qed.

(** ** Fields *)
Lemma getle_Some n off buf :
  0 <= off -> off + Z.of_nat n <= Z.of_nat (length buf) ->
  getle n off buf = Some (le_dec (slice (Z.to_nat off) n buf)).
Proof.
  intros. unfold getle. rewrite (proj2 (Z.leb_le _ _)), (proj2 (Z.leb_le _ _)) by lia. done.
Qed.

Lemma putle_Some n off v buf :
  0 <= off -> off + Z.of_nat n <= Z.of_nat (length buf) ->
  putle n off v buf = Some (splice (Z.to_nat off) (le_enc n v) buf).
Proof.
  intros. unfold putle. rewrite (proj2 (Z.leb_le _ _)), (proj2 (Z.leb_le _ _)) by lia. done.
Qed.

Lemma getle_None n off buf :
  off < 0 \/ Z.of_nat (length buf) < off + Z.of_nat n -> getle n off buf = None.
Proof.
  intros H. unfold getle.
  destruct (Z.leb_spec 0 off), (Z.leb_spec (off + Z.of_nat n) (Z.of_nat (length buf)));
    simpl; auto; lia.
Qed.

(** Field [n] bytes at [off] of a buffer just written at [off]. *)
Lemma le_dec_slice_put n off v buf :
  (off + n <= length buf)%nat ->
  le_dec (slice off n (splice off (le_enc n v) buf)) = v mod 2 ^ (8 * Z.of_nat n).
Proof.
  intros. rewrite <- (length_le_enc n v) at 1. rewrite slice_splice_same.
  - apply le_dec_enc.
  - by rewrite length_le_enc.
Qed.
