(* ===== verification/Disk.v ===== *)
(** * The HAL block device

    [hal/include/hal/disk.h] is the contract between the disk drivers and the
    file systems: [struct canboot_disk] with its geometry and its [read] and
    [write] entry points.  It is the class [BlockDevice] here; the documented
    behaviour of a driver (a block holds what was last written to it, requests
    inside the device succeed) is the class [BlockDeviceLaws], against which
    the file-system theorems are proved.  [RamDisk] is a device that has the
    laws.  The second part models the registry of [hal/disk/disk.c]. *)
From stdpp Require Import functions.
From S2P Require Import Prelude Bytes.

(** ** struct canboot_disk *)
Class BlockDevice (D : Type) : Type := {
  bd_kind : D -> Z;
  bd_block_size : D -> Z;
  bd_block_count : D -> Z;
  bd_writable : D -> bool;
  (** [d->read(d, lba, n_blocks, buf)]: [None] is a non-zero return. *)
  bd_read : D -> Z -> Z -> option (list Z);
  (** [d->write(d, lba, n_blocks, buf)], given the [n_blocks] blocks of [buf]. *)
  bd_write : D -> Z -> Z -> list Z -> option D;
  (** Whether the function pointers are set. *)
  bd_has_read : D -> bool;
  bd_has_write : D -> bool;
}.

Abbreviation CANBOOT_DISK_KIND_UNKNOWN := 0 (only parsing).
Abbreviation CANBOOT_DISK_KIND_VIRTIO_BLK := 1 (only parsing).
Abbreviation CANBOOT_DISK_KIND_AHCI := 2 (only parsing).
Abbreviation CANBOOT_DISK_KIND_CDROM := 3 (only parsing).

(** Two states of one device: same geometry. *)
Definition same_geometry {D} `{BlockDevice D} (d d' : D) : Prop :=
  bd_kind d' = bd_kind d /\ bd_block_size d' = bd_block_size d /\
  bd_block_count d' = bd_block_count d /\ bd_writable d' = bd_writable d.

(** What a driver promises.  [bd_blk d i] is the content of block [i]. *)
Class BlockDeviceLaws (D : Type) `{BlockDevice D} : Type := {
  bd_inv : D -> Prop;
  bd_blk : D -> Z -> list Z;
  bd_geom : forall d, bd_inv d ->
    0 < bd_block_size d < 2 ^ 32 /\ 0 <= bd_block_count d < 2 ^ 64;
  bd_blk_length : forall d i, bd_inv d -> 0 <= i < bd_block_count d ->
    Z.of_nat (length (bd_blk d i)) = bd_block_size d;
  bd_read_ok : forall d lba n, bd_inv d ->
    0 <= lba -> 0 <= n -> lba + n <= bd_block_count d ->
    bd_read d lba n = Some (concat (bd_blk d <$> seqZ lba n));
  bd_write_ok : forall d lba n data, bd_inv d -> bd_writable d = true ->
    0 <= lba -> 0 <= n -> lba + n <= bd_block_count d ->
    Z.of_nat (length data) = n * bd_block_size d ->
    exists d', bd_write d lba n data = Some d' /\ bd_inv d' /\ same_geometry d d' /\
      forall i, 0 <= i < bd_block_count d ->
        bd_blk d' i =
          if decide (lba <= i < lba + n)
          then slice (Z.to_nat ((i - lba) * bd_block_size d)) (Z.to_nat (bd_block_size d)) data
          else bd_blk d i;
}.

#[export] Instance same_geometry_equivalence {D} `{BlockDevice D} : Equivalence same_geometry.
Proof.
  split; unfold same_geometry; intros ?; intros; intuition congruence.
Qed.

(** ** Disk requests as actions

    [disk_read cap lba n] is [d->read(d, lba, n, buf)] into a buffer of [cap]
    bytes: a request longer than the buffer overruns it. *)
Section requests.
Context {D : Type} `{BlockDevice D}.

Definition disk_read (cap lba n : Z) : M D (list Z) :=
  let! d := get in
  if cap <? n * bd_block_size d then stuck
  else match bd_read d lba n with
       | Some bs => ret bs
       | None => err
       end.

(** [d->write(d, lba, n, buf)]: the driver takes [n] blocks from [buf]. *)
Definition disk_write (lba n : Z) (buf : list Z) : M D unit :=
  let! d := get in
  if Z.of_nat (length buf) <? n * bd_block_size d then stuck
  else match bd_write d lba n (take (Z.to_nat (n * bd_block_size d)) buf) with
       | Some d' => put d'
       | None => err
       end.
End requests.

(** ** The registry of disks, [hal/disk/disk.c]

    [disks] holds the first [g_disk_count] slots of [g_disks]; the slots
    behind it are not reachable through the interface. *)
Module Registry.
Section registry.
Context {D : Type} `{BlockDevice D}.

Definition CANBOOT_DISK_MAX : Z := 8.

Record registry : Type := mkRegistry { g_disks : list D }.

Definition hal_disk_count (r : registry) : Z := Z.of_nat (length (g_disks r)).

Definition canboot_disk_register (d : option D) (r : registry) : bool * registry :=
  match d with
  | None => (false, r)
  | Some d =>
      if CANBOOT_DISK_MAX <=? hal_disk_count r then (false, r)
      else (true, mkRegistry (g_disks r ++ [d]))
  end.

Definition hal_disk_get (r : registry) (idx : Z) : option D :=
  if hal_disk_count r <=? idx then None else g_disks r !! Z.to_nat idx.

Definition hal_disk_read (d : option D) (lba n : Z) : option (list Z) :=
  match d with
  | None => None
  | Some d => if bd_has_read d then bd_read d lba n else None
  end.

Definition hal_disk_write (d : option D) (lba n : Z) (buf : list Z) : option D :=
  match d with
  | None => None
  | Some d =>
      if bd_has_write d then
        if bd_writable d then bd_write d lba n buf else None
      else None
  end.

(** [hal_disk_init] empties the registry and runs the driver probes in
    order; each probe registers the disks it finds. *)
Definition hal_disk_init (canboot_virtio_blk_init canboot_ahci_init
    canboot_nvme_init canboot_usb_storage_init : registry -> registry) : registry :=
  canboot_usb_storage_init
    (canboot_nvme_init (canboot_ahci_init (canboot_virtio_blk_init (mkRegistry [])))).
End registry.
Arguments registry : clear implicits.
End Registry.

(** ** A device with the laws: blocks held in memory *)
Record ramdisk : Type := mkRam {
  rd_kind : Z;
  rd_bs : Z;
  rd_writable : bool;
  rd_blocks : list (list Z);
}.

Definition rd_count (d : ramdisk) : Z := Z.of_nat (length (rd_blocks d)).

Definition rd_in_range (d : ramdisk) (lba n : Z) : bool :=
  (0 <=? lba) && (0 <=? n) && (lba + n <=? rd_count d).

Definition rd_read (d : ramdisk) (lba n : Z) : option (list Z) :=
  if rd_in_range d lba n
  then Some (concat (slice (Z.to_nat lba) (Z.to_nat n) (rd_blocks d)))
  else None.

(** Cut [n] pieces of [k] bytes off [data]. *)
Fixpoint chunks (n k : nat) (data : list Z) : list (list Z) :=
  match n with
  | O => []
  | S n' => take k data :: chunks n' k (drop k data)
  end.

Definition rd_write (d : ramdisk) (lba n : Z) (data : list Z) : option ramdisk :=
  if rd_in_range d lba n && rd_writable d
     && (Z.of_nat (length data) =? n * rd_bs d)
  then Some (mkRam (rd_kind d) (rd_bs d) (rd_writable d)
               (splice (Z.to_nat lba) (chunks (Z.to_nat n) (Z.to_nat (rd_bs d)) data)
                  (rd_blocks d)))
  else None.

#[export] Instance ramdisk_device : BlockDevice ramdisk := {
  bd_kind := rd_kind;
  bd_block_size := rd_bs;
  bd_block_count := rd_count;
  bd_writable := rd_writable;
  bd_read := rd_read;
  bd_write := rd_write;
  bd_has_read := fun _ => true;
  bd_has_write := fun _ => true;
}.

Definition rd_ok (d : ramdisk) : Prop :=
  0 < rd_bs d < 2 ^ 32 /\ rd_count d < 2 ^ 64 /\
  Forall (fun b => Z.of_nat (length b) = rd_bs d) (rd_blocks d).

Lemma rd_ok_dec (d : ramdisk) :
  (0 <? rd_bs d) && (rd_bs d <? 2 ^ 32) && (rd_count d <? 2 ^ 64)
    && forallb (fun b => Z.of_nat (length b) =? rd_bs d) (rd_blocks d) = true -> rd_ok d.
Proof.
  rewrite !andb_true_iff, !Z.ltb_lt, forallb_forall. intros [[[? ?] ?] Hb].
  split; [done|]. split; [done|]. apply Forall_forall. intros b Hin.
  apply Z.eqb_eq, Hb. by apply list_elem_of_In.
Qed.

Definition rd_blk (d : ramdisk) (i : Z) : list Z :=
  default [] (rd_blocks d !! Z.to_nat i).

Lemma length_chunks n k data : length (chunks n k data) = n.
Proof. revert data. induction n; intros; simpl; congruence. Qed.

Lemma lookup_chunks n k data i :
  (i < n)%nat -> chunks n k data !! i = Some (slice (i * k) k data).
Proof.
  revert data i. induction n as [|n IH]; intros data i Hi; [lia|]. cbn [chunks].
  destruct i as [|i]; [done|]. cbn. rewrite IH by lia. unfold slice.
  by rewrite drop_drop.
Qed.

Lemma slice_blocks_seqZ (f : Z -> list Z) (bl : list (list Z)) lba n :
  0 <= lba -> 0 <= n -> lba + n <= Z.of_nat (length bl) ->
  (forall i, 0 <= i < Z.of_nat (length bl) -> bl !! Z.to_nat i = Some (f i)) ->
  slice (Z.to_nat lba) (Z.to_nat n) bl = f <$> seqZ lba n.
Proof.
  intros ? ? ? Hf. apply list_eq_lookup_lt.
  { rewrite length_slice by lia. by rewrite length_fmap, length_seqZ. }
  rewrite length_slice by lia. intros i ?. rewrite lookup_slice by lia.
  rewrite list_lookup_fmap, (lookup_seqZ_lt lba n i) by lia. simpl.
  rewrite <- Hf by lia. f_equal. lia.
Qed.

Lemma rd_read_blk d lba n : 0 <= lba -> 0 <= n -> lba + n <= rd_count d ->
  rd_read d lba n = Some (concat (rd_blk d <$> seqZ lba n)).
Proof.
  unfold rd_read, rd_in_range. intros.
  rewrite !(proj2 (Z.leb_le _ _)) by lia. cbn [andb]. do 2 f_equal.
  apply slice_blocks_seqZ; auto. intros i ?. unfold rd_blk.
  destruct (rd_blocks d !! Z.to_nat i) eqn:E; [done|].
  apply lookup_ge_None in E. lia.
Qed.

Lemma rd_write_blk d lba n data : rd_ok d -> rd_writable d = true ->
  0 <= lba -> 0 <= n -> lba + n <= rd_count d ->
  Z.of_nat (length data) = n * rd_bs d ->
  exists d', rd_write d lba n data = Some d' /\ rd_ok d' /\ same_geometry d d' /\
    forall i, 0 <= i < rd_count d ->
      rd_blk d' i =
        if decide (lba <= i < lba + n)
        then slice (Z.to_nat ((i - lba) * rd_bs d)) (Z.to_nat (rd_bs d)) data
        else rd_blk d i.
Proof.
  intros (Hbs & Hcnt & Hall) Hw ? ? Hr Hlen. unfold rd_count in *.
  unfold rd_write, rd_in_range, rd_count. rewrite !(proj2 (Z.leb_le _ _)), Hw by lia.
  rewrite (proj2 (Z.eqb_eq _ _)) by done. cbn [andb]. eexists; split; [done|].
  assert (Hsp : length (splice (Z.to_nat lba) (chunks (Z.to_nat n) (Z.to_nat (rd_bs d)) data)
      (rd_blocks d)) = length (rd_blocks d)).
  { apply length_splice. rewrite length_chunks. lia. }
  split; [|split].
  - split; [done|]. split; [unfold rd_count; cbn; lia|]. cbn.
    apply Forall_splice; [|done]. apply Forall_lookup. intros i x Hx.
    assert (i < Z.to_nat n)%nat by (apply lookup_lt_Some in Hx; by rewrite length_chunks in Hx).
    rewrite lookup_chunks in Hx by done. simplify_eq. rewrite length_slice; [lia|].
    assert (i * Z.to_nat (rd_bs d) + Z.to_nat (rd_bs d) <= Z.to_nat n * Z.to_nat (rd_bs d))%nat
      by nia. nia.
  - unfold same_geometry. cbn. unfold rd_count. cbn. rewrite Hsp. rewrite Hw. done.
  - intros i Hi. unfold rd_blk. cbn. case_decide.
    + rewrite lookup_splice_in by (rewrite length_chunks; lia).
      rewrite lookup_chunks by lia. cbn. f_equal. nia.
    + rewrite lookup_splice_out by (rewrite length_chunks; lia). done.
Qed.

#[export] Program Instance ramdisk_laws : BlockDeviceLaws ramdisk := {
  bd_inv := rd_ok;
  bd_blk := rd_blk;
}.
Next Obligation. intros d (? & ? & ?). cbn. unfold rd_count in *. lia. Qed.
Next Obligation.
  intros d i (? & ? & Hall) Hi. cbn in *. unfold rd_count, rd_blk in *.
  destruct (rd_blocks d !! Z.to_nat i) eqn:E.
  - by apply (Forall_lookup_1 _ _ _ _ Hall E).
  - apply lookup_ge_None in E. lia.
Qed.
Next Obligation. intros. by apply rd_read_blk. Qed.
Next Obligation. intros. by apply rd_write_blk. Qed.

(** A request of one block, and of several blocks. *)
Section requests_run.
Context {D : Type} `{BlockDevice D} `{!BlockDeviceLaws D}.

Lemma disk_read_run (d : D) cap lba n :
  bd_inv d -> 0 <= lba -> 0 <= n -> lba + n <= bd_block_count d ->
  n * bd_block_size d <= cap ->
  disk_read cap lba n d = (OK (concat (bd_blk d <$> seqZ lba n)), d).
Proof.
  intros. unfold disk_read. rewrite (bind_OK _ _ _ d d) by done. cbv beta.
  rewrite (proj2 (Z.ltb_ge _ _)) by lia. by rewrite bd_read_ok.
Qed.

Lemma disk_read_one (d : D) cap lba :
  bd_inv d -> 0 <= lba < bd_block_count d -> bd_block_size d <= cap ->
  disk_read cap lba 1 d = (OK (bd_blk d lba), d).
Proof.
  intros. rewrite disk_read_run by (auto; lia). do 2 f_equal.
  rewrite seqZ_cons by lia. change (Z.pred 1) with 0. rewrite seqZ_nil by lia.
  cbn. apply app_nil_r.
Qed.

Lemma disk_write_run (d : D) lba n buf :
  bd_inv d -> bd_writable d = true ->
  0 <= lba -> 0 <= n -> lba + n <= bd_block_count d ->
  Z.of_nat (length buf) = n * bd_block_size d ->
  exists d', disk_write lba n buf d = (OK tt, d') /\ bd_inv d' /\ same_geometry d d' /\
    forall i, 0 <= i < bd_block_count d ->
      bd_blk d' i =
        if decide (lba <= i < lba + n)
        then slice (Z.to_nat ((i - lba) * bd_block_size d)) (Z.to_nat (bd_block_size d)) buf
        else bd_blk d i.
Proof.
  intros Hi Hw ? ? ? Hl. destruct (bd_write_ok d lba n buf) as (d' & Hd & ? & ? & ?); auto.
  exists d'. split; [|done]. unfold disk_write. rewrite (bind_OK _ _ _ d d) by done. cbv beta.
  rewrite (proj2 (Z.ltb_ge _ _)) by lia.
  rewrite <- Hl, Nat2Z.id, firstn_all. by rewrite Hd.
Qed.

Lemma disk_write_one (d : D) lba buf :
  bd_inv d -> bd_writable d = true -> 0 <= lba < bd_block_count d ->
  Z.of_nat (length buf) = bd_block_size d ->
  exists d', disk_write lba 1 buf d = (OK tt, d') /\ bd_inv d' /\ same_geometry d d' /\
    bd_blk d' lba = buf /\
    forall i, 0 <= i < bd_block_count d -> i <> lba -> bd_blk d' i = bd_blk d i.
Proof.
  intros ? ? ? Hl. destruct (disk_write_run d lba 1 buf) as (d' & ? & ? & ? & Hb); auto; try lia.
  exists d'. do 3 (split; [done|]). split.
  - rewrite Hb, decide_True by lia. rewrite Z.sub_diag, Z.mul_0_l, <- Hl, Nat2Z.id.
    apply slice_full.
  - intros i ? ?. by rewrite Hb, decide_False by lia.
Qed.

Lemma length_concat_const (f : Z -> list Z) (l : list Z) k :
  (forall x, x ∈ l -> length (f x) = k) -> length (concat (f <$> l)) = (length l * k)%nat.
Proof.
  induction l as [|x l IH]; intros Hf; [done|]. cbn. rewrite length_app.
  rewrite Hf by set_solver. rewrite IH by set_solver. done.
Qed.

Lemma concat_slices (buf : list Z) (bs n : nat) :
  length buf = (n * bs)%nat ->
  concat ((fun i : nat => slice (i * bs) bs buf) <$> seq 0 n) = buf.
Proof.
  revert buf. induction n as [|n IH]; intros buf Hl; [by destruct buf|].
  rewrite <- cons_seq. cbn. rewrite <- (fmap_S_seq 0 n), <- list_fmap_compose.
  transitivity (take bs buf ++ drop bs buf); [|apply take_drop]. f_equal.
  rewrite <- (IH (drop bs buf)) by (rewrite length_drop; lia).
  f_equal. apply list_fmap_ext. intros i x _. unfold compose, slice.
  rewrite drop_drop. done.
Qed.

Lemma concat_slices_seqZ (buf : list Z) lba bs n :
  0 < bs -> 0 <= n -> Z.of_nat (length buf) = n * bs ->
  concat ((fun i => slice (Z.to_nat ((i - lba) * bs)) (Z.to_nat bs) buf) <$> seqZ lba n) = buf.
Proof.
  intros. unfold seqZ. rewrite <- list_fmap_compose.
  etransitivity; [|apply (concat_slices buf (Z.to_nat bs) (Z.to_nat n)); nia].
  f_equal. apply list_fmap_ext. intros i x _. unfold compose. f_equal. nia.
Qed.

(** A writable 512-byte-block disk of [n] blocks with contents [f]. *)
Record disk_is (d : D) (n : Z) (f : Z -> list Z) : Prop := {
  di_inv : bd_inv d;
  di_writable : bd_writable d = true;
  di_size : bd_block_size d = 512;
  di_count : bd_block_count d = n;
  di_blocks i : 0 <= i < n -> bd_blk d i = f i;
}.

Lemma put_block_run d n f lba buf :
  disk_is d n f -> 0 <= lba < n -> n < 2 ^ 63 -> length buf = 512%nat ->
  exists d', disk_write (u64 lba) 1 buf d = (OK tt, d') /\ disk_is d' n (<[lba := buf]> f).
Proof.
  intros [Hi Hw Hs Hc Hb] Hl Hn Hlen. rewrite u64_small by lia.
  destruct (disk_write_one d lba buf) as (d' & Hr & Hi' & (Hk & Hs' & Hc' & Hw') & Hsame & Hoth);
    auto; [lia..|].
  exists d'. split; [done|]. split; try congruence. intros i Hir.
  destruct (decide (i = lba)) as [->|Hne].
  - by rewrite fn_lookup_insert.
  - rewrite fn_lookup_insert_ne by done. rewrite Hoth by lia. by apply Hb.
Qed.

Lemma disk_is_ext d n f f' : disk_is d n f -> (forall i, 0 <= i < n -> f i = f' i) -> disk_is d n f'.
Proof. intros [] He. split; auto. intros i Hi. rewrite <- He by done. auto. Qed.

(** Contents with the blocks from [lba] on replaced by the [n] blocks of [buf]. *)
Definition patched (lba n : Z) (buf : list Z) (f : Z -> list Z) : Z -> list Z :=
  fun i => if decide (lba <= i < lba + n) then slice (Z.to_nat ((i - lba) * 512)) 512 buf else f i.

Lemma put_blocks_run d n f lba k buf :
  disk_is d n f -> 0 <= lba -> 0 <= k -> lba + k <= n -> Z.of_nat (length buf) = k * 512 ->
  exists d', disk_write lba k buf d = (OK tt, d') /\ disk_is d' n (patched lba k buf f).
Proof.
  intros [Hi Hw Hs Hc Hb] Hl Hk Hn Hlen.
  destruct (disk_write_run d lba k buf) as (d' & Hr & Hi' & (_ & Hs' & Hc' & Hw') & Hblk);
    auto; [lia..|].
  exists d'. split; [done|]. split; try congruence. intros i Hir. unfold patched.
  rewrite Hblk, Hs, Hb by lia. done.
Qed.
End requests_run.
