(* ===== verification/Fat32.v ===== *)
(** * FAT32: the code of [fs/fat32.c]

    Every function of [fs/fat32.c] as an action on the block device that
    [fs->disk] points to.  A C string is the list of its characters without
    the terminating NUL.  Chain walks take [fuel], the number of clusters the
    walk may visit: the source has no bound of its own. *)
From S2P Require Import Prelude Bytes Disk.

Definition DIR_ENTRY_SIZE : Z := 32.
Definition ATTR_LFN : Z := 0x0F.
Definition ATTR_DIRECTORY : Z := 0x10.
Definition ATTR_VOLUME_ID : Z := 0x08.
Definition EOC : Z := 0x0FFFFFF8.
Definition FAT32_MAX_CHAIN : Z := 256.

(** [struct canboot_fat32]; the disk itself is the state of the actions. *)
Record canboot_fat32 : Type := mkFs {
  bytes_per_sector : Z;
  sectors_per_cluster : Z;
  bytes_per_cluster : Z;
  reserved_sectors : Z;
  num_fats : Z;
  sectors_per_fat : Z;
  root_cluster : Z;
  fat_start_lba : Z;
  data_start_lba : Z;
  total_clusters : Z;
}.

(** [struct fat_dir], the 32-byte directory entry. *)
Record fat_dir : Type := mkDir {
  de_name : list Z;
  de_attr : Z;
  de_nt_reserved : Z;
  de_ctime_tenth : Z;
  de_ctime : Z;
  de_cdate : Z;
  de_adate : Z;
  de_cluster_hi : Z;
  de_mtime : Z;
  de_mdate : Z;
  de_cluster_lo : Z;
  de_size : Z;
}.

(** The packed layout of the entry. *)
Definition dir_decode (b : list Z) : fat_dir :=
  mkDir (slice 0 11 b) (le_dec (slice 11 1 b)) (le_dec (slice 12 1 b))
        (le_dec (slice 13 1 b)) (le_dec (slice 14 2 b)) (le_dec (slice 16 2 b))
        (le_dec (slice 18 2 b)) (le_dec (slice 20 2 b)) (le_dec (slice 22 2 b))
        (le_dec (slice 24 2 b)) (le_dec (slice 26 2 b)) (le_dec (slice 28 4 b)).

Definition dir_encode (e : fat_dir) : list Z :=
  de_name e ++ le_enc 1 (de_attr e) ++ le_enc 1 (de_nt_reserved e)
  ++ le_enc 1 (de_ctime_tenth e) ++ le_enc 2 (de_ctime e) ++ le_enc 2 (de_cdate e)
  ++ le_enc 2 (de_adate e) ++ le_enc 2 (de_cluster_hi e) ++ le_enc 2 (de_mtime e)
  ++ le_enc 2 (de_mdate e) ++ le_enc 2 (de_cluster_lo e) ++ le_enc 4 (de_size e).

(** [(struct fat_dir * )(buf + i * DIR_ENTRY_SIZE)]. *)
Definition dir_at (buf : list Z) (i : Z) : option fat_dir :=
  if i * DIR_ENTRY_SIZE + DIR_ENTRY_SIZE <=? Z.of_nat (length buf)
  then Some (dir_decode (slice (Z.to_nat (i * DIR_ENTRY_SIZE)) 32 buf))
  else None.

(** [memcpy(buf + i * DIR_ENTRY_SIZE, e, sizeof( *e))]. *)
Definition dir_put (buf : list Z) (i : Z) (e : fat_dir) : option (list Z) :=
  if i * DIR_ENTRY_SIZE + DIR_ENTRY_SIZE <=? Z.of_nat (length buf)
  then Some (splice (Z.to_nat (i * DIR_ENTRY_SIZE)) (dir_encode e) buf)
  else None.

(** [e->name[k]]. *)
Definition name_at (e : fat_dir) (k : nat) : Z := nth k (de_name e) 0.

(** ** 8.3 names *)
Definition upper (c : Z) : Z := if (97 <=? c) && (c <=? 122) then c - 32 else c.

(** Index of the first ['.'], as the loop with [break] finds it. *)
Fixpoint first_dot (i : Z) (name : list Z) : option Z :=
  match name with
  | [] => None
  | c :: t => if c =? 46 then Some i else first_dot (i + 1) t
  end.

Definition to_83 (name : list Z) : list Z :=
  let out := replicate 11 32 in
  let len := Z.of_nat (length name) in
  let dot := first_dot 0 name in
  let basen := match dot with None => len | Some d => d end in
  let extn := match dot with None => 0 | Some d => len - d - 1 end in
  let basen := if 8 <? basen then 8 else basen in
  let extn := if 3 <? extn then 3 else extn in
  let out := splice 0 (upper <$> take (Z.to_nat basen) name) out in
  match dot with
  | None => out
  | Some d => splice 8 (upper <$> take (Z.to_nat extn) (drop (Z.to_nat (d + 1)) name)) out
  end.

(** The copy loops stop at the first space of each half. *)
Fixpoint until_space (s : list Z) : list Z :=
  match s with
  | [] => []
  | c :: t => if c =? 32 then [] else c :: until_space t
  end.

Definition name_from_83 (raw : list Z) : list Z :=
  let base := until_space (slice 0 8 raw) in
  let has_ext := existsb (fun c => negb (c =? 32)) (slice 8 3 raw) in
  if has_ext then base ++ [46] ++ until_space (slice 8 3 raw) else base.

(** ** Directory entries *)
Definition entry_first_cluster (e : fat_dir) : Z :=
  Z.lor (Z.shiftl (de_cluster_hi e) 16) (de_cluster_lo e).

Definition make_entry (name83 : list Z) (attr first_cluster size : Z) : fat_dir :=
  mkDir name83 attr 0 0 0 0 0 (u16 (Z.shiftr first_cluster 16)) 0 0
        (u16 (Z.land first_cluster 0xFFFF)) size.

(** The [for (i = 0; i < entries; i++)] loop over a directory cluster: [f]
    is the body, [Some] when it returns or breaks, [None] to go on. *)
Fixpoint scan {A} (f : Z -> fat_dir -> option A) (n : nat) (i : Z) (buf : list Z)
    : outcome (option A) :=
  match n with
  | O => OK None
  | S n' =>
      match dir_at buf i with
      | None => STUCK
      | Some e => match f i e with
                  | Some a => OK (Some a)
                  | None => scan f n' (i + 1) buf
                  end
      end
  end.

Definition lift {S A} (o : outcome A) : M S A := fun s => (o, s).

(** The directory name of a path component holding ["."] or [".."]. *)
Definition DOT83 : list Z := 46 :: replicate 10 32.
Definition DOTDOT83 : list Z := 46 :: 46 :: replicate 9 32.

Definition is_dot_entry (e : fat_dir) : bool :=
  (name_at e 0 =? 46) &&
  ((name_at e 1 =? 32) || ((name_at e 1 =? 46) && (name_at e 2 =? 32))).

(** Bodies of the directory scans.  [None] in the [Some] is the end-of-directory
    marker. *)
Definition find_root_body (target : list Z) (i : Z) (e : fat_dir) : option (option (Z * fat_dir)) :=
  if name_at e 0 =? 0 then Some None
  else if name_at e 0 =? 0xE5 then None
  else if de_attr e =? ATTR_LFN then None
  else if negb (Z.land (de_attr e) (Z.lor ATTR_VOLUME_ID ATTR_DIRECTORY) =? 0) then None
  else if decide (de_name e = target) then Some (Some (i, e))
  else None.

Definition dir_find_body (target : list Z) (i : Z) (e : fat_dir) : option (option (Z * fat_dir)) :=
  if name_at e 0 =? 0 then Some None
  else if name_at e 0 =? 0xE5 then None
  else if de_attr e =? ATTR_LFN then None
  else if negb (Z.land (de_attr e) ATTR_VOLUME_ID =? 0) then None
  else if decide (de_name e = target) then Some (Some (i, e))
  else None.

Definition write_root_body (target : list Z) (i : Z) (e : fat_dir) : option Z :=
  if (name_at e 0 =? 0) || (name_at e 0 =? 0xE5) then Some i
  else if de_attr e =? ATTR_LFN then None
  else if decide (de_name e = target) then Some i
  else None.

Definition alloc_slot_body (i : Z) (e : fat_dir) : option Z :=
  if (name_at e 0 =? 0) || (name_at e 0 =? 0xE5) then Some i else None.

(** [Some true]: end of directory; [Some false]: a live entry. *)
Definition is_empty_body (i : Z) (e : fat_dir) : option bool :=
  if name_at e 0 =? 0 then Some true
  else if name_at e 0 =? 0xE5 then None
  else if de_attr e =? ATTR_LFN then None
  else if is_dot_entry e then None
  else Some false.

(** ** mkfs geometry *)
Definition pick_spc (size_lba : Z) : Z :=
  if size_lba <? 16384 then 0
  else if size_lba <? 532480 then 1
  else if size_lba <? 16777216 then 8
  else if size_lba <? 33554432 then 16
  else if size_lba <? 67108864 then 32
  else 64.

(** The loop that grows [fat_sectors]; [iter] iterations are left. *)
Fixpoint fit_fat (iter : nat) (size_lba spc fat_sectors : Z) : Z :=
  match iter with
  | O => fat_sectors
  | S iter' =>
      let avail := u64 (size_lba - 32 - u32 (2 * fat_sectors)) in
      let clusters := avail / spc in
      let need := u32 ((u64 (clusters + 128 - 1)) / 128) in
      if need <=? fat_sectors then fat_sectors
      else fit_fat iter' size_lba spc need
  end.

(** ** Paths *)
(** The last ['/'] of [s], counted from [i]. *)
Fixpoint last_slash (i : Z) (s : list Z) (acc : option Z) : option Z :=
  match s with
  | [] => acc
  | c :: t => last_slash (i + 1) t (if c =? 47 then Some i else acc)
  end.

(** [while (len > 1 && path[len - 1] == '/') len--;] on the reversed path. *)
Fixpoint trim_slashes (rev_path : list Z) : list Z :=
  match rev_path with
  | c :: ((_ :: _) as t) => if c =? 47 then trim_slashes t else rev_path
  | _ => rev_path
  end.

Definition split_last (path : list Z) (pcap lcap : Z) : option (list Z * list Z) :=
  let p := rev (trim_slashes (rev path)) in
  let len := Z.of_nat (length p) in
  match last_slash 0 p None with
  | None =>
      if (pcap <? 2) || (lcap <? len + 1) || (len =? 0) then None
      else Some ([47], p)
  | Some slash =>
      let llen := len - slash - 1 in
      if (llen =? 0) || (lcap <? llen + 1) then None
      else
        let leaf := slice (Z.to_nat (slash + 1)) (Z.to_nat llen) p in
        if slash =? 0 then
          if pcap <? 2 then None else Some ([47], leaf)
        else
          if pcap <? slash + 1 then None
          else Some (take (Z.to_nat slash) p, leaf)
  end.

Fixpoint skip_slashes (p : list Z) : list Z :=
  match p with
  | c :: t => if c =? 47 then skip_slashes t else p
  | [] => []
  end.

(** [while ( *p && *p != '/' && n < 15) comp[n++] = *p++;] *)
Fixpoint take_comp (room : nat) (p : list Z) : list Z * list Z :=
  match room, p with
  | S r, c :: t =>
      if c =? 47 then ([], p)
      else let (comp, rest) := take_comp r t in (c :: comp, rest)
  | _, _ => ([], p)
  end.

(** ** The driver *)
Section driver.
Context {D : Type} `{BlockDevice D}.
Implicit Types fs : canboot_fat32.

Definition disk_read_sector (cap lba : Z) : M D (list Z) := disk_read cap lba 1.
Definition disk_write_sector (lba : Z) (buf : list Z) : M D unit := disk_write lba 1 buf.

(** A field of the BPB overlaid on the boot sector. *)
Definition bpb (n : nat) (off : Z) (buf : list Z) : M D Z := from_opt (getle n off buf).

Definition canboot_fat32_open : M D canboot_fat32 :=
  let! d := get in
  if 4096 <? bd_block_size d then err else
  let! buf := disk_read_sector 4096 0 in
  let! bps := bpb 2 11 buf in
  let! spc := bpb 1 13 buf in
  let! rsvd := bpb 2 14 buf in
  let! nfats := bpb 1 16 buf in
  let! root_entries := bpb 2 17 buf in
  let! total_16 := bpb 2 19 buf in
  let! fat_sz_16 := bpb 2 22 buf in
  let! total_32 := bpb 4 32 buf in
  let! fat_sz_32 := bpb 4 36 buf in
  let! root := bpb 4 44 buf in
  if bps =? 0 then err
  else if negb (fat_sz_16 =? 0) then err
  else if negb (root_entries =? 0) then err
  else if bd_block_size d =? 0 then stuck
  else
    let bpc := u32 (bps * spc) in
    let spb := bps / bd_block_size d in
    let spb := if spb =? 0 then 1 else spb in
    let fat_start := u64 (rsvd * spb) in
    let data_start := u64 (fat_start + u64 (nfats * fat_sz_32 * spb)) in
    let total := if total_32 =? 0 then total_16 else total_32 in
    let data_sectors := u32 (total - u32 (rsvd + u32 (nfats * fat_sz_32))) in
    if spc =? 0 then stuck
    else ret (mkFs bps spc bpc rsvd nfats fat_sz_32 root fat_start data_start
                (data_sectors / spc)).

(** [spb = bytes_per_sector / block_size], at least 1. *)
Definition spb_of fs : M D Z :=
  let! d := get in
  if bd_block_size d =? 0 then stuck
  else let spb := bytes_per_sector fs / bd_block_size d in
       ret (if spb =? 0 then 1 else spb).

Definition cluster_lba fs (cluster : Z) : M D Z :=
  let! spb := spb_of fs in
  ret (u64 (data_start_lba fs + u64 (u32 (cluster - 2) * sectors_per_cluster fs * spb))).

Definition read_fat_entry fs (cluster : Z) : M D Z :=
  let fat_offset := u32 (cluster * 4) in
  let! spb := spb_of fs in
  let lba := u64 (fat_start_lba fs + u32 (fat_offset / bytes_per_sector fs * spb)) in
  let! sect := disk_read_sector 4096 lba in
  let! entry := from_opt (getle 4 (fat_offset mod bytes_per_sector fs) sect) in
  ret (Z.land entry 0x0FFFFFFF).

(** The loop over the FAT copies, [n] copies left, at copy [fat]. *)
Fixpoint write_fat_copies (n : nat) fs (spb fat_offset fat value : Z) : M D unit :=
  match n with
  | O => ret tt
  | S n' =>
      let lba := u64 (fat_start_lba fs + u64 (fat * sectors_per_fat fs * spb)
                      + u32 (fat_offset / bytes_per_sector fs * spb)) in
      let off := fat_offset mod bytes_per_sector fs in
      let! sect := disk_read_sector 4096 lba in
      let! e := from_opt (getle 4 off sect) in
      let! sect := from_opt (putle 4 off
                     (Z.lor (Z.land e 0xF0000000) (Z.land value 0x0FFFFFFF)) sect) in
      disk_write_sector lba sect;;!
      write_fat_copies n' fs spb fat_offset (fat + 1) value
  end.

Definition write_fat_entry fs (cluster value : Z) : M D unit :=
  let! spb := spb_of fs in
  write_fat_copies (Z.to_nat (num_fats fs)) fs spb (u32 (cluster * 4)) 0 value.

(** [buf] is a caller's buffer of [cap] bytes. *)
Definition read_cluster fs (cap cluster : Z) : M D (list Z) :=
  let! lba := cluster_lba fs cluster in
  let! spb := spb_of fs in
  disk_read cap lba (u32 (sectors_per_cluster fs * spb)).

Definition write_cluster fs (cluster : Z) (buf : list Z) : M D unit :=
  let! lba := cluster_lba fs cluster in
  let! spb := spb_of fs in
  disk_write lba (u32 (sectors_per_cluster fs * spb)) buf.

Definition entries_per_cluster fs : nat :=
  Z.to_nat (bytes_per_cluster fs / DIR_ENTRY_SIZE).

(** *** Root-directory helpers *)
Fixpoint find_root_loop (fuel : nat) fs (target : list Z) (cluster : Z)
    : M D (option (fat_dir * Z * Z)) :=
  if cluster <? EOC then
    match fuel with
    | O => nofuel
    | S fuel' =>
        let! buf := read_cluster fs 8192 cluster in
        let! r := lift (scan (find_root_body target) (entries_per_cluster fs) 0 buf) in
        match r with
        | Some None => ret None
        | Some (Some (i, e)) =>
            let! lba := cluster_lba fs cluster in
            let! spb := spb_of fs in
            ret (Some (e, u64 (lba + u32 (u32 (i * DIR_ENTRY_SIZE) / bytes_per_sector fs * spb)),
                       u32 (i * DIR_ENTRY_SIZE) mod bytes_per_sector fs))
        | None =>
            let! next := read_fat_entry fs cluster in
            find_root_loop fuel' fs target next
        end
    end
  else ret None.

(** [None] is the return 0 (not found); [Some] the return 1. *)
Definition find_root_entry (fuel : nat) fs (name : list Z) : M D (option (fat_dir * Z * Z)) :=
  if 8192 <? bytes_per_cluster fs then err
  else find_root_loop fuel fs (to_83 name) (root_cluster fs).

(** The copy loop of the two readers: what is left of [to_read]. *)
Fixpoint read_chain (fuel : nat) fs (to_read copied cluster : Z) (acc : list Z) : M D (list Z) :=
  if (copied <? to_read) && (cluster <? EOC) && (2 <=? cluster) then
    match fuel with
    | O => nofuel
    | S fuel' =>
        let! tmp := read_cluster fs 8192 cluster in
        let chunk := bytes_per_cluster fs in
        let chunk := if to_read <? u32 (copied + chunk) then u32 (to_read - copied) else chunk in
        if Z.of_nat (length tmp) <? chunk then stuck else
        let! next := read_fat_entry fs cluster in
        read_chain fuel' fs to_read (u32 (copied + chunk)) next (acc ++ take (Z.to_nat chunk) tmp)
    end
  else ret acc.

(** The bytes copied to [buf] and the size stored to [*out_size]. *)
Definition canboot_fat32_read_root_file (fuel : nat) fs (name : list Z) (buf_size : Z)
    : M D (list Z * Z) :=
  let! r := find_root_entry fuel fs name in
  match r with
  | None => err
  | Some (entry, _, _) =>
      let cluster := entry_first_cluster entry in
      let to_read := if de_size entry <? buf_size then de_size entry else buf_size in
      if 8192 <? bytes_per_cluster fs then err else
      let! bs := read_chain fuel fs to_read 0 cluster [] in
      ret (bs, de_size entry)
  end.

(** [n] clusters left to look at, from [c]. *)
Fixpoint find_free_from (n : nat) fs (c : Z) : M D Z :=
  match n with
  | O => err
  | S n' =>
      let! entry := read_fat_entry fs c in
      if entry =? 0 then ret c else find_free_from n' fs (c + 1)
  end.

Definition find_free_cluster fs : M D Z :=
  find_free_from (Z.to_nat (u32 (2 + total_clusters fs) - 2)) fs 2.

(** Reserve [n] clusters, each marked allocated as soon as it is found. *)
Fixpoint reserve_clusters (n : nat) fs : M D (list Z) :=
  match n with
  | O => ret []
  | S n' =>
      let! c := find_free_cluster fs in
      write_fat_entry fs c 0x0FFFFFFF;;!
      let! rest := reserve_clusters n' fs in
      ret (c :: rest)
  end.

(** Link [chain[i]] to [chain[i + 1]], the last to the end-of-chain mark. *)
Fixpoint link_chain fs (chain : list Z) : M D unit :=
  match chain with
  | [] => ret tt
  | c :: t =>
      write_fat_entry fs c (match t with [] => 0x0FFFFFFF | n :: _ => n end);;!
      link_chain fs t
  end.

(** The data loop: each cluster gets its chunk, zero-padded. *)
Fixpoint write_chain fs (chain : list Z) (remaining : Z) (src : list Z) : M D unit :=
  match chain with
  | [] => ret tt
  | c :: t =>
      let chunk := if remaining <? bytes_per_cluster fs then remaining else bytes_per_cluster fs in
      let tmp := splice 0 (take (Z.to_nat chunk) src)
                   (replicate (Z.to_nat (bytes_per_cluster fs)) 0) in
      write_cluster fs c tmp;;!
      write_chain fs t (remaining - chunk) (drop (Z.to_nat chunk) src)
  end.

Definition clusters_needed fs (len : Z) : Z :=
  u32 (len + bytes_per_cluster fs - 1) / bytes_per_cluster fs.

Fixpoint insert_root_loop (fuel : nat) fs (target : list Z) (first len cluster : Z) : M D unit :=
  if cluster <? EOC then
    match fuel with
    | O => nofuel
    | S fuel' =>
        let! dir_buf := read_cluster fs 8192 cluster in
        let! slot := lift (scan (write_root_body target) (entries_per_cluster fs) 0 dir_buf) in
        match slot with
        | Some i =>
            let! dir_buf := from_opt (dir_put dir_buf i (make_entry target 0x20 first len)) in
            write_cluster fs cluster dir_buf
        | None =>
            let! next := read_fat_entry fs cluster in
            insert_root_loop fuel' fs target first len next
        end
    end
  else err.

Definition canboot_fat32_write_root_file (fuel : nat) fs (name data : list Z) : M D unit :=
  let! d := get in
  if negb (bd_writable d) then err else
  let len := Z.of_nat (length data) in
  if bytes_per_cluster fs =? 0 then stuck else
  let needed := clusters_needed fs len in
  let needed := if needed =? 0 then 1 else needed in
  if 8 <? needed then err else
  let! chain := reserve_clusters (Z.to_nat needed) fs in
  link_chain fs chain;;!
  if 8192 <? bytes_per_cluster fs then err else
  write_chain fs chain len data;;!
  insert_root_loop fuel fs (to_83 name) (default 0 (head chain)) len (root_cluster fs).

(** [free_chain], also the loop of [canboot_fat32_delete_root_file]. *)
Fixpoint free_chain (fuel : nat) fs (cur : Z) : M D unit :=
  if (2 <=? cur) && (cur <? EOC) then
    match fuel with
    | O => nofuel
    | S fuel' =>
        let! next := read_fat_entry fs cur in
        write_fat_entry fs cur 0;;!
        free_chain fuel' fs next
    end
  else ret tt.

Fixpoint delete_root_loop (fuel : nat) fs (target : list Z) (cluster : Z) : M D unit :=
  if cluster <? EOC then
    match fuel with
    | O => nofuel
    | S fuel' =>
        let! buf := read_cluster fs 8192 cluster in
        let! r := lift (scan (find_root_body target) (entries_per_cluster fs) 0 buf) in
        match r with
        | Some None => err
        | Some (Some (i, e)) =>
            free_chain fuel fs (entry_first_cluster e);;!
            write_cluster fs cluster (splice (Z.to_nat (i * DIR_ENTRY_SIZE)) [0xE5] buf)
        | None =>
            let! next := read_fat_entry fs cluster in
            delete_root_loop fuel' fs target next
        end
    end
  else err.

Definition canboot_fat32_delete_root_file (fuel : nat) fs (name : list Z) : M D unit :=
  if 8192 <? bytes_per_cluster fs then err
  else delete_root_loop fuel fs (to_83 name) (root_cluster fs).

(** *** Directories by starting cluster *)
(** [Some (e, cluster, index)] is the return 1, [None] the return 0. *)
Fixpoint dir_find_loop (fuel : nat) fs (target : list Z) (cluster : Z)
    : M D (option (fat_dir * Z * Z)) :=
  if (2 <=? cluster) && (cluster <? EOC) then
    match fuel with
    | O => nofuel
    | S fuel' =>
        let! buf := read_cluster fs 8192 cluster in
        let! r := lift (scan (dir_find_body target) (entries_per_cluster fs) 0 buf) in
        match r with
        | Some None => ret None
        | Some (Some (i, e)) => ret (Some (e, cluster, i))
        | None =>
            let! next := read_fat_entry fs cluster in
            dir_find_loop fuel' fs target next
        end
    end
  else ret None.

Definition dir_find (fuel : nat) fs (dir_cluster : Z) (target : list Z)
    : M D (option (fat_dir * Z * Z)) :=
  if 8192 <? bytes_per_cluster fs then err
  else dir_find_loop fuel fs target dir_cluster.

(** Extend the directory whose last cluster is [last] by a zeroed cluster. *)
Definition dir_extend fs (last : Z) : M D (Z * Z) :=
  let! nc := find_free_cluster fs in
  write_fat_entry fs nc (Z.lor EOC 0x07);;!
  write_fat_entry fs last nc;;!
  write_cluster fs nc (replicate (Z.to_nat (bytes_per_cluster fs)) 0);;!
  ret (nc, 0).

Fixpoint dir_alloc_loop (fuel : nat) fs (cluster last : Z) : M D (Z * Z) :=
  if (2 <=? cluster) && (cluster <? EOC) then
    match fuel with
    | O => nofuel
    | S fuel' =>
        let! buf := read_cluster fs 8192 cluster in
        let! r := lift (scan alloc_slot_body (entries_per_cluster fs) 0 buf) in
        match r with
        | Some i => ret (cluster, i)
        | None =>
            let! next := read_fat_entry fs cluster in
            dir_alloc_loop fuel' fs next cluster
        end
    end
  else dir_extend fs last.

Definition dir_alloc_slot (fuel : nat) fs (dir_cluster : Z) : M D (Z * Z) :=
  if 8192 <? bytes_per_cluster fs then err
  else dir_alloc_loop fuel fs dir_cluster dir_cluster.

Definition dir_write_entry fs (cluster index : Z) (e : fat_dir) : M D unit :=
  if 8192 <? bytes_per_cluster fs then err else
  let! buf := read_cluster fs 8192 cluster in
  let! buf := from_opt (dir_put buf index e) in
  write_cluster fs cluster buf.

Definition dir_mark_deleted fs (cluster index : Z) : M D unit :=
  if 8192 <? bytes_per_cluster fs then err else
  let! buf := read_cluster fs 8192 cluster in
  let! buf := from_opt (putle 1 (index * DIR_ENTRY_SIZE) 0xE5 buf) in
  write_cluster fs cluster buf.

Fixpoint dir_is_empty_loop (fuel : nat) fs (cluster : Z) : M D bool :=
  if (2 <=? cluster) && (cluster <? EOC) then
    match fuel with
    | O => nofuel
    | S fuel' =>
        let! buf := read_cluster fs 8192 cluster in
        let! r := lift (scan is_empty_body (entries_per_cluster fs) 0 buf) in
        match r with
        | Some b => ret b
        | None =>
            let! next := read_fat_entry fs cluster in
            dir_is_empty_loop fuel' fs next
        end
    end
  else ret true.

Definition dir_is_empty (fuel : nat) fs (dir_cluster : Z) : M D bool :=
  if 8192 <? bytes_per_cluster fs then err
  else dir_is_empty_loop fuel fs dir_cluster.

(** A failure after the first reservation leaves the reserved clusters
    marked: the [unwind] label of the source only returns. *)
Definition alloc_chain fs (n : Z) : M D (list Z) :=
  if (n =? 0) || (FAT32_MAX_CHAIN <? n) then err else
  let! chain := reserve_clusters (Z.to_nat n) fs in
  link_chain fs chain;;!
  ret chain.

(** *** Paths *)
(** The component loop at [cluster]; [n] bounds the components left. *)
Fixpoint resolve_loop (n : nat) (fuel : nat) fs (cluster : Z) (p : list Z) : M D Z :=
  match p with
  | [] => ret cluster
  | _ :: _ =>
      match n with
      | O => nofuel
      | S n' =>
          let (comp, rest) := take_comp 15 p in
          let rest := skip_slashes rest in
          match comp with
          | [] => resolve_loop n' fuel fs cluster rest
          | _ :: _ =>
              let! r := dir_find fuel fs cluster (to_83 comp) in
              match r with
              | None => err
              | Some (e, _, _) =>
                  if Z.land (de_attr e) ATTR_DIRECTORY =? 0 then err else
                  let fc := entry_first_cluster e in
                  let fc := if fc =? 0 then root_cluster fs else fc in
                  resolve_loop n' fuel fs fc rest
              end
          end
      end
  end.

Definition resolve_dir (fuel : nat) fs (path : list Z) : M D Z :=
  resolve_loop (length path) fuel fs (root_cluster fs) (skip_slashes path).

Definition resolve_entry (fuel : nat) fs (path : list Z) : M D (option (fat_dir * Z * Z)) :=
  match split_last path 256 16 with
  | None => err
  | Some (parent, leaf) =>
      let! pc := resolve_dir fuel fs parent in
      dir_find fuel fs pc (to_83 leaf)
  end.

Definition canboot_fat32_read_path (fuel : nat) fs (path : list Z) (buf_size : Z)
    : M D (list Z * Z) :=
  let! r := resolve_entry fuel fs path in
  match r with
  | None => err
  | Some (e, _, _) =>
      if negb (Z.land (de_attr e) ATTR_DIRECTORY =? 0) then err else
      let cluster := entry_first_cluster e in
      let to_read := if de_size e <? buf_size then de_size e else buf_size in
      if 8192 <? bytes_per_cluster fs then err else
      let! bs := read_chain fuel fs to_read 0 cluster [] in
      ret (bs, de_size e)
  end.

(** The cluster chain of a new file and its data; [0] for an empty file. *)
Definition store_data fs (data : list Z) : M D Z :=
  let len := Z.of_nat (length data) in
  if len =? 0 then ret 0 else
  if bytes_per_cluster fs =? 0 then stuck else
  let! chain := alloc_chain fs (clusters_needed fs len) in
  if 8192 <? bytes_per_cluster fs then err else
  write_chain fs chain len data;;!
  ret (default 0 (head chain)).

Definition canboot_fat32_write_path (fuel : nat) fs (path data : list Z) : M D unit :=
  let! d := get in
  if negb (bd_writable d) then err else
  match split_last path 256 16 with
  | None => err
  | Some (parent, leaf) =>
      let! pc := resolve_dir fuel fs parent in
      let t := to_83 leaf in
      let! found := dir_find fuel fs pc t in
      let! slot := match found with
        | Some (existing, ec, ei) =>
            if negb (Z.land (de_attr existing) ATTR_DIRECTORY =? 0) then err else
            free_chain fuel fs (entry_first_cluster existing);;!
            ret (ec, ei)
        | None => dir_alloc_slot fuel fs pc
        end in
      let! first := store_data fs data in
      dir_write_entry fs slot.1 slot.2
        (make_entry t 0x20 first (Z.of_nat (length data)))
  end.

Definition canboot_fat32_unlink_path (fuel : nat) fs (path : list Z) : M D unit :=
  let! d := get in
  if negb (bd_writable d) then err else
  let! r := resolve_entry fuel fs path in
  match r with
  | None => err
  | Some (e, ec, ei) =>
      if negb (Z.land (de_attr e) ATTR_DIRECTORY =? 0) then err else
      free_chain fuel fs (entry_first_cluster e);;!
      dir_mark_deleted fs ec ei
  end.

(** The first cluster of a new directory: ["."] and [".."]. *)
Definition dir_template fs (dc pc : Z) : option (list Z) :=
  match dir_put (replicate (Z.to_nat (bytes_per_cluster fs)) 0) 0
          (make_entry DOT83 ATTR_DIRECTORY dc 0) with
  | None => None
  | Some buf => dir_put buf 1 (make_entry DOTDOT83 ATTR_DIRECTORY
                                 (if pc =? root_cluster fs then 0 else pc) 0)
  end.

Definition canboot_fat32_mkdir (fuel : nat) fs (path : list Z) : M D unit :=
  let! d := get in
  if negb (bd_writable d) then err else
  match split_last path 256 16 with
  | None => err
  | Some (parent, leaf) =>
      let! pc := resolve_dir fuel fs parent in
      let t := to_83 leaf in
      let! found := attempt (dir_find fuel fs pc t) in
      match found with
      | Some (Some _) => err
      | _ =>
          let! dc := find_free_cluster fs in
          write_fat_entry fs dc (Z.lor EOC 0x07);;!
          if 8192 <? bytes_per_cluster fs then err else
          let! buf := from_opt (dir_template fs dc pc) in
          write_cluster fs dc buf;;!
          let! slot := dir_alloc_slot fuel fs pc in
          dir_write_entry fs slot.1 slot.2 (make_entry t ATTR_DIRECTORY dc 0)
      end
  end.

Definition canboot_fat32_rmdir (fuel : nat) fs (path : list Z) : M D unit :=
  let! d := get in
  if negb (bd_writable d) then err else
  let! r := resolve_entry fuel fs path in
  match r with
  | None => err
  | Some (e, ec, ei) =>
      if Z.land (de_attr e) ATTR_DIRECTORY =? 0 then err else
      let dc := entry_first_cluster e in
      let! empty := dir_is_empty fuel fs dc in
      if negb empty then err else
      free_chain fuel fs dc;;!
      dir_mark_deleted fs ec ei
  end.

Definition with_name (e : fat_dir) (name : list Z) : fat_dir :=
  mkDir name (de_attr e) (de_nt_reserved e) (de_ctime_tenth e) (de_ctime e) (de_cdate e)
        (de_adate e) (de_cluster_hi e) (de_mtime e) (de_mdate e) (de_cluster_lo e) (de_size e).

Definition with_cluster (e : fat_dir) (c : Z) : fat_dir :=
  mkDir (de_name e) (de_attr e) (de_nt_reserved e) (de_ctime_tenth e) (de_ctime e) (de_cdate e)
        (de_adate e) (u16 (Z.shiftr c 16)) (de_mtime e) (de_mdate e) (u16 (Z.land c 0xFFFF))
        (de_size e).

(** A directory moved under a new parent gets its [".."] repointed. *)
Definition repoint_dotdot (fuel : nat) fs (e : fat_dir) (npc oc : Z) : M D unit :=
  if negb (Z.land (de_attr e) ATTR_DIRECTORY =? 0) && negb (npc =? oc) then
    let! r := attempt (dir_find fuel fs (entry_first_cluster e) DOTDOT83) in
    match r with
    | Some (Some (dd, ddc, ddi)) =>
        let target := if npc =? root_cluster fs then 0 else npc in
        dir_write_entry fs ddc ddi (with_cluster dd target)
    | _ => ret tt
    end
  else ret tt.

Definition canboot_fat32_rename (fuel : nat) fs (oldp newp : list Z) : M D unit :=
  let! d := get in
  if negb (bd_writable d) then err else
  let! r := resolve_entry fuel fs oldp in
  match r with
  | None => err
  | Some (e, oc, oi) =>
      match split_last newp 256 16 with
      | None => err
      | Some (parent, leaf) =>
          let! npc := resolve_dir fuel fs parent in
          let nt := to_83 leaf in
          let! found := attempt (dir_find fuel fs npc nt) in
          match found with
          | Some (Some _) => err
          | _ =>
              let! slot := dir_alloc_slot fuel fs npc in
              dir_write_entry fs slot.1 slot.2 (with_name e nt);;!
              repoint_dotdot fuel fs e npc oc;;!
              dir_mark_deleted fs oc oi
          end
      end
  end.

(** *** Listings

    [cb] is the caller's callback with its [user] state: [false] stops. *)
Section listing.
Context {U : Type}.

(** One directory cluster: [inl] when the walk ends (the count and the
    user state), [inr] to go on with the next cluster. *)
Fixpoint list_root_scan (cb : list Z -> Z -> U -> bool * U) (n : nat) (i : Z) (buf : list Z)
    (reported : Z) (u : U) : outcome ((Z * U) + (Z * U)) :=
  match n with
  | O => OK (inr (reported, u))
  | S n' =>
      match dir_at buf i with
      | None => STUCK
      | Some e =>
          if name_at e 0 =? 0 then OK (inl (reported, u))
          else if name_at e 0 =? 0xE5 then list_root_scan cb n' (i + 1) buf reported u
          else if de_attr e =? ATTR_LFN then list_root_scan cb n' (i + 1) buf reported u
          else if negb (Z.land (de_attr e) (Z.lor ATTR_VOLUME_ID ATTR_DIRECTORY) =? 0)
          then list_root_scan cb n' (i + 1) buf reported u
          else
            let (go, u) := cb (name_from_83 (de_name e)) (de_size e) u in
            if go then list_root_scan cb n' (i + 1) buf (reported + 1) u
            else OK (inl (reported + 1, u))
      end
  end.

Fixpoint list_root_loop (fuel : nat) fs (cb : list Z -> Z -> U -> bool * U)
    (cluster reported : Z) (u : U) : M D (Z * U) :=
  if cluster <? EOC then
    match fuel with
    | O => nofuel
    | S fuel' =>
        let! buf := read_cluster fs 8192 cluster in
        let! r := lift (list_root_scan cb (entries_per_cluster fs) 0 buf reported u) in
        match r with
        | inl res => ret res
        | inr (reported, u) =>
            let! next := read_fat_entry fs cluster in
            list_root_loop fuel' fs cb next reported u
        end
    end
  else ret (reported, u).

Definition canboot_fat32_list_root (fuel : nat) fs (cb : list Z -> Z -> U -> bool * U) (u : U)
    : M D (Z * U) :=
  if 8192 <? bytes_per_cluster fs then err
  else list_root_loop fuel fs cb (root_cluster fs) 0 u.

Fixpoint list_path_scan (cb : list Z -> Z -> bool -> U -> bool * U) (n : nat) (i : Z)
    (buf : list Z) (reported : Z) (u : U) : outcome ((Z * U) + (Z * U)) :=
  match n with
  | O => OK (inr (reported, u))
  | S n' =>
      match dir_at buf i with
      | None => STUCK
      | Some e =>
          if name_at e 0 =? 0 then OK (inl (reported, u))
          else if name_at e 0 =? 0xE5 then list_path_scan cb n' (i + 1) buf reported u
          else if de_attr e =? ATTR_LFN then list_path_scan cb n' (i + 1) buf reported u
          else if negb (Z.land (de_attr e) ATTR_VOLUME_ID =? 0)
          then list_path_scan cb n' (i + 1) buf reported u
          else if is_dot_entry e then list_path_scan cb n' (i + 1) buf reported u
          else
            let is_dir := negb (Z.land (de_attr e) ATTR_DIRECTORY =? 0) in
            let (go, u) := cb (name_from_83 (de_name e)) (de_size e) is_dir u in
            if go then list_path_scan cb n' (i + 1) buf (reported + 1) u
            else OK (inl (reported + 1, u))
      end
  end.

Fixpoint list_path_loop (fuel : nat) fs (cb : list Z -> Z -> bool -> U -> bool * U)
    (cluster reported : Z) (u : U) : M D (Z * U) :=
  if (2 <=? cluster) && (cluster <? EOC) then
    match fuel with
    | O => nofuel
    | S fuel' =>
        let! buf := read_cluster fs 8192 cluster in
        let! r := lift (list_path_scan cb (entries_per_cluster fs) 0 buf reported u) in
        match r with
        | inl res => ret res
        | inr (reported, u) =>
            let! next := read_fat_entry fs cluster in
            list_path_loop fuel' fs cb next reported u
        end
    end
  else ret (reported, u).

Definition canboot_fat32_list_path (fuel : nat) fs (path : list Z)
    (cb : list Z -> Z -> bool -> U -> bool * U) (u : U) : M D (Z * U) :=
  let! cluster := resolve_dir fuel fs path in
  if 8192 <? bytes_per_cluster fs then err
  else list_path_loop fuel fs cb cluster 0 u.
End listing.

(** *** mkfs *)
(** Stores into the 512-byte sector buffer; every offset is inside it. *)
Definition poke (n : nat) (off v : Z) (buf : list Z) : list Z :=
  splice (Z.to_nat off) (le_enc n v) buf.

Definition label_pad (label : option (list Z)) : list Z :=
  match label with
  | Some l => splice 0 (upper <$> take 11 l) (replicate 11 32)
  | None => [67; 65; 78; 66; 79; 79; 84; 32; 32; 32; 32]
  end.

(** The fields in front of the volume label. *)
Definition boot_head (start_lba size_lba spc fat_sectors : Z) : list Z :=
  let sect := replicate 512 0 in
  let sect := splice 0 [0xEB; 0x58; 0x90] sect in
  let sect := splice 3 [77; 83; 87; 73; 78; 52; 46; 49] sect in
  let sect := poke 2 11 512 sect in
  let sect := poke 1 13 spc sect in
  let sect := poke 2 14 32 sect in
  let sect := poke 1 16 2 sect in
  let sect := poke 2 17 0 sect in
  let sect := poke 2 19 0 sect in
  let sect := poke 1 21 0xF8 sect in
  let sect := poke 2 22 0 sect in
  let sect := poke 2 24 63 sect in
  let sect := poke 2 26 255 sect in
  let sect := poke 4 28 start_lba sect in
  let sect := poke 4 32 (if 0xFFFFFFFF <? size_lba then 0 else size_lba) sect in
  let sect := poke 4 36 fat_sectors sect in
  let sect := poke 2 40 0 sect in
  let sect := poke 2 42 0 sect in
  let sect := poke 4 44 2 sect in
  let sect := poke 2 48 1 sect in
  let sect := poke 2 50 6 sect in
  let sect := poke 1 64 0x80 sect in
  let sect := poke 1 66 0x29 sect in
  poke 4 67 0xCA17B007 sect.

Definition boot_sector (start_lba size_lba spc fat_sectors : Z) (label : option (list Z))
    : list Z :=
  let sect := boot_head start_lba size_lba spc fat_sectors in
  let sect := splice 71 (label_pad label) sect in
  let sect := splice 82 [70; 65; 84; 51; 50; 32; 32; 32] sect in
  splice 510 [0x55; 0xAA] sect.

Definition fsinfo_sector (clusters : Z) : list Z :=
  let sect := replicate 512 0 in
  let sect := poke 4 0 0x41615252 sect in
  let sect := poke 4 484 0x61417272 sect in
  let sect := poke 4 488 (clusters - 1) sect in
  let sect := poke 4 492 3 sect in
  splice 510 [0x55; 0xAA] sect.

Definition fat_head_sector : list Z :=
  poke 4 8 0x0FFFFFF8 (poke 4 4 0x0FFFFFFF (poke 4 0 0x0FFFFFF8 (replicate 512 0))).

(** Zero both FATs from sector [off] on, [n] sectors left. *)
Fixpoint zero_fats (n : nat) (fat0 fat_sectors off : Z) : M D unit :=
  match n with
  | O => ret tt
  | S n' =>
      disk_write (u64 (fat0 + off)) 1 (replicate 512 0);;!
      disk_write (u64 (fat0 + fat_sectors + off)) 1 (replicate 512 0);;!
      zero_fats n' fat0 fat_sectors (off + 1)
  end.

Fixpoint zero_sectors (n : nat) (lba : Z) : M D unit :=
  match n with
  | O => ret tt
  | S n' =>
      disk_write (u64 lba) 1 (replicate 512 0);;!
      zero_sectors n' (lba + 1)
  end.

Definition canboot_fat32_format (start_lba size_lba : Z) (label : option (list Z)) : M D unit :=
  let! d := get in
  if negb (bd_writable d) then err else
  if negb (bd_block_size d =? 512) then err else
  let spc := pick_spc size_lba in
  if spc =? 0 then err else
  let fat_sectors := fit_fat 32 size_lba spc 32 in
  let avail := u64 (size_lba - 32 - u32 (2 * fat_sectors)) in
  let clusters := u32 (avail / spc) in
  if clusters <? 65525 then err else
  let bpb := boot_sector start_lba size_lba spc fat_sectors label in
  disk_write (u64 start_lba) 1 bpb;;!
  disk_write (u64 (start_lba + 6)) 1 bpb;;!
  disk_write (u64 (start_lba + 1)) 1 (fsinfo_sector clusters);;!
  disk_write (u64 (start_lba + 7)) 1 (fsinfo_sector clusters);;!
  let fat0 := u64 (start_lba + 32) in
  disk_write fat0 1 fat_head_sector;;!
  disk_write (u64 (fat0 + fat_sectors)) 1 fat_head_sector;;!
  zero_fats (Z.to_nat (fat_sectors - 1)) fat0 fat_sectors 1;;!
  zero_sectors (Z.to_nat spc) (u64 (start_lba + 32 + u32 (2 * fat_sectors))).
End driver.
