(* ===== verification/Fat32Vol.v ===== *)
(** * FAT32: volumes

    The abstract view of a FAT32 volume on a block device: the successor of a
    cluster in the first FAT ([nxt]) and the content of a cluster ([cl]).
    The primitives of [fs/fat32.c] are shown to read and to update exactly
    these; the theorems on files and directories are proved on this view. *)
From stdpp Require Import functions.
From S2P Require Import Prelude Bytes Disk Fat32.

Section volume.
Context {D : Type} `{BlockDevice D} `{!BlockDeviceLaws D}.
Implicit Types (fs : canboot_fat32) (d : D) (c v : Z).

(** [fs] describes a volume that lies on the device: BPB sectors are device
    blocks, the FATs cover every cluster, the data area is on the disk. *)
Record vol_ok fs d : Prop := {
  vo_inv : bd_inv d;
  vo_writable : bd_writable d = true;
  vo_bps : bytes_per_sector fs = bd_block_size d;
  vo_bps_range : 64 <= bytes_per_sector fs <= 4096;
  vo_bps_mod : bytes_per_sector fs mod 32 = 0;
  vo_spc : 1 <= sectors_per_cluster fs;
  vo_bpc : bytes_per_cluster fs = bytes_per_sector fs * sectors_per_cluster fs;
  vo_bpc_max : bytes_per_cluster fs <= 8192;
  vo_fat_start : 0 <= fat_start_lba fs;
  vo_num_fats : 1 <= num_fats fs;
  vo_total : 0 <= total_clusters fs;
  vo_total_max : total_clusters fs + 2 <= EOC;
  vo_spf : 4 * (total_clusters fs + 2) <= sectors_per_fat fs * bytes_per_sector fs;
  vo_data : data_start_lba fs = fat_start_lba fs + num_fats fs * sectors_per_fat fs;
  vo_fits : data_start_lba fs + total_clusters fs * sectors_per_cluster fs
            <= bd_block_count d;
  vo_count : bd_block_count d < 2 ^ 63;
}.

(** A number with an entry in the FAT; a cluster of the data area. *)
Definition in_fat fs c : Prop := 0 <= c < total_clusters fs + 2.
Definition valid fs c : Prop := 2 <= c < total_clusters fs + 2.

(** Entry [c] of FAT copy [k]. *)
Definition fat_lba fs (k c : Z) : Z :=
  fat_start_lba fs + k * sectors_per_fat fs + c * 4 / bytes_per_sector fs.
Definition fat_raw fs d (k c : Z) : Z :=
  le_dec (slice (Z.to_nat (c * 4 mod bytes_per_sector fs)) 4 (bd_blk d (fat_lba fs k c))).
Definition nxt fs d c : Z := Z.land (fat_raw fs d 0 c) 0x0FFFFFFF.

(** The content of cluster [c]. *)
Definition cl_lba fs c : Z := data_start_lba fs + (c - 2) * sectors_per_cluster fs.
Definition cl fs d c : list Z := concat (bd_blk d <$> seqZ (cl_lba fs c) (sectors_per_cluster fs)).

(** [d] holds a volume with successors [fn] and contents [fc]. *)
Definition vol_is fs d (fn : Z -> Z) (fc : Z -> list Z) : Prop :=
  vol_ok fs d /\ (forall c, in_fat fs c -> nxt fs d c = fn c) /\
  (forall c, valid fs c -> cl fs d c = fc c).

Lemma vol_is_refl fs d : vol_ok fs d -> vol_is fs d (nxt fs d) (cl fs d).
Proof. by split. Qed.

Lemma vol_ok_geometry fs d d' :
  vol_ok fs d -> bd_inv d' -> same_geometry d d' -> vol_ok fs d'.
Proof.
  intros V ? (? & Hbs & Hbc & Hw). destruct V; split; auto; congruence.
Qed.

(** ** Arithmetic of the layout *)
Lemma spb_run fs d : vol_ok fs d -> spb_of fs d = (OK 1, d).
Proof.
  intros V. destruct V. unfold spb_of. rewrite (bind_OK _ _ _ d d) by done. cbv beta.
  rewrite (proj2 (Z.eqb_neq _ _)) by lia. rewrite vo_bps0, Z.div_same by lia. done.
Qed.

Lemma fat_off_bounds fs d c : vol_ok fs d -> in_fat fs c ->
  0 <= c * 4 mod bytes_per_sector fs /\
  c * 4 mod bytes_per_sector fs + 4 <= bytes_per_sector fs /\
  0 <= c * 4 / bytes_per_sector fs < sectors_per_fat fs /\ u32 (c * 4) = c * 4.
Proof.
  intros V [? ?]. pose proof (vo_bps_range _ _ V) as Hb. pose proof (vo_bps_mod _ _ V) as Hm.
  pose proof (vo_total_max _ _ V) as Hmax. pose proof (vo_spf _ _ V) as Hspf. clear V. unfold EOC in Hmax.
  apply Z.mod_divide in Hm as [k Hk]; [|lia].
  pose proof (Z.mod_pos_bound (c * 4) (bytes_per_sector fs) ltac:(lia)) as Hr.
  pose proof (Z.div_mod (c * 4) (bytes_per_sector fs) ltac:(lia)) as Hdiv.
  set (q := c * 4 / bytes_per_sector fs) in *. set (r := c * 4 mod bytes_per_sector fs) in *.
  assert (Hr' : r = 4 * (c - 8 * (k * q))) by (rewrite Hk in Hdiv; lia).
  split; [lia|]. split; [lia|]. split; [|apply u32_small; lia]. split.
  - apply Z.div_pos; lia.
  - apply Z.div_lt_upper_bound; lia.
Qed.

Lemma fat_lba_range fs d k c : vol_ok fs d -> in_fat fs c -> 0 <= k < num_fats fs ->
  fat_start_lba fs <= fat_lba fs k c < data_start_lba fs.
Proof.
  intros V Hc ?. destruct (fat_off_bounds fs d c V Hc) as (_ & _ & ? & _). destruct V.
  unfold fat_lba. rewrite vo_data0. nia.
Qed.

Lemma data_start_le fs d : vol_ok fs d -> data_start_lba fs <= bd_block_count d.
Proof. intros V. destruct V. nia. Qed.

Lemma cl_lba_range fs d c : vol_ok fs d -> valid fs c ->
  data_start_lba fs <= cl_lba fs c /\
  cl_lba fs c + sectors_per_cluster fs <= bd_block_count d /\ 0 <= data_start_lba fs.
Proof.
  intros V [? ?]. destruct V. unfold cl_lba. rewrite vo_data0 in *.
  assert (0 < sectors_per_fat fs) by nia. nia.
Qed.

Lemma nf_bounds fs d : vol_ok fs d ->
  0 < sectors_per_fat fs /\ 0 < bd_block_size d <= 4096 /\ 0 <= data_start_lba fs.
Proof. intros V. destruct V. rewrite vo_data0. nia. Qed.

Lemma blk_length fs d i : vol_ok fs d -> 0 <= i < bd_block_count d ->
  Z.of_nat (length (bd_blk d i)) = bytes_per_sector fs.
Proof. intros V ?. rewrite (vo_bps _ _ V). apply bd_blk_length; [apply V|done]. Qed.

(** ** The primitives *)
Lemma read_fat_sector fs d k c : vol_ok fs d -> in_fat fs c -> 0 <= k < num_fats fs ->
  disk_read_sector 4096 (fat_lba fs k c) d = (OK (bd_blk d (fat_lba fs k c)), d) /\
  getle 4 (c * 4 mod bytes_per_sector fs) (bd_blk d (fat_lba fs k c))
    = Some (fat_raw fs d k c).
Proof.
  intros V Hc Hk. destruct (fat_off_bounds fs d c V Hc) as (? & ? & ? & Hu).
  pose proof (fat_lba_range fs d k c V Hc Hk). pose proof (data_start_le fs d V).
  pose proof (nf_bounds fs d V). pose proof (vo_fat_start _ _ V). split.
  - apply disk_read_one; [apply V|lia|lia].
  - rewrite getle_Some; [done|lia|]. rewrite (blk_length fs d _ V) by lia. lia.
Qed.

Lemma read_fat_entry_run fs d c : vol_ok fs d -> in_fat fs c ->
  read_fat_entry fs c d = (OK (nxt fs d c), d).
Proof.
  intros V Hc. destruct (fat_off_bounds fs d c V Hc) as (? & ? & ? & Hu).
  pose proof (vo_num_fats _ _ V).
  destruct (read_fat_sector fs d 0 c V Hc ltac:(lia)) as [Hs Hg].
  unfold read_fat_entry. rewrite Hu. bstep (spb_run fs d V).
  replace (u64 (fat_start_lba fs + u32 (c * 4 / bytes_per_sector fs * 1)))
    with (fat_lba fs 0 c).
  - bstep Hs. rewrite Hg. done.
  - pose proof (fat_lba_range fs d 0 c V Hc ltac:(lia)). pose proof (data_start_le fs d V).
    pose proof (vo_count _ _ V). pose proof (vo_fat_start _ _ V).
    assert (u32 (c * 4 / bytes_per_sector fs * 1) = c * 4 / bytes_per_sector fs) as ->.
    { rewrite Z.mul_1_r. apply u32_small. pose proof (u32_range (c * 4)). rewrite Hu in *.
      pose proof (vo_bps_range _ _ V). split; [lia|].
      apply Z.div_lt_upper_bound; nia. }
    rewrite u64_small; unfold fat_lba in *; lia.
Qed.

(** Overwriting one FAT entry in one copy. *)
Definition fat_mix (old v : Z) : Z := Z.lor (Z.land old 0xF0000000) (Z.land v 0x0FFFFFFF).

Lemma mask28 v : Z.land v 0x0FFFFFFF = v mod 2 ^ 28.
Proof. change 0x0FFFFFFF with (Z.ones 28). apply Z.land_ones. lia. Qed.

Lemma fat_mix_mod old v : fat_mix old v mod 2 ^ 32 = fat_mix old v.
Proof.
  unfold fat_mix. change 0xF0000000 with (Z.shiftl (Z.ones 4) 28).
  change 0x0FFFFFFF with (Z.ones 28). rewrite <- Z.land_ones by lia. zbits.
Qed.

Lemma fat_mix_low old v : Z.land (fat_mix old v) 0x0FFFFFFF = Z.land v 0x0FFFFFFF.
Proof.
  unfold fat_mix. change 0xF0000000 with (Z.shiftl (Z.ones 4) 28).
  change 0x0FFFFFFF with (Z.ones 28). zbits.
Qed.

(** The reserved top nibble of an entry survives. *)
Lemma fat_mix_high old v : Z.land (fat_mix old v) 0xF0000000 = Z.land old 0xF0000000.
Proof.
  unfold fat_mix. change 0xF0000000 with (Z.shiftl (Z.ones 4) 28).
  change 0x0FFFFFFF with (Z.ones 28). zbits.
Qed.

Lemma fat_lba_inj fs d k c k' c' : vol_ok fs d -> in_fat fs c -> in_fat fs c' ->
  fat_lba fs k c = fat_lba fs k' c' -> k = k' /\
  c * 4 / bytes_per_sector fs = c' * 4 / bytes_per_sector fs.
Proof.
  intros V Hc Hc' E.
  destruct (fat_off_bounds fs d c V Hc) as (_ & _ & ? & _).
  destruct (fat_off_bounds fs d c' V Hc') as (_ & _ & ? & _).
  unfold fat_lba in E. apply (Z.div_mod_unique (sectors_per_fat fs)); [lia|lia|nia].
Qed.

Lemma fat_off_disjoint fs d c c' : vol_ok fs d -> in_fat fs c -> in_fat fs c' -> c <> c' ->
  c * 4 / bytes_per_sector fs = c' * 4 / bytes_per_sector fs ->
  c * 4 mod bytes_per_sector fs + 4 <= c' * 4 mod bytes_per_sector fs \/
  c' * 4 mod bytes_per_sector fs + 4 <= c * 4 mod bytes_per_sector fs.
Proof.
  intros V Hc Hc' Hne E. pose proof (vo_bps_range _ _ V).
  pose proof (Z.div_mod (c * 4) (bytes_per_sector fs) ltac:(lia)).
  pose proof (Z.div_mod (c' * 4) (bytes_per_sector fs) ltac:(lia)).
  rewrite E in *. lia.
Qed.

(** Blocks outside the FAT area are the same. *)
Definition same_outside_fat fs d d' : Prop :=
  forall i, 0 <= i < bd_block_count d -> i < fat_start_lba fs \/ data_start_lba fs <= i ->
    bd_blk d' i = bd_blk d i.

Lemma put_fat_sector fs d k c v : vol_ok fs d -> in_fat fs c -> 0 <= k < num_fats fs ->
  exists d',
    disk_write_sector (fat_lba fs k c)
      (splice (Z.to_nat (c * 4 mod bytes_per_sector fs)) (le_enc 4 v)
         (bd_blk d (fat_lba fs k c))) d = (OK tt, d') /\
    vol_ok fs d' /\ same_geometry d d' /\ same_outside_fat fs d d' /\
    fat_raw fs d' k c = v mod 2 ^ 32 /\
    (forall k' c', in_fat fs c' -> 0 <= k' < num_fats fs -> k' <> k \/ c' <> c ->
       fat_raw fs d' k' c' = fat_raw fs d k' c').
Proof.
  intros V Hc Hk. destruct (fat_off_bounds fs d c V Hc) as (? & ? & ? & _).
  pose proof (fat_lba_range fs d k c V Hc Hk). pose proof (data_start_le fs d V).
  pose proof (vo_fat_start _ _ V).
  pose proof (blk_length fs d (fat_lba fs k c) V ltac:(lia)) as Hlen.
  destruct (disk_write_one d (fat_lba fs k c)
    (splice (Z.to_nat (c * 4 mod bytes_per_sector fs)) (le_enc 4 v)
       (bd_blk d (fat_lba fs k c)))) as (d' & Hw & Hi & Hg & Hsame & Hother);
    [apply V|apply V|lia| |].
  { rewrite length_splice by (rewrite length_le_enc; lia). rewrite Hlen. apply V. }
  exists d'. split; [exact Hw|]. split; [by eapply vol_ok_geometry|]. split; [done|].
  split; [|split].
  - intros i Hir Hout. apply Hother; lia.
  - unfold fat_raw. rewrite Hsame. change (8 * Z.of_nat 4) with 32.
    rewrite le_dec_slice_put by lia. done.
  - intros k' c' Hc' Hk' Hne. unfold fat_raw.
    pose proof (fat_lba_range fs d k' c' V Hc' Hk').
    destruct (decide (fat_lba fs k' c' = fat_lba fs k c)) as [E|E].
    + destruct (fat_lba_inj fs d k' c' k c V Hc' Hc E) as [-> Eq].
      assert (c' <> c) as Hcc by (destruct Hne; congruence).
      pose proof (fat_off_disjoint fs d c' c V Hc' Hc Hcc Eq).
      destruct (fat_off_bounds fs d c' V Hc') as (? & ? & _ & _).
      rewrite E, Hsame. f_equal. apply slice_splice_other; rewrite ?length_le_enc; lia.
    + rewrite Hother; [done|lia|done].
Qed.

Lemma write_fat_copies_run fs c v (n : nat) k d :
  vol_ok fs d -> in_fat fs c -> 0 <= k -> k + Z.of_nat n <= num_fats fs ->
  exists d', write_fat_copies n fs 1 (c * 4) k v d = (OK tt, d') /\
    vol_ok fs d' /\ same_geometry d d' /\ same_outside_fat fs d d' /\
    (forall j, k <= j < k + Z.of_nat n ->
       fat_raw fs d' j c = fat_mix (fat_raw fs d j c) v) /\
    (forall j c', in_fat fs c' -> 0 <= j < num_fats fs ->
       (j < k \/ k + Z.of_nat n <= j) \/ c' <> c -> fat_raw fs d' j c' = fat_raw fs d j c').
Proof.
  revert k d. induction n as [|n IH]; intros k d V Hc Hk Hn.
  { exists d. repeat split; try done; [apply V..|intros; lia]. }
  destruct (fat_off_bounds fs d c V Hc) as (? & ? & ? & Hu).
  pose proof (fat_lba_range fs d k c V Hc ltac:(lia)) as Hl. pose proof (data_start_le fs d V).
  pose proof (vo_count _ _ V). pose proof (vo_fat_start _ _ V).
  pose proof (blk_length fs d (fat_lba fs k c) V ltac:(lia)) as Hlen.
  destruct (read_fat_sector fs d k c V Hc ltac:(lia)) as [Hs Hgl].
  destruct (put_fat_sector fs d k c (fat_mix (fat_raw fs d k c) v) V Hc ltac:(lia))
    as (d1 & Hw & V1 & Hg1 & Hout1 & Hsame & Hoth).
  destruct (IH (k + 1) d1 V1 Hc ltac:(lia) ltac:(lia))
    as (d2 & Hrun & V2 & Hg2 & Hout2 & Hsame2 & Hoth2).
  exists d2. split.
  { cbn [write_fat_copies].
    replace (u64 _) with (fat_lba fs k c).
    2:{ rewrite !Z.mul_1_r. rewrite (u32_small (c * 4 / bytes_per_sector fs)).
        2:{ pose proof (u32_range (c * 4)). rewrite Hu in *.
            pose proof (vo_bps_range _ _ V). split; [lia|]. apply Z.div_lt_upper_bound; nia. }
        unfold fat_lba in *. pose proof (nf_bounds fs d V).
        rewrite (u64_small (k * _)) by nia. rewrite u64_small by lia. lia. }
    bstep Hs. rewrite Hgl. cbn [from_opt]. rewrite bind_ret. fold (fat_mix (fat_raw fs d k c) v).
    rewrite putle_Some by lia. cbn [from_opt]. rewrite bind_ret. bstep Hw. exact Hrun. }
  split; [done|]. split; [by transitivity d1|]. split; [|split].
  - intros i Hi Ho. rewrite Hout2; [by apply Hout1| |done].
    destruct Hg1 as (_ & _ & -> & _). done.
  - intros j Hj. destruct (decide (j = k)) as [->|].
    + rewrite Hoth2 by (try done; lia). rewrite Hsame. apply fat_mix_mod.
    + rewrite Hsame2 by lia. f_equal. apply Hoth; try done; lia.
  - intros j c' Hc' Hj Hne. rewrite Hoth2 by (try done; lia).
    apply Hoth; try done. destruct Hne; [left; lia|by right].
Qed.

Lemma cl_same fs d d' c : vol_ok fs d -> valid fs c -> same_outside_fat fs d d' ->
  cl fs d' c = cl fs d c.
Proof.
  intros V Hc Hout. unfold cl. f_equal. apply list_fmap_ext. intros i x Hx.
  apply lookup_seqZ in Hx. pose proof (cl_lba_range fs d c V Hc).
  apply Hout; [|right]; lia.
Qed.

(** [write_fat_entry] changes entry [c] of every FAT copy, keeping the
    reserved nibble, and nothing else. *)
Lemma write_fat_entry_full fs d c v : vol_ok fs d -> in_fat fs c ->
  exists d', write_fat_entry fs c v d = (OK tt, d') /\
    vol_ok fs d' /\ same_geometry d d' /\ same_outside_fat fs d d' /\
    (forall k, 0 <= k < num_fats fs -> fat_raw fs d' k c = fat_mix (fat_raw fs d k c) v) /\
    (forall k c', in_fat fs c' -> 0 <= k < num_fats fs -> c' <> c ->
       fat_raw fs d' k c' = fat_raw fs d k c').
Proof.
  intros V Hc. destruct (fat_off_bounds fs d c V Hc) as (_ & _ & _ & Hu).
  pose proof (vo_num_fats _ _ V).
  destruct (write_fat_copies_run fs c v (Z.to_nat (num_fats fs)) 0 d V Hc)
    as (d' & Hrun & V' & Hg & Hout & Hs & Ho); [lia|lia|].
  exists d'. split.
  { unfold write_fat_entry. bstep (spb_run fs d V). by rewrite Hu. }
  do 3 (split; [done|]). split; intros; [apply Hs; lia|apply Ho; auto].
Qed.

Lemma write_fat_entry_run fs d c v : vol_ok fs d -> in_fat fs c ->
  exists d', write_fat_entry fs c v d = (OK tt, d') /\
    vol_is fs d' (<[c := v mod 2 ^ 28]> (nxt fs d)) (cl fs d).
Proof.
  intros V Hc. destruct (write_fat_entry_full fs d c v V Hc)
    as (d' & Hrun & V' & Hg & Hout & Hs & Ho).
  pose proof (vo_num_fats _ _ V).
  exists d'. split; [done|]. split; [done|]. split.
  - intros c' Hc'. unfold nxt. destruct (decide (c' = c)) as [->|Hne].
    + rewrite fn_lookup_insert. rewrite Hs by lia. by rewrite fat_mix_low, mask28.
    + rewrite fn_lookup_insert_ne by done. rewrite Ho by (try done; lia). done.
  - intros c' Hc'. by apply cl_same.
Qed.

(** ** Clusters *)
Lemma cluster_lba_run fs d c : vol_ok fs d -> valid fs c ->
  cluster_lba fs c d = (OK (cl_lba fs c), d).
Proof.
  intros V Hc. pose proof (cl_lba_range fs d c V Hc). pose proof (vo_count _ _ V).
  pose proof (vo_total_max _ _ V). pose proof (vo_spc _ _ V). destruct Hc.
  unfold cluster_lba. bstep (spb_run fs d V). unfold EOC, ret in *. do 2 f_equal.
  rewrite (u32_small (c - 2)) by lia. unfold cl_lba in *. rewrite Z.mul_1_r.
  rewrite (u64_small (_ * _)) by nia. rewrite u64_small by nia. done.
Qed.

Lemma cl_length fs d c : vol_ok fs d -> valid fs c ->
  Z.of_nat (length (cl fs d c)) = bytes_per_cluster fs.
Proof.
  intros V Hc. pose proof (cl_lba_range fs d c V Hc). pose proof (vo_spc _ _ V).
  pose proof (vo_bps_range _ _ V).
  unfold cl. rewrite (length_concat_const _ _ (Z.to_nat (bytes_per_sector fs))).
  - rewrite length_seqZ, (vo_bpc _ _ V). nia.
  - intros x Hx%elem_of_seqZ. pose proof (blk_length fs d x V ltac:(lia)). lia.
Qed.

Lemma spc_u32 fs d : vol_ok fs d -> u32 (sectors_per_cluster fs * 1) = sectors_per_cluster fs.
Proof.
  intros V. rewrite Z.mul_1_r. apply u32_small. pose proof (vo_spc _ _ V).
  pose proof (vo_bpc _ _ V). pose proof (vo_bpc_max _ _ V). pose proof (vo_bps_range _ _ V). nia.
Qed.

Lemma read_cluster_run fs d c : vol_ok fs d -> valid fs c ->
  read_cluster fs 8192 c d = (OK (cl fs d c), d).
Proof.
  intros V Hc. pose proof (cl_lba_range fs d c V Hc). pose proof (vo_spc _ _ V).
  unfold read_cluster. bstep (cluster_lba_run fs d c V Hc). bstep (spb_run fs d V).
  rewrite (spc_u32 fs d V). apply disk_read_run; [apply V|lia..|].
  rewrite <- (vo_bps _ _ V). pose proof (vo_bpc _ _ V). pose proof (vo_bpc_max _ _ V). lia.
Qed.

Lemma write_cluster_run fs d c buf : vol_ok fs d -> valid fs c ->
  Z.of_nat (length buf) = bytes_per_cluster fs ->
  exists d', write_cluster fs c buf d = (OK tt, d') /\
    vol_is fs d' (nxt fs d) (<[c := buf]> (cl fs d)).
Proof.
  intros V Hc Hl. pose proof (cl_lba_range fs d c V Hc). pose proof (vo_spc _ _ V) as Hspc.
  pose proof (vo_bps _ _ V) as Hbps. pose proof (vo_bpc _ _ V) as Hbpc.
  pose proof (vo_bps_range _ _ V). pose proof (vo_fat_start _ _ V).
  destruct (disk_write_run d (cl_lba fs c) (sectors_per_cluster fs) buf)
    as (d' & Hw & Hi & Hg & Hb); [apply V|apply V|lia..|].
  exists d'. split.
  { unfold write_cluster. bstep (cluster_lba_run fs d c V Hc). bstep (spb_run fs d V).
    by rewrite (spc_u32 fs d V). }
  split; [by eapply vol_ok_geometry|]. split.
  - intros c' Hc'. unfold nxt, fat_raw.
    pose proof (fat_lba_range fs d 0 c' V Hc' ltac:(pose proof (vo_num_fats _ _ V); lia)).
    rewrite Hb, decide_False by lia. done.
  - intros c' Hc'. pose proof (cl_lba_range fs d c' V Hc').
    destruct (decide (c' = c)) as [->|Hne].
    + rewrite fn_lookup_insert. unfold cl.
      etransitivity; [|apply (concat_slices_seqZ buf (cl_lba fs c) (bd_block_size d)
                                (sectors_per_cluster fs));
                     rewrite <- ?Hbps; lia].
      f_equal. apply list_fmap_ext. intros i x Hx%lookup_seqZ.
      rewrite Hb, decide_True by lia. done.
    + rewrite fn_lookup_insert_ne by done. unfold cl. f_equal. apply list_fmap_ext.
      intros i x Hx%lookup_seqZ. rewrite Hb by lia. rewrite decide_False; [done|].
      unfold cl_lba in *. assert (c' < c \/ c < c') as [?|?] by lia; nia.
Qed.

(** ** Composing updates *)
Lemma vol_is_ok fs d fn fc : vol_is fs d fn fc -> vol_ok fs d.
Proof. by intros []. Qed.

Lemma read_fat_is fs d fn fc c : vol_is fs d fn fc -> in_fat fs c ->
  read_fat_entry fs c d = (OK (fn c), d).
Proof. intros (V & Hn & _) Hc. rewrite <- Hn by done. by apply read_fat_entry_run. Qed.

Lemma write_fat_is fs d fn fc c v : vol_is fs d fn fc -> in_fat fs c ->
  exists d', write_fat_entry fs c v d = (OK tt, d') /\
    vol_is fs d' (<[c := v mod 2 ^ 28]> fn) fc.
Proof.
  intros (V & Hn & Hcl) Hc. destruct (write_fat_entry_run fs d c v V Hc)
    as (d' & Hr & V' & Hn' & Hcl'). exists d'. split; [done|]. split; [done|]. split.
  - intros c' Hc'. rewrite Hn' by done. unfold insert, fn_insert.
    case_decide; [done|by apply Hn].
  - intros c' Hc'. rewrite Hcl' by done. by apply Hcl.
Qed.

Lemma read_cluster_is fs d fn fc c : vol_is fs d fn fc -> valid fs c ->
  read_cluster fs 8192 c d = (OK (fc c), d).
Proof. intros (V & _ & Hcl) Hc. rewrite <- Hcl by done. by apply read_cluster_run. Qed.

Lemma write_cluster_is fs d fn fc c buf : vol_is fs d fn fc -> valid fs c ->
  Z.of_nat (length buf) = bytes_per_cluster fs ->
  exists d', write_cluster fs c buf d = (OK tt, d') /\
    vol_is fs d' fn (<[c := buf]> fc).
Proof.
  intros (V & Hn & Hcl) Hc Hl. destruct (write_cluster_run fs d c buf V Hc Hl)
    as (d' & Hr & V' & Hn' & Hcl'). exists d'. split; [done|]. split; [done|]. split.
  - intros c' Hc'. rewrite Hn' by done. by apply Hn.
  - intros c' Hc'. rewrite Hcl' by done. unfold insert, fn_insert.
    case_decide; [done|by apply Hcl].
Qed.

Lemma cl_is_length fs d fn fc c : vol_is fs d fn fc -> valid fs c ->
  Z.of_nat (length (fc c)) = bytes_per_cluster fs.
Proof. intros (V & _ & Hcl) Hc. rewrite <- Hcl by done. by apply cl_length. Qed.

Lemma valid_in_fat fs c : valid fs c -> in_fat fs c.
Proof. unfold valid, in_fat. lia. Qed.

Lemma valid_lt_EOC fs d c : vol_ok fs d -> valid fs c -> 2 <= c < EOC.
Proof. intros V [? ?]. pose proof (vo_total_max _ _ V). lia. Qed.
End volume.

#[export] Hint Resolve valid_in_fat vol_is_ok vol_is_refl : canboot.
