(* ===== verification/Fat32Alloc.v ===== *)
(** * FAT32: cluster allocation and chains

    [find_free_cluster], [reserve_clusters], [link_chain], [alloc_chain],
    [free_chain] and the copy loops [write_chain] and [read_chain] on the
    abstract volume of [Fat32Vol]. *)
From stdpp Require Import functions.
From S2P Require Import Prelude Bytes Disk Fat32 Fat32Vol.

(** The end-of-chain mark the code stores. *)
Definition MARK : Z := 0x0FFFFFFF.

(** Following [fn] from [c] visits the clusters [cs] and stops at an
    end-of-chain value. *)
Fixpoint is_chain (fs : canboot_fat32) (fn : Z -> Z) (c : Z) (cs : list Z) : Prop :=
  match cs with
  | [] => EOC <= c
  | x :: t => x = c /\ valid fs c /\ is_chain fs fn (fn c) t
  end.

(** Successors after [cs] have been marked allocated. *)
Definition marked (cs : list Z) (fn : Z -> Z) : Z -> Z :=
  fun x => if decide (x ∈ cs) then MARK else fn x.

(** Successors after [cs] have been freed. *)
Definition freed (cs : list Z) (fn : Z -> Z) : Z -> Z :=
  fun x => if decide (x ∈ cs) then 0 else fn x.

(** Successors after [cs] have been linked in order. *)
Fixpoint linked (cs : list Z) (fn : Z -> Z) : Z -> Z :=
  match cs with
  | [] => fn
  | c :: t => linked t (<[c := match t with [] => MARK | n :: _ => n end]> fn)
  end.

(** The zero-padded chunk a cluster receives, and the contents after the
    chunks of [data] have been stored in [cs]. *)
Definition padded (bpc : nat) (data : list Z) : list Z :=
  splice 0 (take bpc data) (replicate bpc 0).

Fixpoint filled (bpc : nat) (cs : list Z) (data : list Z) (fc : Z -> list Z) : Z -> list Z :=
  match cs with
  | [] => fc
  | c :: t => filled bpc t (drop bpc data) (<[c := padded bpc data]> fc)
  end.

Lemma marked_cons f cs fn x : f ∉ cs ->
  marked cs (<[f := MARK]> fn) x = marked (f :: cs) fn x.
Proof.
  intros Hf. unfold marked. destruct (decide (x = f)) as [->|Hne].
  - rewrite decide_False by done. rewrite decide_True by left. apply fn_lookup_insert.
  - rewrite fn_lookup_insert_ne by done. apply decide_ext. rewrite elem_of_cons. tauto.
Qed.

Lemma freed_cons f cs fn x : f ∉ cs ->
  freed cs (<[f := 0]> fn) x = freed (f :: cs) fn x.
Proof.
  intros Hf. unfold freed. destruct (decide (x = f)) as [->|Hne].
  - rewrite decide_False by done. rewrite decide_True by left. apply fn_lookup_insert.
  - rewrite fn_lookup_insert_ne by done. apply decide_ext. rewrite elem_of_cons. tauto.
Qed.

Section chains.
Context (fs : canboot_fat32).
Implicit Types (fn : Z -> Z) (cs : list Z).

Lemma is_chain_unique fn c cs cs' :
  2 + total_clusters fs <= EOC -> is_chain fs fn c cs -> is_chain fs fn c cs' -> cs = cs'.
Proof.
  intros Ht. revert c cs'. induction cs as [|x cs IH]; intros c [|y cs'] H1 H2;
    cbn in *; unfold valid in *; try (exfalso; lia); [done|].
  destruct H1 as (-> & _ & ?), H2 as (-> & _ & ?). f_equal. eauto.
Qed.

Lemma is_chain_suffix fn c cs i x :
  is_chain fs fn c cs -> cs !! i = Some x -> is_chain fs fn x (drop i cs).
Proof.
  revert c i. induction cs as [|y cs IH]; intros c i Hc Hi; [done|].
  destruct i as [|i]; cbn in *; [by simplify_eq; destruct Hc as (-> & ?)|].
  destruct Hc as (_ & _ & ?). eauto.
Qed.

Lemma is_chain_NoDup fn c cs :
  2 + total_clusters fs <= EOC -> is_chain fs fn c cs -> NoDup cs.
Proof.
  intros Ht Hc. apply NoDup_alt. intros i j x Hi Hj.
  pose proof (is_chain_suffix _ _ _ _ _ Hc Hi) as H1.
  pose proof (is_chain_suffix _ _ _ _ _ Hc Hj) as H2.
  pose proof (is_chain_unique _ _ _ _ Ht H1 H2) as E. apply (f_equal length) in E.
  rewrite !length_drop in E. apply lookup_lt_Some in Hi, Hj. lia.
Qed.

Lemma is_chain_valid fn c cs : is_chain fs fn c cs -> Forall (valid fs) cs.
Proof.
  revert c. induction cs as [|x cs IH]; intros c Hc; constructor; cbn in Hc.
  - by destruct Hc as (-> & ? & _).
  - destruct Hc as (_ & _ & ?). eauto.
Qed.

(** Members of a chain are allocated. *)
Lemma is_chain_allocated fn c cs x : is_chain fs fn c cs -> x ∈ cs -> fn x <> 0.
Proof.
  revert c. induction cs as [|y cs IH]; intros c Hc Hx; [by apply elem_of_nil in Hx|].
  destruct Hc as (-> & _ & Hc). apply elem_of_cons in Hx as [->|?]; [|by eauto].
  destruct cs as [|z cs]; cbn in Hc; [unfold EOC in Hc; lia|].
  destruct Hc as (_ & [? ?] & _). lia.
Qed.

Lemma is_chain_agree fn fn' c cs :
  (forall x, x ∈ cs -> fn' x = fn x) -> is_chain fs fn c cs -> is_chain fs fn' c cs.
Proof.
  revert c. induction cs as [|y cs IH]; intros c He Hc; [done|].
  destruct Hc as (-> & ? & Hc). cbn. rewrite He by set_solver. split_and!; auto.
  apply IH; [set_solver|done].
Qed.

(** A chain is no longer than the volume has clusters, so that many steps
    of fuel are enough for every walk along it. *)
Lemma chain_fuel fn c cs :
  2 + total_clusters fs <= EOC -> is_chain fs fn c cs ->
  (length cs <= Z.to_nat (total_clusters fs))%nat.
Proof.
  intros Ht Hc. pose proof (is_chain_NoDup _ _ _ Ht Hc) as Hnd.
  pose proof (is_chain_valid _ _ _ Hc) as Hv.
  replace (Z.to_nat (total_clusters fs)) with (length (seqZ 2 (total_clusters fs)))
    by apply length_seqZ.
  apply submseteq_length, NoDup_submseteq; [done|]. intros x Hx.
  rewrite Forall_forall in Hv. apply Hv in Hx. apply elem_of_seqZ. unfold valid in Hx. lia.
Qed.

(** The number of free clusters. *)
Definition nfree fn : nat :=
  length (filter (fun c => fn c = 0) (seqZ 2 (total_clusters fs))).

Lemma nfree_le fn fn' l :
  (forall x, valid fs x -> fn x = 0 -> fn' x = 0 \/ x ∈ l) ->
  (nfree fn <= nfree fn' + length l)%nat.
Proof.
  intros Hx. unfold nfree. rewrite <- length_app.
  apply submseteq_length, NoDup_submseteq.
  - apply NoDup_filter, NoDup_seqZ.
  - intros x [H0 Hs]%list_elem_of_filter. apply elem_of_app.
    assert (valid fs x) as Hv by (apply elem_of_seqZ in Hs; unfold valid; lia).
    destruct (Hx x Hv H0); [left; by apply list_elem_of_filter|by right].
Qed.

(** On a full volume every cluster that was free is among the marked ones. *)
Lemma nfree_full fn cs :
  (forall x, valid fs x -> marked cs fn x <> 0) -> (nfree fn <= length cs)%nat.
Proof.
  intros Hf. pose proof (nfree_le fn (fun _ => 1) cs) as Hn.
  assert (nfree (fun _ => 1) = 0%nat) as E.
  { unfold nfree. rewrite length_zero_iff_nil. apply elem_of_nil_inv.
    intros x [? _]%list_elem_of_filter. done. }
  rewrite E in Hn. apply Hn. intros x Hv H0. right. specialize (Hf x Hv).
  unfold marked in Hf. by case_decide.
Qed.

Lemma linked_other cs fn x : x ∉ cs -> linked cs fn x = fn x.
Proof.
  revert fn. induction cs as [|c cs IH]; intros fn Hx; [done|]. cbn.
  rewrite IH by set_solver. apply fn_lookup_insert_ne. set_solver.
Qed.

Lemma linked_chain cs fn :
  NoDup cs -> Forall (valid fs) cs -> cs <> [] ->
  is_chain fs (linked cs fn) (default 0 (head cs)) cs.
Proof.
  revert fn. induction cs as [|c cs IH]; intros fn Hnd Hv Hne; [done|].
  apply NoDup_cons in Hnd as [Hc Hnd]. apply Forall_cons in Hv as [? Hv]. cbn.
  split; [done|]. split; [done|]. rewrite linked_other by done.
  rewrite fn_lookup_insert. destruct cs as [|c' cs]; [done|].
  by apply (IH (<[c := c']> fn) Hnd Hv).
Qed.

Lemma filled_other bpc cs data fc x : x ∉ cs -> filled bpc cs data fc x = fc x.
Proof.
  revert data fc. induction cs as [|c cs IH]; intros data fc Hx; [done|]. cbn.
  rewrite IH by set_solver. apply fn_lookup_insert_ne. set_solver.
Qed.

Lemma length_padded bpc data : length (padded bpc data) = bpc.
Proof.
  unfold padded. rewrite length_splice, length_replicate; [done|].
  rewrite length_take, length_replicate. lia.
Qed.

Lemma padded_take bpc data : take (length data) (padded bpc data) = take bpc data.
Proof.
  unfold padded, splice. cbn [take]. rewrite app_nil_l.
  destruct (decide (length data <= bpc)%nat).
  - rewrite (firstn_all2 data) by lia. rewrite take_app_le by lia. by rewrite firstn_all.
  - rewrite drop_ge by (rewrite length_replicate, length_take; lia).
    rewrite app_nil_r. rewrite take_take. by rewrite Nat.min_r by lia.
Qed.

(** Reading the clusters back gives the data and the padding. *)
Lemma filled_concat bpc cs data fc :
  (0 < bpc)%nat -> NoDup cs -> (length data <= length cs * bpc)%nat ->
  take (length data) (concat (filled bpc cs data fc <$> cs)) = data.
Proof.
  intros Hb. revert data fc. induction cs as [|c cs IH]; intros data fc Hnd Hl.
  { destruct data; [done|cbn in Hl; lia]. }
  apply NoDup_cons in Hnd as [Hc Hnd]. cbn. rewrite filled_other by done.
  rewrite fn_lookup_insert. rewrite take_app, length_padded, padded_take.
  transitivity (take bpc data ++ drop bpc data); [|apply take_drop]. f_equal.
  etransitivity; [|apply (IH (drop bpc data) (<[c := padded bpc data]> fc)); [done|]].
  - by rewrite length_drop.
  - rewrite length_drop. cbn in Hl. lia.
Qed.
End chains.

Section alloc.
Context {D : Type} `{BlockDevice D} `{!BlockDeviceLaws D}.
Implicit Types (fs : canboot_fat32) (d : D) (c v : Z) (fn : Z -> Z) (fc : Z -> list Z).

Lemma vol_is_ext fs d fn fc fn' fc' :
  vol_is fs d fn fc -> (forall c, in_fat fs c -> fn c = fn' c) ->
  (forall c, valid fs c -> fc c = fc' c) -> vol_is fs d fn' fc'.
Proof.
  intros (V & Hn & Hc) H1 H2. split; [done|]. split; intros.
  - by rewrite Hn, H1.
  - by rewrite Hc, H2.
Qed.

Lemma total_le_EOC fs d : vol_ok fs d -> 2 + total_clusters fs <= EOC.
Proof. intros V. pose proof (vo_total_max _ _ V). lia. Qed.

(** ** Free clusters *)
Lemma find_free_from_run fs d fn fc (n : nat) c :
  vol_is fs d fn fc -> 2 <= c -> c + Z.of_nat n = total_clusters fs + 2 ->
  (exists f, find_free_from n fs c d = (OK f, d) /\ c <= f < total_clusters fs + 2 /\
     fn f = 0 /\ forall x, c <= x < f -> fn x <> 0) \/
  (find_free_from n fs c d = (ERR, d) /\
     forall x, c <= x < total_clusters fs + 2 -> fn x <> 0).
Proof.
  revert c. induction n as [|n IH]; intros c V Hc Hn.
  { right. split; [done|]. intros; lia. }
  cbn [find_free_from].
  assert (Hr : read_fat_entry fs c d = (OK (fn c), d)).
  { eapply read_fat_is; [done|]. unfold in_fat. lia. }
  rewrite (bind_OK _ _ _ _ _ Hr). destruct (Z.eqb_spec (fn c) 0) as [E|E].
  - left. exists c. repeat split; auto; lia.
  - destruct (IH (c + 1) V) as [(f & Hf & ? & ? & Hmin)|[Hf Hnone]]; [lia|lia| |].
    + left. exists f. rewrite Hf. repeat split; auto; [lia..|].
      intros x Hx. destruct (decide (x = c)) as [->|]; [done|]. apply Hmin. lia.
    + right. rewrite Hf. split; [done|]. intros x Hx.
      destruct (decide (x = c)) as [->|]; [done|]. apply Hnone. lia.
Qed.

Lemma find_free_cluster_run fs d fn fc :
  vol_is fs d fn fc ->
  (exists f, find_free_cluster fs d = (OK f, d) /\ valid fs f /\
     fn f = 0 /\ forall x, 2 <= x < f -> fn x <> 0) \/
  (find_free_cluster fs d = (ERR, d) /\ forall x, valid fs x -> fn x <> 0).
Proof.
  intros V. pose proof (vol_is_ok _ _ _ _ V) as Vo.
  pose proof (vo_total _ _ Vo). pose proof (vo_total_max _ _ Vo). unfold EOC in *.
  unfold find_free_cluster. rewrite u32_small by lia.
  apply (find_free_from_run fs d fn fc _ 2 V); lia.
Qed.

(** ** Reservation

    Either [n] free clusters were reserved, or the disk ran full: then the
    ones already taken stay marked. *)
Lemma reserve_run fs (n : nat) d fn fc :
  vol_is fs d fn fc ->
  exists cs d', vol_is fs d' (marked cs fn) fc /\ NoDup cs /\
    Forall (fun c => valid fs c /\ fn c = 0) cs /\
    ((length cs = n /\ reserve_clusters n fs d = (OK cs, d')) \/
     ((length cs < n)%nat /\ reserve_clusters n fs d = (ERR, d') /\
       forall x, valid fs x -> marked cs fn x <> 0)).
Proof.
  revert d fn. induction n as [|n IH]; intros d fn V.
  { exists [], d. split; [by eapply vol_is_ext|]. split; [constructor|].
    split; [constructor|]. by left. }
  cbn [reserve_clusters].
  destruct (find_free_cluster_run fs d fn fc V) as [(f & Hf & Hv & H0 & _)|[Hf Hnone]].
  2:{ exists [], d. split; [by eapply vol_is_ext|]. split; [constructor|].
      split; [constructor|]. right. cbn. split; [lia|]. by rewrite (bind_ERR _ _ _ _ Hf). }
  rewrite (bind_OK _ _ _ _ _ Hf).
  destruct (write_fat_is fs d fn fc f MARK V) as (d1 & Hw & V1); [by apply valid_in_fat|].
  rewrite (bind_OK _ _ _ _ _ Hw).
  destruct (IH d1 _ V1) as (cs & d2 & V2 & Hnd & Hall & Hcase).
  assert (Hfresh : f ∉ cs).
  { intros Hin. rewrite Forall_forall in Hall. apply Hall in Hin as [_ Hin].
    by rewrite fn_lookup_insert in Hin. }
  assert (Hm : forall x, marked cs (<[f := MARK mod 2 ^ 28]> fn) x = marked (f :: cs) fn x)
    by (intros; by apply marked_cons).
  exists (f :: cs), d2. split; [by eapply vol_is_ext|].
  split; [by constructor|]. split.
  { constructor; [done|]. eapply Forall_impl; [exact Hall|]. cbn. intros c [? Hc].
    split; [done|]. destruct (decide (c = f)) as [->|]; [done|].
    by rewrite fn_lookup_insert_ne in Hc. }
  destruct Hcase as [[Hlen Hr]|(Hlen & Hr & Hfull)].
  - left. split; [cbn; lia|]. by rewrite (bind_OK _ _ _ _ _ Hr).
  - right. split; [cbn; lia|]. split; [by rewrite (bind_ERR _ _ _ _ Hr)|].
    intros x Hx. rewrite <- Hm. by apply Hfull.
Qed.

(** ** Linking and freeing *)
Lemma link_chain_run fs cs d fn fc :
  vol_is fs d fn fc -> Forall (valid fs) cs ->
  exists d', link_chain fs cs d = (OK tt, d') /\ vol_is fs d' (linked cs fn) fc.
Proof.
  revert d fn. induction cs as [|c cs IH]; intros d fn V Hv; [by exists d|].
  apply Forall_cons in Hv as [Hc Hv]. cbn [link_chain].
  set (v := match cs with [] => 0x0FFFFFFF | n :: _ => n end).
  destruct (write_fat_is fs d fn fc c v V) as (d1 & Hw & V1); [by apply valid_in_fat|].
  rewrite (bind_OK _ _ _ _ _ Hw).
  assert (v mod 2 ^ 28 = match cs with [] => MARK | n :: _ => n end) as Hvv.
  { unfold v. destruct cs as [|n cs]; [done|]. apply Forall_cons in Hv as [Hn _].
    pose proof (valid_lt_EOC fs d n (vol_is_ok _ _ _ _ V) Hn). unfold EOC in *.
    apply Z.mod_small. lia. }
  rewrite Hvv in V1. apply (IH d1 _ V1 Hv).
Qed.

Lemma free_chain_run fs cs d fn fc c (fuel : nat) :
  vol_is fs d fn fc -> is_chain fs fn c cs -> (length cs <= fuel)%nat ->
  exists d', free_chain fuel fs c d = (OK tt, d') /\ vol_is fs d' (freed cs fn) fc.
Proof.
  revert d fn c fuel. induction cs as [|x cs IH]; intros d fn c fuel V Hc Hf.
  - cbn in Hc. exists d. split; [|by eapply vol_is_ext].
    destruct fuel; cbn [free_chain]; rewrite (proj2 (Z.ltb_ge c EOC)), andb_false_r by lia; done.
  - pose proof (is_chain_NoDup fs fn c (x :: cs) (total_le_EOC fs d (vol_is_ok _ _ _ _ V)) Hc) as Hnd.
    destruct Hc as (-> & Hv & Hc). apply NoDup_cons in Hnd as [Hnin _].
    destruct fuel as [|fuel]; [cbn in Hf; lia|]. cbn [free_chain].
    pose proof (valid_lt_EOC fs d c (vol_is_ok _ _ _ _ V) Hv).
    rewrite (proj2 (Z.leb_le _ _)), (proj2 (Z.ltb_lt _ _)) by lia. cbn [andb].
    bstep (read_fat_is fs d fn fc c V (valid_in_fat _ _ Hv)).
    destruct (write_fat_is fs d fn fc c 0 V (valid_in_fat _ _ Hv)) as (d1 & Hw & V1).
    bstep Hw. destruct (IH d1 _ (fn c) fuel V1) as (d2 & Hr & V2).
    + eapply is_chain_agree; [|exact Hc]. intros y Hy.
      apply fn_lookup_insert_ne. by intros ->.
    + cbn in Hf. lia.
    + exists d2. split; [done|]. eapply vol_is_ext; [exact V2| |done].
      intros y _. by apply freed_cons.
Qed.

(** ** Allocation of a chain *)
Lemma alloc_chain_run fs n d fn fc :
  vol_is fs d fn fc -> 1 <= n <= FAT32_MAX_CHAIN ->
  exists cs d', NoDup cs /\ Forall (fun c => valid fs c /\ fn c = 0) cs /\
    ((Z.of_nat (length cs) = n /\ alloc_chain fs n d = (OK cs, d') /\
       exists fn', vol_is fs d' fn' fc /\ is_chain fs fn' (default 0 (head cs)) cs /\
         forall x, x ∉ cs -> fn' x = fn x) \/
     (Z.of_nat (length cs) < n /\ alloc_chain fs n d = (ERR, d') /\
       vol_is fs d' (marked cs fn) fc /\ forall x, valid fs x -> marked cs fn x <> 0)).
Proof.
  intros V Hn. unfold alloc_chain.
  rewrite (proj2 (Z.eqb_neq _ _)), (proj2 (Z.ltb_ge _ _)) by lia. cbn [orb].
  destruct (reserve_run fs (Z.to_nat n) d fn fc V)
    as (cs & d1 & V1 & Hnd & Hall & [[Hl Hr]|(Hl & Hr & Hfull)]).
  - assert (Hvalid : Forall (valid fs) cs)
      by (eapply Forall_impl; [exact Hall|]; by intros ? []).
    destruct (link_chain_run fs cs d1 _ fc V1 Hvalid) as (d2 & Hlk & V2).
    exists cs, d2. do 2 (split; [done|]). left. split; [lia|]. split.
    { bstep Hr. bstep Hlk. done. }
    exists (linked cs (marked cs fn)). split; [done|]. split.
    + apply linked_chain; auto. intros ->. cbn in Hl. lia.
    + intros x Hx. rewrite linked_other by done. unfold marked. by rewrite decide_False.
  - exists cs, d1. do 2 (split; [done|]). right. split; [lia|]. split; [by bstep Hr|done].
Qed.

Lemma bpc_pos fs d : vol_ok fs d -> 64 <= bytes_per_cluster fs <= 8192.
Proof.
  intros V. pose proof (vo_bpc_max _ _ V). pose proof (vo_bpc _ _ V).
  pose proof (vo_spc _ _ V). pose proof (vo_bps_range _ _ V). nia.
Qed.

(** ** Data *)
Lemma write_chain_run fs cs data d fn fc :
  vol_is fs d fn fc -> Forall (valid fs) cs ->
  exists d', write_chain fs cs (Z.of_nat (length data)) data d = (OK tt, d') /\
    vol_is fs d' fn (filled (Z.to_nat (bytes_per_cluster fs)) cs data fc).
Proof.
  revert d data fc. induction cs as [|c cs IH]; intros d data fc V Hv; [by exists d|].
  apply Forall_cons in Hv as [Hc Hv]. cbn [write_chain filled].
  set (bpc := Z.to_nat (bytes_per_cluster fs)).
  set (chunk := if _ <? _ then _ else _).
  assert (Hbpc : bytes_per_cluster fs = Z.of_nat bpc).
  { pose proof (cl_is_length fs d fn fc c V Hc). unfold bpc. lia. }
  assert (Ht : take (Z.to_nat chunk) data = take bpc data /\
               drop (Z.to_nat chunk) data = drop bpc data /\
               Z.of_nat (length data) - chunk = Z.of_nat (length (drop bpc data))).
  { rewrite length_drop. unfold chunk. rewrite Hbpc.
    destruct (Z.ltb_spec (Z.of_nat (length data)) (Z.of_nat bpc)).
    - rewrite Nat2Z.id, !firstn_all2, !drop_ge by lia. repeat split; lia.
    - rewrite Nat2Z.id. repeat split; lia. }
  destruct Ht as (-> & -> & ->). fold (padded bpc data).
  destruct (write_cluster_is fs d fn fc c (padded bpc data) V Hc) as (d1 & Hw & V1).
  { rewrite length_padded. lia. }
  bstep Hw. destruct (IH d1 (drop bpc data) _ V1 Hv) as (d2 & Hr & V2). by exists d2.
Qed.

Lemma read_chain_run fs cs d fn fc to_read copied c acc (fuel : nat) :
  vol_is fs d fn fc -> is_chain fs fn c cs -> (length cs <= fuel)%nat ->
  0 <= copied <= to_read -> to_read + bytes_per_cluster fs <= 2 ^ 32 ->
  read_chain fuel fs to_read copied c acc d =
    (OK (acc ++ take (Z.to_nat (to_read - copied)) (concat (fc <$> cs))), d).
Proof.
  intros V. revert copied c acc fuel.
  induction cs as [|x cs IH]; intros copied c acc fuel Hch Hf Hr Hmax.
  - cbn in Hch. cbn. rewrite take_nil, app_nil_r.
    destruct fuel; cbn [read_chain];
      by rewrite (proj2 (Z.ltb_ge c EOC)), andb_false_r by lia.
  - destruct Hch as (-> & Hv & Hch).
    pose proof (valid_lt_EOC fs d c (vol_is_ok _ _ _ _ V) Hv).
    pose proof (cl_is_length fs d fn fc c V Hv) as Hlen.
    pose proof (bpc_pos _ _ (vol_is_ok _ _ _ _ V)).
    destruct fuel as [|fuel]; [cbn in Hf; lia|]. cbn [read_chain].
    rewrite (proj2 (Z.ltb_lt c EOC)), (proj2 (Z.leb_le 2 c)), !andb_true_r by lia.
    destruct (Z.ltb_spec copied to_read).
    2:{ replace (to_read - copied) with 0 by lia. cbn. by rewrite app_nil_r. }
    cbn [andb]. bstep (read_cluster_is fs d fn fc c V Hv).
    set (chunk := if to_read <? _ then _ else _).
    assert (Hck : chunk = Z.min (bytes_per_cluster fs) (to_read - copied)).
    { unfold chunk. rewrite (u32_small (copied + _)) by lia.
      rewrite (u32_small (to_read - _)) by lia.
      destruct (Z.ltb_spec to_read (copied + bytes_per_cluster fs)); lia. }
    rewrite (proj2 (Z.ltb_ge (Z.of_nat (length (fc c))) chunk)) by lia.
    bstep (read_fat_is fs d fn fc c V (valid_in_fat _ _ Hv)).
    rewrite (u32_small (copied + chunk)) by lia.
    rewrite (IH (copied + chunk)) by (auto; cbn in Hf; lia).
    rewrite <- app_assoc. do 3 f_equal. cbn. rewrite take_app. f_equal.
    + destruct (decide (bytes_per_cluster fs <= to_read - copied)).
      * rewrite !firstn_all2 by lia. done.
      * f_equal. lia.
    + f_equal. lia.
Qed.

(** [clusters_needed] is the ceiling of the quotient. *)
Lemma clusters_needed_ceil fs len : 0 < bytes_per_cluster fs <= 8192 ->
  0 < len <= FAT32_MAX_CHAIN * 8192 ->
  let n := clusters_needed fs len in
  1 <= n /\ (n - 1) * bytes_per_cluster fs < len <= n * bytes_per_cluster fs.
Proof.
  unfold FAT32_MAX_CHAIN, clusters_needed. intros ? ?. rewrite u32_small by lia. cbv zeta.
  pose proof (Z.div_mod (len + bytes_per_cluster fs - 1) (bytes_per_cluster fs) ltac:(lia)).
  pose proof (Z.mod_pos_bound (len + bytes_per_cluster fs - 1) (bytes_per_cluster fs) ltac:(lia)).
  set (q := _ / _) in *. nia.
Qed.

(** What [store_data] leaves behind when it succeeds: a fresh chain that
    reads back as the data, nothing else touched. *)
Definition stored fs (fn : Z -> Z) (fc : Z -> list Z) (d' : D) (first : Z) (data : list Z)
    : Prop :=
  exists cs fn' fc', vol_is fs d' fn' fc' /\ NoDup cs /\
    Forall (fun c => valid fs c /\ fn c = 0) cs /\
    (forall x, x ∉ cs -> fn' x = fn x) /\ (forall x, x ∉ cs -> fc' x = fc x) /\
    (data <> [] -> is_chain fs fn' first cs) /\ (data = [] -> cs = [] /\ first = 0) /\
    take (length data) (concat (fc' <$> cs)) = data.

Lemma store_data_run fs d fn fc data :
  vol_is fs d fn fc ->
  Z.of_nat (length data) <= FAT32_MAX_CHAIN * bytes_per_cluster fs ->
  exists d',
    (exists first, store_data fs data d = (OK first, d') /\ stored fs fn fc d' first data) \/
    (store_data fs data d = (ERR, d') /\
       Z.of_nat (nfree fs fn) < clusters_needed fs (Z.of_nat (length data))).
Proof.
  intros V Hlen. pose proof (vol_is_ok _ _ _ _ V) as Vo.
  pose proof (bpc_pos _ _ Vo). unfold store_data.
  destruct (Z.eqb_spec (Z.of_nat (length data)) 0) as [E|E].
  { exists d. left. exists 0. split; [done|]. assert (data = []) as -> by (by destruct data).
    exists [], fn, fc. split; [done|]. split; [constructor|]. by split. }
  rewrite (proj2 (Z.eqb_neq _ _)) by nia. unfold FAT32_MAX_CHAIN in *.
  destruct (clusters_needed_ceil fs (Z.of_nat (length data))) as [Hn1 Hn2];
    [nia|unfold FAT32_MAX_CHAIN; nia|]. cbv zeta in *.
  set (n := clusters_needed fs _) in *.
  destruct (alloc_chain_run fs n d fn fc V) as (cs & d1 & Hnd & Hall & [Hok|Herr]);
    [unfold FAT32_MAX_CHAIN; nia| |].
  - destruct Hok as (Hl & Hr & fn' & V1 & Hch & Hsame).
    assert (Forall (valid fs) cs) as Hvalid
      by (eapply Forall_impl; [exact Hall|]; by intros ? []).
    destruct (write_chain_run fs cs data d1 fn' fc V1 Hvalid) as (d2 & Hw & V2).
    exists d2. left. exists (default 0 (head cs)). split.
    { bstep Hr. rewrite (proj2 (Z.ltb_ge _ _)) by lia. bstep Hw. done. }
    exists cs, fn', (filled (Z.to_nat (bytes_per_cluster fs)) cs data fc).
    split; [done|]. do 3 (split; [done|]). split; [intros; by apply filled_other|].
    split; [done|]. split; [by intros ->|].
    apply filled_concat; [lia|done|nia].
  - destruct Herr as (Hl & Hr & _ & Hfull). exists d1. right. split; [by bstep Hr|].
    pose proof (nfree_full fs fn cs Hfull). lia.
Qed.

(** Reading a chain that holds the data gives the data back. *)
Lemma read_data fs fn fc d first cs data (fuel : nat) buf_size :
  vol_is fs d fn fc -> (data <> [] -> is_chain fs fn first cs) ->
  take (length data) (concat (fc <$> cs)) = data ->
  (Z.to_nat (total_clusters fs) <= fuel)%nat ->
  Z.of_nat (length data) <= FAT32_MAX_CHAIN * bytes_per_cluster fs ->
  Z.of_nat (length data) <= buf_size ->
  read_chain fuel fs (if Z.of_nat (length data) <? buf_size
                      then Z.of_nat (length data) else buf_size) 0 first [] d = (OK data, d).
Proof.
  intros V Hch Htake Hf Hmax Hbuf. pose proof (vol_is_ok _ _ _ _ V) as Vo.
  pose proof (vo_bpc_max _ _ Vo). unfold FAT32_MAX_CHAIN in *.
  destruct (Z.ltb_spec (Z.of_nat (length data)) buf_size) as [E|E];
    [|replace buf_size with (Z.of_nat (length data)) in * by lia].
  all: destruct (decide (data = [])) as [->|Hne]; [by destruct fuel|].
  all: specialize (Hch Hne); pose proof (chain_fuel _ _ _ _ (total_le_EOC fs d Vo) Hch).
  all: rewrite (read_chain_run fs cs d fn fc) by (auto; lia).
  all: rewrite Z.sub_0_r, Nat2Z.id; cbn [app]; by rewrite Htake.
Qed.
End alloc.
