(* ===== verification/Fat32Dir.v ===== *)
(** * FAT32: directories

    The entries of a directory as a list, [dir_find], [dir_alloc_slot] and
    [dir_write_entry] on it, and path resolution. *)
From stdpp Require Import functions.
From S2P Require Import Prelude Bytes Disk Fat32 Fat32Vol Fat32Alloc.

(** ** Packed entries *)
(** Field values the 32-byte layout can hold. *)
Record entry_ok (e : fat_dir) : Prop := {
  eo_name : length (de_name e) = 11%nat;
  eo_attr : 0 <= de_attr e < 2 ^ 8;
  eo_nt : 0 <= de_nt_reserved e < 2 ^ 8;
  eo_tenth : 0 <= de_ctime_tenth e < 2 ^ 8;
  eo_ctime : 0 <= de_ctime e < 2 ^ 16;
  eo_cdate : 0 <= de_cdate e < 2 ^ 16;
  eo_adate : 0 <= de_adate e < 2 ^ 16;
  eo_hi : 0 <= de_cluster_hi e < 2 ^ 16;
  eo_mtime : 0 <= de_mtime e < 2 ^ 16;
  eo_mdate : 0 <= de_mdate e < 2 ^ 16;
  eo_lo : 0 <= de_cluster_lo e < 2 ^ 16;
  eo_size : 0 <= de_size e < 2 ^ 32;
}.

Lemma length_dir_encode e : length (de_name e) = 11%nat -> length (dir_encode e) = 32%nat.
Proof. intros He. unfold dir_encode. rewrite !length_app, !length_le_enc, He. done. Qed.

(** Fields of a concatenation: skip a part, or take the first one. *)
Lemma slice_skip {A} (l1 l2 : list A) off n :
  (length l1 <= off)%nat -> slice off n (l1 ++ l2) = slice (off - length l1) n l2.
Proof. intros. unfold slice. by rewrite drop_app_ge. Qed.

Lemma slice_hit {A} (l1 l2 : list A) n : length l1 = n -> slice 0 n (l1 ++ l2) = l1.
Proof. intros <-. unfold slice. cbn [drop]. apply take_app_length. Qed.

Lemma le_dec_enc_small (n : nat) v : 0 <= v < 2 ^ (8 * Z.of_nat n) -> le_dec (le_enc n v) = v.
Proof. intros. rewrite le_dec_enc. by apply Z.mod_small. Qed.

Lemma dir_decode_encode e : entry_ok e -> dir_decode (dir_encode e) = e.
Proof.
  intros [Hn ? ? ? ? ? ? ? ? ? ? ?]. destruct e as [name a b c e1 f g h i j k l].
  cbn [de_name de_attr de_nt_reserved de_ctime_tenth de_ctime de_cdate de_adate
       de_cluster_hi de_mtime de_mdate de_cluster_lo de_size] in *.
  assert (E : forall n v, 0 <= v < 2 ^ (8 * Z.of_nat n) ->
    exists l, le_enc n v = l /\ length l = n /\ le_dec l = v).
  { intros n v ?. exists (le_enc n v). by rewrite length_le_enc, le_dec_enc_small. }
  unfold dir_encode.
  cbn [de_name de_attr de_nt_reserved de_ctime_tenth de_ctime de_cdate de_adate
       de_cluster_hi de_mtime de_mdate de_cluster_lo de_size].
  do 3 (match goal with |- context [le_enc 1 ?v] =>
    destruct (E 1%nat v ltac:(done)) as (?l & -> & ?Hl & ?Hd) end).
  do 7 (match goal with |- context [le_enc 2 ?v] =>
    destruct (E 2%nat v ltac:(done)) as (?l & -> & ?Hl & ?Hd) end).
  destruct (E 4%nat l ltac:(done)) as (?l & -> & ?Hl & ?Hd). clear E.
  unfold dir_decode. f_equal.
  all: repeat (rewrite slice_skip by lia;
    repeat match goal with Hx : length _ = _ |- _ => rewrite Hx end; cbn [Nat.sub]).
  all: first [rewrite slice_hit by done; done | idtac].
  rewrite <- (app_nil_r l10), slice_hit by done. done.
Qed.

Lemma make_entry_ok name attr c size :
  length name = 11%nat -> 0 <= attr < 2 ^ 8 -> 0 <= size < 2 ^ 32 ->
  entry_ok (make_entry name attr c size).
Proof. intros. split; cbn; try done; lia || apply u16_range. Qed.

Lemma make_entry_first name attr c size : 0 <= c < 2 ^ 32 ->
  entry_first_cluster (make_entry name attr c size) = c.
Proof.
  intros Hc. unfold entry_first_cluster. cbn [de_cluster_hi de_cluster_lo make_entry].
  unfold u16. change (0xFFFF) with (Z.ones 16). rewrite <- !Z.land_ones by lia.
  transitivity (Z.land c (Z.ones 32)); [zbits|].
  rewrite Z.land_ones by lia. by apply Z.mod_small.
Qed.

(** ** A directory cluster as a list of entries *)
Definition dent (buf : list Z) (i : nat) : fat_dir := dir_decode (slice (i * 32) 32 buf).
Definition dents (n : nat) (buf : list Z) : list fat_dir := dent buf <$> seq 0 n.

(** The first entry at which the loop body leaves the loop. *)
Fixpoint first_hit {A} (f : Z -> fat_dir -> option A) (i : Z) (es : list fat_dir) : option A :=
  match es with
  | [] => None
  | e :: t => match f i e with Some a => Some a | None => first_hit f (i + 1) t end
  end.

Lemma dir_at_dent buf (i : nat) :
  ((i + 1) * 32 <= length buf)%nat -> dir_at buf (Z.of_nat i) = Some (dent buf i).
Proof.
  intros. unfold dir_at, dent, DIR_ENTRY_SIZE. rewrite (proj2 (Z.leb_le _ _)) by lia.
  do 3 f_equal. lia.
Qed.

Lemma scan_from {A} (f : Z -> fat_dir -> option A) buf (m i : nat) :
  ((i + m) * 32 <= length buf)%nat ->
  scan f m (Z.of_nat i) buf = OK (first_hit f (Z.of_nat i) (dent buf <$> seq i m)).
Proof.
  revert i. induction m as [|m IH]; intros i Hi; [done|].
  cbn [scan seq fmap list_fmap first_hit]. rewrite dir_at_dent by lia.
  destruct (f _ _); [done|]. replace (Z.of_nat i + 1) with (Z.of_nat (S i)) by lia.
  apply IH. lia.
Qed.

Lemma scan_dents {A} (f : Z -> fat_dir -> option A) n buf :
  (n * 32 <= length buf)%nat -> scan f n 0 buf = OK (first_hit f 0 (dents n buf)).
Proof. intros. apply (scan_from f buf n 0). lia. Qed.

Lemma length_dents n buf : length (dents n buf) = n.
Proof. unfold dents. by rewrite length_fmap, length_seq. Qed.

(** Storing bytes inside entry [i] changes that entry of the list only. *)
Lemma dents_splice n buf (i off : nat) bs :
  (i < n)%nat -> (n * 32 <= length buf)%nat ->
  (i * 32 <= off)%nat -> (off + length bs <= (i + 1) * 32)%nat ->
  dents n (splice off bs buf) =
    <[i := dir_decode (splice (off - i * 32) bs (slice (i * 32) 32 buf))]> (dents n buf).
Proof.
  intros Hi Hl H1 H2. apply list_eq. intros j. unfold dents. destruct (decide (j < n)%nat).
  2:{ rewrite !lookup_ge_None_2; [done| |]; rewrite ?length_insert, length_fmap, length_seq; lia. }
  destruct (decide (i = j)) as [->|Hne].
  - rewrite list_lookup_insert_eq by (rewrite length_fmap, length_seq; lia).
    rewrite list_lookup_fmap, lookup_seq_lt by lia. cbn. f_equal. unfold dent. f_equal.
    apply slice_splice_within; lia.
  - rewrite list_lookup_insert_ne by done. rewrite !list_lookup_fmap, lookup_seq_lt by lia.
    cbn. f_equal. unfold dent. f_equal. apply slice_splice_other; lia.
Qed.

(** [dir_put] replaces one entry of the list. *)
Lemma dir_put_dents n buf (i : nat) e :
  entry_ok e -> (i < n)%nat -> (n * 32 <= length buf)%nat ->
  exists buf', dir_put buf (Z.of_nat i) e = Some buf' /\ length buf' = length buf /\
    dents n buf' = <[i := e]> (dents n buf).
Proof.
  intros He Hi Hl. pose proof (length_dir_encode e (eo_name _ He)) as He32.
  exists (splice (i * 32) (dir_encode e) buf). split; [|split].
  - unfold dir_put, DIR_ENTRY_SIZE. rewrite (proj2 (Z.leb_le _ _)) by lia. do 2 f_equal. lia.
  - apply length_splice. lia.
  - rewrite (dents_splice n buf i) by lia. f_equal. rewrite Nat.sub_diag. unfold splice. cbn [take app].
    rewrite drop_ge by (rewrite length_slice; lia). rewrite app_nil_r.
    by apply dir_decode_encode.
Qed.

(** ** A directory as the list of its entries, over all its clusters *)
(** An entry [dir_find] accepts for the name [t]. *)
Definition matches (t : list Z) (e : fat_dir) : bool :=
  negb (name_at e 0 =? 0) && negb (name_at e 0 =? 0xE5) && negb (de_attr e =? ATTR_LFN)
  && (Z.land (de_attr e) ATTR_VOLUME_ID =? 0) && bool_decide (de_name e = t).

Definition shift (k : nat) : option (nat * fat_dir) -> option (nat * fat_dir) :=
  fmap (fun '(j, e) => ((k + j)%nat, e)).

(** The entry named [t] and its position, up to the end marker. *)
Fixpoint find_at (t : list Z) (E : list fat_dir) : option (nat * fat_dir) :=
  match E with
  | [] => None
  | e :: E' => if name_at e 0 =? 0 then None
               else if matches t e then Some (0%nat, e)
               else shift 1 (find_at t E')
  end.

(** The first reusable position. *)
Fixpoint free_at (E : list fat_dir) : option nat :=
  match E with
  | [] => None
  | e :: E' => if (name_at e 0 =? 0) || (name_at e 0 =? 0xE5) then Some 0%nat
               else S <$> free_at E'
  end.

Lemma dir_find_body_alt t i e :
  dir_find_body t i e =
    if name_at e 0 =? 0 then Some None
    else if matches t e then Some (Some (i, e)) else None.
Proof.
  unfold dir_find_body, matches.
  destruct (name_at e 0 =? 0), (name_at e 0 =? 0xE5), (de_attr e =? ATTR_LFN),
    (Z.land (de_attr e) ATTR_VOLUME_ID =? 0); cbn; try done.
  destruct (decide (de_name e = t)); by case_bool_decide.
Qed.

Lemma shift_shift a b o : shift a (shift b o) = shift (a + b) o.
Proof. destruct o as [[j e]|]; cbn; [|done]. do 2 f_equal. lia. Qed.

Lemma shift_0 o : shift 0 o = o.
Proof. by destruct o as [[j e]|]. Qed.

(** The scan of one cluster, then the rest of the directory. *)
Lemma find_at_scan t i es E :
  match first_hit (dir_find_body t) i es with
  | Some None => find_at t (es ++ E) = None
  | Some (Some (j, e)) =>
      i <= j < i + Z.of_nat (length es) /\ find_at t (es ++ E) = Some (Z.to_nat (j - i), e)
  | None => find_at t (es ++ E) = shift (length es) (find_at t E)
  end.
Proof.
  revert i. induction es as [|x es IH]; intros i.
  { cbn [first_hit app length]. by rewrite shift_0. }
  cbn [first_hit app find_at length]. rewrite dir_find_body_alt.
  destruct (name_at x 0 =? 0); [done|]. destruct (matches t x).
  { split; [lia|]. do 2 f_equal. lia. }
  specialize (IH (i + 1)). destruct (first_hit _ _ es) as [[[j e]|]|].
  - destruct IH as [? ->]. split; [lia|]. cbn. do 2 f_equal. lia.
  - by rewrite IH.
  - rewrite IH. apply shift_shift.
Qed.

Lemma free_at_scan i es E :
  match first_hit alloc_slot_body i es with
  | Some j => i <= j < i + Z.of_nat (length es) /\ free_at (es ++ E) = Some (Z.to_nat (j - i))
  | None => free_at (es ++ E) = Nat.add (length es) <$> free_at E
  end.
Proof.
  revert i. induction es as [|x es IH]; intros i.
  { cbn. by destruct (free_at E). }
  cbn [first_hit app free_at length]. unfold alloc_slot_body at 1.
  destruct (_ || _); [split; [lia|]; f_equal; lia|].
  specialize (IH (i + 1)). destruct (first_hit _ _ es) as [j|].
  - destruct IH as [? ->]. split; [lia|]. cbn. f_equal. lia.
  - rewrite IH. by destruct (free_at E).
Qed.

(** *** Updates of the entry list *)
(** A live entry found under the name [t]. *)
Definition live (t : list Z) (e : fat_dir) : Prop := name_at e 0 <> 0 /\ matches t e = true.

(** Nothing but end markers after an end marker. *)
Fixpoint ended (E : list fat_dir) : Prop :=
  match E with
  | [] => True
  | e :: E' => if name_at e 0 =? 0 then Forall (fun x => name_at x 0 = 0) E' else ended E'
  end.

(** At most one entry answers to the name [t]. *)
Definition once (t : list Z) (E : list fat_dir) : Prop :=
  forall i j a b, E !! i = Some a -> E !! j = Some b ->
    matches t a = true -> matches t b = true -> i = j.

Lemma matches_name t e : matches t e = true -> de_name e = t.
Proof. unfold matches. rewrite !andb_true_iff. intros [_ ?%bool_decide_eq_true]. done. Qed.

Lemma matches_other t t' e : t <> t' -> matches t e = true -> matches t' e = false.
Proof.
  intros Hne Ht. destruct (matches t' e) eqn:E; [|done].
  apply matches_name in E, Ht. congruence.
Qed.

Lemma find_at_Some t E j e : find_at t E = Some (j, e) -> E !! j = Some e /\ live t e.
Proof.
  revert j. induction E as [|x E IH]; intros j Hf; cbn in Hf; [done|].
  destruct (Z.eqb_spec (name_at x 0) 0); [done|].
  destruct (matches t x) eqn:?; [by simplify_eq|].
  destruct (find_at t E) as [[k y]|]; cbn in Hf; simplify_eq. apply (IH k). done.
Qed.

Lemma free_at_Some E j : free_at E = Some j -> exists e, E !! j = Some e.
Proof.
  revert j. induction E as [|x E IH]; intros j Hf; cbn in Hf; [done|].
  destruct (_ || _); [simplify_eq; by exists x|].
  destruct (free_at E) as [k|]; cbn in Hf; simplify_eq. by apply IH.
Qed.

Lemma find_at_insert t E j e :
  find_at t E = None -> free_at E = Some j -> live t e ->
  find_at t (<[j := e]> E) = Some (j, e).
Proof.
  intros Hf Hs [H0 Hm]. revert j Hs. induction E as [|x E IH]; intros j Hs; [done|].
  cbn in Hf, Hs. destruct (Z.eqb_spec (name_at x 0) 0) as [E0|E0]; cbn [orb] in Hs.
  { simplify_eq. cbn. by rewrite (proj2 (Z.eqb_neq _ _) H0), Hm. }
  destruct (name_at x 0 =? 0xE5); [|].
  - simplify_eq. cbn. by rewrite (proj2 (Z.eqb_neq _ _) H0), Hm.
  - destruct (matches t x) eqn:Hx; [done|].
    destruct (free_at E) as [k|]; cbn in Hs; simplify_eq. cbn.
    rewrite (proj2 (Z.eqb_neq _ _) E0), Hx.
    destruct (find_at t E); [done|]. by rewrite IH.
Qed.

Lemma find_at_replace t E j e0 e :
  find_at t E = Some (j, e0) -> live t e -> find_at t (<[j := e]> E) = Some (j, e).
Proof.
  intros Hf [H0 Hm]. revert j Hf. induction E as [|x E IH]; intros j Hf; [done|].
  cbn in Hf. destruct (name_at x 0 =? 0) eqn:E0; [done|].
  destruct (matches t x) eqn:Hx.
  - simplify_eq. cbn. by rewrite (proj2 (Z.eqb_neq _ _) H0), Hm.
  - destruct (find_at t E) as [[k y]|]; cbn in Hf; simplify_eq. cbn. by rewrite E0, Hx, IH.
Qed.

(** Changing an entry that neither before nor after answers to [t']. *)
Lemma find_at_other t' E j e0 e :
  E !! j = Some e0 -> matches t' e0 = false -> matches t' e = false ->
  name_at e0 0 <> 0 -> name_at e 0 <> 0 -> find_at t' (<[j := e]> E) = find_at t' E.
Proof.
  intros Hj Hm0 Hm H0 H1. revert j Hj. induction E as [|x E IH]; intros [|j] Hj; [done|done| |].
  - cbn in Hj. simplify_eq. cbn.
    by rewrite Hm, Hm0, (proj2 (Z.eqb_neq _ _) H0), (proj2 (Z.eqb_neq _ _) H1).
  - cbn. cbn in Hj. by rewrite IH.
Qed.

Lemma find_at_zeros t E : Forall (fun x => name_at x 0 = 0) E -> find_at t E = None.
Proof. destruct 1 as [|x E Hx]; [done|]. cbn [find_at]. by rewrite Hx. Qed.

(** Reusing a free position does not hide or uncover another name. *)
Lemma find_at_insert_other t' E j e :
  ended E -> free_at E = Some j -> matches t' e = false -> name_at e 0 <> 0 ->
  find_at t' (<[j := e]> E) = find_at t' E.
Proof.
  intros He Hs Hm H0. revert j Hs. induction E as [|x E IH]; intros j Hs; [done|].
  cbn in He, Hs. destruct (name_at x 0 =? 0) eqn:E0; cbn [orb] in Hs.
  - simplify_eq. cbn. rewrite E0, Hm, (proj2 (Z.eqb_neq _ _) H0).
    by rewrite (find_at_zeros t' E He).
  - destruct (name_at x 0 =? 0xE5) eqn:E5.
    + simplify_eq. cbn. rewrite E0, Hm, (proj2 (Z.eqb_neq _ _) H0).
      unfold matches at 1. by rewrite E0, E5.
    + destruct (free_at E) as [k|]; cbn in Hs; simplify_eq. cbn. by rewrite E0, IH.
Qed.

Lemma ended_insert E j e :
  ended E -> free_at E = Some j -> name_at e 0 <> 0 -> ended (<[j := e]> E).
Proof.
  intros He Hs H0. revert j Hs. induction E as [|x E IH]; intros j Hs; [done|].
  cbn in He, Hs. destruct (name_at x 0 =? 0) eqn:E0; cbn [orb] in Hs.
  - simplify_eq. cbn. rewrite (proj2 (Z.eqb_neq _ _) H0).
    destruct He as [|y E Hy He]; [done|]. cbn. by rewrite Hy.
  - destruct (name_at x 0 =? 0xE5).
    + simplify_eq. cbn. by rewrite (proj2 (Z.eqb_neq _ _) H0).
    + destruct (free_at E) as [k|]; cbn in Hs; simplify_eq. cbn. rewrite E0. by apply IH.
Qed.

Lemma ended_replace E j e0 e :
  ended E -> E !! j = Some e0 -> name_at e0 0 <> 0 -> name_at e 0 <> 0 -> ended (<[j := e]> E).
Proof.
  intros He Hj H0 H1. revert j Hj. induction E as [|x E IH]; intros [|j] Hj; [done|done| |].
  - cbn in Hj. simplify_eq. cbn in *. rewrite (proj2 (Z.eqb_neq _ _) H1).
    by rewrite (proj2 (Z.eqb_neq _ _) H0) in He.
  - cbn in *. destruct (Z.eqb_spec (name_at x 0) 0); [|by apply IH].
    exfalso. apply H0. rewrite Forall_forall in He. apply He.
    by eapply list_elem_of_lookup_2.
Qed.

(** After the entry of [t] is marked deleted, [t] is gone. *)
Lemma find_at_delete t E j e0 e :
  once t E -> find_at t E = Some (j, e0) -> name_at e 0 = 0xE5 ->
  find_at t (<[j := e]> E) = None.
Proof.
  intros Ho Hf H5. destruct (find_at t (<[j := e]> E)) as [[k y]|] eqn:Hk; [|done].
  apply find_at_Some in Hf as [Hj [_ Hm]], Hk as [Hk [_ Hmy]]. exfalso.
  destruct (decide (k = j)) as [->|Hne].
  - rewrite list_lookup_insert_eq in Hk by (by eapply lookup_lt_Some). simplify_eq.
    unfold matches in Hmy. by rewrite H5 in Hmy.
  - rewrite list_lookup_insert_ne in Hk by done. apply Hne. by eapply Ho.
Qed.

Lemma once_insert_other t E j e : matches t e = false -> once t E -> once t (<[j := e]> E).
Proof.
  intros Hm Ho i k a b Hi Hk Ha Hb. rewrite list_lookup_insert_Some in Hi, Hk.
  destruct Hi as [(-> & -> & _)|[_ Hi]]; [congruence|].
  destruct Hk as [(-> & -> & _)|[_ Hk]]; [congruence|]. by eapply Ho.
Qed.

Lemma once_app_zeros t E E' : once t E -> Forall (fun e => name_at e 0 = 0) E' -> once t (E ++ E').
Proof.
  intros Ho Hz i j a b Hi Hj Ha Hb.
  assert (Hin : forall k c, (E ++ E') !! k = Some c -> matches t c = true -> E !! k = Some c).
  { intros k c [?|[_ Hk]]%lookup_app_Some Hc; [done|]. exfalso.
    rewrite Forall_forall in Hz. apply list_elem_of_lookup_2, Hz in Hk.
    unfold matches in Hc. by rewrite Hk in Hc. }
  eapply Ho; eauto.
Qed.

(** ** The directory operations *)
Section dirs.
Context {D : Type} `{BlockDevice D} `{!BlockDeviceLaws D}.
Implicit Types (fs : canboot_fat32) (d : D) (fn : Z -> Z) (fc : Z -> list Z) (cs : list Z).

(** The entries of the directory whose clusters are [cs], and where the
    entry at position [j] lies on disk. *)
Definition dentries fs fc cs : list fat_dir :=
  concat ((fun c => dents (entries_per_cluster fs) (fc c)) <$> cs).
Definition loc fs cs (j : nat) : Z * Z :=
  (default 0 (cs !! (j / entries_per_cluster fs)%nat), Z.of_nat (j mod entries_per_cluster fs)).

#[local] Arguments loc : simpl never.
#[local] Arguments entries_per_cluster : simpl never.

Lemma epc_bounds fs d : vol_ok fs d ->
  (2 <= entries_per_cluster fs)%nat /\
  Z.of_nat (entries_per_cluster fs * 32) = bytes_per_cluster fs.
Proof.
  intros V. pose proof (bpc_pos _ _ V). pose proof (vo_bps_mod _ _ V) as Hm0.
  pose proof (vo_bpc _ _ V) as Hb. unfold entries_per_cluster, DIR_ENTRY_SIZE.
  assert (Hm : bytes_per_cluster fs mod 32 = 0).
  { rewrite Hb, Z.mul_mod, Hm0 by lia. done. }
  pose proof (Z.div_mod (bytes_per_cluster fs) 32 ltac:(lia)). lia.
Qed.

Lemma length_dentries fs fc cs :
  length (dentries fs fc cs) = (length cs * entries_per_cluster fs)%nat.
Proof.
  unfold dentries. induction cs as [|c cs IH]; [done|]. cbn.
  rewrite length_app, length_dents. unfold dentries in IH. by rewrite IH.
Qed.

Lemma dentries_ext fs fc fc' cs :
  (forall c, c ∈ cs -> fc' c = fc c) -> dentries fs fc' cs = dentries fs fc cs.
Proof.
  intros He. unfold dentries. f_equal. apply list_fmap_ext. intros i c Hc.
  by rewrite He by (by eapply list_elem_of_lookup_2).
Qed.

Lemma dentries_app fs fc cs cs' :
  dentries fs fc (cs ++ cs') = dentries fs fc cs ++ dentries fs fc cs'.
Proof. unfold dentries. by rewrite fmap_app, concat_app. Qed.

Lemma loc_head fs d c cs j : vol_ok fs d -> (j < entries_per_cluster fs)%nat ->
  loc fs (c :: cs) j = (c, Z.of_nat j).
Proof. intros V Hj. unfold loc. rewrite Nat.div_small, Nat.mod_small by done. done. Qed.

Lemma loc_tail fs d c cs j : vol_ok fs d ->
  loc fs (c :: cs) (entries_per_cluster fs + j) = loc fs cs j.
Proof.
  intros V. destruct (epc_bounds fs d V). unfold loc.
  replace (entries_per_cluster fs + j)%nat with (j + 1 * entries_per_cluster fs)%nat by lia.
  rewrite Nat.div_add, Nat.Div0.mod_add by lia. by rewrite Nat.add_1_r.
Qed.

Lemma scan_cluster {A} (f : Z -> fat_dir -> option A) fs d fn fc c :
  vol_is fs d fn fc -> valid fs c ->
  scan f (entries_per_cluster fs) 0 (fc c) =
    OK (first_hit f 0 (dents (entries_per_cluster fs) (fc c))).
Proof.
  intros V Hc. apply scan_dents. pose proof (cl_is_length fs d fn fc c V Hc).
  destruct (epc_bounds fs d (vol_is_ok _ _ _ _ V)). lia.
Qed.

(** What [dir_find] reports for the entry list. *)
Definition found fs cs (r : option (nat * fat_dir)) : option (fat_dir * Z * Z) :=
  (fun '(j, e) => (e, (loc fs cs j).1, (loc fs cs j).2)) <$> r.

Lemma found_shift fs d c cs r : vol_ok fs d ->
  found fs (c :: cs) (shift (entries_per_cluster fs) r) = found fs cs r.
Proof.
  intros V. destruct r as [[j e]|]; [|done]. cbn. by rewrite (loc_tail fs d).
Qed.

Lemma dir_find_loop_run fs d fn fc t c cs (fuel : nat) :
  vol_is fs d fn fc -> is_chain fs fn c cs -> (length cs <= fuel)%nat ->
  dir_find_loop fuel fs t c d = (OK (found fs cs (find_at t (dentries fs fc cs))), d).
Proof.
  intros V. pose proof (vol_is_ok _ _ _ _ V) as Vo. revert c fuel.
  induction cs as [|x cs IH]; intros c fuel Hc Hf.
  { cbn in Hc. destruct fuel; cbn [dir_find_loop];
      by rewrite (proj2 (Z.ltb_ge c EOC)), andb_false_r by lia. }
  destruct Hc as (-> & Hv & Hc). destruct fuel as [|fuel]; [cbn in Hf; lia|].
  cbn [dir_find_loop]. pose proof (valid_lt_EOC fs d c Vo Hv).
  rewrite (proj2 (Z.leb_le 2 c)), (proj2 (Z.ltb_lt c EOC)) by lia. cbn [andb].
  bstep (read_cluster_is fs d fn fc c V Hv). rewrite (scan_cluster _ fs d fn fc c V Hv).
  unfold lift. rewrite (bind_OK _ _ _ _ _ eq_refl).
  pose proof (find_at_scan t 0 (dents (entries_per_cluster fs) (fc c)) (dentries fs fc cs)) as Hs.
  change (dentries fs fc (c :: cs))
    with (dents (entries_per_cluster fs) (fc c) ++ dentries fs fc cs).
  destruct (first_hit _ _ _) as [[[j e]|]|].
  - destruct Hs as [Hj ->]. rewrite length_dents in Hj. cbn.
    rewrite (loc_head fs d) by (done || lia). rewrite Z.sub_0_r. cbn.
    by rewrite Z2Nat.id by lia.
  - by rewrite Hs.
  - bstep (read_fat_is fs d fn fc c V (valid_in_fat _ _ Hv)).
    rewrite (IH (fn c) fuel Hc) by (cbn in Hf; lia).
    by rewrite Hs, length_dents, (found_shift fs d).
Qed.

Lemma dir_find_run fs d fn fc t c cs (fuel : nat) :
  vol_is fs d fn fc -> is_chain fs fn c cs -> (length cs <= fuel)%nat ->
  dir_find fuel fs c t d = (OK (found fs cs (find_at t (dentries fs fc cs))), d).
Proof.
  intros V Hc Hf. unfold dir_find.
  pose proof (vo_bpc_max _ _ (vol_is_ok _ _ _ _ V)).
  rewrite (proj2 (Z.ltb_ge _ _)) by lia. by eapply dir_find_loop_run.
Qed.

(** *** Writing entries *)
Lemma dentries_update fs d fc cs c buf' (j : nat) e : vol_ok fs d -> NoDup cs ->
  cs !! (j / entries_per_cluster fs)%nat = Some c ->
  dents (entries_per_cluster fs) buf' =
    <[(j mod entries_per_cluster fs)%nat := e]> (dents (entries_per_cluster fs) (fc c)) ->
  dentries fs (<[c := buf']> fc) cs = <[j := e]> (dentries fs fc cs).
Proof.
  intros V Hnd. destruct (epc_bounds fs d V) as [Hn _].
  revert j Hnd. induction cs as [|x cs IH]; intros j Hnd Hj Hb; [done|].
  apply NoDup_cons in Hnd as [Hx Hnd].
  change (dentries fs ?f (x :: cs))
    with (dents (entries_per_cluster fs) (f x) ++ dentries fs f cs).
  destruct (decide (j < entries_per_cluster fs)%nat) as [Hlt|Hge].
  - rewrite Nat.div_small in Hj by done. cbn in Hj. simplify_eq.
    rewrite Nat.mod_small in Hb by done. rewrite fn_lookup_insert, Hb.
    rewrite insert_app_l by (rewrite length_dents; lia). f_equal.
    apply dentries_ext. intros y Hy. apply fn_lookup_insert_ne. by intros ->.
  - assert (exists k, j = (k + 1 * entries_per_cluster fs)%nat) as [k ->]
      by (exists (j - entries_per_cluster fs)%nat; lia).
    rewrite Nat.div_add in Hj by lia. rewrite Nat.Div0.mod_add in Hb.
    rewrite Nat.add_1_r in Hj. cbn in Hj.
    rewrite fn_lookup_insert_ne by (intros ->; by apply list_elem_of_lookup_2 in Hj).
    replace (k + 1 * entries_per_cluster fs)%nat
      with (length (dents (entries_per_cluster fs) (fc x)) + k)%nat
      by (rewrite length_dents; lia).
    rewrite insert_app_r. f_equal. by apply IH.
Qed.

Lemma loc_lookup fs d fc cs (j : nat) : vol_ok fs d -> (j < length (dentries fs fc cs))%nat ->
  exists c, cs !! (j / entries_per_cluster fs)%nat = Some c /\
    loc fs cs j = (c, Z.of_nat (j mod entries_per_cluster fs)) /\
    (j mod entries_per_cluster fs < entries_per_cluster fs)%nat.
Proof.
  intros V Hj. destruct (epc_bounds fs d V) as [Hn _]. rewrite length_dentries in Hj.
  destruct (lookup_lt_is_Some_2 cs (j / entries_per_cluster fs)) as [c Hc].
  { apply Nat.Div0.div_lt_upper_bound. lia. }
  exists c. unfold loc. rewrite Hc. split; [done|]. split; [done|].
  apply Nat.mod_upper_bound. lia.
Qed.

(** Rewriting the cluster that holds entry [j] so that the entry becomes [e]. *)
Lemma put_entry_run fs d fn fc cs (j : nat) c buf' e :
  vol_is fs d fn fc -> Forall (valid fs) cs -> NoDup cs ->
  cs !! (j / entries_per_cluster fs)%nat = Some c -> length buf' = length (fc c) ->
  dents (entries_per_cluster fs) buf' =
    <[(j mod entries_per_cluster fs)%nat := e]> (dents (entries_per_cluster fs) (fc c)) ->
  exists d' fc', write_cluster fs c buf' d = (OK tt, d') /\ vol_is fs d' fn fc' /\
    dentries fs fc' cs = <[j := e]> (dentries fs fc cs) /\
    (forall x, x ∉ cs -> fc' x = fc x).
Proof.
  intros V Hv Hnd Hc Hl Hb. pose proof (list_elem_of_lookup_2 _ _ _ Hc) as Hin.
  assert (valid fs c) as Hvc by (rewrite Forall_forall in Hv; auto).
  destruct (write_cluster_is fs d fn fc c buf' V Hvc) as (d' & Hw & V').
  { rewrite Hl. by eapply cl_is_length. }
  exists d', (<[c := buf']> fc). split; [done|]. split; [done|]. split.
  - by apply (dentries_update fs d); [apply (vol_is_ok _ _ _ _ V)|..].
  - intros x Hx. apply fn_lookup_insert_ne. by intros ->.
Qed.

Lemma dir_write_entry_run fs d fn fc cs (j : nat) e :
  vol_is fs d fn fc -> Forall (valid fs) cs -> NoDup cs ->
  (j < length (dentries fs fc cs))%nat -> entry_ok e ->
  exists d' fc', dir_write_entry fs (loc fs cs j).1 (loc fs cs j).2 e d = (OK tt, d') /\
    vol_is fs d' fn fc' /\ dentries fs fc' cs = <[j := e]> (dentries fs fc cs) /\
    (forall x, x ∉ cs -> fc' x = fc x).
Proof.
  intros V Hv Hnd Hj He. pose proof (vol_is_ok _ _ _ _ V) as Vo.
  destruct (loc_lookup fs d fc cs j Vo Hj) as (c & Hc & Hl & Hm).
  destruct (epc_bounds fs d Vo) as [Hn Hb].
  assert (valid fs c) as Hvc
    by (rewrite Forall_forall in Hv; apply Hv; by eapply list_elem_of_lookup_2).
  pose proof (cl_is_length fs d fn fc c V Hvc) as Hlen.
  destruct (dir_put_dents (entries_per_cluster fs) (fc c) (j mod entries_per_cluster fs) e)
    as (buf' & Hp & Hl' & Hd); [done|done|lia|].
  destruct (put_entry_run fs d fn fc cs j c buf' e) as (d' & fc' & Hw & ?); auto.
  exists d', fc'. split; [|done]. rewrite Hl. cbn [fst snd]. unfold dir_write_entry.
  rewrite (proj2 (Z.ltb_ge _ _)) by apply (vo_bpc_max _ _ Vo).
  bstep (read_cluster_is fs d fn fc c V Hvc). by rewrite Hp.
Qed.

(** The mark on a deleted entry. *)
Definition marked_deleted (e : fat_dir) : fat_dir := with_name e (0xE5 :: tail (de_name e)).

Lemma decode_deleted b : length b = 32%nat ->
  dir_decode (splice 0 [0xE5] b) = marked_deleted (dir_decode b).
Proof.
  intros Hb. do 32 (destruct b as [|? b]; [done|]). destruct b; [|done]. reflexivity.
Qed.

Lemma dentries_lookup fs d fc cs (j : nat) c e : vol_ok fs d ->
  dentries fs fc cs !! j = Some e -> cs !! (j / entries_per_cluster fs)%nat = Some c ->
  dent (fc c) (j mod entries_per_cluster fs) = e.
Proof.
  intros V. destruct (epc_bounds fs d V) as [Hn _]. revert j.
  induction cs as [|x cs IH]; intros j Hj Hc; [done|].
  change (dentries fs ?f (x :: cs))
    with (dents (entries_per_cluster fs) (f x) ++ dentries fs f cs) in Hj.
  destruct (decide (j < entries_per_cluster fs)%nat) as [Hlt|Hge].
  - rewrite Nat.div_small in Hc by done. cbn in Hc. simplify_eq.
    rewrite Nat.mod_small by done. rewrite lookup_app_l in Hj by (rewrite length_dents; lia).
    unfold dents in Hj. rewrite list_lookup_fmap, lookup_seq_lt in Hj by lia.
    cbn in Hj. by simplify_eq.
  - rewrite lookup_app_r, length_dents in Hj by (rewrite length_dents; lia).
    assert (exists k, j = (k + 1 * entries_per_cluster fs)%nat) as [k ->]
      by (exists (j - entries_per_cluster fs)%nat; lia).
    rewrite Nat.Div0.mod_add. rewrite Nat.div_add, Nat.add_1_r in Hc by lia.
    apply IH; [|done]. rewrite <- Hj. f_equal. lia.
Qed.

Lemma dir_mark_deleted_run fs d fn fc cs (j : nat) e :
  vol_is fs d fn fc -> Forall (valid fs) cs -> NoDup cs ->
  dentries fs fc cs !! j = Some e ->
  exists d' fc', dir_mark_deleted fs (loc fs cs j).1 (loc fs cs j).2 d = (OK tt, d') /\
    vol_is fs d' fn fc' /\ dentries fs fc' cs = <[j := marked_deleted e]> (dentries fs fc cs) /\
    (forall x, x ∉ cs -> fc' x = fc x).
Proof.
  intros V Hv Hnd Hj. pose proof (vol_is_ok _ _ _ _ V) as Vo.
  destruct (loc_lookup fs d fc cs j Vo (lookup_lt_Some _ _ _ Hj)) as (c & Hc & Hl & Hm).
  destruct (epc_bounds fs d Vo) as [Hn Hb].
  assert (valid fs c) as Hvc
    by (rewrite Forall_forall in Hv; apply Hv; by eapply list_elem_of_lookup_2).
  pose proof (cl_is_length fs d fn fc c V Hvc) as Hlen.
  set (i := (j mod entries_per_cluster fs)%nat) in *.
  destruct (put_entry_run fs d fn fc cs j c (splice (i * 32) [0xE5] (fc c)) (marked_deleted e))
    as (d' & fc' & Hw & ?); auto.
  { apply length_splice. cbn. lia. }
  { rewrite (dents_splice _ _ i) by (cbn; lia). fold i. f_equal. rewrite Nat.sub_diag.
    rewrite decode_deleted by (apply length_slice; lia).
    fold (dent (fc c) i). by rewrite <- (dentries_lookup fs d fc cs j c e). }
  exists d', fc'. split; [|done]. rewrite Hl. cbn [fst snd]. unfold dir_mark_deleted.
  rewrite (proj2 (Z.ltb_ge _ _)) by apply (vo_bpc_max _ _ Vo).
  bstep (read_cluster_is fs d fn fc c V Hvc). unfold DIR_ENTRY_SIZE.
  rewrite putle_Some by (cbn; lia). cbn [from_opt]. rewrite bind_ret.
  by replace (Z.to_nat (Z.of_nat i * 32)) with (i * 32)%nat by lia.
Qed.

(** *** Finding room for an entry *)
Lemma dir_alloc_loop_run fs d fn fc c cs last0 (fuel : nat) :
  vol_is fs d fn fc -> is_chain fs fn c cs -> (length cs <= fuel)%nat ->
  dir_alloc_loop fuel fs c last0 d =
    match free_at (dentries fs fc cs) with
    | Some j => (OK (loc fs cs j), d)
    | None => dir_extend fs (default last0 (last cs)) d
    end.
Proof.
  intros V. pose proof (vol_is_ok _ _ _ _ V) as Vo. revert c last0 fuel.
  induction cs as [|x cs IH]; intros c last0 fuel Hc Hf.
  { cbn in Hc. destruct fuel; cbn [dir_alloc_loop];
      by rewrite (proj2 (Z.ltb_ge c EOC)), andb_false_r by lia. }
  destruct Hc as (-> & Hv & Hc). destruct fuel as [|fuel]; [cbn in Hf; lia|].
  cbn [dir_alloc_loop]. pose proof (valid_lt_EOC fs d c Vo Hv).
  rewrite (proj2 (Z.leb_le 2 c)), (proj2 (Z.ltb_lt c EOC)) by lia. cbn [andb].
  bstep (read_cluster_is fs d fn fc c V Hv). rewrite (scan_cluster _ fs d fn fc c V Hv).
  unfold lift. rewrite (bind_OK _ _ _ _ _ eq_refl).
  pose proof (free_at_scan 0 (dents (entries_per_cluster fs) (fc c)) (dentries fs fc cs)) as Hs.
  change (dentries fs fc (c :: cs))
    with (dents (entries_per_cluster fs) (fc c) ++ dentries fs fc cs).
  destruct (first_hit _ _ _) as [j|].
  - destruct Hs as [Hj ->]. rewrite length_dents in Hj.
    rewrite (loc_head fs d) by (done || lia). rewrite Z.sub_0_r. by rewrite Z2Nat.id by lia.
  - bstep (read_fat_is fs d fn fc c V (valid_in_fat _ _ Hv)).
    rewrite (IH (fn c) c fuel Hc) by (cbn in Hf; lia). rewrite Hs, length_dents.
    destruct (free_at _) as [k|]; cbn [fmap option_fmap option_map].
    + by rewrite (loc_tail fs d).
    + rewrite last_cons. by destruct (last cs).
Qed.

Lemma is_chain_snoc fs fn c cs x nc :
  is_chain fs fn c (cs ++ [x]) -> valid fs nc -> nc ∉ cs ++ [x] -> NoDup (cs ++ [x]) ->
  is_chain fs (<[x := nc]> (<[nc := MARK]> fn)) c ((cs ++ [x]) ++ [nc]).
Proof.
  revert c. induction cs as [|y cs IH]; intros c Hc Hv Hn Hnd; cbn in *.
  - destruct Hc as (-> & ? & ?). rewrite fn_lookup_insert, fn_lookup_insert_ne by set_solver.
    rewrite fn_lookup_insert. by unfold MARK, EOC.
  - destruct Hc as (-> & ? & ?). apply NoDup_cons in Hnd as [? Hnd].
    split; [done|]. split; [done|]. rewrite !fn_lookup_insert_ne by set_solver.
    apply IH; auto. set_solver.
Qed.

Lemma dents_zero (n bpc : nat) : (n * 32 <= bpc)%nat ->
  Forall (fun e => name_at e 0 = 0) (dents n (replicate bpc 0)).
Proof.
  intros Hn. unfold dents. apply Forall_fmap, Forall_forall. intros i Hi%elem_of_seq.
  cbn. unfold dent, slice. rewrite drop_replicate, take_replicate.
  rewrite Nat.min_l by lia. reflexivity.
Qed.

Lemma free_at_None_find t E E' : free_at E = None ->
  Forall (fun e => name_at e 0 = 0) E' -> find_at t (E ++ E') = find_at t E.
Proof.
  intros Hf Hz. induction E as [|x E IH]; cbn in *; [by apply find_at_zeros|].
  destruct (name_at x 0 =? 0); [done|]. cbn [orb] in Hf.
  destruct (name_at x 0 =? 0xE5); [done|]. destruct (matches t x); [done|].
  destruct (free_at E); [done|]. by rewrite IH.
Qed.

Lemma free_at_None_app E e E' : free_at E = None -> name_at e 0 = 0 ->
  free_at (E ++ e :: E') = Some (length E).
Proof.
  intros Hf He. induction E as [|x E IH]; cbn in *; [by rewrite He|].
  destruct (_ || _); [done|]. destruct (free_at E); [done|]. by rewrite IH.
Qed.

Lemma ended_app_zeros E E' : free_at E = None ->
  Forall (fun e => name_at e 0 = 0) E' -> ended (E ++ E').
Proof.
  intros Hf Hz. induction E as [|x E IH]; cbn in *.
  - destruct Hz as [|y E' Hy Hz]; [done|]. cbn. by rewrite Hy.
  - destruct (name_at x 0 =? 0); [done|]. cbn [orb] in Hf. destruct (_ =? _); [done|].
    destruct (free_at E); [done|]. by apply IH.
Qed.

(** The directory got clusters [ex] at its end; they were free before. *)
Definition dir_grown fs fn fc cs fn' fc' cs' : Prop :=
  exists ex, cs' = cs ++ ex /\ (length ex <= 1)%nat /\
    Forall (fun x => valid fs x /\ fn x = 0) ex /\
    (forall x, x ∉ cs' -> fn' x = fn x) /\ (forall x, x ∉ ex -> fc' x = fc x).

(** A free position in the directory, every name looked up as before. *)
Definition slot_ready fs fn fc dc cs d' fn' fc' cs' (j : nat) : Prop :=
  vol_is fs d' fn' fc' /\ is_chain fs fn' dc cs' /\ dir_grown fs fn fc cs fn' fc' cs' /\
  free_at (dentries fs fc' cs') = Some j /\
  (forall t, find_at t (dentries fs fc' cs') = find_at t (dentries fs fc cs)) /\
  (ended (dentries fs fc cs) -> ended (dentries fs fc' cs')) /\
  exists E, dentries fs fc' cs' = dentries fs fc cs ++ E /\
            Forall (fun e => name_at e 0 = 0) E.

Lemma dir_extend_run fs d fn fc dc cs x :
  vol_is fs d fn fc -> is_chain fs fn dc (cs ++ [x]) ->
  free_at (dentries fs fc (cs ++ [x])) = None ->
  (exists d' fn' fc' cs' j, dir_extend fs x d = (OK (loc fs cs' j), d') /\
     slot_ready fs fn fc dc (cs ++ [x]) d' fn' fc' cs' j) \/
  (dir_extend fs x d = (ERR, d) /\ forall c, valid fs c -> fn c <> 0).
Proof.
  intros V Hc Hfree. pose proof (vol_is_ok _ _ _ _ V) as Vo.
  pose proof (is_chain_NoDup _ _ _ _ (total_le_EOC fs d Vo) Hc) as Hnd.
  pose proof (is_chain_valid _ _ _ _ Hc) as Hval.
  destruct (epc_bounds fs d Vo) as [Hn Hb]. unfold dir_extend.
  destruct (find_free_cluster_run fs d fn fc V) as [(nc & Hf & Hv & H0 & _)|[Hf Hnone]].
  2:{ right. split; [by bstep Hf|done]. }
  left. bstep Hf. assert (Hx : valid fs x).
  { rewrite Forall_forall in Hval. apply Hval. set_solver. }
  assert (Hnc : nc ∉ cs ++ [x]).
  { intros Hin. by apply (is_chain_allocated _ _ _ _ _ Hc Hin). }
  destruct (write_fat_is fs d fn fc nc (Z.lor EOC 0x07) V (valid_in_fat _ _ Hv)) as (d1 & Hw1 & V1).
  bstep Hw1. destruct (write_fat_is fs d1 _ fc x nc V1 (valid_in_fat _ _ Hx)) as (d2 & Hw2 & V2).
  bstep Hw2. set (buf := replicate _ _).
  destruct (write_cluster_is fs d2 _ fc nc buf V2 Hv) as (d3 & Hw3 & V3).
  { unfold buf. rewrite length_replicate. lia. }
  bstep Hw3. rewrite (Z.mod_small nc) in V3.
  2:{ pose proof (valid_lt_EOC fs d nc Vo Hv). unfold EOC in *. lia. }
  change (Z.lor EOC 7 mod 2 ^ 28) with MARK in V3.
  set (fn' := <[x := nc]> _) in V3. set (fc' := <[nc := buf]> fc) in V3.
  assert (Hz : Forall (fun e => name_at e 0 = 0) (dentries fs fc' [nc])).
  { unfold dentries, fc'. cbn [fmap list_fmap concat]. rewrite fn_lookup_insert, app_nil_r.
    apply dents_zero. lia. }
  assert (Hlen : length (dentries fs fc' [nc]) = entries_per_cluster fs).
  { rewrite length_dentries. cbn. lia. }
  assert (He : dentries fs fc' ((cs ++ [x]) ++ [nc])
            = dentries fs fc (cs ++ [x]) ++ dentries fs fc' [nc]).
  { rewrite dentries_app. f_equal. apply dentries_ext. intros y Hy.
    apply fn_lookup_insert_ne. by intros ->. }
  exists d3, fn', fc', ((cs ++ [x]) ++ [nc]), (length (dentries fs fc (cs ++ [x]))). split.
  { unfold ret, loc. rewrite length_dentries, Nat.div_mul, Nat.Div0.mod_mul by lia.
    by rewrite list_lookup_middle. }
  split; [done|]. split; [by apply is_chain_snoc|]. rewrite He. split_and!.
  - exists [nc]. do 2 (split; [done|]). split; [by apply Forall_singleton|].
    split; intros y Hy; unfold fn', fc'; rewrite ?fn_lookup_insert_ne by set_solver; done.
  - destruct (dentries fs fc' [nc]) as [|e E]; [cbn in Hlen; lia|].
    apply Forall_cons in Hz as [He0 _]. by apply free_at_None_app.
  - intros t. by apply free_at_None_find.
  - intros _. by apply ended_app_zeros.
  - eauto.
Qed.

Lemma dir_alloc_slot_run fs d fn fc dc cs (fuel : nat) :
  vol_is fs d fn fc -> is_chain fs fn dc cs -> cs <> [] -> (length cs <= fuel)%nat ->
  (exists d' fn' fc' cs' j, dir_alloc_slot fuel fs dc d = (OK (loc fs cs' j), d') /\
     slot_ready fs fn fc dc cs d' fn' fc' cs' j) \/
  (dir_alloc_slot fuel fs dc d = (ERR, d) /\ (forall c, valid fs c -> fn c <> 0) /\
     free_at (dentries fs fc cs) = None).
Proof.
  intros V Hc Hne Hf. unfold dir_alloc_slot.
  rewrite (proj2 (Z.ltb_ge _ _)) by apply (vo_bpc_max _ _ (vol_is_ok _ _ _ _ V)).
  rewrite (dir_alloc_loop_run fs d fn fc dc cs dc fuel V Hc Hf).
  destruct (free_at (dentries fs fc cs)) as [j|] eqn:Hfree.
  - left. exists d, fn, fc, cs, j. split; [done|]. do 2 (split; [done|]). split.
    { exists []. rewrite app_nil_r. split; [done|]. split; [cbn; lia|]. by split; [apply Forall_nil|]. }
    do 3 (split; [done|]). exists []. by rewrite app_nil_r.
  - destruct (exists_last Hne) as (l & x & ->). rewrite last_snoc. cbn [default].
    destruct (dir_extend_run fs d fn fc dc l x V Hc Hfree) as [?|[? ?]]; [by left|by right].
Qed.
End dirs.
