(* ===== verification/Fat32Path.v ===== *)
(** * FAT32: paths and whole-file operations

    Path resolution and the path-based operations of [fs/fat32.c] on the
    abstract volume: what a successful write, unlink, mkdir, rmdir or rename
    leaves on the disk. *)
From stdpp Require Import functions.
From S2P Require Import Prelude Bytes Disk Fat32 Fat32Vol Fat32Alloc Fat32Dir.

(** Enough fuel for every walk along a chain of the volume. *)
Definition enough (fs : canboot_fat32) (fuel : nat) : Prop :=
  (Z.to_nat (total_clusters fs) <= fuel)%nat.

(** The directory [pc] a path leads to from [c], with the clusters [R] of the
    directories searched on the way. *)
Inductive walk (fs : canboot_fat32) (fn : Z -> Z) (fc : Z -> list Z)
    : Z -> list Z -> Z -> list Z -> Prop :=
| walk_done c : walk fs fn fc c [] c []
| walk_step c p comp rest cs j e pc R :
    take_comp 15 p = (comp, rest) -> comp <> [] ->
    is_chain fs fn c cs -> find_at (to_83 comp) (dentries fs fc cs) = Some (j, e) ->
    Z.land (de_attr e) ATTR_DIRECTORY <> 0 ->
    walk fs fn fc (if entry_first_cluster e =? 0 then root_cluster fs else entry_first_cluster e)
      (skip_slashes rest) pc R ->
    walk fs fn fc c p pc (cs ++ R).

Lemma length_skip_slashes p : (length (skip_slashes p) <= length p)%nat.
Proof. induction p as [|c p IH]; cbn; [done|]. destruct (c =? 47); cbn in *; lia. Qed.

Lemma length_take_comp room p comp rest :
  take_comp room p = (comp, rest) -> (length comp + length rest = length p)%nat.
Proof.
  revert p comp rest. induction room as [|r IH]; intros p comp rest Ht; cbn in Ht.
  { by simplify_eq. }
  destruct p as [|c p]; [by simplify_eq|]. destruct (c =? 47); [by simplify_eq|].
  destruct (take_comp r p) as [cp rs] eqn:E. simplify_eq. cbn. by rewrite (IH _ _ _ E).
Qed.

(** *** Names *)
(** A name whose first byte does not mark the entry unused. *)
Definition name_live (t : list Z) : Prop := nth 0 t 0 <> 0 /\ nth 0 t 0 <> 0xE5.

Lemma length_to_83 name : length (to_83 name) = 11%nat.
Proof.
  unfold to_83. cbv zeta.
  assert (Hb : forall m k (l : list Z), 0 <= m ->
    (length (upper <$> take (Z.to_nat (if Z.ltb m k then m else k)) l) <= Z.to_nat m)%nat).
  { intros m k l ?. rewrite length_fmap, length_take. destruct (Z.ltb_spec m k); lia. }
  set (k := match first_dot 0 name with Some d => d | None => _ end).
  assert (Hl : length (splice 0 (upper <$> take (Z.to_nat (if 8 <? k then 8 else k)) name)
                 (replicate 11 32)) = 11%nat).
  { rewrite length_splice; rewrite length_replicate; [done|].
    pose proof (Hb 8 k name). lia. }
  destruct (first_dot 0 name) as [dot|]; [|done].
  rewrite length_splice; rewrite Hl; [done|].
  match goal with |- (_ + length (upper <$> take (Z.to_nat (if Z.ltb 3 ?q then _ else _)) ?l) <= _)%nat =>
    pose proof (Hb 3 q l) end. lia.
Qed.

Lemma make_entry_live t attr first size : name_live t ->
  attr = 0x20 \/ attr = ATTR_DIRECTORY -> live t (make_entry t attr first size).
Proof.
  intros [H0 H5] Ha. split; [done|]. unfold matches, name_at. cbn [make_entry de_name de_attr].
  rewrite (proj2 (Z.eqb_neq _ _) H0), (proj2 (Z.eqb_neq _ _) H5), bool_decide_true by done.
  by destruct Ha as [-> | ->].
Qed.

Section paths.
Context {D : Type} `{BlockDevice D} `{!BlockDeviceLaws D}.
Implicit Types (fs : canboot_fat32) (d : D) (fn : Z -> Z) (fc : Z -> list Z) (cs : list Z).

Lemma chain_enough fs d fn fc c cs (fuel : nat) :
  vol_is fs d fn fc -> is_chain fs fn c cs -> enough fs fuel -> (length cs <= fuel)%nat.
Proof.
  intros V Hc He. pose proof (chain_fuel _ _ _ _ (total_le_EOC fs d (vol_is_ok _ _ _ _ V)) Hc).
  unfold enough in He. lia.
Qed.

Lemma dir_find_enough fs d fn fc t c cs (fuel : nat) :
  vol_is fs d fn fc -> is_chain fs fn c cs -> enough fs fuel ->
  dir_find fuel fs c t d = (OK (found fs cs (find_at t (dentries fs fc cs))), d).
Proof. intros V Hc He. eapply dir_find_run; eauto using chain_enough. Qed.

Lemma resolve_loop_run fs d fn fc c p pc R (n fuel : nat) :
  vol_is fs d fn fc -> walk fs fn fc c p pc R -> enough fs fuel -> (length p <= n)%nat ->
  resolve_loop n fuel fs c p d = (OK pc, d).
Proof.
  intros V Hw Hf. revert n. induction Hw as [c|c p comp rest cs j e pc R Ht Hne Hc Hfind Hd _ IH];
    intros n Hn; [by destruct n|].
  pose proof (length_take_comp _ _ _ _ Ht). pose proof (length_skip_slashes rest).
  destruct comp as [|x comp]; [done|]. cbn [length] in *.
  destruct p as [|y p]; [cbn in *; lia|]. destruct n as [|n]; [cbn in *; lia|].
  cbn [resolve_loop]. rewrite Ht. cbv beta iota zeta.
  bstep (dir_find_enough fs d fn fc (to_83 (x :: comp)) c cs fuel V Hc Hf).
  rewrite Hfind. cbn [found fmap option_fmap option_map].
  rewrite (proj2 (Z.eqb_neq _ _) Hd). apply IH. cbn in *. lia.
Qed.

Lemma resolve_dir_run fs d fn fc path pc R (fuel : nat) :
  vol_is fs d fn fc -> walk fs fn fc (root_cluster fs) (skip_slashes path) pc R ->
  enough fs fuel -> resolve_dir fuel fs path d = (OK pc, d).
Proof.
  intros V Hw Hf. eapply resolve_loop_run; eauto. apply length_skip_slashes.
Qed.

(** Resolution only depends on the directories it searches. *)
Lemma walk_agree fs fn fc fn' fc' c p pc R :
  (forall x, x ∈ R -> fn' x = fn x /\ fc' x = fc x) ->
  walk fs fn fc c p pc R -> walk fs fn' fc' c p pc R.
Proof.
  intros Ha Hw. induction Hw as [|c p comp rest cs j e pc R Ht Hne Hc Hfind Hd _ IH];
    [constructor|].
  eapply walk_step; eauto.
  - eapply is_chain_agree; [|exact Hc]. intros x Hx. apply Ha. set_solver.
  - rewrite (dentries_ext fs fc fc' cs); [done|]. intros x Hx. apply Ha. set_solver.
  - apply IH. intros x Hx. apply Ha. set_solver.
Qed.

(** ** Files in a directory *)
(** [path] names the entry [leaf] of the directory [pc], whose clusters are
    [cs]; [R] are the clusters of the directories above it. *)
Record in_dir fs fn fc (path leaf : list Z) (pc : Z) (R cs : list Z) : Prop := {
  id_split : exists parent, split_last path 256 16 = Some (parent, leaf) /\
    walk fs fn fc (root_cluster fs) (skip_slashes parent) pc R;
  id_chain : is_chain fs fn pc cs;
  id_nonempty : cs <> [];
  id_above : forall x, x ∈ R -> x ∉ cs;
}.

(** The clusters of the data of an entry whose first cluster is [first]. *)
Definition data_chain fs fn (first : Z) (os : list Z) : Prop :=
  is_chain fs fn first os \/ (first < 2 /\ os = []).

Lemma data_chain_agree fs fn fn' first os :
  (forall x, x ∈ os -> fn' x = fn x) -> data_chain fs fn first os -> data_chain fs fn' first os.
Proof. intros He [Hc|?]; [left; by eapply is_chain_agree|by right]. Qed.

Lemma free_data_run fs d fn fc first os (fuel : nat) :
  vol_is fs d fn fc -> data_chain fs fn first os -> enough fs fuel ->
  exists d', free_chain fuel fs first d = (OK tt, d') /\ vol_is fs d' (freed os fn) fc.
Proof.
  intros V [Hc|[Hlt ->]] Hf.
  - eapply free_chain_run; eauto using chain_enough.
  - exists d. split; [|by eapply vol_is_ext].
    destruct fuel; cbn [free_chain]; by rewrite (proj2 (Z.leb_gt 2 first)) by lia.
Qed.

(** The clusters of the regular file called [t] in the directory [cs]; none
    when there is no such file. *)
Definition old_data fs fn fc cs (t : list Z) (os : list Z) : Prop :=
  match find_at t (dentries fs fc cs) with
  | None => os = []
  | Some (_, e) => Z.land (de_attr e) ATTR_DIRECTORY = 0 /\
                   data_chain fs fn (entry_first_cluster e) os
  end /\ (forall x, x ∈ os -> x ∉ cs).

(** A position of the directory at which an entry for [t] can be stored. *)
Record slot_for fs fn fc pc cs (t : list Z) (os : list Z) d' fn' fc' cs' (j : nat) : Prop := {
  sf_vol : vol_is fs d' fn' fc';
  sf_chain : is_chain fs fn' pc cs';
  sf_grown : exists ex, cs' = cs ++ ex /\ Forall (fun x => valid fs x /\ fn x = 0) ex;
  sf_pos : (j < length (dentries fs fc' cs'))%nat;
  sf_find e : live t e -> find_at t (<[j := e]> (dentries fs fc' cs')) = Some (j, e);
  sf_others e : ended (dentries fs fc cs) -> live t e ->
    ended (<[j := e]> (dentries fs fc' cs')) /\
    forall t', t' <> t ->
      find_at t' (<[j := e]> (dentries fs fc' cs')) = find_at t' (dentries fs fc cs);
  sf_once t' e : t' <> t -> live t e -> once t' (dentries fs fc cs) ->
    once t' (<[j := e]> (dentries fs fc' cs'));
  sf_links x : fn x <> 0 -> x ∉ cs -> x ∉ os -> fn' x = fn x;
  sf_data x : fn x <> 0 -> fc' x = fc x;
  sf_free : (nfree fs fn <= nfree fs fn' + 1)%nat;
}.

Lemma slot_existing fs d fn fc pc cs t os (j : nat) e0 (fuel : nat) :
  vol_is fs d fn fc -> is_chain fs fn pc cs -> old_data fs fn fc cs t os ->
  enough fs fuel -> find_at t (dentries fs fc cs) = Some (j, e0) ->
  exists d', free_chain fuel fs (entry_first_cluster e0) d = (OK tt, d') /\
    slot_for fs fn fc pc cs t os d' (freed os fn) fc cs j.
Proof.
  intros V Hc [Hos Hdis] Hf Hfind. rewrite Hfind in Hos. destruct Hos as [_ Hos].
  destruct (free_data_run fs d fn fc _ os fuel V Hos Hf) as (d' & Hr & V').
  destruct (find_at_Some _ _ _ _ Hfind) as [Hj [H0 Hm]].
  assert (Hout : forall x, x ∉ os -> freed os fn x = fn x).
  { intros x Hx. unfold freed. by rewrite decide_False. }
  exists d'. split; [done|]. split.
  - done.
  - eapply is_chain_agree; [|exact Hc]. intros x Hx. apply Hout. intros Ho. by apply (Hdis x).
  - exists []. rewrite app_nil_r. by split; [|apply Forall_nil].
  - by eapply lookup_lt_Some.
  - intros e He. by eapply find_at_replace.
  - intros e He [He0 Hme]. split; [by eapply ended_replace|].
    intros t' Ht. eapply find_at_other; eauto; by eapply matches_other.
  - intros t' e Ht [_ He]. apply once_insert_other. by eapply matches_other.
  - intros x _ _. by apply Hout.
  - done.
  - pose proof (nfree_le fs fn (freed os fn) []) as Hn. cbn in Hn.
    rewrite Nat.add_0_r in Hn. etransitivity; [apply Hn|lia].
    intros x _ Hx. left. unfold freed. by case_decide.
Qed.

Lemma slot_new fs d fn fc pc cs t (fuel : nat) :
  vol_is fs d fn fc -> is_chain fs fn pc cs -> cs <> [] -> enough fs fuel ->
  find_at t (dentries fs fc cs) = None ->
  (exists d' fn' fc' cs' j, dir_alloc_slot fuel fs pc d = (OK (loc fs cs' j), d') /\
     slot_for fs fn fc pc cs t [] d' fn' fc' cs' j) \/
  (dir_alloc_slot fuel fs pc d = (ERR, d) /\ nfree fs fn = 0%nat).
Proof.
  intros V Hc Hne Hf Hfind.
  destruct (dir_alloc_slot_run fs d fn fc pc cs fuel V Hc Hne)
    as [(d' & fn' & fc' & cs' & j & Hr & Hs)|(Hr & Hfull & _)]; [by eapply chain_enough| |].
  2:{ right. split; [done|]. pose proof (nfree_full fs fn []) as Hn. cbn in Hn.
      enough (nfree fs fn <= 0)%nat by lia. apply Hn. intros x Hx.
      unfold marked. rewrite decide_False by set_solver. by apply Hfull. }
  left. exists d', fn', fc', cs', j. split; [done|].
  destruct Hs as (V' & Hc' & (ex & -> & Hlen & Hex & Hfn & Hfc) & Hfree & Hsame & Hend & Ez & HEz & Hz).
  split; auto.
  - eauto.
  - destruct (free_at_Some _ _ Hfree) as [e He]. by eapply lookup_lt_Some.
  - intros e He. apply find_at_insert; auto. by rewrite Hsame.
  - intros e He [H0 Hm]. specialize (Hend He). split; [by apply ended_insert|].
    intros t' Ht. rewrite find_at_insert_other; auto. by eapply matches_other.
  - intros t' e Ht [_ He] Ho. apply once_insert_other; [by eapply matches_other|].
    rewrite HEz. by apply once_app_zeros.
  - intros x H0 Hx _. apply Hfn. rewrite elem_of_app. intros [?|Hin]; [done|].
    rewrite Forall_forall in Hex. by apply Hex in Hin as [_ ?].
  - intros x H0. apply Hfc. intros Hin.
    rewrite Forall_forall in Hex. by apply Hex in Hin as [_ ?].
  - etransitivity; [apply (nfree_le fs fn fn' ex)|lia]. intros x Hx H0.
    destruct (decide (x ∈ ex)); [by right|left]. rewrite Hfn; [done|].
    rewrite elem_of_app. intros [Hin|?]; [|done]. by apply (is_chain_allocated _ _ _ _ _ Hc Hin).
Qed.

(** ** Writing a file

    The disk after [data] has been stored under the name [t] in the
    directory [pc]: the entry points to a chain with the data, other names
    of the directory are unchanged, and so is every allocated cluster
    outside the directory and the file's old data. *)
Record written fs fn fc pc cs (os t data : list Z) d' fn' fc' cs' (j : nat) first fl : Prop := {
  wr_vol : vol_is fs d' fn' fc';
  wr_chain : is_chain fs fn' pc cs';
  wr_grown : exists ex, cs' = cs ++ ex /\ Forall (fun x => valid fs x /\ fn x = 0) ex;
  wr_find : find_at t (dentries fs fc' cs') =
              Some (j, make_entry t 0x20 first (Z.of_nat (length data)));
  wr_first : 0 <= first < 2 ^ 32;
  wr_data : data <> [] -> is_chain fs fn' first fl;
  wr_content : take (length data) (concat (fc' <$> fl)) = data;
  wr_others : ended (dentries fs fc cs) ->
    ended (dentries fs fc' cs') /\
    forall t', t' <> t -> find_at t' (dentries fs fc' cs') = find_at t' (dentries fs fc cs);
  wr_frame x : fn x <> 0 -> x ∉ cs -> x ∉ os -> fn' x = fn x /\ fc' x = fc x;
}.

(** From a position for the entry: store the data, then the entry. *)
Lemma store_entry_run fs fn fc pc cs os t data d1 fn1 fc1 cs1 (j : nat) :
  slot_for fs fn fc pc cs t os d1 fn1 fc1 cs1 j -> length t = 11%nat -> name_live t ->
  Z.of_nat (length data) <= FAT32_MAX_CHAIN * bytes_per_cluster fs ->
  let action := (let! first := store_data fs data in
                 dir_write_entry fs (loc fs cs1 j).1 (loc fs cs1 j).2
                   (make_entry t 0x20 first (Z.of_nat (length data)))) in
  (exists d' fn' fc' first fl, action d1 = (OK tt, d') /\
     written fs fn fc pc cs os t data d' fn' fc' cs1 j first fl) \/
  (exists d', action d1 = (ERR, d') /\
     Z.of_nat (nfree fs fn1) < clusters_needed fs (Z.of_nat (length data))).
Proof.
  intros S Ht Hl Hlen action. pose proof (sf_vol _ _ _ _ _ _ _ _ _ _ _ _ S) as V1.
  pose proof (vol_is_ok _ _ _ _ V1) as Vo. pose proof (bpc_pos _ _ Vo).
  pose proof (sf_chain _ _ _ _ _ _ _ _ _ _ _ _ S) as Hc1.
  destruct (store_data_run fs d1 fn1 fc1 data V1 Hlen)
    as (d2 & [(first & Hr & Hst)|[Hr Hfull]]).
  2:{ right. exists d2. split; [by unfold action; bstep Hr|done]. }
  left. destruct Hst as (fl & fn2 & fc2 & V2 & Hnd & Hfl & Hfn2 & Hfc2 & Hch & Hemp & Htake).
  assert (Hdis : forall x, x ∈ cs1 -> x ∉ fl).
  { intros x Hx Hin. rewrite Forall_forall in Hfl. apply Hfl in Hin as [_ Hz].
    by apply (is_chain_allocated _ _ _ _ _ Hc1 Hx). }
  assert (Hfirst : 0 <= first < 2 ^ 32).
  { destruct data as [|b data]; [destruct Hemp; [done|lia]|].
    destruct fl as [|f fl]; [done|].
    destruct Hch as (-> & Hv & _); [done|].
    pose proof (valid_lt_EOC _ _ _ (vol_is_ok _ _ _ _ V2) Hv). unfold EOC in *. lia. }
  assert (Hc2 : is_chain fs fn2 pc cs1).
  { eapply is_chain_agree; [|exact Hc1]. intros x Hx. apply Hfn2. auto. }
  assert (HE : dentries fs fc2 cs1 = dentries fs fc1 cs1).
  { apply dentries_ext. intros x Hx. apply Hfc2. auto. }
  set (e := make_entry t 0x20 first (Z.of_nat (length data))).
  destruct (dir_write_entry_run fs d2 fn2 fc2 cs1 j e) as (d3 & fc3 & Hw & V3 & HE3 & Hfc3).
  - done.
  - by eapply is_chain_valid.
  - eapply is_chain_NoDup; [|exact Hc2]. eapply total_le_EOC, Vo.
  - rewrite HE. apply (sf_pos _ _ _ _ _ _ _ _ _ _ _ _ S).
  - apply make_entry_ok; [done|lia|]. unfold FAT32_MAX_CHAIN in *. nia.
  - exists d3, fn2, fc3, first, fl. split; [unfold action; bstep Hr; exact Hw|].
    assert (Hlive : live t e) by (apply make_entry_live; auto).
    rewrite HE in HE3. split; auto; rewrite ?HE3; destruct S; auto.
    + rewrite <- Htake at 2. f_equal. f_equal. apply list_fmap_ext. intros i x Hx.
      apply Hfc3. intros Hin. apply (Hdis x Hin). by eapply list_elem_of_lookup_2.
    + intros x Hx0 Hx Ho. destruct sf_grown0 as (ex & -> & Hex).
      assert (x ∉ fl).
      { intros Hin. rewrite Forall_forall in Hfl. apply Hfl in Hin as [_ Hz].
        rewrite sf_links0 in Hz by done. done. }
      assert (x ∉ cs ++ ex).
      { rewrite elem_of_app. intros [?|Hin]; [done|]. rewrite Forall_forall in Hex.
        by apply Hex in Hin as [_ ?]. }
      rewrite Hfn2, Hfc3, Hfc2 by done. auto.
Qed.

Lemma walk_allocated fs fn fc c p pc R x : walk fs fn fc c p pc R -> x ∈ R -> fn x <> 0.
Proof.
  induction 1 as [|c p comp rest cs j e pc R _ _ Hc _ _ _ IH]; intros Hx;
    [by apply elem_of_nil in Hx|].
  apply elem_of_app in Hx as [Hx|Hx]; [by eapply is_chain_allocated|auto].
Qed.

(** A path keeps naming the entry when the directories above it and the
    links of its directory are kept. *)
Lemma in_dir_agree fs fn fc fn' fc' path leaf pc R cs ex :
  in_dir fs fn fc path leaf pc R cs -> is_chain fs fn' pc (cs ++ ex) ->
  Forall (fun x => valid fs x /\ fn x = 0) ex ->
  (forall x, x ∈ R -> fn' x = fn x /\ fc' x = fc x) ->
  in_dir fs fn' fc' path leaf pc R (cs ++ ex).
Proof.
  intros [(parent & Hs & Hw) Hc Hne Hab] Hc' Hex Ha. split.
  - exists parent. split; [done|]. by eapply walk_agree.
  - done.
  - by destruct cs.
  - intros x Hx. rewrite elem_of_app. intros [?|Hin]; [by apply (Hab x)|].
    rewrite Forall_forall in Hex. apply Hex in Hin as [_ ?]. by eapply walk_allocated.
Qed.

Lemma resolve_entry_run fs d fn fc path leaf pc R cs (fuel : nat) :
  vol_is fs d fn fc -> in_dir fs fn fc path leaf pc R cs -> enough fs fuel ->
  resolve_entry fuel fs path d =
    (OK (found fs cs (find_at (to_83 leaf) (dentries fs fc cs))), d).
Proof.
  intros V [(parent & Hs & Hw) Hc _ _] Hf. unfold resolve_entry. rewrite Hs.
  bstep (resolve_dir_run fs d fn fc parent pc R fuel V Hw Hf). by eapply dir_find_enough.
Qed.

Lemma read_path_run fs d fn fc path leaf pc R cs (j : nat) e fl data buf_size (fuel : nat) :
  vol_is fs d fn fc -> in_dir fs fn fc path leaf pc R cs -> enough fs fuel ->
  find_at (to_83 leaf) (dentries fs fc cs) = Some (j, e) ->
  Z.land (de_attr e) ATTR_DIRECTORY = 0 -> de_size e = Z.of_nat (length data) ->
  (data <> [] -> is_chain fs fn (entry_first_cluster e) fl) ->
  take (length data) (concat (fc <$> fl)) = data ->
  Z.of_nat (length data) <= FAT32_MAX_CHAIN * bytes_per_cluster fs ->
  Z.of_nat (length data) <= buf_size ->
  canboot_fat32_read_path fuel fs path buf_size d = (OK (data, Z.of_nat (length data)), d).
Proof.
  intros V Hin Hf Hfind Ha Hsz Hch Htake Hmax Hbuf. unfold canboot_fat32_read_path.
  bstep (resolve_entry_run fs d fn fc path leaf pc R cs fuel V Hin Hf).
  rewrite Hfind. cbn [found fmap option_fmap option_map]. rewrite Ha, Hsz. cbn [negb Z.eqb].
  rewrite (proj2 (Z.ltb_ge _ _)) by apply (vo_bpc_max _ _ (vol_is_ok _ _ _ _ V)).
  by bstep (read_data fs fn fc d (entry_first_cluster e) fl data fuel buf_size V Hch Htake Hf Hmax Hbuf).
Qed.

Lemma write_path_run fs d fn fc path leaf pc R cs os data (fuel : nat) :
  vol_is fs d fn fc -> in_dir fs fn fc path leaf pc R cs -> enough fs fuel ->
  old_data fs fn fc cs (to_83 leaf) os -> name_live (to_83 leaf) ->
  Z.of_nat (length data) <= FAT32_MAX_CHAIN * bytes_per_cluster fs ->
  clusters_needed fs (Z.of_nat (length data)) + 1 <= Z.of_nat (nfree fs fn) ->
  exists d' fn' fc' cs' j first fl,
    canboot_fat32_write_path fuel fs path data d = (OK tt, d') /\
    written fs fn fc pc cs os (to_83 leaf) data d' fn' fc' cs' j first fl.
Proof.
  intros V Hin Hf Hos Hl Hmax Hroom. pose proof (length_to_83 leaf) as Hlen.
  pose proof (vol_is_ok _ _ _ _ V) as Vo. pose proof (bpc_pos _ _ Vo) as Hbp.
  assert (0 <= clusters_needed fs (Z.of_nat (length data))) as Hcn.
  { unfold clusters_needed. apply Z.div_pos; [apply u32_range|lia]. }
  destruct Hin as [(parent & Hs & Hw) Hc Hne Hab].
  unfold canboot_fat32_write_path. rewrite (bind_OK _ _ _ d d) by done. cbv beta.
  rewrite (vo_writable _ _ Vo), Hs. cbn [negb].
  bstep (resolve_dir_run fs d fn fc parent pc R fuel V Hw Hf). cbv zeta.
  bstep (dir_find_enough fs d fn fc (to_83 leaf) pc cs fuel V Hc Hf).
  destruct (find_at (to_83 leaf) (dentries fs fc cs)) as [[j e0]|] eqn:Hfind;
    cbn [found fmap option_fmap option_map].
  - pose proof Hos as [Hos1 _]. rewrite Hfind in Hos1. destruct Hos1 as [-> _]. cbn [negb Z.eqb].
    destruct (slot_existing fs d fn fc pc cs (to_83 leaf) os j e0 fuel V Hc Hos Hf Hfind)
      as (d1 & Hr & S).
    pose proof (sf_free _ _ _ _ _ _ _ _ _ _ _ _ S).
    destruct (store_entry_run fs fn fc pc cs os (to_83 leaf) data d1 _ fc cs j S Hlen Hl Hmax)
      as [(d' & fn' & fc' & first & fl & Ha & W)|(d' & _ & ?)]; [|lia].
    exists d', fn', fc', cs, j, first, fl. split; [|done]. unfold bind at 1.
    bstep Hr. unfold ret. rewrite <- surjective_pairing. exact Ha.
  - pose proof Hos as [Hos1 _]. rewrite Hfind in Hos1. subst os.
    destruct (slot_new fs d fn fc pc cs (to_83 leaf) fuel V Hc Hne Hf Hfind)
      as [(d1 & fn1 & fc1 & cs1 & j & Hr & S)|[_ ?]]; [|lia].
    pose proof (sf_free _ _ _ _ _ _ _ _ _ _ _ _ S).
    destruct (store_entry_run fs fn fc pc cs [] (to_83 leaf) data d1 fn1 fc1 cs1 j S Hlen Hl Hmax)
      as [(d' & fn' & fc' & first & fl & Ha & W)|(d' & _ & ?)]; [|lia].
    exists d', fn', fc', cs1, j, first, fl. split; [|done]. bstep Hr. exact Ha.
Qed.

(** ** Removing an entry *)
(** The chain [os] is free, the entry at [j] is marked deleted, the rest of
    the volume is as before. *)
Record removed fs fn fc cs (os : list Z) (j : nat) e d' fc' : Prop := {
  rm_vol : vol_is fs d' (freed os fn) fc';
  rm_entries : dentries fs fc' cs = <[j := marked_deleted e]> (dentries fs fc cs);
  rm_frame x : x ∉ cs -> fc' x = fc x;
}.

Lemma freed_other os fn x : x ∉ os -> freed os fn x = fn x.
Proof. intros. unfold freed. by rewrite decide_False. Qed.

Lemma remove_run fs d fn fc pc cs os (j : nat) e (fuel : nat) :
  vol_is fs d fn fc -> is_chain fs fn pc cs -> enough fs fuel ->
  dentries fs fc cs !! j = Some e -> data_chain fs fn (entry_first_cluster e) os ->
  (forall x, x ∈ os -> x ∉ cs) ->
  exists d' fc',
    (free_chain fuel fs (entry_first_cluster e);;!
     dir_mark_deleted fs (loc fs cs j).1 (loc fs cs j).2) d = (OK tt, d') /\
    removed fs fn fc cs os j e d' fc' /\ is_chain fs (freed os fn) pc cs.
Proof.
  intros V Hc Hf Hj Hos Hdis.
  destruct (free_data_run fs d fn fc _ os fuel V Hos Hf) as (d1 & Hr & V1).
  destruct (dir_mark_deleted_run fs d1 _ fc cs j e V1) as (d2 & fc2 & Hm & V2 & HE & Hfr).
  - by eapply is_chain_valid.
  - eapply is_chain_NoDup; [|exact Hc]. eapply total_le_EOC, vol_is_ok, V.
  - done.
  - exists d2, fc2. split; [by bstep Hr|]. split; [done|].
    eapply is_chain_agree; [|exact Hc]. intros x Hx. apply freed_other. intros Ho.
    by apply (Hdis x).
Qed.

Lemma marked_deleted_5 e : name_at (marked_deleted e) 0 = 0xE5.
Proof. done. Qed.

(** After the removal the name is gone, and only that name. *)
Lemma removed_find fs fn fc cs os t (j : nat) e d' fc' :
  removed fs fn fc cs os j e d' fc' -> find_at t (dentries fs fc cs) = Some (j, e) ->
  once t (dentries fs fc cs) ->
  find_at t (dentries fs fc' cs) = None /\
  forall t', t' <> t -> find_at t' (dentries fs fc' cs) = find_at t' (dentries fs fc cs).
Proof.
  intros [_ -> _] Hfind Ho. destruct (find_at_Some _ _ _ _ Hfind) as [Hj [H0 Hm]]. split.
  - by eapply find_at_delete.
  - intros t' Ht. eapply find_at_other; eauto.
    by eapply matches_other.
Qed.

Lemma removed_in_dir fs fn fc path leaf pc R cs os (j : nat) e d' fc' :
  in_dir fs fn fc path leaf pc R cs -> removed fs fn fc cs os j e d' fc' ->
  is_chain fs (freed os fn) pc cs -> (forall x, x ∈ R -> x ∉ os) ->
  in_dir fs (freed os fn) fc' path leaf pc R cs.
Proof.
  intros Hin Hrm Hc HR. pose proof (id_above _ _ _ _ _ _ _ _ Hin) as Hab.
  rewrite <- (app_nil_r cs). rewrite <- (app_nil_r cs) in Hc.
  eapply (in_dir_agree fs fn fc); [exact Hin|done|by apply Forall_nil|].
  intros x Hx. split; [apply freed_other; auto|]. destruct Hrm. auto.
Qed.

Lemma unlink_path_run fs d fn fc path leaf pc R cs os (j : nat) e (fuel : nat) :
  vol_is fs d fn fc -> in_dir fs fn fc path leaf pc R cs -> enough fs fuel ->
  find_at (to_83 leaf) (dentries fs fc cs) = Some (j, e) ->
  Z.land (de_attr e) ATTR_DIRECTORY = 0 -> data_chain fs fn (entry_first_cluster e) os ->
  (forall x, x ∈ os -> x ∉ cs) ->
  exists d' fc', canboot_fat32_unlink_path fuel fs path d = (OK tt, d') /\
    removed fs fn fc cs os j e d' fc' /\ is_chain fs (freed os fn) pc cs.
Proof.
  intros V Hin Hf Hfind Ha Hos Hdis.
  destruct (find_at_Some _ _ _ _ Hfind) as [Hj _].
  destruct (remove_run fs d fn fc pc cs os j e fuel V) as (d' & fc' & Hr & ?); auto.
  { apply Hin. }
  exists d', fc'. split; [|done]. unfold canboot_fat32_unlink_path.
  rewrite (bind_OK _ _ _ d d) by done. cbv beta.
  rewrite (vo_writable _ _ (vol_is_ok _ _ _ _ V)). cbn [negb].
  bstep (resolve_entry_run fs d fn fc path leaf pc R cs fuel V Hin Hf).
  rewrite Hfind. cbn [found fmap option_fmap option_map]. by rewrite Ha.
Qed.

(** *** Directories *)
(** An entry [dir_is_empty] skips; [None] is the end marker. *)
Fixpoint all_skipped (E : list fat_dir) : bool :=
  match E with
  | [] => true
  | e :: E' => if name_at e 0 =? 0 then true
               else if (name_at e 0 =? 0xE5) || (de_attr e =? ATTR_LFN) || is_dot_entry e
                    then all_skipped E' else false
  end.

Lemma all_skipped_scan i es E :
  all_skipped (es ++ E) =
    match first_hit is_empty_body i es with Some b => b | None => all_skipped E end.
Proof.
  revert i. induction es as [|x es IH]; intros i; [done|].
  cbn [app all_skipped first_hit]. unfold is_empty_body at 1.
  destruct (name_at x 0 =? 0); [done|]. destruct (name_at x 0 =? 0xE5); [apply IH|].
  destruct (de_attr x =? ATTR_LFN); [apply IH|]. destruct (is_dot_entry x); [apply IH|done].
Qed.

Lemma dir_is_empty_run fs d fn fc c cs (fuel : nat) :
  vol_is fs d fn fc -> is_chain fs fn c cs -> enough fs fuel ->
  dir_is_empty fuel fs c d = (OK (all_skipped (dentries fs fc cs)), d).
Proof.
  intros V Hc He. pose proof (vol_is_ok _ _ _ _ V) as Vo. unfold dir_is_empty.
  rewrite (proj2 (Z.ltb_ge _ _)) by apply (vo_bpc_max _ _ Vo).
  pose proof (chain_enough fs d fn fc c cs fuel V Hc He) as Hf. clear He.
  revert c fuel Hc Hf. induction cs as [|x cs IH]; intros c fuel Hc Hf.
  { cbn in Hc. destruct fuel; cbn [dir_is_empty_loop];
      by rewrite (proj2 (Z.ltb_ge c EOC)), andb_false_r by lia. }
  destruct Hc as (-> & Hv & Hc). destruct fuel as [|fuel]; [cbn in Hf; lia|].
  cbn [dir_is_empty_loop]. pose proof (valid_lt_EOC fs d c Vo Hv).
  rewrite (proj2 (Z.leb_le 2 c)), (proj2 (Z.ltb_lt c EOC)) by lia. cbn [andb].
  bstep (read_cluster_is fs d fn fc c V Hv). rewrite (scan_cluster _ fs d fn fc c V Hv).
  unfold lift. rewrite (bind_OK _ _ _ _ _ eq_refl).
  change (dentries fs fc (c :: cs))
    with (dents (entries_per_cluster fs) (fc c) ++ dentries fs fc cs).
  rewrite (all_skipped_scan 0). destruct (first_hit _ _ _) as [b|]; [done|].
  bstep (read_fat_is fs d fn fc c V (valid_in_fat _ _ Hv)).
  apply IH; [done|cbn in Hf; lia].
Qed.

Lemma rmdir_run fs d fn fc path leaf pc R cs ds (j : nat) e (fuel : nat) :
  vol_is fs d fn fc -> in_dir fs fn fc path leaf pc R cs -> enough fs fuel ->
  find_at (to_83 leaf) (dentries fs fc cs) = Some (j, e) ->
  Z.land (de_attr e) ATTR_DIRECTORY <> 0 -> is_chain fs fn (entry_first_cluster e) ds ->
  (forall x, x ∈ ds -> x ∉ cs) ->
  if all_skipped (dentries fs fc ds)
  then exists d' fc', canboot_fat32_rmdir fuel fs path d = (OK tt, d') /\
    removed fs fn fc cs ds j e d' fc' /\ is_chain fs (freed ds fn) pc cs
  else canboot_fat32_rmdir fuel fs path d = (ERR, d).
Proof.
  intros V Hin Hf Hfind Ha Hds Hdis.
  destruct (find_at_Some _ _ _ _ Hfind) as [Hj _].
  unfold canboot_fat32_rmdir.
  rewrite !(bind_OK _ _ _ d d) by done. cbv beta.
  rewrite (vo_writable _ _ (vol_is_ok _ _ _ _ V)). cbn [negb].
  rewrite !(bind_OK _ _ _ _ _ (resolve_entry_run fs d fn fc path leaf pc R cs fuel V Hin Hf)).
  rewrite Hfind. cbn [found fmap option_fmap option_map].
  rewrite (proj2 (Z.eqb_neq _ _) Ha). cbv zeta.
  rewrite !(bind_OK _ _ _ _ _ (dir_is_empty_run fs d fn fc _ ds fuel V Hds Hf)).
  destruct (all_skipped _); cbn [negb]; [|done].
  destruct (remove_run fs d fn fc pc cs ds j e fuel V) as (d' & fc' & Hr & ?); auto.
  { apply Hin. } { by left. }
  exists d', fc'. split; [|done]. exact Hr.
Qed.

(** ** Creating a directory *)
(** The entries of a new directory [dc] under [pc]. *)
Definition dot_entry (dc : Z) : fat_dir := make_entry DOT83 ATTR_DIRECTORY dc 0.
Definition dotdot_entry fs (pc : Z) : fat_dir :=
  make_entry DOTDOT83 ATTR_DIRECTORY (if pc =? root_cluster fs then 0 else pc) 0.

Lemma dot_entry_ok dc : entry_ok (dot_entry dc).
Proof. unfold dot_entry. apply make_entry_ok; [reflexivity|unfold ATTR_DIRECTORY; lia|lia]. Qed.

Lemma dotdot_entry_ok fs pc : entry_ok (dotdot_entry fs pc).
Proof. unfold dotdot_entry. apply make_entry_ok; [reflexivity|unfold ATTR_DIRECTORY; lia|lia]. Qed.

Lemma dir_template_run fs d dc pc : vol_ok fs d ->
  exists buf Z0, dir_template fs dc pc = Some buf /\
    Z.of_nat (length buf) = bytes_per_cluster fs /\
    dents (entries_per_cluster fs) buf = dot_entry dc :: dotdot_entry fs pc :: Z0 /\
    Forall (fun e => name_at e 0 = 0) Z0.
Proof.
  intros V. destruct (epc_bounds fs d V) as [Hn Hb]. unfold dir_template.
  set (zs := replicate _ _).
  assert (Hz : (entries_per_cluster fs * 32 <= length zs)%nat).
  { unfold zs. rewrite length_replicate. lia. }
  destruct (dir_put_dents (entries_per_cluster fs) zs 0 (dot_entry dc)) as (b1 & H1 & L1 & D1);
    [apply dot_entry_ok|lia|exact Hz|].
  destruct (dir_put_dents (entries_per_cluster fs) b1 1 (dotdot_entry fs pc)) as (b2 & H2 & L2 & D2);
    [apply dotdot_entry_ok|lia|lia|].
  pose proof (dents_zero (entries_per_cluster fs) (Z.to_nat (bytes_per_cluster fs)) ltac:(lia)) as Hzs.
  fold zs in Hzs. pose proof (length_dents (entries_per_cluster fs) zs) as Hl.
  destruct (dents (entries_per_cluster fs) zs) as [|e0 [|e1 Z0]] eqn:E; [cbn in Hl; lia..|].
  exists b2, Z0. change (Z.of_nat 0) with 0 in H1. change (Z.of_nat 1) with 1 in H2.
  unfold dot_entry in H1. rewrite H1. split; [exact H2|]. split.
  - rewrite L2, L1. unfold zs. rewrite length_replicate. lia.
  - split; [rewrite D2, D1; done|].
    apply Forall_cons in Hzs as [_ Hzs]. by apply Forall_cons in Hzs as [_ ?].
Qed.

Record made_dir fs fn fc pc cs (t : list Z) d' fn' fc' cs' (j : nat) dc : Prop := {
  mk_vol : vol_is fs d' fn' fc';
  mk_chain : is_chain fs fn' pc cs';
  mk_grown : exists ex, cs' = cs ++ ex /\ Forall (fun x => valid fs x /\ fn x = 0) ex;
  mk_find : find_at t (dentries fs fc' cs') = Some (j, make_entry t ATTR_DIRECTORY dc 0);
  mk_fresh : valid fs dc /\ fn dc = 0 /\ dc ∉ cs';
  mk_self : is_chain fs fn' dc [dc];
  mk_content : exists Z0, dentries fs fc' [dc] = dot_entry dc :: dotdot_entry fs pc :: Z0 /\
    Forall (fun e => name_at e 0 = 0) Z0;
  mk_others : ended (dentries fs fc cs) ->
    ended (dentries fs fc' cs') /\
    forall t', t' <> t -> find_at t' (dentries fs fc' cs') = find_at t' (dentries fs fc cs);
  mk_frame x : fn x <> 0 -> x ∉ cs -> fn' x = fn x /\ fc' x = fc x;
}.

(** The slot found after the new cluster [dc] has been set up. *)
Lemma mkdir_entry_run fs d1 fn fc pc cs t dc buf Z0 (fuel : nat) :
  vol_is fs d1 (<[dc := MARK]> fn) (<[dc := buf]> fc) -> is_chain fs fn pc cs -> cs <> [] ->
  find_at t (dentries fs fc cs) = None -> valid fs dc -> fn dc = 0 -> enough fs fuel ->
  length t = 11%nat -> name_live t -> (1 <= nfree fs (<[dc := MARK]> fn))%nat ->
  dents (entries_per_cluster fs) buf = dot_entry dc :: dotdot_entry fs pc :: Z0 ->
  Forall (fun e => name_at e 0 = 0) Z0 ->
  exists d' fn' fc' cs' j,
    (let! slot := dir_alloc_slot fuel fs pc in
     dir_write_entry fs slot.1 slot.2 (make_entry t ATTR_DIRECTORY dc 0)) d1 = (OK tt, d') /\
    made_dir fs fn fc pc cs t d' fn' fc' cs' j dc.
Proof.
  intros V1 Hc Hne Hfind Hv H0 Hf Hlen Hl Hroom Hbuf HZ.
  assert (Hdc : dc ∉ cs) by (intros Hin; by apply (is_chain_allocated _ _ _ _ _ Hc Hin)).
  assert (Hc1 : is_chain fs (<[dc := MARK]> fn) pc cs).
  { eapply is_chain_agree; [|exact Hc]. intros x Hx. apply fn_lookup_insert_ne. by intros ->. }
  assert (HE1 : dentries fs (<[dc := buf]> fc) cs = dentries fs fc cs).
  { apply dentries_ext. intros x Hx. apply fn_lookup_insert_ne. by intros ->. }
  destruct (slot_new fs d1 _ _ pc cs t fuel V1 Hc1 Hne Hf)
    as [(d2 & fn2 & fc2 & cs2 & j & Hr & S)|[_ ?]]; [by rewrite HE1| |lia].
  destruct S as [V2 Hc2 (ex & -> & Hex) Hpos Hsf Hso _ Hsl Hsd _].
  assert (Hdcm : <[dc := MARK]> fn dc <> 0) by (by rewrite fn_lookup_insert).
  assert (Hex' : Forall (fun x => valid fs x /\ fn x = 0) ex /\ dc ∉ ex).
  { split; [|intros Hin]; rewrite Forall_forall in *.
    - intros x Hx. destruct (Hex x Hx) as [? Hx0]. split; [done|].
      destruct (decide (x = dc)) as [->|]; [done|]. by rewrite fn_lookup_insert_ne in Hx0.
    - by apply Hex in Hin as [_ ?]. }
  destruct Hex' as [Hex' Hdx].
  set (e := make_entry t ATTR_DIRECTORY dc 0).
  destruct (dir_write_entry_run fs d2 fn2 fc2 (cs ++ ex) j e) as (d3 & fc3 & Hw & V3 & HE3 & Hfc3);
    [done|by eapply is_chain_valid|eapply is_chain_NoDup; [eapply total_le_EOC, vol_is_ok, V2|done]
    |done|apply make_entry_ok; [done|unfold ATTR_DIRECTORY; lia|lia]|].
  assert (Hdc' : dc ∉ cs ++ ex) by (rewrite elem_of_app; tauto).
  assert (Hlive : live t e) by (apply make_entry_live; auto).
  exists d3, fn2, fc3, (cs ++ ex), j. split; [bstep Hr; exact Hw|].
  rewrite HE1 in Hso. split; rewrite ?HE3; auto.
  - eauto.
  - cbn. split; [done|]. split; [done|]. rewrite Hsl by (done || set_solver).
    by rewrite fn_lookup_insert.
  - exists Z0. split; [|done]. unfold dentries. cbn [fmap list_fmap concat].
    rewrite Hfc3, Hsd by done. by rewrite fn_lookup_insert, app_nil_r.
  - intros x Hx Hxc. assert (x <> dc) by congruence.
    assert (<[dc := MARK]> fn x <> 0) by (by rewrite fn_lookup_insert_ne).
    rewrite Hsl by (done || set_solver). rewrite Hfc3, Hsd by
      (done || (rewrite elem_of_app; intros [?|Hin]; [done|]; rewrite Forall_forall in Hex';
                by apply Hex' in Hin as [_ ?])).
    by rewrite !fn_lookup_insert_ne.
Qed.

Lemma mkdir_run fs d fn fc path leaf pc R cs (fuel : nat) :
  vol_is fs d fn fc -> in_dir fs fn fc path leaf pc R cs -> enough fs fuel ->
  find_at (to_83 leaf) (dentries fs fc cs) = None -> name_live (to_83 leaf) ->
  (2 <= nfree fs fn)%nat ->
  exists d' fn' fc' cs' j dc, canboot_fat32_mkdir fuel fs path d = (OK tt, d') /\
    made_dir fs fn fc pc cs (to_83 leaf) d' fn' fc' cs' j dc.
Proof.
  intros V [(parent & Hs & Hw) Hc Hne _] Hf Hfind Hl Hroom.
  pose proof (vol_is_ok _ _ _ _ V) as Vo. unfold canboot_fat32_mkdir.
  rewrite (bind_OK _ _ _ d d) by done. cbv beta.
  rewrite (vo_writable _ _ Vo), Hs. cbn [negb].
  bstep (resolve_dir_run fs d fn fc parent pc R fuel V Hw Hf). cbv zeta.
  bstep (attempt_OK _ _ _ _ (dir_find_enough fs d fn fc (to_83 leaf) pc cs fuel V Hc Hf)).
  rewrite Hfind. cbn [found fmap option_fmap option_map].
  destruct (find_free_cluster_run fs d fn fc V) as [(dc & Hfr & Hv & H0 & _)|[_ Hnone]].
  2:{ exfalso. pose proof (nfree_full fs fn []) as Hn. cbn in Hn.
      enough (nfree fs fn <= 0)%nat by lia. apply Hn. intros x Hx.
      unfold marked. rewrite decide_False by set_solver. by apply Hnone. }
  bstep Hfr.
  destruct (write_fat_is fs d fn fc dc (Z.lor EOC 0x07) V (valid_in_fat _ _ Hv)) as (d1 & Hw1 & V1).
  bstep Hw1. change (Z.lor EOC 0x07 mod 2 ^ 28) with MARK in V1.
  rewrite (proj2 (Z.ltb_ge _ _)) by apply (vo_bpc_max _ _ Vo).
  destruct (dir_template_run fs d dc pc Vo) as (buf & Z0 & Ht & Hb & Hd & HZ).
  rewrite Ht. cbn [from_opt]. rewrite bind_ret.
  destruct (write_cluster_is fs d1 _ fc dc buf V1 Hv Hb) as (d2 & Hw2 & V2). bstep Hw2.
  destruct (mkdir_entry_run fs d2 fn fc pc cs (to_83 leaf) dc buf Z0 fuel)
    as (d' & fn' & fc' & cs' & j & Hr & Hmk); auto using length_to_83.
  - pose proof (nfree_le fs fn (<[dc := MARK]> fn) [dc]) as Hn. cbn in Hn.
    enough (nfree fs fn <= nfree fs (<[dc := MARK]> fn) + 1)%nat by lia. apply Hn.
    intros x _ Hx. destruct (decide (x = dc)) as [->|]; [right; set_solver|left].
    by rewrite fn_lookup_insert_ne.
  - eauto 10.
Qed.
End paths.

(** ** Paths below a directory *)
Lemma skip_slashes_app_ne p q : skip_slashes p <> [] -> skip_slashes (p ++ q) = skip_slashes p ++ q.
Proof. induction p as [|c p IH]; cbn; [done|]. by destruct (c =? 47). Qed.

Lemma skip_slashes_app_nil p q : skip_slashes p = [] -> skip_slashes (p ++ q) = skip_slashes q.
Proof. induction p as [|c p IH]; cbn; [done|]. by destruct (c =? 47). Qed.

Lemma take_comp_app room p comp rest q :
  take_comp room p = (comp, rest) ->
  take_comp room (p ++ 47 :: q) = (comp, rest ++ 47 :: q).
Proof.
  revert p comp rest. induction room as [|r IH]; intros p comp rest Ht; cbn in Ht.
  { by simplify_eq. }
  destruct p as [|c p]; [by simplify_eq|]. cbn. destruct (c =? 47); [by simplify_eq|].
  destruct (take_comp r p) as [cp rs] eqn:E. simplify_eq. by rewrite (IH _ _ _ E).
Qed.

(** Walking a path and then one more path below it. *)
Lemma walk_app fs fn fc c p pc R q qc R' :
  walk fs fn fc c p pc R -> walk fs fn fc pc (skip_slashes q) qc R' ->
  walk fs fn fc c (match p with [] => skip_slashes q | _ => p ++ 47 :: q end) qc (R ++ R').
Proof.
  intros Hw Hq. induction Hw as [c|c p comp rest cs j e pc R Ht Hne Hc Hfind Hd _ IH]; [done|].
  destruct p as [|x p]; [cbn in Ht; by simplify_eq|].
  rewrite <- (assoc_L (++)). eapply walk_step; eauto.
  - by apply take_comp_app.
  - specialize (IH Hq). destruct (skip_slashes rest) as [|y l] eqn:E.
    + rewrite skip_slashes_app_nil by done. done.
    + rewrite skip_slashes_app_ne by (by rewrite E). by rewrite E.
Qed.

Lemma trim_slashes_spec l : exists k, l = replicate k 47 ++ trim_slashes l.
Proof.
  induction l as [|c l [k IH]]; [by exists 0%nat|]. destruct l as [|c' l]; [by exists 0%nat|].
  cbn [trim_slashes]. destruct (Z.eqb_spec c 47) as [->|]; [|by exists 0%nat].
  exists (S k). cbn [replicate app]. f_equal. exact IH.
Qed.

Lemma last_slash_spec i s acc :
  match last_slash i s acc with
  | None => acc = None /\ 47 ∉ s
  | Some k => (acc = Some k /\ 47 ∉ s) \/
      exists a b, k = i + Z.of_nat (length a) /\ s = a ++ 47 :: b /\ 47 ∉ b
  end.
Proof.
  revert i acc. induction s as [|c s IH]; intros i acc; cbn [last_slash].
  { destruct acc; [left|]; by split; [|apply not_elem_of_nil]. }
  specialize (IH (i + 1) (if c =? 47 then Some i else acc)).
  destruct (last_slash _ _ _) as [k|].
  - destruct IH as [[Ha Hs]|(a & b & -> & -> & Hb)].
    + destruct (Z.eqb_spec c 47) as [->|Hc].
      * right. exists [], s. simplify_eq. cbn. by rewrite Z.add_0_r.
      * left. split; [done|]. apply not_elem_of_cons. done.
    + right. exists (c :: a), b. split; [cbn; lia|done].
  - destruct IH as [Ha Hs]. destruct (Z.eqb_spec c 47) as [->|Hc]; [done|].
    split; [done|]. by apply not_elem_of_cons.
Qed.

(** What [split_last] returns: the path is the parent, a slash, the leaf and
    trailing slashes; without a slash the parent is the root. *)
Lemma split_last_spec path pcap lcap parent leaf :
  split_last path pcap lcap = Some (parent, leaf) ->
  leaf <> [] /\ (47 ∉ leaf) /\ Z.of_nat (length leaf) < lcap /\
  exists k, (parent = [47] /\ path = leaf ++ replicate k 47) \/
            (exists a, path = a ++ 47 :: leaf ++ replicate k 47 /\
                       parent = match a with [] => [47] | _ => a end).
Proof.
  unfold split_last. cbv zeta. destruct (trim_slashes_spec (rev path)) as [k Hk].
  set (p := rev (trim_slashes (rev path))).
  assert (Hpath : path = p ++ replicate k 47).
  { rewrite <- (rev_involutive path), Hk at 1. rewrite rev_app_distr. f_equal.
    clear. induction k as [|k IH]; [done|]. cbn [replicate rev]. rewrite IH.
    by rewrite <- replicate_S_end. }
  clearbody p. pose proof (last_slash_spec 0 p None) as Hs. destruct (last_slash 0 p None) as [s|].
  - destruct Hs as [[? _]|(a & b & -> & Hp & Hb)]; [done|]. rewrite Hp.
    rewrite length_app, !Z.add_0_l. cbn [length].
    replace (Z.of_nat (length a + S (length b)) - Z.of_nat (length a) - 1)
      with (Z.of_nat (length b)) by lia.
    destruct (Z.eqb_spec (Z.of_nat (length b)) 0); cbn [orb]; [done|].
    destruct (Z.ltb_spec lcap (Z.of_nat (length b) + 1)); [done|].
    assert (Hleaf : slice (Z.to_nat (Z.of_nat (length a) + 1)) (Z.to_nat (Z.of_nat (length b)))
              (a ++ 47 :: b) = b).
    { unfold slice. replace (Z.to_nat (Z.of_nat (length a) + 1)) with (length a + 1)%nat by lia.
      rewrite <- drop_drop, drop_app_length. cbn. rewrite Nat2Z.id. apply firstn_all. }
    rewrite Hleaf. intros Hsp.
    assert (leaf = b /\ parent = match a with [] => [47] | _ => a end) as [-> ->].
    { destruct (Z.eqb_spec (Z.of_nat (length a)) 0).
      - destruct a; [|done]. destruct (pcap <? 2); by simplify_eq.
      - destruct (pcap <? _); [done|]. simplify_eq. rewrite Nat2Z.id, take_app_length.
        by destruct a. }
    split; [by destruct b|]. split; [done|]. split; [lia|]. exists k. right. exists a.
    split; [|done]. rewrite Hpath, Hp. by rewrite <- app_assoc.
  - destruct Hs as [_ Hs]. destruct (Z.eqb_spec (Z.of_nat (length p)) 0).
    { by rewrite orb_true_r. }
    destruct (Z.ltb_spec pcap 2); [done|].
    destruct (Z.ltb_spec lcap (Z.of_nat (length p) + 1)); [done|]. cbn [orb]. intros. simplify_eq.
    split; [by intros ->|]. split; [done|]. split; [lia|]. exists k. left. done.
Qed.

Lemma skip_slashes_replicate k : skip_slashes (replicate k 47) = [].
Proof. by induction k. Qed.

Lemma skip_slashes_nohead p q : p <> [] -> 47 ∉ p -> skip_slashes (p ++ q) = p ++ q.
Proof.
  destruct p as [|c p]; [done|]. intros _ Hp. cbn.
  destruct (Z.eqb_spec c 47) as [->|]; [|done]. exfalso. apply Hp. left.
Qed.

Lemma take_comp_leaf (room : nat) leaf k : 47 ∉ leaf -> (length leaf <= room)%nat ->
  take_comp room (leaf ++ replicate k 47) = (leaf, replicate k 47).
Proof.
  revert room. induction leaf as [|c leaf IH]; intros room Hn Hl.
  { cbn. by destruct room, k. }
  destruct room as [|r]; [cbn in Hl; lia|]. apply not_elem_of_cons in Hn as [Hc Hn]. cbn.
  destruct (Z.eqb_spec c 47) as [->|]; [done|]. by rewrite IH by (done || cbn in Hl; lia).
Qed.

(** A path that names a directory entry leads into that directory. *)
Lemma in_dir_walk fs fn fc path leaf pc R cs (j : nat) e :
  in_dir fs fn fc path leaf pc R cs ->
  find_at (to_83 leaf) (dentries fs fc cs) = Some (j, e) ->
  Z.land (de_attr e) ATTR_DIRECTORY <> 0 -> entry_first_cluster e <> 0 ->
  walk fs fn fc (root_cluster fs) (skip_slashes path) (entry_first_cluster e) (R ++ cs).
Proof.
  intros [(parent & Hs & Hw) Hc _ _] Hfind Hd H0.
  apply split_last_spec in Hs as (Hne & Hno & Hlen & k & Hcase).
  assert (Hleaf : walk fs fn fc pc (skip_slashes (leaf ++ replicate k 47))
                    (entry_first_cluster e) (cs ++ [])).
  { rewrite skip_slashes_nohead by done. eapply walk_step; eauto.
    - apply take_comp_leaf; [done|lia].
    - rewrite (proj2 (Z.eqb_neq _ _) H0), skip_slashes_replicate. constructor. }
  rewrite app_nil_r in Hleaf. pose proof (walk_app _ _ _ _ _ _ _ _ _ _ Hw Hleaf) as Hwalk.
  destruct Hcase as [[-> ->]|(a & -> & ->)]; [done|].
  destruct a as [|x a]; [done|]. cbn [app] in *. set (p := x :: a) in *.
  change (x :: a ++ ?q) with (p ++ q).
  destruct (skip_slashes p) as [|y l] eqn:E.
  - rewrite skip_slashes_app_nil by done. done.
  - rewrite skip_slashes_app_ne by (by rewrite E). by rewrite E.
Qed.
