(* ===== verification/Fat32Rename.v ===== *)
(** * FAT32: renaming a file

    [canboot_fat32_rename] on the abstract volume, within one directory and
    between two. *)
From stdpp Require Import functions.
From S2P Require Import Prelude Bytes Disk Fat32 Fat32Vol Fat32Alloc Fat32Dir Fat32Path.

Lemma with_name_live t nt e : live t e -> name_live nt -> live nt (with_name e nt).
Proof.
  intros [H0 Hm] [H1 H5]. split; [done|]. unfold matches, name_at in *. cbn [with_name de_name de_attr].
  rewrite (proj2 (Z.eqb_neq _ _) H1), (proj2 (Z.eqb_neq _ _) H5), bool_decide_true by done.
  rewrite !andb_true_iff in Hm. destruct Hm as [[[_ Ha] Hv] _]. by rewrite Ha, Hv.
Qed.

Lemma with_name_ok e nt : entry_ok e -> length nt = 11%nat -> entry_ok (with_name e nt).
Proof. intros [] ?. by split. Qed.

(** Moving the entry at [j] to the free position [j'] of the same list. *)
Lemma move_within t nt E1 (j j' : nat) e e' :
  find_at nt (<[j' := e']> E1) = Some (j', e') -> find_at t (<[j' := e']> E1) = Some (j, e) ->
  once t (<[j' := e']> E1) -> t <> nt ->
  find_at nt (<[j := marked_deleted e]> (<[j' := e']> E1)) = Some (j', e') /\
  find_at t (<[j := marked_deleted e]> (<[j' := e']> E1)) = None.
Proof.
  intros Hn Ht Ho Hne. destruct (find_at_Some _ _ _ _ Ht) as [Hj [H0 Hm]]. split.
  - rewrite (find_at_other nt _ j e); auto. by eapply matches_other.
  - by eapply find_at_delete.
Qed.

Section rename.
Context {D : Type} `{BlockDevice D} `{!BlockDeviceLaws D}.
Implicit Types (fs : canboot_fat32) (d : D) (fn : Z -> Z) (fc : Z -> list Z) (cs : list Z).

(** The entry of [t] in the directory [pc] has become the entry of [nt] in
    the directory [npc]. *)
Record renamed fs fn fc pc cs npc ncs (t nt : list Z) e d' fn' fc' cs' ncs' (j' : nat) : Prop := {
  rn_vol : vol_is fs d' fn' fc';
  rn_chain : is_chain fs fn' pc cs';
  rn_nchain : is_chain fs fn' npc ncs';
  rn_grown : exists ex, cs' = cs ++ ex /\ Forall (fun x => valid fs x /\ fn x = 0) ex;
  rn_ngrown : exists ex, ncs' = ncs ++ ex /\ Forall (fun x => valid fs x /\ fn x = 0) ex;
  rn_new : find_at nt (dentries fs fc' ncs') = Some (j', with_name e nt);
  rn_old : find_at t (dentries fs fc' cs') = None;
  rn_frame x : fn x <> 0 -> x ∉ cs -> x ∉ ncs -> fn' x = fn x /\ fc' x = fc x;
}.

Lemma loc_app fs d fc cs ex (j : nat) : vol_ok fs d -> (j < length (dentries fs fc cs))%nat ->
  loc fs (cs ++ ex) j = loc fs cs j.
Proof.
  intros V Hj. destruct (loc_lookup fs d fc cs j V Hj) as (c & Hc & _ & _).
  unfold loc. rewrite lookup_app_l by (by eapply lookup_lt_Some). done.
Qed.

(** Both writes in the same directory. *)
Lemma rename_same_run fs d1 fn fc pc cs t nt (j j' : nat) e fn1 fc1 cs1 :
  slot_for fs fn fc pc cs nt [] d1 fn1 fc1 cs1 j' ->
  find_at t (dentries fs fc cs) = Some (j, e) -> entry_ok e -> t <> nt ->
  once t (dentries fs fc cs) -> ended (dentries fs fc cs) ->
  length nt = 11%nat -> name_live nt ->
  exists d' fc',
    (dir_write_entry fs (loc fs cs1 j').1 (loc fs cs1 j').2 (with_name e nt);;!
     dir_mark_deleted fs (loc fs cs j).1 (loc fs cs j).2) d1 = (OK tt, d') /\
    renamed fs fn fc pc cs pc cs t nt e d' fn1 fc' cs1 cs1 j'.
Proof.
  intros S Hfind He Hne Ho Hend Hlen Hl.
  destruct (find_at_Some _ _ _ _ Hfind) as [Hj Hlive].
  pose proof (with_name_live t nt e Hlive Hl) as Hlive'.
  destruct S as [V1 Hc1 (ex & -> & Hex) Hpos Hsf Hso Hsonce Hsl Hsd _].
  pose proof (is_chain_valid _ _ _ _ Hc1) as Hval.
  assert (Hnd : NoDup (cs ++ ex)).
  { eapply is_chain_NoDup; [|exact Hc1]. eapply total_le_EOC, vol_is_ok, V1. }
  destruct (dir_write_entry_run fs d1 fn1 fc1 (cs ++ ex) j' (with_name e nt))
    as (d2 & fc2 & Hw & V2 & HE2 & Hfc2); auto using with_name_ok.
  destruct (Hso _ Hend Hlive') as [_ Hsame].
  pose proof (Hsame t Hne) as Hft. rewrite Hfind in Hft.
  destruct (find_at_Some _ _ _ _ Hft) as [Hj2 _]. rewrite <- HE2 in Hj2.
  destruct (dir_mark_deleted_run fs d2 fn1 fc2 (cs ++ ex) j e V2 Hval Hnd Hj2)
    as (d3 & fc3 & Hm & V3 & HE3 & Hfc3).
  rewrite (loc_app fs d2 fc cs ex j (vol_is_ok _ _ _ _ V2)) in Hm by (by eapply lookup_lt_Some).
  exists d3, fc3. split; [bstep Hw; exact Hm|]. rewrite HE2 in HE3.
  destruct (move_within t nt _ j j' e _ (Hsf _ Hlive') Hft (Hsonce t _ Hne Hlive' Ho) Hne)
    as [Hn Hold].
  split; rewrite ?HE3; eauto. intros x Hx Hxc _.
  assert (x ∉ cs ++ ex).
  { rewrite elem_of_app. intros [?|Hin]; [done|]. rewrite Forall_forall in Hex.
    by apply Hex in Hin as [_ ?]. }
  rewrite Hfc3, Hfc2 by done. split; [apply Hsl; auto using not_elem_of_nil|auto].
Qed.

(** The new entry in another directory. *)
Lemma rename_other_run fs d1 fn fc pc cs npc ncs t nt (j j' : nat) e fn1 fc1 ncs1 :
  slot_for fs fn fc npc ncs nt [] d1 fn1 fc1 ncs1 j' -> is_chain fs fn pc cs ->
  (forall x, x ∈ ncs -> x ∉ cs) ->
  find_at t (dentries fs fc cs) = Some (j, e) -> entry_ok e ->
  once t (dentries fs fc cs) -> length nt = 11%nat -> name_live nt ->
  exists d' fc',
    (dir_write_entry fs (loc fs ncs1 j').1 (loc fs ncs1 j').2 (with_name e nt);;!
     dir_mark_deleted fs (loc fs cs j).1 (loc fs cs j).2) d1 = (OK tt, d') /\
    renamed fs fn fc pc cs npc ncs t nt e d' fn1 fc' cs ncs1 j'.
Proof.
  intros S Hc Hdis Hfind He Ho Hlen Hl.
  destruct (find_at_Some _ _ _ _ Hfind) as [Hj Hlive].
  pose proof (with_name_live t nt e Hlive Hl) as Hlive'.
  destruct S as [V1 Hc1 (ex & -> & Hex) Hpos Hsf _ _ Hsl Hsd _].
  assert (Hnd : forall p l, is_chain fs fn1 p l -> NoDup l).
  { intros p l Hp. eapply is_chain_NoDup; [|exact Hp]. eapply total_le_EOC, vol_is_ok, V1. }
  assert (Hout : forall x, fn x <> 0 -> x ∉ ncs -> x ∉ ncs ++ ex).
  { intros x Hx Hxn. rewrite elem_of_app. intros [?|Hin]; [done|]. rewrite Forall_forall in Hex.
    by apply Hex in Hin as [_ ?]. }
  assert (Hcs : forall x, x ∈ cs -> fn x <> 0 /\ x ∉ ncs).
  { intros x Hx. split; [by eapply is_chain_allocated|]. intros Hn. by apply (Hdis x). }
  assert (Hc' : is_chain fs fn1 pc cs).
  { eapply is_chain_agree; [|exact Hc]. intros x Hx. destruct (Hcs x Hx).
    apply Hsl; auto using not_elem_of_nil. }
  destruct (dir_write_entry_run fs d1 fn1 fc1 (ncs ++ ex) j' (with_name e nt))
    as (d2 & fc2 & Hw & V2 & HE2 & Hfc2); eauto using with_name_ok, is_chain_valid.
  assert (HEc : dentries fs fc2 cs = dentries fs fc cs).
  { apply dentries_ext. intros x Hx. destruct (Hcs x Hx). rewrite Hfc2 by auto. auto. }
  destruct (dir_mark_deleted_run fs d2 fn1 fc2 cs j e)
    as (d3 & fc3 & Hm & V3 & HE3 & Hfc3); eauto using is_chain_valid.
  { by rewrite HEc. }
  exists d3, fc3. split; [bstep Hw; exact Hm|]. split; eauto.
  - exists []. rewrite app_nil_r. by split; [|apply Forall_nil].
  - rewrite (dentries_ext fs fc2 fc3 (ncs ++ ex)), HE2; [by apply Hsf|].
    intros x Hx. apply Hfc3. intros Hin. destruct (Hcs x Hin). by apply (Hout x).
  - rewrite HE3, HEc. by eapply find_at_delete.
  - intros x Hx Hxc Hxn. rewrite Hfc3, Hfc2 by auto.
    split; [apply Hsl; auto using not_elem_of_nil|auto].
Qed.

Lemma rename_run fs d fn fc oldp t0 pc R cs newp leaf npc R' ncs (j : nat) e (fuel : nat) :
  vol_is fs d fn fc -> enough fs fuel ->
  in_dir fs fn fc oldp t0 pc R cs -> in_dir fs fn fc newp leaf npc R' ncs ->
  pc = npc \/ (forall x, x ∈ ncs -> x ∉ cs) ->
  find_at (to_83 t0) (dentries fs fc cs) = Some (j, e) -> entry_ok e ->
  Z.land (de_attr e) ATTR_DIRECTORY = 0 -> once (to_83 t0) (dentries fs fc cs) ->
  ended (dentries fs fc cs) -> find_at (to_83 leaf) (dentries fs fc ncs) = None ->
  name_live (to_83 leaf) -> (1 <= nfree fs fn)%nat ->
  exists d' fn' fc' cs' ncs' j', canboot_fat32_rename fuel fs oldp newp d = (OK tt, d') /\
    renamed fs fn fc pc cs npc ncs (to_83 t0) (to_83 leaf) e d' fn' fc' cs' ncs' j'.
Proof.
  intros V Hf Hold Hnew Hdir Hfind He Ha Ho Hend Hnone Hl Hroom.
  pose proof (vol_is_ok _ _ _ _ V) as Vo. pose proof (length_to_83 leaf) as Hlen.
  destruct Hnew as [(parent & Hs & Hw) Hnc Hne _].
  destruct (slot_new fs d fn fc npc ncs (to_83 leaf) fuel V Hnc Hne Hf Hnone)
    as [(d1 & fn1 & fc1 & ncs1 & j' & Hr & S)|[_ ?]]; [|lia].
  assert (Hrun : forall k, canboot_fat32_rename fuel fs oldp newp d = k <->
    (dir_write_entry fs (loc fs ncs1 j').1 (loc fs ncs1 j').2 (with_name e (to_83 leaf));;!
     dir_mark_deleted fs (loc fs cs j).1 (loc fs cs j).2) d1 = k).
  { intros k. unfold canboot_fat32_rename. rewrite (bind_OK _ _ _ d d) by done. cbv beta.
    rewrite (vo_writable _ _ Vo). cbn [negb].
    bstep (resolve_entry_run fs d fn fc oldp t0 pc R cs fuel V Hold Hf).
    rewrite Hfind. cbn [found fmap option_fmap option_map]. rewrite Hs.
    bstep (resolve_dir_run fs d fn fc parent npc R' fuel V Hw Hf). cbv zeta.
    bstep (attempt_OK _ _ _ _ (dir_find_enough fs d fn fc (to_83 leaf) npc ncs fuel V Hnc Hf)).
    rewrite Hnone. cbn [found fmap option_fmap option_map]. bstep Hr.
    unfold repoint_dotdot. by rewrite Ha. }
  destruct Hdir as [->|Hdis].
  - pose proof (id_chain _ _ _ _ _ _ _ _ Hold) as Hc.
    pose proof (is_chain_unique _ _ _ _ _ (total_le_EOC fs d Vo) Hc Hnc) as ->.
    destruct (rename_same_run fs d1 fn fc npc ncs (to_83 t0) (to_83 leaf) j j' e fn1 fc1 ncs1)
      as (d' & fc' & Hact & Hrn); auto.
    { intros E. rewrite E in Hfind. congruence. }
    exists d', fn1, fc', ncs1, ncs1, j'. split; [by apply Hrun|done].
  - destruct (rename_other_run fs d1 fn fc pc cs npc ncs (to_83 t0) (to_83 leaf) j j' e fn1 fc1 ncs1)
      as (d' & fc' & Hact & Hrn); auto.
    { apply Hold. }
    exists d', fn1, fc', cs, ncs1, j'. split; [by apply Hrun|done].
Qed.
End rename.
