(* ===== verification/Fat32Demo.v ===== *)
(** * FAT32: a small volume

    A 24-block volume, formatted by hand as [fs/fat32.c] expects it and then
    filled by the driver itself: directories [/sub] (cluster 3) and [/gone]
    (cluster 4), the files [/a.txt] (cluster 5) and [/sub/b.txt] (clusters 6
    and 7).  The theorems on the path operations are instantiated on it. *)
From stdpp Require Import functions.
From S2P Require Import Prelude Bytes Disk Fat32 Fat32Vol Fat32Alloc Fat32Dir Fat32Path.

Definition demo_boot : list Z :=
  poke 4 44 2 (poke 4 36 1 (poke 4 32 24 (poke 1 16 2 (poke 2 14 1
    (poke 1 13 1 (poke 2 11 512 (replicate 512 0))))))).
Definition demo_blank : ramdisk := mkRam CANBOOT_DISK_KIND_VIRTIO_BLK 512 true
  ([demo_boot; fat_head_sector; fat_head_sector] ++ replicate 21 (replicate 512 0)).
Definition demo_fs : canboot_fat32 := mkFs 512 1 512 1 2 1 2 1 3 21.

Definition demo_disk : ramdisk := snd ((
  canboot_fat32_mkdir 21 demo_fs (str "/sub");;!
  canboot_fat32_mkdir 21 demo_fs (str "/gone");;!
  canboot_fat32_write_path 21 demo_fs (str "/a.txt") (str "hello");;!
  canboot_fat32_write_path 21 demo_fs (str "/sub/b.txt") (replicate 600 7)) demo_blank).

Lemma demo_open : canboot_fat32_open demo_blank = (OK demo_fs, demo_blank).
Proof. vm_compute. reflexivity. Qed.

Lemma demo_ok : vol_ok demo_fs demo_disk.
Proof.
  split; try (vm_compute; (reflexivity || (split; discriminate) || discriminate)).
  apply rd_ok_dec. vm_compute. reflexivity.
Qed.

Lemma demo_enough : enough demo_fs 21.
Proof. unfold enough. cbn. lia. Qed.

Lemma demo_root : is_chain demo_fs (nxt demo_fs demo_disk) 2 [2].
Proof. vm_compute. repeat split; discriminate. Qed.
Lemma demo_sub : is_chain demo_fs (nxt demo_fs demo_disk) 3 [3].
Proof. vm_compute. repeat split; discriminate. Qed.
Lemma demo_gone : is_chain demo_fs (nxt demo_fs demo_disk) 4 [4].
Proof. vm_compute. repeat split; discriminate. Qed.
Lemma demo_a : is_chain demo_fs (nxt demo_fs demo_disk) 5 [5].
Proof. vm_compute. repeat split; discriminate. Qed.
Lemma demo_b : is_chain demo_fs (nxt demo_fs demo_disk) 6 [6; 7].
Proof. vm_compute. repeat split; discriminate. Qed.

(** The entries of the volume. *)
Definition demo_entry_sub : fat_dir := make_entry (to_83 (str "sub")) ATTR_DIRECTORY 3 0.
Definition demo_entry_gone : fat_dir := make_entry (to_83 (str "gone")) ATTR_DIRECTORY 4 0.
Definition demo_entry_a : fat_dir := make_entry (to_83 (str "a.txt")) 0x20 5 5.
Definition demo_entry_b : fat_dir := make_entry (to_83 (str "b.txt")) 0x20 6 600.

Lemma demo_find_sub :
  find_at (to_83 (str "sub")) (dentries demo_fs (cl demo_fs demo_disk) [2]) = Some (0%nat, demo_entry_sub).
Proof. vm_compute. reflexivity. Qed.
Lemma demo_find_gone :
  find_at (to_83 (str "gone")) (dentries demo_fs (cl demo_fs demo_disk) [2]) = Some (1%nat, demo_entry_gone).
Proof. vm_compute. reflexivity. Qed.
Lemma demo_find_a :
  find_at (to_83 (str "a.txt")) (dentries demo_fs (cl demo_fs demo_disk) [2]) = Some (2%nat, demo_entry_a).
Proof. vm_compute. reflexivity. Qed.
Lemma demo_find_b :
  find_at (to_83 (str "b.txt")) (dentries demo_fs (cl demo_fs demo_disk) [3]) = Some (2%nat, demo_entry_b).
Proof. vm_compute. reflexivity. Qed.

(** A path in the root directory, and one below [/sub]. *)
Lemma demo_in_root path leaf : split_last path 256 16 = Some ([47], leaf) ->
  in_dir demo_fs (nxt demo_fs demo_disk) (cl demo_fs demo_disk) path leaf 2 [] [2].
Proof.
  intros Hs. split; [|exact demo_root|done|].
  - exists [47]. split; [done|]. constructor.
  - intros x Hx. by apply elem_of_nil in Hx.
Qed.

Lemma demo_in_sub path leaf : split_last path 256 16 = Some (str "/sub", leaf) ->
  in_dir demo_fs (nxt demo_fs demo_disk) (cl demo_fs demo_disk) path leaf 3 [2] [3].
Proof.
  intros Hs. split; [|exact demo_sub|done|].
  - exists (str "/sub"). split; [done|].
    apply (walk_step demo_fs (nxt demo_fs demo_disk) (cl demo_fs demo_disk) 2 (str "sub") (str "sub") [] [2] 0 demo_entry_sub 3 []);
      [reflexivity|done|exact demo_root|exact demo_find_sub|done|constructor].
  - intros x Hx%list_elem_of_singleton. subst. by intros ?%list_elem_of_singleton.
Qed.

Lemma once_dec t E : (length (filter (fun e => matches t e) E) <= 1)%nat -> once t E.
Proof.
  intros Hl i j a b Hi Hj Ha Hb. revert i j Hi Hj Hl.
  induction E as [|x E IH]; intros i j Hi Hj Hl; [done|].
  assert (Hpos : forall k c, E !! k = Some c -> matches t c = true ->
    (1 <= length (filter (fun e => matches t e) E))%nat).
  { intros k c Hk Hc. assert (c ∈ filter (fun e => matches t e) E) as Hin.
    { apply list_elem_of_filter. rewrite Hc. split; [done|by eapply list_elem_of_lookup_2]. }
    destruct (filter _ E); [by apply elem_of_nil in Hin|cbn; lia]. }
  rewrite filter_cons in Hl. destruct i as [|i], j as [|j]; cbn in Hi, Hj; simplify_eq; [done|..].
  - rewrite decide_True in Hl by (by rewrite Ha). cbn in Hl. pose proof (Hpos _ _ Hj Hb). lia.
  - rewrite decide_True in Hl by (by rewrite Hb). cbn in Hl. pose proof (Hpos _ _ Hi Ha). lia.
  - f_equal. eapply IH; eauto. case_decide; cbn in Hl; lia.
Qed.

Lemma demo_ended : ended (dentries demo_fs (cl demo_fs demo_disk) [2]).
Proof. vm_compute. repeat constructor. Qed.
