(* ===== verification/Fat32Props.v ===== *)
(** * FAT32: what the path operations promise

    The correctness of [fs/fat32.c] seen by its callers: a file reads back as
    it was written, operations on one name leave every other file alone, a
    removed name is gone and its clusters are free again, new directories
    resolve and are empty.  The last section instantiates each theorem on a
    24-block volume. *)
From stdpp Require Import functions.
From S2P Require Import Prelude Bytes Disk Fat32 Fat32Vol Fat32Alloc Fat32Dir Fat32Path Fat32Rename Fat32Demo.

Section effects.
Context {D : Type} `{BlockDevice D} `{!BlockDeviceLaws D}.
Implicit Types (fs : canboot_fat32) (d : D) (fn : Z -> Z) (fc : Z -> list Z) (cs os : list Z).

(** An operation on the name [t] of the directory [pc] that gave up the
    clusters [os]. *)
Record effect fs fn fc pc cs os (t : list Z) fn' fc' cs' : Prop := {
  ef_chain : is_chain fs fn' pc cs';
  ef_others t' : t' <> t ->
    find_at t' (dentries fs fc' cs') = find_at t' (dentries fs fc cs);
  ef_frame x : fn x <> 0 -> x ∉ cs -> x ∉ os -> fn' x = fn x /\ fc' x = fc x;
}.

Lemma written_effect fs fn fc pc cs os t data d' fn' fc' cs' j first fl :
  written fs fn fc pc cs os t data d' fn' fc' cs' j first fl -> ended (dentries fs fc cs) ->
  effect fs fn fc pc cs os t fn' fc' cs'.
Proof. intros [] He. split; auto. by apply wr_others. Qed.

Lemma made_dir_effect fs fn fc pc cs t d' fn' fc' cs' j dc :
  made_dir fs fn fc pc cs t d' fn' fc' cs' j dc -> ended (dentries fs fc cs) ->
  effect fs fn fc pc cs [] t fn' fc' cs'.
Proof. intros [] He. split; auto. by apply mk_others. Qed.

Lemma removed_effect fs fn fc pc cs os t j e d' fc' :
  removed fs fn fc cs os j e d' fc' -> is_chain fs (freed os fn) pc cs ->
  find_at t (dentries fs fc cs) = Some (j, e) -> once t (dentries fs fc cs) ->
  effect fs fn fc pc cs os t (freed os fn) fc' cs.
Proof.
  intros Hr Hc Hf Ho. destruct (removed_find _ _ _ _ _ _ _ _ _ _ Hr Hf Ho). split; auto.
  intros x _ Hx Hxo. split; [by apply freed_other|]. destruct Hr. auto.
Qed.

(** The directory [c], with clusters [qs], is searched for the name [u] and
    the operation does not disturb that: it is another directory, or
    another name of the same one. *)
Definition undisturbed fs fn pc cs os (t : list Z) (c : Z) (qs : list Z) (u : list Z) : Prop :=
  is_chain fs fn c qs /\ ((c = pc /\ qs = cs /\ u <> t) \/ forall x, x ∈ qs -> (x ∉ cs) /\ (x ∉ os)).

(** A walk through undisturbed directories. *)
Inductive walk_clear fs fn fc pc cs os (t : list Z) : Z -> list Z -> Z -> Prop :=
| clear_done c : walk_clear fs fn fc pc cs os t c [] c
| clear_step c p comp rest qs j e qc :
    take_comp 15 p = (comp, rest) -> comp <> [] ->
    undisturbed fs fn pc cs os t c qs (to_83 comp) ->
    find_at (to_83 comp) (dentries fs fc qs) = Some (j, e) ->
    Z.land (de_attr e) ATTR_DIRECTORY <> 0 ->
    walk_clear fs fn fc pc cs os t
      (if entry_first_cluster e =? 0 then root_cluster fs else entry_first_cluster e)
      (skip_slashes rest) qc ->
    walk_clear fs fn fc pc cs os t c p qc.

Lemma undisturbed_find fs fn fc pc cs os t fn' fc' cs' c qs u :
  effect fs fn fc pc cs os t fn' fc' cs' -> undisturbed fs fn pc cs os t c qs u ->
  exists qs', is_chain fs fn' c qs' /\
    find_at u (dentries fs fc' qs') = find_at u (dentries fs fc qs).
Proof.
  intros [Hc Ho Hf] [Hq [(-> & -> & Hu)|Hdis]]; [exists cs'; auto|].
  assert (Hsame : forall x, x ∈ qs -> fn' x = fn x /\ fc' x = fc x).
  { intros x Hx. destruct (Hdis x Hx). apply Hf; auto. by eapply is_chain_allocated. }
  exists qs. split.
  - eapply is_chain_agree; [|exact Hq]. intros x Hx. by apply Hsame.
  - rewrite (dentries_ext fs fc fc' qs); [done|]. intros x Hx. by apply Hsame.
Qed.

Lemma walk_clear_after fs fn fc pc cs os t fn' fc' cs' c p qc :
  effect fs fn fc pc cs os t fn' fc' cs' -> walk_clear fs fn fc pc cs os t c p qc ->
  exists R, walk fs fn' fc' c p qc R.
Proof.
  intros He Hw. induction Hw as [c|c p comp rest qs j e qc Ht Hne Hu Hfind Hd _ [R IH]].
  { eexists. constructor. }
  destruct (undisturbed_find _ _ _ _ _ _ _ _ _ _ _ _ _ He Hu) as (qs' & Hq & Hf).
  rewrite Hfind in Hf. eexists. by eapply walk_step.
Qed.

(** Another regular file of the volume, with content [data]. *)
Record other_file fs fn fc pc cs os (t path data : list Z) : Prop := {
  of_path : exists parent leaf qc qs j e fl,
    split_last path 256 16 = Some (parent, leaf) /\
    walk_clear fs fn fc pc cs os t (root_cluster fs) (skip_slashes parent) qc /\
    undisturbed fs fn pc cs os t qc qs (to_83 leaf) /\
    find_at (to_83 leaf) (dentries fs fc qs) = Some (j, e) /\
    Z.land (de_attr e) ATTR_DIRECTORY = 0 /\ de_size e = Z.of_nat (length data) /\
    (data <> [] -> is_chain fs fn (entry_first_cluster e) fl) /\
    take (length data) (concat (fc <$> fl)) = data /\
    (forall x, x ∈ fl -> fn x <> 0 /\ (x ∉ cs) /\ (x ∉ os));
  of_size : Z.of_nat (length data) <= FAT32_MAX_CHAIN * bytes_per_cluster fs;
}.

Lemma resolve_entry_walk fs d fn fc path parent leaf pc R cs (fuel : nat) :
  vol_is fs d fn fc -> split_last path 256 16 = Some (parent, leaf) ->
  walk fs fn fc (root_cluster fs) (skip_slashes parent) pc R -> is_chain fs fn pc cs ->
  enough fs fuel ->
  resolve_entry fuel fs path d =
    (OK (found fs cs (find_at (to_83 leaf) (dentries fs fc cs))), d).
Proof.
  intros V Hs Hw Hc Hf. unfold resolve_entry. rewrite Hs.
  bstep (resolve_dir_run fs d fn fc parent pc R fuel V Hw Hf). by eapply dir_find_enough.
Qed.

Lemma other_file_read fs fn fc pc cs os t fn' fc' cs' d' path data buf_size (fuel : nat) :
  vol_is fs d' fn' fc' -> effect fs fn fc pc cs os t fn' fc' cs' -> enough fs fuel ->
  other_file fs fn fc pc cs os t path data -> Z.of_nat (length data) <= buf_size ->
  canboot_fat32_read_path fuel fs path buf_size d' = (OK (data, Z.of_nat (length data)), d').
Proof.
  intros V He Hf [(parent & leaf & qc & qs & j & e & fl & Hs & Hw & Hu & Hfind & Ha & Hsz & Hch &
    Htake & Hfl) Hmax] Hbuf.
  destruct (walk_clear_after _ _ _ _ _ _ _ _ _ _ _ _ _ He Hw) as [R Hw'].
  destruct (undisturbed_find _ _ _ _ _ _ _ _ _ _ _ _ _ He Hu) as (qs' & Hq & Hf').
  assert (Hsame : forall x, x ∈ fl -> fn' x = fn x /\ fc' x = fc x).
  { intros x Hx. destruct (Hfl x Hx) as (? & ? & ?). by apply He. }
  unfold canboot_fat32_read_path.
  bstep (resolve_entry_walk fs d' fn' fc' path parent leaf qc R qs' fuel V Hs Hw' Hq Hf).
  rewrite Hf', Hfind. cbn [found fmap option_fmap option_map]. rewrite Ha, Hsz. cbn [negb Z.eqb].
  rewrite (proj2 (Z.ltb_ge _ _)) by apply (vo_bpc_max _ _ (vol_is_ok _ _ _ _ V)).
  rewrite (bind_OK _ _ _ data d'); [done|].
  eapply (read_data fs fn' fc' d' _ fl); eauto.
  - intros Hne. eapply is_chain_agree; [|by apply Hch]. intros x Hx. by apply Hsame.
  - rewrite <- Htake at 2. do 2 f_equal. apply list_fmap_ext. intros i x Hx.
    apply Hsame. by eapply list_elem_of_lookup_2.
Qed.
End effects.

Section properties.
Context {D : Type} `{BlockDevice D} `{!BlockDeviceLaws D}.
Implicit Types (fs : canboot_fat32) (d : D) (cs os R : list Z).

(** C1.  Write, then read: on a consistent volume with room for the data and
    one more directory cluster, [canboot_fat32_write_path] succeeds, the
    volume stays consistent, and [canboot_fat32_read_path] of the same path
    returns exactly the bytes written and their number.  The path may lie in
    any directory, the file may be new or replace an existing one (whose
    clusters [os] are given back first). *)
Theorem write_then_read fs d path leaf pc R cs os data (fuel : nat) :
  vol_ok fs d -> enough fs fuel ->
  in_dir fs (nxt fs d) (cl fs d) path leaf pc R cs ->
  old_data fs (nxt fs d) (cl fs d) cs (to_83 leaf) os -> (forall x, x ∈ R -> x ∉ os) ->
  name_live (to_83 leaf) ->
  Z.of_nat (length data) <= FAT32_MAX_CHAIN * bytes_per_cluster fs ->
  clusters_needed fs (Z.of_nat (length data)) + 1 <= Z.of_nat (nfree fs (nxt fs d)) ->
  exists d', canboot_fat32_write_path fuel fs path data d = (OK tt, d') /\ vol_ok fs d' /\
    forall buf_size, Z.of_nat (length data) <= buf_size ->
      canboot_fat32_read_path fuel fs path buf_size d'
        = (OK (data, Z.of_nat (length data)), d').
Proof.
  intros V Hf Hin Hos HR Hl Hmax Hroom.
  destruct (write_path_run fs d _ _ path leaf pc R cs os data fuel (vol_is_refl fs d V) Hin Hf
    Hos Hl Hmax Hroom) as (d' & fn' & fc' & cs' & j & first & fl & Hw & W).
  exists d'. split; [done|]. destruct W. split; [by eapply vol_is_ok|]. intros buf_size Hbuf.
  destruct wr_grown as (ex & -> & Hex).
  eapply (read_path_run fs d' fn' fc' path leaf pc R (cs ++ ex) j _ fl); eauto.
  - eapply in_dir_agree; eauto. intros x Hx. apply wr_frame; auto.
    + destruct Hin as [(? & _ & Hwalk) _ _ _]. by eapply walk_allocated.
    + by eapply id_above.
  - rewrite make_entry_first by done. done.
Qed.


(** C4.  [canboot_fat32_unlink_path] of a regular file succeeds, keeps the
    volume consistent, gives back every cluster of the file, and afterwards
    the path can no longer be read. *)
Theorem unlink_removes fs d path leaf pc R cs os (j : nat) e (fuel : nat) :
  vol_ok fs d -> enough fs fuel ->
  in_dir fs (nxt fs d) (cl fs d) path leaf pc R cs ->
  find_at (to_83 leaf) (dentries fs (cl fs d) cs) = Some (j, e) ->
  once (to_83 leaf) (dentries fs (cl fs d) cs) ->
  Z.land (de_attr e) ATTR_DIRECTORY = 0 ->
  data_chain fs (nxt fs d) (entry_first_cluster e) os ->
  (forall x, x ∈ os -> x ∉ cs) -> (forall x, x ∈ R -> x ∉ os) ->
  exists d', canboot_fat32_unlink_path fuel fs path d = (OK tt, d') /\ vol_ok fs d' /\
    (forall x, valid fs x -> nxt fs d' x = 0 <-> nxt fs d x = 0 \/ x ∈ os) /\
    forall buf_size, canboot_fat32_read_path fuel fs path buf_size d' = (ERR, d').
Proof.
  intros V Hf Hin Hfind Ho Ha Hos Hdis HR.
  destruct (unlink_path_run fs d _ _ path leaf pc R cs os j e fuel (vol_is_refl fs d V) Hin Hf
    Hfind Ha Hos Hdis) as (d' & fc' & Hr & Hrm & Hc).
  exists d'. split; [done|]. pose proof (rm_vol _ _ _ _ _ _ _ _ _ Hrm) as V'.
  split; [by eapply vol_is_ok|]. split.
  - intros x Hx. destruct V' as (_ & Hn & _). rewrite Hn by (by apply valid_in_fat).
    unfold freed. case_decide; tauto.
  - intros buf_size. destruct (removed_find _ _ _ _ _ _ _ _ _ _ Hrm Hfind Ho) as [Hgone _].
    pose proof (removed_in_dir _ _ _ _ _ _ _ _ _ _ _ _ _ Hin Hrm Hc HR) as Hin'.
    unfold canboot_fat32_read_path.
    bstep (resolve_entry_run fs d' _ _ path leaf pc R cs fuel V' Hin' Hf). by rewrite Hgone.
Qed.


Lemma new_dir_empty fs dc pc Z0 : Forall (fun e => name_at e 0 = 0) Z0 ->
  all_skipped (dot_entry dc :: dotdot_entry fs pc :: Z0) = true /\
  find_at DOTDOT83 (dot_entry dc :: dotdot_entry fs pc :: Z0) = Some (1%nat, dotdot_entry fs pc).
Proof. by destruct 1 as [|z Z0 Hz _]; [|cbn; rewrite Hz]. Qed.

(** C6.  [canboot_fat32_mkdir] of a fresh name: the path then resolves to a
    cluster that was free before, the directory found there is empty, and
    its [".."] entry leads to the parent (cluster 0 when that is the root). *)
Theorem mkdir_creates fs d path leaf pc R cs (fuel : nat) :
  vol_ok fs d -> enough fs fuel ->
  in_dir fs (nxt fs d) (cl fs d) path leaf pc R cs ->
  find_at (to_83 leaf) (dentries fs (cl fs d) cs) = None -> name_live (to_83 leaf) ->
  (2 <= nfree fs (nxt fs d))%nat ->
  exists d' dc, canboot_fat32_mkdir fuel fs path d = (OK tt, d') /\ vol_ok fs d' /\
    valid fs dc /\ nxt fs d dc = 0 /\
    resolve_dir fuel fs path d' = (OK dc, d') /\
    dir_is_empty fuel fs dc d' = (OK true, d') /\
    dir_find fuel fs dc DOTDOT83 d' = (OK (Some (dotdot_entry fs pc, dc, 1)), d').
Proof.
  intros V Hf Hin Hnone Hl Hroom.
  destruct (mkdir_run fs d _ _ path leaf pc R cs fuel (vol_is_refl fs d V) Hin Hf Hnone Hl Hroom)
    as (d' & fn' & fc' & cs' & j & dc & Hr & []).
  exists d', dc. split; [done|]. pose proof (vol_is_ok _ _ _ _ mk_vol) as V'.
  split; [done|]. destruct mk_fresh as (Hv & H0 & _). do 2 (split; [done|]).
  destruct mk_grown as (ex & -> & Hex). destruct mk_content as (Z0 & HE & HZ).
  destruct (new_dir_empty fs dc pc Z0 HZ) as [Hemp Hdd].
  pose proof (valid_lt_EOC fs d' dc V' Hv) as Hdc. unfold EOC in Hdc. split; [|split].
  - eapply resolve_dir_run; [done| |done].
    rewrite <- (make_entry_first (to_83 leaf) ATTR_DIRECTORY dc 0) by lia.
    eapply in_dir_walk; [|exact mk_find|done|rewrite make_entry_first by lia; lia].
    eapply in_dir_agree; eauto. intros x Hx.
    apply mk_frame; [|by eapply id_above].
    destruct Hin as [(? & _ & Hwalk) _ _ _]. by eapply walk_allocated.
  - rewrite (dir_is_empty_run fs d' fn' fc' dc [dc] fuel mk_vol mk_self Hf). by rewrite HE, Hemp.
  - rewrite (dir_find_enough fs d' fn' fc' DOTDOT83 dc [dc] fuel mk_vol mk_self Hf).
    rewrite HE, Hdd. cbn [found fmap option_fmap option_map].
    destruct (epc_bounds fs d' V'). by rewrite (loc_head fs d') by (done || lia).
Qed.

(** C7.  [canboot_fat32_rmdir] of an empty directory succeeds, frees the
    clusters of the directory, and afterwards the path no longer resolves; of a
    directory that holds an entry other than ["."] and [".."] it fails and
    leaves the disk untouched. *)
Theorem rmdir_removes fs d path leaf pc R cs ds (j : nat) e (fuel : nat) :
  vol_ok fs d -> enough fs fuel ->
  in_dir fs (nxt fs d) (cl fs d) path leaf pc R cs ->
  find_at (to_83 leaf) (dentries fs (cl fs d) cs) = Some (j, e) ->
  once (to_83 leaf) (dentries fs (cl fs d) cs) ->
  Z.land (de_attr e) ATTR_DIRECTORY <> 0 ->
  is_chain fs (nxt fs d) (entry_first_cluster e) ds ->
  (forall x, x ∈ ds -> x ∉ cs) -> (forall x, x ∈ R -> x ∉ ds) ->
  if all_skipped (dentries fs (cl fs d) ds)
  then exists d', canboot_fat32_rmdir fuel fs path d = (OK tt, d') /\ vol_ok fs d' /\
    (forall x, valid fs x -> nxt fs d' x = 0 <-> nxt fs d x = 0 \/ x ∈ ds) /\
    resolve_entry fuel fs path d' = (OK None, d')
  else canboot_fat32_rmdir fuel fs path d = (ERR, d).
Proof.
  intros V Hf Hin Hfind Ho Ha Hds Hdis HR.
  pose proof (rmdir_run fs d _ _ path leaf pc R cs ds j e fuel (vol_is_refl fs d V) Hin Hf
    Hfind Ha Hds Hdis) as Hr. destruct (all_skipped _); [|done]. destruct Hr as (d' & fc' & Hr & Hrm & Hc).
  exists d'. split; [done|]. pose proof (rm_vol _ _ _ _ _ _ _ _ _ Hrm) as V'.
  split; [by eapply vol_is_ok|]. split.
  - intros x Hx. destruct V' as (_ & Hn & _). rewrite Hn by (by apply valid_in_fat).
    unfold freed. case_decide; tauto.
  - destruct (removed_find _ _ _ _ _ _ _ _ _ _ Hrm Hfind Ho) as [Hgone _].
    pose proof (removed_in_dir _ _ _ _ _ _ _ _ _ _ _ _ _ Hin Hrm Hc HR) as Hin'.
    rewrite (resolve_entry_run fs d' _ _ path leaf pc R cs fuel V' Hin' Hf). by rewrite Hgone.
Qed.

(** C8.  [canboot_fat32_rename] of a regular file, within a directory or to
    another one: afterwards the new name finds the file's entry (first
    cluster, size and attributes as before), the old name finds nothing, and
    the file's data reads as before. *)
Theorem rename_moves fs d oldp oleaf pc R cs newp leaf npc R' ncs (j : nat) e fl data (fuel : nat) :
  vol_ok fs d -> enough fs fuel ->
  in_dir fs (nxt fs d) (cl fs d) oldp oleaf pc R cs ->
  in_dir fs (nxt fs d) (cl fs d) newp leaf npc R' ncs ->
  pc = npc \/ (forall x, x ∈ ncs -> x ∉ cs) ->
  find_at (to_83 oleaf) (dentries fs (cl fs d) cs) = Some (j, e) -> entry_ok e ->
  Z.land (de_attr e) ATTR_DIRECTORY = 0 -> once (to_83 oleaf) (dentries fs (cl fs d) cs) ->
  ended (dentries fs (cl fs d) cs) ->
  find_at (to_83 leaf) (dentries fs (cl fs d) ncs) = None -> name_live (to_83 leaf) ->
  (1 <= nfree fs (nxt fs d))%nat ->
  (data <> [] -> is_chain fs (nxt fs d) (entry_first_cluster e) fl) ->
  take (length data) (concat (cl fs d <$> fl)) = data ->
  (forall x, x ∈ fl -> nxt fs d x <> 0 /\ (x ∉ cs) /\ (x ∉ ncs)) ->
  Z.of_nat (length data) <= FAT32_MAX_CHAIN * bytes_per_cluster fs ->
  exists d' nc ni, canboot_fat32_rename fuel fs oldp newp d = (OK tt, d') /\ vol_ok fs d' /\
    dir_find fuel fs npc (to_83 leaf) d' = (OK (Some (with_name e (to_83 leaf), nc, ni)), d') /\
    dir_find fuel fs pc (to_83 oleaf) d' = (OK None, d') /\
    read_chain fuel fs (Z.of_nat (length data)) 0 (entry_first_cluster e) [] d' = (OK data, d').
Proof.
  intros V Hf Hold Hnew Hdir Hfind He Ha Ho Hend Hnone Hl Hroom Hch Htake Hfl Hmax.
  destruct (rename_run fs d _ _ oldp oleaf pc R cs newp leaf npc R' ncs j e fuel
    (vol_is_refl fs d V) Hf Hold Hnew Hdir Hfind He Ha Ho Hend Hnone Hl Hroom)
    as (d' & fn' & fc' & cs' & ncs' & j' & Hr & []).
  eexists d', _, _. split; [done|]. split; [by eapply vol_is_ok|].
  rewrite (dir_find_enough fs d' fn' fc' _ npc ncs' fuel) by done.
  rewrite (dir_find_enough fs d' fn' fc' _ pc cs' fuel) by done.
  rewrite rn_new, rn_old. split; [done|]. split; [done|].
  assert (Hsame : forall x, x ∈ fl -> fn' x = nxt fs d x /\ fc' x = cl fs d x).
  { intros x Hx. destruct (Hfl x Hx) as (? & ? & ?). by apply rn_frame. }
  pose proof (read_data fs fn' fc' d' (entry_first_cluster e) fl data fuel
    (Z.of_nat (length data)) rn_vol) as Hread.
  destruct (_ <? _) in Hread; apply Hread; auto; try lia.
  all: try (intros Hne; eapply is_chain_agree; [|by apply Hch]; intros x Hx; by apply Hsame).
  all: rewrite <- Htake at 2; do 2 f_equal; apply list_fmap_ext; intros i x Hx;
    apply Hsame; by eapply list_elem_of_lookup_2.
Qed.
(** [write_fat_entry] stores the 28-bit value in every copy of the FAT,
    keeps the four reserved bits of each copy's entry, and changes no other
    entry of any copy and no block outside the FATs; [read_fat_entry] then
    returns the value. *)
Theorem fat_write_mirrored fs d c v :
  vol_ok fs d -> in_fat fs c -> 0 <= v < 2 ^ 28 ->
  exists d', write_fat_entry fs c v d = (OK tt, d') /\ vol_ok fs d' /\
    read_fat_entry fs c d' = (OK v, d') /\
    (forall k, 0 <= k < num_fats fs ->
       fat_raw fs d' k c mod 2 ^ 28 = v /\
       Z.land (fat_raw fs d' k c) 0xF0000000 = Z.land (fat_raw fs d k c) 0xF0000000) /\
    (forall k c', in_fat fs c' -> 0 <= k < num_fats fs -> c' <> c ->
       fat_raw fs d' k c' = fat_raw fs d k c') /\
    (forall i, 0 <= i < bd_block_count d -> i < fat_start_lba fs \/ data_start_lba fs <= i ->
       bd_blk d' i = bd_blk d i).
Proof.
  intros V Hc Hv. destruct (write_fat_entry_full fs d c v V Hc)
    as (d' & Hrun & V' & _ & Hout & Hs & Ho).
  pose proof (vo_num_fats _ _ V).
  assert (Hlow : Z.land v 0x0FFFFFFF = v) by (rewrite mask28; by apply Z.mod_small).
  exists d'. split; [done|]. split; [done|]. split; [|split; [|by split]].
  - rewrite (read_fat_entry_run fs d' c V' Hc). unfold nxt. rewrite Hs by lia.
    by rewrite fat_mix_low, Hlow.
  - intros k Hk. rewrite Hs by done. by rewrite <- mask28, fat_mix_low, Hlow, fat_mix_high.
Qed.

(** [alloc_chain] of [n] clusters: with [n] free clusters it returns [n]
    distinct clusters that were free, linked in order and ended by the mark,
    and touches neither another link nor any data.  With fewer it fails, and
    then no cluster at all is left free: the ones already taken stay marked. *)
Theorem alloc_chain_spec fs d n :
  vol_ok fs d -> 1 <= n <= FAT32_MAX_CHAIN ->
  exists d', vol_ok fs d' /\ (forall x, valid fs x -> cl fs d' x = cl fs d x) /\
    if n <=? Z.of_nat (nfree fs (nxt fs d))
    then exists cs, alloc_chain fs n d = (OK cs, d') /\ Z.of_nat (length cs) = n /\ NoDup cs /\
      Forall (fun c => valid fs c /\ nxt fs d c = 0) cs /\
      is_chain fs (nxt fs d') (default 0 (head cs)) cs /\
      (forall x, in_fat fs x -> x ∉ cs -> nxt fs d' x = nxt fs d x)
    else alloc_chain fs n d = (ERR, d') /\ nfree fs (nxt fs d') = 0%nat.
Proof.
  intros V Hn. pose proof (vol_is_refl fs d V) as Vi.
  destruct (alloc_chain_run fs n d _ _ Vi Hn) as (cs & d' & Hnd & Hall & [Hok|Herr]).
  - destruct Hok as (Hl & Hr & fn' & V' & Hch & Hsame). exists d'. pose proof V' as (Vo' & Hn' & Hc').
    split; [done|]. split; [done|]. rewrite (proj2 (Z.leb_le _ _)).
    + exists cs. do 4 (split; [done|]). split.
      * eapply is_chain_agree; [|exact Hch]. intros x Hx. apply Hn', valid_in_fat.
        rewrite Forall_forall in Hall. by apply Hall.
      * intros x Hx Hin. rewrite Hn' by done. by apply Hsame.
    + rewrite <- Hl. apply Nat2Z.inj_le. apply submseteq_length, NoDup_submseteq; [done|].
      intros x Hx. rewrite Forall_forall in Hall. apply Hall in Hx as [[? ?] ?].
      apply list_elem_of_filter. split; [done|]. apply elem_of_seqZ. lia.
  - destruct Herr as (Hl & Hr & V' & Hfull). exists d'. pose proof V' as (Vo' & Hn' & Hc').
    split; [done|]. split; [done|]. pose proof (nfree_full fs _ _ Hfull).
    rewrite (proj2 (Z.leb_gt _ _)) by lia. split; [done|].
    enough (nfree fs (nxt fs d') <= 0)%nat by lia. apply (nfree_full fs _ []).
    intros x Hx. unfold marked at 1. rewrite decide_False by apply not_elem_of_nil.
    rewrite Hn' by (by apply valid_in_fat). by apply Hfull.
Qed.

(** The chain walks have no bound of their own: a directory whose FAT
    chain is a cycle, with neither the name nor an end marker in it, keeps
    [dir_find] running for ever, however many steps it is given. *)
Theorem dir_find_cycle_diverges fs d t c (fuel : nat) :
  vol_ok fs d -> valid fs c -> nxt fs d c = c ->
  Forall (fun e => name_at e 0 <> 0 /\ matches t e = false)
    (dents (entries_per_cluster fs) (cl fs d c)) ->
  dir_find fuel fs c t d = (NOFUEL, d).
Proof.
  intros V Hv Hcyc Hall. pose proof (vol_is_refl fs d V) as Vi. unfold dir_find.
  rewrite (proj2 (Z.ltb_ge _ _)) by apply (vo_bpc_max _ _ V).
  pose proof (valid_lt_EOC fs d c V Hv).
  assert (Hhit : forall i, first_hit (dir_find_body t) i
      (dents (entries_per_cluster fs) (cl fs d c)) = None).
  { induction Hall as [|e E [Hz Hm] _ IH]; intros i; [done|]. cbn [first_hit].
    by rewrite dir_find_body_alt, (proj2 (Z.eqb_neq _ _) Hz), Hm. }
  induction fuel as [|fuel IH]; cbn [dir_find_loop];
    rewrite (proj2 (Z.leb_le 2 c)), (proj2 (Z.ltb_lt c EOC)) by lia; [done|]. cbn [andb].
  bstep (read_cluster_is fs d _ _ c Vi Hv). rewrite (scan_cluster _ fs d _ _ c Vi Hv).
  unfold lift. rewrite (bind_OK _ _ _ _ _ eq_refl), Hhit.
  bstep (read_fat_is fs d _ _ c Vi (valid_in_fat _ _ Hv)). by rewrite Hcyc.
Qed.
End properties.

(** ** Instances on the small volume *)
Ltac demo :=
  lazymatch goal with
  | |- vol_ok _ _ => exact demo_ok
  | |- enough _ _ => exact demo_enough
  | |- ended _ => exact demo_ended
  | |- in_dir _ _ _ _ _ 2 _ _ => apply demo_in_root; reflexivity
  | |- in_dir _ _ _ _ _ 3 _ _ => apply demo_in_sub; reflexivity
  | |- is_chain _ _ _ [3] => exact demo_sub
  | |- is_chain _ _ _ [4] => exact demo_gone
  | |- is_chain _ _ _ [5] => exact demo_a
  | |- is_chain _ _ _ [6; 7] => exact demo_b
  | |- once _ _ => apply once_dec; vm_compute; lia
  | |- forall x : Z, x ∈ _ -> _ =>
      let x := fresh "x" in let Hx := fresh "Hx" in
      intros x Hx; repeat (apply elem_of_cons in Hx as [->|Hx]);
      [..|by apply elem_of_nil in Hx];
      rewrite ?not_elem_of_cons; repeat split;
      first [apply not_elem_of_nil | vm_compute; discriminate]
  | |- name_live _ => vm_compute; split; discriminate
  | |- _ = _ => vm_compute; reflexivity
  | |- _ <> _ => vm_compute; discriminate
  | |- _ <= _ => vm_compute; discriminate
  end.

(** [/a.txt] is replaced by 700 bytes. *)
Lemma write_then_read_witness :
  exists d', canboot_fat32_write_path 21 demo_fs (str "/a.txt") (replicate 700 9) demo_disk
               = (OK tt, d') /\ vol_ok demo_fs d' /\
    forall buf_size, Z.of_nat (length (replicate 700 9)) <= buf_size ->
      canboot_fat32_read_path 21 demo_fs (str "/a.txt") buf_size d'
        = (OK (replicate 700 9, Z.of_nat (length (replicate 700 9))), d').
Proof.
  apply (write_then_read demo_fs demo_disk (str "/a.txt") (str "a.txt") 2 [] [2] [5]); try demo.
  split; [rewrite demo_find_a; split; [reflexivity|left; exact demo_a]|demo].
Defined.

Lemma demo_other_b os t : t <> to_83 (str "sub") ->
  (forall x, x ∈ [2; 3; 6; 7] -> x ∉ os) ->
  other_file demo_fs (nxt demo_fs demo_disk) (cl demo_fs demo_disk) 2 [2] os t (str "/sub/b.txt") (replicate 600 7).
Proof.
  intros Ht Hos. split; [|demo].
  exists (str "/sub"), (str "b.txt"), 3, [3], 2%nat, demo_entry_b, [6; 7].
  split; [reflexivity|]. split.
  { apply (clear_step demo_fs (nxt demo_fs demo_disk) (cl demo_fs demo_disk) 2 [2] os t 2 (str "sub") (str "sub") [] [2] 0
      demo_entry_sub 3); [reflexivity|done| |exact demo_find_sub|done|constructor].
    split; [exact demo_root|left]. done. }
  split.
  { split; [exact demo_sub|right]. intros x Hx%list_elem_of_singleton. subst.
    split; [by intros ?%list_elem_of_singleton|apply Hos; set_solver]. }
  split; [exact demo_find_b|]. split; [reflexivity|]. split; [reflexivity|].
  split; [intros _; exact demo_b|]. split; [vm_compute; reflexivity|].
  intros x Hx. split; [by eapply is_chain_allocated; [exact demo_b|]|].
  split; [|apply Hos; set_solver].
  intros ->%list_elem_of_singleton. by repeat (apply elem_of_cons in Hx as [?|Hx]);
    [..|apply elem_of_nil in Hx].
Qed.


Lemma unlink_removes_witness :
  exists d', canboot_fat32_unlink_path 21 demo_fs (str "/sub/b.txt") demo_disk = (OK tt, d') /\
    vol_ok demo_fs d' /\
    (forall x, valid demo_fs x -> nxt demo_fs d' x = 0 <-> nxt demo_fs demo_disk x = 0 \/ x ∈ [6; 7]) /\
    forall buf_size, canboot_fat32_read_path 21 demo_fs (str "/sub/b.txt") buf_size d' = (ERR, d').
Proof.
  apply (unlink_removes demo_fs demo_disk (str "/sub/b.txt") (str "b.txt") 3 [2] [3] [6; 7] 2
    demo_entry_b); try demo. left. exact demo_b.
Defined.


Lemma mkdir_creates_witness :
  exists d' dc, canboot_fat32_mkdir 21 demo_fs (str "/sub/new") demo_disk = (OK tt, d') /\
    vol_ok demo_fs d' /\ valid demo_fs dc /\ nxt demo_fs demo_disk dc = 0 /\
    resolve_dir 21 demo_fs (str "/sub/new") d' = (OK dc, d') /\
    dir_is_empty 21 demo_fs dc d' = (OK true, d') /\
    dir_find 21 demo_fs dc DOTDOT83 d' = (OK (Some (dotdot_entry demo_fs 3, dc, 1)), d').
Proof.
  apply (mkdir_creates demo_fs demo_disk (str "/sub/new") (str "new") 3 [2] [3]); try demo.
  vm_compute. lia.
Defined.

Lemma rmdir_removes_witness :
  (exists d', canboot_fat32_rmdir 21 demo_fs (str "/gone") demo_disk = (OK tt, d') /\
    vol_ok demo_fs d' /\
    (forall x, valid demo_fs x -> nxt demo_fs d' x = 0 <-> nxt demo_fs demo_disk x = 0 \/ x ∈ [4]) /\
    resolve_entry 21 demo_fs (str "/gone") d' = (OK None, d')) /\
  canboot_fat32_rmdir 21 demo_fs (str "/sub") demo_disk = (ERR, demo_disk).
Proof.
  split.
  - refine (eq_ind (all_skipped (dentries demo_fs (cl demo_fs demo_disk) [4])) (fun b : bool => if b then _
      else canboot_fat32_rmdir 21 demo_fs (str "/gone") demo_disk = (ERR, demo_disk)) _ true _); [|demo].
    apply (rmdir_removes demo_fs demo_disk (str "/gone") (str "gone") 2 [] [2] [4] 1 demo_entry_gone); try demo.
  - refine (eq_ind (all_skipped (dentries demo_fs (cl demo_fs demo_disk) [3])) (fun b : bool => if b then
      exists d', canboot_fat32_rmdir 21 demo_fs (str "/sub") demo_disk = (OK tt, d') /\ vol_ok demo_fs d' /\
        (forall x, valid demo_fs x -> nxt demo_fs d' x = 0 <-> nxt demo_fs demo_disk x = 0 \/ x ∈ [3]) /\
        resolve_entry 21 demo_fs (str "/sub") d' = (OK None, d') else _) _ false _); [|demo].
    apply (rmdir_removes demo_fs demo_disk (str "/sub") (str "sub") 2 [] [2] [3] 0 demo_entry_sub); try demo.
Defined.

(** [/a.txt] becomes [/sub/moved.txt]. *)
Lemma rename_moves_witness :
  exists d' nc ni,
    canboot_fat32_rename 21 demo_fs (str "/a.txt") (str "/sub/moved.txt") demo_disk = (OK tt, d') /\
    vol_ok demo_fs d' /\
    dir_find 21 demo_fs 3 (to_83 (str "moved.txt")) d'
      = (OK (Some (with_name demo_entry_a (to_83 (str "moved.txt")), nc, ni)), d') /\
    dir_find 21 demo_fs 2 (to_83 (str "a.txt")) d' = (OK None, d') /\
    read_chain 21 demo_fs (Z.of_nat (length (str "hello"))) 0 (entry_first_cluster demo_entry_a) [] d'
      = (OK (str "hello"), d').
Proof.
  apply (rename_moves demo_fs demo_disk (str "/a.txt") (str "a.txt") 2 [] [2]
    (str "/sub/moved.txt") (str "moved.txt") 3 [2] [3] 2 demo_entry_a [5] (str "hello")); try demo.
  - right. demo.
  - apply make_entry_ok; [reflexivity|lia|lia].
  - vm_compute. lia.
  - intros _. exact demo_a.
Defined.

Lemma fat_write_mirrored_witness :
  exists d', write_fat_entry demo_fs 9 10 demo_disk = (OK tt, d') /\ vol_ok demo_fs d' /\
    read_fat_entry demo_fs 9 d' = (OK 10, d') /\
    (forall k, 0 <= k < num_fats demo_fs ->
       fat_raw demo_fs d' k 9 mod 2 ^ 28 = 10 /\
       Z.land (fat_raw demo_fs d' k 9) 0xF0000000
         = Z.land (fat_raw demo_fs demo_disk k 9) 0xF0000000) /\
    (forall k c', in_fat demo_fs c' -> 0 <= k < num_fats demo_fs -> c' <> 9 ->
       fat_raw demo_fs d' k c' = fat_raw demo_fs demo_disk k c') /\
    (forall i, 0 <= i < bd_block_count demo_disk ->
       i < fat_start_lba demo_fs \/ data_start_lba demo_fs <= i ->
       bd_blk d' i = bd_blk demo_disk i).
Proof.
  apply (fat_write_mirrored demo_fs demo_disk 9 10); [demo|vm_compute; split; [discriminate|done]|lia].
Defined.

(** Sixteen clusters are free. *)
Lemma alloc_chain_spec_witness :
  exists d', vol_ok demo_fs d' /\
    (forall x, valid demo_fs x -> cl demo_fs d' x = cl demo_fs demo_disk x) /\
    if 16 <=? Z.of_nat (nfree demo_fs (nxt demo_fs demo_disk))
    then exists cs, alloc_chain demo_fs 16 demo_disk = (OK cs, d') /\ Z.of_nat (length cs) = 16 /\
      NoDup cs /\ Forall (fun c => valid demo_fs c /\ nxt demo_fs demo_disk c = 0) cs /\
      is_chain demo_fs (nxt demo_fs d') (default 0 (head cs)) cs /\
      (forall x, in_fat demo_fs x -> x ∉ cs -> nxt demo_fs d' x = nxt demo_fs demo_disk x)
    else alloc_chain demo_fs 16 demo_disk = (ERR, d') /\ nfree demo_fs (nxt demo_fs d') = 0%nat.
Proof. apply (alloc_chain_spec demo_fs demo_disk 16); [demo|unfold FAT32_MAX_CHAIN; lia]. Defined.

(** A volume whose directory cluster 9 is full of files and links to itself. *)
Definition cycle_disk : ramdisk := snd ((
  write_fat_entry demo_fs 9 9;;!
  write_cluster demo_fs 9 (concat (replicate 16 (dir_encode demo_entry_a)))) demo_disk).

Lemma dir_find_cycle_diverges_witness :
  dir_find 1000 demo_fs 9 (to_83 (str "b.txt")) cycle_disk = (NOFUEL, cycle_disk).
Proof.
  apply (dir_find_cycle_diverges demo_fs cycle_disk (to_83 (str "b.txt")) 9).
  - split; try (vm_compute; (reflexivity || (split; discriminate) || discriminate)).
    apply rd_ok_dec. vm_compute. reflexivity.
  - vm_compute. split; [discriminate|done].
  - vm_compute. reflexivity.
  - vm_compute. repeat (constructor; [split; [discriminate|reflexivity]|]). constructor.
Defined.
