(* ===== verification/Fat32Format.v ===== *)
(** * FAT32: names and mkfs

    The 8.3 names of the directory entries, and [canboot_fat32_format]: a
    formatted disk opens, and what is opened is an empty file system. *)
From stdpp Require Import functions.
From S2P Require Import Prelude Bytes Disk Fat32 Fat32Vol Fat32Alloc Fat32Dir Fat32Path.

(** ** 8.3 names *)
(** A base name and an extension as the user writes them. *)
Definition dotted (base ext : list Z) : list Z :=
  match ext with [] => base | _ => base ++ 46 :: ext end.

Lemma first_dot_none i s : 46 ∉ s -> first_dot i s = None.
Proof.
  revert i. induction s as [|c s IH]; intros i Hs; [done|].
  apply not_elem_of_cons in Hs as [Hc Hs]. cbn.
  rewrite (proj2 (Z.eqb_neq c 46)) by congruence. auto.
Qed.

Lemma first_dot_app i s t : 46 ∉ s -> first_dot i (s ++ 46 :: t) = Some (i + Z.of_nat (length s)).
Proof.
  revert i. induction s as [|c s IH]; intros i Hs; [cbn; f_equal; lia|].
  apply not_elem_of_cons in Hs as [Hc Hs]. cbn.
  rewrite (proj2 (Z.eqb_neq c 46)) by congruence. rewrite IH by done. f_equal. lia.
Qed.

Lemma splice_spaces (b : list Z) n : (length b <= n)%nat ->
  splice 0 b (replicate n 32) = b ++ replicate (n - length b) 32.
Proof. intros. unfold splice. cbn. by rewrite drop_replicate. Qed.

(** The 11 bytes of a name that fits. *)
Lemma to_83_fits base ext :
  (1 <= length base <= 8)%nat -> (length ext <= 3)%nat -> 46 ∉ base ->
  to_83 (dotted base ext) =
    (upper <$> base) ++ replicate (8 - length base) 32 ++
    (upper <$> ext) ++ replicate (3 - length ext) 32.
Proof.
  intros Hb He Hd. unfold to_83, dotted. cbv zeta. destruct ext as [|x ext].
  - rewrite first_dot_none by done. rewrite (proj2 (Z.ltb_ge 8 _)) by lia.
    rewrite Nat2Z.id, firstn_all, splice_spaces by (rewrite length_fmap; lia).
    rewrite length_fmap. cbn [fmap list_fmap app length Nat.sub].
    rewrite <- replicate_add. do 2 f_equal. lia.
  - set (e := x :: ext) in *. rewrite first_dot_app, Z.add_0_l by done.
    rewrite length_app. cbn [length].
    replace (Z.of_nat (length base + S (length e)) - Z.of_nat (length base) - 1)
      with (Z.of_nat (length e)) by lia.
    rewrite (proj2 (Z.ltb_ge 8 _)), (proj2 (Z.ltb_ge 3 _)) by lia.
    rewrite !Nat2Z.id, take_app_length, splice_spaces by (rewrite length_fmap; lia).
    replace (Z.to_nat (Z.of_nat (length base) + 1)) with (length base + 1)%nat by lia.
    rewrite <- drop_drop, drop_app_length. cbn [drop]. rewrite firstn_all.
    unfold splice. rewrite !length_fmap.
    rewrite take_app_ge by (rewrite length_fmap; lia).
    rewrite drop_app_ge by (rewrite length_fmap; lia).
    rewrite length_fmap, take_replicate, drop_replicate, <- app_assoc.
    rewrite drop_0. do 2 f_equal; [f_equal; lia|]. do 2 f_equal. lia.
Qed.

Lemma until_space_app b k : 32 ∉ b -> until_space (b ++ replicate k 32) = b.
Proof.
  induction b as [|c b IH]; intros Hb; [by destruct k|].
  apply not_elem_of_cons in Hb as [Hc Hb]. cbn.
  rewrite (proj2 (Z.eqb_neq c 32)) by congruence. by rewrite IH.
Qed.

Lemma existsb_spaces k : existsb (fun c => negb (c =? 32)) (replicate k 32) = false.
Proof. by induction k. Qed.

(** A name of at most eight characters with an extension of at most
    three is stored and listed back as the same name in upper case. *)
Theorem name_83_roundtrip base ext :
  (1 <= length base <= 8)%nat -> (length ext <= 3)%nat -> 46 ∉ base ->
  32 ∉ upper <$> base -> 32 ∉ upper <$> ext ->
  name_from_83 (to_83 (dotted base ext)) = upper <$> dotted base ext.
Proof.
  intros Hb He Hd Hsb Hse. rewrite to_83_fits by done. unfold name_from_83.
  rewrite (assoc_L (++)). set (l := (upper <$> base) ++ _).
  assert (Hl : length l = 8%nat).
  { unfold l. rewrite length_app, length_fmap, length_replicate. lia. }
  rewrite slice_hit, slice_skip by lia. rewrite Hl, Nat.sub_diag.
  rewrite <- (app_nil_r (_ ++ replicate (3 - _) 32)), slice_hit
    by (rewrite length_app, length_fmap, length_replicate; lia).
  unfold l. rewrite until_space_app by done. destruct ext as [|x ext].
  - cbn [fmap list_fmap app]. by rewrite existsb_spaces.
  - rewrite existsb_app, until_space_app by done.
    cbn [fmap list_fmap existsb]. apply not_elem_of_cons in Hse as [Hx _].
    rewrite (proj2 (Z.eqb_neq (upper x) 32)) by congruence. cbn [negb orb].
    unfold dotted. by rewrite fmap_app.
Qed.

Lemma name_83_roundtrip_witness :
  name_from_83 (to_83 (str "init.cdo")) = str "INIT.CDO".
Proof.
  apply (name_83_roundtrip (str "init") (str "cdo")); [cbn; lia..| | |];
    apply (bool_decide_unpack _); vm_compute; exact I.
Defined.

(** ** mkfs *)
(** The number of clusters left for data. *)
Definition data_clusters (size_lba spc fat_sectors : Z) : Z :=
  (size_lba - 32 - 2 * fat_sectors) / spc.

Lemma pick_spc_values size : pick_spc size ∈ [0; 1; 8; 16; 32; 64].
Proof.
  unfold pick_spc.
  repeat match goal with |- (if ?b then _ else _) ∈ _ => destruct b end;
    rewrite !elem_of_cons; tauto.
Qed.

(** One step of the loop that sizes the FAT, without wrap-around. *)
Lemma fit_fat_step (iter : nat) size spc fat :
  16384 <= size < 2 ^ 32 -> 1 <= spc -> 32 <= fat -> 32 + 2 * fat <= size ->
  fit_fat (S iter) size spc fat =
    let need := (data_clusters size spc fat + 127) / 128 in
    if need <=? fat then fat else fit_fat iter size spc need.
Proof.
  intros. cbn [fit_fat]. unfold data_clusters.
  rewrite (u32_small (2 * fat)) by lia. rewrite (u64_small (size - 32 - 2 * fat)) by lia.
  assert (0 <= (size - 32 - 2 * fat) / spc <= size).
  { split; [apply Z.div_pos; lia|]. apply Z.div_le_upper_bound; nia. }
  rewrite (u64_small (_ + 128 - 1)) by lia.
  replace ((size - 32 - 2 * fat) / spc + 128 - 1) with ((size - 32 - 2 * fat) / spc + 127) by lia.
  rewrite u32_small; [done|]. split; [apply Z.div_pos; lia|].
  apply Z.div_lt_upper_bound; lia.
Qed.

(** The loop converges in two rounds: the FAT has an entry for every data
    cluster, and the FATs and the data area fit on the disk.  On a volume large
    enough for FAT32 there is also room for the two reserved entries, because
    the last round sizes the FAT for a slightly larger data area. *)
Lemma fit_fat_enough size spc :
  16384 <= size < 2 ^ 32 -> 1 <= spc <= 64 ->
  let fat := fit_fat 32 size spc 32 in
  32 <= fat /\ 32 + 2 * fat <= size /\
  (65525 <= data_clusters size spc fat -> data_clusters size spc fat + 2 <= 128 * fat).
Proof.
  intros Hs Hp. cbv zeta. rewrite fit_fat_step by lia. cbv zeta.
  set (need := (data_clusters size spc 32 + 127) / 128).
  assert (Hn : data_clusters size spc 32 <= 128 * need /\ 128 * need <= data_clusters size spc 32 + 127).
  { unfold need. pose proof (Z.div_mod (data_clusters size spc 32 + 127) 128 ltac:(lia)).
    pose proof (Z.mod_pos_bound (data_clusters size spc 32 + 127) 128 ltac:(lia)). lia. }
  assert (Hd : data_clusters size spc 32 <= size - 96).
  { unfold data_clusters. apply Z.div_le_upper_bound; nia. }
  destruct (Z.leb_spec need 32) as [Hle|Hgt]; [lia|].
  rewrite fit_fat_step by lia. cbv zeta.
  assert (Hm : data_clusters size spc need <= data_clusters size spc 32).
  { unfold data_clusters. apply Z.div_le_mono; lia. }
  assert (Hr : 32 + spc <= need -> data_clusters size spc need + 2 <= data_clusters size spc 32).
  { intros Hbig. unfold data_clusters. rewrite <- Z.div_add by lia. apply Z.div_le_mono; lia. }
  assert ((data_clusters size spc need + 127) / 128 <= need).
  { transitivity ((data_clusters size spc 32 + 127) / 128); [apply Z.div_le_mono; lia|].
    fold need. lia. }
  rewrite (proj2 (Z.leb_le _ _)) by done. lia.
Qed.

Section mkfs.
Context {D : Type} `{BlockDevice D} `{!BlockDeviceLaws D}.
Implicit Types (d : D) (f : Z -> list Z).

Definition zero_block : list Z := replicate 512 0.

(** Contents with the blocks [a .. a + k) zeroed. *)
Definition zeroed (a : Z) (k : nat) f : Z -> list Z :=
  fun i => if decide (a <= i < a + Z.of_nat k) then zero_block else f i.

Lemma zero_sectors_run (k : nat) d n f a :
  disk_is d n f -> 0 <= a -> a + Z.of_nat k <= n -> n < 2 ^ 63 ->
  exists d', zero_sectors k a d = (OK tt, d') /\ disk_is d' n (zeroed a k f).
Proof.
  revert d f a. induction k as [|k IH]; intros d f a Hd Ha Hk Hn.
  { exists d. split; [done|]. eapply disk_is_ext; [done|]. intros i _. unfold zeroed.
    by rewrite decide_False by lia. }
  cbn [zero_sectors].
  destruct (put_block_run d n f a zero_block Hd) as (d1 & Hr & H1); [lia|done|done|].
  bstep Hr. destruct (IH d1 _ (a + 1) H1) as (d2 & Hr2 & H2); [lia..|].
  exists d2. split; [done|]. eapply disk_is_ext; [done|]. intros i _. unfold zeroed.
  destruct (decide (i = a)) as [->|Hne].
  - by rewrite decide_False, fn_lookup_insert, decide_True by lia.
  - rewrite fn_lookup_insert_ne by done. apply decide_ext. lia.
Qed.

Lemma zero_fats_run (k : nat) d n f fat0 spf off :
  disk_is d n f -> 0 <= fat0 -> 0 <= off -> off + Z.of_nat k <= spf ->
  fat0 + 2 * spf <= n -> n < 2 ^ 63 ->
  exists d', zero_fats k fat0 spf off d = (OK tt, d') /\
    disk_is d' n (zeroed (fat0 + off) k (zeroed (fat0 + spf + off) k f)).
Proof.
  revert d f off. induction k as [|k IH]; intros d f off Hd Hf Ho Hk Hc Hn.
  { exists d. split; [done|]. eapply disk_is_ext; [done|]. intros i _. unfold zeroed.
    by rewrite !decide_False by lia. }
  cbn [zero_fats].
  destruct (put_block_run d n f (fat0 + off) zero_block Hd) as (d1 & Hr1 & H1); [lia|done|done|].
  bstep Hr1.
  destruct (put_block_run d1 n _ (fat0 + spf + off) zero_block H1) as (d2 & Hr2 & H2); [lia|done|done|].
  bstep Hr2. destruct (IH d2 _ (off + 1) H2) as (d3 & Hr3 & H3); [lia..|].
  exists d3. split; [done|]. eapply disk_is_ext; [done|]. intros i _. unfold zeroed, insert, fn_insert.
  repeat case_decide; try done; lia.
Qed.

(** *** The boot sector *)
Lemma length_label_pad label : length (label_pad label) = 11%nat.
Proof.
  destruct label as [l|]; [|done]. unfold label_pad. rewrite length_splice; [done|].
  rewrite length_fmap, length_take, length_replicate. lia.
Qed.

Lemma length_boot_head start size spc fat : length (boot_head start size spc fat) = 512%nat.
Proof. vm_compute. reflexivity. Qed.

Lemma boot_sector_field start size spc fat label (off n : nat) :
  (off + n <= 71)%nat ->
  length (boot_sector start size spc fat label) = 512%nat /\
  slice off n (boot_sector start size spc fat label) = slice off n (boot_head start size spc fat).
Proof.
  intros Hoff. unfold boot_sector.
  assert (Hl : length (boot_head start size spc fat) = 512%nat) by apply length_boot_head.
  pose proof (length_label_pad label) as Hp.
  assert (H1 : length (splice 71 (label_pad label) (boot_head start size spc fat)) = 512%nat)
    by (rewrite length_splice; lia).
  assert (H2 : length (splice 82 [70; 65; 84; 51; 50; 32; 32; 32]
                (splice 71 (label_pad label) (boot_head start size spc fat))) = 512%nat)
    by (rewrite length_splice; cbn [length]; lia).
  split; [rewrite length_splice; cbn [length]; lia|].
  rewrite slice_splice_other by (cbn [length]; lia).
  rewrite slice_splice_other by (cbn [length]; lia).
  rewrite slice_splice_other by lia. done.
Qed.

(** A BPB field of the boot sector, from its bytes in front of the label. *)
Lemma boot_bpb start size spc fat label (n off : nat) bytes d :
  (off + n <= 71)%nat -> slice off n (boot_head start size spc fat) = bytes ->
  bpb n (Z.of_nat off) (boot_sector start size spc fat label) d = (OK (le_dec bytes), d).
Proof.
  intros Hoff Hb. destruct (boot_sector_field start size spc fat label off n Hoff) as [Hl Hs].
  unfold bpb. rewrite getle_Some by lia. cbn [from_opt]. unfold ret.
  by rewrite Nat2Z.id, Hs, Hb.
Qed.

(** Opening a disk whose first block is the boot sector of [format]. *)
Lemma open_boot_run d n f start size spc fat label :
  disk_is d n f -> 0 < n -> f 0 = boot_sector start size spc fat label ->
  16384 <= size < 2 ^ 32 -> 1 <= spc < 128 -> 32 <= fat -> 32 + 2 * fat <= size ->
  canboot_fat32_open d =
    (OK (mkFs 512 spc (512 * spc) 32 2 fat 2 32 (32 + 2 * fat) (data_clusters size spc fat)), d).
Proof.
  intros [Hi _ Hs Hc Hb] Hn Hf Hsz Hspc Hfat Hfit.
  unfold canboot_fat32_open. rewrite (bind_OK _ _ _ d d) by done. cbv beta.
  rewrite Hs. change (4096 <? 512) with false. cbv iota.
  assert (Hr : disk_read_sector 4096 0 d = (OK (boot_sector start size spc fat label), d)).
  { unfold disk_read_sector. rewrite disk_read_one by (auto; lia). by rewrite Hb, Hf by lia. }
  bstep Hr.
  bstep (boot_bpb start size spc fat label 2 11 (le_enc 2 512) d ltac:(lia) ltac:(vm_compute; reflexivity)).
  bstep (boot_bpb start size spc fat label 1 13 (le_enc 1 spc) d ltac:(lia) ltac:(vm_compute; reflexivity)).
  bstep (boot_bpb start size spc fat label 2 14 (le_enc 2 32) d ltac:(lia) ltac:(vm_compute; reflexivity)).
  bstep (boot_bpb start size spc fat label 1 16 (le_enc 1 2) d ltac:(lia) ltac:(vm_compute; reflexivity)).
  bstep (boot_bpb start size spc fat label 2 17 (le_enc 2 0) d ltac:(lia) ltac:(vm_compute; reflexivity)).
  bstep (boot_bpb start size spc fat label 2 19 (le_enc 2 0) d ltac:(lia) ltac:(vm_compute; reflexivity)).
  bstep (boot_bpb start size spc fat label 2 22 (le_enc 2 0) d ltac:(lia) ltac:(vm_compute; reflexivity)).
  bstep (boot_bpb start size spc fat label 4 32
    (le_enc 4 (if 0xFFFFFFFF <? size then 0 else size)) d ltac:(lia) ltac:(vm_compute; reflexivity)).
  bstep (boot_bpb start size spc fat label 4 36 (le_enc 4 fat) d ltac:(lia) ltac:(vm_compute; reflexivity)).
  bstep (boot_bpb start size spc fat label 4 44 (le_enc 4 2) d ltac:(lia) ltac:(vm_compute; reflexivity)).
  rewrite (proj2 (Z.ltb_ge 0xFFFFFFFF size)) by lia.
  rewrite (le_dec_enc_small 1 spc), (le_dec_enc_small 4 fat), (le_dec_enc_small 4 size) by (cbn; lia).
  change (le_dec (le_enc 2 512)) with 512. change (le_dec (le_enc 2 32)) with 32.
  change (le_dec (le_enc 1 2)) with 2. change (le_dec (le_enc 2 0)) with 0.
  change (le_dec (le_enc 4 2)) with 2.
  change (512 =? 0) with false. change (negb (0 =? 0)) with false.
  change (512 / 512 =? 0) with false. change (512 / 512) with 1. cbv iota zeta.
  rewrite (proj2 (Z.eqb_neq size 0)), (proj2 (Z.eqb_neq spc 0)) by lia.
  unfold ret, data_clusters. rewrite (u32_small (512 * spc)) by lia.
  rewrite (u64_small (32 * 1)), (u64_small (2 * fat * 1)), (u64_small (32 * 1 + _)) by lia.
  rewrite (u32_small (2 * fat)), (u32_small (32 + 2 * fat)), (u32_small (size - _)) by lia.
  do 3 f_equal; lia || (f_equal; lia).
Qed.

(** The disk after [format] of its first [size] blocks. *)
Definition formatted (f : Z -> list Z) (size spc fat : Z) (label : option (list Z)) : Z -> list Z :=
  let boot := boot_sector 0 size spc fat label in
  let info := fsinfo_sector (data_clusters size spc fat) in
  zeroed (32 + 2 * fat) (Z.to_nat spc)
    (zeroed 33 (Z.to_nat (fat - 1)) (zeroed (32 + fat + 1) (Z.to_nat (fat - 1))
      (<[32 + fat := fat_head_sector]> (<[32 := fat_head_sector]>
        (<[7 := info]> (<[1 := info]> (<[6 := boot]> (<[0 := boot]> f)))))))).

Lemma length_boot_sector start size spc fat label :
  length (boot_sector start size spc fat label) = 512%nat.
Proof. apply (boot_sector_field start size spc fat label 0 0). lia. Qed.

Lemma format_run d n f size label :
  disk_is d n f -> size <= n < 2 ^ 63 -> size < 2 ^ 32 ->
  let spc := pick_spc size in let fat := fit_fat 32 size spc 32 in
  spc <> 0 -> 65525 <= data_clusters size spc fat ->
  exists d', canboot_fat32_format 0 size label d = (OK tt, d') /\
    disk_is d' n (formatted f size spc fat label).
Proof.
  intros Hd Hn Hsz spc fat Hspc Hcl.
  assert (Hlow : 16384 <= size).
  { unfold spc, pick_spc in Hspc. destruct (Z.ltb_spec size 16384); [done|lia]. }
  assert (Hp : 1 <= spc <= 64).
  { pose proof (pick_spc_values size) as Hv. fold spc in Hv.
    repeat (apply elem_of_cons in Hv as [->|Hv]); [done|lia..|by apply elem_of_nil in Hv]. }
  destruct (fit_fat_enough size spc) as (Hf1 & Hf2 & _); [lia|lia|]. fold fat in Hf1, Hf2.
  assert (Hdc : data_clusters size spc fat * spc <= size - 32 - 2 * fat).
  { unfold data_clusters. pose proof (Z.mul_div_le (size - 32 - 2 * fat) spc). lia. }
  unfold canboot_fat32_format. rewrite (bind_OK _ _ _ d d) by done. cbv beta.
  rewrite (di_writable _ _ _ Hd), (di_size _ _ _ Hd). change (512 =? 512) with true. cbn [negb].
  fold spc. rewrite (proj2 (Z.eqb_neq spc 0)) by lia. cbv zeta. fold fat.
  rewrite (u32_small (2 * fat)), (u64_small (size - 32 - 2 * fat)) by lia.
  fold (data_clusters size spc fat). rewrite (u32_small (data_clusters _ _ _)) by nia.
  rewrite (proj2 (Z.ltb_ge _ 65525)) by lia. rewrite !Z.add_0_l.
  set (boot := boot_sector 0 size spc fat label). set (info := fsinfo_sector _).
  pose proof (length_boot_sector 0 size spc fat label) as Hb. fold boot in Hb.
  assert (Hi : length info = 512%nat) by (vm_compute; reflexivity).
  rewrite (u64_small 32) by lia.
  destruct (put_block_run d n _ 0 boot Hd) as (d1 & R1 & H1); [lia..|]. bstep R1.
  destruct (put_block_run d1 n _ 6 boot H1) as (d2 & R2 & H2); [lia..|]. bstep R2.
  destruct (put_block_run d2 n _ 1 info H2) as (d3 & R3 & H3); [lia..|]. bstep R3.
  destruct (put_block_run d3 n _ 7 info H3) as (d4 & R4 & H4); [lia..|]. bstep R4.
  destruct (put_block_run d4 n _ 32 fat_head_sector H4) as (d5 & R5 & H5); [lia..|done|].
  rewrite (u64_small 32) in R5 by lia. bstep R5.
  destruct (put_block_run d5 n _ (32 + fat) fat_head_sector H5) as (d6 & R6 & H6); [lia..|done|].
  bstep R6.
  destruct (zero_fats_run (Z.to_nat (fat - 1)) d6 n _ 32 fat 1 H6) as (d7 & R7 & H7); [lia..|].
  bstep R7. rewrite (u64_small (32 + 2 * fat)) by lia.
  destruct (zero_sectors_run (Z.to_nat spc) d7 n _ (32 + 2 * fat) H7) as (d8 & R8 & H8); [nia..|].
  exists d8. split; [exact R8|]. exact H8.
Qed.

(** *** What was formatted *)
Lemma formatted_boot f size spc fat label : 32 <= fat -> 1 <= spc ->
  formatted f size spc fat label 0 = boot_sector 0 size spc fat label.
Proof.
  intros. unfold formatted, zeroed. cbv zeta. rewrite !decide_False by lia.
  rewrite !fn_lookup_insert_ne by lia. by rewrite fn_lookup_insert.
Qed.

Lemma formatted_fat f size spc fat label q : 32 <= fat -> 1 <= spc -> 0 <= q < fat ->
  formatted f size spc fat label (32 + q) = if q =? 0 then fat_head_sector else zero_block.
Proof.
  intros. unfold formatted, zeroed. cbv zeta. rewrite decide_False by lia.
  destruct (Z.eqb_spec q 0) as [->|Hq].
  - rewrite !decide_False by lia. rewrite fn_lookup_insert_ne by lia.
    change (32 + 0) with 32. by rewrite fn_lookup_insert.
  - by rewrite decide_True by lia.
Qed.

Lemma formatted_root f size spc fat label i : 0 <= i < spc ->
  formatted f size spc fat label (32 + 2 * fat + i) = zero_block.
Proof. intros. unfold formatted, zeroed. cbv zeta. by rewrite decide_True by lia. Qed.

Lemma fat_head_entries c : 0 <= c < 128 ->
  le_dec (slice (Z.to_nat (c * 4)) 4 fat_head_sector) =
    if c =? 0 then 0x0FFFFFF8 else if c =? 1 then 0x0FFFFFFF else if c =? 2 then 0x0FFFFFF8 else 0.
Proof.
  intros Hc.
  assert (Hall : forallb (fun c => le_dec (slice (Z.to_nat (c * 4)) 4 fat_head_sector) =?
    (if c =? 0 then 0x0FFFFFF8 else if c =? 1 then 0x0FFFFFFF else if c =? 2 then 0x0FFFFFF8 else 0))
    (seqZ 0 128) = true) by (vm_compute; reflexivity).
  rewrite forallb_forall in Hall. apply Z.eqb_eq, Hall, list_elem_of_In, elem_of_seqZ. lia.
Qed.

Lemma zero_block_field (off n : nat) : le_dec (slice off n zero_block) = 0.
Proof.
  unfold slice, zero_block. rewrite drop_replicate, take_replicate.
  generalize (n `min` (512 - off))%nat as k. induction k as [|k IH]; [done|].
  cbn [replicate le_dec]. rewrite IH. lia.
Qed.

(** The file-system record that [canboot_fat32_open] builds on a formatted disk. *)
Definition formatted_fs (size spc fat : Z) : canboot_fat32 :=
  mkFs 512 spc (512 * spc) 32 2 fat 2 32 (32 + 2 * fat) (data_clusters size spc fat).

Lemma formatted_vol_ok d n f size spc fat :
  disk_is d n f -> size <= n < 2 ^ 63 -> size < 2 ^ 28 -> 1 <= spc <= 16 -> 32 <= fat ->
  32 + 2 * fat <= size -> 0 <= data_clusters size spc fat ->
  data_clusters size spc fat + 2 <= 128 * fat -> vol_ok (formatted_fs size spc fat) d.
Proof.
  intros [Hi Hw Hs Hc _] Hn Hsz Hp Hf Hfit H0 Hroom.
  assert (Hd : data_clusters size spc fat * spc <= size - 32 - 2 * fat).
  { unfold data_clusters. pose proof (Z.mul_div_le (size - 32 - 2 * fat) spc). lia. }
  split; unfold formatted_fs, EOC; cbn [bytes_per_sector sectors_per_cluster bytes_per_cluster
    num_fats sectors_per_fat fat_start_lba data_start_lba total_clusters]; try done; try lia; nia.
Qed.

Lemma formatted_nxt d n f size spc fat label c :
  disk_is d n (formatted f size spc fat label) -> vol_ok (formatted_fs size spc fat) d ->
  32 <= fat -> 1 <= spc -> valid (formatted_fs size spc fat) c ->
  nxt (formatted_fs size spc fat) d c = if c =? 2 then EOC else 0.
Proof.
  intros Hd V Hf Hp Hv. pose proof (valid_in_fat _ _ Hv) as Hin.
  destruct (fat_off_bounds _ d c V Hin) as (_ & _ & Hq & _).
  pose proof (fat_lba_range _ d 0 c V Hin ltac:(cbn; lia)) as Hl. pose proof (data_start_le _ d V).
  unfold nxt, fat_raw, fat_lba in *. destruct Hv as [Hv _].
  cbn [formatted_fs bytes_per_sector fat_start_lba sectors_per_fat total_clusters] in *.
  rewrite (di_blocks _ _ _ Hd) by (rewrite <- (di_count _ _ _ Hd); lia).
  rewrite Z.mul_0_l, Z.add_0_r, formatted_fat by done.
  destruct (Z.eqb_spec (c * 4 / 512) 0) as [E|E].
  - assert (c < 128) by (Z.div_mod_to_equations; lia).
    rewrite Z.mod_small, fat_head_entries by lia.
    rewrite (proj2 (Z.eqb_neq c 0)), (proj2 (Z.eqb_neq c 1)) by lia. by destruct (c =? 2).
  - rewrite zero_block_field. rewrite (proj2 (Z.eqb_neq c 2)); [done|]. by intros ->.
Qed.

Lemma formatted_root_zero d n f size spc fat label :
  disk_is d n (formatted f size spc fat label) -> 0 <= fat -> 0 <= spc -> 32 + 2 * fat + spc <= n ->
  cl (formatted_fs size spc fat) d 2 = replicate (Z.to_nat (512 * spc)) 0.
Proof.
  intros Hd Hf Hp Hn. unfold cl, cl_lba.
  cbn [formatted_fs data_start_lba sectors_per_cluster]. rewrite Z.mul_0_l, Z.add_0_r.
  rewrite (list_fmap_ext _ (fun _ => zero_block) (seqZ (32 + 2 * fat) spc)).
  - rewrite <- (Nat2Z.id (Z.to_nat (512 * spc))), Z2Nat.id by lia.
    unfold seqZ. rewrite <- list_fmap_compose.
    replace (Z.to_nat (512 * spc)) with (Z.to_nat spc * 512)%nat by lia.
    generalize (Z.to_nat spc) as k. intros k. generalize 0%nat at 1 as i.
    induction k as [|k IH]; intros i; [done|].
    cbn [seq fmap list_fmap concat]. rewrite IH. unfold compose, zero_block.
    rewrite <- replicate_add. done.
  - intros i x Hx. apply lookup_seqZ in Hx as [-> Hi].
    rewrite (di_blocks _ _ _ Hd) by lia. apply formatted_root. lia.
Qed.

(** C9.  mkfs, then open: formatting the first [size] blocks of a disk below
    16 GiB succeeds when the volume has the 65525 clusters FAT32 asks for, and
    [canboot_fat32_open] then finds a consistent volume with the geometry that
    was chosen, whose root directory is one empty cluster and whose other
    clusters are all free. *)
Theorem format_then_open d size label :
  bd_inv d -> bd_writable d = true -> bd_block_size d = 512 ->
  size <= bd_block_count d < 2 ^ 63 -> size < 33554432 ->
  let spc := pick_spc size in let fat := fit_fat 32 size spc 32 in
  spc <> 0 -> 65525 <= data_clusters size spc fat ->
  exists d' fs, canboot_fat32_format 0 size label d = (OK tt, d') /\
    canboot_fat32_open d' = (OK fs, d') /\ vol_ok fs d' /\
    sectors_per_cluster fs = spc /\ sectors_per_fat fs = fat /\
    total_clusters fs = data_clusters size spc fat /\
    is_chain fs (nxt fs d') (root_cluster fs) [root_cluster fs] /\
    (forall c, valid fs c -> c <> root_cluster fs -> nxt fs d' c = 0) /\
    (forall t (fuel : nat), enough fs fuel -> dir_find fuel fs (root_cluster fs) t d' = (OK None, d')).
Proof.
  intros Hi Hw Hs Hn Hsz spc fat Hspc Hcl. set (n := bd_block_count d) in *.
  assert (Hd : disk_is d n (bd_blk d)) by done.
  assert (Hlow : 16384 <= size).
  { unfold spc, pick_spc in Hspc. destruct (Z.ltb_spec size 16384); [done|lia]. }
  assert (Hp : 1 <= spc <= 16).
  { unfold spc, pick_spc in *.
    repeat match goal with |- context [if ?a <? ?b then _ else _] =>
      destruct (Z.ltb_spec a b) end; lia. }
  destruct (fit_fat_enough size spc) as (Hf1 & Hf2 & Hf3); [lia|lia|]. fold fat in Hf1, Hf2, Hf3.
  specialize (Hf3 Hcl).
  destruct (format_run d n _ size label Hd) as (d' & Hr & Hd'); [lia|lia|done|done|].
  fold spc in Hd'. fold fat in Hd'. exists d', (formatted_fs size spc fat). split; [done|]. split.
  { eapply (open_boot_run d' n _ 0 size spc fat label Hd'); try lia. apply formatted_boot; lia. }
  assert (V : vol_ok (formatted_fs size spc fat) d')
    by (apply (formatted_vol_ok d' n _ size spc fat Hd'); lia).
  assert (Hv2 : valid (formatted_fs size spc fat) 2) 
    by (unfold valid, formatted_fs; cbn [total_clusters]; lia).
  assert (Hroot : is_chain (formatted_fs size spc fat) (nxt (formatted_fs size spc fat) d') 2 [2]).
  { split; [done|]. split; [done|]. cbn [is_chain].
    rewrite (formatted_nxt d' n _ size spc fat label 2 Hd' V) by (done || lia). done. }
  do 4 (split; [done|]). split; [exact Hroot|]. split.
  - intros c Hc Hne. rewrite (formatted_nxt d' n _ size spc fat label c Hd' V) by (done || lia).
    by rewrite (proj2 (Z.eqb_neq c 2)).
  - intros t fuel Hf.
    cbn [formatted_fs root_cluster].
    rewrite (dir_find_enough _ d' _ _ t 2 [2] fuel (vol_is_refl _ d' V) Hroot Hf).
    do 2 f_equal. rewrite find_at_zeros; [done|]. unfold dentries. cbn [fmap list_fmap concat].
    pose proof (vo_fits _ _ V) as Hfits. rewrite (di_count _ _ _ Hd') in Hfits.
    cbn [formatted_fs data_start_lba total_clusters sectors_per_cluster] in Hfits.
    rewrite app_nil_r, (formatted_root_zero d' n _ size spc fat label Hd') by nia.
    apply dents_zero. destruct (epc_bounds _ d' V) as [_ He].
    cbn [formatted_fs bytes_per_cluster] in He. lia.
Qed.
End mkfs.

(** A blank disk of 66600 blocks (32.5 MiB). *)
Definition blank_disk : ramdisk :=
  mkRam CANBOOT_DISK_KIND_AHCI 512 true (replicate (Z.to_nat 66600) zero_block).

Lemma blank_count : bd_block_count blank_disk = 66600.
Proof.
  change (bd_block_count blank_disk) with (Z.of_nat (length (rd_blocks blank_disk))).
  unfold blank_disk. cbn [rd_blocks]. rewrite length_replicate. lia.
Qed.

Lemma blank_inv : bd_inv blank_disk.
Proof.
  split; [cbn; lia|]. split.
  - change (rd_count blank_disk) with (bd_block_count blank_disk). rewrite blank_count. lia.
  - cbn [blank_disk rd_blocks rd_bs]. apply Forall_replicate. done.
Qed.

Lemma format_then_open_witness :
  exists d' fs, canboot_fat32_format 0 66600 None blank_disk = (OK tt, d') /\
    canboot_fat32_open d' = (OK fs, d') /\ vol_ok fs d' /\
    sectors_per_cluster fs = pick_spc 66600 /\
    sectors_per_fat fs = fit_fat 32 66600 (pick_spc 66600) 32 /\
    total_clusters fs = data_clusters 66600 (pick_spc 66600) (fit_fat 32 66600 (pick_spc 66600) 32) /\
    is_chain fs (nxt fs d') (root_cluster fs) [root_cluster fs] /\
    (forall c, valid fs c -> c <> root_cluster fs -> nxt fs d' c = 0) /\
    (forall t (fuel : nat), enough fs fuel -> dir_find fuel fs (root_cluster fs) t d' = (OK None, d')).
Proof.
  apply (format_then_open blank_disk 66600 None);
    [exact blank_inv|reflexivity|reflexivity|rewrite blank_count; lia|lia
    |vm_compute; discriminate|vm_compute; discriminate].
Defined.

(** From 16 GiB on, [pick_spc] chooses 32 or 64 sectors per cluster:
    clusters of 16 or 32 KiB, which the directory code of the same driver
    refuses, so that no lookup on such a volume can succeed. *)
Theorem large_format_unreadable {D} `{BlockDevice D} size fs (d : D) (fuel : nat) c t :
  33554432 <= size -> sectors_per_cluster fs = pick_spc size -> bytes_per_sector fs = 512 ->
  bytes_per_cluster fs = u32 (bytes_per_sector fs * sectors_per_cluster fs) ->
  dir_find fuel fs c t d = (ERR, d).
Proof.
  intros Hs Hp Hb Hc. unfold dir_find. rewrite Hc, Hb, Hp. unfold pick_spc.
  destruct (Z.ltb_spec size 16384); [lia|]. destruct (Z.ltb_spec size 532480); [lia|].
  destruct (Z.ltb_spec size 16777216); [lia|]. destruct (Z.ltb_spec size 33554432); [lia|].
  by destruct (size <? 67108864).
Qed.

Lemma large_format_unreadable_witness :
  dir_find 5 (mkFs 512 32 16384 32 2 8160 2 32 16352 1048000) 2 (to_83 (str "a")) blank_disk
    = (ERR, blank_disk).
Proof.
  apply (large_format_unreadable 33554432); [lia|vm_compute; reflexivity..].
Defined.
