(* ===== verification/Spinlock.v ===== *)
(** * The ticket spinlock of [rt/sync/include/sync/spinlock.h]

    The lock words are 32-bit counters that wrap.  Threads run the bodies of
    [spin_lock], [spin_trylock] and [spin_unlock] one atomic access at a time,
    interleaved in any order.  The abstract lock is the queue of the threads
    that asked for it: only its head may hold the lock. *)
From S2P Require Import Prelude.

(** ** The code *)
Record spinlock_t : Type := mkLock { next : Z; owner : Z }.

Definition SPINLOCK_INITIALIZER : spinlock_t := mkLock 0 0.
Definition spin_init (l : spinlock_t) : spinlock_t := mkLock 0 0.

(** [__atomic_fetch_add(&l->next, 1)]: the ticket and the new lock words. *)
Definition take_ticket (l : spinlock_t) : Z * spinlock_t :=
  (next l, mkLock (u32 (next l + 1)) (owner l)).

(** The loop test of [spin_lock]: [true] leaves the loop. *)
Definition served (l : spinlock_t) (ticket : Z) : bool := owner l =? ticket.

(** The compare-exchange of [spin_trylock]. *)
Definition cas_next (l : spinlock_t) (expect : Z) : bool * spinlock_t :=
  if next l =? expect then (true, mkLock (u32 (expect + 1)) (owner l)) else (false, l).

Definition spin_unlock (l : spinlock_t) : spinlock_t := mkLock (next l) (u32 (owner l + 1)).

(** Where a thread is; [rel] remembers the number of releases at the load. *)
Inductive pc : Type :=
| Out                                (* outside the lock code *)
| Spinning (ticket : Z)              (* in the loop of [spin_lock] *)
| TryOwner (o : Z) (rel : Z)         (* [spin_trylock] after loading [owner] *)
| TryNext (n : Z) (rel : Z)          (* after loading [next], equal to [owner] *)
| Holding.                           (* past the lock *)

(** The lock and the threads that use it.  [taken] and [released] count the
    tickets handed out and the releases; the code does not see them. *)
Record machine : Type := mkMachine { lk : spinlock_t; pcs : list pc; taken : Z; released : Z }.

Inductive step : machine -> machine -> Prop :=
| step_take l ps k r i ticket l' :
    ps !! i = Some Out -> take_ticket l = (ticket, l') ->
    step (mkMachine l ps k r) (mkMachine l' (<[i := Spinning ticket]> ps) (k + 1) r)
| step_enter l ps k r i ticket :
    ps !! i = Some (Spinning ticket) -> served l ticket = true ->
    step (mkMachine l ps k r) (mkMachine l (<[i := Holding]> ps) k r)
| step_spin l ps k r i ticket :
    ps !! i = Some (Spinning ticket) -> served l ticket = false ->
    step (mkMachine l ps k r) (mkMachine l ps k r)
| step_try_owner l ps k r i :
    ps !! i = Some Out ->
    step (mkMachine l ps k r) (mkMachine l (<[i := TryOwner (owner l) r]> ps) k r)
| step_try_busy l ps k r i o a :
    ps !! i = Some (TryOwner o a) -> o <> next l ->
    step (mkMachine l ps k r) (mkMachine l (<[i := Out]> ps) k r)
| step_try_next l ps k r i o a :
    ps !! i = Some (TryOwner o a) -> o = next l ->
    step (mkMachine l ps k r) (mkMachine l (<[i := TryNext o a]> ps) k r)
| step_try_won l ps k r i n a l' :
    (* fewer than 2^32 tickets since the load of [owner] *)
    ps !! i = Some (TryNext n a) -> k - a < 2 ^ 32 -> cas_next l n = (true, l') ->
    step (mkMachine l ps k r) (mkMachine l' (<[i := Holding]> ps) (k + 1) r)
| step_try_lost l ps k r i n a :
    ps !! i = Some (TryNext n a) -> cas_next l n = (false, l) ->
    step (mkMachine l ps k r) (mkMachine l (<[i := Out]> ps) k r)
| step_unlock l ps k r i :
    ps !! i = Some Holding ->
    step (mkMachine l ps k r) (mkMachine (spin_unlock l) (<[i := Out]> ps) k (r + 1)).

Definition initial (n : nat) : machine :=
  mkMachine (spin_init SPINLOCK_INITIALIZER) (replicate n Out) 0 0.

Inductive reachable (n : nat) : machine -> Prop :=
| reach_init : reachable n (initial n)
| reach_step m m' : reachable n m -> step m m' -> reachable n m'.

(** ** The queue *)
(** The threads that asked for the lock, in order; whether its head has entered. *)
Record qlock : Type := mkQ { waiters : list nat; entered : bool }.

Inductive qstep : qlock -> qlock -> Prop :=
| q_skip q : qstep q q
| q_ask q h i : i ∉ q -> qstep (mkQ q h) (mkQ (q ++ [i]) h)
| q_enter i q : qstep (mkQ (i :: q) false) (mkQ (i :: q) true)
| q_ask_enter i : qstep (mkQ [] false) (mkQ [i] true)
| q_leave i q : qstep (mkQ (i :: q) true) (mkQ q false).

(** What the thread at position [j] of the queue is doing after [o] releases:
    it holds the ticket [o + j], and has entered when it is the entered head. *)
Definition queued (o : Z) (h : bool) (j : nat) : pc :=
  if h && (j =? 0)%nat then Holding else Spinning (u32 (o + Z.of_nat j)).

(** What a thread that is not in the queue may be doing. *)
Definition unqueued (o : Z) (p : pc) : Prop :=
  match p with
  | Out => True
  | TryOwner w a | TryNext w a => w = u32 a /\ 0 <= a <= o
  | _ => False
  end.

Record refines (n : nat) (m : machine) (q : qlock) : Prop := {
  rf_len : length (pcs m) = n;
  rf_next : next (lk m) = u32 (taken m);
  rf_owner : owner (lk m) = u32 (released m);
  rf_count : taken m = released m + Z.of_nat (length (waiters q));
  rf_released : 0 <= released m;
  rf_nodup : NoDup (waiters q);
  rf_queued j i : waiters q !! j = Some i -> pcs m !! i = Some (queued (released m) (entered q) j);
  rf_out i p : pcs m !! i = Some p -> i ∉ waiters q -> unqueued (released m) p;
  rf_entered : entered q = true -> waiters q <> [];
}.

(** Fewer threads wait than there are. *)
Lemma queue_short n m q : refines n m q -> (length (waiters q) <= n)%nat.
Proof.
  intros R. transitivity (length (seq 0 n)); [|by rewrite length_seq].
  apply submseteq_length, NoDup_submseteq; [apply R|]. intros i Hi.
  apply list_elem_of_lookup in Hi as [j Hj]. apply (rf_queued _ _ _ R) in Hj.
  apply lookup_lt_Some in Hj. rewrite (rf_len _ _ _ R) in Hj. apply elem_of_seq. lia.
Qed.

(** Tickets of threads that wait at the same time do not collide. *)
Lemma u32_inj_window a b : 0 <= b - a < 2 ^ 32 -> u32 a = u32 b -> a = b.
Proof.
  unfold u32. intros Hw E. pose proof (Z.div_mod a (2 ^ 32) ltac:(lia)).
  pose proof (Z.div_mod b (2 ^ 32) ltac:(lia)). nia.
Qed.

(** A thread outside the queue changes what it is doing. *)
Lemma refines_unqueued n l ps k r q i p p' :
  refines n (mkMachine l ps k r) q -> ps !! i = Some p -> i ∉ waiters q ->
  unqueued r p' -> refines n (mkMachine l (<[i := p']> ps) k r) q.
Proof.
  intros [Hlen Hn Ho Hc Hr Hnd Hq Hout He] Hi Hin Hp. cbn in *.
  split; cbn; auto; [by rewrite length_insert| |].
  - intros j i' Hj. rewrite list_lookup_insert_ne; [auto|]. intros ->.
    by apply list_elem_of_lookup_2 in Hj.
  - intros i' p0 Hi' Hin'. apply list_lookup_insert_Some in Hi' as [(-> & -> & _)|[_ Hi']]; eauto.
Qed.

(** A thread that runs [Spinning] or [Holding] is in the queue. *)
Lemma in_queue n m q i p : refines n m q -> pcs m !! i = Some p -> ~ unqueued (released m) p ->
  exists j, waiters q !! j = Some i /\ p = queued (released m) (entered q) j.
Proof.
  intros R Hi Hp. destruct (decide (i ∈ waiters q)) as [Hin|Hin].
  - apply list_elem_of_lookup in Hin as [j Hj]. exists j. split; [done|].
    apply (rf_queued _ _ _ R) in Hj. congruence.
  - exfalso. apply Hp. by eapply rf_out.
Qed.

(** A new ticket at the end of the queue. *)
Lemma refines_ask n l ps k r q h i p :
  refines n (mkMachine l ps k r) (mkQ q h) -> ps !! i = Some p -> i ∉ q ->
  (h = true -> q <> []) ->
  refines n (mkMachine (mkLock (u32 (next l + 1)) (owner l)) (<[i := Spinning (next l)]> ps) (k + 1) r)
    (mkQ (q ++ [i]) h).
Proof.
  intros [Hlen Hn Ho Hc Hr Hnd Hq Hout He] Hi Hin Hh. cbn in *.
  split; cbn; auto.
  - by rewrite length_insert.
  - rewrite Hn. unfold u32. apply Zplus_mod_idemp_l.
  - rewrite length_app. cbn. lia.
  - apply NoDup_app. repeat split; [done| |apply NoDup_singleton]. set_solver.
  - intros j i' Hj. apply lookup_app_Some in Hj as [Hj|[Hj1 Hj]].
    + rewrite list_lookup_insert_ne; [auto|]. intros ->. by apply list_elem_of_lookup_2 in Hj.
    + apply list_lookup_singleton_Some in Hj as [Hj <-].
      rewrite list_lookup_insert_eq by (by eapply lookup_lt_Some). f_equal. unfold queued.
      replace j with (length q) by lia. rewrite Hn, Hc.
      destruct h; [|done]. destruct q; [by destruct Hh|]. done.
  - intros i' p' Hi' Hin'. apply list_lookup_insert_Some in Hi' as [(-> & <- & _)|[_ Hi']].
    + exfalso. apply Hin'. set_solver.
    + eapply Hout; [done|]. set_solver.
  - intros _. by destruct q.
Qed.

(** The head of the queue leaves. *)
Lemma refines_leave n l ps k r i q :
  refines n (mkMachine l ps k r) (mkQ (i :: q) true) ->
  refines n (mkMachine (spin_unlock l) (<[i := Out]> ps) k (r + 1)) (mkQ q false).
Proof.
  intros [Hlen Hn Ho Hc Hr Hnd Hq Hout He]. cbn in *. apply NoDup_cons in Hnd as [Hi Hnd].
  split; cbn; auto.
  - by rewrite length_insert.
  - rewrite Ho. unfold u32. apply Zplus_mod_idemp_l.
  - lia.
  - lia.
  - intros j i' Hj. rewrite list_lookup_insert_ne.
    + rewrite (Hq (S j) i' Hj). f_equal. unfold queued. cbn [andb Nat.eqb].
      f_equal. f_equal. lia.
    + intros ->. by apply list_elem_of_lookup_2 in Hj.
  - intros i' p Hi' Hin. apply list_lookup_insert_Some in Hi' as [(-> & <- & _)|[Hne Hi']]; [done|].
    assert (Hu : unqueued r p) by (eapply Hout; [done|set_solver]).
    destruct p; cbn in *; intuition lia.
Qed.

(** The head of the queue enters. *)
Lemma refines_enter n l ps k r i q :
  refines n (mkMachine l ps k r) (mkQ (i :: q) false) ->
  refines n (mkMachine l (<[i := Holding]> ps) k r) (mkQ (i :: q) true).
Proof.
  intros [Hlen Hn Ho Hc Hr Hnd Hq Hout He]. cbn in *. apply NoDup_cons in Hnd as [Hi Hnd].
  pose proof (Hq 0%nat i eq_refl) as H0. split; cbn; auto.
  - by rewrite length_insert.
  - by constructor.
  - intros [|j] i' Hj; cbn in Hj.
    + simplify_eq. by rewrite list_lookup_insert_eq by (by eapply lookup_lt_Some).
    + rewrite list_lookup_insert_ne; [by rewrite (Hq (S j) i' Hj)|].
      intros ->. by apply list_elem_of_lookup_2 in Hj.
  - intros i' p Hi' Hin. apply list_lookup_insert_Some in Hi' as [(-> & <- & _)|[Hne Hi']]; [|eauto].
    exfalso. apply Hin. left.
Qed.

(** Threads outside the lock code, and in [spin_trylock], are not in the queue. *)
Lemma not_queued n m q i p : refines n m q -> pcs m !! i = Some p ->
  match p with Out | TryOwner _ _ | TryNext _ _ => True | _ => False end ->
  (i ∉ waiters q) /\ unqueued (released m) p.
Proof.
  intros R Hi Hp. assert (Hin : i ∉ waiters q); [|split; [done|by eapply rf_out]].
  intros Hin. apply list_elem_of_lookup in Hin as [j Hj].
  pose proof (rf_queued _ _ _ R j i Hj) as Hq. rewrite Hi in Hq. simplify_eq.
  unfold queued in Hp. by destruct (_ && _).
Qed.

(** Every step of the code is a step of the queue. *)
Lemma step_refines n m m' q :
  Z.of_nat n < 2 ^ 32 -> step m m' -> refines n m q -> exists q', qstep q q' /\ refines n m' q'.
Proof.
  intros Hn Hs R. destruct q as [q h]. pose proof (queue_short _ _ _ R) as Hlen. cbn in Hlen.
  pose proof (rf_owner _ _ _ R) as Ho. pose proof (rf_next _ _ _ R) as Hnx.
  pose proof (rf_count _ _ _ R) as Hc. pose proof (rf_entered _ _ _ R) as He.
  destruct Hs as [l ps k r i ticket l' Hi Ht|l ps k r i ticket Hi Hserved|l ps k r i ticket Hi Hserved
    |l ps k r i Hi|l ps k r i o a Hi Hne|l ps k r i o a Hi Heq|l ps k r i w a l' Hi Hw Hcas
    |l ps k r i w a Hi Hcas|l ps k r i Hi]; cbn in *.
  - destruct (not_queued _ _ _ i Out R Hi I) as [Hin _].
    unfold take_ticket in Ht. simplify_eq. exists (mkQ (q ++ [i]) h).
    split; [by constructor|]. by eapply refines_ask.
  - destruct (in_queue _ _ _ _ _ R Hi) as (j & Hj & Hp); [by intros []|]. cbn in *.
    unfold served in Hserved. apply Z.eqb_eq in Hserved. unfold queued in Hp.
    destruct (h && _) eqn:Hh; [done|]. simplify_eq.
    assert (j < length q)%nat by (by eapply lookup_lt_Some).
    assert (r = r + Z.of_nat j) by (apply u32_inj_window; [lia|congruence]).
    assert (j = 0%nat) as -> by lia. rewrite andb_true_r in Hh. subst h.
    destruct q as [|i' q]; [done|]. cbn in Hj. simplify_eq.
    exists (mkQ (i :: q) true). split; [constructor|]. by apply refines_enter.
  - exists (mkQ q h). split; [constructor|done].
  - destruct (not_queued _ _ _ i Out R Hi I) as [Hin _]. exists (mkQ q h). split; [constructor|].
    eapply refines_unqueued; [done|done|done|].
    cbn. pose proof (rf_released _ _ _ R). cbn in *. split; [done|lia].
  - destruct (not_queued _ _ _ i (TryOwner o a) R Hi I) as [Hin _]. exists (mkQ q h).
    split; [constructor|]. by eapply refines_unqueued.
  - destruct (not_queued _ _ _ i (TryOwner o a) R Hi I) as [Hin Hu]. exists (mkQ q h).
    split; [constructor|]. by eapply refines_unqueued.
  - destruct (not_queued _ _ _ i (TryNext w a) R Hi I) as [Hin [-> Ha]]. cbn in *.
    unfold cas_next in Hcas. destruct (Z.eqb_spec (next l) (u32 a)) as [E|]; [|done].
    injection Hcas as <-.
    assert (a = k) by (apply u32_inj_window; [lia|congruence]).
    assert (q = []) as -> by (destruct q; [done|cbn in *; lia]).
    destruct h; [by destruct He|]. exists (mkQ [i] true). split; [constructor|].
    pose proof (refines_ask n l ps k r [] false i _ R Hi Hin ltac:(done)) as Ra.
    apply refines_enter in Ra. cbn [app] in Ra. rewrite list_insert_insert_eq in Ra.
    by rewrite <- E.
  - destruct (not_queued _ _ _ i (TryNext w a) R Hi I) as [Hin _]. exists (mkQ q h).
    split; [constructor|]. by eapply refines_unqueued.
  - destruct (in_queue _ _ _ _ _ R Hi) as (j & Hj & Hp); [by intros []|]. cbn in *.
    unfold queued in Hp. destruct (h && _) eqn:Hh; [|done].
    apply andb_true_iff in Hh as [-> Hj0%Nat.eqb_eq]. subst j.
    destruct q as [|i' q]; [done|]. cbn in Hj. simplify_eq.
    exists (mkQ q false). split; [constructor|]. by apply refines_leave.
Qed.

Lemma initial_refines n : refines n (initial n) (mkQ [] false).
Proof.
  split; cbn; try done; [apply length_replicate|constructor|].
  intros i p Hi _. apply lookup_replicate in Hi as [-> _]. done.
Qed.

Lemma reachable_refines n m : Z.of_nat n < 2 ^ 32 -> reachable n m -> exists q, refines n m q.
Proof.
  intros Hn. induction 1 as [|m m' _ [q R] Hs]; [eexists; apply initial_refines|].
  destruct (step_refines n m m' q Hn Hs R) as (q' & _ & R'). eauto.
Qed.

Lemma holder_unique n m i j :
  Z.of_nat n < 2 ^ 32 -> reachable n m ->
  pcs m !! i = Some Holding -> i <> j -> pcs m !! j <> Some Holding.
Proof.
  intros Hn Hm Hi Hne Hj. destruct (reachable_refines n m Hn Hm) as [q R].
  destruct (in_queue _ _ _ _ _ R Hi) as (a & Ha & Hpa); [by intros []|].
  destruct (in_queue _ _ _ _ _ R Hj) as (b & Hb & Hpb); [by intros []|].
  unfold queued in *. destruct (entered q && (a =? 0)%nat) eqn:Ea; [|done].
  destruct (entered q && (b =? 0)%nat) eqn:Eb; [|done].
  apply andb_true_iff in Ea as [_ Ea%Nat.eqb_eq], Eb as [_ Eb%Nat.eqb_eq]. congruence.
Qed.



(** Two threads: the first takes the lock, the second waits. *)
Definition two_threads : machine := mkMachine (mkLock 2 0) [Holding; Spinning 1] 2 0.

Lemma two_threads_reachable : reachable 2 two_threads.
Proof.
  eapply (reach_step 2 (mkMachine (mkLock 2 0) [Spinning 0; Spinning 1] 2 0)).
  - eapply (reach_step 2 (mkMachine (mkLock 1 0) [Spinning 0; Out] 1 0)).
    + eapply (reach_step 2 (initial 2)); [constructor|].
      by apply (step_take (mkLock 0 0) [Out; Out] 0 0 0 0 (mkLock 1 0)).
    + by apply (step_take (mkLock 1 0) [Spinning 0; Out] 1 0 1 1 (mkLock 2 0)).
  - by apply (step_enter (mkLock 2 0) [Spinning 0; Spinning 1] 2 0 0 0).
Qed.


