(* ===== verification/Sched.v ===== *)
(** * The thread scheduler, [rt/sched/sched.c]

    Threads are referred to by the index of their slot: [i >= 0] is
    [&g_threads[i]] and [-1 - c] is [&g_idle[c]].  Every operation runs with
    the global lock [g_sched] held, so it is one transition on the scheduler
    state; the functions take the calling CPU [c] ([this_cpu()]) first.  A
    routine that parks the caller in a loop is given by one round of that
    loop: the round ends when the caller is switched out. *)
From stdpp Require Import functions.
From S2P Require Import Prelude.

Definition CANBOOT_THREAD_POOL : Z := 16.
Definition CANBOOT_THREAD_STACK : Z := 256 * 1024.
Definition CANBOOT_IDLE_STACK : Z := 8 * 1024.
Definition CANBOOT_NR_CPUS : Z := 8.

Inductive canboot_thread_state : Type :=
| CANBOOT_TH_FREE
| CANBOOT_TH_NEW
| CANBOOT_TH_RUNNABLE
| CANBOOT_TH_RUNNING
| CANBOOT_TH_BLOCKED
| CANBOOT_TH_EXITED.

#[export] Instance thread_state_eq : EqDecision canboot_thread_state.
Proof. solve_decision. Defined.

(** Queues are linked through the [q_next] field of the threads. *)
Record canboot_wait_queue : Type := mkWq { wq_head : option Z; wq_tail : option Z }.
Definition CANBOOT_WAIT_QUEUE_INITIALIZER : canboot_wait_queue := mkWq None None.

Record canboot_thread : Type := mkThread {
  state : canboot_thread_state;
  entry : Z;
  arg : Z;
  retval : Z;
  id : Z;
  detached : bool;
  q_next : option Z;
  join_q : canboot_wait_queue;
  cpu : option Z;
  stack : option Z;         (* the slot whose stack it owns *)
  stack_size : Z;
  tls_base : option Z;      (* the slot whose TLS block it uses *)
}.

(** [memset(t, 0, sizeof( *t))]. *)
Definition zero_thread : canboot_thread :=
  mkThread CANBOOT_TH_FREE 0 0 0 0 false None CANBOOT_WAIT_QUEUE_INITIALIZER None None 0 None.

Record canboot_cpu : Type := mkCpu {
  current : Z;
  idle : Z;
  preempt_count : Z;
  need_resched : bool;
  cpu_id : Z;
  online : bool;
  fs_base : option Z;       (* the thread pointer register *)
}.

(** A null thread pointer: no slot has this index. *)
Definition NULL_THREAD : Z := -1 - CANBOOT_NR_CPUS.
Definition zero_cpu : canboot_cpu := mkCpu NULL_THREAD NULL_THREAD 0 false 0 false None.

(** The wait queues of the system: of a thread's joiners, of the VM lock, and
    those embedded in mutexes, condition variables and once controls. *)
Inductive wqref : Type :=
| JoinQ (t : Z)
| GilQ
| ObjQ (o : Z).

#[export] Instance wqref_eq : EqDecision wqref.
Proof. solve_decision. Defined.

Record sched : Type := mkSched {
  g_threads : Z -> canboot_thread;
  g_runq : canboot_wait_queue;
  canboot_cpus : Z -> canboot_cpu;
  g_gil_wq : canboot_wait_queue;
  g_gil_owner : option Z;
  g_gil_locked : bool;
  obj_q : Z -> canboot_wait_queue;
  g_preempt_enabled : bool;
  g_irqs_armed : bool;
  g_ticks : Z;
}.

(** ** Field updates *)
Definition set_threads (f : Z -> canboot_thread) (s : sched) : sched :=
  mkSched f (g_runq s) (canboot_cpus s) (g_gil_wq s) (g_gil_owner s) (g_gil_locked s) (obj_q s)
    (g_preempt_enabled s) (g_irqs_armed s) (g_ticks s).
Definition set_runq (q : canboot_wait_queue) (s : sched) : sched :=
  mkSched (g_threads s) q (canboot_cpus s) (g_gil_wq s) (g_gil_owner s) (g_gil_locked s) (obj_q s)
    (g_preempt_enabled s) (g_irqs_armed s) (g_ticks s).
Definition set_cpus (f : Z -> canboot_cpu) (s : sched) : sched :=
  mkSched (g_threads s) (g_runq s) f (g_gil_wq s) (g_gil_owner s) (g_gil_locked s) (obj_q s)
    (g_preempt_enabled s) (g_irqs_armed s) (g_ticks s).
Definition set_gil (locked : bool) (owner : option Z) (s : sched) : sched :=
  mkSched (g_threads s) (g_runq s) (canboot_cpus s) (g_gil_wq s) owner locked (obj_q s)
    (g_preempt_enabled s) (g_irqs_armed s) (g_ticks s).
Definition set_gates (enabled armed : bool) (ticks : Z) (s : sched) : sched :=
  mkSched (g_threads s) (g_runq s) (canboot_cpus s) (g_gil_wq s) (g_gil_owner s) (g_gil_locked s)
    (obj_q s) enabled armed ticks.

Definition with_state (st : canboot_thread_state) (t : canboot_thread) : canboot_thread :=
  mkThread st (entry t) (arg t) (retval t) (id t) (detached t) (q_next t) (join_q t) (cpu t)
    (stack t) (stack_size t) (tls_base t).
Definition with_next (n : option Z) (t : canboot_thread) : canboot_thread :=
  mkThread (state t) (entry t) (arg t) (retval t) (id t) (detached t) n (join_q t) (cpu t)
    (stack t) (stack_size t) (tls_base t).
Definition with_cpu (c : option Z) (t : canboot_thread) : canboot_thread :=
  mkThread (state t) (entry t) (arg t) (retval t) (id t) (detached t) (q_next t) (join_q t) c
    (stack t) (stack_size t) (tls_base t).
Definition with_retval (r : Z) (t : canboot_thread) : canboot_thread :=
  mkThread (state t) (entry t) (arg t) r (id t) (detached t) (q_next t) (join_q t) (cpu t)
    (stack t) (stack_size t) (tls_base t).
Definition with_detached (b : bool) (t : canboot_thread) : canboot_thread :=
  mkThread (state t) (entry t) (arg t) (retval t) (id t) b (q_next t) (join_q t) (cpu t)
    (stack t) (stack_size t) (tls_base t).
Definition with_join_q (q : canboot_wait_queue) (t : canboot_thread) : canboot_thread :=
  mkThread (state t) (entry t) (arg t) (retval t) (id t) (detached t) (q_next t) q (cpu t)
    (stack t) (stack_size t) (tls_base t).

(** [t->field = v]. *)
Definition upd (t : Z) (f : canboot_thread -> canboot_thread) (s : sched) : sched :=
  set_threads (<[t := f (g_threads s t)]> (g_threads s)) s.

(** The wait queue behind a pointer. *)
Definition wq_get (w : wqref) (s : sched) : canboot_wait_queue :=
  match w with
  | JoinQ t => join_q (g_threads s t)
  | GilQ => g_gil_wq s
  | ObjQ o => obj_q s o
  end.
Definition wq_set (w : wqref) (q : canboot_wait_queue) (s : sched) : sched :=
  match w with
  | JoinQ t => upd t (with_join_q q) s
  | GilQ => mkSched (g_threads s) (g_runq s) (canboot_cpus s) q (g_gil_owner s) (g_gil_locked s)
              (obj_q s) (g_preempt_enabled s) (g_irqs_armed s) (g_ticks s)
  | ObjQ o => mkSched (g_threads s) (g_runq s) (canboot_cpus s) (g_gil_wq s) (g_gil_owner s)
                (g_gil_locked s) (<[o := q]> (obj_q s)) (g_preempt_enabled s) (g_irqs_armed s)
                (g_ticks s)
  end.

(** ** Run queue and wait queues *)
Definition rq_push (t : Z) (s : sched) : sched :=
  let s := upd t (with_next None) s in
  let q := g_runq s in
  match wq_tail q with
  | Some l => set_runq (mkWq (wq_head q) (Some t)) (upd l (with_next (Some t)) s)
  | None => set_runq (mkWq (Some t) (Some t)) s
  end.

Definition rq_pop (s : sched) : option Z * sched :=
  let q := g_runq s in
  match wq_head q with
  | Some t =>
      let h := q_next (g_threads s t) in
      let q' := mkWq h (match h with None => None | Some _ => wq_tail q end) in
      (Some t, upd t (with_next None) (set_runq q' s))
  | None => (None, s)
  end.

Definition wq_push (w : wqref) (t : Z) (s : sched) : sched :=
  let s := upd t (with_next None) s in
  let q := wq_get w s in
  match wq_tail q with
  | Some l => wq_set w (mkWq (wq_head q) (Some t)) (upd l (with_next (Some t)) s)
  | None => wq_set w (mkWq (Some t) (Some t)) s
  end.

Definition wq_pop (w : wqref) (s : sched) : option Z * sched :=
  let q := wq_get w s in
  match wq_head q with
  | Some t =>
      let h := q_next (g_threads s t) in
      let q' := mkWq h (match h with None => None | Some _ => wq_tail q end) in
      (Some t, upd t (with_next None) (wq_set w q' s))
  | None => (None, s)
  end.

(** [this_cpu()->current]. *)
Definition self (c : Z) (s : sched) : Z := current (canboot_cpus s c).

(** ** The switch *)
Definition reschedule (c : Z) (s : sched) : sched :=
  let prev := self c s in
  let (popped, s) := rq_pop s in
  let next := match popped with Some t => t | None => idle (canboot_cpus s c) end in
  if next =? prev then upd next (with_state CANBOOT_TH_RUNNING) s
  else
    let s := upd next (with_state CANBOOT_TH_RUNNING) s in
    let s := upd next (with_cpu (Some c)) s in
    let cp := canboot_cpus s c in
    let fs := match tls_base (g_threads s next) with Some b => Some b | None => fs_base cp end in
    set_cpus (<[c := mkCpu next (idle cp) (preempt_count cp) (need_resched cp) (cpu_id cp)
                       (online cp) fs]> (canboot_cpus s)) s.

Definition canboot_sched_block_on (c : Z) (w : wqref) (s : sched) : sched :=
  let t := self c s in
  let s := upd t (with_state CANBOOT_TH_BLOCKED) s in
  reschedule c (wq_push w t s).

Definition canboot_sched_wake_one (w : wqref) (s : sched) : sched :=
  let (popped, s) := wq_pop w s in
  match popped with
  | Some t => rq_push t (upd t (with_state CANBOOT_TH_RUNNABLE) s)
  | None => s
  end.

(** The loop of [canboot_sched_wake_all], [fuel] rounds at most. *)
Fixpoint canboot_sched_wake_all (fuel : nat) (w : wqref) (s : sched) : option sched :=
  match wq_pop w s with
  | (None, s) => Some s
  | (Some t, s) =>
      match fuel with
      | O => None
      | S fuel' => canboot_sched_wake_all fuel' w (rq_push t (upd t (with_state CANBOOT_TH_RUNNABLE) s))
      end
  end.

(** ** The VM lock *)
(** One round of the loop of [canboot_gil_acquire]; [true] when it is taken. *)
Definition canboot_gil_acquire (c : Z) (s : sched) : bool * sched :=
  let t := self c s in
  if g_gil_locked s && negb (bool_decide (g_gil_owner s = Some t))
  then (false, canboot_sched_block_on c GilQ s)
  else (true, set_gil true (Some t) s).

Definition canboot_gil_release (s : sched) : sched :=
  canboot_sched_wake_one GilQ (set_gil false None s).

Definition canboot_gil_owned_by_current (c : Z) (s : sched) : bool :=
  g_gil_locked s && bool_decide (g_gil_owner s = Some (self c s)).

Definition canboot_sched_yield (c : Z) (s : sched) : sched :=
  let t := self c s in
  let s := if decide (state (g_threads s t) = CANBOOT_TH_RUNNING)
           then rq_push t (upd t (with_state CANBOOT_TH_RUNNABLE) s) else s in
  reschedule c s.

(** ** Lifecycle *)
Definition canboot_thread_current (c : Z) (s : sched) : Z := self c s.

Definition canboot_thread_by_id (i : Z) : option Z :=
  if (i <? 0) || (CANBOOT_THREAD_POOL <=? i) then None else Some i.

(** One round of the idle loop. *)
Definition idle_entry (c : Z) (s : sched) : sched := reschedule c s.

(** The address of [idle_entry]. *)
Definition IDLE_ENTRY : Z := -1.

(** [boot_tls] is what [tls_get_base()] returns at boot. *)
Definition canboot_sched_init (s : sched) (boot_tls : option Z) : sched :=
  let main := mkThread CANBOOT_TH_RUNNING 0 0 0 0 false None CANBOOT_WAIT_QUEUE_INITIALIZER
                (Some 0) None 0 boot_tls in
  let idle0 := mkThread CANBOOT_TH_RUNNABLE IDLE_ENTRY 0 0 (-1) false None CANBOOT_WAIT_QUEUE_INITIALIZER
                 (Some 0) (Some (-1)) CANBOOT_IDLE_STACK boot_tls in
  let cpu0 := mkCpu 0 (-1) 0 false 0 true boot_tls in
  mkSched (<[-1 := idle0]> (<[0 := main]> (fun _ => zero_thread))) (g_runq s)
    (<[0 := cpu0]> (fun _ => zero_cpu)) (g_gil_wq s) (Some 0) true (obj_q s)
    (g_preempt_enabled s) (g_irqs_armed s) (g_ticks s).

Definition canboot_sched_ap_online (c : Z) (fs : option Z) (s : sched) : sched :=
  let t := -1 - c in
  let th := g_threads s t in
  let th := mkThread CANBOOT_TH_RUNNING (entry th) (arg th) (retval th) (-1 - c) (detached th)
              (q_next th) (join_q th) (Some c) None (stack_size th) fs in
  let cp := canboot_cpus s c in
  set_cpus (<[c := mkCpu t t (preempt_count cp) (need_resched cp) c true fs]> (canboot_cpus s))
    (set_threads (<[t := th]> (g_threads s)) s).

(** The search for a free slot, from [i], [n] slots left. *)
Fixpoint find_slot (n : nat) (i : Z) (s : sched) : option Z :=
  match n with
  | O => None
  | S n' => if decide (state (g_threads s i) = CANBOOT_TH_FREE) then Some i
            else find_slot n' (i + 1) s
  end.

Definition canboot_thread_create (fn a : Z) (s : sched) : option Z * sched :=
  match find_slot (Z.to_nat (CANBOOT_THREAD_POOL - 1)) 1 s with
  | None => (None, s)
  | Some i =>
      let t := mkThread CANBOOT_TH_RUNNABLE fn a 0 i false None CANBOOT_WAIT_QUEUE_INITIALIZER None
                 (Some i) CANBOOT_THREAD_STACK (Some i) in
      (Some i, rq_push i (set_threads (<[i := t]> (g_threads s)) s))
  end.

Definition canboot_thread_detach (t : Z) (s : sched) : sched :=
  if decide (state (g_threads s t) = CANBOOT_TH_EXITED)
  then upd t (with_state CANBOOT_TH_FREE) s
  else upd t (with_detached true) s.

Definition canboot_thread_exit (fuel : nat) (c : Z) (r : Z) (s : sched) : option sched :=
  let t := self c s in
  match canboot_sched_wake_all fuel (JoinQ t) (upd t (with_retval r) s) with
  | None => None
  | Some s =>
      let th := g_threads s t in
      let st := if detached th && (0 <=? id th) then CANBOOT_TH_FREE else CANBOOT_TH_EXITED in
      Some (reschedule c (upd t (with_state st) s))
  end.

(** One round of [canboot_thread_join]: the value when the thread is finished. *)
Definition canboot_thread_join (c t : Z) (s : sched) : option Z * sched :=
  let th := g_threads s t in
  if decide (state th = CANBOOT_TH_EXITED \/ state th = CANBOOT_TH_FREE)
  then (Some (retval th),
        if 0 <=? id th then upd t (with_state CANBOOT_TH_FREE) s else s)
  else (None, canboot_sched_block_on c (JoinQ t) s).

(** ** Preemption *)
Definition canboot_sched_arm_irqs (s : sched) : sched :=
  set_gates (g_preempt_enabled s) true (g_ticks s) s.
Definition canboot_sched_set_preemption (enabled : bool) (s : sched) : sched :=
  set_gates enabled (g_irqs_armed s) (g_ticks s) s.
Definition canboot_sched_ticks (s : sched) : Z := g_ticks s.

Definition set_preempt (c : Z) (count : Z) (need : bool) (s : sched) : sched :=
  let cp := canboot_cpus s c in
  set_cpus (<[c := mkCpu (current cp) (idle cp) count need (cpu_id cp) (online cp) (fs_base cp)]>
              (canboot_cpus s)) s.

Definition canboot_preempt_disable (c : Z) (s : sched) : sched :=
  let cp := canboot_cpus s c in
  set_preempt c (u32 (preempt_count cp + 1)) (need_resched cp) s.

Definition canboot_preempt_enable (c : Z) (s : sched) : sched :=
  let cp := canboot_cpus s c in
  let count := if preempt_count cp =? 0 then 0 else preempt_count cp - 1 in
  let s := set_preempt c count (need_resched cp) s in
  if (count =? 0) && need_resched cp then canboot_sched_yield c s else s.

Definition canboot_sched_preempt (c : Z) (s : sched) : sched :=
  let cp := canboot_cpus s c in
  let t := current cp in
  let s := set_preempt c (preempt_count cp) false s in
  match wq_head (g_runq s) with
  | None => s
  | Some _ =>
      let s := if decide (state (g_threads s t) = CANBOOT_TH_RUNNING /\ t <> idle cp)
               then rq_push t (upd t (with_state CANBOOT_TH_RUNNABLE) s) else s in
      reschedule c s
  end.

Definition canboot_sched_on_tick (c : Z) (s : sched) : sched :=
  let s := set_gates (g_preempt_enabled s) (g_irqs_armed s) (u64 (g_ticks s + 1)) s in
  if negb (g_preempt_enabled s) then s
  else
    let cp := canboot_cpus s c in
    if negb (preempt_count cp =? 0) then set_preempt c (preempt_count cp) true s
    else canboot_sched_preempt c s.
