(* ===== verification/SchedInv.v ===== *)
(** * The scheduler invariant

    The intrusive queues of [rt/sched/sched.c] as lists, and the invariant
    that ties the thread states to the queues and to the CPUs: a thread is
    [RUNNABLE] exactly when it is on the run queue, [BLOCKED] exactly when it
    is on one wait queue, [RUNNING] exactly when it is the current thread of
    one CPU.  Every operation keeps it. *)
From stdpp Require Import functions.
From S2P Require Import Prelude Sched.

(** ** Linked queues *)
Fixpoint lseg (nx : Z -> option Z) (h : option Z) (l : list Z) : Prop :=
  match l with
  | [] => h = None
  | t :: l' => h = Some t /\ lseg nx (nx t) l'
  end.

Definition queue_is (nx : Z -> option Z) (q : canboot_wait_queue) (l : list Z) : Prop :=
  lseg nx (wq_head q) l /\ wq_tail q = last l.

Lemma lseg_agree nx nx' h l : (forall t, t ∈ l -> nx' t = nx t) -> lseg nx h l -> lseg nx' h l.
Proof.
  revert h. induction l as [|t l IH]; intros h Ha Hl; [done|]. destruct Hl as [-> Hl].
  split; [done|]. rewrite Ha by set_solver. apply IH; [set_solver|done].
Qed.

Lemma queue_agree nx nx' q l : (forall t, t ∈ l -> nx' t = nx t) -> queue_is nx q l -> queue_is nx' q l.
Proof. intros Ha [Hl Ht]. split; [by eapply lseg_agree|done]. Qed.

Lemma lseg_snoc nx h l x t : lseg nx h (l ++ [x]) -> t ∉ l ++ [x] -> NoDup (l ++ [x]) ->
  lseg (<[x := Some t]> (<[t := None]> nx)) h ((l ++ [x]) ++ [t]).
Proof.
  revert h. induction l as [|y l IH]; intros h Hl Ht Hnd; cbn in *.
  - destruct Hl as [-> _]. split; [done|]. rewrite fn_lookup_insert. split; [done|].
    rewrite fn_lookup_insert_ne by set_solver. by rewrite fn_lookup_insert.
  - destruct Hl as [-> Hl]. apply NoDup_cons in Hnd as [Hy Hnd]. split; [done|].
    rewrite !fn_lookup_insert_ne by set_solver. apply IH; [done|set_solver|done].
Qed.

(** ** The queues of the scheduler *)
(** [None] is the run queue. *)
Definition qref : Type := option wqref.

Definition q_get (q : qref) (s : sched) : canboot_wait_queue :=
  match q with None => g_runq s | Some w => wq_get w s end.
Definition q_set (q : qref) (v : canboot_wait_queue) (s : sched) : sched :=
  match q with None => set_runq v s | Some w => wq_set w v s end.

(** [rq_push] and [wq_push], and the two pops, are the same code. *)
Definition q_push (q : qref) (t : Z) (s : sched) : sched :=
  match q with None => rq_push t s | Some w => wq_push w t s end.
Definition q_pop (q : qref) (s : sched) : option Z * sched :=
  match q with None => rq_pop s | Some w => wq_pop w s end.

Lemma q_push_eq q t s : q_push q t s =
  let s := upd t (with_next None) s in
  match wq_tail (q_get q s) with
  | Some l => q_set q (mkWq (wq_head (q_get q s)) (Some t)) (upd l (with_next (Some t)) s)
  | None => q_set q (mkWq (Some t) (Some t)) s
  end.
Proof. by destruct q. Qed.

Lemma q_pop_eq q s : q_pop q s =
  match wq_head (q_get q s) with
  | Some t =>
      let h := q_next (g_threads s t) in
      (Some t, upd t (with_next None)
         (q_set q (mkWq h (match h with None => None | Some _ => wq_tail (q_get q s) end)) s))
  | None => (None, s)
  end.
Proof. by destruct q. Qed.

Definition nx (s : sched) (t : Z) : option Z := q_next (g_threads s t).

(** What queue operations leave alone: the CPUs, the VM lock, the gates, and
    every field of the threads but the links. *)
Definition core (t : canboot_thread) : canboot_thread :=
  with_next None (with_join_q CANBOOT_WAIT_QUEUE_INITIALIZER t).

Record same_core (s s' : sched) : Prop := {
  sc_threads t : core (g_threads s' t) = core (g_threads s t);
  sc_cpus : canboot_cpus s' = canboot_cpus s;
  sc_owner : g_gil_owner s' = g_gil_owner s;
  sc_locked : g_gil_locked s' = g_gil_locked s;
}.

#[export] Instance same_core_preorder : PreOrder same_core.
Proof.
  split; [by split|]. intros s1 s2 s3 [] []. split; intros; etrans; eauto.
Qed.

Lemma same_core_state s s' t : same_core s s' -> state (g_threads s' t) = state (g_threads s t).
Proof. intros Hc. pose proof (sc_threads _ _ Hc t) as E. by injection E. Qed.

Lemma same_core_id s s' t : same_core s s' -> id (g_threads s' t) = id (g_threads s t).
Proof. intros Hc. pose proof (sc_threads _ _ Hc t) as E. by injection E. Qed.

Lemma upd_next_core t n s : same_core s (upd t (with_next n) s).
Proof.
  split; try done. intros t'. cbn. destruct (decide (t' = t)) as [->|Hne].
  - by rewrite fn_lookup_insert.
  - by rewrite fn_lookup_insert_ne.
Qed.

Lemma q_set_core q v s : same_core s (q_set q v s).
Proof.
  destruct q as [[t| |o]|]; split; try done. intros t'. cbn.
  destruct (decide (t' = t)) as [->|Hne].
  - by rewrite fn_lookup_insert.
  - by rewrite fn_lookup_insert_ne.
Qed.

Lemma nx_upd t n s t' : nx (upd t (with_next n) s) t' = (<[t := n]> (nx s)) t'.
Proof.
  unfold nx. cbn. destruct (decide (t' = t)) as [->|Hne].
  - by rewrite !fn_lookup_insert.
  - by rewrite !fn_lookup_insert_ne.
Qed.

Lemma nx_q_set q v s t' : nx (q_set q v s) t' = nx s t'.
Proof.
  destruct q as [[t| |o]|]; try done. unfold nx. cbn. destruct (decide (t' = t)) as [->|Hne].
  - by rewrite fn_lookup_insert.
  - by rewrite fn_lookup_insert_ne.
Qed.

Lemma q_get_upd q t n s : q_get q (upd t (with_next n) s) = q_get q s.
Proof.
  destruct q as [[t'| |o]|]; try done. cbn. destruct (decide (t' = t)) as [->|Hne].
  - by rewrite fn_lookup_insert.
  - by rewrite fn_lookup_insert_ne.
Qed.

Lemma q_get_set_eq q v s : q_get q (q_set q v s) = v.
Proof. destruct q as [[t'| |o]|]; cbn; try done; by rewrite fn_lookup_insert. Qed.

Lemma q_get_set_ne q q' v s : q <> q' -> q_get q' (q_set q v s) = q_get q' s.
Proof.
  intros Hne. destruct q as [[t| |o]|], q' as [[t'| |o']|]; cbn; try done.
  - rewrite fn_lookup_insert_ne by congruence. done.
  - rewrite fn_lookup_insert_ne by congruence. done.
Qed.

(** The lists behind the queues: no thread is on two of them, or twice on one. *)
Record view (s : sched) (ql : qref -> list Z) : Prop := {
  v_queue q : queue_is (nx s) (q_get q s) (ql q);
  v_nodup q : NoDup (ql q);
  v_once q q' t : t ∈ ql q -> t ∈ ql q' -> q = q';
}.

Lemma view_agree s s' ql :
  view s ql -> (forall t, nx s' t = nx s t) -> (forall q, q_get q s' = q_get q s) -> view s' ql.
Proof.
  intros [Hq Hn Ho] Hnx Hg. split; auto. intros q. rewrite Hg.
  eapply queue_agree; [|apply Hq]. auto.
Qed.

Lemma last_elem_of (l : list Z) x : last l = Some x -> x ∈ l.
Proof. intros Hl. apply last_Some in Hl as [l' ->]. set_solver. Qed.

(** A push appends to the list. *)
Lemma push_view q t s ql : view s ql -> (forall q', t ∉ ql q') ->
  view (q_push q t s) (<[q := ql q ++ [t]]> ql) /\ same_core s (q_push q t s).
Proof.
  intros [Hq Hn Ho] Ht. rewrite q_push_eq. cbv zeta. rewrite !q_get_upd.
  destruct (Hq q) as [Hl Hlast]. rewrite Hlast.
  assert (Hnd : forall q', NoDup ((<[q := ql q ++ [t]]> ql) q')).
  { intros q'. destruct (decide (q' = q)) as [->|Hne].
    - rewrite fn_lookup_insert. apply NoDup_app. split; [done|]. split; [|apply NoDup_singleton].
      intros x Hx ->%list_elem_of_singleton. by apply (Ht q).
    - by rewrite fn_lookup_insert_ne. }
  assert (Honce : forall q1 q2 x, x ∈ (<[q := ql q ++ [t]]> ql) q1 -> x ∈ (<[q := ql q ++ [t]]> ql) q2 ->
    q1 = q2).
  { assert (Hcase : forall q1 x, x ∈ (<[q := ql q ++ [t]]> ql) q1 -> x ∈ ql q1 \/ (q1 = q /\ x = t)).
    { intros q1 x Hx. destruct (decide (q1 = q)) as [->|Hne].
      - rewrite fn_lookup_insert, elem_of_app, list_elem_of_singleton in Hx. tauto.
      - rewrite fn_lookup_insert_ne in Hx by done. by left. }
    intros q1 q2 x [H1|[-> ->]]%Hcase [H2|[-> H2]]%Hcase; subst; eauto.
    - by apply Ht in H1.
    - by apply Ht in H2. }
  destruct (last (ql q)) as [x|] eqn:Hx.
  - apply last_Some in Hx as [l Hql].
    split.
    + split; auto. intros q'. destruct (decide (q' = q)) as [->|Hne].
      * rewrite fn_lookup_insert, q_get_set_eq, Hql. split; [|by rewrite last_snoc].
        cbn [wq_head]. eapply lseg_agree; [|apply (lseg_snoc (nx s)); rewrite <- Hql; auto].
        intros y _. rewrite nx_q_set, nx_upd. unfold insert, fn_insert.
        case_decide; [done|]. rewrite nx_upd. unfold insert, fn_insert. done.
      * rewrite fn_lookup_insert_ne, q_get_set_ne, !q_get_upd by done.
        eapply queue_agree; [|apply Hq]. intros y Hy. rewrite nx_q_set, !nx_upd.
        assert (y <> x) by (intros ->; apply Hne, (Ho q' q x); [done|rewrite Hql; set_solver]).
        assert (y <> t) by (intros ->; by apply (Ht q')).
        rewrite fn_lookup_insert_ne by done. rewrite nx_upd. by rewrite fn_lookup_insert_ne.
    + etrans; [apply (upd_next_core t None)|]. etrans; [apply upd_next_core|]. apply q_set_core.
  - apply last_None in Hx. split.
    + split; auto. intros q'. destruct (decide (q' = q)) as [->|Hne].
      * rewrite fn_lookup_insert, q_get_set_eq, Hx. split; [|done]. split; [done|]. cbn.
        rewrite nx_q_set, nx_upd. by rewrite fn_lookup_insert.
      * rewrite fn_lookup_insert_ne, q_get_set_ne, !q_get_upd by done.
        eapply queue_agree; [|apply Hq]. intros y Hy. rewrite nx_q_set, nx_upd.
        apply fn_lookup_insert_ne. intros ->. by apply (Ht q').
    + etrans; [apply (upd_next_core t None)|]. apply q_set_core.
Qed.

(** A pop takes the head of the list. *)
Lemma pop_view q s ql : view s ql ->
  exists s', q_pop q s = (head (ql q), s') /\ view s' (<[q := tail (ql q)]> ql) /\ same_core s s'.
Proof.
  intros [Hq Hn Ho]. rewrite q_pop_eq. destruct (Hq q) as [Hl Hlast].
  destruct (ql q) as [|t l] eqn:Hql.
  { cbn in Hl. rewrite Hl. exists s. split; [done|]. split; [|done]. split.
    - intros q'. destruct (decide (q' = q)) as [->|]; [rewrite fn_lookup_insert|rewrite fn_lookup_insert_ne by done; apply Hq].
      specialize (Hq q). by rewrite Hql in Hq.
    - intros q'. destruct (decide (q' = q)) as [->|]; [rewrite fn_lookup_insert; constructor|].
      rewrite fn_lookup_insert_ne by done. apply Hn.
    - intros q1 q2 x. unfold insert, fn_insert. repeat case_decide; cbn; set_solver. }
  destruct Hl as [Hh Hl]. rewrite Hh. cbv zeta. eexists. split; [done|].
  assert (Hndl : NoDup (t :: l)) by (rewrite <- Hql; apply Hn). apply NoDup_cons in Hndl as [Htl Hndl].
  assert (Hnot : forall q' y, q' <> q -> y ∈ ql q' -> t <> y).
  { intros q' y Hne Hy <-. apply Hne. apply (Ho q' q t); [done|]. rewrite Hql. left. }
  split.
  - split.
    + intros q'. rewrite q_get_upd. destruct (decide (q' = q)) as [->|Hne].
      * rewrite fn_lookup_insert, q_get_set_eq. cbn [tail]. split.
        -- cbn [wq_head]. eapply lseg_agree; [|exact Hl]. intros y Hy. rewrite nx_upd.
           rewrite fn_lookup_insert_ne by (intros ->; done). apply nx_q_set.
        -- cbn [wq_tail]. unfold nx in Hl. destruct l as [|y l]; [by rewrite Hl|].
           destruct Hl as [-> _]. by rewrite Hlast.
      * rewrite fn_lookup_insert_ne, q_get_set_ne by done.
        eapply queue_agree; [|apply Hq]. intros y Hy. rewrite nx_upd.
        rewrite fn_lookup_insert_ne by eauto. apply nx_q_set.
    + intros q'. destruct (decide (q' = q)) as [->|]; [by rewrite fn_lookup_insert|].
      rewrite fn_lookup_insert_ne by done. apply Hn.
    + assert (Hsub : forall q1 x, x ∈ (<[q := tail (t :: l)]> ql) q1 -> x ∈ ql q1).
      { intros q1 x. destruct (decide (q1 = q)) as [->|].
        - rewrite fn_lookup_insert, Hql. cbn. set_solver.
        - by rewrite fn_lookup_insert_ne. }
      intros q1 q2 x H1%Hsub H2%Hsub. eauto.
  - etrans; [apply q_set_core|apply upd_next_core].
Qed.

(** ** The invariant *)
Definition pool (t : Z) : Prop := 0 <= t < CANBOOT_THREAD_POOL.
Definition st_of (s : sched) (t : Z) : canboot_thread_state := state (g_threads s t).
Definition finished (st : canboot_thread_state) : Prop :=
  st = CANBOOT_TH_EXITED \/ st = CANBOOT_TH_FREE.

(** The state of the threads on a queue. *)
Definition parked (q : qref) : canboot_thread_state :=
  match q with None => CANBOOT_TH_RUNNABLE | Some _ => CANBOOT_TH_BLOCKED end.

(** CPU [c] is up, and its [current] is not being replaced. *)
Definition settled (C : option Z) (c : Z) (s : sched) : Prop :=
  0 <= c < CANBOOT_NR_CPUS /\ online (canboot_cpus s c) = true /\ C <> Some c.

(** The invariant in the middle of an operation: CPU [C] is between two
    threads, thread [x] between two places. *)
Record inv_but (C x : option Z) (s : sched) (ql : qref -> list Z) : Prop := {
  iv_view : view s ql;
  iv_in q t : t ∈ ql q -> pool t /\ x <> Some t /\ st_of s t = parked q;
  iv_parked t : pool t -> x <> Some t ->
    st_of s t = CANBOOT_TH_RUNNABLE \/ st_of s t = CANBOOT_TH_BLOCKED -> exists q, t ∈ ql q;
  iv_running t : pool t -> x <> Some t -> st_of s t = CANBOOT_TH_RUNNING ->
    exists c, settled C c s /\ self c s = t;
  iv_cur c : settled C c s ->
    self c s = -1 - c \/
    (pool (self c s) /\ x <> Some (self c s) /\ st_of s (self c s) = CANBOOT_TH_RUNNING);
  iv_idle c : 0 <= c < CANBOOT_NR_CPUS -> online (canboot_cpus s c) = true ->
    idle (canboot_cpus s c) = -1 - c;
  iv_own c c' : settled C c s -> settled C c' s -> self c s = self c' s -> c = c';
  iv_join t : pool t -> x <> Some t -> finished (st_of s t) -> ql (Some (JoinQ t)) = [];
  iv_id t : pool t -> st_of s t <> CANBOOT_TH_FREE -> id (g_threads s t) = t;
  iv_new t : pool t -> st_of s t <> CANBOOT_TH_NEW;
}.

(** Between operations. *)
Definition inv (s : sched) : Prop := exists ql, inv_but None None s ql.

(** Changes the invariant does not see. *)
Lemma inv_ext C x s s' ql :
  inv_but C x s ql ->
  (forall t, nx s' t = nx s t) -> (forall q, q_get q s' = q_get q s) ->
  (forall t, st_of s' t = st_of s t) -> (forall t, id (g_threads s' t) = id (g_threads s t)) ->
  (forall c, self c s' = self c s) ->
  (forall c, idle (canboot_cpus s' c) = idle (canboot_cpus s c)) ->
  (forall c, online (canboot_cpus s' c) = online (canboot_cpus s c)) ->
  inv_but C x s' ql.
Proof.
  intros [] Hnx Hq Hst Hid Hself Hidle Hon.
  assert (Hset : forall c, settled C c s' <-> settled C c s) by (intros; unfold settled; by rewrite Hon).
  split; intros; rewrite ?Hset, ?Hst, ?Hid, ?Hself, ?Hidle, ?Hon in *; eauto using view_agree.
  destruct (iv_running0 t) as (c & ? & ?); auto. exists c. by rewrite Hset, Hself.
Qed.

(** The thread between two places is rewritten. *)
Lemma put_inv C t s ql r :
  inv_but C (Some t) s ql -> join_q r = join_q (g_threads s t) ->
  (state r <> CANBOOT_TH_FREE -> id r = t) -> state r <> CANBOOT_TH_NEW ->
  inv_but C (Some t) (set_threads (<[t := r]> (g_threads s)) s) ql.
Proof.
  intros [] Hj Hid Hnew. set (s' := set_threads _ _).
  assert (Hth : forall u, u <> t -> g_threads s' u = g_threads s u).
  { intros u Hu. cbn. by apply fn_lookup_insert_ne. }
  assert (Ht : g_threads s' t = r) by (cbn; by rewrite fn_lookup_insert).
  assert (Hst : forall u, Some t <> Some u -> st_of s' u = st_of s u).
  { intros u Hu. unfold st_of. rewrite Hth; congruence. }
  split; auto.
  - destruct iv_view0 as [Hq Hn Ho]. split; auto. intros q.
    assert (q_get q s' = q_get q s) as ->.
    { destruct q as [[u| |o]|]; try done. cbn [q_get wq_get].
      destruct (decide (u = t)) as [->|]; [by rewrite Ht|by rewrite Hth]. }
    eapply queue_agree; [|apply Hq]. intros u Hu. unfold nx. rewrite Hth; [done|].
    intros ->. by apply iv_in0 in Hu as (_ & ? & _).
  - intros q u Hu. destruct (iv_in0 q u Hu) as (? & ? & ?). rewrite Hst; auto.
  - intros u ? ?. rewrite Hst by done. auto.
  - intros u ? ?. rewrite Hst by done. auto.
  - intros c Hc. destruct (iv_cur0 c Hc) as [|(? & ? & ?)]; [by left|right].
    unfold self in *. cbn [canboot_cpus set_threads s']. rewrite Hst by done. auto.
  - intros u ? ?. rewrite Hst by done. auto.
  - intros u Hp. unfold st_of. destruct (decide (u = t)) as [->|]; [by rewrite Ht|].
    rewrite Hth by done. by apply iv_id0.
  - intros u Hp. unfold st_of. destruct (decide (u = t)) as [->|]; [by rewrite Ht|].
    rewrite Hth by done. by apply iv_new0.
Qed.

(** The thread between two places is parked on a queue. *)
Lemma park_inv C t q s ql :
  inv_but C (Some t) s ql -> pool t -> st_of s t = parked q ->
  (forall u, q = Some (JoinQ u) -> ~ finished (st_of s u)) ->
  inv_but C None (q_push q t s) (<[q := ql q ++ [t]]> ql).
Proof.
  intros [] Hp Hst Hj.
  assert (Hout : forall q', t ∉ ql q') by (intros q' Hin; apply iv_in0 in Hin as (_ & ? & _); done).
  destruct (push_view q t s ql iv_view0 Hout) as [Hv Hc].
  assert (HS : forall u, st_of (q_push q t s) u = st_of s u) by (intros; by apply same_core_state).
  assert (HI : forall u, id (g_threads (q_push q t s) u) = id (g_threads s u))
    by (intros; by apply same_core_id).
  assert (HC := sc_cpus _ _ Hc).
  split; unfold settled, self in *; rewrite ?HC; auto.
  - intros q' u. rewrite HS. destruct (decide (q' = q)) as [->|].
    + rewrite fn_lookup_insert, elem_of_app, list_elem_of_singleton. intros [Hu| ->]; [|done].
      destruct (iv_in0 q u Hu) as (? & ? & ?). done.
    + rewrite fn_lookup_insert_ne by done. intros Hu. destruct (iv_in0 q' u Hu) as (? & ? & ?). done.
  - intros u Hu _. rewrite HS. intros Hu'. destruct (decide (u = t)) as [->|].
    + exists q. rewrite fn_lookup_insert. set_solver.
    + destruct (iv_parked0 u) as [q' Hq']; [done|congruence|done|]. exists q'.
      destruct (decide (q' = q)) as [->|]; [rewrite fn_lookup_insert; set_solver|].
      by rewrite fn_lookup_insert_ne.
  - intros u Hu _. rewrite HS. intros Hu'. apply iv_running0; [done| |done].
    intros [= ->]. rewrite Hst in Hu'. by destruct q.
  - intros c Hcs. rewrite HS. destruct (iv_cur0 c Hcs) as [|(? & ? & ?)]; auto.
  - intros u Hu _. rewrite HS. intros Hf. rewrite fn_lookup_insert_ne.
    + apply iv_join0; [done| |done]. intros [= ->]. rewrite Hst in Hf. by destruct q, Hf.
    + intros ->. by apply (Hj u).
  - intros u. rewrite HS, HI. auto.
  - intros u. rewrite HS. auto.
Qed.

(** The head of a queue is taken off it. *)
Lemma take_inv C q t s ql :
  inv_but C None s ql -> head (ql q) = Some t ->
  exists s', q_pop q s = (Some t, s') /\ inv_but C (Some t) s' (<[q := tail (ql q)]> ql) /\
    same_core s s' /\ pool t /\ st_of s' t = parked q.
Proof.
  intros [] Hh. destruct (pop_view q s ql iv_view0) as (s' & Hpop & Hv & Hc). rewrite Hh in Hpop.
  destruct (ql q) as [|t' l] eqn:Hql; [done|]. injection Hh as ->.
  assert (Htq : t ∈ ql q) by (rewrite Hql; left).
  assert (Hnd : t ∉ l).
  { pose proof (v_nodup _ _ iv_view0 q) as Hnd. rewrite Hql in Hnd. by apply NoDup_cons in Hnd as [? _]. }
  assert (HS : forall u, st_of s' u = st_of s u) by (intros; by apply same_core_state).
  assert (HI : forall u, id (g_threads s' u) = id (g_threads s u)) by (intros; by apply same_core_id).
  assert (HC := sc_cpus _ _ Hc).
  destruct (iv_in0 q t Htq) as (Hp & _ & Hst).
  exists s'. split; [done|]. split; [|rewrite HS; auto].
  assert (Hsub : forall q' u, u ∈ (<[q := l]> ql) q' <-> u ∈ ql q' /\ u <> t).
  { intros q' u. destruct (decide (q' = q)) as [->|].
    - rewrite fn_lookup_insert, Hql, elem_of_cons. split; [|tauto]. intros Hu.
      split; [by right|]. by intros ->.
    - rewrite fn_lookup_insert_ne by done. split; [|tauto]. intros Hu. split; [done|].
      intros ->. by pose proof (v_once _ _ iv_view0 _ _ _ Hu Htq). }
  cbn [tail] in *. split; unfold settled, self in *; rewrite ?HC; auto.
  - intros q' u [Hu Hne]%Hsub. rewrite HS. destruct (iv_in0 q' u Hu) as (? & ? & ?).
    split; [done|]. split; [congruence|done].
  - intros u Hu Hne. rewrite HS. intros Hu'. destruct (iv_parked0 u) as [q' Hq']; [done..|].
    exists q'. apply Hsub. split; [done|congruence].
  - intros u Hu Hne. rewrite HS. auto.
  - intros c Hcs. rewrite HS. destruct (iv_cur0 c Hcs) as [|(? & ? & Hrun)]; [by left|].
    right. split; [done|]. split; [|done]. intros [= Heq]. rewrite <- Heq, Hst in Hrun. by destruct q.
  - intros u Hu Hne. rewrite HS. intros Hf. specialize (iv_join0 u Hu ltac:(done) Hf).
    destruct (decide (q = Some (JoinQ u))) as [->|]; [congruence|]. by rewrite fn_lookup_insert_ne.
  - intros u. rewrite HS, HI. auto.
  - intros u. rewrite HS. auto.
Qed.

Lemma settled_drop c c' s : settled (Some c) c' s -> settled None c' s /\ c' <> c.
Proof. intros (? & ? & Hne). unfold settled. split; [done|congruence]. Qed.

(** The current thread of CPU [c] leaves it. *)
Lemma leave_inv c s ql :
  inv_but None None s ql -> settled None c s -> pool (self c s) ->
  inv_but (Some c) (Some (self c s)) s ql.
Proof.
  intros [] Hc Hp. set (t := self c s) in *.
  assert (Hrun : st_of s t = CANBOOT_TH_RUNNING).
  { destruct (iv_cur0 c Hc) as [Hi|(_ & _ & ?)]; [|done]. unfold t in *.
    destruct Hc as ([] & _). unfold pool in Hp. lia. }
  assert (Hset := fun c' => settled_drop c c' s).
  split; auto.
  - intros q u Hu. destruct (iv_in0 q u Hu) as (? & ? & Hst). split; [done|]. split; [|done].
    intros [= <-]. rewrite Hrun in Hst. by destruct q.
  - intros u Hu Hne Hst. destruct (iv_running0 u Hu ltac:(done) Hst) as (c' & (? & ? & _) & Hs).
    exists c'. split; [|done]. split; [done|]. split; [done|]. intros [= <-]. apply Hne. by rewrite <- Hs.
  - intros c' [Hc' Hne]%Hset. destruct (iv_cur0 c' Hc') as [|(? & _ & ?)]; [by left|right].
    split; [done|]. split; [|done]. intros [= Heq]. by apply Hne, iv_own0.
  - intros c1 c2 [? _]%Hset [? _]%Hset. auto.
Qed.

Lemma leave_idle_inv c s ql :
  inv_but None None s ql -> settled None c s -> self c s = -1 - c ->
  inv_but (Some c) None s ql.
Proof.
  intros [] Hc Hi.
  assert (Hset := fun c' => settled_drop c c' s).
  split; auto.
  - intros u Hu Hne Hst. destruct (iv_running0 u Hu Hne Hst) as (c' & (? & ? & _) & Hs).
    exists c'. split; [|done]. split; [done|]. split; [done|]. intros [= <-].
    destruct Hc as ([] & _). unfold pool in Hu. lia.
  - intros c' [Hc' _]%Hset. auto.
  - intros c1 c2 [? _]%Hset [? _]%Hset. auto.
Qed.

(** A slot that is free or finished is on no queue and on no CPU. *)
Lemma unused_inv C t s ql :
  inv_but C None s ql -> finished (st_of s t) -> inv_but C (Some t) s ql.
Proof.
  intros [] Hf. split; auto.
  - intros q u Hu. destruct (iv_in0 q u Hu) as (? & ? & Hst). split; [done|]. split; [|done].
    intros [= <-]. rewrite Hst in Hf. by destruct q, Hf.
  - intros c Hc. destruct (iv_cur0 c Hc) as [|(? & _ & Hst)]; [by left|right].
    split; [done|]. split; [|done]. intros [= Heq]. rewrite <- Heq in Hst. rewrite Hst in Hf.
    by destruct Hf.
Qed.

Lemma finish_inv C t s ql :
  inv_but C (Some t) s ql -> finished (st_of s t) -> ql (Some (JoinQ t)) = [] ->
  inv_but C None s ql.
Proof.
  intros [] Hf Hq.
  assert (Hne : forall u, ~ finished (st_of s u) -> Some t <> Some u) by (intros u Hu [= ->]; done).
  split; auto.
  - intros q u Hu. destruct (iv_in0 q u Hu) as (? & ? & ?). done.
  - intros u Hu _ Hst. apply iv_parked0; [done| |done]. apply Hne.
    intros [He|He]; rewrite He in Hst; by destruct Hst.
  - intros u Hu _ Hst. apply iv_running0; [done| |done]. apply Hne.
    intros [He|He]; by rewrite He in Hst.
  - intros c Hc. destruct (iv_cur0 c Hc) as [|(? & _ & ?)]; auto.
  - intros u Hu _ Hfu. destruct (decide (u = t)) as [->|]; [done|]. apply iv_join0; [done| |done].
    congruence.
Qed.

(** CPU [c] takes up a thread, or its idle thread. *)
Section Dispatch.
Context (c : Z) (s s' : sched) (ql : qref -> list Z).
Hypothesis Hth : g_threads s' = g_threads s.
Hypothesis Hqs : forall q, q_get q s' = q_get q s.
Hypothesis Hcpus : forall c', c' <> c -> canboot_cpus s' c' = canboot_cpus s c'.
Hypothesis Hidle : idle (canboot_cpus s' c) = idle (canboot_cpus s c).
Hypothesis Hon : online (canboot_cpus s' c) = online (canboot_cpus s c).

Lemma dispatch_settled c' :
  settled None c' s' -> c' = c \/ (settled (Some c) c' s /\ self c' s' = self c' s).
Proof using Hcpus.
  intros (? & Ho & _). destruct (decide (c' = c)) as [|Hne]; [by left|right].
  unfold settled, self. rewrite (Hcpus c') in * by done. split; [|done]. repeat split; [lia..|done|congruence].
Qed.

Lemma dispatch_inv x :
  inv_but (Some c) x s ql -> settled None c s ->
  (x = Some (self c s') /\ pool (self c s') /\ st_of s (self c s') = CANBOOT_TH_RUNNING) \/
  (x = None /\ self c s' = -1 - c) ->
  inv_but None None s' ql.
Proof using Hth Hqs Hcpus Hidle Hon.
  intros [] Hc Hx.
  assert (Hst : forall u, st_of s' u = st_of s u) by (intros; unfold st_of; by rewrite Hth).
  assert (Hc' : settled None c s') by (destruct Hc as (? & ? & ?); repeat split; [lia..|by rewrite Hon|done]).
  assert (Hback : forall u, x <> Some u \/ (x = Some u /\ self c s' = u /\ st_of s u = CANBOOT_TH_RUNNING)).
  { intros u. destruct Hx as [(-> & _ & ?)|[-> _]]; [|by left].
    destruct (decide (self c s' = u)) as [<-|]; [by right|left; congruence]. }
  assert (Hold : forall c', settled (Some c) c' s -> self c' s <> self c s').
  { intros c' Hs Heq. destruct (iv_cur0 c' Hs) as [Hi|(Hp & Hn & _)].
    - destruct Hs as (? & _ & ?). destruct Hx as [(_ & Hp & _)|[_ Hi']].
      + unfold pool in Hp. lia.
      + assert (c' = c) by lia. congruence.
    - destruct Hx as [(-> & _)|[_ Hi']]; [congruence|].
      destruct Hc as (? & _). unfold pool in Hp. lia. }
  split.
  - eapply view_agree; [done| |done]. intros t. unfold nx. by rewrite Hth.
  - intros q u Hu. rewrite Hst. destruct (iv_in0 q u Hu) as (? & ? & ?). done.
  - intros u Hu _. rewrite Hst. intros Hp. destruct (Hback u) as [Hb|(_ & _ & Hb)]; [auto|].
    rewrite Hb in Hp. by destruct Hp.
  - intros u Hu _. rewrite Hst. intros Hr. destruct (Hback u) as [Hb|(_ & Hb & _)]; [|by exists c].
    destruct (iv_running0 u Hu Hb Hr) as (c' & (? & ? & Hne) & Hs). exists c'.
    unfold settled, self in *. rewrite (Hcpus c') by congruence. done.
  - intros c' [->|[Hs ->]]%dispatch_settled; rewrite !Hst.
    + destruct Hx as [(_ & ? & ?)|[_ ?]]; [by right|by left].
    + destruct (iv_cur0 c' Hs) as [|(? & _ & ?)]; auto.
  - intros c' ? Ho. destruct (decide (c' = c)) as [->|].
    + rewrite Hidle. apply iv_idle0; [done|]. by rewrite <- Hon.
    + rewrite Hcpus in * by done. auto.
  - intros c1 c2 H1 H2 Heq.
    destruct (dispatch_settled c1 H1) as [->|[H1' E1]], (dispatch_settled c2 H2) as [->|[H2' E2]];
      [done| | |].
    + destruct (Hold c2 H2'). congruence.
    + destruct (Hold c1 H1'). congruence.
    + apply iv_own0; [done|done|congruence].
  - intros u Hu _. rewrite Hst. intros Hf. destruct (Hback u) as [Hb|(_ & _ & Hb)]; [auto|].
    rewrite Hb in Hf. by destruct Hf.
  - intros u. rewrite Hst, Hth. auto.
  - intros u. rewrite Hst. auto.
Qed.
End Dispatch.

Lemma inv_ql C x s ql ql' : inv_but C x s ql -> (forall q, ql' q = ql q) -> inv_but C x s ql'.
Proof.
  intros [[] ] Hq. split.
  - split; intros *; rewrite ?Hq; eauto.
  - intros q t. rewrite Hq. auto.
  - intros t ? ? Hst. destruct (iv_parked0 t) as [q ?]; auto. exists q. by rewrite Hq.
  - auto.
  - auto.
  - auto.
  - auto.
  - intros t. rewrite Hq. auto.
  - auto.
  - auto.
Qed.

(** ** The switch *)
(** What an operation of CPU [c] leaves alone besides the queues, the thread
    states and its current thread. *)
Record framed (c : Z) (s s' : sched) : Prop := {
  fr_cpus c' : c' <> c -> canboot_cpus s' c' = canboot_cpus s c';
  fr_cpu : let k p := (idle p, preempt_count p, need_resched p, cpu_id p, online p) in
    k (canboot_cpus s' c) = k (canboot_cpus s c);
  fr_gil : (g_gil_owner s', g_gil_locked s') = (g_gil_owner s, g_gil_locked s);
  fr_gates : (g_preempt_enabled s', g_irqs_armed s', g_ticks s') =
             (g_preempt_enabled s, g_irqs_armed s, g_ticks s);
  fr_thread t : let k u := (entry u, arg u, retval u, id u, detached u, tls_base u) in
    k (g_threads s' t) = k (g_threads s t);
}.

#[export] Instance framed_preorder c : PreOrder (framed c).
Proof.
  split; [by split|]. intros s1 s2 s3 [A1 A2 A3 A4 A5] [B1 B2 B3 B4 B5]. split.
  - intros c' Hc'. by rewrite B1, A1.
  - exact (eq_trans B2 A2).
  - exact (eq_trans B3 A3).
  - exact (eq_trans B4 A4).
  - intros t. exact (eq_trans (B5 t) (A5 t)).
Qed.

Lemma framed_settled c C c' s s' : framed c s s' -> settled C c' s -> settled C c' s'.
Proof.
  intros [] (? & Ho & ?). split; [done|]. split; [|done]. destruct (decide (c' = c)) as [->|].
  - cbv zeta in fr_cpu0. congruence.
  - by rewrite fr_cpus0.
Qed.

Lemma framed_upd c t f s : (let k u := (entry u, arg u, retval u, id u, detached u, tls_base u) in
  k (f (g_threads s t)) = k (g_threads s t)) -> framed c s (upd t f s).
Proof.
  intros Hf. split; try done. intros u. cbn. destruct (decide (u = t)) as [->|].
  - rewrite fn_lookup_insert. exact Hf.
  - by rewrite fn_lookup_insert_ne.
Qed.

Lemma framed_q_push c q t s : framed c s (q_push q t s).
Proof.
  rewrite q_push_eq. cbv zeta.
  assert (Hset : forall v s, framed c s (q_set q v s)).
  { intros v s0. destruct q as [[u| |o]|]; try by split. by apply framed_upd. }
  destruct (wq_tail _); (etrans; [by apply (framed_upd c t (with_next None))|]); [|apply Hset].
  etrans; [|apply Hset]. by apply framed_upd.
Qed.

Lemma framed_q_pop c q s : framed c s (q_pop q s).2.
Proof.
  rewrite q_pop_eq. destruct (wq_head _); [|done]. cbn [snd].
  etrans; [|by apply framed_upd].
  destruct q as [[u| |o]|]; try by split. by apply framed_upd.
Qed.

Definition next_of (c : Z) (l : list Z) : Z := match head l with Some t => t | None => -1 - c end.

Lemma upd_state_cpu t c s :
  upd t (with_cpu c) (upd t (with_state CANBOOT_TH_RUNNING) s) =
  set_threads (<[t := with_cpu c (with_state CANBOOT_TH_RUNNING (g_threads s t))]>
    (<[t := with_state CANBOOT_TH_RUNNING (g_threads s t)]> (g_threads s))) s.
Proof. unfold upd. cbn. by rewrite fn_lookup_insert. Qed.

Lemma pop_none s ql : view s ql -> ql None = [] -> rq_pop s = (None, s).
Proof.
  intros Hv Hq. destruct (v_queue _ _ Hv None) as [Hh _]. rewrite Hq in Hh.
  unfold rq_pop. cbn in Hh. by rewrite Hh.
Qed.

(** An idle thread is in no queue and is no pool thread: its fields are free. *)
Lemma upd_idle_inv C x t f s ql :
  inv_but C x s ql -> t < 0 -> join_q (f (g_threads s t)) = join_q (g_threads s t) ->
  inv_but C x (upd t f s) ql.
Proof.
  intros [] Ht Hj.
  assert (Hne : forall u, pool u -> g_threads (upd t f s) u = g_threads s u).
  { intros u ?. cbn. apply fn_lookup_insert_ne. unfold pool in *. lia. }
  assert (Hst : forall u, pool u -> st_of (upd t f s) u = st_of s u) by (intros; unfold st_of; by rewrite Hne).
  split; auto.
  - destruct iv_view0 as [Hq Hn Ho]. split; auto. intros q.
    assert (q_get q (upd t f s) = q_get q s) as ->.
    { destruct q as [[u| |o]|]; try done. cbn. destruct (decide (u = t)) as [->|].
      - by rewrite fn_lookup_insert.
      - by rewrite fn_lookup_insert_ne. }
    eapply queue_agree; [|apply Hq]. intros u Hu. unfold nx. rewrite Hne; [done|].
    by apply iv_in0 in Hu as (? & _).
  - intros q u Hu. destruct (iv_in0 q u Hu) as (? & ? & ?). by rewrite Hst.
  - intros u ?. rewrite Hst; auto.
  - intros u ?. rewrite Hst; auto.
  - intros c Hc. destruct (iv_cur0 c Hc) as [|(? & ? & ?)]; [by left|right].
    change (self c (upd t f s)) with (self c s). by rewrite Hst.
  - intros u ?. rewrite Hst; auto.
  - intros u ?. rewrite Hst, Hne; auto.
  - intros u ?. rewrite Hst; auto.
Qed.

(** The shape shared by the two ways out of [reschedule]. *)
Lemma switch_to c next s ql x :
  inv_but (Some c) x s ql -> settled None c s ->
  (x = Some next /\ pool next /\ id (g_threads s next) = next) \/ (x = None /\ next = -1 - c) ->
  let s' := if next =? self c s then upd next (with_state CANBOOT_TH_RUNNING) s else
    let s := upd next (with_state CANBOOT_TH_RUNNING) s in
    let s := upd next (with_cpu (Some c)) s in
    let cp := canboot_cpus s c in
    let fs := match tls_base (g_threads s next) with Some b => Some b | None => fs_base cp end in
    set_cpus (<[c := mkCpu next (idle cp) (preempt_count cp) (need_resched cp) (cpu_id cp)
                       (online cp) fs]> (canboot_cpus s)) s in
  inv_but None None s' ql /\ self c s' = next /\ framed c s s'.
Proof.
  intros Hi Hc Hx.
  assert (H1 : inv_but (Some c) x (upd next (with_state CANBOOT_TH_RUNNING) s) ql).
  { destruct Hx as [(-> & ? & ?)|[-> ->]]; [by apply put_inv|].
    apply upd_idle_inv; [done| |done]. destruct Hc as ([] & _). lia. }
  assert (Hrun : forall f, (forall u, state (f u) = state u) ->
    st_of (upd next f (upd next (with_state CANBOOT_TH_RUNNING) s)) next = CANBOOT_TH_RUNNING).
  { intros f Hf. unfold st_of, upd. cbn. rewrite fn_lookup_insert, Hf. by rewrite fn_lookup_insert. }
  destruct (Z.eqb_spec next (self c s)) as [Heq|Hne]; cbv zeta.
  - split; [|split; [by rewrite Heq|by apply framed_upd]].
    apply (dispatch_inv c _ _ ql eq_refl ltac:(done) ltac:(done) eq_refl eq_refl x H1); [done|].
    change (self c (upd next (with_state CANBOOT_TH_RUNNING) s)) with (self c s). rewrite <- Heq.
    destruct Hx as [(-> & ? & _)|[-> ?]]; [left|by right]. split; [done|]. split; [done|].
    unfold st_of. cbn. by rewrite fn_lookup_insert.
  - set (s2 := upd next (with_cpu (Some c)) _).
    assert (H2 : inv_but (Some c) x s2 ql).
    { destruct Hx as [(-> & ? & ?)|[-> ->]].
      - apply put_inv; [done..| |]; cbn; by rewrite fn_lookup_insert.
      - apply upd_idle_inv; [done| |done]. destruct Hc as ([] & _). lia. }
    set (s3 := set_cpus _ s2).
    assert (Hself : self c s3 = next) by (unfold self; cbn; by rewrite fn_lookup_insert).
    split; [|split; [done|]].
    + assert (Hcp : forall c', c' <> c -> canboot_cpus s3 c' = canboot_cpus s2 c').
      { intros c' ?. cbn. by rewrite fn_lookup_insert_ne. }
      assert (Hq : forall q, q_get q s3 = q_get q s2) by (intros q; by destruct q as [[]|]).
      assert (Hid : idle (canboot_cpus s3 c) = idle (canboot_cpus s2 c)) by (cbn; by rewrite fn_lookup_insert).
      assert (Hon : online (canboot_cpus s3 c) = online (canboot_cpus s2 c)) by (cbn; by rewrite fn_lookup_insert).
      apply (dispatch_inv c s2 s3 ql eq_refl Hq Hcp Hid Hon x H2); [done|].
      rewrite Hself. destruct Hx as [(-> & ? & _)|[-> ?]]; [left|by right].
      split; [done|]. split; [done|]. by apply Hrun.
    + assert (H12 : framed c s s2) by (etrans; [by apply (framed_upd c next (with_state CANBOOT_TH_RUNNING))|by apply framed_upd]).
      etrans; [exact H12|]. split; try done.
      * intros. cbn. by rewrite fn_lookup_insert_ne.
      * cbn. by rewrite fn_lookup_insert.
Qed.

(** [reschedule] runs the head of the run queue, or the idle thread. *)
Lemma reschedule_inv c s ql :
  inv_but (Some c) None s ql -> settled None c s ->
  inv_but None None (reschedule c s) (<[None := tail (ql None)]> ql) /\
  self c (reschedule c s) = next_of c (ql None) /\ framed c s (reschedule c s).
Proof.
  intros Hi Hc. unfold reschedule, next_of. destruct (head (ql None)) as [t|] eqn:Hh.
  - destruct (take_inv _ _ _ _ _ Hi Hh) as (s1 & Hpop & H1 & Hcore & Hp & Hst).
    change (q_pop None s) with (rq_pop s) in Hpop.
    pose proof (framed_q_pop c None s) as Hf. cbn [q_pop] in Hf.
    rewrite Hpop in Hf |- *. cbn [snd] in Hf. cbv zeta.
    assert (Hself : self c s = self c s1) by (unfold self; by rewrite (sc_cpus _ _ Hcore)).
    rewrite Hself.
    destruct (switch_to c t s1 _ (Some t) H1) as (Hi' & Hs' & Hf').
    + by eapply framed_settled.
    + left. split; [done|]. split; [done|]. apply (iv_id _ _ _ _ H1); [done|]. by rewrite Hst.
    + split; [exact Hi'|]. split; [exact Hs'|]. etrans; [exact Hf|exact Hf'].
  - assert (Hnil : ql None = []) by (by destruct (ql None)).
    rewrite (pop_none s ql (iv_view _ _ _ _ Hi) Hnil). cbv zeta.
    destruct Hc as (? & ? & ?).
    rewrite (iv_idle _ _ _ _ Hi c) by done.
    destruct (switch_to c (-1 - c) s ql None Hi) as (Hi' & Hs' & Hf'); [done|by right|].
    split; [|split; [exact Hs'|exact Hf']].
    eapply inv_ql; [exact Hi'|]. intros q. rewrite Hnil. destruct (decide (q = None)) as [->|].
    + by rewrite fn_lookup_insert.
    + by rewrite fn_lookup_insert_ne.
Qed.

Lemma sc_cpus_pop c s : canboot_cpus (rq_pop s).2 c = canboot_cpus s c.
Proof. unfold rq_pop. by destruct (wq_head _). Qed.

Lemma pop_state q s u : st_of (q_pop q s).2 u = st_of s u.
Proof.
  rewrite q_pop_eq. destruct (wq_head _); [|done]. cbn [snd].
  apply same_core_state. etrans; [apply q_set_core|apply upd_next_core].
Qed.

(** Only the thread switched to changes its state. *)
Lemma reschedule_state c s u :
  st_of (reschedule c s) u =
  if decide (u = self c (reschedule c s)) then CANBOOT_TH_RUNNING else st_of s u.
Proof.
  unfold reschedule. pose proof (pop_state None s u) as Hst. cbn [q_pop] in Hst.
  pose proof (sc_cpus_pop c s) as Hcp.
  destruct (rq_pop s) as [o s1]. cbn [snd] in Hst, Hcp.
  set (next := match o with Some t => t | None => _ end). clearbody next.
  destruct (Z.eqb_spec next (self c s)) as [Heq|Hne].
  - assert (self c (upd next (with_state CANBOOT_TH_RUNNING) s1) = next) as ->
      by (rewrite Heq; unfold self; cbn; by rewrite Hcp).
    rewrite <- Hst. unfold st_of. cbn. case_decide as Hu.
    + rewrite Hu. by rewrite fn_lookup_insert.
    + by rewrite fn_lookup_insert_ne by congruence.
  - set (s3 := set_cpus _ _).
    assert (self c s3 = next) as -> by (unfold self; cbn; by rewrite fn_lookup_insert).
    rewrite <- Hst. unfold st_of. cbn. case_decide as Hu.
    + rewrite Hu. by rewrite !fn_lookup_insert.
    + rewrite fn_lookup_insert. by rewrite !fn_lookup_insert_ne by congruence.
Qed.

(** ** Parking and waking *)
Lemma st_upd t f s u : st_of (upd t f s) u = if decide (u = t) then state (f (g_threads s t)) else st_of s u.
Proof.
  unfold st_of. cbn. case_decide as Hu; [subst; by rewrite fn_lookup_insert|].
  by rewrite fn_lookup_insert_ne.
Qed.

Lemma cur_running c s ql : inv_but None None s ql -> settled None c s -> pool (self c s) ->
  st_of s (self c s) = CANBOOT_TH_RUNNING.
Proof.
  intros Hi Hc Hp. destruct (iv_cur _ _ _ _ Hi c Hc) as [He|(_ & _ & ?)]; [|done].
  destruct Hc as ([] & _). unfold pool in Hp. lia.
Qed.

Lemma cur_id c s ql : inv_but None None s ql -> settled None c s -> pool (self c s) ->
  id (g_threads s (self c s)) = self c s.
Proof.
  intros Hi Hc Hp. apply (iv_id _ _ _ _ Hi); [done|]. by rewrite (cur_running c s ql).
Qed.

(** The current thread goes to queue [q] ... *)
Lemma parked_inv c q s ql :
  inv_but None None s ql -> settled None c s -> pool (self c s) ->
  (forall u, q = Some (JoinQ u) -> ~ finished (st_of s u)) ->
  inv_but (Some c) None (q_push q (self c s) (upd (self c s) (with_state (parked q)) s))
    (<[q := ql q ++ [self c s]]> ql).
Proof.
  intros Hi Hc Hp Hj. set (t := self c s) in *.
  assert (H1 : inv_but (Some c) (Some t) (upd t (with_state (parked q)) s) ql).
  { apply put_inv; [by apply leave_inv|done| |by destruct q]. intros _. by apply (cur_id c s ql). }
  apply park_inv; [done..| |].
  - rewrite st_upd. by rewrite decide_True.
  - intros u Hu. rewrite st_upd. case_decide; [|by apply Hj]. cbn. by intros [?|?]; destruct q.
Qed.

(** ... and the CPU to the next thread. *)
Lemma give_way c q s ql :
  inv_but None None s ql -> settled None c s -> pool (self c s) ->
  (forall u, q = Some (JoinQ u) -> ~ finished (st_of s u)) ->
  let t := self c s in
  let ql1 := <[q := ql q ++ [t]]> ql in
  let s' := reschedule c (q_push q t (upd t (with_state (parked q)) s)) in
  inv_but None None s' (<[None := tail (ql1 None)]> ql1) /\ self c s' = next_of c (ql1 None) /\
  framed c s s'.
Proof.
  intros Hi Hc Hp Hj t ql1.
  assert (Hf : framed c s (q_push q t (upd t (with_state (parked q)) s))).
  { etrans; [by apply (framed_upd c t (with_state (parked q)))|]. apply framed_q_push. }
  destruct (reschedule_inv c _ _ (parked_inv c q s ql Hi Hc Hp Hj)) as (? & ? & Hf');
    [by eapply framed_settled|].
  split; [done|]. split; [done|]. etrans; [exact Hf|exact Hf'].
Qed.

Lemma block_on_spec c w s ql :
  inv_but None None s ql -> settled None c s -> pool (self c s) ->
  (forall u, w = JoinQ u -> ~ finished (st_of s u)) ->
  let s' := canboot_sched_block_on c w s in
  inv_but None None s' (<[None := tail (ql None)]> (<[Some w := ql (Some w) ++ [self c s]]> ql)) /\
  self c s' = next_of c (ql None) /\ framed c s s'.
Proof.
  intros Hi Hc Hp Hj. destruct (give_way c (Some w) s ql) as (H1 & H2 & H3); [done..| |].
  { intros u [= ->]. by apply Hj. }
  rewrite !fn_lookup_insert_ne in H1, H2 by done. done.
Qed.

Lemma yield_spec c s ql :
  inv_but None None s ql -> settled None c s -> pool (self c s) ->
  let s' := canboot_sched_yield c s in
  let l := ql None ++ [self c s] in
  inv_but None None s' (<[None := tail l]> ql) /\ self c s' = next_of c l /\ framed c s s'.
Proof.
  intros Hi Hc Hp. destruct (give_way c None s ql) as (H1 & H2 & H3); [done..|].
  rewrite fn_lookup_insert in H1, H2. unfold canboot_sched_yield.
  pose proof (cur_running c s ql Hi Hc Hp) as Hr. unfold st_of in Hr. rewrite decide_True by done.
  split; [|split; [exact H2|exact H3]].
  eapply inv_ql; [exact H1|]. intros q. destruct (decide (q = None)) as [->|].
  - by rewrite !fn_lookup_insert.
  - by rewrite !fn_lookup_insert_ne.
Qed.

(** The first waiter moves to the end of the run queue. *)
Definition woken_one (w : wqref) (ql : qref -> list Z) : qref -> list Z :=
  match head (ql (Some w)) with
  | Some t => <[None := ql None ++ [t]]> (<[Some w := tail (ql (Some w))]> ql)
  | None => ql
  end.

Lemma wake_one_spec C w c s ql :
  inv_but C None s ql ->
  let s' := canboot_sched_wake_one w s in
  inv_but C None s' (woken_one w ql) /\ canboot_cpus s' = canboot_cpus s /\ framed c s s'.
Proof.
  intros Hi. unfold canboot_sched_wake_one, woken_one.
  destruct (head (ql (Some w))) as [t|] eqn:Hh.
  - destruct (take_inv _ _ _ _ _ Hi Hh) as (s1 & Hpop & H1 & Hcore & Hp & Hst).
    change (q_pop (Some w) s) with (wq_pop w s) in Hpop.
    pose proof (framed_q_pop c (Some w) s) as Hf. cbn [q_pop] in Hf. rewrite Hpop in Hf |- *.
    assert (H2 : inv_but C (Some t) (upd t (with_state CANBOOT_TH_RUNNABLE) s1) (<[Some w := tail (ql (Some w))]> ql)).
    { apply put_inv; [done|done|intros _|done]. apply (iv_id _ _ _ _ H1); [done|]. by rewrite Hst. }
    assert (H3 := park_inv C t None _ _ H2 Hp ltac:(rewrite st_upd; by rewrite decide_True) ltac:(done)).
    rewrite fn_lookup_insert_ne in H3 by done.
    assert (Hf3 : framed c (upd t (with_state CANBOOT_TH_RUNNABLE) s1) (rq_push t (upd t (with_state CANBOOT_TH_RUNNABLE) s1)))
      by apply (framed_q_push c None).
    split; [exact H3|]. split.
    + destruct (push_view None t _ _ (iv_view _ _ _ _ H2)) as [_ Hc2].
      { intros q' Hq'. by apply (iv_in _ _ _ _ H2) in Hq' as (_ & ? & _). }
      etrans; [apply (sc_cpus _ _ Hc2)|]. apply (sc_cpus _ _ Hcore).
    + etrans; [exact Hf|]. etrans; [|exact Hf3]. by apply framed_upd.
  - assert (Hnil : ql (Some w) = []) by (by destruct (ql (Some w))).
    destruct (v_queue _ _ (iv_view _ _ _ _ Hi) (Some w)) as [Hq _]. rewrite Hnil in Hq.
    unfold wq_pop. cbn in Hq. rewrite Hq. done.
Qed.

(** All waiters move, in order. *)
Definition woken_all (w : wqref) (ql : qref -> list Z) : qref -> list Z :=
  <[None := ql None ++ ql (Some w)]> (<[Some w := []]> ql).

Lemma wake_all_unfold fuel w s : canboot_sched_wake_all fuel w s =
  match (wq_pop w s).1, fuel with
  | None, _ => Some s
  | Some _, O => None
  | Some _, S f => canboot_sched_wake_all f w (canboot_sched_wake_one w s)
  end.
Proof.
  unfold canboot_sched_wake_one. destruct fuel; cbn; destruct (wq_pop w s) as [[t|] s'] eqn:Hp; cbn; try done.
  all: unfold wq_pop in Hp; destruct (wq_head _); by simplify_eq.
Qed.

Lemma wake_all_spec c w fuel : forall C s ql,
  inv_but C None s ql -> (length (ql (Some w)) <= fuel)%nat ->
  exists s', canboot_sched_wake_all fuel w s = Some s' /\ inv_but C None s' (woken_all w ql) /\
    canboot_cpus s' = canboot_cpus s /\ framed c s s'.
Proof.
  induction fuel as [|fuel IH]; intros C s ql Hi Hlen; rewrite wake_all_unfold.
  all: destruct (pop_view (Some w) s ql (iv_view _ _ _ _ Hi)) as (s1 & Hpop & _ & _).
  all: cbn [q_pop] in Hpop; rewrite Hpop; cbn [fst].
  all: destruct (ql (Some w)) as [|t l] eqn:Hql; cbn [head length] in *; try lia.
  1, 2: exists s; split; [done|]; split; [|done]; eapply inv_ql; [exact Hi|]; intros q;
    unfold woken_all, insert, fn_insert; rewrite Hql; repeat case_decide; subst;
    by rewrite ?app_nil_r.
  destruct (wake_one_spec C w c s ql Hi) as (H1 & H2 & H3).
  destruct (IH C _ _ H1) as (s' & Hw & Hi' & Hc' & Hf').
  { unfold woken_one. rewrite Hql. cbn. rewrite fn_lookup_insert_ne, fn_lookup_insert by done. lia. }
  exists s'. split; [done|]. split; [|split; [congruence|etrans; eauto]].
  eapply inv_ql; [exact Hi'|]. intros q. unfold woken_all, woken_one. rewrite Hql. cbn [head tail].
  unfold insert, fn_insert. repeat case_decide; subst; try done. by rewrite <- app_assoc.
Qed.

(** The next thread is not a finished one. *)
Lemma next_not_out c s ql x t :
  inv_but x None s ql -> next_of c (ql None) = t -> pool t -> 0 <= c -> ~ finished (st_of s t).
Proof.
  intros Hi Hn Hp Hc. unfold next_of in Hn. unfold pool in *. destruct (ql None) as [|t' l] eqn:Hq; cbn in Hn; [lia|].
  subst t'. assert (Hin : t ∈ ql None) by (rewrite Hq; left).
  apply (iv_in _ _ _ _ Hi) in Hin as (_ & _ & ->). by intros [?|?].
Qed.

(** No queue is longer than the pool. *)
Lemma pool_bound C x s ql q : inv_but C x s ql -> (length (ql q) <= 16)%nat.
Proof.
  intros Hi. change 16%nat with (length (seqZ 0 CANBOOT_THREAD_POOL)).
  apply submseteq_length, NoDup_submseteq; [apply (v_nodup _ _ (iv_view _ _ _ _ Hi))|].
  intros t Ht. apply (iv_in _ _ _ _ Hi) in Ht as (Hp & _). unfold pool in Hp.
  apply elem_of_seqZ. lia.
Qed.

(** ** Lifecycle *)
Lemma q_get_retval q t r s : q_get q (upd t (with_retval r) s) = q_get q s.
Proof.
  destruct q as [[u| |o]|]; try done. cbn. destruct (decide (u = t)) as [->|].
  - by rewrite fn_lookup_insert.
  - by rewrite fn_lookup_insert_ne.
Qed.

(** A change of a thread's result or detached flag. *)
Lemma upd_soft_inv C x t f s ql :
  inv_but C x s ql ->
  (forall u, (state (f u), id (f u), q_next (f u), join_q (f u)) = (state u, id u, q_next u, join_q u)) ->
  inv_but C x (upd t f s) ql.
Proof.
  intros Hi Hf. eapply inv_ext; [exact Hi|..]; try done.
  - intros u. unfold nx. cbn. destruct (decide (u = t)) as [->|]; [|by rewrite fn_lookup_insert_ne].
    rewrite fn_lookup_insert. specialize (Hf (g_threads s t)). congruence.
  - intros [[u| |o]|]; try done. cbn. destruct (decide (u = t)) as [->|]; [|by rewrite fn_lookup_insert_ne].
    rewrite fn_lookup_insert. specialize (Hf (g_threads s t)). congruence.
  - intros u. rewrite st_upd. case_decide; [subst|done]. specialize (Hf (g_threads s t)). unfold st_of. congruence.
  - intros u. cbn. destruct (decide (u = t)) as [->|]; [|by rewrite fn_lookup_insert_ne].
    rewrite fn_lookup_insert. specialize (Hf (g_threads s t)). congruence.
Qed.

Lemma exit_spec c r s ql :
  inv_but None None s ql -> settled None c s -> pool (self c s) ->
  let t := self c s in
  let ql1 := woken_all (JoinQ t) ql in
  exists s', canboot_thread_exit 16 c r s = Some s' /\
    inv_but None None s' (<[None := tail (ql1 None)]> ql1) /\
    self c s' = next_of c (ql None ++ ql (Some (JoinQ t))) /\
    retval (g_threads s' t) = r /\
    st_of s' t = (if detached (g_threads s t) then CANBOOT_TH_FREE else CANBOOT_TH_EXITED) /\
    settled None c s'.
Proof.
  intros Hi Hc Hp t ql1. unfold canboot_thread_exit. fold t.
  set (s1 := upd t (with_retval r) s).
  assert (H1 : inv_but None None s1 ql) by (by apply upd_soft_inv).
  destruct (wake_all_spec c (JoinQ t) 16 None s1 ql H1) as (s2 & -> & H2 & Hcp & Hf).
  { by eapply pool_bound. }
  fold ql1 in H2.
  assert (Hc2 : settled None c s2) by (eapply framed_settled; [exact Hf|exact Hc]).
  assert (Hs2 : self c s2 = t) by (unfold self; rewrite Hcp; done).
  pose proof (cur_id c s2 ql1 H2 Hc2 ltac:(by rewrite Hs2)) as Hid. rewrite Hs2 in Hid.
  assert (Hd : detached (g_threads s2 t) = detached (g_threads s t) /\ retval (g_threads s2 t) = r).
  { pose proof (fr_thread _ _ _ Hf t) as E. cbn in E. rewrite fn_lookup_insert in E. cbn in E.
    by injection E. }
  destruct Hd as [Hd Hret]. rewrite Hid, Hd.
  assert ((0 <=? t) = true) as -> by (unfold pool in Hp; lia). rewrite andb_true_r.
  set (st := if detached (g_threads s t) then _ else _).
  assert (Hst : finished st) by (unfold st; destruct (detached (g_threads s t)); [by right|by left]).
  clearbody st.
  assert (H3 : inv_but (Some c) None (upd t (with_state st) s2) ql1).
  { assert (HL : inv_but (Some c) (Some t) s2 ql1).
    { rewrite <- Hs2. apply leave_inv; [done|done|by rewrite Hs2]. }
    apply (finish_inv _ t).
    - apply put_inv; [done|done|done|]. cbn. by destruct Hst as [-> | ->].
    - by rewrite st_upd, decide_True by done.
    - unfold ql1, woken_all. rewrite fn_lookup_insert_ne by done. by rewrite fn_lookup_insert. }
  assert (Hc3 : settled None c (upd t (with_state st) s2)) by exact Hc2.
  destruct (reschedule_inv c _ _ H3 Hc3) as (H4 & H5 & H6).
  eexists. split; [done|]. split; [exact H4|]. split.
  { rewrite H5. unfold ql1, woken_all. by rewrite fn_lookup_insert. }
  split; [|split].
  - pose proof (fr_thread _ _ _ H6 t) as E. cbn in E. rewrite fn_lookup_insert in E. cbn in E.
    congruence.
  - rewrite reschedule_state, decide_False; [by rewrite st_upd, decide_True by done|].
    rewrite H5. intros Heq. destruct Hc as ([] & _).
    apply (next_not_out c _ _ _ t H3); [done..|].
    by rewrite st_upd, decide_True by done.
  - by eapply framed_settled.
Qed.
