(* ===== verification/SchedProps.v ===== *)
(** * The scheduler as a transition system

    The operations of [rt/sched/sched.c] as the steps of the CPUs, the
    invariant of every reachable state, and what the scheduler promises:
    creation never hands out a slot in use, a joiner receives the value its
    thread exited with, and ticks take the CPU around the run queue in turn. *)
From stdpp Require Import functions.
From S2P Require Import Prelude Sched SchedInv.

(** ** Steps *)
Inductive op : Type :=
| OBlock (w : wqref)
| OWakeOne (w : wqref)
| OWakeAll (w : wqref)
| OGilAcquire
| OGilRelease
| OYield
| OCreate (fn a : Z)
| ODetach (t : Z)
| OExit (r : Z)
| OJoin (t : Z)
| OPreemptDisable
| OPreemptEnable
| OTick
| OIdle
| OApOnline (fs : option Z)
| OArmIrqs
| OSetPreemption (enabled : bool).

(** Sixteen rounds of a wake-all loop: a queue holds no more threads. *)
Definition exec (c : Z) (o : op) (s : sched) : option sched :=
  match o with
  | OBlock w => Some (canboot_sched_block_on c w s)
  | OWakeOne w => Some (canboot_sched_wake_one w s)
  | OWakeAll w => canboot_sched_wake_all 16 w s
  | OGilAcquire => Some (canboot_gil_acquire c s).2
  | OGilRelease => Some (canboot_gil_release s)
  | OYield => Some (canboot_sched_yield c s)
  | OCreate fn a => Some (canboot_thread_create fn a s).2
  | ODetach t => Some (canboot_thread_detach t s)
  | OExit r => canboot_thread_exit 16 c r s
  | OJoin t => Some (canboot_thread_join c t s).2
  | OPreemptDisable => Some (canboot_preempt_disable c s)
  | OPreemptEnable => Some (canboot_preempt_enable c s)
  | OTick => Some (canboot_sched_on_tick c s)
  | OIdle => Some (idle_entry c s)
  | OApOnline fs => Some (canboot_sched_ap_online c fs s)
  | OArmIrqs => Some (canboot_sched_arm_irqs s)
  | OSetPreemption b => Some (canboot_sched_set_preemption b s)
  end.

(** Who may do what: an application processor comes up once; the idle loop is
    run by idle threads, which call nothing else; the timer interrupts any
    thread; everything else is called by a pool thread, on pool threads and on
    the wait queues of its own objects. *)
Definition allowed (c : Z) (o : op) (s : sched) : Prop :=
  0 <= c < CANBOOT_NR_CPUS /\
  match o with
  | OApOnline _ => online (canboot_cpus s c) = false
  | _ => online (canboot_cpus s c) = true
  end /\
  match o with
  | OApOnline _ | OTick => True
  | OIdle => self c s = idle (canboot_cpus s c)
  | OBlock w | OWakeOne w | OWakeAll w => pool (self c s) /\ exists x, w = ObjQ x
  | ODetach t | OJoin t => pool (self c s) /\ pool t
  | _ => pool (self c s)
  end.

(** The state at boot: [canboot_sched_init] on the zeroed statics. *)
Definition boot_sched (boot_tls : option Z) : sched :=
  canboot_sched_init
    (mkSched (fun _ => zero_thread) CANBOOT_WAIT_QUEUE_INITIALIZER (fun _ => zero_cpu)
       CANBOOT_WAIT_QUEUE_INITIALIZER None false (fun _ => CANBOOT_WAIT_QUEUE_INITIALIZER)
       false false 0) boot_tls.

Inductive reachable : sched -> Prop :=
| reach_boot tls : reachable (boot_sched tls)
| reach_step s c o s' : reachable s -> allowed c o s -> exec c o s = Some s' -> reachable s'.

(** ** Each operation keeps the invariant *)
Lemma boot_inv tls : inv (boot_sched tls).
Proof.
  exists (fun _ => []).
  assert (Hth : forall t, pool t -> t <> 0 -> g_threads (boot_sched tls) t = zero_thread).
  { intros t Hp Hne. unfold pool in Hp. cbn. rewrite !fn_lookup_insert_ne by lia. done. }
  assert (H0 : st_of (boot_sched tls) 0 = CANBOOT_TH_RUNNING).
  { unfold st_of. cbn. rewrite fn_lookup_insert_ne by done. by rewrite fn_lookup_insert. }
  assert (Hst : forall t, pool t -> t <> 0 -> st_of (boot_sched tls) t = CANBOOT_TH_FREE)
    by (intros t ? ?; unfold st_of; by rewrite Hth).
  assert (Hc : forall C c, settled C c (boot_sched tls) -> c = 0).
  { intros C c (_ & Ho & _). cbn in Ho. destruct (decide (c = 0)) as [|Hne]; [done|].
    by rewrite fn_lookup_insert_ne in Ho. }
  assert (Hs0 : self 0 (boot_sched tls) = 0) by (unfold self; cbn; by rewrite fn_lookup_insert).
  split.
  - split; [|intros; constructor|set_solver].
    intros [[t| |x]|]; try done. cbn.
    destruct (decide (t = -1)) as [->|]; [by rewrite fn_lookup_insert|].
    rewrite fn_lookup_insert_ne by done.
    destruct (decide (t = 0)) as [->|]; [by rewrite fn_lookup_insert|].
    by rewrite fn_lookup_insert_ne.
  - set_solver.
  - intros t Hp _ [Hst'|Hst']; destruct (decide (t = 0)) as [->|]; try congruence;
      rewrite Hst in Hst'; done.
  - intros t Hp _ Hr. destruct (decide (t = 0)) as [->|]; [|rewrite Hst in Hr; done].
    exists 0. split; [|done]. unfold settled. cbn. by rewrite fn_lookup_insert.
  - intros c ->%Hc. right. rewrite Hs0. done.
  - intros c Hb Ho. assert (c = 0) as -> by (apply (Hc None); by split). cbn. by rewrite fn_lookup_insert.
  - intros c c' ->%Hc ->%Hc. done.
  - done.
  - intros t Hp Hf. destruct (decide (t = 0)) as [->|]; [|by rewrite Hst in Hf].
    cbn. rewrite fn_lookup_insert_ne by done. by rewrite fn_lookup_insert.
  - intros t Hp. destruct (decide (t = 0)) as [->|]; [by rewrite H0|by rewrite Hst].
Qed.

Lemma find_slot_spec n : forall i s,
  match find_slot n i s with
  | Some j => i <= j < i + Z.of_nat n /\ st_of s j = CANBOOT_TH_FREE /\
              (forall k, i <= k < j -> st_of s k <> CANBOOT_TH_FREE)
  | None => forall k, i <= k < i + Z.of_nat n -> st_of s k <> CANBOOT_TH_FREE
  end.
Proof.
  induction n as [|n IH]; intros i s; [cbn; lia|]. cbn [find_slot].
  destruct (decide _) as [Hf|Hf]; [split; [lia|]; split; [done|lia]|].
  assert (Hk : forall k, i <= k -> k = i \/ i + 1 <= k) by lia.
  specialize (IH (i + 1) s). destruct (find_slot n (i + 1) s) as [j|].
  - destruct IH as (? & ? & Hmin). split; [lia|]. split; [done|]. intros k Hb.
    destruct (Hk k) as [->|]; [lia|done|]. apply Hmin. lia.
  - intros k Hb. destruct (Hk k) as [->|]; [lia|done|]. apply IH. lia.
Qed.

Lemma create_run fn a s ql :
  inv_but None None s ql ->
  match canboot_thread_create fn a s with
  | (Some i, s') =>
      1 <= i < CANBOOT_THREAD_POOL /\ st_of s i = CANBOOT_TH_FREE /\
      inv_but None None s' (<[None := ql None ++ [i]]> ql) /\
      (forall t, t <> i -> core (g_threads s' t) = core (g_threads s t)) /\
      (entry (g_threads s' i), arg (g_threads s' i)) = (fn, a) /\
      canboot_cpus s' = canboot_cpus s
  | (None, s') => s' = s /\ forall t, 1 <= t < CANBOOT_THREAD_POOL -> st_of s t <> CANBOOT_TH_FREE
  end.
Proof.
  intros Hi. unfold canboot_thread_create.
  pose proof (find_slot_spec (Z.to_nat (CANBOOT_THREAD_POOL - 1)) 1 s) as Hs.
  destruct (find_slot _ _ _) as [i|]; [|by split].
  destruct Hs as (Hb & Hf & _). change (1 + Z.of_nat _) with CANBOOT_THREAD_POOL in Hb.
  split; [done|]. split; [done|].
  set (th := mkThread _ _ _ _ _ _ _ _ _ _ _ _). set (s1 := set_threads _ s).
  assert (Hp : pool i) by (unfold pool; lia).
  assert (H1 : inv_but None (Some i) s1 ql).
  { apply put_inv; [by apply unused_inv; [|right]| |done|done].
    pose proof (iv_join _ _ _ _ Hi i Hp ltac:(done) ltac:(by right)) as Hj.
    destruct (v_queue _ _ (iv_view _ _ _ _ Hi) (Some (JoinQ i))) as [Hh Ht]. rewrite Hj in Hh, Ht.
    cbn in Hh, Ht |- *. destruct (join_q (g_threads s i)). cbn in *. by subst. }
  assert (Hth : g_threads s1 i = th) by (cbn; by rewrite fn_lookup_insert).
  assert (H2 := park_inv None i None s1 ql H1 Hp ltac:(unfold st_of; by rewrite Hth) ltac:(done)).
  destruct (push_view None i s1 ql (iv_view _ _ _ _ H1)) as [_ Hc].
  { intros q Hq. by apply (iv_in _ _ _ _ H1) in Hq as (_ & ? & _). }
  split; [exact H2|]. split; [|split].
  - intros t Hne. etrans; [apply (sc_threads _ _ Hc)|]. cbn. by rewrite fn_lookup_insert_ne.
  - pose proof (sc_threads _ _ Hc i) as E. rewrite Hth in E. cbn [q_push] in E. injection E. intros. by f_equal.
  - apply (sc_cpus _ _ Hc).
Qed.

Lemma join_run c t s ql :
  inv_but None None s ql -> settled None c s -> pool (self c s) -> pool t ->
  match canboot_thread_join c t s with
  | (Some r, s') => finished (st_of s t) /\ r = retval (g_threads s t) /\
      s' = (if 0 <=? id (g_threads s t) then upd t (with_state CANBOOT_TH_FREE) s else s) /\
      inv_but None None s' ql
  | (None, s') => ~ finished (st_of s t) /\
      inv_but None None s' (<[None := tail (ql None)]>
        (<[Some (JoinQ t) := ql (Some (JoinQ t)) ++ [self c s]]> ql)) /\
      self c s' = next_of c (ql None) /\ framed c s s'
  end.
Proof.
  intros Hi Hc Hp Ht. unfold canboot_thread_join. case_decide as Hf.
  - split; [exact Hf|]. split; [done|]. split; [done|]. destruct (0 <=? id _) eqn:Hid; [|done].
    eapply finish_inv with t.
    + by apply put_inv; [apply unused_inv|..].
    + rewrite st_upd, decide_True by done. by right.
    + by apply (iv_join _ _ _ _ Hi).
  - split; [exact Hf|]. apply block_on_spec; [done..|]. by intros u [= <-].
Qed.

Lemma detach_inv t s ql :
  inv_but None None s ql -> pool t -> inv_but None None (canboot_thread_detach t s) ql.
Proof.
  intros Hi Ht. unfold canboot_thread_detach. case_decide as Hf; [|by apply upd_soft_inv].
  apply (finish_inv _ t).
  - by apply put_inv; [apply unused_inv; [|left]|..].
  - rewrite st_upd, decide_True by done. by right.
  - apply (iv_join _ _ _ _ Hi); [done..|by left].
Qed.

(** What does not touch threads, queues, current and idle threads. *)
Lemma cpu_soft_inv C x c s ql count need :
  inv_but C x s ql -> inv_but C x (set_preempt c count need s) ql.
Proof.
  intros Hi. eapply inv_ext; [exact Hi|..]; try done.
  - intros c'. unfold self. cbn. destruct (decide (c' = c)) as [->|]; [by rewrite fn_lookup_insert|by rewrite fn_lookup_insert_ne].
  - intros c'. cbn. destruct (decide (c' = c)) as [->|]; [by rewrite fn_lookup_insert|by rewrite fn_lookup_insert_ne].
  - intros c'. cbn. destruct (decide (c' = c)) as [->|]; [by rewrite fn_lookup_insert|by rewrite fn_lookup_insert_ne].
Qed.

Lemma gates_inv C x s ql a b n : inv_but C x s ql -> inv_but C x (set_gates a b n s) ql.
Proof. intros Hi. eapply inv_ext; [exact Hi|..]; done. Qed.

Lemma gil_inv C x s ql a b : inv_but C x s ql -> inv_but C x (set_gil a b s) ql.
Proof. intros Hi. eapply inv_ext; [exact Hi|..]; done. Qed.

Lemma self_preempt c c' s a b : self c' (set_preempt c a b s) = self c' s.
Proof.
  unfold self. cbn. destruct (decide (c' = c)) as [->|]; [by rewrite fn_lookup_insert|by rewrite fn_lookup_insert_ne].
Qed.

Lemma settled_preempt C c c' s a b : settled C c' s -> settled C c' (set_preempt c a b s).
Proof.
  unfold settled. cbn. destruct (decide (c' = c)) as [->|]; [by rewrite fn_lookup_insert|by rewrite fn_lookup_insert_ne].
Qed.

(** Whatever the CPU runs, it can be taken away from it. *)
Lemma idle_round c s ql :
  inv_but None None s ql -> settled None c s -> self c s = -1 - c ->
  inv_but None None (reschedule c s) (<[None := tail (ql None)]> ql) /\
  self c (reschedule c s) = next_of c (ql None) /\ framed c s (reschedule c s).
Proof. intros Hi Hc Hs. apply reschedule_inv; [by apply leave_idle_inv|done]. Qed.

(** One preemption: the head of the run queue takes over; a pool thread goes to
    the back of the queue, the idle thread does not. *)
Definition rotated (c : Z) (s : sched) (l : list Z) : list Z :=
  if decide (self c s = -1 - c) then l else l ++ [self c s].

Lemma head_queue s ql q : view s ql -> wq_head (q_get q s) = head (ql q).
Proof. intros Hv. destruct (v_queue _ _ Hv q) as [Hh _]. by destruct (ql q) as [|? ?]; [|destruct Hh]. Qed.

Lemma preempt_run c s ql :
  inv_but None None s ql -> settled None c s ->
  let s' := canboot_sched_preempt c s in
  match ql None with
  | [] => inv_but None None s' ql /\ self c s' = self c s
  | t :: l => inv_but None None s' (<[None := rotated c s l]> ql) /\ self c s' = t
  end /\ settled None c s' /\ preempt_count (canboot_cpus s' c) = preempt_count (canboot_cpus s c) /\
  g_preempt_enabled s' = g_preempt_enabled s /\
  (g_gil_owner s', g_gil_locked s') = (g_gil_owner s, g_gil_locked s).
Proof.
  intros Hi Hc. unfold canboot_sched_preempt. set (s1 := set_preempt _ _ _ s). cbv zeta.
  assert (Hi1 : inv_but None None s1 ql) by (by apply cpu_soft_inv).
  assert (Hc1 : settled None c s1) by (by apply settled_preempt).
  assert (Hs1 : self c s1 = self c s) by apply self_preempt.
  assert (Hn1 : preempt_count (canboot_cpus s1 c) = preempt_count (canboot_cpus s c))
    by (cbn; by rewrite fn_lookup_insert).
  pose proof (head_queue s1 ql None (iv_view _ _ _ _ Hi1)) as Hh. cbn [q_get] in Hh. rewrite Hh.
  destruct (ql None) as [|t l] eqn:Hq; cbn [head]; [done|].
  fold (self c s). rewrite (iv_idle _ _ _ _ Hi c) by (destruct Hc as (? & ? & _); done).
  assert (Hfr : forall s', framed c s1 s' ->
    settled None c s' /\ preempt_count (canboot_cpus s' c) = preempt_count (canboot_cpus s c) /\
    g_preempt_enabled s' = g_preempt_enabled s /\
    (g_gil_owner s', g_gil_locked s') = (g_gil_owner s, g_gil_locked s)).
  { intros s' Hf. split; [by eapply framed_settled|]. destruct Hf as [_ Hf1 Hf0 Hf2 _].
    cbv zeta in Hf1. cbn in Hf2. split; [congruence|]. split; [by injection Hf2|exact Hf0]. }
  unfold rotated. destruct (decide (self c s = -1 - c)) as [He|He].
  - rewrite decide_False by tauto.
    destruct (idle_round c s1 ql Hi1 Hc1) as (A & B & Cf); [congruence|]. rewrite Hq in A, B.
    split; [by split|]. by apply Hfr.
  - assert (Hp : pool (self c s1)).
    { rewrite Hs1. by destruct (iv_cur _ _ _ _ Hi c Hc) as [|(? & _)]. }
    pose proof (cur_running c s1 ql Hi1 Hc1 Hp) as Hr. rewrite Hs1 in Hr. unfold st_of in Hr.
    rewrite decide_True by done. rewrite <- Hs1.
    destruct (yield_spec c s1 ql Hi1 Hc1 Hp) as (A & B & Cf).
    unfold canboot_sched_yield in A, B, Cf. rewrite decide_True in A, B, Cf by (by rewrite Hs1).
    rewrite Hq in A, B. split; [by split|]. by apply Hfr.
Qed.

Lemma ap_online_run c fs s ql :
  inv_but None None s ql -> 0 <= c < CANBOOT_NR_CPUS -> online (canboot_cpus s c) = false ->
  inv_but None None (canboot_sched_ap_online c fs s) ql.
Proof.
  intros Hi Hc Hoff. unfold canboot_sched_ap_online.
  set (th := mkThread _ _ _ _ _ _ _ _ _ _ _ _). set (cp := mkCpu _ _ _ _ _ _ _).
  assert (H1 : inv_but None None (set_threads (<[-1 - c := th]> (g_threads s)) s) ql).
  { apply (upd_idle_inv None None (-1 - c) (fun _ => th)); [done|lia|done]. }
  set (s1 := set_threads _ s) in *. set (s2 := set_cpus _ s1).
  assert (Hcp : forall c', c' <> c -> canboot_cpus s2 c' = canboot_cpus s1 c').
  { intros. cbn. by rewrite fn_lookup_insert_ne. }
  assert (Hcc : canboot_cpus s2 c = cp) by (cbn; by rewrite fn_lookup_insert).
  assert (Hset : forall c', settled (Some c) c' s2 -> settled None c' s1 /\ canboot_cpus s2 c' = canboot_cpus s1 c').
  { intros c' (? & Ho & Hne). assert (c' <> c) by congruence. rewrite Hcp in * by done. done. }
  assert (H2 : inv_but (Some c) None s2 ql).
  { destruct H1 as [V1 V2 V3 V4 V5 V6 V7 V8 V9 V10].
    split; [eapply view_agree; [exact V1|done|done]|exact V2|exact V3|..|exact V8|exact V9|exact V10].
    - intros t ? ? Hr. destruct (V4 t) as (c' & (? & Ho & _) & Hs); [done..|]. exists c'.
      assert (c' <> c) by (intros ->; change (canboot_cpus s1 c) with (canboot_cpus s c) in Ho; congruence).
      unfold settled, self in *. rewrite Hcp by done. split; [|done]. split; [done|]. split; [done|congruence].
    - intros c' [? He]%Hset. unfold self in *. rewrite He. by apply V5.
    - intros c' ?. destruct (decide (c' = c)) as [->|]; [by rewrite Hcc|]. rewrite Hcp by done. auto.
    - intros c1 c2 [? E1]%Hset [? E2]%Hset. unfold self in *. rewrite E1, E2. by apply V7. }
  apply (dispatch_inv c s2 s2 ql) with None; try done.
  - split; [done|]. by rewrite Hcc.
  - right. split; [done|]. unfold self. by rewrite Hcc.
Qed.

(** ** Finished threads stay finished *)
(** A thread that has exited stays so, with its result, until it is reaped. *)
Definition kept (s s' : sched) : Prop := forall t, pool t -> st_of s t = CANBOOT_TH_EXITED ->
  st_of s' t = CANBOOT_TH_EXITED /\ retval (g_threads s' t) = retval (g_threads s t).

#[export] Instance kept_preorder : PreOrder kept.
Proof.
  split; [by intros s t|]. intros s1 s2 s3 H12 H23 t Hp Hst. destruct (H12 t Hp Hst) as [Hst2 E2].
  destruct (H23 t Hp Hst2) as [? ?]. split; [done|congruence].
Qed.

Lemma kept_core s s' : same_core s s' -> kept s s'.
Proof.
  intros Hc t _ Hst. pose proof (sc_threads _ _ Hc t) as E. unfold st_of in *. injection E. intros.
  split; congruence.
Qed.

Lemma kept_upd u f s : st_of s u <> CANBOOT_TH_EXITED -> kept s (upd u f s).
Proof.
  intros Hu t _ Hst. assert (u <> t) by congruence. rewrite st_upd, decide_False by done.
  split; [done|]. cbn. by rewrite fn_lookup_insert_ne.
Qed.

Lemma kept_threads s s' : g_threads s' = g_threads s -> kept s s'.
Proof. intros He t _ Hst. unfold st_of in *. by rewrite He. Qed.

Lemma push_core q t s : same_core s (q_push q t s).
Proof.
  rewrite q_push_eq. cbv zeta. etrans; [apply (upd_next_core t None)|].
  destruct (wq_tail _); [etrans; [apply upd_next_core|]|]; apply q_set_core.
Qed.

Lemma pop_core q s : same_core s (q_pop q s).2.
Proof.
  rewrite q_pop_eq. destruct (wq_head _); [|done]. cbn [snd].
  etrans; [apply q_set_core|apply upd_next_core].
Qed.

Lemma kept_reschedule c s ql :
  inv_but (Some c) None s ql -> settled None c s -> kept s (reschedule c s).
Proof.
  intros Hi Hc t Hp Hst. destruct (reschedule_inv c s ql Hi Hc) as (_ & Hn & Hf).
  split; [|pose proof (fr_thread _ _ _ Hf t) as E; cbn in E; congruence].
  rewrite reschedule_state, decide_False; [done|]. rewrite Hn. intros He. destruct Hc as ([] & _).
  apply (next_not_out c s ql (Some c) t Hi); [done..|by left].
Qed.

Lemma kept_give_way c q s ql :
  inv_but None None s ql -> settled None c s -> pool (self c s) ->
  (forall u, q = Some (JoinQ u) -> ~ finished (st_of s u)) ->
  kept s (reschedule c (q_push q (self c s) (upd (self c s) (with_state (parked q)) s))).
Proof.
  intros Hi Hc Hp Hj.
  assert (H2 := parked_inv c q s ql Hi Hc Hp Hj).
  etrans; [apply (kept_upd (self c s) (with_state (parked q))); by rewrite (cur_running c s ql)|].
  etrans; [apply kept_core, (push_core q (self c s))|].
  eapply kept_reschedule; [exact H2|]. eapply framed_settled; [|exact Hc].
  etrans; [by apply (framed_upd c (self c s) (with_state (parked q)))|]. apply framed_q_push.
Qed.

Lemma kept_wake_one C w s ql : inv_but C None s ql -> kept s (canboot_sched_wake_one w s).
Proof.
  intros Hi. unfold canboot_sched_wake_one. pose proof (pop_core (Some w) s) as Hc. cbn [q_pop] in Hc.
  destruct (pop_view (Some w) s ql (iv_view _ _ _ _ Hi)) as (s1 & Hpop & _ & _). cbn [q_pop] in Hpop.
  rewrite Hpop in Hc |- *. cbn [snd] in Hc. destruct (head (ql (Some w))) as [t|] eqn:Hh; [|by apply kept_core].
  destruct (ql (Some w)) as [|t' l] eqn:Hq; [done|]. injection Hh as ->.
  assert (Hin : t ∈ ql (Some w)) by (rewrite Hq; left). apply (iv_in _ _ _ _ Hi) in Hin as (_ & _ & Hst).
  etrans; [by apply kept_core|]. etrans; [|apply kept_core, (push_core None)].
  apply kept_upd. rewrite (same_core_state _ _ t Hc : st_of s1 t = st_of s t). by rewrite Hst.
Qed.

Lemma kept_wake_all w fuel : forall C s ql s',
  inv_but C None s ql -> canboot_sched_wake_all fuel w s = Some s' -> kept s s'.
Proof.
  induction fuel as [|fuel IH]; intros C s ql s' Hi; rewrite wake_all_unfold;
    destruct (wq_pop w s).1; intros Hw; simplify_eq; try done.
  etrans; [by eapply kept_wake_one|]. eapply IH; [|exact Hw].
  by destruct (wake_one_spec C w 0 s ql Hi) as (? & _).
Qed.

Lemma kept_exit c r s ql s' :
  inv_but None None s ql -> settled None c s -> pool (self c s) ->
  canboot_thread_exit 16 c r s = Some s' -> kept s s'.
Proof.
  intros Hi Hc Hp. unfold canboot_thread_exit. set (t := self c s) in *.
  pose proof (cur_running c s ql Hi Hc Hp) as Hr. fold t in Hr.
  set (s1 := upd t (with_retval r) s).
  assert (H1 : inv_but None None s1 ql) by (by apply upd_soft_inv).
  destruct (wake_all_spec c (JoinQ t) 16 None s1 ql H1) as (s2 & Hw & H2 & Hcp & Hf).
  { by eapply pool_bound. }
  rewrite Hw. intros [= <-]. set (b := andb _ _). set (st := if b then _ else _).
  assert (Hst : finished st) by (unfold st; destruct b; [by right|by left]). clearbody st.
  assert (Hc2 : settled None c s2) by (eapply framed_settled; [exact Hf|exact Hc]).
  assert (Hs2 : self c s2 = t) by (unfold self; rewrite Hcp; done).
  pose proof (cur_running c s2 _ H2 Hc2 ltac:(by rewrite Hs2)) as Hr2. rewrite Hs2 in Hr2.
  etrans; [apply (kept_upd t (with_retval r)); by rewrite Hr|].
  etrans; [by eapply kept_wake_all|].
  etrans; [apply (kept_upd t (with_state st)); by rewrite Hr2|].
  eapply kept_reschedule; [|exact Hc2]. apply (finish_inv _ t).
  - apply put_inv; [|done| |by destruct Hst as [-> | ->]].
    + rewrite <- Hs2. apply leave_inv; [done|done|by rewrite Hs2].
    + intros _. cbn. rewrite <- Hs2 at 2. rewrite <- Hs2 at 1. apply (cur_id c s2 _ H2 Hc2). by rewrite Hs2.
  - by rewrite st_upd, decide_True by done.
  - unfold woken_all. rewrite fn_lookup_insert_ne by done. by rewrite fn_lookup_insert.
Qed.

Lemma kept_preempt c s ql :
  inv_but None None s ql -> settled None c s -> kept s (canboot_sched_preempt c s).
Proof.
  intros Hi Hc. unfold canboot_sched_preempt. set (s1 := set_preempt _ _ _ s). cbv zeta.
  assert (Hi1 : inv_but None None s1 ql) by (by apply cpu_soft_inv).
  assert (Hc1 : settled None c s1) by (by apply settled_preempt).
  assert (Hs1 : self c s1 = self c s) by apply self_preempt.
  destruct (wq_head _); [|by apply kept_threads].
  etrans; [by apply (kept_threads s s1)|]. fold (self c s).
  rewrite (iv_idle _ _ _ _ Hi c) by (destruct Hc as (? & ? & _); done).
  destruct (decide (self c s = -1 - c)) as [He|He].
  - rewrite decide_False by tauto. eapply kept_reschedule; [|done]. apply leave_idle_inv; [done..|congruence].
  - assert (Hp : pool (self c s1)).
    { rewrite Hs1. by destruct (iv_cur _ _ _ _ Hi c Hc) as [|(? & _)]. }
    pose proof (cur_running c s1 ql Hi1 Hc1 Hp) as Hr. rewrite Hs1 in Hr.
    rewrite decide_True by (by split). rewrite <- Hs1.
    by apply (kept_give_way c None s1 ql).
Qed.

Lemma yield_give_way c s ql :
  inv_but None None s ql -> settled None c s -> pool (self c s) ->
  canboot_sched_yield c s =
  reschedule c (q_push None (self c s) (upd (self c s) (with_state (parked None)) s)).
Proof.
  intros Hi Hc Hp. unfold canboot_sched_yield.
  pose proof (cur_running c s ql Hi Hc Hp) as Hr. unfold st_of in Hr. by rewrite decide_True by done.
Qed.

Lemma create_kept fn a s ql :
  inv_but None None s ql -> kept s (canboot_thread_create fn a s).2.
Proof.
  intros Hi. pose proof (create_run fn a s ql Hi) as Hr.
  destruct (canboot_thread_create fn a s) as [[i|] s']; [|by destruct Hr as [-> _]].
  destruct Hr as (_ & Hf & _ & Hk & _). intros t Hp Hst. assert (t <> i) by congruence.
  specialize (Hk t ltac:(done)). unfold st_of in *. injection Hk. intros. cbn [snd]. split; congruence.
Qed.

(** ** Every step *)
(** The step reaps thread [t]. *)
Definition reaps (o : op) (t : Z) : Prop := o = OJoin t \/ o = ODetach t.

Definition step_ok (o : op) (s s' : sched) : Prop :=
  inv s' /\ forall t, pool t -> ~ reaps o t -> st_of s t = CANBOOT_TH_EXITED ->
    st_of s' t = CANBOOT_TH_EXITED /\ retval (g_threads s' t) = retval (g_threads s t).

Lemma step_ok_intro o s s' ql : inv_but None None s' ql -> kept s s' -> step_ok o s s'.
Proof. intros Hi Hk. split; [by exists ql|]. intros t Hp _. by apply Hk. Qed.
#[local] Hint Resolve kept_threads : core.

Lemma block_ok o c w s ql :
  inv_but None None s ql -> settled None c s -> pool (self c s) ->
  (forall u, w = JoinQ u -> ~ finished (st_of s u)) ->
  step_ok o s (canboot_sched_block_on c w s).
Proof.
  intros Hi Hc Hp Hj. destruct (block_on_spec c w s ql Hi Hc Hp Hj) as (H1 & _).
  eapply step_ok_intro; [exact H1|]. apply (kept_give_way c (Some w) s ql); [done..|].
  intros u [= ->]. by apply Hj.
Qed.

Lemma yield_ok o c s ql :
  inv_but None None s ql -> settled None c s -> pool (self c s) ->
  step_ok o s (canboot_sched_yield c s).
Proof.
  intros Hi Hc Hp. destruct (yield_spec c s ql Hi Hc Hp) as (H1 & _).
  eapply step_ok_intro; [exact H1|]. rewrite (yield_give_way c s ql) by done.
  by apply (kept_give_way c None s ql).
Qed.

Lemma tick_ok c s ql :
  inv_but None None s ql -> settled None c s -> step_ok OTick s (canboot_sched_on_tick c s).
Proof.
  intros Hi Hc. unfold canboot_sched_on_tick. set (s1 := set_gates _ _ _ s). cbv zeta.
  assert (Hi1 : inv_but None None s1 ql) by (by apply gates_inv).
  assert (Hk1 : kept s s1) by auto.
  destruct (negb (g_preempt_enabled s1)); [by eapply step_ok_intro|].
  destruct (negb (_ =? 0)).
  { eapply step_ok_intro; [by apply cpu_soft_inv|auto]. }
  pose proof (preempt_run c s1 ql Hi1 Hc) as [Hp _]. cbv zeta in Hp.
  pose proof (kept_preempt c s1 ql Hi1 Hc) as Hk2.
  destruct (ql None); destruct Hp as [Hp _]; (eapply step_ok_intro; [exact Hp|]; etrans; [exact Hk1|exact Hk2]).
Qed.

Lemma step_spec c o s :
  inv s -> allowed c o s -> exists s', exec c o s = Some s' /\ step_ok o s s'.
Proof.
  intros [ql Hi] (Hb & Ho & Hw).
  assert (Hc : (forall fs, o <> OApOnline fs) -> settled None c s).
  { intros Hne. split; [done|]. split; [|done]. destruct o; try done. by destruct (Hne fs). }
  destruct o as [w|w|w| | | |fn a|t|r|t| | | | |fs| |b]; try specialize (Hc ltac:(done)).
  - destruct Hw as [Hp [x ->]]. eexists. split; [done|]. by eapply block_ok.
  - eexists. split; [done|]. destruct (wake_one_spec None w c s ql Hi) as (H1 & _).
    eapply step_ok_intro; [exact H1|]. by eapply kept_wake_one.
  - destruct (wake_all_spec c w 16 None s ql Hi) as (s' & He & H1 & _); [by eapply pool_bound|].
    exists s'. split; [done|]. eapply step_ok_intro; [exact H1|]. by eapply kept_wake_all.
  - eexists. split; [done|]. unfold canboot_gil_acquire. cbv zeta. destruct (_ && _)%bool.
    + by eapply block_ok.
    + eapply step_ok_intro; [by apply gil_inv|auto].
  - eexists. split; [done|]. unfold canboot_gil_release.
    assert (H0 : inv_but None None (set_gil false None s) ql) by (by apply gil_inv).
    destruct (wake_one_spec None GilQ c _ ql H0) as (H1 & _). eapply step_ok_intro; [exact H1|].
    etrans; [|by eapply kept_wake_one]. auto.
  - eexists. split; [done|]. by eapply yield_ok.
  - eexists. split; [done|]. pose proof (create_kept fn a s ql Hi) as Hk.
    pose proof (create_run fn a s ql Hi) as Hr. destruct (canboot_thread_create fn a s) as [[i|] s'].
    + destruct Hr as (_ & _ & H1 & _). by eapply step_ok_intro.
    + destruct Hr as [-> _]. by eapply step_ok_intro.
  - destruct Hw as [Hp Ht]. eexists. split; [done|]. split; [exists ql; by apply detach_inv|].
    intros u Hu Hr Hst. assert (u <> t) by (intros ->; by destruct Hr; right).
    unfold canboot_thread_detach. case_decide; rewrite st_upd, decide_False by done;
      (split; [done|]; cbn; by rewrite fn_lookup_insert_ne).
  - destruct (exit_spec c r s ql Hi Hc Hw) as (s' & He & H1 & _). exists s'. split; [done|].
    eapply step_ok_intro; [exact H1|]. by eapply kept_exit.
  - destruct Hw as [Hp Ht]. eexists. split; [done|].
    pose proof (join_run c t s ql Hi Hc Hp Ht) as Hj.
    assert (Hj2 : ~ finished (st_of s t) -> step_ok (OJoin t) s (canboot_sched_block_on c (JoinQ t) s)).
    { intros Hnf. eapply block_ok; [done..|]. by intros u [= <-]. }
    destruct (canboot_thread_join c t s) as [[v|] s'] eqn:Hjoin; cbn [snd].
    + destruct Hj as (_ & _ & -> & H1). split; [by exists ql|]. intros u Hu Hr Hst.
      assert (u <> t) by (intros ->; by destruct Hr; left).
      destruct (0 <=? _); [|done]. rewrite st_upd, decide_False by done. split; [done|].
      cbn. by rewrite fn_lookup_insert_ne.
    + destruct Hj as (Hnf & _). specialize (Hj2 Hnf). unfold canboot_thread_join in Hjoin.
      case_decide; simplify_eq. done.
  - eexists. split; [done|]. eapply step_ok_intro; [by apply cpu_soft_inv|auto].
  - eexists. split; [done|]. unfold canboot_preempt_enable. cbv zeta. set (s1 := set_preempt _ _ _ s).
    assert (Hi1 : inv_but None None s1 ql) by (by apply cpu_soft_inv).
    destruct (_ && _)%bool; [|by eapply step_ok_intro; [|auto]].
    destruct (yield_ok OPreemptEnable c s1 ql Hi1) as [H1 H2].
    + by apply settled_preempt.
    + unfold s1. by rewrite self_preempt.
    + by split.
  - eexists. split; [done|]. by eapply tick_ok.
  - rewrite (iv_idle _ _ _ _ Hi c) in Hw by done. eexists. split; [done|].
    destruct (idle_round c s ql Hi Hc Hw) as (H1 & _). eapply step_ok_intro; [exact H1|].
    eapply kept_reschedule; [by apply leave_idle_inv|done].
  - eexists. split; [done|]. eapply step_ok_intro; [by apply ap_online_run|].
    intros t Hp Hst. unfold st_of in *. cbn. rewrite fn_lookup_insert_ne; [done|]. unfold pool in Hp. lia.
  - eexists. split; [done|]. eapply step_ok_intro; [by apply gates_inv|auto].
  - eexists. split; [done|]. eapply step_ok_intro; [by apply gates_inv|auto].
Qed.

Lemma reachable_inv s : reachable s -> inv s.
Proof.
  induction 1 as [tls|s c o s' _ IH Ha He]; [apply boot_inv|].
  destruct (step_spec c o s IH Ha) as (s1 & He1 & [Hi _]). congruence.
Qed.

(** ** The queues, read off the links *)
Fixpoint links (fuel : nat) (h : option Z) (s : sched) : list Z :=
  match fuel, h with
  | S f, Some t => t :: links f (q_next (g_threads s t)) s
  | _, _ => []
  end.
Definition waiting (q : qref) (s : sched) : list Z := links 16 (wq_head (q_get q s)) s.

Lemma links_lseg s l : forall fuel h, lseg (nx s) h l -> (length l <= fuel)%nat -> links fuel h s = l.
Proof.
  induction l as [|t l IH]; intros fuel h Hl Hf; cbn in Hl.
  - subst h. by destruct fuel.
  - destruct Hl as [-> Hl]. destruct fuel as [|fuel]; [cbn in Hf; lia|]. cbn. f_equal.
    apply IH; [done|cbn in Hf; lia].
Qed.

Lemma waiting_list C x s ql q : inv_but C x s ql -> waiting q s = ql q.
Proof.
  intros Hi. apply links_lseg; [apply (v_queue _ _ (iv_view _ _ _ _ Hi))|by eapply pool_bound].
Qed.

(** ** What the scheduler promises *)
(** C15.  In every reachable state the queues and the CPUs hold each thread in
    exactly the place its state says, and every call a thread may make returns. *)
Theorem sched_invariant s :
  reachable s ->
  inv s /\ forall c o, allowed c o s -> exists s', exec c o s = Some s'.
Proof.
  intros Hr%reachable_inv. split; [done|]. intros c o Ha.
  destruct (step_spec c o s Hr Ha) as (s' & He & _). by exists s'.
Qed.

(** Steps in which nobody reaps [t]. *)
Inductive steps_keeping (t : Z) : sched -> sched -> Prop :=
| sk_refl s : steps_keeping t s s
| sk_step s c o s1 s2 : allowed c o s -> ~ reaps o t -> exec c o s = Some s1 ->
    steps_keeping t s1 s2 -> steps_keeping t s s2.

Lemma steps_kept t s s' : steps_keeping t s s' -> inv s -> pool t -> st_of s t = CANBOOT_TH_EXITED ->
  inv s' /\ st_of s' t = CANBOOT_TH_EXITED /\ retval (g_threads s' t) = retval (g_threads s t).
Proof.
  induction 1 as [s|s c o s1 s2 Ha Hr He _ IH]; intros Hi Hp Hst; [done|].
  destruct (step_spec c o s Hi Ha) as (s1' & He' & [Hi1 Hk]). rewrite He in He'. injection He' as <-.
  destruct (Hk t Hp Hr Hst) as [Hst1 Hv1]. destruct (IH Hi1 Hp Hst1) as (? & ? & ?).
  split; [done|]. split; [done|congruence].
Qed.


(** Creation takes a slot that is free, on no queue and on no CPU, and
    appends the new thread to the run queue, or reports a pool with no free
    slot and changes nothing. *)
Theorem create_fresh fn a s :
  reachable s ->
  match canboot_thread_create fn a s with
  | (Some i, s') =>
      1 <= i < CANBOOT_THREAD_POOL /\ st_of s i = CANBOOT_TH_FREE /\
      (forall q, i ∉ waiting q s) /\ (forall c, settled None c s -> self c s <> i) /\
      waiting None s' = waiting None s ++ [i] /\
      (forall w, waiting (Some w) s' = waiting (Some w) s) /\
      entry (g_threads s' i) = fn /\ arg (g_threads s' i) = a
  | (None, s') => s' = s /\ forall t, 1 <= t < CANBOOT_THREAD_POOL -> st_of s t <> CANBOOT_TH_FREE
  end.
Proof.
  intros [ql Hi]%reachable_inv. pose proof (create_run fn a s ql Hi) as Hr.
  destruct (canboot_thread_create fn a s) as [[i|] s']; [|done].
  destruct Hr as (Hb & Hst & Hi' & _ & He & _). split; [done|]. split; [done|]. split; [|split].
  - intros q. rewrite (waiting_list _ _ _ _ q Hi). intros Hin.
    apply (iv_in _ _ _ _ Hi) in Hin as (_ & _ & Hq). rewrite Hst in Hq. by destruct q.
  - intros c Hc Hs. destruct (iv_cur _ _ _ _ Hi c Hc) as [E|(_ & _ & E)]; [|congruence].
    destruct Hc as ([] & _). lia.
  - split; [|split].
    + rewrite (waiting_list _ _ _ _ None Hi), (waiting_list _ _ _ _ None Hi'). by rewrite fn_lookup_insert.
    + intros w. rewrite (waiting_list _ _ _ _ _ Hi), (waiting_list _ _ _ _ _ Hi'). by rewrite fn_lookup_insert_ne.
    + by injection He.
Qed.

(** One tick with the gates open. *)
Lemma tick_run c s ql t l :
  inv_but None None s ql -> settled None c s -> g_preempt_enabled s = true ->
  preempt_count (canboot_cpus s c) = 0 -> ql None = t :: l ->
  let s' := canboot_sched_on_tick c s in
  inv_but None None s' (<[None := rotated c s l]> ql) /\ self c s' = t /\
  settled None c s' /\ g_preempt_enabled s' = true /\ preempt_count (canboot_cpus s' c) = 0.
Proof.
  intros Hi Hc Hg Hn Hq. unfold canboot_sched_on_tick. set (s1 := set_gates _ _ _ s). cbv zeta.
  change (g_preempt_enabled s1) with (g_preempt_enabled s). rewrite Hg.
  change (canboot_cpus s1) with (canboot_cpus s). rewrite Hn. cbn [negb Z.eqb].
  destruct (preempt_run c s1 ql) as (H1 & H2 & H3 & H4 & _); [by apply gates_inv|exact Hc|].
  rewrite Hq in H1. destruct H1 as [H1 H1']. split; [exact H1|]. split; [done|]. split; [done|].
  split; [by rewrite H4|by rewrite H3].
Qed.

(** C19.  With preemption on, the timer of a CPU goes around the run queue: the
    thread in position [k] is the one that runs after [k + 1] ticks. *)
Theorem tick_round_robin c k : forall s t,
  inv s -> settled None c s -> g_preempt_enabled s = true ->
  preempt_count (canboot_cpus s c) = 0 -> waiting None s !! k = Some t ->
  self c (Nat.iter (S k) (canboot_sched_on_tick c) s) = t.
Proof.
  induction k as [|k IH]; intros s t [ql Hi] Hc Hg Hn Hk;
    rewrite (waiting_list _ _ _ _ None Hi) in Hk;
    destruct (ql None) as [|t0 l] eqn:Hq; try done;
    destruct (tick_run c s ql t0 l Hi Hc Hg Hn Hq) as (H1 & H2 & H3 & H4 & H5).
  - cbn in Hk. injection Hk as <-. done.
  - rewrite Nat.iter_succ_r. apply IH; [by eexists|done..|].
    rewrite (waiting_list _ _ _ _ None H1), fn_lookup_insert. cbn in Hk. unfold rotated.
    case_decide; [done|]. by apply lookup_app_l_Some.
Qed.

(** Waking is first come, first served: the longest waiter of the queue
    goes to the end of the run queue, and no other queue changes. *)
Theorem wake_one_fifo w s t l :
  reachable s -> waiting (Some w) s = t :: l ->
  let s' := canboot_sched_wake_one w s in
  waiting None s' = waiting None s ++ [t] /\ waiting (Some w) s' = l /\
  st_of s t = CANBOOT_TH_BLOCKED /\ st_of s' t = CANBOOT_TH_RUNNABLE /\
  forall w', w' <> w -> waiting (Some w') s' = waiting (Some w') s.
Proof.
  intros [ql Hi]%reachable_inv Hw. rewrite (waiting_list _ _ _ _ _ Hi) in Hw.
  destruct (wake_one_spec None w 0 s ql Hi) as (H1 & _). cbv zeta.
  unfold woken_one in H1. rewrite Hw in H1. cbn [head tail] in H1.
  rewrite (waiting_list _ _ _ _ None H1), (waiting_list _ _ _ _ (Some w) H1), (waiting_list _ _ _ _ None Hi).
  rewrite fn_lookup_insert, fn_lookup_insert_ne, fn_lookup_insert by done.
  split; [done|]. split; [done|]. split; [|split].
  - apply (iv_in _ _ _ _ Hi (Some w)). rewrite Hw. left.
  - apply (iv_in _ _ _ _ H1 None). rewrite fn_lookup_insert. set_solver.
  - intros w' Hne. rewrite (waiting_list _ _ _ _ _ H1), (waiting_list _ _ _ _ _ Hi).
    by rewrite !fn_lookup_insert_ne by congruence.
Qed.

(** ** Runs *)
Definition poolb (t : Z) : bool := (0 <=? t) && (t <? CANBOOT_THREAD_POOL).
Definition allowedb (c : Z) (o : op) (s : sched) : bool :=
  (0 <=? c) && (c <? CANBOOT_NR_CPUS) &&
  match o with
  | OApOnline _ => negb (online (canboot_cpus s c))
  | _ => online (canboot_cpus s c)
  end &&
  match o with
  | OApOnline _ | OTick => true
  | OIdle => self c s =? idle (canboot_cpus s c)
  | OBlock (ObjQ _) | OWakeOne (ObjQ _) | OWakeAll (ObjQ _) => poolb (self c s)
  | OBlock _ | OWakeOne _ | OWakeAll _ => false
  | ODetach t | OJoin t => poolb (self c s) && poolb t
  | _ => poolb (self c s)
  end.

Lemma allowedb_ok c o s : allowedb c o s = true -> allowed c o s.
Proof.
  unfold allowedb, allowed, poolb, pool. rewrite !andb_true_iff. intros [[? Ho] Hw].
  split; [lia|]. split; [destruct o; try done; by destruct (online _)|].
  destruct o; try done; try (destruct w; try done; split; [lia|by eexists]);
    try (rewrite !andb_true_iff in Hw; lia); lia.
Qed.

Fixpoint run (l : list (Z * op)) (s : sched) : option sched :=
  match l with
  | [] => Some s
  | (c, o) :: l' => if allowedb c o s then match exec c o s with Some s' => run l' s' | None => None end
                    else None
  end.

Lemma run_reachable l : forall s s', reachable s -> run l s = Some s' -> reachable s'.
Proof.
  induction l as [|[c o] l IH]; intros s s' Hs Hr; cbn in Hr; [by simplify_eq|].
  destruct (allowedb c o s) eqn:Ha; [|done]. destruct (exec c o s) as [s1|] eqn:He; [|done].
  apply (IH s1); [|done]. eapply reach_step; [done|by apply allowedb_ok|done].
Qed.

Definition run_from (l : list (Z * op)) (s : sched) : sched :=
  match run l s with Some s' => s' | None => s end.

Lemma run_from_reachable l s :
  reachable s -> (match run l s with Some _ => true | None => false end) = true ->
  reachable (run_from l s).
Proof.
  intros Hs Hr. unfold run_from. destruct (run l s) as [s'|] eqn:He; [|done]. by eapply run_reachable.
Qed.

Lemma exec_run_from c o s :
  (match run [(c, o)] s with Some _ => true | None => false end) = true ->
  exec c o s = Some (run_from [(c, o)] s).
Proof. unfold run_from. cbn. destruct (allowedb c o s); [|done]. by destruct (exec c o s). Qed.

(** Two threads are created; the second one runs on the second CPU, and the
    main thread waits on an object. *)
Definition demo_trace : list (Z * op) :=
  [(0, OSetPreemption true); (0, OCreate 100 7); (0, OCreate 200 8); (0, OCreate 300 9);
   (1, OApOnline None); (1, OIdle); (0, OBlock (ObjQ 5))].
Definition demo_sched : sched := run_from demo_trace (boot_sched None).

Lemma demo_reachable : reachable demo_sched.
Proof. apply run_from_reachable; [constructor|vm_compute; reflexivity]. Qed.

Lemma sched_invariant_witness : inv demo_sched /\
  forall c o, allowed c o demo_sched -> exists s', exec c o demo_sched = Some s'.
Proof. apply (sched_invariant demo_sched). exact demo_reachable. Defined.


Lemma create_fresh_witness :
  match canboot_thread_create 1 2 demo_sched with
  | (Some i, s') =>
      1 <= i < CANBOOT_THREAD_POOL /\ st_of demo_sched i = CANBOOT_TH_FREE /\
      (forall q, i ∉ waiting q demo_sched) /\
      (forall c, settled None c demo_sched -> self c demo_sched <> i) /\
      waiting None s' = waiting None demo_sched ++ [i] /\
      (forall w, waiting (Some w) s' = waiting (Some w) demo_sched) /\
      entry (g_threads s' i) = 1 /\ arg (g_threads s' i) = 2
  | (None, s') => s' = demo_sched /\
      forall t, 1 <= t < CANBOOT_THREAD_POOL -> st_of demo_sched t <> CANBOOT_TH_FREE
  end.
Proof. apply (create_fresh 1 2 demo_sched). exact demo_reachable. Defined.

Lemma tick_round_robin_witness :
  let s := run_from [(0, OSetPreemption true); (0, OCreate 100 7); (0, OCreate 200 8)] (boot_sched None) in
  waiting None s !! 1%nat = Some 2 /\ self 0 (Nat.iter 2 (canboot_sched_on_tick 0) s) = 2.
Proof.
  cbv zeta. set (s := run_from _ _).
  assert (Hw : waiting None s !! 1%nat = Some 2) by (vm_compute; reflexivity).
  split; [exact Hw|]. apply (tick_round_robin 0 1).
  - apply reachable_inv, run_from_reachable; [constructor|vm_compute; reflexivity].
  - split; [by split|]. split; [vm_compute; reflexivity|discriminate].
  - vm_compute. reflexivity.
  - vm_compute. reflexivity.
  - exact Hw.
Defined.

Lemma wake_one_fifo_witness :
  waiting (Some (ObjQ 5)) demo_sched = [0] /\
  waiting None (canboot_sched_wake_one (ObjQ 5) demo_sched) = waiting None demo_sched ++ [0].
Proof.
  assert (Hw : waiting (Some (ObjQ 5)) demo_sched = [0]) by (vm_compute; reflexivity).
  split; [exact Hw|]. apply (wake_one_fifo (ObjQ 5) demo_sched 0 []); [exact demo_reachable|exact Hw].
Defined.
