(* ===== verification/Pthread.v ===== *)
(** * Threads, mutexes, condition variables and once controls,
    [rt/pthread_stub/pthread.c]

    Each function is the sequence of its critical sections under the scheduler
    lock.  A section that parks the caller in a [while] loop is given by one
    round of the loop: the round either leaves the loop or parks the caller,
    which makes the next round when it runs again.  A thread's continuation is
    the list of the sections it still has to go through. *)
From stdpp Require Import functions.
From S2P Require Import Prelude Sched SchedInv SchedProps.

Definition ESRCH : Z := 3.
Definition EAGAIN : Z := 11.
Definition EBUSY : Z := 16.

Record pthread_mutex_t : Type := mkMutex { locked : bool; owner : Z }.
Definition PTHREAD_MUTEX_INITIALIZER : pthread_mutex_t := mkMutex false (-1).

(** The wait queues embedded in the objects. *)
Definition mutex_q (m : Z) : wqref := ObjQ (3 * m).
Definition cond_q (v : Z) : wqref := ObjQ (3 * v + 1).
Definition once_q (o : Z) : wqref := ObjQ (3 * o + 2).

(** The sections a thread goes through. *)
Inductive micro : Type :=
| MUser                     (* the program's own code *)
| MLock (m : Z)
| MTrylock (m : Z)
| MUnlock (m : Z)
| MWait (v m : Z)           (* first half of [pthread_cond_wait] *)
| MSignal (v : Z)
| MBroadcast (v : Z)
| MGilAcquire
| MGilRelease
| MOnce (o : Z)             (* entry of [pthread_once] *)
| MOnceWait (o : Z)         (* its waiting loop *)
| MOnceDone (o : Z)         (* after [init()] *)
| MJoin (t : Z)
| MYield
| MExit (r : option Z).     (* with [r], or with the value the program returned *)

Record psys : Type := mkP {
  ps : sched;
  mutexes : Z -> pthread_mutex_t;
  generation : Z -> Z;
  once_state : Z -> Z;
  cont : Z -> list micro;
  uret : Z -> Z;
}.

Definition on_sched (f : sched -> sched) (p : psys) : psys :=
  mkP (f (ps p)) (mutexes p) (generation p) (once_state p) (cont p) (uret p).
Definition set_mutex (m : Z) (x : pthread_mutex_t) (p : psys) : psys :=
  mkP (ps p) (<[m := x]> (mutexes p)) (generation p) (once_state p) (cont p) (uret p).
Definition set_generation (v g : Z) (p : psys) : psys :=
  mkP (ps p) (mutexes p) (<[v := g]> (generation p)) (once_state p) (cont p) (uret p).
Definition set_once (o x : Z) (p : psys) : psys :=
  mkP (ps p) (mutexes p) (generation p) (<[o := x]> (once_state p)) (cont p) (uret p).
Definition set_cont (t : Z) (k : list micro) (p : psys) : psys :=
  mkP (ps p) (mutexes p) (generation p) (once_state p) (<[t := k]> (cont p)) (uret p).

(** ** Lifecycle *)
Definition pthread_self (c : Z) (p : psys) : Z :=
  id (g_threads (ps p) (canboot_thread_current c (ps p))).

Definition pthread_equal (a b : Z) : bool := a =? b.

(** What a created thread goes through, [gil_thread_entry] and the return into
    [thread_trampoline]. *)
Definition gil_thread_entry : list micro := [MGilAcquire; MUser; MGilRelease; MExit None].
Definition GIL_THREAD_ENTRY : Z := -2.

(** [th] is the result of [malloc]. *)
Definition pthread_create (th : option Z) (p : psys) : (Z * option Z) * psys :=
  match th with
  | None => ((EAGAIN, None), p)
  | Some th =>
      match canboot_thread_create GIL_THREAD_ENTRY th (ps p) with
      | (None, _) => ((EAGAIN, None), p)
      | (Some t, s) => ((0, Some t), set_cont t gil_thread_entry (on_sched (fun _ => s) p))
      end
  end.

Definition pthread_detach (tid : Z) (p : psys) : Z * psys :=
  match canboot_thread_by_id tid with
  | None => (ESRCH, p)
  | Some t => (0, on_sched (canboot_thread_detach t) p)
  end.

Definition pthread_yield (c : Z) (p : psys) : psys := on_sched (canboot_sched_yield c) p.

Definition pthread_join (had_gil : bool) (tid : Z) : option (list micro) :=
  match canboot_thread_by_id tid with
  | None => None                                (* ESRCH *)
  | Some t => Some ((if had_gil then [MGilRelease] else []) ++ [MJoin t] ++
                    (if had_gil then [MGilAcquire] else []))
  end.

(** ** Mutexes *)
Definition pthread_mutex_init (m : Z) (p : psys) : psys :=
  on_sched (wq_set (mutex_q m) CANBOOT_WAIT_QUEUE_INITIALIZER)
    (set_mutex m PTHREAD_MUTEX_INITIALIZER p).

Definition pthread_mutex_trylock (c m : Z) (p : psys) : Z * psys :=
  if locked (mutexes p m) then (EBUSY, p)
  else (0, set_mutex m (mkMutex true (pthread_self c p)) p).

(** One round of the loop; [true] when the mutex is taken. *)
Definition pthread_mutex_lock (c m : Z) (p : psys) : bool * psys :=
  if locked (mutexes p m) then (false, on_sched (canboot_sched_block_on c (mutex_q m)) p)
  else (true, set_mutex m (mkMutex true (pthread_self c p)) p).

Definition pthread_mutex_unlock (m : Z) (p : psys) : psys :=
  on_sched (canboot_sched_wake_one (mutex_q m)) (set_mutex m (mkMutex false (-1)) p).

(** ** Condition variables *)
Definition pthread_cond_init (v : Z) (p : psys) : psys :=
  on_sched (wq_set (cond_q v) CANBOOT_WAIT_QUEUE_INITIALIZER) (set_generation v 0 p).

(** The section that drops the mutex and parks on the variable. *)
Definition cond_wait_park (c v m : Z) (p : psys) : psys :=
  on_sched (canboot_sched_block_on c (cond_q v))
    (on_sched (canboot_sched_wake_one (mutex_q m)) (set_mutex m (mkMutex false (-1)) p)).

Definition pthread_cond_wait (had_gil : bool) (v m : Z) : list micro :=
  (if had_gil then [MGilRelease] else []) ++ [MWait v m] ++
  (if had_gil then [MGilAcquire] else []) ++ [MLock m].

Definition pthread_cond_signal (v : Z) (p : psys) : psys :=
  on_sched (canboot_sched_wake_one (cond_q v)) (set_generation v (s32 (generation p v + 1)) p).

Definition pthread_cond_broadcast (v : Z) (p : psys) : option psys :=
  match canboot_sched_wake_all 16 (cond_q v) (ps p) with
  | Some s => Some (on_sched (fun _ => s) (set_generation v (s32 (generation p v + 1)) p))
  | None => None
  end.

(** ** Once *)
(** The first section of [pthread_once]: what is left to do. *)
Definition pthread_once (o : Z) (p : psys) : list micro * psys :=
  if once_state p o =? 2 then ([], p)
  else if once_state p o =? 1 then ([MOnceWait o], p)
  else ([MUser; MOnceDone o], set_once o 1 p).

Definition once_wait (c o : Z) (p : psys) : bool * psys :=
  if once_state p o =? 2 then (true, p)
  else (false, on_sched (canboot_sched_block_on c (once_q o)) p).

Definition once_done (o : Z) (p : psys) : option psys :=
  match canboot_sched_wake_all 16 (once_q o) (ps p) with
  | Some s => Some (on_sched (fun _ => s) (set_once o 2 p))
  | None => None
  end.

(** ** Running the sections *)
Inductive event : Type :=
| EAcq (t m : Z)            (* took the mutex *)
| ERel (t m : Z)            (* gave it back *)
| EInit (t o : Z)           (* starts [init()] *)
| EInitDone (t o : Z)       (* has run it *)
| EOnceRet (t o : Z).       (* [pthread_once] returns *)

#[export] Instance event_eq : EqDecision event.
Proof. solve_decision. Defined.

(** One section of the current thread of CPU [c]: what remains to be done in
    its place, the events, and the new state. *)
Definition section (c : Z) (u : micro) (p : psys) : option (list micro * list event * psys) :=
  let t := self c (ps p) in
  match u with
  | MUser => None
  | MLock m =>
      let (b, p') := pthread_mutex_lock c m p in
      Some (if b then ([], [EAcq t m], p') else ([MLock m], [], p'))
  | MTrylock m =>
      let (rc, p') := pthread_mutex_trylock c m p in
      Some ([], if rc =? 0 then [EAcq t m] else [], p')
  | MUnlock m => Some ([], [ERel t m], pthread_mutex_unlock m p)
  | MWait v m => Some ([], [ERel t m], cond_wait_park c v m p)
  | MSignal v => Some ([], [], pthread_cond_signal v p)
  | MBroadcast v =>
      match pthread_cond_broadcast v p with Some p' => Some ([], [], p') | None => None end
  | MGilAcquire =>
      let (b, s) := canboot_gil_acquire c (ps p) in
      Some (if b then [] else [MGilAcquire], [], on_sched (fun _ => s) p)
  | MGilRelease => Some ([], [], on_sched canboot_gil_release p)
  | MOnce o =>
      let (k, p') := pthread_once o p in
      Some (k, match k with [] => [EOnceRet t o] | MUser :: _ => [EInit t o] | _ => [] end, p')
  | MOnceWait o =>
      let (b, p') := once_wait c o p in
      Some (if b then ([], [EOnceRet t o], p') else ([MOnceWait o], [], p'))
  | MOnceDone o =>
      match once_done o p with
      | Some p' => Some ([], [EOnceRet t o; EInitDone t o], p')
      | None => None
      end
  | MJoin x =>
      let (r, s) := canboot_thread_join c x (ps p) in
      Some (match r with Some _ => [] | None => [MJoin x] end, [], on_sched (fun _ => s) p)
  | MYield => Some ([], [], pthread_yield c p)
  | MExit r =>
      match canboot_thread_exit 16 c (match r with Some r => r | None => uret p t end) (ps p) with
      | Some s => Some ([], [], on_sched (fun _ => s) p)
      | None => None
      end
  end.

(** ** The system *)
Inductive call : Type :=
| CLock (m : Z)
| CTrylock (m : Z)
| CUnlock (m : Z)
| CWait (v m : Z)
| CSignal (v : Z)
| CBroadcast (v : Z)
| COnce (o : Z)
| CJoin (tid : Z)
| CYield
| CExit (r : Z)
| CGilAcquire
| CGilRelease.

Definition code (had_gil : bool) (x : call) : list micro :=
  match x with
  | CLock m => [MLock m]
  | CTrylock m => [MTrylock m]
  | CUnlock m => [MUnlock m]
  | CWait v m => pthread_cond_wait had_gil v m
  | CSignal v => [MSignal v]
  | CBroadcast v => [MBroadcast v]
  | COnce o => [MOnce o]
  | CJoin tid => match pthread_join had_gil tid with Some k => k | None => [] end
  | CYield => [MYield]
  | CExit r => [MExit (Some r)]
  | CGilAcquire => [MGilAcquire]
  | CGilRelease => [MGilRelease]
  end.

(** A pool thread runs on CPU [c]. *)
Definition running (c : Z) (p : psys) : Prop := settled None c (ps p) /\ pool (self c (ps p)).

(** Steps of the timer, of the idle loop and of the bring-up. *)
Definition hardware (o : op) : bool :=
  match o with
  | OTick | OIdle | OApOnline _ | OArmIrqs | OSetPreemption _ | OPreemptDisable | OPreemptEnable => true
  | _ => false
  end.

Inductive pstep : psys -> list event -> psys -> Prop :=
| st_section c u k r evs p p1 :
    running c p -> cont p (self c (ps p)) = u :: k -> section c u p = Some (r, evs, p1) ->
    pstep p evs (set_cont (self c (ps p)) (r ++ k) p1)
| st_call c k x p :
    running c p -> cont p (self c (ps p)) = MUser :: k ->
    pstep p [] (set_cont (self c (ps p))
                  (code (canboot_gil_owned_by_current c (ps p)) x ++ MUser :: k) p)
| st_return c k v p :
    running c p -> cont p (self c (ps p)) = MUser :: k ->
    pstep p [] (set_cont (self c (ps p)) k
      (mkP (ps p) (mutexes p) (generation p) (once_state p) (cont p)
           (<[self c (ps p) := v]> (uret p))))
| st_create c k th p :
    running c p -> cont p (self c (ps p)) = MUser :: k -> pstep p [] (pthread_create th p).2
| st_detach c k tid p :
    running c p -> cont p (self c (ps p)) = MUser :: k -> pstep p [] (pthread_detach tid p).2
| st_hardware c o s p :
    hardware o = true -> allowed c o (ps p) -> exec c o (ps p) = Some s ->
    pstep p [] (on_sched (fun _ => s) p).

(** After [canboot_pthread_init]: the boot thread runs its program. *)
Definition canboot_pthread_init (boot_tls : option Z) : psys :=
  mkP (boot_sched boot_tls) (fun _ => PTHREAD_MUTEX_INITIALIZER) (fun _ => 0) (fun _ => 0)
    (<[0 := [MUser]]> (fun _ => [])) (fun _ => 0).

(** Runs from the start, with their events, the latest first. *)
Inductive runs : list event -> psys -> Prop :=
| runs_init tls : runs [] (canboot_pthread_init tls)
| runs_step tr p evs p' : runs tr p -> pstep p evs p' -> runs (evs ++ tr) p'.
