(* ===== verification/PthreadProps.v ===== *)
(** * What the thread layer promises

    Mutexes exclude, a free lock is never slept on without someone awake to
    take it, and an initialiser runs once. *)
From stdpp Require Import functions.
From S2P Require Import Prelude Sched SchedInv SchedProps Pthread.

(** ** Threads that are awake *)
Definition awake (s : sched) (t : Z) : Prop :=
  st_of s t = CANBOOT_TH_RUNNABLE \/ st_of s t = CANBOOT_TH_RUNNING.

Lemma awake_eq s s' t : st_of s' t = st_of s t -> awake s t -> awake s' t.
Proof. unfold awake. by intros ->. Qed.

Lemma awake_core s s' t : same_core s s' -> awake s t -> awake s' t.
Proof. intros Hc. apply awake_eq. by apply same_core_state. Qed.

Lemma awake_reschedule c s t : awake s t -> awake (reschedule c s) t.
Proof. intros Ha. unfold awake. rewrite reschedule_state. case_decide; [by right|done]. Qed.

Lemma awake_upd u f s t : (t = u -> awake (upd u f s) t) -> awake s t -> awake (upd u f s) t.
Proof.
  intros Hu Ha. destruct (decide (t = u)) as [He|Hne]; [by apply Hu|].
  unfold awake. rewrite st_upd, decide_False by done. done.
Qed.

Lemma awake_push q u s t : awake s t -> awake (q_push q u s) t.
Proof. apply awake_core, push_core. Qed.

Lemma awake_block c w s t : t <> self c s -> awake s t -> awake (canboot_sched_block_on c w s) t.
Proof.
  intros Hne Ha. unfold canboot_sched_block_on. apply awake_reschedule, (awake_push (Some w)).
  by apply awake_upd.
Qed.

Lemma awake_runnable u s : awake (upd u (with_state CANBOOT_TH_RUNNABLE) s) u.
Proof. left. by rewrite st_upd, decide_True. Qed.

Lemma awake_yield c s t : awake s t -> awake (canboot_sched_yield c s) t.
Proof.
  intros Ha. unfold canboot_sched_yield. apply awake_reschedule. case_decide; [|done].
  apply (awake_push None). apply awake_upd; [|done]. intros ->. apply awake_runnable.
Qed.

Lemma awake_wake_one w s t : awake s t -> awake (canboot_sched_wake_one w s) t.
Proof.
  intros Ha. unfold canboot_sched_wake_one. pose proof (pop_core (Some w) s) as Hc. cbn [q_pop] in Hc.
  destruct (wq_pop w s) as [[u|] s1]; cbn [snd] in Hc; [|by eapply awake_core].
  apply (awake_push None), awake_upd; [|by eapply awake_core]. intros ->. apply awake_runnable.
Qed.

Lemma awake_wake_all w t fuel : forall s s',
  canboot_sched_wake_all fuel w s = Some s' -> awake s t -> awake s' t.
Proof.
  induction fuel as [|fuel IH]; intros s s'; rewrite wake_all_unfold; destruct (wq_pop w s).1;
    intros Hw Ha; simplify_eq; try done.
  eapply IH; [exact Hw|]. by apply awake_wake_one.
Qed.

Lemma awake_exit c r s s' t : t <> self c s ->
  canboot_thread_exit 16 c r s = Some s' -> awake s t -> awake s' t.
Proof.
  intros Hne He Ha. unfold canboot_thread_exit in He.
  destruct (canboot_sched_wake_all _ _ _) as [s1|] eqn:Hw; [|done]. injection He as <-.
  apply awake_reschedule, awake_upd; [done|]. eapply awake_wake_all; [exact Hw|].
  by apply awake_upd.
Qed.

Lemma awake_preempt c s t : awake s t -> awake (canboot_sched_preempt c s) t.
Proof.
  intros Ha. unfold canboot_sched_preempt. cbv zeta. destruct (wq_head _); [|done].
  apply awake_reschedule. case_decide; [|done]. apply (awake_push None), awake_upd; [|done].
  intros ->. apply awake_runnable.
Qed.

(** The first waiter is awake after the wake-up. *)
Lemma awake_woken C w s ql t :
  inv_but C None s ql -> head (ql (Some w)) = Some t -> awake (canboot_sched_wake_one w s) t.
Proof.
  intros Hi Hh. destruct (wake_one_spec C w 0 s ql Hi) as (H1 & _). unfold woken_one in H1.
  rewrite Hh in H1. left. apply (iv_in _ _ _ _ H1 None). rewrite fn_lookup_insert. set_solver.
Qed.

(** The timer and the idle loop leave the wait queues and the awake threads alone. *)
Lemma hardware_run c o s s' ql :
  hardware o = true -> inv_but None None s ql -> allowed c o s -> exec c o s = Some s' ->
  exists ql', inv_but None None s' ql' /\ (forall w, ql' (Some w) = ql (Some w)) /\
    (forall t, pool t -> awake s t -> awake s' t) /\
    (g_gil_owner s', g_gil_locked s') = (g_gil_owner s, g_gil_locked s).
Proof.
  intros Hh Hi (Hb & Ho & Hw) He.
  assert (Hc : (forall fs, o <> OApOnline fs) -> settled None c s).
  { intros Hne. split; [done|]. split; [|done]. destruct o; try done. by destruct (Hne fs). }
  destruct o; try done; cbn [exec] in He; injection He as <-; try specialize (Hc ltac:(done)).
  - exists ql. split; [by apply cpu_soft_inv|done].
  - unfold canboot_preempt_enable. cbv zeta. set (s1 := set_preempt _ _ _ s).
    assert (Hi1 : inv_but None None s1 ql) by (by apply cpu_soft_inv).
    destruct (_ && _)%bool; [|by exists ql].
    destruct (yield_spec c s1 ql Hi1) as (H1 & _ & Hf); [by apply settled_preempt|unfold s1; by rewrite self_preempt|].
    eexists. split; [exact H1|]. split; [intros w; by rewrite fn_lookup_insert_ne|].
    split; [intros t _ ?; by apply awake_yield|]. exact (fr_gil _ _ _ Hf).
  - unfold canboot_sched_on_tick. set (s1 := set_gates _ _ _ s). cbv zeta.
    assert (Hi1 : inv_but None None s1 ql) by (by apply gates_inv).
    destruct (negb _); [by exists ql|]. destruct (negb _); [exists ql; split; [by apply cpu_soft_inv|done]|].
    destruct (preempt_run c s1 ql Hi1 Hc) as (H1 & _ & _ & _ & Hg).
    destruct (ql None) as [|t l]; destruct H1 as [H1 _]; eexists; (split; [exact H1|]);
      (split; [intros w; by rewrite ?fn_lookup_insert_ne|]);
      (split; [intros u _ ?; by apply awake_preempt|done]).
  - rewrite (iv_idle _ _ _ _ Hi c) in Hw by done.
    destruct (idle_round c s ql Hi Hc Hw) as (H1 & _ & Hf). eexists. split; [exact H1|].
    split; [intros w; by rewrite fn_lookup_insert_ne|].
    split; [intros t _ ?; by apply awake_reschedule|]. exact (fr_gil _ _ _ Hf).
  - exists ql. split; [by apply ap_online_run|]. split; [done|]. split; [|done].
    intros t Hp. apply awake_eq. unfold st_of. cbn. rewrite fn_lookup_insert_ne; [done|].
    unfold pool in Hp. lia.
  - exists ql. split; [by apply gates_inv|done].
  - exists ql. split; [by apply gates_inv|done].
Qed.

(** ** Locks and their sleepers *)
Inductive lock : Type := LMutex (m : Z) | LGil.
Definition lock_q (x : lock) : wqref := match x with LMutex m => mutex_q m | LGil => GilQ end.
Definition retry (x : lock) : micro := match x with LMutex m => MLock m | LGil => MGilAcquire end.
Definition taken (p : psys) (x : lock) : bool :=
  match x with LMutex m => locked (mutexes p m) | LGil => g_gil_locked (ps p) end.

(** Some thread is awake and about to try the lock. *)
Definition candidate (p : psys) (x : lock) : Prop :=
  exists t, pool t /\ awake (ps p) t /\ head (cont p t) = Some (retry x).

(** Sleepers of a lock retry it when they wake, a free lock with sleepers has a
    candidate, and nobody sleeps on a finished once control. *)
Record pinv_on (p : psys) (ql : qref -> list Z) : Prop := {
  pi_sched : inv_but None None (ps p) ql;
  pi_at x t : t ∈ ql (Some (lock_q x)) -> head (cont p t) = Some (retry x);
  pi_candidate x : taken p x = false -> ql (Some (lock_q x)) <> [] -> candidate p x;
  pi_once o : once_state p o = 2 -> ql (Some (once_q o)) = [];
}.
Definition pinv (p : psys) : Prop := exists ql, pinv_on p ql.

Lemma lock_q_inj x y : lock_q x = lock_q y -> x = y.
Proof. destruct x, y; cbn; try done. unfold mutex_q. intros [= ?]. f_equal. lia. Qed.
Lemma lock_q_once x o : lock_q x <> once_q o.
Proof. destruct x; [|done]. unfold lock_q, mutex_q, once_q. intros [= ?]. lia. Qed.
Lemma lock_q_cond x v : lock_q x <> cond_q v.
Proof. destruct x; [|done]. unfold lock_q, mutex_q, cond_q. intros [= ?]. lia. Qed.
Lemma once_q_cond o v : once_q o <> cond_q v.
Proof. unfold once_q, cond_q. intros [= ?]. lia. Qed.
Lemma lock_q_join x t : lock_q x <> JoinQ t.
Proof. by destruct x. Qed.
Lemma once_q_inj o o' : once_q o = once_q o' -> o = o'.
Proof. unfold once_q. intros [= ?]. lia. Qed.

(** A step of thread [t].  It may put itself to sleep on a lock that is taken;
    a lock that becomes free has its first sleeper woken; [t] is not the
    candidate of a lock that stays free. *)
Lemma pinv_move p ql p' ql' t :
  pinv_on p ql -> inv_but None None (ps p') ql' ->
  (forall u, u <> t -> pool u -> awake (ps p) u -> cont p' u = cont p u /\ awake (ps p') u) ->
  (forall x u, u ∈ ql' (Some (lock_q x)) ->
     (u ∈ ql (Some (lock_q x)) /\ cont p' u = cont p u) \/
     (head (cont p' u) = Some (retry x) /\ taken p' x = true)) ->
  (forall x, taken p' x = false ->
     (taken p x = false /\ (awake (ps p) t -> head (cont p t) <> Some (retry x))) \/
     (forall u, head (ql (Some (lock_q x))) = Some u -> awake (ps p') u /\ cont p' u = cont p u)) ->
  (forall o, once_state p' o = 2 -> ql' (Some (once_q o)) = []) ->
  pinv_on p' ql'.
Proof.
  intros [Hi Hat Hcand Hon] Hi' Hkeep Hin Hfree Hon'. split; auto.
  - intros x u Hu. destruct (Hin x u Hu) as [[Hq ->]|[? _]]; [by apply Hat|done].
  - intros x Hx Hne. destruct (ql' (Some (lock_q x))) as [|v l] eqn:Hv; [done|].
    destruct (Hin x v ltac:(rewrite Hv; left)) as [[Hvq _]|[_ Hx']]; [|congruence].
    assert (Hqne : ql (Some (lock_q x)) <> []) by (intros E; rewrite E in Hvq; by apply not_elem_of_nil in Hvq).
    destruct (Hfree x Hx) as [[Hx0 Ht]|Hw].
    + destruct (Hcand x Hx0 Hqne) as (u & Hp & Ha & Hu).
      destruct (Hkeep u) as [E ?]; [intros ->; by apply Ht|done..|]. exists u. by rewrite E.
    + destruct (ql (Some (lock_q x))) as [|u l'] eqn:Hq; [done|].
      destruct (Hw u eq_refl) as [Ha E]. assert (Hu : u ∈ ql (Some (lock_q x))) by (rewrite Hq; left).
      exists u. split; [by apply (iv_in _ _ _ _ Hi) in Hu as (? & _)|]. split; [done|].
      rewrite E. by apply Hat.
Qed.

(** The running thread is on no queue. *)
Lemma self_out c s ql q : inv_but None None s ql -> settled None c s -> pool (self c s) ->
  self c s ∉ ql q.
Proof.
  intros Hi Hc Hp Hin. pose proof (cur_running c s ql Hi Hc Hp) as Hr.
  apply (iv_in _ _ _ _ Hi) in Hin as (_ & _ & Hst). rewrite Hr in Hst. by destruct q.
Qed.

Lemma cont_set_ne p t k u : u <> t -> cont (set_cont t k p) u = cont p u.
Proof. intros ?. cbn. by rewrite fn_lookup_insert_ne. Qed.
Lemma cont_set_eq p t k : cont (set_cont t k p) t = k.
Proof. cbn. by rewrite fn_lookup_insert. Qed.

(** A step of the current thread that leaves the sleepers of the locks. *)
Lemma pinv_quiet c p ql p1 ql' k :
  pinv_on p ql -> running c p ->
  inv_but None None (ps p1) ql' ->
  (forall x, ql' (Some (lock_q x)) = ql (Some (lock_q x))) ->
  cont p1 = cont p -> (forall u, u <> self c (ps p) -> awake (ps p) u -> awake (ps p1) u) ->
  (forall x, taken p1 x = false -> taken p x = false /\ head (cont p (self c (ps p))) <> Some (retry x)) ->
  (forall o, once_state p1 o = 2 -> ql' (Some (once_q o)) = []) ->
  pinv_on (set_cont (self c (ps p)) k p1) ql'.
Proof.
  intros HP [Hc Hp] Hi' Hq Hk Ha Hf Ho. pose proof (pi_sched _ _ HP) as Hi.
  apply (pinv_move p ql _ _ (self c (ps p)) HP); [done|..|done].
  - intros u Hne Hpu Hau. rewrite cont_set_ne, Hk by done. split; [done|]. by apply Ha.
  - intros x u. rewrite Hq. intros Hu. left. split; [done|].
    rewrite cont_set_ne, Hk; [done|]. intros ->. by apply (self_out c _ _ _ Hi Hc Hp) in Hu.
  - intros x Hx. left. destruct (Hf x Hx). done.
Qed.

(** A step that leaves the sleepers, the locks and the continuations. *)
Lemma pinv_still p ql p' ql' :
  pinv_on p ql -> inv_but None None (ps p') ql' ->
  (forall w, ql' (Some w) = ql (Some w)) -> cont p' = cont p ->
  (forall u, pool u -> awake (ps p) u -> awake (ps p') u) ->
  (forall x, taken p' x = taken p x) -> once_state p' = once_state p -> pinv_on p' ql'.
Proof.
  intros [Hi Hat Hcand Hon] Hi' Hq Hk Ha Hx Ho. split; [done|..].
  - intros x t. rewrite Hq, Hk. apply Hat.
  - intros x. rewrite Hx, Hq. intros H1 H2. destruct (Hcand x H1 H2) as (t & ? & ? & ?).
    exists t. rewrite Hk. auto.
  - intros o. rewrite Ho, Hq. apply Hon.
Qed.

Lemma taken_gil p p' : mutexes p' = mutexes p -> g_gil_locked (ps p') = g_gil_locked (ps p) ->
  forall x, taken p' x = taken p x.
Proof. intros Hm Hg [m|]; cbn; [by rewrite Hm|done]. Qed.

Lemma framed_gil c s s' : framed c s s' -> g_gil_locked s' = g_gil_locked s.
Proof. intros Hf. pose proof (fr_gil _ _ _ Hf) as E. by injection E. Qed.

(** The current thread goes to sleep on [w], to go on with [k]. *)
Lemma pinv_sleep c p ql w k :
  pinv_on p ql -> running c p ->
  (forall x, w = lock_q x -> head k = Some (retry x) /\ taken p x = true) ->
  (forall u, w = JoinQ u -> ~ finished (st_of (ps p) u)) ->
  (forall o, w = once_q o -> once_state p o <> 2) ->
  (forall x, taken p x = false -> head (cont p (self c (ps p))) <> Some (retry x)) ->
  exists ql', pinv_on (set_cont (self c (ps p)) k (on_sched (canboot_sched_block_on c w) p)) ql' /\
    forall w', ql' (Some w') = if decide (w' = w) then ql (Some w) ++ [self c (ps p)] else ql (Some w').
Proof.
  intros HP [Hc Hp] Hl Hj Ho Hnot. pose proof (pi_sched _ _ HP) as Hi.
  destruct (block_on_spec c w (ps p) ql Hi Hc Hp Hj) as (Hi' & _ & Hf).
  set (ql' := <[None := tail (ql None)]> (<[Some w := ql (Some w) ++ [self c (ps p)]]> ql)) in *.
  assert (Hq : forall w', ql' (Some w') = if decide (w' = w) then ql (Some w) ++ [self c (ps p)] else ql (Some w')).
  { intros w'. unfold ql'. rewrite fn_lookup_insert_ne by done. case_decide; [subst; by rewrite fn_lookup_insert|].
    by rewrite fn_lookup_insert_ne by congruence. }
  set (p' := set_cont _ _ _).
  assert (Htk : forall x, taken p' x = taken p x) by (apply taken_gil; [done|by apply (framed_gil c)]).
  exists ql'. split; [|done]. apply (pinv_move p ql p' ql' (self c (ps p)) HP Hi').
  - intros u Hne Hpu Hau. unfold p'. rewrite cont_set_ne by done. split; [done|].
    by apply awake_block.
  - intros x u. rewrite Hq, Htk.
    assert (Hother : u ∈ ql (Some (lock_q x)) -> cont p' u = cont p u).
    { intros Hu. unfold p'. rewrite cont_set_ne; [done|]. intros ->. by apply (self_out c _ _ _ Hi Hc Hp) in Hu. }
    case_decide as Hw; [|intros Hu; left; auto]. subst w.
    rewrite elem_of_app, list_elem_of_singleton. intros [Hu| ->]; [left; auto|right].
    destruct (Hl x eq_refl). unfold p'. by rewrite cont_set_eq.
  - intros x. rewrite Htk. intros Hx. left. split; [done|]. intros _. by apply Hnot.
  - intros o Ho2. rewrite Hq. case_decide as Hw; [by destruct (Ho o)|]. by apply (pi_once _ _ HP).
Qed.

(** Exiting leaves the VM lock as it is. *)
Lemma reschedule_gil c s : (g_gil_owner (reschedule c s), g_gil_locked (reschedule c s)) =
  (g_gil_owner s, g_gil_locked s).
Proof.
  unfold reschedule. pose proof (fr_gil _ _ _ (framed_q_pop c None s)) as Hp. cbn [q_pop] in Hp.
  destruct (rq_pop s) as [o s1]. cbn [snd] in Hp. by destruct (_ =? _).
Qed.

Lemma wake_one_gil w s :
  (g_gil_owner (canboot_sched_wake_one w s), g_gil_locked (canboot_sched_wake_one w s)) =
  (g_gil_owner s, g_gil_locked s).
Proof.
  unfold canboot_sched_wake_one.
  assert (Hpop := fr_gil _ _ _ (framed_q_pop 0 (Some w) s)). cbn [q_pop] in Hpop.
  destruct (wq_pop w s) as [[u|] s1]; cbn [snd] in Hpop; [|done]. rewrite <- Hpop.
  exact (fr_gil _ _ _ (framed_q_push 0 None u (upd u (with_state CANBOOT_TH_RUNNABLE) s1))).
Qed.

Lemma exit_gil c r s s' : canboot_thread_exit 16 c r s = Some s' ->
  (g_gil_owner s', g_gil_locked s') = (g_gil_owner s, g_gil_locked s).
Proof.
  assert (Hw : forall fuel w s1 s2, canboot_sched_wake_all fuel w s1 = Some s2 ->
    (g_gil_owner s2, g_gil_locked s2) = (g_gil_owner s1, g_gil_locked s1)).
  { induction fuel as [|fuel IH]; intros w s1 s2; rewrite wake_all_unfold; destruct (wq_pop w s1).1;
      intros He; simplify_eq; try done.
    rewrite (IH _ _ _ He). apply wake_one_gil. }
  unfold canboot_thread_exit. destruct (canboot_sched_wake_all _ _ _) as [s1|] eqn:Hs; [|done].
  intros [= <-]. rewrite reschedule_gil. exact (Hw _ _ _ _ Hs).
Qed.

Lemma woken_one_sub w ql q t : t ∈ woken_one w ql (Some q) -> t ∈ ql (Some q).
Proof.
  unfold woken_one. destruct (ql (Some w)) as [|u l] eqn:Hq; cbn [head]; [done|].
  rewrite fn_lookup_insert_ne by done. destruct (decide (q = w)) as [->|].
  - rewrite fn_lookup_insert, Hq. cbn. by right.
  - by rewrite fn_lookup_insert_ne by congruence.
Qed.

Lemma woken_one_other w ql q : q <> w -> woken_one w ql (Some q) = ql (Some q).
Proof.
  intros Hne. unfold woken_one. destruct (head _); [|done].
  rewrite fn_lookup_insert_ne by done. by rewrite fn_lookup_insert_ne by congruence.
Qed.

(** The current thread frees lock [x] and wakes its first sleeper. *)
Lemma pinv_release c p ql x k s0 p1 :
  pinv_on p ql -> running c p -> (forall y, head (cont p (self c (ps p))) <> Some (retry y)) ->
  inv_but None None s0 ql -> g_threads s0 = g_threads (ps p) -> canboot_cpus s0 = canboot_cpus (ps p) ->
  ps p1 = canboot_sched_wake_one (lock_q x) s0 -> cont p1 = cont p -> once_state p1 = once_state p ->
  (forall y, taken p1 y = false -> y = x \/ taken p y = false) ->
  pinv_on (set_cont (self c (ps p)) k p1) (woken_one (lock_q x) ql) /\
  canboot_cpus (ps p1) = canboot_cpus (ps p).
Proof.
  intros HP [Hc Hp] Hnot Hi0 Hth Hcp Hps Hk Ho Htk. pose proof (pi_sched _ _ HP) as Hi.
  destruct (wake_one_spec None (lock_q x) c s0 ql Hi0) as (Hi' & Hcp' & _). rewrite <- Hps in Hi', Hcp'.
  assert (Haw : forall u, awake (ps p) u -> awake (ps p1) u).
  { intros u Hu. rewrite Hps. apply awake_wake_one. eapply awake_eq; [|exact Hu]. unfold st_of. by rewrite Hth. }
  assert (Hother : forall q u, u ∈ ql q -> cont (set_cont (self c (ps p)) k p1) u = cont p u).
  { intros q u Hu. rewrite cont_set_ne, Hk; [done|]. intros ->. by apply (self_out c _ _ _ Hi Hc Hp) in Hu. }
  split; [|congruence].
  apply (pinv_move p ql (set_cont (self c (ps p)) k p1) _ (self c (ps p)) HP Hi').
  - intros u Hne _ Hau. rewrite cont_set_ne, Hk by done. auto.
  - intros y u Hu%woken_one_sub. left. eauto.
  - intros y Hy. destruct (Htk y Hy) as [->|Hy0]; [right|left; auto].
    intros u Hu. assert (Hin : u ∈ ql (Some (lock_q x))).
    { destruct (ql (Some (lock_q x))); [done|]. injection Hu as ->. left. }
    split; [|by eapply Hother]. cbn [ps set_cont]. rewrite Hps. by eapply awake_woken.
  - intros o. cbn [once_state set_cont]. rewrite Ho. intros Ho2.
    rewrite woken_one_other by (intros E; by apply (lock_q_once x o)). by apply (pi_once _ _ HP).
Qed.

(** Only the values of the continuations matter. *)
Lemma pinv_ext p p' ql :
  pinv_on p ql -> ps p' = ps p -> mutexes p' = mutexes p -> once_state p' = once_state p ->
  (forall t, cont p' t = cont p t) -> pinv_on p' ql.
Proof.
  intros [Hi Hat Hcand Hon] Hps Hm Ho Hk. split.
  - by rewrite Hps.
  - intros x t. rewrite Hk. apply Hat.
  - intros x Hx Hne. destruct (Hcand x) as (t & ? & ? & ?); [|done|].
    + by destruct x; cbn in *; congruence.
    + exists t. by rewrite Hps, Hk.
  - intros o. rewrite Ho. apply Hon.
Qed.

Lemma woken_all_lock w ql x : w <> lock_q x -> woken_all w ql (Some (lock_q x)) = ql (Some (lock_q x)).
Proof.
  intros Hne. unfold woken_all. rewrite fn_lookup_insert_ne by done.
  by rewrite fn_lookup_insert_ne by congruence.
Qed.
Lemma woken_all_once w ql o :
  woken_all w ql (Some (once_q o)) = [] \/ (w <> once_q o /\ woken_all w ql (Some (once_q o)) = ql (Some (once_q o))).
Proof.
  unfold woken_all. rewrite fn_lookup_insert_ne by done. destruct (decide (w = once_q o)) as [->|Hne].
  - left. by rewrite fn_lookup_insert.
  - right. by rewrite fn_lookup_insert_ne by congruence.
Qed.

(** ** Every step keeps the invariant *)
Section Sections.
Context (c : Z) (p : psys) (ql : qref -> list Z) (k : list micro).
Hypothesis HP : pinv_on p ql.
Hypothesis Hrun : running c p.
#[local] Abbreviation t := (self c (ps p)).

Lemma section_lock m r evs p1 :
  cont p t = MLock m :: k -> section c (MLock m) p = Some (r, evs, p1) ->
  pinv (set_cont t (r ++ k) p1).
Proof using HP Hrun.
  intros Hk Hs. cbn in Hs. unfold pthread_mutex_lock in Hs.
  destruct (locked (mutexes p m)) eqn:Hl; simplify_eq.
  - destruct (pinv_sleep c p ql (mutex_q m) (MLock m :: k)) as (ql' & H1 & _); [done|done| |done| | |exists ql'; exact H1].
    + intros x Hx. by apply (lock_q_inj (LMutex m)) in Hx as <-.
    + intros o Ho. by apply (lock_q_once (LMutex m)) in Ho.
    + intros x Hx. rewrite Hk. cbn. intros [= E]. destruct x; [|done]. injection E as ->. cbn in Hx. congruence.
  - exists ql. apply (pinv_quiet c p ql); [done|done|apply HP|done|done|done| |apply HP].
    intros [m'|]; cbn; rewrite Hk; [|done]. destruct (decide (m' = m)) as [->|].
    + by rewrite fn_lookup_insert.
    + rewrite fn_lookup_insert_ne by done. intros ->. split; [done|]. cbn. congruence.
Qed.

Lemma section_trylock m r evs p1 :
  cont p t = MTrylock m :: k -> section c (MTrylock m) p = Some (r, evs, p1) ->
  pinv (set_cont t (r ++ k) p1).
Proof using HP Hrun.
  intros Hk Hs. cbn in Hs. unfold pthread_mutex_trylock in Hs. exists ql.
  destruct (locked (mutexes p m)) eqn:Hl; injection Hs as <- <- <-;
    (apply (pinv_quiet c p ql); [done|done|apply HP|done|done|done| |apply HP]); intros [m'|]; cbn; rewrite Hk; try done.
  destruct (decide (m' = m)) as [->|]; [by rewrite fn_lookup_insert|by rewrite fn_lookup_insert_ne].
Qed.

Lemma taken_unlocked m q y :
  taken (set_mutex m (mkMutex false (-1)) q) y = false -> y = LMutex m \/ taken q y = false.
Proof.
  destruct y as [m'|]; cbn; [|by right]. destruct (decide (m' = m)) as [->|]; [by left|].
  rewrite fn_lookup_insert_ne by done. by right.
Qed.

Lemma taken_wake w q y : taken (on_sched (canboot_sched_wake_one w) q) y = taken q y.
Proof. destruct y; [done|]. pose proof (wake_one_gil w (ps q)) as E. by injection E. Qed.

Lemma section_unlock m r evs p1 :
  cont p t = MUnlock m :: k -> section c (MUnlock m) p = Some (r, evs, p1) ->
  pinv (set_cont t (r ++ k) p1).
Proof using HP Hrun.
  intros Hk Hs. cbn in Hs. simplify_eq. eexists.
  apply (pinv_release c p ql (LMutex m) k (ps p)); try done; [by rewrite Hk; destruct y|apply HP|].
  intros y. unfold pthread_mutex_unlock. rewrite taken_wake. apply taken_unlocked.
Qed.

Lemma section_wait v m r evs p1 :
  cont p t = MWait v m :: k -> section c (MWait v m) p = Some (r, evs, p1) ->
  pinv (set_cont t (r ++ k) p1).
Proof using HP Hrun.
  intros Hk Hs. cbn in Hs. injection Hs as <- <- <-.
  destruct (pinv_release c p ql (LMutex m) [] (ps p) (pthread_mutex_unlock m p)) as [H1 Hcp]; try done.
  { by rewrite Hk; destruct y. }
  { apply HP. }
  { intros y. unfold pthread_mutex_unlock. rewrite taken_wake. apply taken_unlocked. }
  assert (Hself : self c (ps (pthread_mutex_unlock m p)) = t) by (unfold self; by rewrite Hcp).
  set (p2 := set_cont t [] (pthread_mutex_unlock m p)) in *.
  destruct (pinv_sleep c p2 _ (cond_q v) k H1) as (ql' & H2 & _); try done.
  - unfold running, settled, self in *. cbn [ps p2 set_cont]. rewrite Hcp. done.
  - intros x Hx. by destruct (lock_q_cond x v).
  - intros o Ho. by destruct (once_q_cond o v).
  - intros x _. change (ps p2) with (ps (pthread_mutex_unlock m p)). rewrite Hself.
    unfold p2. by rewrite cont_set_eq.
  - exists ql'. eapply pinv_ext; [exact H2|done|done|done|].
    change (ps p2) with (ps (pthread_mutex_unlock m p)). rewrite Hself. intros u.
    destruct (decide (u = t)) as [->|]; [by rewrite !cont_set_eq|].
    rewrite !cont_set_ne by done. cbn. by rewrite fn_lookup_insert_ne.
Qed.

Lemma section_signal v r evs p1 :
  cont p t = MSignal v :: k -> section c (MSignal v) p = Some (r, evs, p1) ->
  pinv (set_cont t (r ++ k) p1).
Proof using HP Hrun.
  intros Hk Hs. cbn in Hs. injection Hs as <- <- <-.
  destruct (wake_one_spec None (cond_q v) c (ps p) ql (pi_sched _ _ HP)) as (H1 & _).
  eexists. apply (pinv_quiet c p ql); [done|done|exact H1| |done| | |].
  - intros x. apply woken_one_other. apply lock_q_cond.
  - intros u _. apply awake_wake_one.
  - intros x. unfold pthread_cond_signal. rewrite taken_wake. rewrite Hk. by destruct x.
  - intros o Ho. rewrite woken_one_other by apply once_q_cond. by apply (pi_once _ _ HP).
Qed.

(** A section that only wakes all sleepers of [w]. *)
Lemma section_wake_all w f u s :
  cont p t = u :: k -> (forall x, u <> retry x) -> (forall x, w <> lock_q x) ->
  canboot_sched_wake_all 16 w (ps p) = Some s ->
  cont (f p) = cont p -> mutexes (f p) = mutexes p ->
  (forall o, once_state (f p) o = 2 -> once_state p o = 2 \/ w = once_q o) ->
  pinv (set_cont t k (on_sched (fun _ => s) (f p))).
Proof using HP Hrun.
  intros Hk Hu Hw Hs Hkf Hm Ho.
  destruct (wake_all_spec c w 16 None (ps p) ql (pi_sched _ _ HP)) as (s' & Hs' & H1 & _ & Hf).
  { eapply pool_bound, HP. }
  rewrite Hs in Hs'. injection Hs' as <-.
  eexists. apply (pinv_quiet c p ql); [done|done|exact H1| |done| | |].
  - intros x. by apply woken_all_lock.
  - intros v _. by apply (awake_wake_all w v 16).
  - intros x. rewrite (taken_gil p) by (try done; by apply (framed_gil c)). intros Hx.
    split; [done|]. rewrite Hk. cbn. intros [= E]. by destruct (Hu x).
  - intros o Ho2. destruct (Ho o Ho2) as [Ho'|E].
    + destruct (woken_all_once w ql o) as [?|[_ ->]]; [done|]. by apply (pi_once _ _ HP).
    + destruct (woken_all_once w ql o) as [?|[? _]]; done.
Qed.

Lemma section_broadcast v r evs p1 :
  cont p t = MBroadcast v :: k -> section c (MBroadcast v) p = Some (r, evs, p1) ->
  pinv (set_cont t (r ++ k) p1).
Proof using HP Hrun.
  intros Hk Hs. cbn in Hs. unfold pthread_cond_broadcast in Hs.
  destruct (canboot_sched_wake_all _ _ _) as [s|] eqn:Hw; [|done]. injection Hs as <- <- <-.
  apply (section_wake_all (cond_q v) (set_generation v (s32 (generation p v + 1))) (MBroadcast v) s); try done.
  - by intros [].
  - intros x E. by destruct (lock_q_cond x v).
  - intros o. by left.
Qed.

Lemma section_once_done o r evs p1 :
  cont p t = MOnceDone o :: k -> section c (MOnceDone o) p = Some (r, evs, p1) ->
  pinv (set_cont t (r ++ k) p1).
Proof using HP Hrun.
  intros Hk Hs. cbn in Hs. unfold once_done in Hs.
  destruct (canboot_sched_wake_all _ _ _) as [s|] eqn:Hw; [|done]. injection Hs as <- <- <-.
  apply (section_wake_all (once_q o) (set_once o 2) (MOnceDone o) s); try done.
  - by intros [].
  - intros x E. by destruct (lock_q_once x o).
  - intros o'. cbn. destruct (decide (o' = o)) as [->|]; [by right|]. rewrite fn_lookup_insert_ne by done. by left.
Qed.

Lemma section_once o r evs p1 :
  cont p t = MOnce o :: k -> section c (MOnce o) p = Some (r, evs, p1) ->
  pinv (set_cont t (r ++ k) p1).
Proof using HP Hrun.
  intros Hk Hs. cbn in Hs. unfold pthread_once in Hs. exists ql.
  assert (Hx : forall x, taken p x = false -> taken p x = false /\ head (cont p t) <> Some (retry x))
    by (rewrite Hk; by intros []).
  destruct (once_state p o =? 2); [|destruct (once_state p o =? 1)]; injection Hs as <- <- <-;
    (apply (pinv_quiet c p ql); [done|done|apply HP|done|done|done|intros [m|]; [exact (Hx (LMutex m))|exact (Hx LGil)]|]);
    try apply HP.
  intros o'. cbn. destruct (decide (o' = o)) as [->|]; [by rewrite fn_lookup_insert|].
  rewrite fn_lookup_insert_ne by done. apply HP.
Qed.

Lemma section_once_wait o r evs p1 :
  cont p t = MOnceWait o :: k -> section c (MOnceWait o) p = Some (r, evs, p1) ->
  pinv (set_cont t (r ++ k) p1).
Proof using HP Hrun.
  intros Hk Hs. cbn in Hs. unfold once_wait in Hs.
  assert (Hx : forall x, taken p x = false -> head (cont p t) <> Some (retry x)) by (rewrite Hk; by intros []).
  destruct (Z.eqb_spec (once_state p o) 2) as [Ho|Ho]; injection Hs as <- <- <-.
  - exists ql. apply (pinv_quiet c p ql); [done|done|apply HP|done|done|done| |apply HP].
    intros x ?. auto.
  - destruct (pinv_sleep c p ql (once_q o) (MOnceWait o :: k)) as (ql' & H1 & _);
      [done|done| |done| |done|exists ql'; exact H1].
    + intros x E. by destruct (lock_q_once x o).
    + intros o' E. by apply once_q_inj in E as <-.
Qed.

Lemma section_gil_acquire r evs p1 :
  cont p t = MGilAcquire :: k -> section c MGilAcquire p = Some (r, evs, p1) ->
  pinv (set_cont t (r ++ k) p1).
Proof using HP Hrun.
  intros Hk Hs. cbn in Hs. unfold canboot_gil_acquire in Hs.
  destruct (g_gil_locked (ps p)) eqn:Hl; cbn [andb] in Hs;
    [destruct (negb _)|]; injection Hs as <- <- <-.
  - destruct (pinv_sleep c p ql GilQ (MGilAcquire :: k)) as (ql' & H1 & _); [done|done| |done| | |exists ql'; exact H1].
    + intros x Hx. by apply (lock_q_inj LGil) in Hx as <-.
    + intros o Ho. by apply (lock_q_once LGil) in Ho.
    + intros x Hx. rewrite Hk. cbn. intros [= E]. destruct x; [done|]. cbn in Hx. congruence.
  - exists ql. apply (pinv_quiet c p ql); [done|done|apply gil_inv, HP|done|done|done| |apply HP].
    rewrite Hk. by intros [m'|].
  - exists ql. apply (pinv_quiet c p ql); [done|done|apply gil_inv, HP|done|done|done| |apply HP].
    rewrite Hk. by intros [m'|].
Qed.

Lemma section_gil_release r evs p1 :
  cont p t = MGilRelease :: k -> section c MGilRelease p = Some (r, evs, p1) ->
  pinv (set_cont t (r ++ k) p1).
Proof using HP Hrun.
  intros Hk Hs. cbn in Hs. injection Hs as <- <- <-. eexists.
  apply (pinv_release c p ql LGil k (set_gil false None (ps p))); try done; [by rewrite Hk; destruct y|apply gil_inv, HP|].
  intros [m'|]; [by right|by left].
Qed.

Lemma section_join x r evs p1 :
  pool x -> cont p t = MJoin x :: k -> section c (MJoin x) p = Some (r, evs, p1) ->
  pinv (set_cont t (r ++ k) p1).
Proof using HP Hrun.
  intros Hpx Hk Hs. cbn in Hs. pose proof Hrun as [Hc Hp].
  pose proof (join_run c x (ps p) ql (pi_sched _ _ HP) Hc Hp Hpx) as Hj.
  assert (Hnot : forall y, taken p y = false -> head (cont p t) <> Some (retry y)) by (rewrite Hk; by intros []).
  destruct (canboot_thread_join c x (ps p)) as [[v|] s] eqn:Hjoin; injection Hs as <- <- <-.
  - destruct Hj as (Hf & _ & -> & H1). exists ql.
    apply (pinv_quiet c p ql); [done|done|exact H1|done|done| | |apply HP].
    + intros u _ Hu. cbn [ps on_sched]. destruct (0 <=? _); [|done]. apply awake_upd; [|done]. intros ->.
      destruct Hu as [Hu|Hu]; rewrite Hu in Hf; by destruct Hf.
    + intros y. rewrite (taken_gil p); [|done|cbn; by destruct (0 <=? _)]. intros Hy. auto.
  - destruct Hj as (Hnf & _). unfold canboot_thread_join in Hjoin. case_decide; [done|].
    injection Hjoin as <-.
    destruct (pinv_sleep c p ql (JoinQ x) (MJoin x :: k)) as (ql' & H1 & _); [done|done| | |done|done|exists ql'; exact H1].
    + intros y E. by destruct (lock_q_join y x).
    + by intros u [= <-].
Qed.

Lemma section_yield r evs p1 :
  cont p t = MYield :: k -> section c MYield p = Some (r, evs, p1) ->
  pinv (set_cont t (r ++ k) p1).
Proof using HP Hrun.
  intros Hk Hs. cbn in Hs. injection Hs as <- <- <-. pose proof Hrun as [Hc Hp].
  destruct (yield_spec c (ps p) ql (pi_sched _ _ HP) Hc Hp) as (H1 & _ & Hf).
  eexists. apply (pinv_quiet c p ql); [done|done|exact H1| |done| | |].
  - intros x. by rewrite fn_lookup_insert_ne.
  - intros u _. apply awake_yield.
  - intros x. rewrite (taken_gil p); [|done|by apply (framed_gil c)]. rewrite Hk. by destruct x.
  - intros o Ho. rewrite fn_lookup_insert_ne by done. by apply (pi_once _ _ HP).
Qed.

Lemma section_exit v r evs p1 :
  cont p t = MExit v :: k -> section c (MExit v) p = Some (r, evs, p1) ->
  pinv (set_cont t (r ++ k) p1).
Proof using HP Hrun.
  intros Hk Hs. cbn in Hs. pose proof Hrun as [Hc Hp]. set (x := match v with Some r => r | None => _ end) in Hs.
  destruct (exit_spec c x (ps p) ql (pi_sched _ _ HP) Hc Hp) as (s & He & H1 & _).
  rewrite He in Hs. injection Hs as <- <- <-.
  eexists. apply (pinv_quiet c p ql); [done|done|exact H1| |done| | |].
  - intros y. rewrite fn_lookup_insert_ne by done. apply woken_all_lock. intros E. by destruct (lock_q_join y t).
  - intros u Hu. by apply (awake_exit c x).
  - intros y. rewrite (taken_gil p); [|done|by pose proof (exit_gil c x _ _ He) as E; injection E]. rewrite Hk. by destruct y.
  - intros o Ho. rewrite fn_lookup_insert_ne by done.
    destruct (woken_all_once (JoinQ t) ql o) as [?|[_ ->]]; [done|]. by apply (pi_once _ _ HP).
Qed.
End Sections.

(** Joins are on pool threads. *)
Definition joins_ok (p : psys) : Prop := forall t x, MJoin x ∈ cont p t -> pool x.

Lemma section_inv c p ql u k r evs p1 :
  pinv_on p ql -> joins_ok p -> running c p -> cont p (self c (ps p)) = u :: k ->
  section c u p = Some (r, evs, p1) -> pinv (set_cont (self c (ps p)) (r ++ k) p1).
Proof.
  intros HP Hj Hr Hk Hs. destruct u.
  - done.
  - by eapply section_lock.
  - by eapply section_trylock.
  - by eapply section_unlock.
  - by eapply section_wait.
  - by eapply section_signal.
  - by eapply section_broadcast.
  - by eapply section_gil_acquire.
  - by eapply section_gil_release.
  - by eapply section_once.
  - by eapply section_once_wait.
  - by eapply section_once_done.
  - eapply section_join; [done|done| |done|done]. apply (Hj (self c (ps p))). rewrite Hk. left.
  - by eapply section_yield.
  - by eapply section_exit.
Qed.

(** A section leaves continuations alone but its own, where it puts back itself
    or what an entry to [pthread_once] leaves to do. *)
Lemma section_cont c u p r evs p1 :
  section c u p = Some (r, evs, p1) ->
  cont p1 = cont p /\ forall x, MJoin x ∈ r -> u = MJoin x.
Proof.
  intros Hs. destruct u; cbn in Hs; unfold pthread_mutex_lock, pthread_mutex_trylock, pthread_cond_broadcast,
    pthread_once, once_wait, once_done in Hs;
    repeat (case_match; simplify_eq/=); simplify_eq; (split; [done|]); intros x Hx; set_solver.
Qed.

Lemma joins_ok_step p evs p' : joins_ok p -> pstep p evs p' -> joins_ok p'.
Proof.
  intros Hj Hs t x. destruct Hs as [c u k r evs p p1 Hr Hk Hs|c k y p Hr Hk|c k v p Hr Hk|c k th p Hr Hk
    |c k tid p Hr Hk|c o s p _ _ _].
  - destruct (section_cont _ _ _ _ _ _ Hs) as [Hc Hx]. destruct (decide (t = self c (ps p))) as [->|].
    + rewrite cont_set_eq, elem_of_app. intros [Hin|Hin].
      * apply (Hj (self c (ps p))). rewrite Hk. rewrite (Hx x Hin). left.
      * apply (Hj (self c (ps p))). rewrite Hk. by right.
    + rewrite cont_set_ne, Hc by done. apply Hj.
  - destruct (decide (t = self c (ps p))) as [->|]; [|rewrite cont_set_ne by done; apply Hj].
    rewrite cont_set_eq, elem_of_app. intros [Hin|Hin]; [|apply (Hj (self c (ps p))); by rewrite Hk].
    destruct y; cbn in Hin; try set_solver.
    + unfold pthread_cond_wait in Hin. destruct (canboot_gil_owned_by_current _ _); set_solver.
    + unfold pthread_join, canboot_thread_by_id in Hin. destruct (_ || _)%bool eqn:Hb; [set_solver|].
      assert (x = tid) as -> by (destruct (canboot_gil_owned_by_current _ _); set_solver).
      unfold pool. lia.
  - destruct (decide (t = self c (ps p))) as [->|].
    + rewrite cont_set_eq. intros Hin. apply (Hj (self c (ps p))). rewrite Hk. by right.
    + rewrite cont_set_ne by done. apply Hj.
  - unfold pthread_create. destruct th as [th|]; [|apply Hj].
    destruct (canboot_thread_create _ _ _) as [[i|] s]; [|apply Hj]. cbn [snd].
    destruct (decide (t = i)) as [->|]; [|rewrite cont_set_ne by done; apply Hj].
    rewrite cont_set_eq. unfold gil_thread_entry. set_solver.
  - unfold pthread_detach. destruct (canboot_thread_by_id tid); apply Hj.
  - apply Hj.
Qed.

Lemma create_gil fn a s :
  g_gil_locked (canboot_thread_create fn a s).2 = g_gil_locked s.
Proof.
  unfold canboot_thread_create. destruct (find_slot _ _ _) as [i|]; [|done]. cbn [snd].
  set (s1 := set_threads _ s). exact (framed_gil _ _ _ (framed_q_push 0 None i s1)).
Qed.

Lemma create_state fn a s i s' t :
  canboot_thread_create fn a s = (Some i, s') -> t <> i -> st_of s' t = st_of s t.
Proof.
  unfold canboot_thread_create. destruct (find_slot _ _ _) as [j|]; [|done]. intros [= -> <-] Hne.
  set (s1 := set_threads _ s). etrans; [apply (same_core_state s1), (push_core None i s1)|].
  cbn. by rewrite fn_lookup_insert_ne.
Qed.

Lemma pinv_create th p ql : pinv_on p ql -> pinv (pthread_create th p).2.
Proof.
  intros HP. unfold pthread_create. destruct th as [th|]; [|by exists ql].
  pose proof (create_run GIL_THREAD_ENTRY th (ps p) ql (pi_sched _ _ HP)) as Hr.
  pose proof (create_gil GIL_THREAD_ENTRY th (ps p)) as Hg.
  pose proof (create_state GIL_THREAD_ENTRY th (ps p)) as Hst.
  destruct (canboot_thread_create _ _ _) as [[i|] s]; [|by exists ql]. cbn [snd] in *.
  destruct Hr as (Hb & Hf & Hi' & _). eexists.
  apply (pinv_move p ql (set_cont i gil_thread_entry (on_sched (fun _ => s) p)) _ i HP Hi').
  - intros u Hne _ Hau. rewrite cont_set_ne by done. split; [done|].
    eapply awake_eq; [|exact Hau]. by apply (Hst i).
  - intros x u. rewrite fn_lookup_insert_ne by done. intros Hu. left. split; [done|].
    rewrite cont_set_ne; [done|]. intros ->. apply (iv_in _ _ _ _ (pi_sched _ _ HP)) in Hu as (_ & _ & E).
    rewrite Hf in E. done.
  - intros x. rewrite (taken_gil p) by done. intros Hx. left. split; [done|].
    intros [E|E]; by rewrite Hf in E.
  - intros o Ho. rewrite fn_lookup_insert_ne by done. by apply (pi_once _ _ HP).
Qed.

Lemma pinv_detach tid p ql : pinv_on p ql -> pinv (pthread_detach tid p).2.
Proof.
  intros HP. unfold pthread_detach. destruct (canboot_thread_by_id tid) as [t|] eqn:Ht; [|by exists ql].
  assert (Hp : pool t).
  { unfold canboot_thread_by_id in Ht. destruct (_ || _)%bool eqn:Hb; [done|]. injection Ht as ->.
    unfold pool. lia. }
  exists ql. cbn [snd]. apply (pinv_still p ql); try done.
  - apply detach_inv; [apply HP|done].
  - intros u _ Hu. unfold canboot_thread_detach. cbn [ps on_sched]. case_decide as Hd.
    + apply awake_upd; [|done]. intros ->. unfold awake, st_of in Hu. rewrite Hd in Hu. by destruct Hu.
    + eapply awake_eq; [|exact Hu]. rewrite st_upd. case_decide; [by subst|done].
  - apply taken_gil; [done|]. unfold canboot_thread_detach. cbn. by case_decide.
Qed.

Lemma pstep_inv p evs p' : pinv p -> joins_ok p -> pstep p evs p' -> pinv p'.
Proof.
  intros [ql HP] Hj Hs. destruct Hs as [c u k r evs p p1 Hr Hk Hs|c k y p Hr Hk|c k v p Hr Hk|c k th p Hr Hk
    |c k tid p Hr Hk|c o s p Hh Ha He].
  - by eapply section_inv.
  - exists ql. apply (pinv_quiet c p ql); [done|done|apply HP|done|done|done| |apply HP].
    rewrite Hk. by intros [].
  - exists ql. apply (pinv_quiet c p ql); [done|done|apply HP|done|done|done| |apply HP].
    rewrite Hk. by intros [].
  - by eapply pinv_create.
  - by eapply pinv_detach.
  - destruct (hardware_run c o (ps p) s ql Hh (pi_sched _ _ HP) Ha He) as (ql' & Hi' & Hq & Haw & Hg).
    exists ql'. apply (pinv_still p ql); try done. apply taken_gil; [done|]. by injection Hg.
Qed.

Lemma pinv_init tls : pinv (canboot_pthread_init tls) /\ joins_ok (canboot_pthread_init tls).
Proof.
  split.
  - destruct (boot_inv tls) as [ql Hi]. exists ql.
    assert (Hq : forall q, ql q = []).
    { intros q. destruct (ql q) as [|t l] eqn:E; [done|].
      assert (Hin : t ∈ ql q) by (rewrite E; left).
      rewrite <- (waiting_list _ _ _ _ q Hi) in Hin. revert Hin.
      destruct q as [[u| |x]|]; cbn; try set_solver.
      unfold waiting. cbn. destruct (decide (u = -1)) as [->|].
      - rewrite fn_lookup_insert. set_solver.
      - rewrite fn_lookup_insert_ne by done. destruct (decide (u = 0)) as [->|].
        + rewrite fn_lookup_insert. set_solver.
        + rewrite fn_lookup_insert_ne by done. set_solver. }
    split; [done|..].
    + intros x t. rewrite Hq. set_solver.
    + intros x _. by rewrite Hq.
    + intros o. by rewrite Hq.
  - intros t x. cbn. destruct (decide (t = 0)) as [->|].
    + rewrite fn_lookup_insert. set_solver.
    + rewrite fn_lookup_insert_ne by done. set_solver.
Qed.

Lemma runs_inv tr p : runs tr p -> pinv p /\ joins_ok p.
Proof.
  induction 1 as [tls|tr p evs p' _ [IH1 IH2] Hs]; [apply pinv_init|].
  split; [by eapply pstep_inv|by eapply joins_ok_step].
Qed.

(** ** Promises *)
(** C26.  No lost wake-up: whenever a mutex or the VM lock is free while threads
    sleep on it, some thread is awake and about to try it. *)
Theorem no_lost_wakeup tr p x :
  runs tr p -> taken p x = false -> waiting (Some (lock_q x)) (ps p) <> [] -> candidate p x.
Proof.
  intros [[ql HP] _]%runs_inv Hx Hw. apply (pi_candidate _ _ HP); [done|].
  by rewrite <- (waiting_list _ _ _ _ _ (pi_sched _ _ HP)).
Qed.

(** Who holds mutex [m] after the events [tr] (the latest first). *)
Fixpoint holder (m : Z) (tr : list event) : option Z :=
  match tr with
  | [] => None
  | EAcq t m' :: tr' => if m' =? m then Some t else holder m tr'
  | ERel t m' :: tr' => if m' =? m then None else holder m tr'
  | _ :: tr' => holder m tr'
  end.

(** Threads give back only what they hold. *)
Definition disciplined (tr : list event) : Prop :=
  forall tr1 t m tr0, tr = tr1 ++ ERel t m :: tr0 -> holder m tr0 = Some t.

Definition held (o : option Z) : bool := match o with Some _ => true | None => false end.

(** The lock words follow the events, and only a free mutex is taken. *)
Definition tracks (tr : list event) (p : psys) : Prop :=
  (forall m, locked (mutexes p m) = held (holder m tr)) /\
  (forall tr1 t m tr0, tr = tr1 ++ EAcq t m :: tr0 -> holder m tr0 = None).

Lemma tracks_acq tr p m t x :
  tracks tr p -> locked (mutexes p m) = false -> locked x = true ->
  forall p', mutexes p' = <[m := x]> (mutexes p) -> tracks (EAcq t m :: tr) p'.
Proof.
  intros [Hl Ha] Hm Hx p' Hp'. split.
  - intros m'. rewrite Hp'. cbn. destruct (Z.eqb_spec m m') as [->|].
    + by rewrite fn_lookup_insert, Hx.
    + by rewrite fn_lookup_insert_ne by done.
  - intros [|e tr1] t' m' tr0 He; cbn in He.
    + injection He as <- <- <-. rewrite Hl in Hm. by destruct (holder m tr).
    + injection He as _ He. by eapply Ha.
Qed.

Lemma tracks_rel tr p m t x :
  tracks tr p -> locked x = false ->
  forall p', mutexes p' = <[m := x]> (mutexes p) -> tracks (ERel t m :: tr) p'.
Proof.
  intros [Hl Ha] Hx p' Hp'. split.
  - intros m'. rewrite Hp'. cbn. destruct (Z.eqb_spec m m') as [->|].
    + by rewrite fn_lookup_insert, Hx.
    + by rewrite fn_lookup_insert_ne by done.
  - intros [|e tr1] t' m' tr0 He; cbn in He; [done|]. injection He as _ He. by eapply Ha.
Qed.

Lemma tracks_same tr p p' : tracks tr p -> mutexes p' = mutexes p -> tracks tr p'.
Proof. intros [Hl Ha] Hm. split; [|done]. intros m. by rewrite Hm. Qed.

(** Events that are not about mutexes. *)
Lemma tracks_other tr p e :
  tracks tr p -> (forall m, holder m (e :: tr) = holder m tr) -> (forall t m, e <> EAcq t m) ->
  tracks (e :: tr) p.
Proof.
  intros [Hl Ha] Hh Hn. split; [intros m; by rewrite Hh|].
  intros [|e' tr1] t' m' tr0 He; cbn in He; injection He as E He.
  - by destruct (Hn t' m').
  - by eapply Ha.
Qed.

Lemma section_tracks c u p r evs p1 tr :
  section c u p = Some (r, evs, p1) -> tracks tr p -> tracks (evs ++ tr) p1.
Proof.
  intros Hs Ht. destruct u; cbn in Hs.
  - done.
  - unfold pthread_mutex_lock in Hs. destruct (locked (mutexes p m)) eqn:Hl; injection Hs as <- <- <-.
    + by apply (tracks_same _ _ _ Ht).
    + by apply (tracks_acq _ _ _ _ (mkMutex true (pthread_self c p)) Ht Hl).
  - unfold pthread_mutex_trylock in Hs. destruct (locked (mutexes p m)) eqn:Hl; injection Hs as <- <- <-.
    + done.
    + by apply (tracks_acq _ _ _ _ (mkMutex true (pthread_self c p)) Ht Hl).
  - injection Hs as <- <- <-. by apply (tracks_rel _ _ _ _ (mkMutex false (-1)) Ht).
  - injection Hs as <- <- <-. by apply (tracks_rel _ _ _ _ (mkMutex false (-1)) Ht).
  - injection Hs as <- <- <-. by apply (tracks_same _ _ _ Ht).
  - unfold pthread_cond_broadcast in Hs. destruct (canboot_sched_wake_all _ _ _); [|done].
    injection Hs as <- <- <-. by apply (tracks_same _ _ _ Ht).
  - destruct (canboot_gil_acquire _ _). injection Hs as <- <- <-. by apply (tracks_same _ _ _ Ht).
  - injection Hs as <- <- <-. by apply (tracks_same _ _ _ Ht).
  - unfold pthread_once in Hs. destruct (_ =? 2); [|destruct (_ =? 1)]; injection Hs as <- <- <-.
    + by apply tracks_other.
    + done.
    + apply tracks_other; [|done|done]. by apply (tracks_same _ _ _ Ht).
  - unfold once_wait in Hs. destruct (_ =? 2); injection Hs as <- <- <-.
    + by apply tracks_other.
    + by apply (tracks_same _ _ _ Ht).
  - unfold once_done in Hs. destruct (canboot_sched_wake_all _ _ _); [|done]. injection Hs as <- <- <-.
    apply tracks_other; [|done|done]. apply tracks_other; [|done|done]. by apply (tracks_same _ _ _ Ht).
  - destruct (canboot_thread_join _ _ _). injection Hs as <- <- <-. by apply (tracks_same _ _ _ Ht).
  - injection Hs as <- <- <-. by apply (tracks_same _ _ _ Ht).
  - destruct (canboot_thread_exit _ _ _ _); [|done]. injection Hs as <- <- <-. by apply (tracks_same _ _ _ Ht).
Qed.

Lemma runs_tracks tr p : runs tr p -> tracks tr p.
Proof.
  induction 1 as [tls|tr p evs p' _ IH Hs].
  { split; [done|]. by intros [] ? ? ?. }
  destruct Hs as [c u k r evs p p1 _ _ Hs|c k y p _ _|c k v p _ _|c k th p _ _|c k tid p _ _|c o s p _ _ _].
  - eapply tracks_same; [by eapply section_tracks|done].
  - by apply (tracks_same _ _ _ IH).
  - by apply (tracks_same _ _ _ IH).
  - eapply tracks_same; [done|]. unfold pthread_create. destruct th; [|done].
    by destruct (canboot_thread_create _ _ _) as [[]].
  - eapply tracks_same; [done|]. unfold pthread_detach. by destruct (canboot_thread_by_id tid).
  - by apply (tracks_same _ _ _ IH).
Qed.

(** A holder stays one until it gives the mutex back. *)
Lemma holder_stays tr2 t m tr3 :
  disciplined (tr2 ++ EAcq t m :: tr3) ->
  (forall tr1 t' m' tr0, tr2 ++ EAcq t m :: tr3 = tr1 ++ EAcq t' m' :: tr0 -> holder m' tr0 = None) ->
  ERel t m ∉ tr2 -> holder m (tr2 ++ EAcq t m :: tr3) = Some t.
Proof.
  induction tr2 as [|e tr2 IH]; intros Hd Ha Hn; cbn [app].
  { cbn. by rewrite Z.eqb_refl. }
  assert (Hh : holder m (tr2 ++ EAcq t m :: tr3) = Some t).
  { apply IH.
    - intros tr1 t' m' tr0 E. apply (Hd (e :: tr1)). cbn. by rewrite E.
    - intros tr1 t' m' tr0 E. apply (Ha (e :: tr1) t'). cbn. by rewrite E.
    - set_solver. }
  destruct e as [t' m'|t' m'| | |]; cbn; try done; destruct (Z.eqb_spec m' m) as [->|]; try done.
  - pose proof (Ha [] t' m (tr2 ++ EAcq t m :: tr3) eq_refl). congruence.
  - pose proof (Hd [] t' m (tr2 ++ EAcq t m :: tr3) eq_refl). assert (t' = t) by congruence. subst t'. set_solver.
Qed.

(** C27.  Mutual exclusion: in a run whose threads give back only what they
    hold, a thread that takes a mutex has given it back before any thread takes
    it again. *)
Theorem mutex_exclusion tr p tr1 t' m tr2 t tr3 :
  runs tr p -> disciplined tr -> tr = tr1 ++ EAcq t' m :: tr2 ++ EAcq t m :: tr3 ->
  ERel t m ∈ tr2.
Proof.
  intros [_ Ha]%runs_tracks Hd ->.
  assert (Hsuf : forall l, tr1 ++ EAcq t' m :: l = (tr1 ++ [EAcq t' m]) ++ l) by (intros; by rewrite <- app_assoc).
  destruct (decide (ERel t m ∈ tr2)) as [|Hn]; [done|].
  pose proof (Ha _ _ _ _ eq_refl) as Hnone. rewrite holder_stays in Hnone; [done|..|done].
  - intros l t0 m0 l0 E. rewrite E, Hsuf, app_assoc in Hd. exact (Hd _ _ _ _ eq_refl).
  - intros l t0 m0 l0 E. apply (Ha ((tr1 ++ [EAcq t' m]) ++ l) t0). by rewrite E, Hsuf, app_assoc.
Qed.

(** The once controls follow the events: the initialiser of [o] has started when
    its state is not 0 and is finished when it is 2; who still has to report the
    end of an initialiser has started it. *)
Record once_tracks (tr : list event) (p : psys) : Prop := {
  ot_state o : once_state p o = 0 \/ once_state p o = 1 \/ once_state p o = 2;
  ot_start t o : EInit t o ∈ tr -> once_state p o <> 0;
  ot_done o : once_state p o = 2 -> exists t, EInitDone t o ∈ tr;
  ot_cont t o : MOnceDone o ∈ cont p t -> EInit t o ∈ tr;
  ot_one tr1 t o tr0 : tr = tr1 ++ EInit t o :: tr0 -> forall t', EInit t' o ∉ tr0;
  ot_ret tr1 t o tr0 : tr = tr1 ++ EOnceRet t o :: tr0 -> exists t', EInitDone t' o ∈ tr0;
  ot_ran tr1 t o tr0 : tr = tr1 ++ EInitDone t o :: tr0 -> EInit t o ∈ tr0;
}.

Lemma once_same tr p p' :
  once_tracks tr p -> once_state p' = once_state p ->
  (forall t o, MOnceDone o ∈ cont p' t -> MOnceDone o ∈ cont p t) -> once_tracks tr p'.
Proof.
  intros [] Hs Hk. split; try done.
  - intros o. by rewrite Hs.
  - intros t o. rewrite Hs. apply ot_start0.
  - intros o. rewrite Hs. apply ot_done0.
  - intros t o Hin. eauto.
Qed.

(** An event that is no start, end or return adds nothing. *)
Lemma once_event tr p e :
  once_tracks tr p -> (forall t o, e <> EInit t o) ->
  (forall t o, e = EOnceRet t o -> exists t', EInitDone t' o ∈ tr) ->
  (forall t o, e = EInitDone t o -> EInit t o ∈ tr) -> once_tracks (e :: tr) p.
Proof.
  intros [] Hi Hr Hd. split.
  - done.
  - intros t o [E|Hin]%elem_of_cons; [by destruct (Hi t o)|by eapply ot_start0].
  - intros o Ho. destruct (ot_done0 o Ho) as [t ?]. exists t. by right.
  - intros t o Hin. right. auto.
  - intros [|e' tr1] t o tr0 E; injection E as E0 E; [by destruct (Hi t o)|by eapply ot_one0].
  - intros [|e' tr1] t o tr0 E; injection E as E0 E; [subst tr; by eapply Hr|by eapply ot_ret0].
  - intros [|e' tr1] t o tr0 E; injection E as E0 E; [subst tr; by eapply Hd|by eapply ot_ran0].
Qed.

Lemma once_start tr p o t :
  once_tracks tr p -> once_state p o <> 1 -> once_state p o <> 2 ->
  once_tracks (EInit t o :: tr) (set_once o 1 p).
Proof.
  intros [] H1 H2. assert (H0 : once_state p o = 0) by (destruct (ot_state0 o) as [?|[?|?]]; done).
  split.
  - intros o'. cbn. destruct (decide (o' = o)) as [->|]; [rewrite fn_lookup_insert; tauto|].
    rewrite fn_lookup_insert_ne by done. apply ot_state0.
  - intros t' o'. cbn. destruct (decide (o' = o)) as [->|]; [by rewrite fn_lookup_insert|].
    rewrite fn_lookup_insert_ne by done. intros [[= -> ->]|Hin]%elem_of_cons; [done|by eapply ot_start0].
  - intros o'. cbn. destruct (decide (o' = o)) as [->|]; [by rewrite fn_lookup_insert|].
    rewrite fn_lookup_insert_ne by done. intros Ho. destruct (ot_done0 o' Ho) as [t' ?]. exists t'. by right.
  - intros t' o' Hin. right. auto.
  - intros [|e' tr1] t' o' tr0 E; cbn in E.
    + injection E as <- <- <-. intros t' Hin. by apply (ot_start0 t' o).
    + injection E as _ E. by eapply ot_one0.
  - intros [|e' tr1] t' o' tr0 E; cbn in E; [done|]. injection E as _ E. by eapply ot_ret0.
  - intros [|e' tr1] t' o' tr0 E; cbn in E; [done|]. injection E as _ E. by eapply ot_ran0.
Qed.

Lemma once_finish tr p o t :
  once_tracks tr p -> EInit t o ∈ tr -> once_tracks (EInitDone t o :: tr) (set_once o 2 p).
Proof.
  intros Ht Hin. apply (once_event tr p) with (e := EInitDone t o) in Ht; [|done|done|by intros ? ? [= <- <-]].
  destruct Ht. split; try done.
  - intros o'. cbn. destruct (decide (o' = o)) as [->|]; [rewrite fn_lookup_insert; tauto|].
    rewrite fn_lookup_insert_ne by done. apply ot_state0.
  - intros t' o' Hin'. cbn. destruct (decide (o' = o)) as [->|]; [by rewrite fn_lookup_insert|].
    rewrite fn_lookup_insert_ne by done. by eapply ot_start0.
  - intros o'. cbn. destruct (decide (o' = o)) as [->|]; [intros _; exists t; left|].
    rewrite fn_lookup_insert_ne by done. apply ot_done0.
Qed.

Section OnceSections.
Context (c : Z) (p : psys) (u : micro) (k : list micro) (tr : list event).
Hypothesis Ht : once_tracks tr p.
Hypothesis Hk : cont p (self c (ps p)) = u :: k.

(** A section puts no end of an initialiser into its continuation. *)
Lemma once_keep p1 r evs :
  once_tracks (evs ++ tr) p1 -> cont p1 = cont p -> (forall o, MOnceDone o ∉ r) ->
  once_tracks (evs ++ tr) (set_cont (self c (ps p)) (r ++ k) p1).
Proof using Hk.
  intros H1 Hc Hr. eapply once_same; [exact H1|done|]. intros t o.
  destruct (decide (t = self c (ps p))) as [->|]; [|by rewrite cont_set_ne].
  rewrite cont_set_eq, Hc, Hk, elem_of_app. intros [Hin|Hin]; [by destruct (Hr o)|by right].
Qed.

Definition mutex_events (evs : list event) : Prop :=
  evs = [] \/ (exists t m, evs = [EAcq t m]) \/ (exists t m, evs = [ERel t m]).

Lemma once_plain p1 r evs :
  once_state p1 = once_state p -> cont p1 = cont p -> (forall o, MOnceDone o ∉ r) -> mutex_events evs ->
  once_tracks (evs ++ tr) (set_cont (self c (ps p)) (r ++ k) p1).
Proof using Ht Hk.
  intros Hs Hc Hr He. apply once_keep; [|done|done].
  assert (H1 : once_tracks tr p1) by (eapply once_same; [exact Ht|done|by rewrite Hc]).
  destruct He as [->|[(t & m & ->)|(t & m & ->)]]; [done|by apply once_event|by apply once_event].
Qed.

Lemma section_once_tracks r evs p1 :
  section c u p = Some (r, evs, p1) ->
  once_tracks (evs ++ tr) (set_cont (self c (ps p)) (r ++ k) p1).
Proof using Ht Hk.
  intros Hs. pose proof once_plain as Hplain. pose proof once_keep as Hkeep.
  unfold mutex_events in *. destruct u; cbn in Hs.
  - done.
  - unfold pthread_mutex_lock in Hs. destruct (locked _); injection Hs as <- <- <-; apply Hplain; try done;
      [set_solver|by left|set_solver|right; left; eauto].
  - unfold pthread_mutex_trylock in Hs. destruct (locked _); injection Hs as <- <- <-; apply Hplain; try done;
      [set_solver|by left|set_solver|right; left; eauto].
  - injection Hs as <- <- <-. apply Hplain; [done|done|set_solver|right; right; eauto].
  - injection Hs as <- <- <-. apply Hplain; [done|done|set_solver|right; right; eauto].
  - injection Hs as <- <- <-. apply Hplain; [done|done|set_solver|by left].
  - unfold pthread_cond_broadcast in Hs. destruct (canboot_sched_wake_all _ _ _); [|done].
    injection Hs as <- <- <-. apply Hplain; [done|done|set_solver|by left].
  - destruct (canboot_gil_acquire _ _) as [b s]. injection Hs as <- <- <-.
    apply Hplain; [done|done|destruct b; set_solver|by left].
  - injection Hs as <- <- <-. apply Hplain; [done|done|set_solver|by left].
  - unfold pthread_once in Hs. destruct (Z.eqb_spec (once_state p o) 2) as [H2|H2];
      [|destruct (Z.eqb_spec (once_state p o) 1) as [H1|H1]]; injection Hs as <- <- <-.
    + apply Hkeep; [|done|set_solver]. apply once_event; [done|done| |done].
      intros t o' [= <- <-]. by apply (ot_done _ _ Ht).
    + apply Hplain; [done|done|set_solver|by left].
    + pose proof (once_start tr p o (self c (ps p)) Ht H1 H2) as H3.
      destruct H3. split; try done. intros t o'. destruct (decide (t = self c (ps p))) as [->|].
      * rewrite cont_set_eq. cbn. rewrite !elem_of_cons.
        intros [E|[[= ->]|Hin]]; [done|by left|]. right. apply (ot_cont _ _ Ht). rewrite Hk. by right.
      * rewrite cont_set_ne by done. apply ot_cont0.
  - unfold once_wait in Hs. destruct (Z.eqb_spec (once_state p o) 2) as [H2|H2]; injection Hs as <- <- <-.
    + apply Hkeep; [|done|set_solver]. apply once_event; [done|done| |done].
      intros t o' [= <- <-]. by apply (ot_done _ _ Ht).
    + apply Hplain; [done|done|set_solver|by left].
  - unfold once_done in Hs. destruct (canboot_sched_wake_all _ _ _) as [s|]; [|done]. injection Hs as <- <- <-.
    apply Hkeep; [|done|set_solver].
    assert (Hin : EInit (self c (ps p)) o ∈ tr) by (apply (ot_cont _ _ Ht); rewrite Hk; left).
    pose proof (once_finish tr p o _ Ht Hin) as H1.
    apply once_event; [|done| |done]; [eapply once_same; [exact H1|done|done]|].
    intros t o' [= <- <-]. exists (self c (ps p)). left.
  - destruct (canboot_thread_join _ _ _) as [v s]. injection Hs as <- <- <-.
    apply Hplain; [done|done|destruct v; set_solver|by left].
  - injection Hs as <- <- <-. apply Hplain; [done|done|set_solver|by left].
  - destruct (canboot_thread_exit _ _ _ _); [|done]. injection Hs as <- <- <-.
    apply Hplain; [done|done|set_solver|by left].
Qed.
End OnceSections.

Lemma runs_once tr p : runs tr p -> once_tracks tr p.
Proof.
  induction 1 as [tls|tr p evs p' _ IH Hs].
  { split; try by intros [] ? ? ?.
    - by left.
    - intros t o Hin. by apply not_elem_of_nil in Hin.
    - done.
    - intros t o. cbn. destruct (decide (t = 0)) as [->|].
      + rewrite fn_lookup_insert. set_solver.
      + rewrite fn_lookup_insert_ne by done. set_solver. }
  destruct Hs as [c u k r evs p p1 _ Hk Hs|c k y p _ Hk|c k v p _ Hk|c k th p _ _|c k tid p _ _|c o s p _ _ _].
  - by eapply section_once_tracks.
  - eapply once_same; [exact IH|done|]. intros t o. destruct (decide (t = self c (ps p))) as [->|]; [|by rewrite cont_set_ne].
    rewrite cont_set_eq, Hk, elem_of_app. intros [Hin|]; [|done].
    destruct y; cbn in Hin; try set_solver.
    + unfold pthread_cond_wait in Hin. destruct (canboot_gil_owned_by_current _ _); set_solver.
    + unfold pthread_join in Hin. destruct (canboot_thread_by_id tid); [destruct (canboot_gil_owned_by_current c (ps p))|]; set_solver.
  - eapply once_same; [exact IH|done|]. intros t o. destruct (decide (t = self c (ps p))) as [->|]; [|by rewrite cont_set_ne].
    rewrite cont_set_eq, Hk. by right.
  - unfold pthread_create. destruct th as [th|]; [|done].
    destruct (canboot_thread_create _ _ _) as [[i|] s]; [|done]. cbn [snd].
    eapply once_same; [exact IH|done|]. intros t o. destruct (decide (t = i)) as [->|]; [|by rewrite cont_set_ne].
    rewrite cont_set_eq. unfold gil_thread_entry. set_solver.
  - unfold pthread_detach. destruct (canboot_thread_by_id tid); [|done]. eapply once_same; [exact IH|done|done].
  - eapply once_same; [exact IH|done|done].
Qed.

(** An initialiser runs at most once, and every return of [pthread_once]
    comes after a finished run of it. *)
Theorem once_exactly_once tr p :
  runs tr p ->
  (forall tr1 t o tr0, tr = tr1 ++ EInit t o :: tr0 -> forall t', EInit t' o ∉ tr0) /\
  (forall tr1 t o tr0, tr = tr1 ++ EOnceRet t o :: tr0 ->
     exists t' tr2 tr3, tr0 = tr2 ++ EInitDone t' o :: tr3 /\ EInit t' o ∈ tr3).
Proof.
  intros Ht%runs_once. split; [exact (ot_one _ _ Ht)|]. intros tr1 t o tr0 ->.
  destruct (ot_ret _ _ Ht _ _ _ _ eq_refl) as [t' Hin]. apply list_elem_of_split in Hin as (tr2 & tr3 & ->).
  exists t', tr2, tr3. split; [done|]. apply (ot_ran _ _ Ht (tr1 ++ EOnceRet t o :: tr2)).
  by rewrite <- app_assoc.
Qed.

(** C28.  Waiting on a condition variable gives the mutex back and goes to sleep
    in one step, so a signal sent after the mutex is free is not missed: the
    waiter is last on the variable's queue, and a signal wakes the first one. *)
Theorem cond_wait_signal tr p c v m k r evs p1 :
  runs tr p -> running c p -> cont p (self c (ps p)) = MWait v m :: k ->
  section c (MWait v m) p = Some (r, evs, p1) ->
  locked (mutexes p1 m) = false /\
  waiting (Some (cond_q v)) (ps p1) = waiting (Some (cond_q v)) (ps p) ++ [self c (ps p)] /\
  forall t, head (waiting (Some (cond_q v)) (ps p1)) = Some t ->
    st_of (ps (pthread_cond_signal v p1)) t = CANBOOT_TH_RUNNABLE /\
    waiting (Some (cond_q v)) (ps (pthread_cond_signal v p1)) = tail (waiting (Some (cond_q v)) (ps p1)).
Proof.
  intros [[ql HP] _]%runs_inv [Hc Hp] Hk Hs. cbn in Hs. injection Hs as <- <- <-.
  split; [cbn; by rewrite fn_lookup_insert|].
  destruct (wake_one_spec None (mutex_q m) c (ps p) ql (pi_sched _ _ HP)) as (H1 & Hcp & _).
  set (s1 := canboot_sched_wake_one (mutex_q m) (ps p)) in *.
  assert (Hself : self c s1 = self c (ps p)) by (unfold self; by rewrite Hcp).
  destruct (block_on_spec c (cond_q v) s1 _ H1) as (H2 & _).
  { unfold settled in *. by rewrite Hcp. }
  { by rewrite Hself. }
  { done. }
  change (ps (cond_wait_park c v m p)) with (canboot_sched_block_on c (cond_q v) s1).
  set (s2 := canboot_sched_block_on c (cond_q v) s1) in *.
  rewrite !(waiting_list _ _ _ _ _ H2), (waiting_list _ _ _ _ _ (pi_sched _ _ HP)), Hself.
  rewrite fn_lookup_insert_ne, fn_lookup_insert by done.
  assert (Hne : cond_q v <> mutex_q m) by (intros E; by apply (lock_q_cond (LMutex m) v)).
  rewrite woken_one_other by done. split; [done|]. intros t Ht.
  destruct (wake_one_spec None (cond_q v) c s2 _ H2) as (H3 & _).
  change (ps (pthread_cond_signal v (cond_wait_park c v m p))) with (canboot_sched_wake_one (cond_q v) s2).
  unfold woken_one in H3 at 1. rewrite Hself in H3.
  rewrite fn_lookup_insert_ne, fn_lookup_insert, woken_one_other in H3 by done. rewrite Ht in H3.
  split.
  - apply (iv_in _ _ _ _ H3 None). rewrite fn_lookup_insert. set_solver.
  - rewrite (waiting_list _ _ _ _ _ H3). rewrite fn_lookup_insert_ne by done. by rewrite fn_lookup_insert.
Qed.

(** [pthread_exit] does not give the VM lock back: when its caller owns
    it, the lock stays with the dead thread and every other thread that tries
    to take it goes to sleep. *)
Theorem exit_keeps_gil tr p c r p1 evs k k1 c2 :
  runs tr p -> running c p -> cont p (self c (ps p)) = MExit (Some r) :: k ->
  canboot_gil_owned_by_current c (ps p) = true ->
  section c (MExit (Some r)) p = Some (k1, evs, p1) ->
  canboot_gil_owned_by_current c2 (ps p1) = false -> running c2 p1 ->
  g_gil_owner (ps p1) = Some (self c (ps p)) /\ finished (st_of (ps p1) (self c (ps p))) /\
  (canboot_gil_acquire c2 (ps p1)).1 = false.
Proof.
  intros [[ql HP] _]%runs_inv [Hc Hp] Hk Hown Hs Hno _. cbn in Hs.
  destruct (exit_spec c r (ps p) ql (pi_sched _ _ HP) Hc Hp) as (s & He & _ & _ & _ & Hst & _).
  rewrite He in Hs. injection Hs as <- <- <-. pose proof (exit_gil c r _ _ He) as Hg. injection Hg as Hg1 Hg2.
  unfold canboot_gil_owned_by_current in *. apply andb_true_iff in Hown as [Hl Ho%bool_decide_eq_true].
  cbn [ps on_sched] in *. split; [congruence|]. split.
  - rewrite Hst. destruct (detached _); [by right|by left].
  - unfold canboot_gil_acquire. rewrite Hg2, Hl in *. cbn [andb] in *. by rewrite Hno.
Qed.
