(* ===== verification/PthreadDemo.v ===== *)
(** * Runs of the thread layer

    An executable form of the steps of [Pthread], and runs on two CPUs at which
    the promises of [PthreadProps] are used. *)
From stdpp Require Import functions.
From S2P Require Import Prelude Sched SchedInv SchedProps Pthread PthreadProps.

(** What happens next: a section, a call or a return of the thread on a CPU, or
    a step of the hardware. *)
Inductive move : Type :=
| VSection (c : Z)
| VCall (c : Z) (x : call)
| VReturn (c v : Z)
| VCreate (c : Z) (th : option Z)
| VHardware (c : Z) (o : op).

Definition runningb (c : Z) (p : psys) : bool :=
  (0 <=? c) && (c <? CANBOOT_NR_CPUS) && online (canboot_cpus (ps p) c) && poolb (self c (ps p)).

Definition play (v : move) (p : psys) : option (list event * psys) :=
  match v with
  | VSection c =>
      match runningb c p, cont p (self c (ps p)) with
      | true, u :: k => match section c u p with
                        | Some (r, evs, p1) => Some (evs, set_cont (self c (ps p)) (r ++ k) p1)
                        | None => None
                        end
      | _, _ => None
      end
  | VCall c x =>
      match runningb c p, cont p (self c (ps p)) with
      | true, MUser :: k =>
          Some ([], set_cont (self c (ps p)) (code (canboot_gil_owned_by_current c (ps p)) x ++ MUser :: k) p)
      | _, _ => None
      end
  | VReturn c v =>
      match runningb c p, cont p (self c (ps p)) with
      | true, MUser :: k =>
          Some ([], set_cont (self c (ps p)) k
            (mkP (ps p) (mutexes p) (generation p) (once_state p) (cont p) (<[self c (ps p) := v]> (uret p))))
      | _, _ => None
      end
  | VCreate c th =>
      match runningb c p, cont p (self c (ps p)) with
      | true, MUser :: k => Some ([], (pthread_create th p).2)
      | _, _ => None
      end
  | VHardware c o =>
      if hardware o && allowedb c o (ps p)
      then match exec c o (ps p) with Some s => Some ([], on_sched (fun _ => s) p) | None => None end
      else None
  end.

Fixpoint plays (l : list move) (tr : list event) (p : psys) : option (list event * psys) :=
  match l with
  | [] => Some (tr, p)
  | v :: l' => match play v p with Some (evs, p') => plays l' (evs ++ tr) p' | None => None end
  end.

Lemma runningb_ok c p : runningb c p = true -> running c p.
Proof.
  unfold runningb, poolb, running, settled, pool. rewrite !andb_true_iff. intros [[? Ho] ?].
  split; [|lia]. split; [lia|done].
Qed.

Lemma play_step v p evs p' : play v p = Some (evs, p') -> pstep p evs p'.
Proof.
  destruct v; cbn; intros Hp.
  - destruct (runningb c p) eqn:Hr; [|done]. apply runningb_ok in Hr. destruct (cont p _) as [|u k] eqn:Hk; [done|].
    destruct (section c u p) as [[[r e] p1]|] eqn:Hs; [|done]. injection Hp as <- <-. by eapply st_section.
  - destruct (runningb c p) eqn:Hr; [|done]. apply runningb_ok in Hr. destruct (cont p _) as [|[] k] eqn:Hk; try done.
    injection Hp as <- <-. by apply st_call.
  - destruct (runningb c p) eqn:Hr; [|done]. apply runningb_ok in Hr. destruct (cont p _) as [|[] k] eqn:Hk; try done.
    injection Hp as <- <-. by apply st_return.
  - destruct (runningb c p) eqn:Hr; [|done]. apply runningb_ok in Hr. destruct (cont p _) as [|[] k] eqn:Hk; try done.
    injection Hp as <- <-. by eapply st_create.
  - destruct (hardware o) eqn:Hh; [|done]. destruct (allowedb c o (ps p)) eqn:Ha; [|done]. apply allowedb_ok in Ha.
    cbn in Hp. destruct (exec c o (ps p)) eqn:He; [|done]. injection Hp as <- <-. by eapply st_hardware.
Qed.

Lemma plays_runs l : forall tr p tr' p', runs tr p -> plays l tr p = Some (tr', p') -> runs tr' p'.
Proof.
  induction l as [|v l IH]; intros tr p tr' p' Hr Hp; cbn in Hp; [by injection Hp as <- <-|].
  destruct (play v p) as [[evs p1]|] eqn:Hv; [|done]. eapply IH; [|exact Hp].
  eapply runs_step; [done|by eapply play_step].
Qed.

Definition played (l : list move) : list event * psys :=
  match plays l [] (canboot_pthread_init None) with
  | Some x => x
  | None => ([], canboot_pthread_init None)
  end.

Lemma played_runs l : runs (played l).1 (played l).2.
Proof.
  unfold played. destruct (plays l [] _) as [[tr p]|] eqn:Hp; [|constructor].
  eapply plays_runs; [constructor|exact Hp].
Qed.

(** Two threads are created, the first runs on CPU 1 and the second on CPU 2;
    the boot thread takes mutex 5 and drops the VM lock; both threads try the
    mutex and go to sleep on it; the boot thread gives it back. *)
Definition contended : list move :=
  [VCreate 0 (Some 70); VCreate 0 (Some 71); VHardware 1 (OApOnline None); VHardware 1 OIdle;
   VHardware 2 (OApOnline None); VHardware 2 OIdle;
   VCall 0 (CLock 5); VSection 0; VCall 0 CGilRelease; VSection 0;
   VSection 1; VCall 1 CGilRelease; VSection 1; VCall 1 (CLock 5); VSection 1;
   VSection 2; VCall 2 CGilRelease; VSection 2; VCall 2 (CLock 5); VSection 2;
   VCall 0 (CUnlock 5); VSection 0].

Lemma no_lost_wakeup_witness :
  waiting (Some (lock_q (LMutex 5))) (ps (played contended).2) = [2] /\
  candidate (played contended).2 (LMutex 5).
Proof.
  assert (Hw : waiting (Some (lock_q (LMutex 5))) (ps (played contended).2) = [2]) by (vm_compute; reflexivity).
  split; [exact Hw|]. apply (no_lost_wakeup (played contended).1).
  - apply played_runs.
  - vm_compute. reflexivity.
  - rewrite Hw. discriminate.
Defined.

(** The first sleeper then takes it. *)
Definition handed_over : list move := contended ++ [VHardware 1 OIdle; VSection 1].

Lemma mutex_exclusion_witness :
  (played handed_over).1 = [] ++ EAcq 1 5 :: [ERel 0 5] ++ EAcq 0 5 :: [] /\ ERel 0 5 ∈ [ERel 0 5].
Proof.
  assert (Htr : (played handed_over).1 = [] ++ EAcq 1 5 :: [ERel 0 5] ++ EAcq 0 5 :: [])
    by (vm_compute; reflexivity).
  split; [exact Htr|].
  apply (mutex_exclusion (played handed_over).1 (played handed_over).2 [] 1 5 [ERel 0 5] 0 []).
  - apply played_runs.
  - rewrite Htr. intros [|e1 [|e2 [|e3 [|e4 l]]]] t m tr0 E; cbn in E; try discriminate E.
    injection E as <- <- <- <-. reflexivity.
  - exact Htr.
Defined.

(** Two threads call [pthread_once]: the first runs the initialiser, the second waits. *)
Definition initialised : list move :=
  [VCreate 0 (Some 70); VHardware 1 (OApOnline None); VHardware 1 OIdle; VCall 0 CGilRelease; VSection 0;
   VCall 0 (COnce 3); VSection 0; VSection 1; VCall 1 (COnce 3); VSection 1; VSection 1;
   VReturn 0 0; VSection 0; VHardware 1 OIdle; VSection 1].

Lemma once_exactly_once_witness :
  (played initialised).1 = [EOnceRet 1 3; EOnceRet 0 3; EInitDone 0 3; EInit 0 3] /\
  exists t' tr2 tr3, [EOnceRet 0 3; EInitDone 0 3; EInit 0 3] = tr2 ++ EInitDone t' 3 :: tr3 /\ EInit t' 3 ∈ tr3.
Proof.
  assert (Htr : (played initialised).1 = [EOnceRet 1 3; EOnceRet 0 3; EInitDone 0 3; EInit 0 3])
    by (vm_compute; reflexivity).
  split; [exact Htr|].
  apply (proj2 (once_exactly_once (played initialised).1 (played initialised).2 (played_runs initialised)) [] 1).
  exact Htr.
Defined.

(** The boot thread waits on variable 4 with mutex 5. *)
Definition about_to_wait : list move :=
  [VCreate 0 (Some 70); VCall 0 (CLock 5); VSection 0; VCall 0 CGilRelease; VSection 0; VCall 0 (CWait 4 5)].

Lemma cond_wait_signal_witness :
  let p := (played about_to_wait).2 in
  match section 0 (MWait 4 5) p with
  | Some (_, _, p1) =>
      locked (mutexes p1 5) = false /\
      waiting (Some (cond_q 4)) (ps p1) = waiting (Some (cond_q 4)) (ps p) ++ [self 0 (ps p)]
  | None => False
  end.
Proof.
  cbv zeta. destruct (section 0 (MWait 4 5) (played about_to_wait).2) as [[[r evs] p1]|] eqn:Hs.
  - destruct (cond_wait_signal (played about_to_wait).1 (played about_to_wait).2 0 4 5 [MLock 5; MUser] r evs p1)
      as (H1 & H2 & _).
    + apply played_runs.
    + apply runningb_ok. vm_compute. reflexivity.
    + vm_compute. reflexivity.
    + exact Hs.
    + split; [exact H1|exact H2].
  - discriminate Hs.
Defined.

(** A thread that owns the VM lock calls [pthread_exit]. *)
Definition about_to_exit : list move :=
  [VCreate 0 (Some 70); VHardware 1 (OApOnline None); VHardware 1 OIdle; VCall 0 CGilRelease; VSection 0;
   VSection 1; VCall 1 (CExit 9)].

Lemma exit_keeps_gil_witness :
  let p := (played about_to_exit).2 in
  match section 1 (MExit (Some 9)) p with
  | Some (_, _, p1) =>
      g_gil_owner (ps p1) = Some (self 1 (ps p)) /\ finished (st_of (ps p1) (self 1 (ps p))) /\
      (canboot_gil_acquire 0 (ps p1)).1 = false
  | None => False
  end.
Proof.
  cbv zeta. set (p := (played about_to_exit).2).
  set (o := section 1 (MExit (Some 9)) p).
  assert (Ho : match o with Some (_, _, p1) =>
    negb (canboot_gil_owned_by_current 0 (ps p1)) && runningb 0 p1 | None => false end = true)
    by (vm_compute; reflexivity).
  destruct o as [[[r evs] p1]|] eqn:Hs; [|discriminate Ho].
  apply andb_true_iff in Ho as [Ho1 Ho2].
  apply (exit_keeps_gil (played about_to_exit).1 p 1 9 p1 evs [MUser; MGilRelease; MExit None] r 0).
  - apply played_runs.
  - apply runningb_ok. vm_compute. reflexivity.
  - vm_compute. reflexivity.
  - vm_compute. reflexivity.
  - exact Hs.
  - destruct (canboot_gil_owned_by_current 0 (ps p1)); [discriminate Ho1|reflexivity].
  - apply runningb_ok. exact Ho2.
Defined.
