(* ===== verification/Text.v ===== *)
(** * C strings

    Strings as the C library sees them, lists of character codes up to the
    first NUL, with the decimal numbers the parsers read and write. *)
From S2P Require Import Prelude Bytes.

(** The C string at the start of some bytes, what [strlen] measures. *)
Fixpoint cstr (l : list Z) : list Z :=
  match l with
  | [] => []
  | b :: l' => if b =? 0 then [] else b :: cstr l'
  end.

(** A text: bytes of a C string. *)
Definition text (l : list Z) : Prop := Forall (fun b => 0 < b < 256) l.

Lemma cstr_text l : Forall (fun b => b <> 0) l -> cstr l = l.
Proof.
  induction 1 as [|b l Hb _ IH]; [done|]. cbn. rewrite (proj2 (Z.eqb_neq b 0)) by done. by rewrite IH.
Qed.

Lemma text_cstr l : text l -> cstr l = l.
Proof. intros Ht. apply cstr_text. eapply Forall_impl; [exact Ht|]. cbn. lia. Qed.

(** A statement on the values below [n], checked one by one. *)
Lemma below_check (n : Z) (P : Z -> Prop) `{!forall x, Decision (P x)} :
  forallb (fun x => bool_decide (P x)) (seqZ 0 n) = true -> forall x, 0 <= x < n -> P x.
Proof.
  intros Hf x Hx. rewrite forallb_forall in Hf. specialize (Hf x).
  apply (bool_decide_eq_true_1 (P x)), Hf, list_elem_of_In, elem_of_seqZ. lia.
Qed.

(** ** Spans *)
(** The characters up to the first one that fails [p], and the rest. *)
Fixpoint span (p : Z -> bool) (l : list Z) : list Z * list Z :=
  match l with
  | [] => ([], [])
  | c :: l' => if p c then let (a, b) := span p l' in (c :: a, b) else ([], l)
  end.

(** The next character of a C string, NUL at its end. *)
Definition peek (l : list Z) : Z := match l with [] => 0 | c :: _ => c end.

Lemma span_app p a b :
  Forall (fun c => p c = true) a -> (forall c l, b = c :: l -> p c = false) -> span p (a ++ b) = (a, b).
Proof.
  intros Ha Hb. induction Ha as [|c a Hc _ IH]; cbn.
  - destruct b as [|c l]; [done|]. cbn. by rewrite (Hb c l).
  - by rewrite Hc, IH.
Qed.

(** ** Decimal numbers *)
Definition is_digit (c : Z) : bool := (48 <=? c) && (c <=? 57).

(** The value of a row of digits, read from the left. *)
Definition dec_value (l : list Z) : Z := fold_left (fun v c => v * 10 + (c - 48)) l 0.

(** The digits of [n], with enough fuel for every value below [10 ^ fuel]. *)
Fixpoint dec_digits (fuel : nat) (n : Z) : list Z :=
  match fuel with
  | O => []
  | S f => if n <? 10 then [48 + n] else dec_digits f (n / 10) ++ [48 + n mod 10]
  end.

Lemma dec_value_snoc l c : dec_value (l ++ [c]) = dec_value l * 10 + (c - 48).
Proof. unfold dec_value. by rewrite fold_left_app. Qed.

Lemma dec_digits_spec fuel : forall n, 0 <= n < 10 ^ Z.of_nat fuel -> (0 < fuel)%nat ->
  dec_value (dec_digits fuel n) = n /\ Forall (fun c => is_digit c = true) (dec_digits fuel n) /\
  dec_digits fuel n <> [] /\ (length (dec_digits fuel n) <= fuel)%nat.
Proof.
  induction fuel as [|f IH]; intros n Hn Hf; [lia|]. cbn [dec_digits].
  assert (Hd : forall d, 0 <= d < 10 -> is_digit (48 + d) = true) by (unfold is_digit; lia).
  destruct (Z.ltb_spec n 10).
  - split; [unfold dec_value; cbn [fold_left]; lia|]. split; [constructor; [apply Hd; lia|done]|].
    split; [done|cbn; lia].
  - assert (0 < f)%nat.
    { destruct f; [|lia]. change (10 ^ Z.of_nat 1) with 10 in Hn. lia. }
    destruct (IH (n / 10)) as (IH1 & IH2 & IH3 & IH4); [|done|].
    { split; [apply Z.div_pos; lia|]. apply Z.div_lt_upper_bound; [lia|].
      rewrite <- Z.pow_succ_r by lia. rewrite <- Nat2Z.inj_succ. lia. }
    split; [rewrite dec_value_snoc, IH1; pose proof (Z.div_mod n 10); lia|].
    split; [apply Forall_app; split; [done|]; constructor; [apply Hd, Z.mod_pos_bound; lia|done]|].
    split; [by intros [_ E]%app_eq_nil|]. rewrite length_app. cbn. lia.
Qed.

(** A number is at least what its first digits say. *)
Lemma dec_fold_mono l : forall v, Forall (fun c => is_digit c = true) l -> 0 <= v ->
  v <= fold_left (fun v c => v * 10 + (c - 48)) l v.
Proof.
  induction l as [|c l IH]; intros v Hl Hv; cbn; [lia|]. apply Forall_cons in Hl as [Hc Hl].
  unfold is_digit in Hc. etrans; [|apply IH; [done|lia]]. lia.
Qed.

Lemma digits_forallb l : forallb is_digit l = true -> Forall (fun c => is_digit c = true) l.
Proof. rewrite forallb_forall, Forall_forall. intros Hl c Hc. by apply Hl, list_elem_of_In. Qed.

Lemma dec_value_nonneg l : Forall (fun c => is_digit c = true) l -> 0 <= dec_value l.
Proof. intros Hl. by apply dec_fold_mono. Qed.
