(* ===== verification/Encoding.v ===== *)
(** * Hex and base64, [cando_port/lib/encoding.c]

    The arguments are C strings: the bytes up to the first NUL, read with
    [strlen].  Outputs go to static buffers, whose sizes bound what the
    functions produce.  [None] is the [null] the functions push. *)
From S2P Require Import Prelude Bytes Text.

Definition chr (c : Z) (tbl : list Z) : Z := nth (Z.to_nat c) tbl 0.

(** ** Hex *)
Definition hex_digits : list Z := str "0123456789abcdef".

Definition unhex_nibble (c : Z) : Z :=
  if (48 <=? c) && (c <=? 57) then c - 48
  else if (97 <=? c) && (c <=? 102) then 10 + (c - 97)
  else if (65 <=? c) && (c <=? 70) then 10 + (c - 65)
  else -1.

Definition h_encode (arg : option (list Z)) : option (list Z) :=
  match arg with
  | None => None
  | Some bytes =>
      let src := cstr bytes in
      let n := Z.of_nat (length src) in
      let n := if 16384 - 1 <? n * 2 then (16384 - 1) / 2 else n in
      Some (flat_map (fun b => [chr (Z.shiftr b 4) hex_digits; chr (Z.land b 15) hex_digits])
              (take (Z.to_nat n) src))
  end.

(** The loop of [h_decode], [out_n] bytes to go. *)
Fixpoint h_decode_loop (out_n : nat) (src : list Z) : option (list Z) :=
  match out_n, src with
  | O, _ => Some []
  | S k, h :: l :: src' =>
      let hi := unhex_nibble h in
      let lo := unhex_nibble l in
      if (hi <? 0) || (lo <? 0) then None
      else match h_decode_loop k src' with
           | Some r => Some (Z.lor (Z.shiftl hi 4) lo :: r)
           | None => None
           end
  | S _, _ => None
  end.

Definition h_decode (arg : option (list Z)) : option (list Z) :=
  match arg with
  | None => None
  | Some bytes =>
      let src := cstr bytes in
      let n := Z.of_nat (length src) in
      if negb (n mod 2 =? 0) then None
      else
        let out_n := n / 2 in
        let out_n := if 8192 <? out_n then 8192 else out_n in
        h_decode_loop (Z.to_nat out_n) src
  end.

(** ** Base64 *)
Definition b64_alphabet : list Z :=
  str "ABCDEFGHIJKLMNOPQRSTUVWXYZabcdefghijklmnopqrstuvwxyz0123456789+/".

Definition b64_value (c : Z) : Z :=
  if (65 <=? c) && (c <=? 90) then c - 65
  else if (97 <=? c) && (c <=? 122) then 26 + (c - 97)
  else if (48 <=? c) && (c <=? 57) then 52 + (c - 48)
  else if c =? 43 then 62
  else if c =? 47 then 63
  else -1.

Definition b64_char (v k : Z) : Z := chr (Z.land (Z.shiftr v k) 63) b64_alphabet.

(** The loop of [b_encode] and the group after it, [out_n] characters written. *)
Fixpoint b_encode_loop (out_n : Z) (src : list Z) : list Z :=
  match src with
  | a :: b :: c :: src' =>
      if out_n + 4 <=? 16384 - 1 then
        let v := Z.lor (Z.lor (Z.shiftl a 16) (Z.shiftl b 8)) c in
        b64_char v 18 :: b64_char v 12 :: b64_char v 6 :: b64_char v 0 ::
        b_encode_loop (out_n + 4) src'
      else []
  | [a; b] =>
      if out_n + 4 <=? 16384 - 1 then
        let v := Z.lor (Z.shiftl a 16) (Z.shiftl b 8) in
        [b64_char v 18; b64_char v 12; b64_char v 6; 61]
      else []
  | [a] =>
      if out_n + 4 <=? 16384 - 1 then
        let v := Z.shiftl a 16 in [b64_char v 18; b64_char v 12; 61; 61]
      else []
  | [] => []
  end.

Definition b_encode (arg : option (list Z)) : option (list Z) :=
  match arg with
  | None => None
  | Some bytes => Some (b_encode_loop 0 (cstr bytes))
  end.

(** [if (cond && out_n < sizeof(out)) out[out_n++] = b], the bytes written in reverse. *)
Definition emit (cond : bool) (b : Z) (out : list Z) : list Z :=
  if cond && (Z.of_nat (length out) <? 12288) then b :: out else out.

Fixpoint b_decode_loop (out : list Z) (src : list Z) : option (list Z) :=
  match src with
  | s0 :: s1 :: s2 :: s3 :: src' =>
      let a := b64_value s0 in
      let b := b64_value s1 in
      let c := if s2 =? 61 then -2 else b64_value s2 in
      let d := if s3 =? 61 then -2 else b64_value s3 in
      if (a <? 0) || (b <? 0) || (c =? -1) || (d =? -1) then None
      else
        let v := Z.lor (Z.lor (Z.lor (Z.shiftl a 18) (Z.shiftl b 12))
                          (Z.shiftl (if c <? 0 then 0 else c) 6)) (if d <? 0 then 0 else d) in
        let out := emit true (Z.land (Z.shiftr v 16) 255) out in
        let out := emit (0 <=? c) (Z.land (Z.shiftr v 8) 255) out in
        let out := emit (0 <=? d) (Z.land v 255) out in
        b_decode_loop out src'
  | _ => Some (rev out)
  end.

Definition b_decode (arg : option (list Z)) : option (list Z) :=
  match arg with
  | None => None
  | Some bytes =>
      let src := cstr bytes in
      if negb (Z.of_nat (length src) mod 4 =? 0) then None else b_decode_loop [] src
  end.

(** ** Round trips *)
Lemma hex_digit_inv x : 0 <= x < 16 ->
  unhex_nibble (chr x hex_digits) = x /\ chr x hex_digits <> 0.
Proof.
  revert x. apply (below_check 16 (fun x => unhex_nibble (chr x hex_digits) = x /\ chr x hex_digits <> 0)).
  vm_compute. reflexivity.
Qed.

Lemma hex_byte b : 0 <= b < 256 ->
  0 <= Z.shiftr b 4 < 16 /\ 0 <= Z.land b 15 < 16 /\
  Z.lor (Z.shiftl (Z.shiftr b 4) 4) (Z.land b 15) = b.
Proof.
  revert b. apply (below_check 256 (fun b => 0 <= Z.shiftr b 4 < 16 /\ 0 <= Z.land b 15 < 16 /\
    Z.lor (Z.shiftl (Z.shiftr b 4) 4) (Z.land b 15) = b)). vm_compute. reflexivity.
Qed.

Definition hex_of (l : list Z) : list Z :=
  flat_map (fun b => [chr (Z.shiftr b 4) hex_digits; chr (Z.land b 15) hex_digits]) l.

Lemma hex_of_text l : text l -> Forall (fun b => b <> 0) (hex_of l).
Proof.
  induction 1 as [|b l Hb _ IH]; [constructor|]. destruct (hex_byte b) as (H1 & H2 & _); [lia|].
  cbn. constructor; [by apply hex_digit_inv|]. constructor; [by apply hex_digit_inv|done].
Qed.

Lemma hex_of_length l : length (hex_of l) = (2 * length l)%nat.
Proof.
  induction l as [|b l IH]; [done|]. cbn [hex_of flat_map app length]. fold (hex_of l). rewrite IH. lia.
Qed.

Lemma h_decode_hex l : text l -> h_decode_loop (length l) (hex_of l) = Some l.
Proof.
  induction 1 as [|b l Hb _ IH]; [done|]. destruct (hex_byte b) as (H1 & H2 & H3); [lia|].
  cbn [length hex_of flat_map app h_decode_loop].
  rewrite (proj1 (hex_digit_inv _ H1)), (proj1 (hex_digit_inv _ H2)).
  rewrite (proj2 (Z.ltb_ge _ _)), (proj2 (Z.ltb_ge _ _)) by lia. cbn [orb].
  fold (hex_of l). by rewrite IH, H3.
Qed.

(** A text of up to 8191 bytes comes back from hex; a longer one is cut
    there, without a report. *)
Theorem hex_roundtrip l :
  text l -> exists e, h_encode (Some l) = Some e /\ h_decode (Some e) = Some (take (Z.to_nat 8191) l).
Proof.
  intros Ht. unfold h_encode. rewrite text_cstr by done. cbv zeta. eexists. split; [done|].
  set (n := if 16384 - 1 <? Z.of_nat (length l) * 2 then _ else _).
  assert (Hn : take (Z.to_nat n) l = take (Z.to_nat 8191) l).
  { unfold n. destruct (Z.ltb_spec (16384 - 1) (Z.of_nat (length l) * 2)); [done|].
    rewrite Nat2Z.id, firstn_all, take_ge; [done|]. lia. }
  rewrite Hn. fold (hex_of (take (Z.to_nat 8191) l)). set (m := take (Z.to_nat 8191) l).
  assert (Hm : text m) by (by apply Forall_take).
  assert (Hlen : (length m <= Z.to_nat 8191)%nat) by (unfold m; rewrite length_take; lia).
  unfold h_decode. rewrite cstr_text by (by apply hex_of_text). rewrite hex_of_length.
  replace (Z.of_nat (2 * length m)) with (Z.of_nat (length m) * 2) by lia.
  rewrite Z.mod_mul, Z.div_mul by lia. cbn [negb Z.eqb]. cbv zeta.
  rewrite (proj2 (Z.ltb_ge _ _)) by lia. rewrite Nat2Z.id. by apply h_decode_hex.
Qed.

Lemma hex_roundtrip_witness :
  exists e, h_encode (Some (str "CanBoot")) = Some e /\ h_decode (Some e) = Some (take (Z.to_nat 8191) (str "CanBoot")).
Proof. apply (hex_roundtrip (str "CanBoot")). repeat constructor. Defined.

(** ** Base64 groups *)
Lemma b64_char_inv x : 0 <= x < 64 ->
  b64_value (chr x b64_alphabet) = x /\ chr x b64_alphabet <> 0 /\ chr x b64_alphabet <> 61.
Proof.
  revert x. apply (below_check 64 (fun x => b64_value (chr x b64_alphabet) = x /\
    chr x b64_alphabet <> 0 /\ chr x b64_alphabet <> 61)). vm_compute. reflexivity.
Qed.

Lemma sextet v k : 0 <= Z.land (Z.shiftr v k) 63 < 64.
Proof. change 63 with (Z.ones 6). rewrite Z.land_ones by lia. apply Z.mod_pos_bound. lia. Qed.

Lemma b64_char_value v k : b64_value (b64_char v k) = Z.land (Z.shiftr v k) 63.
Proof. apply b64_char_inv, sextet. Qed.
Lemma b64_char_text v k : b64_char v k <> 0.
Proof. apply b64_char_inv, sextet. Qed.
Lemma b64_char_pad v k : (b64_char v k =? 61) = false.
Proof. apply Z.eqb_neq, b64_char_inv, sextet. Qed.

(** The 24 bits of a group survive, and give the bytes back. *)
Lemma byte_land b : 0 <= b < 256 -> b = Z.land b (Z.ones 8).
Proof. intros Hb. rewrite Z.land_ones by lia. by rewrite Z.mod_small. Qed.

Lemma sextets v :
  Z.lor (Z.lor (Z.lor (Z.shiftl (Z.land (Z.shiftr v 18) 63) 18)
                  (Z.shiftl (Z.land (Z.shiftr v 12) 63) 12))
           (Z.shiftl (Z.land (Z.shiftr v 6) 63) 6)) (Z.land (Z.shiftr v 0) 63) = Z.land v (Z.ones 24).
Proof. change 63 with (Z.ones 6). rewrite Z.shiftr_0_r. zbits. Qed.

Lemma group_bytes a b c : 0 <= a < 256 -> 0 <= b < 256 -> 0 <= c < 256 ->
  let v := Z.land (Z.lor (Z.lor (Z.shiftl a 16) (Z.shiftl b 8)) c) (Z.ones 24) in
  Z.land (Z.shiftr v 16) 255 = a /\ Z.land (Z.shiftr v 8) 255 = b /\ Z.land v 255 = c.
Proof.
  intros Ha Hb Hc v. unfold v. change 255 with (Z.ones 8).
  rewrite (byte_land a), (byte_land b), (byte_land c) by done. split; [|split]; zbits.
Qed.

Lemma two_sextets v :
  Z.lor (Z.shiftl (Z.land (Z.shiftr v 18) 63) 18) (Z.shiftl (Z.land (Z.shiftr v 12) 63) 12) =
  Z.land v (Z.shiftl (Z.ones 12) 12).
Proof. change 63 with (Z.ones 6). zbits. Qed.

Lemma three_sextets v :
  Z.lor (Z.lor (Z.shiftl (Z.land (Z.shiftr v 18) 63) 18) (Z.shiftl (Z.land (Z.shiftr v 12) 63) 12))
    (Z.shiftl (Z.land (Z.shiftr v 6) 63) 6) = Z.land v (Z.shiftl (Z.ones 18) 6).
Proof. change 63 with (Z.ones 6). zbits. Qed.

Lemma group_byte a : 0 <= a < 256 ->
  let v := Z.shiftl a 16 in
  Z.land (Z.shiftr (Z.lor (Z.lor (Z.lor (Z.shiftl (Z.land (Z.shiftr v 18) 63) 18)
                                    (Z.shiftl (Z.land (Z.shiftr v 12) 63) 12)) (Z.shiftl 0 6)) 0) 16) 255 = a.
Proof.
  intros Ha v. rewrite two_sextets. unfold v. change 255 with (Z.ones 8).
  rewrite Z.shiftl_0_l, !Z.lor_0_r, (byte_land a) by done. zbits.
Qed.

Lemma group_two a b : 0 <= a < 256 -> 0 <= b < 256 ->
  let v := Z.lor (Z.shiftl a 16) (Z.shiftl b 8) in
  let w := Z.lor (Z.lor (Z.lor (Z.shiftl (Z.land (Z.shiftr v 18) 63) 18)
                           (Z.shiftl (Z.land (Z.shiftr v 12) 63) 12))
                    (Z.shiftl (Z.land (Z.shiftr v 6) 63) 6)) 0 in
  Z.land (Z.shiftr w 16) 255 = a /\ Z.land (Z.shiftr w 8) 255 = b.
Proof.
  intros Ha Hb v w. unfold w. rewrite three_sextets, Z.lor_0_r. unfold v. change 255 with (Z.ones 8).
  rewrite (byte_land a), (byte_land b) by done. split; zbits.
Qed.

Lemma emit_ok b out : Z.of_nat (length out) < 12288 -> emit true b out = b :: out.
Proof. intros Ho. unfold emit. by rewrite (proj2 (Z.ltb_lt _ _)) by lia. Qed.

(** Groups of three. *)
Lemma triples_ind (P : list Z -> Prop) :
  P [] -> (forall a, P [a]) -> (forall a b, P [a; b]) ->
  (forall a b c l, P l -> P (a :: b :: c :: l)) -> forall l, P l.
Proof.
  intros H0 H1 H2 H3. fix IH 1. intros [|a [|b [|c l]]].
  - exact H0.
  - apply H1.
  - apply H2.
  - apply H3, IH.
Qed.

(** Room for the code of [n] bytes after [out_n] characters. *)
Definition fits (out_n : Z) (l : list Z) : Prop :=
  out_n + 4 * ((Z.of_nat (length l) + 2) / 3) <= 16383.

Ltac sext := rewrite ?b64_char_value, ?b64_char_pad;
  repeat match goal with |- context [Z.land (Z.shiftr ?v ?k) 63 <? 0] =>
    rewrite (proj2 (Z.ltb_ge (Z.land (Z.shiftr v k) 63) 0)) by apply sextet end;
  repeat match goal with |- context [Z.land (Z.shiftr ?v ?k) 63 =? -1] =>
    rewrite (proj2 (Z.eqb_neq (Z.land (Z.shiftr v k) 63) (-1))) by (pose proof (sextet v k); lia) end;
  repeat match goal with |- context [0 <=? Z.land (Z.shiftr ?v ?k) 63] =>
    rewrite (proj2 (Z.leb_le 0 (Z.land (Z.shiftr v k) 63))) by apply sextet end; cbn [orb andb].

Lemma b_loop_roundtrip l : forall out_n out,
  Forall byte_ok l -> fits out_n l -> Z.of_nat (length out + length l) <= 12288 ->
  b_decode_loop out (b_encode_loop out_n l) = Some (rev out ++ l).
Proof.
  unfold fits, byte_ok. induction l as [|a|a b|a b c l IH] using triples_ind; intros out_n out Hl Hf Ho.
  - cbn. by rewrite app_nil_r.
  - apply Forall_cons in Hl as [Ha _]. cbn [length] in Hf, Ho. change ((Z.of_nat 1 + 2) / 3) with 1 in Hf.
    cbn [b_encode_loop]. rewrite (proj2 (Z.leb_le _ _)) by lia. cbv zeta. cbn [b_decode_loop Z.eqb Pos.eqb]. sext.
    cbn [Z.ltb Z.leb Z.compare andb]. rewrite emit_ok by lia. unfold emit. cbn [andb].
    rewrite group_byte by done. done.
  - apply Forall_cons in Hl as [Ha Hl]. apply Forall_cons in Hl as [Hb _].
    cbn [length] in Hf, Ho. change ((Z.of_nat 2 + 2) / 3) with 1 in Hf.
    cbn [b_encode_loop]. rewrite (proj2 (Z.leb_le _ _)) by lia. cbv zeta. cbn [b_decode_loop Z.eqb Pos.eqb]. sext.
    cbn [Z.ltb Z.leb Z.compare andb]. rewrite (emit_ok _ out) by lia.
    rewrite (emit_ok _ (_ :: out)) by (cbn [length]; lia). unfold emit. cbn [andb].
    destruct (group_two a b Ha Hb) as [E1 E2]. cbv zeta in E1, E2. rewrite E1, E2.
    cbn [rev]. by rewrite <- ?app_assoc.
  - apply Forall_cons in Hl as [Ha Hl]. apply Forall_cons in Hl as [Hb Hl]. apply Forall_cons in Hl as [Hc Hl].
    cbn [length] in Hf, Ho.
    replace ((Z.of_nat (S (S (S (length l)))) + 2) / 3) with ((Z.of_nat (length l) + 2) / 3 + 1) in Hf
      by (rewrite <- Z.div_add by lia; f_equal; lia).
    assert (0 <= (Z.of_nat (length l) + 2) / 3) by (apply Z.div_pos; lia).
    cbn [b_encode_loop]. rewrite (proj2 (Z.leb_le _ _)) by lia. cbv zeta. cbn [b_decode_loop]. sext.
    rewrite (emit_ok _ out) by lia. rewrite (emit_ok _ (_ :: out)) by (cbn [length]; lia).
    rewrite (emit_ok _ (_ :: _ :: out)) by (cbn [length]; lia). rewrite sextets.
    destruct (group_bytes a b c Ha Hb Hc) as (E1 & E2 & E3). cbv zeta in E1, E2, E3. rewrite E1, E2, E3.
    rewrite IH; [|done|lia|cbn [length]; lia]. cbn [rev]. by rewrite <- ?app_assoc.
Qed.

Lemma b_encode_shape l : forall out_n, Forall byte_ok l -> fits out_n l ->
  length (b_encode_loop out_n l) = Z.to_nat (4 * ((Z.of_nat (length l) + 2) / 3)) /\
  Forall (fun b => b <> 0) (b_encode_loop out_n l).
Proof.
  unfold fits. induction l as [|a|a b|a b c l IH] using triples_ind; intros out_n Hl Hf.
  - by split.
  - cbn [length] in Hf. change ((Z.of_nat 1 + 2) / 3) with 1 in Hf. cbn [b_encode_loop].
    rewrite (proj2 (Z.leb_le _ _)) by lia. split; [done|]. repeat constructor; try done; apply b64_char_text.
  - cbn [length] in Hf. change ((Z.of_nat 2 + 2) / 3) with 1 in Hf. cbn [b_encode_loop].
    rewrite (proj2 (Z.leb_le _ _)) by lia. split; [done|]. repeat constructor; try done; apply b64_char_text.
  - apply Forall_cons in Hl as [_ Hl]. apply Forall_cons in Hl as [_ Hl]. apply Forall_cons in Hl as [_ Hl].
    cbn [length] in *.
    replace ((Z.of_nat (S (S (S (length l)))) + 2) / 3) with ((Z.of_nat (length l) + 2) / 3 + 1) in *
      by (rewrite <- Z.div_add by lia; f_equal; lia).
    assert (0 <= (Z.of_nat (length l) + 2) / 3) by (apply Z.div_pos; lia).
    cbn [b_encode_loop]. rewrite (proj2 (Z.leb_le _ _)) by lia.
    destruct (IH (out_n + 4) Hl) as [IH1 IH2]; [lia|]. split.
    + cbn [length]. rewrite IH1. lia.
    + repeat (constructor; [apply b64_char_text|]). done.
Qed.

(** C30.  A text of up to 12285 bytes comes back from base64. *)
Theorem base64_roundtrip l :
  text l -> Z.of_nat (length l) <= 12285 ->
  exists e, b_encode (Some l) = Some e /\ b_decode (Some e) = Some l.
Proof.
  intros Ht Hn. unfold b_encode. rewrite text_cstr by done. eexists. split; [done|].
  assert (Hb : Forall byte_ok l) by (eapply Forall_impl; [exact Ht|unfold byte_ok; cbn; lia]).
  assert (Hf : fits 0 l) by (unfold fits; zdm).
  destruct (b_encode_shape l 0 Hb Hf) as [Hlen Hz].
  unfold b_decode. rewrite cstr_text by done. rewrite Hlen, Z2Nat.id by (zdm).
  rewrite Z.mul_comm, Z.mod_mul by lia. cbn [negb Z.eqb].
  rewrite b_loop_roundtrip; [done|done|done|cbn; lia].
Qed.

Lemma base64_roundtrip_witness :
  exists e, b_encode (Some (str "any carnal pleas")) = Some e /\ b_decode (Some e) = Some (str "any carnal pleas").
Proof. apply (base64_roundtrip (str "any carnal pleas")); [repeat constructor|cbn; lia]. Defined.
