(* ===== verification/Url.v ===== *)
(** * URLs, [cando_port/lib/url.c]

    The parser on C strings.  The port is read into an [int], whose overflow is
    written out as two's-complement wrap-around. *)
From S2P Require Import Prelude Bytes Text.

Record url_parts : Type := mkUrl {
  scheme : list Z;
  host : list Z;
  port : Z;
  path : list Z;
}.

(** [strstr(s, "://")]: what is before the first match, and what follows it. *)
Fixpoint strstr_sep (s : list Z) : option (list Z * list Z) :=
  match s with
  | 58 :: 47 :: 47 :: s' => Some ([], s')
  | c :: s' => match strstr_sep s' with Some (a, b) => Some (c :: a, b) | None => None end
  | [] => None
  end.

(** [while ( *s >= '0' && *s <= '9') n = n * 10 + ( *s++ - '0')]. *)
Fixpoint read_port (n : Z) (s : list Z) : Z * list Z :=
  match s with
  | c :: s' => if is_digit c then read_port (s32 (n * 10 + (c - 48))) s' else (n, s)
  | [] => (n, [])
  end.

Definition default_port (sch : list Z) : Z := if bool_decide (sch = str "https") then 443 else 80.

Definition parse (url : option (list Z)) : option url_parts :=
  match url with
  | None => None
  | Some bytes =>
      match strstr_sep (cstr bytes) with
      | None => None
      | Some (sch, s) =>
          let (h, s) := span (fun c => negb (c =? 58) && negb (c =? 47)) s in
          let (n, s) := if peek s =? 58 then read_port 0 (tail s) else (0, s) in
          let n := if n =? 0 then default_port sch else n in
          let p := if peek s =? 47 then s else str "/" in
          Some (mkUrl sch h n p)
      end
  end.

Definition u_scheme (arg : option (list Z)) : option (list Z) := scheme <$> parse arg.
Definition u_host (arg : option (list Z)) : option (list Z) := host <$> parse arg.
Definition u_port (arg : option (list Z)) : option Z := port <$> parse arg.
Definition u_path (arg : option (list Z)) : option (list Z) := path <$> parse arg.

(** ** Printing and parsing *)
(** The text of a URL; port 0 and the empty path are left out. *)
Definition print (u : url_parts) : list Z :=
  scheme u ++ str "://" ++ host u ++
  (if port u =? 0 then [] else 58 :: dec_digits 9 (port u)) ++ path u.

(** What has a text that reads back: a scheme without a colon, a host without
    [:] and [/], a path that is empty or starts with [/], no NUL anywhere. *)
Record printable (u : url_parts) : Prop := {
  pr_scheme : Forall (fun c => c <> 0 /\ c <> 58) (scheme u);
  pr_host : Forall (fun c => c <> 0 /\ c <> 58 /\ c <> 47) (host u);
  pr_port : 0 <= port u < 10 ^ 9;
  pr_path : path u = [] \/ exists r, path u = 47 :: r;
  pr_text : Forall (fun c => c <> 0) (path u);
}.

Lemma strstr_sep_app a b : Forall (fun c => c <> 0 /\ c <> 58) a ->
  strstr_sep (a ++ 58 :: 47 :: 47 :: b) = Some (a, b).
Proof.
  induction 1 as [|c a [_ Hc] _ IH]; [done|]. cbn [app strstr_sep].
  destruct (decide (c = 58)); [done|]. rewrite IH.
  destruct c as [|c|c]; try done. do 6 (destruct c as [c|c|]; try done).
Qed.

Lemma s32_small x : 0 <= x < 2 ^ 31 -> s32 x = x.
Proof. intros Hx. unfold s32. rewrite Z.mod_small; lia. Qed.

Lemma read_port_digits l rest : forall v, Forall (fun c => is_digit c = true) l -> 0 <= v ->
  fold_left (fun v c => v * 10 + (c - 48)) l v < 2 ^ 31 -> is_digit (peek rest) = false ->
  read_port v (l ++ rest) = (fold_left (fun v c => v * 10 + (c - 48)) l v, rest).
Proof.
  induction l as [|c l IH]; intros v Hl Hv Hb Hr; cbn [app read_port fold_left] in *.
  - destruct rest as [|c rest]; [done|]. cbn in *. by rewrite Hr.
  - apply Forall_cons in Hl as [Hc Hl]. rewrite Hc.
    assert (0 <= v * 10 + (c - 48)) by (unfold is_digit in Hc; lia).
    pose proof (dec_fold_mono l (v * 10 + (c - 48)) Hl ltac:(lia)).
    rewrite s32_small by lia. by apply IH.
Qed.

Lemma print_text u : printable u -> cstr (print u) = print u.
Proof.
  intros [Hs Hh Hp Hpa Ht]. apply cstr_text. unfold print. rewrite !Forall_app. split; [|split; [|split; [|split]]].
  - eapply Forall_impl; [exact Hs|]. tauto.
  - repeat constructor; done.
  - eapply Forall_impl; [exact Hh|]. tauto.
  - destruct (port u =? 0); [constructor|]. constructor; [done|].
    destruct (dec_digits_spec 9 (port u)) as (_ & Hd & _); [done|lia|].
    eapply Forall_impl; [exact Hd|]. unfold is_digit. cbn. lia.
  - done.
Qed.

(** The path as it is reported: [/] when there is none. *)
Lemma path_reported p : p = [] \/ (exists r, p = 47 :: r) ->
  (if peek p =? 47 then p else str "/") = (if bool_decide (p = []) then str "/" else p).
Proof. intros [->|[r ->]]; reflexivity. Qed.


