(* ===== verification/Inet.v ===== *)
(** * Address texts, [net/mbedtls_port/inet_pton.c]

    The two parsers as recursion over the C string, and an independent
    definition of dotted quads that the IPv4 parser agrees with. *)
From S2P Require Import Prelude Bytes Text.

Definition AF_INET : Z := 2.
Definition AF_INET6 : Z := 10.

(** ** IPv4 *)
(** The loop: [dst] holds the octets stored so far, so [oct] is its length. *)
Fixpoint ipv4_loop (dst : list Z) (v : Z) (saw : bool) (p : list Z) : option (list Z) :=
  match p with
  | [] => if negb (Z.of_nat (length dst) =? 3) || negb saw then None else Some (dst ++ [u8 v])
  | c :: p' =>
      if is_digit c then
        let v := v * 10 + (c - 48) in
        if 255 <? v then None else ipv4_loop dst v true p'
      else if c =? 46 then
        if negb saw then None
        else if 3 <=? Z.of_nat (length dst) then None
        else ipv4_loop (dst ++ [u8 v]) 0 false p'
      else None
  end.

Definition parse_ipv4 (src : list Z) : option (list Z) := ipv4_loop [] 0 false (cstr src).

(** ** IPv6 *)
Definition hex_val (c : Z) : Z :=
  if is_digit c then c - 48
  else if (97 <=? c) && (c <=? 102) then 10 + c - 97
  else if (65 <=? c) && (c <=? 70) then 10 + c - 65
  else -1.

(** [while (chars < 4 && hex_val( *p) >= 0)]: the value, the characters read, the rest. *)
Fixpoint read_group (left : nat) (v : Z) (chars : Z) (p : list Z) : Z * Z * list Z :=
  match left, p with
  | S k, c :: p' => if 0 <=? hex_val c then read_group k (v * 16 + hex_val c) (chars + 1) p'
                    else (v, chars, p)
  | _, _ => (v, chars, p)
  end.

(** What a round of the main loop does: [Accept] leaves it at the end of the text. *)
Inductive verdict : Type :=
| Accept (parts : list Z) (dbl : Z)
| Reject
| OutOfFuel.

Fixpoint ipv6_loop (fuel : nat) (parts : list Z) (dbl : Z) (p : list Z) : verdict :=
  match p with
  | [] => Accept parts dbl
  | c :: p1 =>
      match fuel with
      | O => OutOfFuel
      | S fuel' =>
          let n_parts := Z.of_nat (length parts) in
          if n_parts =? 8 then Reject
          else if c =? 58 then
            if n_parts =? 0 then
              if negb (peek p1 =? 58) then Reject else ipv6_loop fuel' parts 0 (tail p1)
            else if peek p1 =? 58 then
              if negb (dbl =? -1) then Reject else ipv6_loop fuel' parts n_parts (tail p1)
            else Reject
          else
            let '(v, chars, q) := read_group 4 0 0 p in
            if chars =? 0 then Reject
            else if peek q =? 58 then
              if peek (tail q) =? 0 then Reject else ipv6_loop fuel' (parts ++ [v]) dbl q
            else if negb (peek q =? 0) then Reject
            else ipv6_loop fuel' (parts ++ [v]) dbl q
      end
  end.

Definition part_bytes (v : Z) : list Z := [u8 (Z.shiftr v 8); Z.land v 255].

(** The 16 bytes from the groups; [dbl] says where the zeros go. *)
Definition ipv6_bytes (parts : list Z) (dbl : Z) : option (list Z) :=
  let n := Z.of_nat (length parts) in
  if dbl =? -1 then
    if negb (n =? 8) then None else Some (flat_map part_bytes parts)
  else if 7 <? n then None
  else Some (flat_map part_bytes (take (Z.to_nat dbl) parts) ++
             replicate (Z.to_nat (2 * (8 - n))) 0 ++
             flat_map part_bytes (drop (Z.to_nat dbl) parts)).

(** Each round of the loop takes at least one character. *)
Definition parse_ipv6 (src : list Z) : option (list Z) :=
  match ipv6_loop (length (cstr src)) [] (-1) (cstr src) with
  | Accept parts dbl => ipv6_bytes parts dbl
  | _ => None
  end.

(** [-1] with [errno], or the parser's answer. *)
Definition inet_pton (af : Z) (src : option (list Z)) : Z * option (list Z) :=
  match src with
  | None => (-1, None)
  | Some s =>
      let answer r := match r with Some b => (1, Some b) | None => (0, None) end in
      if af =? AF_INET then answer (parse_ipv4 s)
      else if af =? AF_INET6 then answer (parse_ipv6 s)
      else (-1, None)
  end.

(** ** Dotted quads *)
(** The fields between dots, the first one starting with [f]. *)
Fixpoint fields (f : list Z) (s : list Z) : list (list Z) :=
  match s with
  | [] => [f]
  | c :: s' => if c =? 46 then f :: fields [] s' else fields (f ++ [c]) s'
  end.

(** A decimal number up to 255, leading zeros allowed. *)
Definition octet (f : list Z) : bool :=
  negb (bool_decide (f = [])) && forallb is_digit f && (dec_value f <=? 255).

Definition quad_of (fs : list (list Z)) : option (list Z) :=
  if (Z.of_nat (length fs) =? 4) && forallb octet fs then Some (dec_value <$> fs) else None.

Definition dotted_quad (s : list Z) : option (list Z) := quad_of (fields [] s).

Lemma fields_head s : forall f, exists g fs, fields f s = (f ++ g) :: fs.
Proof.
  induction s as [|c s IH]; intros f; cbn; [exists [], []; by rewrite app_nil_r|].
  destruct (c =? 46); [exists [], (fields [] s); by rewrite app_nil_r|].
  destruct (IH (f ++ [c])) as (g & fs & ->). exists (c :: g), fs. by rewrite <- app_assoc.
Qed.

Lemma fields_cons s f : exists g fs, fields f s = g :: fs.
Proof. destruct (fields_head s f) as (g & fs & ->). eauto. Qed.

(** A field that starts with an overlong number or a strange character is no octet. *)
Lemma octet_prefix f g : octet (f ++ g) = true -> forallb is_digit f = true /\ dec_value f <= 255.
Proof.
  unfold octet. rewrite !andb_true_iff, forallb_app, andb_true_iff. intros [[_ [Hf Hg]] Hv].
  split; [done|]. apply Z.leb_le in Hv. unfold dec_value in *. rewrite fold_left_app in Hv.
  etrans; [|exact Hv]. apply dec_fold_mono; [by apply digits_forallb|]. by apply dec_value_nonneg, digits_forallb.
Qed.

Lemma quad_bad pre f fs : octet f = false -> quad_of (pre ++ f :: fs) = None.
Proof. intros Hf. unfold quad_of. rewrite forallb_app. cbn. rewrite Hf, !andb_false_r. done. Qed.

Lemma u8_octet v : 0 <= v <= 255 -> u8 v = v.
Proof. intros Hv. apply u8_small. lia. Qed.

(** The loop with the fields [pre] behind it and the digits [f] of the current one. *)
Lemma ipv4_loop_fields p : forall pre f,
  forallb octet pre = true -> forallb is_digit f = true -> dec_value f <= 255 ->
  (length pre <= 3)%nat ->
  ipv4_loop (dec_value <$> pre) (dec_value f) (negb (bool_decide (f = []))) p =
  quad_of (pre ++ fields f p).
Proof.
  induction p as [|c p IH]; intros pre f Hpre Hf Hv Hlen; cbn [ipv4_loop fields].
  - rewrite negb_involutive, length_fmap. unfold quad_of. rewrite length_app, forallb_app, Hpre.
    cbn [length forallb]. unfold octet at 1. rewrite Hf, (proj2 (Z.leb_le _ _)) by done.
    rewrite u8_octet by (split; [by apply dec_value_nonneg, digits_forallb|done]).
    rewrite fmap_app. cbn [fmap list_fmap].
    destruct (bool_decide (f = [])); cbn; rewrite ?orb_true_r, ?andb_false_r, ?andb_true_r, ?orb_false_r; [done|].
    destruct (Z.eqb_spec (Z.of_nat (length pre)) 3), (Z.eqb_spec (Z.of_nat (length pre + 1)) 4); cbn; done || lia.
  - destruct (is_digit c) eqn:Hc.
    { assert ((c =? 46) = false) as -> by (unfold is_digit in Hc; lia).
      replace (dec_value f * 10 + (c - 48)) with (dec_value (f ++ [c])) by apply dec_value_snoc.
      destruct (Z.ltb_spec 255 (dec_value (f ++ [c]))) as [Hbig|Hok].
      - destruct (fields_head p (f ++ [c])) as (g & fs & ->). rewrite quad_bad; [done|].
        destruct (octet ((f ++ [c]) ++ g)) eqn:Ho; [|done]. apply octet_prefix in Ho. lia.
      - rewrite <- (IH pre (f ++ [c])); [|done|rewrite forallb_app; cbn; by rewrite Hf, Hc|done|done].
        by rewrite bool_decide_eq_false_2 by (by intros [_ ?]%app_eq_nil). }
    destruct (Z.eqb_spec c 46) as [->|Hdot].
    + destruct (bool_decide_reflect (f = [])) as [->|Hne]; cbn [negb]; [by rewrite quad_bad|].
      rewrite length_fmap. assert (Ho : octet f = true).
      { unfold octet. rewrite Hf, bool_decide_eq_false_2, (proj2 (Z.leb_le _ _)) by done. done. }
      destruct (Z.leb_spec 3 (Z.of_nat (length pre))).
      * destruct (fields_cons p []) as (g & fs & ->). unfold quad_of. rewrite length_app.
        cbn [length]. rewrite (proj2 (Z.eqb_neq _ _)) by lia. done.
      * rewrite u8_octet by (split; [by apply dec_value_nonneg, digits_forallb|done]).
        change ([dec_value f]) with (dec_value <$> [f]). rewrite <- fmap_app.
        etransitivity; [apply (IH (pre ++ [f]) []); [|done|done|]|by rewrite <- app_assoc].
        -- rewrite forallb_app. cbn. by rewrite Hpre, Ho.
        -- rewrite length_app. cbn. lia.
    + destruct (fields_head p (f ++ [c])) as (g & fs & ->). rewrite quad_bad; [done|].
      destruct (octet ((f ++ [c]) ++ g)) eqn:Ho; [|done]. apply octet_prefix in Ho as [Hd _].
      rewrite forallb_app in Hd. cbn in Hd. rewrite Hc, andb_false_r in Hd. done.
Qed.

(** [inet_pton] on [AF_INET] accepts exactly the dotted quads, four decimal
    numbers up to 255 between dots, and returns their values. *)
Theorem ipv4_is_dotted_quad s :
  inet_pton AF_INET (Some s) =
  match dotted_quad (cstr s) with Some b => (1, Some b) | None => (0, None) end.
Proof.
  cbn [inet_pton AF_INET Z.eqb Pos.eqb]. unfold parse_ipv4, dotted_quad.
  assert (E : ipv4_loop [] 0 false (cstr s) = quad_of (fields [] (cstr s))).
  { apply (ipv4_loop_fields (cstr s) [] []); [done|done|done|cbn; lia]. }
  by rewrite E.
Qed.

(** ** The IPv6 loop *)
Lemma read_group_rest left : forall v n p,
  let '(_, m, q) := read_group left v n p in
  n <= m /\ (m = n -> q = p) /\ (length q + Z.to_nat (m - n) = length p)%nat.
Proof.
  induction left as [|k IH]; intros v n p; cbn [read_group]; [repeat split; lia|].
  destruct p as [|c p]; [repeat split; lia|].
  destruct (0 <=? hex_val c); [|repeat split; lia]. specialize (IH (v * 16 + hex_val c) (n + 1) p).
  destruct (read_group k _ _ p) as [[v' m] q]. destruct IH as (? & _ & ?). cbn [length].
  split; [lia|]. split; [lia|]. lia.
Qed.

(** The fuel is never used up: every round takes a character. *)
Lemma ipv6_loop_fuel fuel : forall parts dbl p,
  (length p <= fuel)%nat -> ipv6_loop fuel parts dbl p <> OutOfFuel.
Proof.
  induction fuel as [|f IH]; intros parts dbl p Hp; destruct p as [|c p]; try done; [cbn in Hp; lia|].
  cbn [ipv6_loop]. cbv zeta.
  assert (Htl : (length (tail p) <= f)%nat) by (destruct p; cbn in *; lia).
  pose proof (read_group_rest 4 0 0 (c :: p)) as Hr.
  destruct (read_group 4 0 0 (c :: p)) as [[v n] q]. destruct Hr as (Hn & _ & Hlen).
  destruct (_ =? 8); [done|]. destruct (c =? 58).
  - destruct (_ =? 0); [destruct (negb _); [done|by apply IH]|].
    destruct (_ =? 58); [|done]. destruct (negb _); [done|by apply IH].
  - destruct (Z.eqb_spec n 0) as [|Hne]; [done|].
    assert (Hq : (length q <= f)%nat) by (cbn [length] in *; lia).
    destruct (_ =? 58); [destruct (_ =? 0); [done|by apply IH]|].
    destruct (negb _); [done|by apply IH].
Qed.

(** Up to four hex digits are read as one group. *)
Lemma read_group_app g rest : forall left v n, (length g <= left)%nat ->
  Forall (fun c => 0 <= hex_val c) g -> hex_val (peek rest) < 0 ->
  exists w, read_group left v n (g ++ rest) = (w, n + Z.of_nat (length g), rest).
Proof.
  induction g as [|c g IH]; intros left v n Hl Hg Hr; cbn [app length].
  - exists v. rewrite Z.add_0_r. destruct left; [done|]. destruct rest as [|c rest]; [done|]. cbn [read_group].
    cbn in Hr. by rewrite (proj2 (Z.leb_gt _ _)) by lia.
  - apply Forall_cons in Hg as [Hc Hg]. destruct left as [|left]; [cbn in Hl; lia|]. cbn [read_group].
    rewrite (proj2 (Z.leb_le _ _)) by done.
    destruct (IH left (v * 16 + hex_val c) (n + 1)) as [w ->]; [cbn in Hl; lia|done|done|].
    exists w. do 2 f_equal. lia.
Qed.

Lemma hex_val_colon : hex_val 58 = -1.
Proof. reflexivity. Qed.

(** [inet_pton] on [AF_INET6] rejects every address whose first group is
    followed by a single colon, as in eight groups between colons. *)
Theorem ipv6_single_colon_rejected g c rest :
  (1 <= length g <= 4)%nat -> Forall (fun x => 0 <= hex_val x) g -> c <> 58 ->
  inet_pton AF_INET6 (Some (g ++ 58 :: c :: rest)) = (0, None).
Proof.
  intros Hl Hg Hc. cbn [inet_pton AF_INET AF_INET6 Z.eqb Pos.eqb]. unfold parse_ipv6.
  assert (Hz : Forall (fun x => x <> 0 /\ x <> 58) g).
  { eapply Forall_impl; [exact Hg|]. intros x Hx. split; intros ->; cbn in Hx; lia. }
  assert (Hcs : exists r, cstr (g ++ 58 :: c :: rest) = g ++ 58 :: r /\ peek r <> 58).
  { exists (cstr (c :: rest)). split.
    - clear -Hz. induction Hz as [|x g [Hx _] _ IH]; [done|]. cbn [app cstr].
      rewrite (proj2 (Z.eqb_neq x 0)) by done. by rewrite IH.
    - cbn [cstr]. destruct (c =? 0); [done|]. done. }
  destruct Hcs as (r & -> & Hr).
  assert (Hlen : exists f, length (g ++ 58 :: r) = S (S f)).
  { destruct g as [|x g]; [cbn in Hl; lia|]. rewrite length_app. cbn. exists (length g + length r)%nat. lia. }
  destruct Hlen as [f ->]. destruct g as [|x g]; [cbn in Hl; lia|].
  apply Forall_cons in Hz as [[_ Hx] _]. cbn [app ipv6_loop length]. change (Z.of_nat 0) with 0.
  cbn [Z.eqb]. rewrite (proj2 (Z.eqb_neq x 58)) by done.
  destruct (read_group_app (x :: g) (58 :: r) 4 0 0) as [w E]; [lia|done|cbn; lia|].
  change ((x :: g) ++ 58 :: r) with (x :: g ++ 58 :: r) in E. rewrite E. cbn [peek tail Z.eqb Pos.eqb].
  rewrite (proj2 (Z.eqb_neq (0 + Z.of_nat (length (x :: g))) 0)) by (cbn [length]; lia).
  destruct (peek r =? 0); [done|]. cbn [ipv6_loop app length]. change (Z.of_nat 1) with 1. cbn [Z.eqb Pos.eqb].
  by rewrite (proj2 (Z.eqb_neq (peek r) 58)) by done.
Qed.

Lemma ipv6_single_colon_rejected_witness :
  inet_pton AF_INET6 (Some (str "2001:db8:0:0:0:0:0:1")) = (0, None) /\
  inet_pton AF_INET6 (Some (str "::1")) = (1, Some (replicate 15 0 ++ [1])).
Proof.
  split; [|reflexivity].
  apply (ipv6_single_colon_rejected (str "2001") 100 (str "b8:0:0:0:0:0:1")); [cbn; lia| |done].
  repeat (constructor; [discriminate|]). constructor.
Defined.
