(* ===== verification/Tftp.v ===== *)
(** * The TFTP client, [net/tftp.c]

    The receive callback is a transition on the transfer state, the download
    loop a run over what the network and the clock give it.  UDP, packet
    buffers and the clock are lwIP and the hardware: a datagram is its bytes
    and source port, and each allocation of a packet to send may fail. *)
From S2P Require Import Prelude Bytes Text.

Definition TFTP_PORT : Z := 69.
Definition TFTP_BLOCK : Z := 512.
Definition TFTP_OP_RRQ : Z := 1.
Definition TFTP_OP_DATA : Z := 3.
Definition TFTP_OP_ACK : Z := 4.
Definition TFTP_OP_ERROR : Z := 5.
Definition TFTP_OVERALL_MS : Z := 10000.
Definition TFTP_RETX_MS : Z := 1000.
Definition TFTP_MAX_RETX : Z := 5.

(** [g_x]; [len] is the length of [out], the bytes stored. *)
Record xfer : Type := mkX {
  out : list Z;
  cap : Z;
  block : Z;
  srv_port : Z;
  have_tid : bool;
  progress : bool;
  done : bool;
  error : bool;
}.

(** [memset(&g_x, 0, sizeof g_x)] and the capacity. *)
Definition fresh (out_cap : Z) : xfer := mkX [] out_cap 0 0 false false false false.

(** A datagram to send: destination port and bytes. *)
Record sent : Type := mkSent { to_port : Z; payload : list Z }.

(** [pbuf_ok] is whether [pbuf_alloc] returns a buffer. *)
Definition send_ack (pbuf_ok : bool) (port block : Z) : list sent :=
  if pbuf_ok then [mkSent port [0; TFTP_OP_ACK; u8 (Z.shiftr block 8); u8 block]] else [].

Definition send_rrq (pbuf_ok : bool) (fn : list Z) : list sent :=
  let fn := cstr fn in
  let fl := u16 (Z.of_nat (length fn)) in
  let fl := if 200 <? fl then 200 else fl in
  let req := [0; TFTP_OP_RRQ] ++ take (Z.to_nat fl) fn ++ [0] ++ str "octet" ++ [0] in
  if pbuf_ok then [mkSent TFTP_PORT req] else [].

(** A datagram that arrives, and whether its answer finds a buffer. *)
Record arrival : Type := mkArr { pkt : list Z; port : Z; ack_ok : bool }.

Definition be16 (a b : Z) : Z := Z.lor (Z.shiftl a 8) b.

Definition rx_cb (a : arrival) (x : xfer) : xfer * list sent :=
  match pkt a with
  | h0 :: h1 :: h2 :: h3 :: data =>
      let op := be16 h0 h1 in
      let blk := be16 h2 h3 in
      if op =? TFTP_OP_ERROR then
        (mkX (out x) (cap x) (block x) (srv_port x) (have_tid x) (progress x) true true, [])
      else if negb (op =? TFTP_OP_DATA) then (x, [])
      else if have_tid x && negb (port a =? srv_port x) then (x, [])
      else
        let sp := if have_tid x then srv_port x else port a in
        let expect := u16 (block x + 1) in
        let dlen := u16 (Z.of_nat (length (pkt a)) - 4) in
        if blk =? expect then
          let len := Z.of_nat (length (out x)) in
          let space := if len <? cap x then cap x - len else 0 in
          let n := if dlen <=? space then dlen else u16 space in
          let overflow := negb (dlen =? 0) && (n <? dlen) in
          let o := if dlen =? 0 then out x else out x ++ take (Z.to_nat n) data in
          let e := error x || overflow in
          (mkX o (cap x) expect sp true true (done x || overflow || (negb e && (dlen <? TFTP_BLOCK))) e,
           send_ack (ack_ok a) (port a) expect)
        else
          (mkX (out x) (cap x) (block x) sp true (progress x) (done x) (error x),
           send_ack (ack_ok a) (port a) (block x))
  | _ => (x, [])
  end.

(** One round of the download loop: the clock at the loop test, the datagrams
    [hal_net_pump] delivers, the clock at the two tests after it, and whether
    a retransmission finds a buffer. *)
Record round : Type := mkRound {
  t_loop : Z; arrivals : list arrival; t_test : Z; t_set : Z; retx_ok : bool;
}.

Definition set_progress (b : bool) (x : xfer) : xfer :=
  mkX (out x) (cap x) (block x) (srv_port x) (have_tid x) b (done x) (error x).

Definition pump (l : list arrival) (x : xfer) : xfer := fold_left (fun x a => (rx_cb a x).1) l x.

(** The loop; [None] when the rounds run out while it is still going. *)
Fixpoint get_loop (fn : list Z) (hz deadline : Z) (retx_at retries : Z) (rounds : list round)
    (x : xfer) (log : list sent) : option (xfer * list sent) :=
  match rounds with
  | [] => None
  | r :: rest =>
      if done x || (deadline <=? t_loop r) then Some (x, log)
      else
        let x := pump (arrivals r) x in
        if retx_at <=? t_test r then
          let retx_at := u64 (t_set r + u64 (hz * TFTP_RETX_MS) / 1000) in
          if progress x then get_loop fn hz deadline retx_at retries rest (set_progress false x) log
          else if retries <? TFTP_MAX_RETX then
            let again := if block x =? 0 then send_rrq (retx_ok r) fn
                         else send_ack (retx_ok r) (srv_port x) (block x) in
            get_loop fn hz deadline retx_at (retries + 1) rest x (log ++ again)
          else Some (x, log)
        else get_loop fn hz deadline retx_at retries rest x log
  end.

(** [t0], [t1] are the clock readings before the loop; [pcb] is whether [udp_new]
    succeeds.  The answer is the status and, with status 0, the bytes stored. *)
Definition canboot_tftp_get (pcb : bool) (fn : list Z) (out_cap hz t0 t1 : Z) (rrq_ok : bool)
    (rounds : list round) : option (Z * list Z) :=
  if out_cap =? 0 then Some (-1, [])
  else if negb pcb then Some (-1, [])
  else
    let deadline := u64 (t0 + u64 (hz * TFTP_OVERALL_MS) / 1000) in
    let retx_at := u64 (t1 + u64 (hz * TFTP_RETX_MS) / 1000) in
    match get_loop fn hz deadline retx_at 0 rounds (fresh out_cap) (send_rrq rrq_ok fn) with
    | None => None
    | Some (x, _) => Some (if done x && negb (error x) then (0, out x) else (-1, []))
    end.

(** ** The file the server sends *)
Section Transfer.
Context (F : list Z) (P : Z).

(** Block [k], from 1: 512 bytes, the last one shorter, possibly empty. *)
Definition block_of (k : Z) : list Z := slice (Z.to_nat (512 * (k - 1))) 512 F.
Definition nblocks : Z := Z.of_nat (length F) / 512 + 1.

Definition is_data (a : arrival) : bool :=
  match pkt a with h0 :: h1 :: _ :: _ :: _ => be16 h0 h1 =? TFTP_OP_DATA | _ => false end.

Definition is_error (a : arrival) : bool :=
  match pkt a with h0 :: h1 :: _ :: _ :: _ => be16 h0 h1 =? TFTP_OP_ERROR | _ => false end.

(** The server's datagram with the block after the first [k], and the number of
    blocks in order once [a] has arrived. *)
Definition is_next (k : Z) (a : arrival) : bool :=
  match pkt a with
  | h0 :: h1 :: h2 :: h3 :: _ => (be16 h0 h1 =? TFTP_OP_DATA) && (port a =? P) && (be16 h2 h3 =? k + 1)
  | _ => false
  end.
Definition advance (k : Z) (a : arrival) : Z := if is_next k a then k + 1 else k.

(** The rounds that bring no next block. *)
Fixpoint quiet_rounds (k : Z) (rounds : list round) : Z :=
  match rounds with
  | [] => 0
  | r :: rest =>
      let k' := fold_left advance (arrivals r) k in
      (if k' =? k then 1 else 0) + quiet_rounds k' rest
  end.

(** The datagram is block [k] of the file. *)
Definition carries (a : arrival) (k : Z) : Prop :=
  exists h0 h1, pkt a = h0 :: h1 :: k / 256 :: k mod 256 :: block_of k.

(** What comes from the server's port is the file. *)
Definition honest (a : arrival) : Prop :=
  is_data a = true -> port a = P -> exists k, 1 <= k <= nblocks /\ carries a k.

(** The first data datagram is the server's. *)
Definition server_first (l : list arrival) : Prop :=
  forall a l1 l2, l = l1 ++ a :: l2 -> is_data a = true -> Forall (fun b => is_data b = false) l1 ->
  port a = P.

(** What holds of the transfer state. *)
Record xfer_ok (x : xfer) : Prop := {
  xo_tid : have_tid x = true -> srv_port x = P;
  xo_block : 0 <= block x <= nblocks;
  xo_out : out x = take (Z.to_nat (Z.min (512 * block x) (cap x))) F;
  xo_done : done x = true -> error x = true \/ block x = nblocks;
  xo_room : error x = false -> Z.min (512 * block x) (Z.of_nat (length F)) <= cap x;
}.

Hypothesis Hsmall : nblocks < 65536.

Lemma nblocks_bound : 512 * (nblocks - 1) <= Z.of_nat (length F) < 512 * nblocks.
Proof using Type. unfold nblocks. pose proof (Z.div_mod (Z.of_nat (length F)) 512). pose proof (Z.mod_pos_bound (Z.of_nat (length F)) 512). lia. Qed.

Lemma block_length k : 1 <= k <= nblocks ->
  Z.of_nat (length (block_of k)) = Z.min 512 (Z.of_nat (length F) - 512 * (k - 1)).
Proof using Type.
  intros Hk. pose proof nblocks_bound. unfold block_of, slice. rewrite length_take, length_drop. lia.
Qed.

Lemma be16_bytes k : 0 <= k < 65536 -> be16 (k / 256) (k mod 256) = k.
Proof using Type.
  intros Hk. unfold be16. change 256 with (2 ^ 8).
  rewrite <- Z.land_ones, <- Z.shiftr_div_pow2 by lia. zbits.
Qed.

(** What is stored when block [b + 1] arrives. *)
Lemma store_block b c dlen n :
  0 <= b -> b + 1 <= nblocks -> dlen = Z.of_nat (length (block_of (b + 1))) ->
  let o := take (Z.to_nat (Z.min (512 * b) c)) F in
  let len := Z.of_nat (length o) in
  let space := if len <? c then c - len else 0 in
  0 <= c -> n = (if dlen <=? space then dlen else space) ->
  o ++ take (Z.to_nat n) (block_of (b + 1)) = take (Z.to_nat (Z.min (512 * (b + 1)) c)) F /\
  (512 * b <= c -> (n <? dlen) = negb (Z.min (512 * (b + 1)) (Z.of_nat (length F)) <=? c)) /\
  dlen <= 512 /\ (0 <= n <= dlen).
Proof using Type.
  intros Hb Hk Hd o len space Hc Hn. pose proof nblocks_bound as HB.
  rewrite block_length in Hd by lia. replace (b + 1 - 1) with b in Hd by lia.
  assert (Hlen : len = Z.min (512 * b) c) by (unfold len, o; rewrite length_take; lia).
  assert (Hdrop : 0 <= n <= 512 -> take (Z.to_nat n) (block_of (b + 1)) = take (Z.to_nat n) (drop (Z.to_nat (512 * b)) F)).
  { intros ?. unfold block_of, slice. replace (b + 1 - 1) with b by lia. rewrite take_take. f_equal. lia. }
  assert (Hsp : space = Z.max 0 (c - 512 * b)) by (unfold space; rewrite Hlen; destruct (Z.ltb_spec (Z.min (512 * b) c) c); lia).
  assert (Hn' : n = Z.min dlen space) by (rewrite Hn; destruct (Z.leb_spec dlen space); lia). clear Hn.
  split; [|split; [|lia]].
  - destruct (Z.le_gt_cases c (512 * b)).
    + assert (n = 0) as -> by lia. cbn. rewrite app_nil_r. unfold o. f_equal. lia.
    + rewrite Hdrop by lia. unfold o. rewrite Z.min_l by lia. rewrite take_take_drop.
      destruct (Z.le_gt_cases (Z.of_nat (length F)) (512 * b + n)).
      * rewrite !take_ge by lia. done.
      * f_equal. lia.
  - intros Hbc. destruct (Z.ltb_spec n dlen), (Z.leb_spec (Z.min (512 * (b + 1)) (Z.of_nat (length F))) c);
      cbn; try reflexivity; exfalso; lia.
Qed.

(** What the receive callback does to the transfer: give up on an error
    datagram, leave it but for the port, or store the next block. *)
Definition keeps (a : arrival) (x x' : xfer) : Prop :=
  exists sp t, x' = mkX (out x) (cap x) (block x) sp t (progress x) (done x) (error x) /\
    (t = true -> sp = P) /\ (t = false -> have_tid x = false /\ is_data a = false).
Definition stores (x x' : xfer) : Prop :=
  let b := block x + 1 in
  exists ov, (512 * block x <= cap x -> ov = negb (Z.min (512 * b) (Z.of_nat (length F)) <=? cap x)) /\
    x' = mkX (take (Z.to_nat (Z.min (512 * b) (cap x))) F) (cap x) b P true true
           (done x || ov || (negb (error x || ov) && (Z.of_nat (length (block_of b)) <? TFTP_BLOCK)))
           (error x || ov).

Lemma rx_cb_next a x h0 h1 :
  xfer_ok x -> 0 <= cap x -> block x + 1 <= nblocks ->
  pkt a = h0 :: h1 :: (block x + 1) / 256 :: (block x + 1) mod 256 :: block_of (block x + 1) ->
  be16 h0 h1 = TFTP_OP_DATA -> port a = P -> (have_tid x = true -> srv_port x = P) ->
  stores x (rx_cb a x).1.
Proof using Hsmall.
  intros [_ Hblk Hout _ _] Hc Hk Hpkt E' Hpa Htid. unfold rx_cb. rewrite Hpkt, E'.
  change (TFTP_OP_DATA =? TFTP_OP_ERROR) with false. rewrite Z.eqb_refl. cbn [negb].
  assert (have_tid x && negb (port a =? srv_port x) = false) as ->.
  { destruct (have_tid x) eqn:Ht; [|done]. rewrite Hpa, Htid, Z.eqb_refl by done. done. }
  assert ((if have_tid x then srv_port x else port a) = P) as -> by (destruct (have_tid x); auto).
  cbv zeta. rewrite be16_bytes, (u16_small (block x + 1)), Z.eqb_refl by lia.
  pose proof (block_length (block x + 1) ltac:(lia)) as HL. pose proof nblocks_bound.
  cbn [fst]. set (dlen := u16 _).
  assert (Hdl : dlen = Z.of_nat (length (block_of (block x + 1)))).
  { unfold dlen. cbn [length]. rewrite u16_small; lia. }
  set (space := if Z.of_nat (length (out x)) <? cap x then cap x - Z.of_nat (length (out x)) else 0).
  set (n := if dlen <=? space then dlen else u16 space).
  destruct (store_block (block x) (cap x) dlen n) as (Hst & Hov & Hd512 & Hn); [lia|lia|done|done| |].
  { rewrite <- Hout. fold space. unfold n. destruct (Z.leb_spec dlen space); [done|]. apply u16_small.
    unfold space in *. destruct (_ <? _) eqn:El; lia. }
  rewrite <- Hout in Hst. exists (n <? dlen). split; [done|]. rewrite <- Hdl, <- Hst.
  destruct (Z.eqb_spec dlen 0) as [E|E]; cbn [negb andb]; [|done].
  assert (n = 0) as -> by lia. rewrite E, app_nil_r. done.
Qed.

Lemma rx_cb_cases a x :
  xfer_ok x -> honest a -> (have_tid x = false -> is_data a = true -> port a = P) -> 0 <= cap x ->
  let x' := (rx_cb a x).1 in
  if is_error a
  then x' = mkX (out x) (cap x) (block x) (srv_port x) (have_tid x) (progress x) true true /\ is_data a = false
  else if is_next (block x) a then block x + 1 <= nblocks /\ stores x x' else keeps a x x'.
Proof using Hsmall.
  intros Hx Hh Hfirst Hc x'. pose proof Hx as [Htid Hblk _ _ _].
  assert (Hstay : is_data a = false \/ have_tid x = true -> keeps a x x).
  { intros Hd. exists (srv_port x), (have_tid x). split; [by destruct x|]. split; [done|].
    intros Hf. destruct Hd; [done|congruence]. }
  subst x'. unfold is_error, is_next, is_data in *.
  destruct (pkt a) as [|h0 [|h1 [|h2 [|h3 data]]]] eqn:Hpkt;
    try (unfold rx_cb; rewrite Hpkt; apply Hstay; by left).
  destruct (Z.eqb_spec (be16 h0 h1) TFTP_OP_ERROR) as [E|E].
  { unfold rx_cb. rewrite Hpkt, E. done. }
  destruct (Z.eqb_spec (be16 h0 h1) TFTP_OP_DATA) as [E'|E']; cbn [negb andb].
  2: { unfold rx_cb. rewrite Hpkt, (proj2 (Z.eqb_neq _ _) E), (proj2 (Z.eqb_neq _ _) E'). apply Hstay. by left. }
  destruct (Z.eqb_spec (port a) P) as [Hpa|Hpa]; cbn [andb].
  2: { destruct (have_tid x) eqn:Ht; [|by exfalso; auto]. unfold rx_cb.
       rewrite Hpkt, (proj2 (Z.eqb_neq _ _) E), (proj2 (Z.eqb_eq _ _) E'), Ht, Htid, (proj2 (Z.eqb_neq _ _) Hpa) by done.
       apply Hstay. by right. }
  assert (His : is_data a = true) by (unfold is_data; rewrite Hpkt, E'; done).
  destruct (Hh His Hpa) as (k & Hk & h0' & h1' & Hcar). rewrite Hpkt in Hcar.
  injection Hcar as <- <- -> -> ->. rewrite be16_bytes by lia.
  destruct (Z.eqb_spec k (block x + 1)) as [->|Ek].
  { split; [lia|]. apply (rx_cb_next a x h0 h1); auto; lia. }
  unfold rx_cb. rewrite Hpkt, (proj2 (Z.eqb_neq _ _) E), (proj2 (Z.eqb_eq _ _) E'). cbn [negb].
  assert (have_tid x && negb (port a =? srv_port x) = false) as ->.
  { destruct (have_tid x) eqn:Ht; [|done]. rewrite Hpa, Htid, Z.eqb_refl by done. done. }
  cbv zeta. rewrite be16_bytes by lia.
  assert ((k =? u16 (block x + 1)) = false) as ->.
  { apply Z.eqb_neq. destruct (Z.eq_dec (block x + 1) 65536) as [->|]; [cbv; lia|].
    rewrite u16_small; lia. }
  eexists _, true. split; [reflexivity|]. split; [|done]. intros _. destruct (have_tid x); auto.
Qed.

(** The receive callback keeps what is known of the transfer. *)
Lemma rx_cb_ok a x :
  xfer_ok x -> honest a -> (have_tid x = false -> is_data a = true -> port a = P) -> 0 <= cap x ->
  xfer_ok (rx_cb a x).1 /\ cap (rx_cb a x).1 = cap x /\
  (have_tid (rx_cb a x).1 = false -> have_tid x = false /\ is_data a = false).
Proof using Hsmall.
  intros Hx Hh Hfirst Hc. pose proof (rx_cb_cases a x Hx Hh Hfirst Hc) as Hcase. cbv zeta in Hcase.
  destruct Hx as [Htid Hblk Hout Hdone Hroom]. destruct (is_error a).
  { destruct Hcase as [-> Hd]. split; [|by split]. split; cbn; auto; done. }
  destruct (is_next (block x) a).
  2: { destruct Hcase as (sp & t & -> & Ht & Hf). split; [|by split]. split; cbn; auto. }
  destruct Hcase as (Hk & ov & Hov & ->). split; [|by split].
  pose proof nblocks_bound. pose proof (block_length (block x + 1) ltac:(lia)).
  split; cbn; auto; [lia| |].
  - rewrite !orb_true_iff, andb_true_iff, negb_true_iff, orb_false_iff. unfold TFTP_BLOCK.
    intros [[Hd|Hd]|[[He _] Hlt%Z.ltb_lt]]; [|left; by right|right; lia].
    destruct (Hdone Hd) as [He|Hb]; [left; by left|lia].
  - rewrite orb_false_iff. intros [He ->]. specialize (Hroom He).
    specialize (Hov ltac:(lia)). symmetry in Hov. apply negb_false_iff, Z.leb_le in Hov. lia.
Qed.

(** A transfer on its way: no error, and done exactly when all blocks are in. *)
Definition on_course (x : xfer) : Prop := error x = false /\ done x = (block x =? nblocks).

Lemma rx_cb_live a x :
  xfer_ok x -> honest a -> (have_tid x = false -> is_data a = true -> port a = P) ->
  Z.of_nat (length F) <= cap x -> is_error a = false -> on_course x ->
  let x' := (rx_cb a x).1 in
  on_course x' /\ block x' = advance (block x) a /\ progress x' = (progress x || is_next (block x) a)%bool.
Proof using Hsmall.
  intros Hx Hh Hfirst Hc Hne [He Hd]. pose proof (rx_cb_cases a x Hx Hh Hfirst ltac:(lia)) as Hcase. cbv zeta in *.
  rewrite Hne in Hcase. unfold advance. destruct (is_next (block x) a); rewrite ?orb_true_r, ?orb_false_r.
  2: { by destruct Hcase as (sp & t & -> & Ht & Hf). }
  destruct Hcase as (Hk & ov & Hov & ->). pose proof nblocks_bound.
  pose proof (xo_block _ Hx). pose proof (block_length (block x + 1) ltac:(lia)) as HL.
  rewrite (proj2 (Z.leb_le _ _)) in Hov by lia. rewrite Hov by lia. split; [|done].
  split; cbn [error done block negb]; rewrite He, ?Hd; [done|].
  rewrite (proj2 (Z.eqb_neq (block x) _)) by lia. cbn [orb negb andb]. unfold TFTP_BLOCK.
  destruct (Z.ltb_spec (Z.of_nat (length (block_of (block x + 1)))) 512), (Z.eqb_spec (block x + 1) nblocks); try done; lia.
Qed.

Lemma server_first_tail a l : server_first (a :: l) -> is_data a = false -> server_first l.
Proof using Type.
  intros Hs Ha b l1 l2 -> Hb Hl. apply (Hs b (a :: l1) l2); [done|done|by constructor].
Qed.

Lemma pump_ok rest l : forall x,
  xfer_ok x -> Forall honest l -> have_tid x = true \/ server_first (l ++ rest) -> 0 <= cap x ->
  xfer_ok (pump l x) /\ cap (pump l x) = cap x /\ (have_tid (pump l x) = true \/ server_first rest).
Proof using Hsmall.
  induction l as [|a l IH]; intros x Hx Hl Hf Hc; [done|]. apply Forall_cons in Hl as [Ha Hl].
  destruct (rx_cb_ok a x Hx Ha) as (Hx' & Hc' & Ht'); [|done|].
  { intros Ht Hd. destruct Hf as [|Hf]; [congruence|]. by apply (Hf a [] (l ++ rest)). }
  change (pump (a :: l) x) with (pump l (rx_cb a x).1). rewrite <- Hc'. apply IH; [done|done| |lia].
  destruct (have_tid (rx_cb a x).1) eqn:Et; [by left|right]. destruct (Ht' eq_refl) as [Ht Hd].
  destruct Hf as [|Hf]; [congruence|]. by eapply server_first_tail.
Qed.

Lemma pump_live rest l : forall x,
  xfer_ok x -> Forall honest l -> have_tid x = true \/ server_first (l ++ rest) ->
  Z.of_nat (length F) <= cap x -> Forall (fun a => is_error a = false) l -> on_course x ->
  let x' := pump l x in let k := fold_left advance l (block x) in
  on_course x' /\ block x' = k /\ progress x' = (progress x || negb (k =? block x))%bool /\ block x <= k.
Proof using Hsmall.
  induction l as [|a l IH]; intros x Hx Hl Hf Hc Hn Ho.
  { cbn. rewrite Z.eqb_refl, orb_false_r. repeat split; try apply Ho; lia. }
  apply Forall_cons in Hl as [Ha Hl]. apply Forall_cons in Hn as [Hna Hn].
  assert (Hfirst : have_tid x = false -> is_data a = true -> port a = P).
  { intros Ht Hd. destruct Hf as [|Hf]; [congruence|]. by apply (Hf a [] (l ++ rest)). }
  destruct (rx_cb_ok a x Hx Ha Hfirst ltac:(lia)) as (Hx' & Hc' & Ht').
  destruct (rx_cb_live a x Hx Ha Hfirst Hc Hna Ho) as (Ho' & Hb' & Hp').
  change (pump (a :: l) x) with (pump l (rx_cb a x).1). cbn [fold_left]. cbv zeta. rewrite <- Hb'.
  destruct (IH _ Hx' Hl) as (H1 & H2 & H3 & H4); [|lia|done|done|].
  { destruct (have_tid (rx_cb a x).1) eqn:Et; [by left|right]. destruct (Ht' eq_refl) as [Ht Hd].
    destruct Hf as [|Hf]; [congruence|]. by eapply server_first_tail. }
  split; [done|]. split; [done|]. rewrite H3, Hp'. unfold advance in Hb'.
  destruct (is_next (block x) a); [|by rewrite Hb', orb_false_r in *].
  rewrite (proj2 (Z.eqb_neq (fold_left _ _ _) (block x))) by lia. split; [by rewrite !orb_true_r|lia].
Qed.

Lemma set_progress_ok b x : xfer_ok x -> xfer_ok (set_progress b x).
Proof using Type. by intros []. Qed.

Lemma fresh_ok c : 0 <= c -> xfer_ok (fresh c).
Proof using Type.
  intros Hc. pose proof nblocks_bound. split; cbn [fresh out cap block srv_port have_tid done error]; try done.
  - lia.
  - rewrite Z.min_l by lia. done.
  - lia.
Qed.

Lemma get_loop_ok fn hz deadline rounds : forall retx retries x log x' log',
  xfer_ok x -> 0 <= cap x -> Forall (fun r => Forall honest (arrivals r)) rounds ->
  have_tid x = true \/ server_first (flat_map arrivals rounds) ->
  get_loop fn hz deadline retx retries rounds x log = Some (x', log') ->
  xfer_ok x' /\ cap x' = cap x.
Proof using Hsmall.
  induction rounds as [|r rs IH]; intros retx retries x log x' log' Hx Hc Hh Hf Hg; [done|].
  cbn [get_loop] in Hg. apply Forall_cons in Hh as [Hr Hh].
  destruct (done x || _)%bool; [injection Hg as <- <-; done|].
  destruct (pump_ok (flat_map arrivals rs) (arrivals r) x Hx Hr Hf Hc) as (H1 & H2 & H3).
  cbv zeta in Hg. rewrite <- H2 in Hc |- *. destruct (retx <=? t_test r); [|by eapply IH].
  destruct (progress (pump (arrivals r) x)).
  - destruct (IH _ _ _ _ _ _ (set_progress_ok false _ H1) Hc Hh H3 Hg) as [? ?]. done.
  - destruct (retries <? TFTP_MAX_RETX); [by eapply IH|]. by injection Hg as <- <-.
Qed.
Lemma quiet_rounds_pos rs : forall k, 0 <= quiet_rounds k rs.
Proof using Type.
  induction rs as [|r rs IH]; intros k; cbn [quiet_rounds]; [lia|].
  specialize (IH (fold_left advance (arrivals r) k)). cbv zeta. destruct (_ =? k); lia.
Qed.

(** The loop ends with the transfer done when the blocks come in order before
    the deadline and at most [TFTP_MAX_RETX] rounds are quiet. *)
Lemma get_loop_live fn hz deadline last rs : forall retx retries x log,
  xfer_ok x -> on_course x -> Z.of_nat (length F) <= cap x ->
  Forall (fun r => Forall honest (arrivals r) /\ Forall (fun a => is_error a = false) (arrivals r) /\
                   t_loop r < deadline) rs ->
  have_tid x = true \/ server_first (flat_map arrivals rs) ->
  fold_left advance (flat_map arrivals rs) (block x) = nblocks ->
  0 <= retries -> retries + quiet_rounds (block x) rs <= TFTP_MAX_RETX ->
  exists x' log', get_loop fn hz deadline retx retries (rs ++ [last]) x log = Some (x', log') /\
    done x' = true /\ error x' = false.
Proof using Hsmall.
  induction rs as [|r rs IH]; intros retx retries x log Hx [He Hd] Hc Hr Hf Hall Hr0 Hq; cbn [get_loop app].
  all: destruct (done x) eqn:Ed; cbn [orb]; [by eexists _, _|].
  { cbn in Hall. rewrite Hall, Z.eqb_refl in Hd. done. }
  apply Forall_cons in Hr as [(Hh & Hne & Ht) Hr]. rewrite (proj2 (Z.leb_gt _ _) Ht).
  cbn [flat_map] in *. rewrite fold_left_app in Hall. cbn [quiet_rounds] in Hq. cbv zeta in Hq.
  destruct (pump_ok (flat_map arrivals rs) (arrivals r) x Hx Hh Hf ltac:(lia)) as (H1 & H2 & H3).
  destruct (pump_live (flat_map arrivals rs) (arrivals r) x Hx Hh Hf Hc Hne) as (Ho & Hb & Hp & Hk); [by split; rewrite ?Ed|].
  rewrite <- Hb in Hall, Hq. pose proof (quiet_rounds_pos rs (block (pump (arrivals r) x))).
  cbv zeta. destruct (retx <=? t_test r).
  2: { apply IH; auto; [lia|]. destruct (_ =? block x); lia. }
  destruct (progress (pump (arrivals r) x)) eqn:Ep.
  - apply IH; auto; [by apply set_progress_ok|cbn; lia|]. cbn. destruct (_ =? block x); lia.
  - symmetry in Hp. apply orb_false_iff in Hp as [_ Hp%negb_false_iff]. rewrite <- Hb in Hp. rewrite Hp in Hq.
    rewrite (proj2 (Z.ltb_lt _ _)) by lia. apply IH; auto; lia.
Qed.
End Transfer.

(** The final state of an honest download. *)
Lemma done_is_file F P x :
  xfer_ok F P x -> done x = true -> error x = false -> out x = F.
Proof.
  intros [_ Hb Ho Hdone Hroom] Hd He. pose proof (nblocks_bound F).
  specialize (Hroom He). destruct (Hdone Hd) as [|Hn]; [congruence|]. rewrite Hn in *.
  rewrite Ho. apply take_ge. lia.
Qed.

(** C35.  A download delivers the file (of at most 65535 blocks), with the
    server's datagrams arriving in any order, any number of times or not at
    all, and data from other ports between them.  Status 0 means that the
    buffer holds exactly the file.  And the download does end with status 0
    when the file fits, no error datagram comes, the blocks come in order
    among the rest before the deadline, and at most [TFTP_MAX_RETX] rounds
    bring no next block. *)
Theorem tftp_delivers_file F P fn out_cap hz t0 t1 rrq_ok rounds last :
  nblocks F < 65536 -> 0 < out_cap ->
  Forall (fun r => Forall (honest F P) (arrivals r)) (rounds ++ [last]) ->
  server_first P (flat_map arrivals (rounds ++ [last])) ->
  let get := canboot_tftp_get true fn out_cap hz t0 t1 rrq_ok (rounds ++ [last]) in
  (forall bytes, get = Some (0, bytes) -> bytes = F) /\
  (Z.of_nat (length F) <= out_cap ->
   Forall (fun r => Forall (fun a => is_error a = false) (arrivals r) /\
                    t_loop r < u64 (t0 + u64 (hz * TFTP_OVERALL_MS) / 1000)) rounds ->
   fold_left (advance P) (flat_map arrivals rounds) 0 = nblocks F ->
   quiet_rounds P 0 rounds <= TFTP_MAX_RETX -> get = Some (0, F)).
Proof.
  intros Hs Hc Hh Hf get. subst get. unfold canboot_tftp_get. rewrite (proj2 (Z.eqb_neq out_cap 0)) by lia. cbn [negb].
  assert (Hx0 : xfer_ok F P (fresh out_cap)) by (apply fresh_ok; lia). cbv zeta. split.
  - intros bytes Hg. destruct (get_loop _ _ _ _ _ _ _ _) as [[x log]|] eqn:Hl; [|done].
    apply (get_loop_ok F P Hs) in Hl as [Hx Hcap]; [|done|cbn; lia|done|by right].
    destruct (done x && negb (error x))%bool eqn:Hd; [|done]. injection Hg as <-.
    apply andb_true_iff in Hd as [Hd He%negb_true_iff]. by apply (done_is_file F P).
  - intros Hfit Hr Hall Hq. pose proof Hh as Hh'. apply Forall_app in Hh as [Hh _].
    destruct (get_loop_live F P Hs fn hz (u64 (t0 + u64 (hz * TFTP_OVERALL_MS) / 1000)) last rounds
      (u64 (t1 + u64 (hz * TFTP_RETX_MS) / 1000)) 0 (fresh out_cap) (send_rrq rrq_ok fn)) as (x & log & Hl & Hd & He);
      [done| |done| | |done|lia|cbn; lia|].
    + split; [done|]. symmetry. apply Z.eqb_neq. pose proof (nblocks_bound F). cbn [fresh block]. lia.
    + clear -Hh Hr. induction Hr as [|r rs [] _ IH]; [constructor|]. inversion Hh; subst. constructor; auto.
    + right. intros a l1 l2 E. apply (Hf a l1 (l2 ++ arrivals last)). rewrite flat_map_app, E. cbn.
      by rewrite app_nil_r, <- app_assoc.
    + rewrite Hl, Hd, He. cbn [negb andb]. do 2 f_equal.
      apply (get_loop_ok F P Hs) in Hl as [Hx Hcap]; [|done|cbn; lia|done|by right].
      by apply (done_is_file F P).
Qed.

(** A file of 600 bytes in two blocks; the first one is sent twice, and a
    datagram from another port gets in between. *)
Definition demo_file : list Z := replicate 600 7.
Definition demo_data (k port : Z) : arrival :=
  mkArr ([0; TFTP_OP_DATA; k / 256; k mod 256] ++ block_of demo_file k) port true.
Definition demo_rounds : list round :=
  [mkRound 10 [demo_data 1 5000] 20 20 true;
   mkRound 30 [demo_data 1 5000; mkArr [0; 3; 0; 2; 66; 66] 6000 true] 40 40 true;
   mkRound 50 [demo_data 2 5000] 60 60 true].
Definition demo_last : round := mkRound 70 [] 80 80 true.

Lemma demo_honest k : 1 <= k <= 2 -> honest demo_file 5000 (demo_data k 5000).
Proof. intros Hk _ _. exists k. split; [done|]. by exists 0, TFTP_OP_DATA. Qed.

Lemma tftp_delivers_file_witness :
  canboot_tftp_get true (str "boot.img") 4096 1000 0 0 true (demo_rounds ++ [demo_last]) = Some (0, demo_file).
Proof.
  apply (tftp_delivers_file demo_file 5000 (str "boot.img") 4096 1000 0 0 true demo_rounds demo_last).
  - reflexivity.
  - lia.
  - assert (H1 := demo_honest 1 ltac:(lia)). assert (H2 := demo_honest 2 ltac:(lia)).
    apply Forall_cons; split; [apply Forall_cons; split; [exact H1|apply Forall_nil; exact I]|].
    apply Forall_cons; split.
    { apply Forall_cons; split; [exact H1|]. apply Forall_cons; split; [|apply Forall_nil; exact I].
      intros _ E. discriminate E. }
    apply Forall_cons; split; [apply Forall_cons; split; [exact H2|apply Forall_nil; exact I]|].
    apply Forall_cons; split; apply Forall_nil; exact I.
  - intros a [|b l1] l2 E Ha Hl; injection E as <- E; [reflexivity|].
    apply Forall_cons in Hl as [Hb _]. discriminate Hb.
  - vm_compute. discriminate.
  - repeat (apply Forall_cons; split; [split; [repeat (apply Forall_cons; split; [reflexivity|]); apply Forall_nil; exact I|reflexivity]|]).
    apply Forall_nil. exact I.
  - vm_compute. reflexivity.
  - vm_compute. discriminate.
Defined.
