(* ===== verification/Partition.v ===== *)
(** * Partition tables, [fs/partition.c]

    MBR and GPT on a block device.  Packed structs are read from and written to
    byte buffers at their offsets.  A buffer holds what the last request read
    into it; an access past that is [STUCK]. *)
From S2P Require Import Prelude Bytes Text Disk.

Abbreviation GPT_SIG := 0x5452415020494645 (only parsing).
Abbreviation GPT_HDR_LBA := 1 (only parsing).
Abbreviation GPT_TBL_LBA := 2 (only parsing).
Definition GPT_TBL_BYTES : Z := 128 * 128.
Abbreviation GPT_ENTRIES := 128 (only parsing).
Abbreviation GPT_ENTRY_SIZE := 128 (only parsing).
Abbreviation MBR_SIG := 0xAA55 (only parsing).
Abbreviation MBR_TYPE_PROTECTIVE := 0xEE (only parsing).
Abbreviation CANBOOT_PART_SCHEME_NONE := 0xFF (only parsing).
Abbreviation CANBOOT_PART_SCHEME_MBR := 0 (only parsing).
Abbreviation CANBOOT_PART_SCHEME_GPT := 1 (only parsing).
Abbreviation CANBOOT_PART_TYPE_LINUX := 0x83 (only parsing).
Abbreviation CANBOOT_PART_NAME_MAX := 36 (only parsing).
Definition CANBOOT_GPT_TYPE_BASIC_DATA : list Z :=
  [0xA2; 0xA0; 0xD0; 0xEB; 0xE5; 0xB9; 0x33; 0x44; 0x87; 0xC0; 0x68; 0xB6; 0xB7; 0x26; 0x99; 0xC7].

Record canboot_partition : Type := mkPart {
  start_lba : Z;
  end_lba : Z;
  size_lba : Z;
  type_mbr : Z;
  type_gpt : list Z;
  name : list Z;
  bootable_mbr : Z;
  scheme : Z;
}.

(** ** CRC-32 *)
(** [c = (c & 1) ? (0xEDB88320u ^ (c >> 1)) : (c >> 1)]. *)
Definition crc_bit (c : Z) : Z :=
  if Z.testbit c 0 then Z.lxor 0xEDB88320 (Z.shiftr c 1) else Z.shiftr c 1.

Definition table : list Z := (fun i => Nat.iter 8 crc_bit i) <$> seqZ 0 256.

Definition crc_byte (c b : Z) : Z :=
  Z.lxor (nth (Z.to_nat (Z.land (Z.lxor c b) 255)) table 0) (Z.shiftr c 8).

Definition crc32_buf (data : list Z) : Z := Z.lxor (fold_left crc_byte data 0xFFFFFFFF) 0xFFFFFFFF.

(** ** The GPT header *)
Record gpt_header : Type := mkGpt {
  signature : Z;
  revision : Z;
  header_size : Z;
  header_crc32 : Z;
  reserved : Z;
  current_lba : Z;
  backup_lba : Z;
  first_usable : Z;
  last_usable : Z;
  disk_guid : list Z;
  table_lba : Z;
  entry_count : Z;
  entry_size : Z;
  table_crc32 : Z;
}.

Definition encode (h : gpt_header) : list Z :=
  le_enc 8 (signature h) ++ le_enc 4 (revision h) ++ le_enc 4 (header_size h) ++
  le_enc 4 (header_crc32 h) ++ le_enc 4 (reserved h) ++ le_enc 8 (current_lba h) ++
  le_enc 8 (backup_lba h) ++ le_enc 8 (first_usable h) ++ le_enc 8 (last_usable h) ++
  disk_guid h ++ le_enc 8 (table_lba h) ++ le_enc 4 (entry_count h) ++
  le_enc 4 (entry_size h) ++ le_enc 4 (table_crc32 h).

Definition decode (b : list Z) : gpt_header :=
  let f off n := le_dec (slice off n b) in
  mkGpt (f 0 8)%nat (f 8 4)%nat (f 12 4)%nat (f 16 4)%nat (f 20 4)%nat (f 24 8)%nat (f 32 8)%nat
    (f 40 8)%nat (f 48 8)%nat (slice 56 16 b) (f 72 8)%nat (f 80 4)%nat (f 84 4)%nat (f 88 4)%nat.

Definition with_crcs (tc hc : Z) (h : gpt_header) : gpt_header :=
  mkGpt (signature h) (revision h) (header_size h) hc (reserved h) (current_lba h) (backup_lba h)
    (first_usable h) (last_usable h) (disk_guid h) (table_lba h) (entry_count h) (entry_size h) tc.
Definition with_lbas (cur bak tab : Z) (h : gpt_header) : gpt_header :=
  mkGpt (signature h) (revision h) (header_size h) (header_crc32 h) (reserved h) cur bak
    (first_usable h) (last_usable h) (disk_guid h) tab (entry_count h) (entry_size h) (table_crc32 h).

Section partition.
Context {D : Type} `{BlockDevice D}.

(** [read_lba] into a buffer of [cap] bytes, and [write_lba]. *)
Definition read_lba (cap lba n_blocks : Z) : M D (list Z) := disk_read cap lba n_blocks.

Definition write_lba (lba : Z) (buf : list Z) (n_blocks : Z) : M D unit :=
  let! d := get in
  if negb (bd_writable d) then err else disk_write lba n_blocks buf.

Definition read_gpt_header : M D gpt_header :=
  let! d := get in
  if 512 <? bd_block_size d then err
  else
    let! buf := read_lba 512 GPT_HDR_LBA 1 in
    if Z.of_nat (length buf) <? 92 then stuck
    else
      let h := decode buf in
      if negb (signature h =? GPT_SIG) then err
      else if (header_size h <? 92) || (bd_block_size d <? header_size h) then err
      else
        let zeroed := splice 16 (le_enc 4 0) buf in
        if negb (crc32_buf (take (Z.to_nat (header_size h)) zeroed) =? header_crc32 h) then err
        else ret h.

Definition read_gpt_table (h : gpt_header) (out_max : Z) : M D (list Z) :=
  let! d := get in
  let bytes := u32 (entry_count h * entry_size h) in
  let bytes := if out_max <? bytes then out_max else bytes in
  let n_sect := u32 (bytes + bd_block_size d - 1) / bd_block_size d in
  read_lba out_max (table_lba h) n_sect.

(** One field of the MBR entry [i] of a sector. *)
Definition mbr_get (n : nat) (i off : Z) (buf : list Z) : M D Z := from_opt (getle n (446 + i * 16 + off) buf).

Definition canboot_part_detect : M D Z :=
  let! hdr := attempt read_gpt_header in
  match hdr with
  | Some _ => ret CANBOOT_PART_SCHEME_GPT
  | None =>
      let! r := attempt (read_lba 512 0 1) in
      match r with
      | None => ret CANBOOT_PART_SCHEME_NONE
      | Some buf =>
          let! sig := from_opt (getle 2 510 buf) in
          if negb (sig =? MBR_SIG) then ret CANBOOT_PART_SCHEME_NONE
          else
            let! t0 := mbr_get 1 0 4 buf in let! t1 := mbr_get 1 1 4 buf in
            let! t2 := mbr_get 1 2 4 buf in let! t3 := mbr_get 1 3 4 buf in
            if (t0 =? 0) && (t1 =? 0) && (t2 =? 0) && (t3 =? 0)
            then ret CANBOOT_PART_SCHEME_NONE else ret CANBOOT_PART_SCHEME_MBR
      end
  end.

(** The loop of [list_mbr] from entry [i], [left] entries to go, [max] slots left. *)
Fixpoint list_mbr_loop (left : nat) (i max : Z) (buf : list Z) : M D (list canboot_partition) :=
  match left with
  | O => ret []
  | S k =>
      if max <=? 0 then ret []
      else
        let! t := mbr_get 1 i 4 buf in
        let! s := mbr_get 4 i 8 buf in
        let! c := mbr_get 4 i 12 buf in
        let! b := mbr_get 1 i 0 buf in
        if (t =? 0) || (c =? 0) then list_mbr_loop k (i + 1) max buf
        else
          let! rest := list_mbr_loop k (i + 1) (max - 1) buf in
          ret (mkPart s (s + c - 1) c t (replicate 16 0) [] (if b =? 0x80 then 1 else 0)
                 CANBOOT_PART_SCHEME_MBR :: rest)
  end.

Definition list_mbr (max : Z) : M D (list canboot_partition) :=
  let! buf := read_lba 512 0 1 in list_mbr_loop 4 0 max buf.

(** The units of a UTF-16 name, two bytes each. *)
Fixpoint units (n : nat) (b : list Z) : list Z :=
  match n with O => [] | S k => le_dec (take 2 b) :: units k (drop 2 b) end.

(** [utf16le_to_ascii] into a buffer of [cap] characters. *)
Fixpoint utf16le_to_ascii (src : list Z) (cap : Z) : list Z :=
  match src with
  | [] => []
  | c :: src' =>
      if cap <=? 1 then []
      else if c =? 0 then []
      else (if c <? 0x80 then c else 63) :: utf16le_to_ascii src' (cap - 1)
  end.

Definition guid_empty (g : list Z) : bool := forallb (fun b => b =? 0) g.

(** The 128 bytes of the entry at byte offset [off] of the table. *)
Definition gpt_entry_at (off : Z) (tbl : list Z) : option (list Z) :=
  if off + 128 <=? Z.of_nat (length tbl) then Some (slice (Z.to_nat off) 128 tbl) else None.

Definition type_guid (e : list Z) : list Z := slice 0 16 e.
Definition e_start (e : list Z) : Z := le_dec (slice 32 8 e).
Definition e_end (e : list Z) : Z := le_dec (slice 40 8 e).
Definition e_name (e : list Z) : list Z := utf16le_to_ascii (units 36 (slice 56 72 e)) (CANBOOT_PART_NAME_MAX + 1).

Definition gpt_part (e : list Z) : canboot_partition :=
  mkPart (e_start e) (e_end e) (u64 (e_end e - e_start e + 1)) 0 (type_guid e) (e_name e) 0
    CANBOOT_PART_SCHEME_GPT.

Fixpoint list_gpt_loop (left : nat) (i esz max : Z) (tbl : list Z) : M D (list canboot_partition) :=
  match left with
  | O => ret []
  | S k =>
      if max <=? 0 then ret []
      else
        let! e := from_opt (gpt_entry_at (u32 (i * esz)) tbl) in
        if guid_empty (type_guid e) then list_gpt_loop k (i + 1) esz max tbl
        else
          let! rest := list_gpt_loop k (i + 1) esz (max - 1) tbl in
          ret (gpt_part e :: rest)
  end.

Definition list_gpt (max : Z) : M D (list canboot_partition) :=
  let! h := read_gpt_header in
  let! tbl := read_gpt_table h GPT_TBL_BYTES in
  list_gpt_loop (Z.to_nat (entry_count h)) 0 (entry_size h) max tbl.

Definition canboot_part_list (max : Z) : M D (list canboot_partition) :=
  let! sch := canboot_part_detect in
  if sch =? CANBOOT_PART_SCHEME_GPT then list_gpt max
  else if sch =? CANBOOT_PART_SCHEME_MBR then list_mbr max
  else ret [].

Definition canboot_part_init_mbr : M D unit :=
  let! d := get in
  if negb (bd_writable d) then err
  else write_lba 0 (replicate 510 0 ++ [0x55; 0xAA]) 1.

(** [crc32_buf(primary, primary->header_size)]: the struct has 92 bytes. *)
Definition header_bytes (h : gpt_header) : M D (list Z) :=
  if 92 <? header_size h then stuck else ret (take (Z.to_nat (header_size h)) (encode h)).

Definition header_sector (h : gpt_header) : M D (list Z) :=
  let! b := header_bytes h in ret (b ++ replicate (512 - length b) 0).

(** The header with its own checksum. *)
Definition sealed (h : gpt_header) : M D gpt_header :=
  let z := with_crcs (table_crc32 h) 0 h in
  let! b := header_bytes z in ret (with_crcs (table_crc32 h) (crc32_buf b) h).

Definition write_gpt_pair (primary : gpt_header) (table_buf : list Z) (table_sectors : Z) : M D unit :=
  let n := u32 (entry_count primary * entry_size primary) in
  if Z.of_nat (length table_buf) <? n then stuck
  else
    let! primary := sealed (with_crcs (crc32_buf (take (Z.to_nat n) table_buf)) 0 primary) in
    write_lba (table_lba primary) table_buf table_sectors ;;!
    let! sect := header_sector primary in
    write_lba (current_lba primary) sect 1 ;;!
    let backup := with_lbas (backup_lba primary) (current_lba primary)
                    (u64 (backup_lba primary - table_sectors)) primary in
    let! backup := sealed backup in
    write_lba (table_lba backup) table_buf table_sectors ;;!
    let! sect := header_sector backup in
    write_lba (current_lba backup) sect 1.

Definition protective_mbr (total : Z) : list Z :=
  replicate 446 0 ++
  [0; 0; 0; 0; MBR_TYPE_PROTECTIVE; 0; 0; 0] ++ le_enc 4 1 ++
  le_enc 4 (if 0xFFFFFFFF <? total - 1 then 0xFFFFFFFF else u32 (total - 1)) ++
  replicate 48 0 ++ [0x55; 0xAA].

Definition fresh_header (total table_sectors : Z) : gpt_header :=
  mkGpt GPT_SIG 0x00010000 92 0 0 GPT_HDR_LBA (total - 1) (GPT_TBL_LBA + table_sectors)
    (total - 1 - table_sectors - 1) (le_enc 8 0x63616e626f6f742d ++ le_enc 8 total)
    GPT_TBL_LBA GPT_ENTRIES GPT_ENTRY_SIZE 0.

Definition canboot_part_init_gpt : M D unit :=
  let! d := get in
  if negb (bd_writable d) then err
  else if negb (bd_block_size d =? 512) then err
  else
    let total := bd_block_count d in
    if total <? 64 then err
    else
      write_lba 0 (protective_mbr total) 1 ;;!
      let table_sectors := u32 (GPT_TBL_BYTES + bd_block_size d - 1) / bd_block_size d in
      write_gpt_pair (fresh_header total table_sectors) (replicate (Z.to_nat GPT_TBL_BYTES) 0) table_sectors.

(** ** Editing the table *)
Definition mbr_put (n : nat) (i off v : Z) (buf : list Z) : M D (list Z) :=
  from_opt (putle n (446 + i * 16 + off) v buf).

(** The loop of [canboot_part_create] over the MBR entries. *)
Fixpoint create_mbr (left : nat) (i start_lba end_lba type_or_zero : Z) (buf : list Z) : M D Z :=
  match left with
  | O => err
  | S k =>
      let! t := mbr_get 1 i 4 buf in
      if negb (t =? 0) then create_mbr k (i + 1) start_lba end_lba type_or_zero buf
      else
        let! buf := mbr_put 1 i 0 0 buf in
        let! buf := mbr_put 1 i 4 (if type_or_zero =? 0 then CANBOOT_PART_TYPE_LINUX else type_or_zero) buf in
        let! buf := mbr_put 4 i 8 (u32 start_lba) buf in
        let! buf := mbr_put 4 i 12 (u32 (end_lba - start_lba + 1)) buf in
        let! buf := from_opt (putle 2 510 MBR_SIG buf) in
        write_lba 0 buf 1 ;;! ret i
  end.

(** The name of a new entry: up to 35 characters, one 16-bit unit each. *)
Definition utf16_name (name_or_null : option (list Z)) : list Z :=
  let cs := take 35 (from_option cstr [] name_or_null) in
  concat (le_enc 2 <$> cs) ++ replicate (72 - 2 * length cs) 0.

Definition new_entry (i start_lba end_lba : Z) (name_or_null : option (list Z)) : list Z :=
  CANBOOT_GPT_TYPE_BASIC_DATA ++
  le_enc 8 (Z.lor 0x706172742d312300 i) ++ le_enc 8 start_lba ++
  le_enc 8 start_lba ++ le_enc 8 end_lba ++ le_enc 8 0 ++ utf16_name name_or_null.

(** The search for a free entry, from entry [i]. *)
Fixpoint free_entry (left : nat) (i esz : Z) (tbl : list Z) : M D Z :=
  match left with
  | O => err
  | S k =>
      let! e := from_opt (gpt_entry_at (u32 (i * esz)) tbl) in
      if guid_empty (type_guid e) then ret i else free_entry k (i + 1) esz tbl
  end.

Definition table_sectors (d : D) : Z := u32 (GPT_TBL_BYTES + bd_block_size d - 1) / bd_block_size d.

Definition canboot_part_create (start_lba end_lba type_or_zero : Z) (name_or_null : option (list Z)) : M D Z :=
  let! d := get in
  if negb (bd_writable d) then err
  else if end_lba <? start_lba then err
  else
    let! sch := canboot_part_detect in
    let! sch := (if sch =? CANBOOT_PART_SCHEME_NONE
                 then canboot_part_init_gpt ;;! ret CANBOOT_PART_SCHEME_GPT else ret sch) in
    if sch =? CANBOOT_PART_SCHEME_MBR then
      let! buf := read_lba 512 0 1 in create_mbr 4 0 start_lba end_lba type_or_zero buf
    else
      let! h := read_gpt_header in
      let! tbl := read_gpt_table h GPT_TBL_BYTES in
      let! i := free_entry (Z.to_nat (entry_count h)) 0 (entry_size h) tbl in
      let tbl := splice (Z.to_nat (u32 (i * entry_size h))) (new_entry i start_lba end_lba name_or_null) tbl in
      write_gpt_pair h tbl (table_sectors d) ;;! ret i.

Definition canboot_part_delete (idx : Z) : M D unit :=
  let! d := get in
  if negb (bd_writable d) then err
  else
    let! sch := canboot_part_detect in
    if sch =? CANBOOT_PART_SCHEME_MBR then
      if 4 <=? idx then err
      else
        let! buf := read_lba 512 0 1 in
        let! buf := from_opt (putle 16 (446 + idx * 16) 0 buf) in
        write_lba 0 buf 1
    else if sch =? CANBOOT_PART_SCHEME_GPT then
      let! h := read_gpt_header in
      if entry_count h <=? idx then err
      else
        let! tbl := read_gpt_table h GPT_TBL_BYTES in
        let! tbl := from_opt (putle 128 (u32 (idx * entry_size h)) 0 tbl) in
        write_gpt_pair h tbl (table_sectors d)
    else err.

Definition canboot_part_resize (idx new_end_lba : Z) : M D unit :=
  let! d := get in
  if negb (bd_writable d) then err
  else
    let! sch := canboot_part_detect in
    if sch =? CANBOOT_PART_SCHEME_MBR then
      if 4 <=? idx then err
      else
        let! buf := read_lba 512 0 1 in
        let! t := mbr_get 1 idx 4 buf in
        if t =? 0 then err
        else
          let! s := mbr_get 4 idx 8 buf in
          if new_end_lba <? s then err
          else
            let new_count := u64 (new_end_lba - s + 1) in
            if 0xFFFFFFFF <? new_count then err
            else
              let! buf := mbr_put 4 idx 12 new_count buf in
              write_lba 0 buf 1
    else if sch =? CANBOOT_PART_SCHEME_GPT then
      let! h := read_gpt_header in
      if entry_count h <=? idx then err
      else
        let! tbl := read_gpt_table h GPT_TBL_BYTES in
        let! e := from_opt (gpt_entry_at (u32 (idx * entry_size h)) tbl) in
        if guid_empty (type_guid e) then err
        else if new_end_lba <? e_start e then err
        else
          let! tbl := from_opt (putle 8 (u32 (idx * entry_size h) + 40) new_end_lba tbl) in
          write_gpt_pair h tbl (table_sectors d)
    else err.
End partition.
