(* ===== verification/PartitionProps.v ===== *)
(** * Partition tables: the checksum

    The table-driven CRC-32 of [fs/partition.c] is the bit-serial one. *)
From stdpp Require Import functions.
From S2P Require Import Prelude Bytes Text Disk Partition.

(** ** CRC-32 one message bit at a time *)
Definition message_bits (data : list Z) : list Z :=
  flat_map (fun b => (fun k => Z.b2z (Z.testbit b k)) <$> seqZ 0 8) data.

(** The shift register of CRC-32: a message bit enters at the low end. *)
Definition crc32_serial (data : list Z) : Z :=
  Z.lxor (fold_left (fun c bit => crc_bit (Z.lxor c bit)) (message_bits data) 0xFFFFFFFF) 0xFFFFFFFF.

Lemma crc_bit_lxor a b : crc_bit (Z.lxor a b) = Z.lxor (crc_bit a) (crc_bit b).
Proof.
  unfold crc_bit. rewrite Z.lxor_spec, Z.shiftr_lxor.
  destruct (Z.testbit a 0), (Z.testbit b 0); cbn [xorb];
    generalize (Z.shiftr a 1) (Z.shiftr b 1) 0xEDB88320; intros x y z; zbits;
    destruct (Z.testbit x i), (Z.testbit y i), (Z.testbit z i); done.
Qed.

Lemma crc_iter_lxor n a b :
  Nat.iter n crc_bit (Z.lxor a b) = Z.lxor (Nat.iter n crc_bit a) (Nat.iter n crc_bit b).
Proof. induction n as [|n IH]; [done|]. rewrite !Nat.iter_succ. by rewrite IH, crc_bit_lxor. Qed.

Lemma crc_iter_shiftl n x : Nat.iter n crc_bit (Z.shiftl x (Z.of_nat n)) = x.
Proof.
  revert x. induction n as [|n IH]; intros x; [apply Z.shiftl_0_r|].
  rewrite Nat.iter_succ_r. replace (crc_bit _) with (Z.shiftl x (Z.of_nat n)); [apply IH|].
  unfold crc_bit. rewrite Z.shiftl_spec_low by lia.
  rewrite Z.shiftr_shiftl_l by lia. f_equal. lia.
Qed.

Lemma split_low b n : 0 <= n -> b = Z.lxor (Z.land b (Z.ones n)) (Z.shiftl (Z.shiftr b n) n).
Proof.
  intros. zbits; rewrite ?andb_true_r, ?andb_false_r, ?xorb_false_r, ?xorb_false_l; try done.
Qed.

(** [n] register steps on [c ^ b] consume the [n] bits of [b]. *)
Lemma crc_serial_bits (n : nat) c b : 0 <= b < 2 ^ Z.of_nat n ->
  Nat.iter n crc_bit (Z.lxor c b) =
  fold_left (fun c bit => crc_bit (Z.lxor c bit)) ((fun k => Z.b2z (Z.testbit b k)) <$> seqZ 0 (Z.of_nat n)) c.
Proof.
  revert c b. induction n as [|n IH]; intros c b Hb.
  { replace b with 0 by (cbn in Hb; lia). cbn. by rewrite Z.lxor_0_r. }
  rewrite seqZ_cons by lia. cbn [fmap list_fmap fold_left].
  rewrite Nat.iter_succ_r.
  replace (Z.pred (Z.of_nat (S n))) with (Z.of_nat n) by lia.
  assert (Hstep : crc_bit (Z.lxor c b) = Z.lxor (crc_bit (Z.lxor c (Z.b2z (Z.testbit b 0)))) (Z.shiftr b 1)).
  { rewrite (split_low b 1) at 1 by lia.
    replace (Z.land b (Z.ones 1)) with (Z.b2z (Z.testbit b 0)).
    - rewrite <- Z.lxor_assoc, crc_bit_lxor. f_equal. apply (crc_iter_shiftl 1).
    - rewrite Z.land_ones by lia. rewrite Z.bit0_mod. done. }
  rewrite Hstep, IH.
  - f_equal. unfold seqZ. rewrite <- !list_fmap_compose. apply list_fmap_ext. intros j k Hk.
    unfold compose. rewrite Z.shiftr_spec by lia. do 2 f_equal. lia.
  - rewrite Z.shiftr_div_pow2 by lia. rewrite Nat2Z.inj_succ, Z.pow_succ_r in Hb by lia. zdm.
Qed.

Lemma table_entry i : 0 <= i < 256 -> nth (Z.to_nat i) table 0 = Nat.iter 8 crc_bit i.
Proof.
  intros Hi. rewrite nth_lookup. unfold table. rewrite list_lookup_fmap.
  rewrite (lookup_seqZ_lt 0 256) by lia. cbn [fmap option_fmap option_map default].
  rewrite Z2Nat.id by lia. done.
Qed.

Lemma crc_byte_iter c b : 0 <= b < 256 -> crc_byte c b = Nat.iter 8 crc_bit (Z.lxor c b).
Proof.
  intros Hb. unfold crc_byte. change 255 with (Z.ones 8).
  rewrite table_entry by (rewrite Z.land_ones by lia; apply Z.mod_pos_bound; lia).
  rewrite (split_low (Z.lxor c b) 8) at 2 by lia. rewrite crc_iter_lxor. f_equal.
  rewrite Z.shiftr_lxor, (Z.shiftr_div_pow2 b) by lia. rewrite (Z.div_small b) by lia.
  rewrite Z.lxor_0_r. symmetry. apply (crc_iter_shiftl 8).
Qed.

(** C36.  The checksum of GPT headers and tables: the routine with its
    256-entry table computes, on every byte string, the CRC-32 of the
    bit-serial shift register with polynomial 0xEDB88320. *)
Theorem crc32_is_bit_serial data : Forall byte_ok data -> crc32_buf data = crc32_serial data.
Proof.
  intros Hd. unfold crc32_buf, crc32_serial. f_equal. generalize 0xFFFFFFFF as c.
  induction Hd as [|b data Hb Hd IH]; intros c; [done|]. cbn [fold_left].
  rewrite crc_byte_iter, (crc_serial_bits 8), IH by done.
  unfold message_bits at 2. cbn [flat_map]. rewrite fold_left_app. done.
Qed.

(** The check value of CRC-32. *)
Lemma crc32_is_bit_serial_witness :
  crc32_buf (str "123456789") = 0xCBF43926 /\ crc32_serial (str "123456789") = 0xCBF43926.
Proof.
  split; [reflexivity|]. rewrite <- crc32_is_bit_serial; [reflexivity|].
  repeat (apply Forall_cons; split; [unfold byte_ok; cbn; lia|]). apply Forall_nil. done.
Defined.
