(* ===== verification/PartitionGpt.v ===== *)
(** * Partition tables: the GPT on disk

    [gpt_on d n f h tbl]: the disk [d] of [n] 512-byte blocks holds the header
    [h] and the entry table [tbl].  The operations of [fs/partition.c] are
    shown to read and to rewrite exactly that. *)
From stdpp Require Import functions.
From S2P Require Import Prelude Bytes Text Disk Partition.

(** ** Headers *)
(** A header as [canboot_part_init_gpt] lays it out, on a disk of [n] blocks. *)
Record header_ok (n : Z) (h : gpt_header) : Prop := {
  ho_sig : signature h = GPT_SIG;
  ho_revision : 0 <= revision h < 2 ^ 32;
  ho_size : header_size h = 92;
  ho_crc : 0 <= header_crc32 h < 2 ^ 32;
  ho_reserved : 0 <= reserved h < 2 ^ 32;
  ho_current : current_lba h = 1;
  ho_backup : backup_lba h = n - 1;
  ho_first : 0 <= first_usable h < 2 ^ 64;
  ho_last : 0 <= last_usable h < 2 ^ 64;
  ho_guid : length (disk_guid h) = 16%nat;
  ho_table : table_lba h = 2;
  ho_count : entry_count h = 128;
  ho_esize : entry_size h = 128;
  ho_tcrc : 0 <= table_crc32 h < 2 ^ 32;
}.

Definition header_block (h : gpt_header) : list Z := encode h ++ replicate 420 0.

(** The header with the checksum [write_gpt_pair] gives it. *)
Definition seal (h : gpt_header) : gpt_header :=
  with_crcs (table_crc32 h) (crc32_buf (encode (with_crcs (table_crc32 h) 0 h))) h.

(** The two headers [write_gpt_pair] writes for the header [h] and a table. *)
Definition primary_of (h : gpt_header) (tbl : list Z) : gpt_header :=
  seal (with_crcs (crc32_buf tbl) 0 h).
Definition backup_of (h : gpt_header) (tbl : list Z) : gpt_header :=
  seal (with_lbas (backup_lba h) (current_lba h) (backup_lba h - 32) (primary_of h tbl)).

(** ** The disk *)
Section gpt_disk.
Context {D : Type} `{BlockDevice D} `{!BlockDeviceLaws D}.
Implicit Types (d : D) (n : Z) (f : Z -> list Z) (h : gpt_header) (tbl : list Z).

Record gpt_on d n f h tbl : Prop := {
  go_disk : disk_is d n f;
  go_count : 67 <= n < 2 ^ 64;
  go_header : header_ok n h;
  go_sealed : seal h = h;
  go_block : f 1 = header_block h;
  go_length : Z.of_nat (length tbl) = 16384;
  go_table : concat (f <$> seqZ 2 32) = tbl;
}.

(** The backup copy at the end of the disk. *)
Record backup_on n f h tbl : Prop := {
  bo_block : f (n - 1) = header_block (backup_of h tbl);
  bo_table : concat (f <$> seqZ (n - 33) 32) = tbl;
}.

(** The blocks that hold no part of a GPT. *)
Definition data_block n (i : Z) : Prop := 34 <= i < n - 33.

(** The contents after [write_gpt_pair]. *)
Definition gpt_written n f h tbl : Z -> list Z :=
  <[n - 1 := header_block (backup_of h tbl)]>
    (patched (n - 33) 32 tbl (<[1 := header_block (primary_of h tbl)]> (patched 2 32 tbl f))).

(** ** Entries *)
Definition entry (tbl : list Z) (i : Z) : list Z := slice (Z.to_nat (i * 128)) 128 tbl.
Definition entries tbl : list (list Z) := entry tbl <$> seqZ 0 128.
Definition used (e : list Z) : bool := negb (guid_empty (type_guid e)).
Definition parts (es : list (list Z)) : list canboot_partition := gpt_part <$> filter (fun e => used e = true) es.
End gpt_disk.

(** ** The checksum is a 32-bit value *)
Lemma lxor_range32 a b : 0 <= a < 2 ^ 32 -> 0 <= b < 2 ^ 32 -> 0 <= Z.lxor a b < 2 ^ 32.
Proof.
  intros Ha Hb. assert (0 <= Z.lxor a b) by (apply Z.lxor_nonneg; lia). split; [done|].
  assert (Hm : Z.lxor a b = Z.land (Z.lxor a b) (Z.ones 32)).
  { rewrite <- (Z.mod_small a (2 ^ 32)), <- (Z.mod_small b (2 ^ 32)) by done.
    rewrite <- !Z.land_ones by lia. zbits; by rewrite ?andb_true_r, ?andb_false_r. }
  rewrite Hm, Z.land_ones by lia. apply Z.mod_pos_bound. lia.
Qed.

Lemma table_range i : 0 <= nth i table 0 < 2 ^ 32.
Proof.
  assert (Ha : forallb (fun x => (0 <=? x) && (x <? 2 ^ 32)) table = true) by (vm_compute; done).
  rewrite nth_lookup. destruct (table !! i) as [x|] eqn:E; cbn; [|lia].
  rewrite forallb_forall in Ha. specialize (Ha x).
  rewrite andb_true_iff, Z.leb_le, Z.ltb_lt in Ha. apply Ha.
  apply list_elem_of_In. by eapply list_elem_of_lookup_2.
Qed.

Lemma crc32_range data : 0 <= crc32_buf data < 2 ^ 32.
Proof.
  unfold crc32_buf. apply lxor_range32; [|lia].
  assert (Hg : forall c, 0 <= c < 2 ^ 32 -> 0 <= fold_left crc_byte data c < 2 ^ 32); [|apply Hg; lia].
  induction data as [|b data IH]; intros c Hc; [done|]. cbn. apply IH. unfold crc_byte.
  apply lxor_range32; [apply table_range|]. rewrite Z.shiftr_div_pow2 by lia. change (2 ^ 8) with 256. zdm.
Qed.

(** ** Header bytes *)
Lemma length_encode h : length (disk_guid h) = 16%nat -> length (encode h) = 92%nat.
Proof. intros Hg. unfold encode. rewrite !length_app, !length_le_enc, Hg. done. Qed.

Lemma length_header_block h : length (disk_guid h) = 16%nat -> length (header_block h) = 512%nat.
Proof. intros Hg. unfold header_block. by rewrite length_app, length_encode, length_replicate. Qed.

Lemma decode_encode n h rest : header_ok n h -> 67 <= n < 2 ^ 64 -> decode (encode h ++ rest) = h.
Proof.
  intros [] Hn. destruct h as [sg rv hs hc rs cur bak fu lu guid tl ec es tc]. cbn in *.
  do 16 (destruct guid as [|? guid]; [exfalso; cbn in *; lia|]). destruct guid; [|exfalso; cbn in *; lia].
  assert (Hf : forall k v, 0 <= v < 2 ^ (8 * Z.of_nat k) -> le_dec (le_enc k v) = v).
  { intros k v Hv. rewrite le_dec_enc. by apply Z.mod_small. }
  subst. unfold decode.
  f_equal; first [apply (Hf 8%nat); cbn; lia | apply (Hf 4%nat); cbn; lia | reflexivity].
Qed.

Lemma clear_crc h rest :
  splice 16 (le_enc 4 0) (encode h ++ rest) = encode (with_crcs (table_crc32 h) 0 h) ++ rest.
Proof. reflexivity. Qed.

Lemma header_ok_with n h tc hc : header_ok n h -> 0 <= tc < 2 ^ 32 -> 0 <= hc < 2 ^ 32 ->
  header_ok n (with_crcs tc hc h).
Proof. intros [] ? ?. by split. Qed.

Lemma primary_ok n h tbl : header_ok n h -> header_ok n (primary_of h tbl).
Proof. intros. apply header_ok_with; [|apply crc32_range..]. apply header_ok_with; [done|apply crc32_range|lia]. Qed.

Section gpt_runs.
Context {D : Type} `{BlockDevice D} `{!BlockDeviceLaws D}.
Implicit Types (d : D) (n : Z) (f : Z -> list Z) (h : gpt_header) (tbl : list Z).

Lemma read_gpt_header_run d n f h tbl : gpt_on d n f h tbl -> read_gpt_header d = (OK h, d).
Proof.
  intros [[Hi Hw Hs Hc Hb] Hn Hh Hseal Hblk Hl Ht]. unfold read_gpt_header.
  rewrite (bind_OK _ _ _ d d) by done. cbv beta. rewrite Hs, Z.ltb_irrefl.
  unfold read_lba. rewrite (bind_OK _ _ _ (header_block h) d).
  2: { rewrite disk_read_one by (auto; lia). by rewrite Hb, Hblk by lia. }
  pose proof (ho_guid _ _ Hh) as Hg. rewrite length_header_block by done.
  change (Z.of_nat 512 <? 92) with false. unfold header_block.
  rewrite (decode_encode n) by done.
  rewrite (ho_sig _ _ Hh), (ho_size _ _ Hh), Z.eqb_refl. cbn [negb].
  change (92 <? 92) with false. change (512 <? 92) with false. cbn [orb].
  rewrite clear_crc, take_app_length' by (rewrite length_encode; [done|exact Hg]).
  replace (crc32_buf _) with (header_crc32 h) by (rewrite <- Hseal; done).
  by rewrite Z.eqb_refl.
Qed.

Lemma read_gpt_table_run d n f h tbl : gpt_on d n f h tbl ->
  read_gpt_table h GPT_TBL_BYTES d = (OK tbl, d).
Proof.
  intros [[Hi Hw Hs Hc Hb] Hn Hh Hseal Hblk Hl Ht]. unfold read_gpt_table.
  rewrite (bind_OK _ _ _ d d) by done. cbv beta.
  rewrite (ho_count _ _ Hh), (ho_esize _ _ Hh), (ho_table _ _ Hh), Hs.
  change (if _ <? _ then _ else _) with 16384. change (u32 (16384 + 512 - 1) / 512) with 32.
  unfold read_lba. rewrite disk_read_run by (auto; unfold GPT_TBL_BYTES; lia).
  rewrite <- Ht. do 3 f_equal. apply list_fmap_ext. intros i x Hx%lookup_seqZ. apply Hb. lia.
Qed.

(** Sectors of the header as [write_gpt_pair] builds them. *)
Lemma header_sector_run d h : header_size h = 92 -> length (disk_guid h) = 16%nat ->
  header_sector h d = (OK (header_block h), d) /\ sealed h d = (OK (seal h), d).
Proof.
  intros Hs Hg. unfold header_sector, sealed.
  assert (Hb : forall h', header_size h' = 92 -> length (disk_guid h') = 16%nat ->
    header_bytes h' d = (OK (encode h'), d)).
  { intros h' Hs' Hg'. unfold header_bytes. rewrite Hs'. change (92 <? 92) with false. unfold ret.
    do 2 f_equal. rewrite firstn_all2; [done|]. rewrite length_encode by done. done. }
  split.
  - bstep (Hb h Hs Hg). unfold header_block. by rewrite length_encode.
  - bstep (Hb (with_crcs (table_crc32 h) 0 h) Hs Hg). done.
Qed.

Lemma write_lba_run d n f lba k buf :
  disk_is d n f -> 0 <= lba -> 0 <= k -> lba + k <= n -> Z.of_nat (length buf) = k * 512 ->
  exists d', write_lba lba buf k d = (OK tt, d') /\ disk_is d' n (patched lba k buf f).
Proof.
  intros Hd ? ? ? ?. destruct (put_blocks_run d n f lba k buf) as (d' & Hr & Hd'); auto.
  exists d'. split; [|done]. unfold write_lba. rewrite (bind_OK _ _ _ d d) by done. cbv beta.
  by rewrite (di_writable _ _ _ Hd).
Qed.

Lemma write_one_run d n f lba buf :
  disk_is d n f -> 0 <= lba < n -> length buf = 512%nat ->
  exists d', write_lba lba buf 1 d = (OK tt, d') /\ disk_is d' n (<[lba := buf]> f).
Proof.
  intros Hd ? Hl. destruct (write_lba_run d n f lba 1 buf) as (d' & Hr & Hd'); [done|lia..|].
  exists d'. split; [done|]. eapply disk_is_ext; [done|]. intros i _. unfold patched. case_decide.
  - replace i with lba by lia. rewrite fn_lookup_insert, Z.sub_diag, Z.mul_0_l, <- Hl. apply slice_full.
  - by rewrite fn_lookup_insert_ne by lia.
Qed.

Lemma write_gpt_pair_run d n f h tbl :
  disk_is d n f -> 67 <= n < 2 ^ 64 -> header_ok n h -> Z.of_nat (length tbl) = 16384 ->
  exists d', write_gpt_pair h tbl 32 d = (OK tt, d') /\ disk_is d' n (gpt_written n f h tbl).
Proof.
  intros Hd Hn Hh Hl. pose proof (primary_ok n h tbl Hh) as Hp.
  pose proof (ho_guid _ _ Hh) as Hg. unfold write_gpt_pair.
  rewrite (ho_count _ _ Hh), (ho_esize _ _ Hh). change (u32 (128 * 128)) with 16384.
  rewrite (proj2 (Z.ltb_ge _ _)) by lia. rewrite firstn_all2 by lia.
  bstep (proj2 (header_sector_run d (with_crcs (crc32_buf tbl) 0 h) (ho_size _ _ Hh) Hg)).
  fold (primary_of h tbl). rewrite (ho_table _ _ Hp), (ho_current _ _ Hp), (ho_backup _ _ Hp).
  destruct (write_lba_run d n f 2 32 tbl) as (d1 & Hr1 & Hd1); [done|lia..|]. bstep Hr1.
  bstep (proj1 (header_sector_run d1 (primary_of h tbl) (ho_size _ _ Hp) Hg)).
  destruct (write_one_run d1 n _ 1 (header_block (primary_of h tbl)) Hd1) as (d2 & Hr2 & Hd2);
    [lia|by apply length_header_block|]. bstep Hr2.
  rewrite u64_small by lia.
  bstep (proj2 (header_sector_run d2 (with_lbas (n - 1) 1 (n - 1 - 32) (primary_of h tbl)) (ho_size _ _ Hp) Hg)).
  replace (seal _) with (backup_of h tbl)
    by (unfold backup_of; by rewrite (ho_backup _ _ Hh), (ho_current _ _ Hh)).
  assert (Hbl : table_lba (backup_of h tbl) = n - 33 /\ current_lba (backup_of h tbl) = n - 1 /\
    header_size (backup_of h tbl) = 92 /\ length (disk_guid (backup_of h tbl)) = 16%nat)
    by (cbn; rewrite (ho_backup _ _ Hh), (ho_size _ _ Hh), Hg; lia).
  destruct Hbl as (-> & -> & Hbs & Hbg).
  destruct (write_lba_run d2 n _ (n - 33) 32 tbl Hd2) as (d3 & Hr3 & Hd3); [lia..|]. bstep Hr3.
  bstep (proj1 (header_sector_run d3 (backup_of h tbl) Hbs Hbg)).
  destruct (write_one_run d3 n _ (n - 1) (header_block (backup_of h tbl)) Hd3) as (d4 & Hr4 & Hd4);
    [lia|by apply length_header_block|].
  exists d4. done.
Qed.

(** What is written is a GPT with both its copies; the data blocks are kept. *)
Lemma gpt_written_on d n f h tbl :
  disk_is d n (gpt_written n f h tbl) -> 67 <= n < 2 ^ 64 -> header_ok n h -> Z.of_nat (length tbl) = 16384 ->
  gpt_on d n (gpt_written n f h tbl) (primary_of h tbl) tbl /\ backup_on n (gpt_written n f h tbl) h tbl /\
  forall i, data_block n i -> gpt_written n f h tbl i = f i.
Proof.
  intros Hd Hn Hh Hl.
  assert (Htab : forall lba, lba = 2 \/ lba = n - 33 ->
    concat (gpt_written n f h tbl <$> seqZ lba 32) = tbl).
  { intros lba Hlba. etransitivity; [|apply (concat_slices_seqZ tbl lba 512 32); lia].
    f_equal. apply list_fmap_ext. intros i x Hx%lookup_seqZ. unfold gpt_written, patched.
    rewrite fn_lookup_insert_ne by lia. case_decide; [by destruct Hlba; [lia|subst]|].
    rewrite fn_lookup_insert_ne by lia. rewrite decide_True by lia. by destruct Hlba; [subst|lia]. }
  split; [split|split; [split|]]; auto.
  - by apply primary_ok.
  - unfold gpt_written, patched. rewrite fn_lookup_insert_ne by lia. rewrite decide_False by lia.
    by rewrite fn_lookup_insert.
  - unfold gpt_written. by rewrite fn_lookup_insert.
  - intros i Hi. unfold data_block in Hi. unfold gpt_written, patched.
    rewrite fn_lookup_insert_ne, decide_False by lia. by rewrite fn_lookup_insert_ne, decide_False by lia.
Qed.

Lemma backup_on_primary n f h tbl : backup_on n f h tbl -> backup_on n f (primary_of h tbl) tbl.
Proof. intros [Hb1 Hb2]. by split. Qed.

Lemma detect_gpt_run d n f h tbl : gpt_on d n f h tbl ->
  canboot_part_detect d = (OK CANBOOT_PART_SCHEME_GPT, d).
Proof.
  intros Hg. unfold canboot_part_detect.
  by bstep (attempt_OK _ _ _ _ (read_gpt_header_run d n f h tbl Hg)).
Qed.

(** ** Entries of the table *)
Lemma entry_at_run tbl i : Z.of_nat (length tbl) = 16384 -> 0 <= i < 128 ->
  gpt_entry_at (u32 (i * 128)) tbl = Some (entry tbl i).
Proof.
  intros Hl Hi. rewrite u32_small by lia. unfold gpt_entry_at. rewrite (proj2 (Z.leb_le _ _)) by lia. done.
Qed.

Lemma list_gpt_loop_run tbl (left : nat) i max d :
  Z.of_nat (length tbl) = 16384 -> 0 <= i -> i + Z.of_nat left = 128 ->
  list_gpt_loop left i 128 max tbl d =
  (OK (take (Z.to_nat max) (parts (entry tbl <$> seqZ i (Z.of_nat left)))), d).
Proof.
  intros Hl. revert i max. induction left as [|left IH]; intros i max Hi Hs; [by destruct (Z.to_nat max)|].
  cbn [list_gpt_loop]. destruct (Z.leb_spec max 0) as [Hm|Hm].
  { by replace (Z.to_nat max) with 0%nat by lia. }
  rewrite entry_at_run by lia. cbn [from_opt]. rewrite bind_ret. rewrite seqZ_cons by lia.
  replace (Z.pred (Z.of_nat (S left))) with (Z.of_nat left) by lia. replace (Z.succ i) with (i + 1) by lia.
  cbn [fmap list_fmap]. unfold parts. rewrite filter_cons.
  assert (Hu : used (entry tbl i) = negb (guid_empty (type_guid (entry tbl i)))) by done.
  destruct (guid_empty (type_guid (entry tbl i))) eqn:E; cbn [negb] in Hu.
  - rewrite decide_False by congruence. by rewrite IH by lia.
  - rewrite decide_True by done. rewrite (bind_OK _ _ _ _ _ (IH (i + 1) (max - 1) ltac:(lia) ltac:(lia))).
    replace (Z.to_nat max) with (S (Z.to_nat (max - 1))) by lia. done.
Qed.

Lemma list_run d n f h tbl max : gpt_on d n f h tbl ->
  canboot_part_list max d = (OK (take (Z.to_nat max) (parts (entries tbl))), d).
Proof.
  intros Hg. unfold canboot_part_list. bstep (detect_gpt_run d n f h tbl Hg). rewrite Z.eqb_refl. unfold list_gpt.
  bstep (read_gpt_header_run d n f h tbl Hg). bstep (read_gpt_table_run d n f h tbl Hg).
  rewrite (ho_count _ _ (go_header _ _ _ _ _ Hg)), (ho_esize _ _ (go_header _ _ _ _ _ Hg)).
  apply (list_gpt_loop_run tbl 128); [apply (go_length _ _ _ _ _ Hg)|lia..].
Qed.

(** The entries before [i] are used, [i] is free. *)
Lemma free_entry_run tbl (left : nat) i A e B d :
  Z.of_nat (length tbl) = 16384 -> 0 <= i -> i + Z.of_nat left = 128 ->
  entry tbl <$> seqZ i (Z.of_nat left) = A ++ e :: B -> forallb used A = true -> used e = false ->
  free_entry left i 128 tbl d = (OK (i + Z.of_nat (length A)), d).
Proof.
  intros Hl. revert i A. induction left as [|left IH]; intros i A Hi Hs He HA Hf; [by destruct A|].
  cbn [free_entry]. rewrite entry_at_run by lia. cbn [from_opt]. rewrite bind_ret.
  rewrite seqZ_cons in He by lia. cbn [fmap list_fmap] in He.
  replace (Z.pred (Z.of_nat (S left))) with (Z.of_nat left) in He by lia.
  replace (Z.succ i) with (i + 1) in He by lia. unfold used in *.
  destruct A as [|a A]; cbn in He; injection He as He1 He2.
  - rewrite He1. apply negb_false_iff in Hf. rewrite Hf. by rewrite Z.add_0_r.
  - cbn in HA. apply andb_true_iff in HA as [Ha HA]. rewrite He1. apply negb_true_iff in Ha. rewrite Ha.
    rewrite (IH (i + 1) A) by (auto; lia). cbn. do 2 f_equal. lia.
Qed.

Lemma length_entries tbl : length (entries tbl) = 128%nat.
Proof. unfold entries. by rewrite length_fmap, length_seqZ. Qed.

(** Overwriting one entry. *)
Lemma entries_splice tbl A e e' B :
  Z.of_nat (length tbl) = 16384 -> entries tbl = A ++ e :: B -> length e' = 128%nat ->
  entries (splice (Z.to_nat (Z.of_nat (length A) * 128)) e' tbl) = A ++ e' :: B.
Proof.
  intros Hl He He'. pose proof (length_entries tbl) as Hn. rewrite He, length_app in Hn. cbn in Hn.
  apply list_eq_lookup_lt; [by rewrite length_entries, length_app|]. rewrite length_entries. intros k Hk.
  assert (Hlk : forall t, entries t !! k = Some (entry t (Z.of_nat k))).
  { intros t. unfold entries. rewrite list_lookup_fmap, lookup_seqZ_lt by lia. cbn. do 2 f_equal. }
  rewrite Hlk. destruct (decide (k = length A)) as [->|Hne].
  - rewrite list_lookup_middle by done. f_equal. unfold entry. rewrite <- He'.
    by rewrite slice_splice_same by lia.
  - replace ((A ++ e' :: B) !! k) with ((A ++ e :: B) !! k).
    + rewrite <- He, Hlk. f_equal. unfold entry. apply slice_splice_other; lia.
    + destruct (decide (k < length A)%nat); [by rewrite !lookup_app_l by lia|].
      rewrite !lookup_app_r by lia. destruct (k - length A)%nat eqn:E; [lia|done].
Qed.
End gpt_runs.

(** ** New entries *)
Lemma units_name cs (k : nat) :
  Forall (fun c => 0 < c < 128) cs -> (length cs <= k)%nat ->
  units k (concat (le_enc 2 <$> cs) ++ replicate (2 * (k - length cs)) 0) = cs ++ replicate (k - length cs) 0.
Proof.
  intros Hc. revert k. induction Hc as [|c cs Hc _ IH]; intros k Hk; cbn [length] in *.
  - cbn [fmap list_fmap concat app]. rewrite Nat.sub_0_r. clear Hk. induction k as [|k IHk]; [done|].
    replace (2 * S k)%nat with (S (S (2 * k))) by lia. cbn [units replicate]. f_equal. apply IHk.
  - destruct k as [|k]; [lia|]. cbn [fmap list_fmap concat units Nat.sub]. rewrite <- app_assoc.
    rewrite take_app_length', drop_app_length' by done.
    rewrite le_dec_enc, Z.mod_small by (cbn; lia). cbn [app]. f_equal. apply IH. lia.
Qed.

Lemma ascii_name cs cap m : Forall (fun c => 0 < c < 128) cs -> Z.of_nat (length cs) < cap ->
  utf16le_to_ascii (cs ++ replicate m 0) cap = cs.
Proof.
  intros Hc. revert cap. induction Hc as [|c cs Hc _ IH]; intros cap Hl; cbn [length] in *.
  - destruct m; cbn; [done|]. by destruct (cap <=? 1).
  - cbn [app utf16le_to_ascii]. rewrite (proj2 (Z.leb_gt _ _)) by lia.
    rewrite (proj2 (Z.eqb_neq c 0)) by lia. rewrite (proj2 (Z.ltb_lt c 128)) by lia.
    f_equal. apply IH. lia.
Qed.

Lemma length_utf16_name name : length (utf16_name name) = 72%nat.
Proof.
  unfold utf16_name. set (cs := take 35 _). assert (length cs <= 35)%nat by (unfold cs; rewrite length_take; lia).
  rewrite length_app, length_replicate.
  rewrite (length_concat_const (le_enc 2) cs 2) by (intros; apply length_le_enc). lia.
Qed.

Lemma length_new_entry i s t name : length (new_entry i s t name) = 128%nat.
Proof. unfold new_entry. rewrite !length_app, !length_le_enc, length_utf16_name. done. Qed.

(** How a new entry reads back. *)
Lemma gpt_part_new i s t name :
  0 <= s <= t -> t < 2 ^ 64 -> Forall (fun c => 0 < c < 128) name -> (length name <= 35)%nat ->
  gpt_part (new_entry i s t (Some name)) =
  mkPart s t (u64 (t - s + 1)) 0 CANBOOT_GPT_TYPE_BASIC_DATA name 0 CANBOOT_PART_SCHEME_GPT.
Proof.
  intros Hs Ht Hc Hl. pose proof (length_utf16_name (Some name)) as Hn.
  assert (Hstart : e_start (new_entry i s t (Some name)) = s).
  { transitivity (le_dec (le_enc 8 s)); [done|]. rewrite le_dec_enc. apply Z.mod_small. cbn. lia. }
  assert (Hend : e_end (new_entry i s t (Some name)) = t).
  { transitivity (le_dec (le_enc 8 t)); [done|]. rewrite le_dec_enc. apply Z.mod_small. cbn. lia. }
  unfold gpt_part. rewrite Hstart, Hend. f_equal. unfold e_name.
  replace (slice 56 72 _) with (utf16_name (Some name)).
  2: { symmetry. transitivity (take 72 (utf16_name (Some name))); [done|]. rewrite firstn_all2; [done|lia]. }
  unfold utf16_name. cbn [from_option].
  rewrite cstr_text by (eapply Forall_impl; [exact Hc|cbn; lia]).
  rewrite firstn_all2 by done. replace (72 - 2 * length name)%nat with (2 * (36 - length name))%nat by lia.
  rewrite units_name by (auto; lia). apply ascii_name; [done|]. lia.
Qed.

Lemma parts_app es es' : parts (es ++ es') = parts es ++ parts es'.
Proof. unfold parts. by rewrite filter_app, fmap_app. Qed.

Lemma parts_free e es : used e = false -> parts (e :: es) = parts es.
Proof. intros Hu. unfold parts. rewrite filter_cons_False; [done|congruence]. Qed.

Lemma parts_used e es : used e = true -> parts (e :: es) = gpt_part e :: parts es.
Proof. intros Hu. unfold parts. by rewrite filter_cons_True. Qed.

Section gpt_theorems.
Context {D : Type} `{BlockDevice D} `{!BlockDeviceLaws D}.
Implicit Types (d : D) (n : Z) (f : Z -> list Z) (h : gpt_header) (tbl : list Z).

(** Rewriting entry [length A] of a GPT. *)
Lemma rewrite_entry_run d n f h tbl A e e' B :
  gpt_on d n f h tbl -> entries tbl = A ++ e :: B -> length e' = 128%nat ->
  exists d' f' h' tbl',
    write_gpt_pair h (splice (Z.to_nat (u32 (Z.of_nat (length A) * 128))) e' tbl) (table_sectors d) d = (OK tt, d') /\
    gpt_on d' n f' h' tbl' /\ backup_on n f' h' tbl' /\ entries tbl' = A ++ e' :: B /\
    forall i, data_block n i -> bd_blk d' i = bd_blk d i.
Proof.
  intros Hg He Hl. pose proof (length_entries tbl) as Hn. rewrite He, length_app in Hn. cbn in Hn.
  destruct Hg as [Hd Hn' Hh Hseal Hblk Hlt Htab]. rewrite u32_small by lia.
  set (tbl' := splice (Z.to_nat (Z.of_nat (length A) * 128)) e' tbl).
  assert (Hl' : Z.of_nat (length tbl') = 16384) by (unfold tbl'; rewrite length_splice; lia).
  assert (Hts : table_sectors d = 32) by (unfold table_sectors; by rewrite (di_size _ _ _ Hd)). rewrite Hts.
  destruct (write_gpt_pair_run d n f h tbl' Hd Hn' Hh Hl') as (d' & Hr & Hd').
  destruct (gpt_written_on d' n f h tbl' Hd' Hn' Hh Hl') as (Hg' & Hb' & Hsame).
  exists d', (gpt_written n f h tbl'), (primary_of h tbl'), tbl'. split; [done|]. split; [done|].
  split; [by apply backup_on_primary|]. split; [by eapply entries_splice|].
  intros i Hi. assert (0 <= i < n) by (unfold data_block in Hi; lia).
  rewrite (di_blocks _ _ _ Hd'), (di_blocks _ _ _ Hd) by done. by apply Hsame.
Qed.


(** Deleting entry [idx] of a GPT disk takes it out of the listing and
    changes nothing else of it; the table keeps valid checksums and an equal
    backup copy, and no data block changes. *)
Theorem gpt_delete_lists d n f h tbl A e B max :
  gpt_on d n f h tbl -> entries tbl = A ++ e :: B ->
  exists d' f' h' tbl',
    canboot_part_delete (Z.of_nat (length A)) d = (OK tt, d') /\
    gpt_on d' n f' h' tbl' /\ backup_on n f' h' tbl' /\
    canboot_part_list max d' = (OK (take (Z.to_nat max) (parts A ++ parts B)), d') /\
    forall i, data_block n i -> bd_blk d' i = bd_blk d i.
Proof.
  intros Hg He. pose proof (go_header _ _ _ _ _ Hg) as Hh.
  pose proof (length_entries tbl) as Hn. rewrite He, length_app in Hn. cbn in Hn.
  destruct (rewrite_entry_run d n f h tbl A e (le_enc 128 0) B Hg He (length_le_enc _ _))
    as (d' & f' & h' & tbl' & Hr & Hg' & Hb' & He' & Hsame).
  exists d', f', h', tbl'. split; [|do 2 (split; [done|]); split; [|done]].
  - unfold canboot_part_delete. rewrite (bind_OK _ _ _ d d) by done. cbv beta.
    rewrite (di_writable _ _ _ (go_disk _ _ _ _ _ Hg)). cbn [negb].
    bstep (detect_gpt_run d n f h tbl Hg). change (CANBOOT_PART_SCHEME_GPT =? CANBOOT_PART_SCHEME_MBR) with false.
    rewrite Z.eqb_refl. bstep (read_gpt_header_run d n f h tbl Hg).
    rewrite (ho_count _ _ Hh), (ho_esize _ _ Hh). rewrite (proj2 (Z.leb_gt _ _)) by lia.
    bstep (read_gpt_table_run d n f h tbl Hg).
    pose proof (go_length _ _ _ _ _ Hg) as Hlt.
    rewrite (putle_Some 128) by (rewrite u32_small; lia). exact Hr.
  - rewrite (list_run d' n f' h' tbl' max Hg'), He', parts_app. by rewrite parts_free.
Qed.

(** Shrinking or growing an entry: its last eight bytes before the attributes. *)
Definition resized (e : list Z) (t : Z) : list Z := splice 40 (le_enc 8 t) e.

Lemma splice_entry tbl i t : Z.of_nat (length tbl) = 16384 -> 0 <= i < 128 ->
  splice (Z.to_nat (i * 128 + 40)) (le_enc 8 t) tbl =
  splice (Z.to_nat (i * 128)) (resized (entry tbl i) t) tbl.
Proof.
  intros Hl Hi. assert (He : length (entry tbl i) = 128%nat) by (apply length_slice; lia).
  assert (Hr : length (resized (entry tbl i) t) = 128%nat)
    by (unfold resized; rewrite length_splice; rewrite ?length_le_enc; lia).
  apply list_eq_lookup_lt; rewrite !length_splice by (rewrite ?length_le_enc, ?Hr; lia); [done|].
  intros k Hk. destruct (decide (Z.to_nat (i * 128) <= k < Z.to_nat (i * 128) + 128)%nat).
  - rewrite (lookup_splice_in (Z.to_nat (i * 128))) by (rewrite Hr; lia). unfold resized.
    destruct (decide (40 <= k - Z.to_nat (i * 128) < 48)%nat).
    + rewrite !lookup_splice_in by (rewrite length_le_enc; lia). f_equal. lia.
    + rewrite !lookup_splice_out by (rewrite length_le_enc; lia). unfold entry.
      rewrite lookup_slice by lia. f_equal. lia.
  - rewrite !lookup_splice_out by (rewrite ?Hr, ?length_le_enc; lia). done.
Qed.

Lemma resized_fields e t : length e = 128%nat -> 0 <= t < 2 ^ 64 ->
  type_guid (resized e t) = type_guid e /\ e_start (resized e t) = e_start e /\
  e_end (resized e t) = t /\ e_name (resized e t) = e_name e.
Proof.
  intros He Ht. unfold type_guid, e_start, e_end, e_name, resized.
  rewrite (slice_splice_other _ _ _ 0), (slice_splice_other _ _ _ 32), (slice_splice_other _ _ _ 56)
    by (rewrite ?length_le_enc; lia). do 2 (split; [done|]). split; [|done].
  replace (slice 40 8 _) with (le_enc 8 t).
  - rewrite le_dec_enc. by apply Z.mod_small.
  - symmetry. apply (slice_splice_same 40 (le_enc 8 t) e). rewrite length_le_enc. lia.
Qed.

(** Resizing a used entry of a GPT disk to any end not before its start
    succeeds, whatever the other entries hold and whatever the size of the
    disk: the listing shows the entry with the new end, even where it overlaps
    a neighbour or ends past the last block. *)
Theorem gpt_resize_unchecked d n f h tbl A e B t max :
  gpt_on d n f h tbl -> entries tbl = A ++ e :: B -> used e = true -> e_start e <= t < 2 ^ 64 -> 0 <= e_start e ->
  exists d' f' h' tbl',
    canboot_part_resize (Z.of_nat (length A)) t d = (OK tt, d') /\
    gpt_on d' n f' h' tbl' /\ backup_on n f' h' tbl' /\
    canboot_part_list max d' =
      (OK (take (Z.to_nat max) (parts A ++
         mkPart (e_start e) t (u64 (t - e_start e + 1)) 0 (type_guid e) (e_name e) 0 CANBOOT_PART_SCHEME_GPT
         :: parts B)), d') /\
    forall i, data_block n i -> bd_blk d' i = bd_blk d i.
Proof.
  intros Hg He Hu Ht Hs. pose proof (go_header _ _ _ _ _ Hg) as Hh. pose proof (go_length _ _ _ _ _ Hg) as Hlt.
  pose proof (length_entries tbl) as Hn. rewrite He, length_app in Hn. cbn in Hn.
  assert (Hei : entry tbl (Z.of_nat (length A)) = e).
  { assert (Hx : entries tbl !! length A = Some e) by (rewrite He; by apply list_lookup_middle).
    unfold entries in Hx. rewrite list_lookup_fmap, lookup_seqZ_lt in Hx by lia. by injection Hx. }
  assert (Hel : length e = 128%nat) by (rewrite <- Hei; apply length_slice; lia).
  destruct (resized_fields e t Hel ltac:(lia)) as (Hty & Hst & Hen & Hnm).
  destruct (rewrite_entry_run d n f h tbl A e (resized e t) B Hg He)
    as (d' & f' & h' & tbl' & Hr & Hg' & Hb' & He' & Hsame).
  { unfold resized. rewrite length_splice; rewrite ?length_le_enc; lia. }
  exists d', f', h', tbl'. split; [|do 2 (split; [done|]); split; [|done]].
  - unfold canboot_part_resize. rewrite (bind_OK _ _ _ d d) by done. cbv beta.
    rewrite (di_writable _ _ _ (go_disk _ _ _ _ _ Hg)). cbn [negb].
    bstep (detect_gpt_run d n f h tbl Hg). change (CANBOOT_PART_SCHEME_GPT =? CANBOOT_PART_SCHEME_MBR) with false.
    rewrite Z.eqb_refl. bstep (read_gpt_header_run d n f h tbl Hg).
    rewrite (ho_count _ _ Hh), (ho_esize _ _ Hh). rewrite (proj2 (Z.leb_gt _ _)) by lia.
    bstep (read_gpt_table_run d n f h tbl Hg). rewrite entry_at_run by lia. cbn [from_opt]. rewrite bind_ret, Hei.
    unfold used in Hu. apply negb_true_iff in Hu. rewrite Hu. rewrite (proj2 (Z.ltb_ge _ _)) by lia.
    rewrite u32_small in * by lia. rewrite putle_Some by lia. cbn [from_opt]. rewrite bind_ret.
    rewrite splice_entry by lia. rewrite Hei. exact Hr.
  - rewrite (list_run d' n f' h' tbl' max Hg'), He', parts_app.
    rewrite parts_used by (unfold used in *; by rewrite Hty). unfold gpt_part.
    by rewrite Hty, Hst, Hen, Hnm.
Qed.

Lemma fresh_header_ok n : 67 <= n < 2 ^ 64 -> header_ok n (fresh_header n 32).
Proof. intros. split; first [reflexivity | cbn -[Z.pow]; lia]. Qed.

Lemma zero_table_free : parts (entries (replicate (Z.to_nat GPT_TBL_BYTES) 0)) = [].
Proof. vm_compute. reflexivity. Qed.

Lemma zero_table_length : Z.of_nat (length (replicate (Z.to_nat GPT_TBL_BYTES) 0)) = 16384.
Proof. rewrite length_replicate. done. Qed.

Lemma init_gpt_run d n f : disk_is d n f -> 67 <= n < 2 ^ 64 ->
  exists d' f' h', canboot_part_init_gpt d = (OK tt, d') /\
    gpt_on d' n f' h' (replicate (Z.to_nat GPT_TBL_BYTES) 0) /\
    backup_on n f' h' (replicate (Z.to_nat GPT_TBL_BYTES) 0) /\
    forall i, data_block n i -> bd_blk d' i = bd_blk d i.
Proof.
  intros Hd Hn. unfold canboot_part_init_gpt. rewrite (bind_OK _ _ _ d d) by done. cbv beta.
  rewrite (di_writable _ _ _ Hd), (di_size _ _ _ Hd), (di_count _ _ _ Hd). cbn [negb].
  rewrite (proj2 (Z.ltb_ge _ _)) by lia.
  destruct (write_one_run d n f 0 (protective_mbr n) Hd) as (d1 & Hr1 & Hd1); [lia|done|]. cbn [negb Z.eqb Pos.eqb].
  bstep Hr1. change (u32 (GPT_TBL_BYTES + 512 - 1) / 512) with 32.
  pose proof (fresh_header_ok n Hn) as Hh. pose proof zero_table_length as Hl.
  set (tbl := replicate (Z.to_nat GPT_TBL_BYTES) 0) in *.
  destruct (write_gpt_pair_run d1 n _ _ tbl Hd1 Hn Hh Hl) as (d2 & Hr2 & Hd2).
  destruct (gpt_written_on d2 n _ _ tbl Hd2 Hn Hh Hl) as (Hg & Hb & Hsame).
  eexists d2, _, _. split; [exact Hr2|]. split; [exact Hg|]. split; [by apply backup_on_primary|].
  intros i Hi. assert (0 <= i < n /\ i <> 0) by (unfold data_block in Hi; lia).
  rewrite (di_blocks _ _ _ Hd2), (di_blocks _ _ _ Hd) by lia. rewrite Hsame by done.
  by rewrite fn_lookup_insert_ne by lia.
Qed.

(** Initialising a writable disk of 512-byte blocks, at least 67 of them
    so that the two tables do not overlap, gives an empty GPT with valid
    checksums and an equal backup copy, detected as GPT; the blocks between
    the two copies keep their contents. *)
Theorem init_gpt_valid d n f max : disk_is d n f -> 67 <= n < 2 ^ 64 ->
  exists d' f' h' tbl', canboot_part_init_gpt d = (OK tt, d') /\
    gpt_on d' n f' h' tbl' /\ backup_on n f' h' tbl' /\
    canboot_part_detect d' = (OK CANBOOT_PART_SCHEME_GPT, d') /\
    canboot_part_list max d' = (OK [], d') /\
    forall i, data_block n i -> bd_blk d' i = bd_blk d i.
Proof.
  intros Hd Hn. destruct (init_gpt_run d n f Hd Hn) as (d' & f' & h' & Hr & Hg & Hb & Hsame).
  eexists d', f', h', _. split; [done|]. split; [exact Hg|]. split; [exact Hb|].
  split; [by eapply detect_gpt_run|]. split; [|done].
  rewrite (list_run _ _ _ _ _ max Hg), zero_table_free. by rewrite take_nil.
Qed.

(** On a device whose blocks are longer than 512 bytes, as the 2048-byte
    blocks of a CD-ROM are, detecting the partition scheme reads one block
    into the 512-byte sector buffer and so writes past its end. *)
Theorem detect_overruns_long_blocks d : 512 < bd_block_size d -> canboot_part_detect d = (STUCK, d).
Proof.
  intros Hs. unfold canboot_part_detect.
  assert (Hh : attempt read_gpt_header d = (OK None, d)).
  { unfold attempt, read_gpt_header. rewrite (bind_OK _ _ _ d d) by done. cbv beta.
    by rewrite (proj2 (Z.ltb_lt _ _)) by lia. }
  bstep Hh. rewrite (bind_STUCK _ _ _ d); [done|]. unfold attempt, read_lba, disk_read.
  rewrite (bind_OK _ _ _ d d) by done. cbv beta. by rewrite (proj2 (Z.ltb_lt _ _)) by lia.
Qed.
End gpt_theorems.

(** ** Instances *)
(** A blank disk of 80 blocks, and the disk after an initialisation. *)
Definition blank80 : ramdisk := mkRam CANBOOT_DISK_KIND_AHCI 512 true (replicate 80 (replicate 512 0)).

Lemma blank80_is : disk_is blank80 80 (bd_blk blank80).
Proof.
  split; [|done..]. split; [done|]. split; [done|]. apply Forall_replicate. done.
Qed.

Definition gpt80 : ramdisk := snd (canboot_part_init_gpt blank80).
Definition zero_table : list Z := replicate (Z.to_nat GPT_TBL_BYTES) 0.

Lemma gpt80_on : exists f h, gpt_on gpt80 80 f h zero_table.
Proof.
  destruct (init_gpt_run blank80 80 _ blank80_is) as (d' & f' & h' & Hr & Hg & _); [lia|].
  exists f', h'. unfold gpt80. rewrite Hr. exact Hg.
Qed.

Definition free_entries : list (list Z) := replicate 127 (replicate 128 0).

Lemma zero_entries : entries zero_table = [] ++ replicate 128 0 :: free_entries.
Proof. vm_compute. reflexivity. Qed.

Lemma init_gpt_valid_witness :
  canboot_part_detect gpt80 = (OK CANBOOT_PART_SCHEME_GPT, gpt80) /\ canboot_part_list 16 gpt80 = (OK [], gpt80).
Proof.
  destruct (init_gpt_valid blank80 80 _ 16 blank80_is) as (d' & f' & h' & tbl' & Hr & _ & _ & Hd & Hl & _); [lia|].
  unfold gpt80. rewrite Hr. split; [exact Hd|exact Hl].
Defined.

(** The first partition of the fresh table, and the table with it. *)
Definition boot_part : canboot_partition :=
  mkPart 34 41 8 0 CANBOOT_GPT_TYPE_BASIC_DATA (str "boot") 0 CANBOOT_PART_SCHEME_GPT.


Lemma gpt_delete_lists_witness : exists d',
  canboot_part_delete 0 gpt80 = (OK tt, d') /\ canboot_part_list 16 d' = (OK [], d').
Proof.
  destruct gpt80_on as (f & h & Hg).
  destruct (gpt_delete_lists gpt80 80 f h zero_table [] (replicate 128 0) free_entries 16)
    as (d' & f' & h' & tbl' & Hr & _ & _ & Hl & _); [exact Hg|exact zero_entries|].
  exists d'. split; [exact Hr|]. rewrite Hl. vm_compute. reflexivity.
Defined.

(** A table with two neighbours, the first of which is grown over the second
    and past the end of the disk. *)
Definition part_a : list Z := new_entry 0 34 41 (Some (str "a")).
Definition part_b : list Z := new_entry 1 42 45 (Some (str "b")).
Definition two_table : list Z := part_a ++ part_b ++ replicate (126 * 128) 0.
Definition two_parts : ramdisk := snd (write_gpt_pair (fresh_header 80 32) two_table 32 blank80).

Lemma two_entries : entries two_table = [] ++ part_a :: part_b :: replicate 126 (replicate 128 0).
Proof. vm_compute. reflexivity. Qed.

Lemma two_parts_on : exists f h, gpt_on two_parts 80 f h two_table.
Proof.
  assert (Hl : Z.of_nat (length two_table) = 16384) by (vm_compute; reflexivity).
  pose proof (fresh_header_ok 80 ltac:(lia)) as Hh.
  destruct (write_gpt_pair_run blank80 80 _ _ two_table blank80_is ltac:(lia) Hh Hl) as (d' & Hr & Hd).
  destruct (gpt_written_on d' 80 _ _ two_table Hd ltac:(lia) Hh Hl) as (Hg & _).
  unfold two_parts. rewrite Hr. eexists _, _. exact Hg.
Qed.

Lemma gpt_resize_unchecked_witness : exists d' a b,
  canboot_part_resize 0 1000 two_parts = (OK tt, d') /\
  canboot_part_list 16 d' = (OK [a; b], d') /\ (start_lba a, end_lba a) = (34, 1000) /\ (start_lba b, end_lba b) = (42, 45).
Proof.
  destruct two_parts_on as (f & h & Hg).
  destruct (gpt_resize_unchecked two_parts 80 f h two_table [] part_a (part_b :: replicate 126 (replicate 128 0)) 1000 16)
    as (d' & f' & h' & tbl' & Hr & _ & _ & Hl & _);
    [exact Hg|exact two_entries|reflexivity|split; [apply Z.leb_le|]; reflexivity|apply Z.leb_le; reflexivity|].
  exists d'. eexists _, _. split; [exact Hr|]. split; [rewrite Hl; vm_compute; reflexivity|]. split; reflexivity.
Defined.

(** A CD-ROM of 2048-byte blocks. *)
Definition cdrom16 : ramdisk := mkRam CANBOOT_DISK_KIND_CDROM 2048 false (replicate 16 (replicate 2048 0)).

Lemma detect_overruns_long_blocks_witness : canboot_part_detect cdrom16 = (STUCK, cdrom16).
Proof. apply (detect_overruns_long_blocks cdrom16). cbn. lia. Defined.

(** On a disk of 64 blocks, which [canboot_part_init_gpt] accepts, the backup
    table lies over the end of the primary one: a partition is listed twice. *)
Definition blank64 : ramdisk := mkRam CANBOOT_DISK_KIND_AHCI 512 true (replicate 64 (replicate 512 0)).

Lemma small_disk_lists_twice :
  match canboot_part_create 34 35 0 None blank64 with
  | (OK i, d) => (i, fst (canboot_part_list 16 d))
  | _ => (-1, ERR)
  end = (0, let p := mkPart 34 35 2 0 CANBOOT_GPT_TYPE_BASIC_DATA [] 0 CANBOOT_PART_SCHEME_GPT in OK [p; p]).
Proof. vm_compute. reflexivity. Qed.
