(* ===== verification/Input.v ===== *)
(** * The input queue and the pointer, [hal/input/input_queue.c]

    Drivers push key events into one ring of 256 slots and pointer motion into
    one mouse state; consumers poll.  A driver's pump is a function pointer:
    here a number, run by [run_pump] on the input state and the rest of the
    machine [W].  What the queue asks of a pump is the class [PumpLaw]: it
    touches the input state only through the functions drivers may call. *)
From S2P Require Import Prelude Bytes.

(** [enum canboot_event_type], [enum canboot_event_source]. *)
Abbreviation CANBOOT_EV_KEY_DOWN := 1 (only parsing).
Abbreviation CANBOOT_EV_KEY_UP := 2 (only parsing).
Abbreviation CANBOOT_EV_SRC_PS2 := 1 (only parsing).

Record canboot_event : Type := mkEvent {
  type : Z;
  source : Z;
  code : Z;
  raw : Z;
  value : Z;
  x : Z;
  y : Z;
}.

Abbreviation CANBOOT_KEY_ESC := 0x101 (only parsing).
Abbreviation CANBOOT_KEY_ENTER := 0x102 (only parsing).
Abbreviation CANBOOT_KEY_BACKSP := 0x103 (only parsing).
Abbreviation CANBOOT_KEY_TAB := 0x104 (only parsing).
Abbreviation CANBOOT_KEY_LSHIFT := 0x110 (only parsing).
Abbreviation CANBOOT_KEY_RSHIFT := 0x111 (only parsing).
Abbreviation CANBOOT_KEY_LCTRL := 0x112 (only parsing).
Abbreviation CANBOOT_KEY_RCTRL := 0x113 (only parsing).
Abbreviation CANBOOT_KEY_LALT := 0x114 (only parsing).
Abbreviation CANBOOT_KEY_RALT := 0x115 (only parsing).
Abbreviation CANBOOT_KEY_CAPS := 0x116 (only parsing).
Abbreviation CANBOOT_KEY_UP := 0x120 (only parsing).
Abbreviation CANBOOT_KEY_DOWN := 0x121 (only parsing).
Abbreviation CANBOOT_KEY_LEFT := 0x122 (only parsing).
Abbreviation CANBOOT_KEY_RIGHT := 0x123 (only parsing).

Abbreviation CANBOOT_MOUSE_LEFT := 1 (only parsing).
Abbreviation CANBOOT_MOUSE_RIGHT := 2 (only parsing).
Abbreviation CANBOOT_MOUSE_MIDDLE := 4 (only parsing).

Abbreviation CANBOOT_INPUT_QUEUE_SIZE := 256 (only parsing).
Abbreviation CANBOOT_INPUT_MAX_DEVS := 4 (only parsing).

(** The pointer. *)
Record mouse : Type := mkMouse {
  g_mouse_x : Z;
  g_mouse_y : Z;
  g_mouse_buttons : Z;
  g_mouse_wheel : Z;
  g_mouse_present : bool;
  g_mouse_init : bool;
}.

(** The static variables of the file; [dev_pumps] holds the first [dev_count]. *)
Record input : Type := mkInput {
  q_events : list canboot_event;
  q_head : Z;
  q_tail : Z;
  q_total : Z;
  q_dropped : Z;
  dev_pumps : list Z;
  pointer : mouse;
}.

Definition set_ring (evs : list canboot_event) (h t n dr : Z) (i : input) : input :=
  mkInput evs h t n dr (dev_pumps i) (pointer i).
Definition set_pointer (m : mouse) (i : input) : input :=
  mkInput (q_events i) (q_head i) (q_tail i) (q_total i) (q_dropped i) (dev_pumps i) m.

(** ** The ring *)
Definition canboot_input_register_pump (fn : Z) (i : input) : input :=
  if fn =? 0 then i
  else if CANBOOT_INPUT_MAX_DEVS <=? Z.of_nat (length (dev_pumps i)) then i
  else mkInput (q_events i) (q_head i) (q_tail i) (q_total i) (q_dropped i) (dev_pumps i ++ [fn]) (pointer i).

Definition canboot_input_push (ev : canboot_event) (i : input) : input :=
  let next := Z.land (u32 (q_head i + 1)) (CANBOOT_INPUT_QUEUE_SIZE - 1) in
  if next =? q_tail i
  then set_ring (q_events i) (q_head i) (q_tail i) (q_total i) (u32 (q_dropped i + 1)) i
  else set_ring (<[Z.to_nat (q_head i) := ev]> (q_events i)) next (q_tail i) (u32 (q_total i + 1)) (q_dropped i) i.

(** The part of [hal_input_poll] after the pump: take the oldest event. *)
Definition take_event (i : input) : option canboot_event * input :=
  if q_tail i =? q_head i then (None, i)
  else (q_events i !! Z.to_nat (q_tail i),
        set_ring (q_events i) (q_head i) (Z.land (u32 (q_tail i + 1)) (CANBOOT_INPUT_QUEUE_SIZE - 1))
          (q_total i) (q_dropped i) i).

Definition canboot_input_total_events (i : input) : Z := q_total i.
Definition canboot_input_dropped_events (i : input) : Z := q_dropped i.

(** ** The pointer, on a display of [w] by [h] pixels *)
Definition clampi (v lo hi : Z) : Z := if v <? lo then lo else if hi <? v then hi else v.

Definition mouse_seed (w h : Z) (m : mouse) : mouse :=
  if g_mouse_init m then m
  else mkMouse (if 0 <? w then w / 2 else 0) (if 0 <? h then h / 2 else 0)
         (g_mouse_buttons m) (g_mouse_wheel m) (g_mouse_present m) true.

Definition mouse_clamp (w h : Z) (m : mouse) : mouse :=
  mkMouse (if 0 <? w then clampi (g_mouse_x m) 0 (w - 1) else g_mouse_x m)
    (if 0 <? h then clampi (g_mouse_y m) 0 (h - 1) else g_mouse_y m)
    (g_mouse_buttons m) (g_mouse_wheel m) (g_mouse_present m) (g_mouse_init m).

Definition canboot_input_mouse_move_rel (w h dx dy : Z) (m : mouse) : mouse :=
  let m := mouse_seed w h m in
  let m := mouse_clamp w h (mkMouse (s32 (g_mouse_x m + dx)) (s32 (g_mouse_y m + dy))
             (g_mouse_buttons m) (g_mouse_wheel m) (g_mouse_present m) (g_mouse_init m)) in
  mkMouse (g_mouse_x m) (g_mouse_y m) (g_mouse_buttons m) (g_mouse_wheel m) true (g_mouse_init m).

Definition canboot_input_mouse_move_abs (w h px py : Z) (m : mouse) : mouse :=
  let m := mouse_clamp w h (mkMouse px py (g_mouse_buttons m) (g_mouse_wheel m) (g_mouse_present m) true) in
  mkMouse (g_mouse_x m) (g_mouse_y m) (g_mouse_buttons m) (g_mouse_wheel m) true (g_mouse_init m).

Definition canboot_input_mouse_button (mask : Z) (down : bool) (m : mouse) : mouse :=
  mkMouse (g_mouse_x m) (g_mouse_y m)
    (if down then Z.lor (g_mouse_buttons m) mask else Z.land (g_mouse_buttons m) (u32 (Z.lnot mask)))
    (g_mouse_wheel m) true (g_mouse_init m).

Definition canboot_input_mouse_wheel (delta : Z) (m : mouse) : mouse :=
  mkMouse (g_mouse_x m) (g_mouse_y m) (g_mouse_buttons m) (s32 (g_mouse_wheel m + delta)) true (g_mouse_init m).

Definition canboot_input_mouse_state (w h : Z) (m : mouse) : (Z * Z * Z) * mouse :=
  let m := mouse_seed w h m in ((g_mouse_x m, g_mouse_y m, g_mouse_buttons m), m).

Definition canboot_input_mouse_take_wheel (m : mouse) : Z * mouse :=
  (g_mouse_wheel m,
   mkMouse (g_mouse_x m) (g_mouse_y m) (g_mouse_buttons m) 0 (g_mouse_present m) (g_mouse_init m)).

Definition canboot_input_mouse_present (m : mouse) : bool := g_mouse_present m.
Definition canboot_input_mouse_set_present (present : bool) (m : mouse) : mouse :=
  mkMouse (g_mouse_x m) (g_mouse_y m) (g_mouse_buttons m) (g_mouse_wheel m) present (g_mouse_init m).

(** [hal_input_init] resets everything but the slots of the ring. *)
Definition hal_input_init (i : input) : input :=
  mkInput (q_events i) 0 0 0 0 [] (mkMouse 0 0 0 0 false false).

(** ** Polling *)
(** What [hal_input_getc] makes of an event: [None] skips it. *)
Definition getc_of (ev : canboot_event) : option Z :=
  if negb (type ev =? CANBOOT_EV_KEY_DOWN) then None
  else if (0x20 <=? code ev) && (code ev <? 0x80) then Some (code ev)
  else if code ev =? CANBOOT_KEY_ENTER then Some 10
  else if code ev =? CANBOOT_KEY_BACKSP then Some 8
  else if code ev =? CANBOOT_KEY_TAB then Some 9
  else if (code ev =? CANBOOT_KEY_ESC) || (code ev =? CANBOOT_KEY_UP) || (code ev =? CANBOOT_KEY_DOWN)
          || (code ev =? CANBOOT_KEY_LEFT) || (code ev =? CANBOOT_KEY_RIGHT) then Some (code ev)
  else None.

Section polling.
Context {W : Type} (run_pump : Z -> input * W -> input * W).

Definition hal_input_pump (s : input * W) : input * W :=
  fold_left (fun s fn => run_pump fn s) (dev_pumps (fst s)) s.

Definition hal_input_poll : M (input * W) (option canboot_event) := fun s =>
  let '(i, w) := hal_input_pump s in
  let (ev, i') := take_event i in (OK ev, (i', w)).

Fixpoint hal_input_getc (fuel : nat) : M (input * W) Z :=
  match fuel with
  | O => nofuel
  | S k =>
      let! r := hal_input_poll in
      match r with
      | None => ret (-1)
      | Some ev => match getc_of ev with Some c => ret c | None => hal_input_getc k end
      end
  end.
End polling.

(** ** The ring as a bounded FIFO *)
#[export] Instance event_inhabited : Inhabited canboot_event := populate (mkEvent 0 0 0 0 0 0 0).

(** The queued events, oldest first. *)
Definition slot (i : input) (k : Z) : canboot_event := q_events i !!! Z.to_nat ((q_tail i + k) mod 256).
Definition queued (i : input) : Z := (q_head i - q_tail i) mod 256.
Definition queue (i : input) : list canboot_event := slot i <$> seqZ 0 (queued i).

Record ring_ok (i : input) : Prop := {
  ro_slots : length (q_events i) = 256%nat;
  ro_head : 0 <= q_head i < 256;
  ro_tail : 0 <= q_tail i < 256;
}.

(** A queue of at most 255 events that drops what does not fit, and counts. *)
Record fifo : Type := mkFifo { items : list canboot_event; accepted : Z; lost : Z }.

Definition fifo_push (ev : canboot_event) (f : fifo) : fifo :=
  if Z.of_nat (length (items f)) <? 255
  then mkFifo (items f ++ [ev]) (u32 (accepted f + 1)) (lost f)
  else mkFifo (items f) (accepted f) (u32 (lost f + 1)).

Definition fifo_take (f : fifo) : option canboot_event * fifo :=
  match items f with
  | [] => (None, f)
  | ev :: q => (Some ev, mkFifo q (accepted f) (lost f))
  end.

Definition fifo_of (i : input) : fifo := mkFifo (queue i) (q_total i) (q_dropped i).

(** Runs of pushes and takes, with what the takes return. *)
Inductive qop : Type := Push (ev : canboot_event) | Take.

Fixpoint qrun {S : Type} (push : canboot_event -> S -> S) (pop : S -> option canboot_event * S)
    (ops : list qop) (s : S) : list (option canboot_event) * S :=
  match ops with
  | [] => ([], s)
  | Push ev :: ops' => qrun push pop ops' (push ev s)
  | Take :: ops' =>
      let (r, s1) := pop s in let (rs, s2) := qrun push pop ops' s1 in (r :: rs, s2)
  end.

Lemma mask_mod v : Z.land v 255 = v mod 256.
Proof. apply (Z.land_ones v 8). lia. Qed.

Lemma next_slot h : 0 <= h < 256 -> Z.land (u32 (h + 1)) (CANBOOT_INPUT_QUEUE_SIZE - 1) = (h + 1) mod 256.
Proof.
  intros. change (CANBOOT_INPUT_QUEUE_SIZE - 1) with 255. rewrite mask_mod.
  by rewrite (u32_small (h + 1)) by lia.
Qed.

Lemma queued_range i : 0 <= queued i < 256.
Proof. apply Z.mod_pos_bound. lia. Qed.

Lemma length_queue i : Z.of_nat (length (queue i)) = queued i.
Proof. unfold queue. rewrite length_fmap, length_seqZ. pose proof (queued_range i). lia. Qed.

Lemma push_ok ev i : ring_ok i ->
  ring_ok (canboot_input_push ev i) /\ fifo_of (canboot_input_push ev i) = fifo_push ev (fifo_of i).
Proof.
  intros [Hs Hh Ht]. unfold canboot_input_push, fifo_push. cbn [items fifo_of accepted lost].
  rewrite next_slot, length_queue by done. unfold queued.
  destruct (Z.eqb_spec ((q_head i + 1) mod 256) (q_tail i)) as [He|He].
  - rewrite (proj2 (Z.ltb_ge _ _)) by zdm. split; [by split|done].
  - rewrite (proj2 (Z.ltb_lt _ _)) by zdm.
    split; [split; cbn [set_ring q_events q_head q_tail]; rewrite ?length_insert; try done; zdm|].
    unfold fifo_of, queue, queued, slot. cbn [set_ring q_events q_head q_tail q_total q_dropped]. f_equal.
    replace (((q_head i + 1) mod 256 - q_tail i) mod 256) with ((q_head i - q_tail i) mod 256 + 1) by zdm.
    rewrite seqZ_app by zdm. rewrite fmap_app. f_equal.
    + apply list_fmap_ext. intros j k Hk%lookup_seqZ. rewrite list_lookup_total_insert_ne; [done|]. zdm.
    + rewrite seqZ_cons by lia. change (Z.pred 1) with 0. cbn [seqZ fmap list_fmap]. f_equal.
      replace ((q_tail i + (0 + (q_head i - q_tail i) mod 256)) mod 256) with (q_head i) by zdm.
      apply list_lookup_total_insert_eq. lia.
Qed.

Lemma take_ok i : ring_ok i ->
  fst (take_event i) = fst (fifo_take (fifo_of i)) /\
  ring_ok (snd (take_event i)) /\ fifo_of (snd (take_event i)) = snd (fifo_take (fifo_of i)).
Proof.
  intros [Hs Hh Ht]. unfold take_event, fifo_take. cbn [items fifo_of accepted lost].
  destruct (Z.eqb_spec (q_tail i) (q_head i)) as [He|He].
  - assert (Hq : queue i = []) by (unfold queue, queued; by rewrite He, Z.sub_diag).
    rewrite Hq. split; [done|]. split; [by split|done].
  - assert (Hq : queue i = slot i 0 :: (slot i <$> seqZ 1 (Z.pred (queued i))))
      by (unfold queue; rewrite seqZ_cons; [done|unfold queued; zdm]).
    rewrite Hq. cbn [fst snd]. rewrite next_slot by done. split; [|split].
    + unfold slot. rewrite Z.add_0_r, Z.mod_small by lia. apply list_lookup_lookup_total_lt. lia.
    + split; cbn [set_ring q_events q_head q_tail]; [done..|]. zdm.
    + unfold fifo_of, queue, queued, slot. cbn [set_ring q_events q_head q_tail q_total q_dropped]. f_equal.
      replace ((q_head i - (q_tail i + 1) mod 256) mod 256) with (Z.pred ((q_head i - q_tail i) mod 256)) by zdm.
      unfold seqZ. rewrite <- !list_fmap_compose. apply list_fmap_ext. intros j k _. unfold compose.
      do 2 f_equal. zdm.
Qed.

Lemma ring_run_fifo ops i : ring_ok i ->
  fst (qrun canboot_input_push take_event ops i) = fst (qrun fifo_push fifo_take ops (fifo_of i)) /\
  ring_ok (snd (qrun canboot_input_push take_event ops i)) /\
  fifo_of (snd (qrun canboot_input_push take_event ops i)) = snd (qrun fifo_push fifo_take ops (fifo_of i)).
Proof.
  revert i. induction ops as [|[ev|] ops IH]; intros i Hr; [done| |]; cbn [qrun].
  - destruct (push_ok ev i Hr) as [Hr' <-]. by apply IH.
  - destruct (take_ok i Hr) as (H1 & Hr' & H2). destruct (take_event i) as [r i'], (fifo_take (fifo_of i)) as [r' f'].
    cbn in H1, Hr', H2. subst. destruct (IH i' Hr') as (H3 & H4 & H5).
    destruct (qrun canboot_input_push take_event ops i'), (qrun fifo_push fifo_take ops (fifo_of i')).
    cbn in *. subst. done.
Qed.

(** C17.  The input ring refines a bounded FIFO: from initialisation, any
    sequence of pushes and takes returns the events a queue of 255 entries
    returns, in the same order, leaves the same events pending, and counts
    the accepted and the dropped events the same way. *)
Theorem ring_refines_fifo ops i0 : length (q_events i0) = 256%nat ->
  let (rs, i) := qrun canboot_input_push take_event ops (hal_input_init i0) in
  (rs, fifo_of i) = qrun fifo_push fifo_take ops (mkFifo [] 0 0).
Proof.
  intros Hs. destruct (ring_run_fifo ops (hal_input_init i0)) as (H1 & _ & H2); [split; [done|cbn; lia..]|].
  destruct (qrun canboot_input_push take_event ops (hal_input_init i0)) as [rs i]. cbn [fst snd] in H1, H2.
  change (fifo_of (hal_input_init i0)) with (mkFifo [] 0 0) in H1, H2. rewrite H1, H2.
  by destruct (qrun fifo_push fifo_take ops _).
Qed.

Definition boot_input : input :=
  mkInput (replicate 256 (mkEvent 0 0 0 0 0 0 0)) 7 9 3 1 [] (mkMouse 0 0 0 0 false false).
Definition key (c : Z) : canboot_event := mkEvent CANBOOT_EV_KEY_DOWN CANBOOT_EV_SRC_PS2 c 0 1 0 0.

Lemma ring_refines_fifo_witness :
  let (rs, i) := qrun canboot_input_push take_event [Push (key 97); Push (key 98); Take; Take; Take]
                   (hal_input_init boot_input) in
  (rs, fifo_of i) = ([Some (key 97); Some (key 98); None], mkFifo [] 2 0).
Proof.
  apply (ring_refines_fifo [Push (key 97); Push (key 98); Take; Take; Take] boot_input). reflexivity.
Defined.

(** ** Drivers *)
(** The calls by which a driver feeds the input state, on a display of [dw] by [dh] pixels. *)
Inductive sink : Type :=
| SPush (ev : canboot_event)
| SRel (dx dy : Z)
| SAbs (px py : Z)
| SButton (mask : Z) (down : bool)
| SWheel (delta : Z)
| SPresent (present : bool).

Definition feed (dw dh : Z) (i : input) (k : sink) : input :=
  match k with
  | SPush ev => canboot_input_push ev i
  | SRel dx dy => set_pointer (canboot_input_mouse_move_rel dw dh dx dy (pointer i)) i
  | SAbs px py => set_pointer (canboot_input_mouse_move_abs dw dh px py (pointer i)) i
  | SButton mask down => set_pointer (canboot_input_mouse_button mask down (pointer i)) i
  | SWheel delta => set_pointer (canboot_input_mouse_wheel delta (pointer i)) i
  | SPresent present => set_pointer (canboot_input_mouse_set_present present (pointer i)) i
  end.

(** A pump reaches the input state through these calls only. *)
Class PumpLaw {W : Type} (dw dh : Z) (run_pump : Z -> input * W -> input * W) : Prop :=
  pump_feeds : forall fn s, exists ks, fst (run_pump fn s) = fold_left (feed dw dh) ks (fst s).

(** The pointer is on the screen once it has a position. *)
Definition pointer_ok (dw dh : Z) (m : mouse) : Prop :=
  g_mouse_init m = true -> 0 <= g_mouse_x m < dw /\ 0 <= g_mouse_y m < dh.

Lemma clampi_range v n : 0 < n -> 0 <= clampi v 0 (n - 1) < n.
Proof. intros. unfold clampi. destruct (Z.ltb_spec v 0); [lia|]. destruct (Z.ltb_spec (n - 1) v); lia. Qed.

Section drivers.
Context {W : Type} (dw dh : Z) (run_pump : Z -> input * W -> input * W) `{!PumpLaw dw dh run_pump}.
Hypothesis screen : 0 < dw < 2 ^ 31 /\ 0 < dh < 2 ^ 31.

Lemma feed_ok i k : ring_ok i -> pointer_ok dw dh (pointer i) ->
  ring_ok (feed dw dh i k) /\ pointer_ok dw dh (pointer (feed dw dh i k)).
Proof.
  intros Hr Hp. destruct k; cbn [feed].
  - split; [by apply push_ok|]. unfold canboot_input_push. by destruct (_ =? _).
  - split; [by destruct Hr; split|]. intros _. cbn. rewrite !(proj2 (Z.ltb_lt _ _)) by lia.
    split; apply clampi_range; lia.
  - split; [by destruct Hr; split|]. intros _. cbn. rewrite !(proj2 (Z.ltb_lt _ _)) by lia.
    split; apply clampi_range; lia.
  - split; [by destruct Hr; split|]. exact Hp.
  - split; [by destruct Hr; split|]. exact Hp.
  - split; [by destruct Hr; split|]. exact Hp.
Qed.

Lemma feeds_ok ks i : ring_ok i -> pointer_ok dw dh (pointer i) ->
  ring_ok (fold_left (feed dw dh) ks i) /\ pointer_ok dw dh (pointer (fold_left (feed dw dh) ks i)).
Proof.
  revert i. induction ks as [|k ks IH]; intros i Hr Hp; [done|]. cbn.
  destruct (feed_ok i k Hr Hp). by apply IH.
Qed.

(** Polling keeps the ring well formed and the pointer on the screen. *)
Lemma poll_ok s : ring_ok (fst s) -> pointer_ok dw dh (pointer (fst s)) ->
  let s' := snd (hal_input_poll run_pump s) in ring_ok (fst s') /\ pointer_ok dw dh (pointer (fst s')).
Proof.
  intros Hr Hp. unfold hal_input_poll.
  assert (Hpump : forall fns s, ring_ok (fst s) -> pointer_ok dw dh (pointer (fst s)) ->
    let s' := fold_left (fun s fn => run_pump fn s) fns s in ring_ok (fst s') /\ pointer_ok dw dh (pointer (fst s'))).
  { induction fns as [|fn fns IH]; intros t Hr' Hp'; [done|]. cbn. apply IH;
      destruct (pump_feeds fn t) as [ks ->]; by apply feeds_ok. }
  specialize (Hpump (dev_pumps (fst s)) s Hr Hp). unfold hal_input_pump. cbn zeta in Hpump.
  destruct (fold_left _ _ s) as [i w]. cbn in *. destruct Hpump as [Hr1 Hp1].
  destruct (take_ok i Hr1) as (_ & Hr2 & _). unfold take_event in *.
  destruct (q_tail i =? q_head i); cbn in *; done.
Qed.
End drivers.
