(* ===== verification/Ps2.v ===== *)
(** * The PS/2 keyboard and mouse, [hal/input/ps2.c]

    The i8042 controller is the class [I8042] of port reads and writes; its
    documented behaviour (the status port tells whether a byte waits and from
    which port it came, the data port takes it) is [I8042Laws].  The driver
    feeds the queue of [Input]. *)
From S2P Require Import Prelude Bytes Text Input.

Abbreviation I8042_DATA := 0x60 (only parsing).
Abbreviation I8042_CMD := 0x64 (only parsing).
Abbreviation I8042_STATUS := 0x64 (only parsing).
Abbreviation STATUS_OUTPUT_FULL := 0x01 (only parsing).
Abbreviation STATUS_INPUT_FULL := 0x02 (only parsing).
Abbreviation STATUS_AUX := 0x20 (only parsing).

(** [if (v & mask)]. *)
Definition bit_set (v mask : Z) : bool := negb (Z.land v mask =? 0).

Class I8042 (C : Type) : Type := {
  inb : Z -> C -> Z * C;
  outb : Z -> Z -> C -> C;
}.

(** The bytes waiting in the output buffer, each with whether it is from the
    auxiliary port. *)
Class I8042Laws (C : Type) `{I8042 C} : Type := {
  waiting : C -> list (bool * Z);
  inb_status : forall c, waiting (snd (inb I8042_STATUS c)) = waiting c /\
    bit_set (fst (inb I8042_STATUS c)) STATUS_OUTPUT_FULL = negb (bool_decide (waiting c = [])) /\
    forall a b q, waiting c = (a, b) :: q -> bit_set (fst (inb I8042_STATUS c)) STATUS_AUX = a;
  inb_data : forall c a b q, waiting c = (a, b) :: q ->
    fst (inb I8042_DATA c) = b /\ waiting (snd (inb I8042_DATA c)) = q;
}.

(** ** Scan codes *)
(** [base_map] and [shift_map]: the entries the source initialises; the rest are 0. *)
Definition base_entries : list (Z * Z) :=
  [(0x01, CANBOOT_KEY_ESC);
   (0x02, 49); (0x03, 50); (0x04, 51); (0x05, 52); (0x06, 53); (0x07, 54); (0x08, 55); (0x09, 56); (0x0A, 57); (0x0B, 48); (0x0C, 45); (0x0D, 61);
   (0x0E, CANBOOT_KEY_BACKSP); (0x0F, CANBOOT_KEY_TAB);
   (0x10, 113); (0x11, 119); (0x12, 101); (0x13, 114); (0x14, 116); (0x15, 121); (0x16, 117); (0x17, 105); (0x18, 111); (0x19, 112); (0x1A, 91); (0x1B, 93);
   (0x1C, CANBOOT_KEY_ENTER); (0x1D, CANBOOT_KEY_LCTRL);
   (0x1E, 97); (0x1F, 115); (0x20, 100); (0x21, 102); (0x22, 103); (0x23, 104); (0x24, 106); (0x25, 107); (0x26, 108); (0x27, 59); (0x28, 39); (0x29, 96);
   (0x2A, CANBOOT_KEY_LSHIFT); (0x2B, 92);
   (0x2C, 122); (0x2D, 120); (0x2E, 99); (0x2F, 118); (0x30, 98); (0x31, 110); (0x32, 109); (0x33, 44); (0x34, 46); (0x35, 47);
   (0x36, CANBOOT_KEY_RSHIFT); (0x38, CANBOOT_KEY_LALT); (0x39, 32); (0x3A, CANBOOT_KEY_CAPS)].
Definition shift_entries : list (Z * Z) :=
  [(49, 33); (50, 64); (51, 35); (52, 36); (53, 37); (54, 94); (55, 38); (56, 42); (57, 40); (48,
   41); (45, 95); (61, 43); (91, 123); (93, 125); (59, 58); (39, 34); (96, 126); (92, 124); (44,
   60); (46, 62); (47, 63)].

Fixpoint entry_of (l : list (Z * Z)) (k : Z) : Z :=
  match l with [] => 0 | (a, v) :: l' => if a =? k then v else entry_of l' k end.

Definition base_map (make : Z) : Z := entry_of base_entries make.
Definition shift_map (c : Z) : Z := entry_of shift_entries c.

(** The static variables of the driver. *)
Record ps2 : Type := mkPs2 {
  g_mouse_enabled : bool;
  g_mouse_pkt : list Z;
  g_mouse_idx : Z;
  g_shift : bool;
  g_extended : bool;
}.

Definition set_keys (sh ext : bool) (p : ps2) : ps2 :=
  mkPs2 (g_mouse_enabled p) (g_mouse_pkt p) (g_mouse_idx p) sh ext.
Definition set_packet (pkt : list Z) (idx : Z) (p : ps2) : ps2 :=
  mkPs2 (g_mouse_enabled p) pkt idx (g_shift p) (g_extended p).

Definition apply_shift (shift : bool) (c : Z) : Z :=
  if (97 <=? c) && (c <=? 122) then (if shift then c - 97 + 65 else c)
  else if shift && (c <? 128) && negb (shift_map c =? 0) then shift_map c
  else c.

(** The event [emit] pushes. *)
Definition emit (c r : Z) (is_release : bool) : canboot_event :=
  mkEvent (if is_release then CANBOOT_EV_KEY_UP else CANBOOT_EV_KEY_DOWN) CANBOOT_EV_SRC_PS2 c r
    (if is_release then 0 else 1) 0 0.

Definition extended_key (make : Z) : Z :=
  if make =? 0x48 then CANBOOT_KEY_UP
  else if make =? 0x50 then CANBOOT_KEY_DOWN
  else if make =? 0x4B then CANBOOT_KEY_LEFT
  else if make =? 0x4D then CANBOOT_KEY_RIGHT
  else if make =? 0x1D then CANBOOT_KEY_RCTRL
  else if make =? 0x38 then CANBOOT_KEY_RALT
  else if make =? 0x1C then CANBOOT_KEY_ENTER
  else 0.

(** [process_scancode]: the event it emits, if any, and the new state. *)
Definition scancode (sc : Z) (p : ps2) : option canboot_event * ps2 :=
  if sc =? 0xE0 then (None, set_keys (g_shift p) true p)
  else
    let is_release := bit_set sc 0x80 in
    let make := Z.land sc 0x7F in
    if g_extended p then
      let c := extended_key make in
      (if c =? 0 then None else Some (emit c (Z.lor 0xE000 make) is_release), set_keys (g_shift p) false p)
    else
      let c := base_map make in
      if c =? 0 then (None, p)
      else if (c =? CANBOOT_KEY_LSHIFT) || (c =? CANBOOT_KEY_RSHIFT)
      then (Some (emit c make is_release), set_keys (negb is_release) (g_extended p) p)
      else (Some (emit (apply_shift (g_shift p) c) make is_release), p).

Definition process_scancode (sc : Z) (s : input * ps2) : input * ps2 :=
  let (ev, p) := scancode sc (snd s) in
  (match ev with Some ev => canboot_input_push ev (fst s) | None => fst s end, p).

(** ** Mouse packets *)
Section driver.
Context (dw dh : Z).

Definition process_mouse_byte (b : Z) (s : input * ps2) : input * ps2 :=
  let '(i, p) := s in
  if (g_mouse_idx p =? 0) && negb (bit_set b 0x08) then s
  else
    let pkt := <[Z.to_nat (g_mouse_idx p) := b]> (g_mouse_pkt p) in
    let idx := u8 (g_mouse_idx p + 1) in
    if idx <? 3 then (i, set_packet pkt idx p)
    else
      let p := set_packet pkt 0 p in
      let flags := nth 0 pkt 0 in
      if bit_set flags 0xC0 then (i, p)
      else
        let dx := nth 1 pkt 0 - (if bit_set flags 0x10 then 256 else 0) in
        let dy := nth 2 pkt 0 - (if bit_set flags 0x20 then 256 else 0) in
        (fold_left (feed dw dh)
           [SRel dx (- dy); SButton CANBOOT_MOUSE_LEFT (bit_set flags 0x01);
            SButton CANBOOT_MOUSE_RIGHT (bit_set flags 0x02);
            SButton CANBOOT_MOUSE_MIDDLE (bit_set flags 0x04)] i, p).

Context {C : Type} `{I8042 C}.

Fixpoint i8042_wait_write (guard : nat) (c : C) : C :=
  match guard with
  | O => c
  | S k => let (st, c) := inb I8042_STATUS c in if bit_set st STATUS_INPUT_FULL then i8042_wait_write k c else c
  end.

Fixpoint i8042_wait_read (guard : nat) (c : C) : Z * C :=
  match guard with
  | O => (-1, c)
  | S k => let (st, c) := inb I8042_STATUS c in
           if bit_set st STATUS_OUTPUT_FULL then inb I8042_DATA c else i8042_wait_read k c
  end.

Definition GUARD : nat := Z.to_nat 100000.
Definition command (port v : Z) (c : C) : C := outb port v (i8042_wait_write GUARD c).

Definition mouse_write (cmd : Z) (c : C) : C :=
  snd (i8042_wait_read GUARD (command I8042_DATA cmd (command I8042_CMD 0xD4 c))).

(** The drain of the controller, [guard] bytes at most. *)
Fixpoint ps2_drain (guard : nat) (s : input * (ps2 * C)) : input * (ps2 * C) :=
  match guard with
  | O => s
  | S k =>
      let '(i, (p, c)) := s in
      let (st, c) := inb I8042_STATUS c in
      if negb (bit_set st STATUS_OUTPUT_FULL) then (i, (p, c))
      else
        let (data, c) := inb I8042_DATA c in
        let (i, p) := (if g_mouse_enabled p && bit_set st STATUS_AUX
                       then process_mouse_byte data (i, p) else process_scancode data (i, p)) in
        ps2_drain k (i, (p, c))
  end.

Definition ps2_pump : input * (ps2 * C) -> input * (ps2 * C) := ps2_drain 64.

Definition ps2_mouse_init (p : ps2) (c : C) : ps2 * C :=
  let c := command I8042_CMD 0xA8 c in
  let c := command I8042_CMD 0x20 c in
  let (cfg, c) := i8042_wait_read GUARD c in
  let c := (if 0 <=? cfg
            then command I8042_DATA (Z.land (u8 cfg) 0xDF) (command I8042_CMD 0x60 c) else c) in
  let c := mouse_write 0xF4 (mouse_write 0xF6 c) in
  (mkPs2 true (g_mouse_pkt p) 0 (g_shift p) (g_extended p), c).

(** The drain of stale bytes at start-up. *)
Fixpoint drain_stale (guard : nat) (c : C) : C :=
  match guard with
  | O => c
  | S k => let (st, c) := inb I8042_STATUS c in
           if bit_set st STATUS_OUTPUT_FULL then drain_stale k (snd (inb I8042_DATA c)) else c
  end.

(** The number that stands for the pointer to [ps2_pump]. *)
Definition PS2_PUMP : Z := 1.

Definition canboot_ps2_init (s : input * (ps2 * C)) : bool * (input * (ps2 * C)) :=
  let '(i, (p, c)) := s in
  let p := mkPs2 false (g_mouse_pkt p) 0 false false in
  let (p, c) := ps2_mouse_init p (drain_stale 32 c) in
  (true, (canboot_input_register_pump PS2_PUMP i, (p, c))).

(** The pumps of the machine: this driver's, and the other drivers'. *)
Definition run_pump (other : Z -> input * (ps2 * C) -> input * (ps2 * C)) (fn : Z)
    (s : input * (ps2 * C)) : input * (ps2 * C) :=
  if fn =? PS2_PUMP then ps2_pump s else other fn s.
End driver.

(** ** Keystrokes *)
(** The scan codes that type the character [c]: its key pressed and released,
    inside a press of the left shift key where the character needs it. *)
Definition key_for (shift : bool) (c : Z) : option Z :=
  find (fun m => (0x20 <=? base_map m) && (base_map m <? 0x80) && (apply_shift shift (base_map m) =? c)) (seqZ 0 128).

Definition strokes (c : Z) : list Z :=
  match key_for false c with
  | Some m => [m; m + 0x80]
  | None => match key_for true c with
            | Some m => [0x2A; m; m + 0x80; 0xAA]
            | None => []
            end
  end.

(** The printable ASCII characters. *)
Definition printable (c : Z) : Prop := 0x20 <= c < 0x7F.

(** The events of a row of scan codes, and the state after it. *)
Fixpoint scancodes (scs : list Z) (p : ps2) : list canboot_event * ps2 :=
  match scs with
  | [] => ([], p)
  | sc :: scs' =>
      let (ev, p1) := scancode sc p in
      let (evs, p2) := scancodes scs' p1 in
      (match ev with Some ev => ev :: evs | None => evs end, p2)
  end.

(** No key is held. *)
Definition idle (p : ps2) : Prop := g_shift p = false /\ g_extended p = false.

(** [n] calls of [hal_input_getc], with what they return. *)
Fixpoint getcs {W : Type} (run : Z -> input * W -> input * W) (fuel n : nat) : M (input * W) (list Z) :=
  match n with
  | O => ret []
  | S k => let! c := hal_input_getc run fuel in let! cs := getcs run fuel k in ret (c :: cs)
  end.

Lemma scancodes_app a b p :
  scancodes (a ++ b) p =
  let (ea, pa) := scancodes a p in let (eb, pb) := scancodes b pa in (ea ++ eb, pb).
Proof.
  revert p. induction a as [|sc a IH]; intros p; cbn; [by destruct (scancodes b p)|].
  destruct (scancode sc p) as [ev p1]. rewrite IH.
  destruct (scancodes a p1) as [ea pa], (scancodes b pa) as [eb pb]. by destruct ev.
Qed.

(** The keys do not depend on the mouse packet. *)
Lemma scancode_mouse sc p q : g_shift p = g_shift q -> g_extended p = g_extended q ->
  fst (scancode sc p) = fst (scancode sc q) /\
  snd (scancode sc p) = set_keys (g_shift (snd (scancode sc q))) (g_extended (snd (scancode sc q))) p.
Proof.
  destruct p as [en pkt idx sh ext]. intros Hs He. cbn in Hs, He. subst. unfold scancode. cbn [g_shift g_extended].
  destruct (sc =? 224); [done|]. destruct (g_extended q) eqn:E; [done|].
  destruct (base_map _ =? 0); [cbn; by rewrite E|].
  destruct (_ || _); [done|]. cbn. by rewrite E.
Qed.

Lemma scancodes_mouse scs p q : g_shift p = g_shift q -> g_extended p = g_extended q ->
  fst (scancodes scs p) = fst (scancodes scs q) /\
  snd (scancodes scs p) = set_keys (g_shift (snd (scancodes scs q))) (g_extended (snd (scancodes scs q))) p.
Proof.
  revert p q. induction scs as [|sc scs IH]; intros p q Hs He; cbn.
  { split; [done|]. rewrite <- Hs, <- He. by destruct p. }
  destruct (scancode_mouse sc p q Hs He) as [H1 H2].
  destruct (scancode sc p) as [ev p1], (scancode sc q) as [ev' q1]. cbn in H1, H2. subst.
  destruct (IH (set_keys (g_shift q1) (g_extended q1) p) q1) as [H3 H4]; [done..|].
  destruct (scancodes scs (set_keys _ _ p)), (scancodes scs q1). cbn in *. subst. split; [done|].
  by destruct p.
Qed.

(** Typing one character: the events read back as the character, the driver
    is idle again. *)
Lemma strokes_type c p : printable c -> idle p ->
  snd (scancodes (strokes c) p) = p /\ omap getc_of (fst (scancodes (strokes c) p)) = [c].
Proof.
  intros Hc [Hs He]. set (q := mkPs2 false [] 0 false false).
  assert (Hk : forall k, 0 <= k < 0x7F -> 0x20 <= k ->
    omap getc_of (fst (scancodes (strokes k) q)) = [k] /\
    g_shift (snd (scancodes (strokes k) q)) = false /\ g_extended (snd (scancodes (strokes k) q)) = false).
  { apply (below_check 0x7F (fun k => 0x20 <= k -> _ /\ _ /\ _)). vm_compute. reflexivity. }
  unfold printable in Hc. destruct (Hk c) as (H1 & H2 & H3); [lia..|].
  destruct (scancodes_mouse (strokes c) p q Hs He) as [-> ->]. rewrite H2, H3. split; [|done].
  destruct p. cbn in *. by subst.
Qed.

Lemma text_type t p : Forall printable t -> idle p ->
  snd (scancodes (flat_map strokes t) p) = p /\ omap getc_of (fst (scancodes (flat_map strokes t) p)) = t.
Proof.
  intros Ht Hp. induction Ht as [|c t Hc _ IH]; [done|]. cbn [flat_map]. rewrite scancodes_app.
  destruct (strokes_type c p Hc Hp) as [H1 H2]. destruct (scancodes (strokes c) p) as [e1 p1]. cbn in H1, H2. subst.
  destruct (scancodes (flat_map strokes t) p) as [e2 p2]. cbn in *. destruct IH as [-> IH2].
  split; [done|]. rewrite omap_app, IH2, H2. done.
Qed.

Lemma length_scancodes scs p : (length (fst (scancodes scs p)) <= length scs)%nat.
Proof.
  revert p. induction scs as [|sc scs IH]; intros p; [done|]. cbn.
  destruct (scancode sc p) as [ev p1]. specialize (IH p1). destruct (scancodes scs p1) as [evs p2].
  cbn in *. destruct ev; cbn; lia.
Qed.

(** ** The pump *)
Section pump.
Context (dw dh : Z) {C : Type} `{I8042 C} `{!I8042Laws C}.

(** Keyboard bytes that fit the guard are all processed, in order. *)
Lemma ps2_drain_keys scs (guard : nat) i p c :
  (length scs <= guard)%nat -> waiting c = (fun b => (false, b)) <$> scs ->
  exists c', ps2_drain dw dh guard (i, (p, c)) =
    (fold_left (fun i ev => canboot_input_push ev i) (fst (scancodes scs p)) i, (snd (scancodes scs p), c')) /\
    waiting c' = [].
Proof.
  revert guard i p c. induction scs as [|sc scs IH]; intros guard i p c Hg Hw.
  - cbn in Hw. destruct guard as [|guard]; [by exists c|]. cbn [ps2_drain].
    destruct (inb_status c) as (H1 & H2 & _). destruct (inb I8042_STATUS c) as [st c1]. cbn [fst snd] in *.
    rewrite H2, Hw. exists c1. split; [done|]. by rewrite H1.
  - destruct guard as [|guard]; [cbn in Hg; lia|]. cbn [ps2_drain]. cbn [fmap list_fmap] in Hw.
    destruct (inb_status c) as (H1 & H2 & H3). specialize (H3 _ _ _ Hw).
    destruct (inb I8042_STATUS c) as [st c1]. cbn [fst snd] in *. rewrite H2, Hw, H3. cbn [bool_decide negb].
    rewrite Hw in H1. destruct (inb_data c1 _ _ _ H1) as [H4 H5].
    destruct (inb I8042_DATA c1) as [b c2]. cbn [fst snd] in *. subst b. rewrite andb_false_r.
    unfold process_scancode. cbn [fst snd scancodes]. destruct (scancode sc p) as [ev p1].
    destruct (IH guard (match ev with Some ev => canboot_input_push ev i | None => i end) p1 c2)
      as (c3 & H6 & H7); [cbn in Hg; lia|exact H5|].
    exists c3. split; [|done]. rewrite H6. destruct (scancodes scs p1) as [evs p2]. by destruct ev.
Qed.

(** ** Reading the queue *)
(** What [hal_input_getc] returns from a queue, and the queue it leaves. *)
Fixpoint next_char (q : list canboot_event) : Z * list canboot_event :=
  match q with
  | [] => (-1, [])
  | ev :: q' => match getc_of ev with Some c => (c, q') | None => next_char q' end
  end.

Fixpoint next_chars (n : nat) (q : list canboot_event) : list Z :=
  match n with O => [] | S k => fst (next_char q) :: next_chars k (snd (next_char q)) end.

Lemma next_chars_text t q : omap getc_of q = t -> next_chars (S (length t)) q = t ++ [-1].
Proof.
  revert q. assert (Hn : forall q, fst (next_char q) = default (-1) (head (omap getc_of q)) /\
    omap getc_of (snd (next_char q)) = tail (omap getc_of q)).
  { induction q as [|ev q IH]; [done|]. cbn. destruct (getc_of ev); [done|]. exact IH. }
  induction t as [|c t IH]; intros q Hq; destruct (Hn q) as [H1 H2]; rewrite Hq in H1, H2; cbn in H1, H2.
  - cbn. by rewrite H1.
  - cbn [length next_chars]. rewrite H1. cbn [default from_option app]. f_equal. by apply IH.
Qed.

Context (other : Z -> input * (ps2 * C) -> input * (ps2 * C)).
Abbreviation run := (run_pump dw dh other).

Lemma push_pumps evs i : dev_pumps (fold_left (fun i ev => canboot_input_push ev i) evs i) = dev_pumps i.
Proof.
  revert i. induction evs as [|ev evs IH]; intros i; [done|]. cbn. rewrite IH.
  unfold canboot_input_push. by destruct (_ =? _).
Qed.

(** The pump of a machine whose only driver is this one. *)
Lemma pump_keys scs i p c :
  dev_pumps i = [PS2_PUMP] -> (length scs <= 64)%nat -> waiting c = (fun b => (false, b)) <$> scs ->
  exists c', hal_input_pump run (i, (p, c)) =
    (fold_left (fun i ev => canboot_input_push ev i) (fst (scancodes scs p)) i, (snd (scancodes scs p), c')) /\
    waiting c' = [].
Proof.
  intros Hd Hl Hw. destruct (ps2_drain_keys scs 64 i p c Hl Hw) as (c' & Hr & Hc').
  exists c'. split; [|done]. unfold hal_input_pump. cbn [fst]. rewrite Hd. exact Hr.
Qed.

Lemma getc_run fuel s i p c :
  hal_input_pump run s = (i, (p, c)) -> dev_pumps i = [PS2_PUMP] -> ring_ok i -> waiting c = [] ->
  (length (queue i) < fuel)%nat ->
  exists i' c', hal_input_getc run fuel s = (OK (fst (next_char (queue i))), (i', (p, c'))) /\
    queue i' = snd (next_char (queue i)) /\ dev_pumps i' = [PS2_PUMP] /\ ring_ok i' /\ waiting c' = [].
Proof.
  revert s i c. induction fuel as [|fuel IH]; intros s i c Hp Hd Hr Hw Hf; [lia|]. cbn [hal_input_getc].
  destruct (take_ok i Hr) as (H1 & H2 & H3).
  assert (Hpoll : hal_input_poll run s = (OK (fst (take_event i)), (snd (take_event i), (p, c)))).
  { unfold hal_input_poll. rewrite Hp. by destruct (take_event i). }
  assert (Hd' : dev_pumps (snd (take_event i)) = [PS2_PUMP]) by (unfold take_event; by destruct (_ =? _)).
  bstep Hpoll. rewrite H1. unfold fifo_of, fifo_take in H3 |- *. cbn [items] in *.
  destruct (queue i) as [|ev q] eqn:Eq; cbn [fst snd next_char] in *.
  - exists (snd (take_event i)), c. split; [done|]. injection H3 as H3 _ _. rewrite H3. done.
  - injection H3 as H3 _ _. destruct (getc_of ev) as [ch|] eqn:Eg.
    + exists (snd (take_event i)), c. by rewrite H3.
    + destruct (pump_keys [] (snd (take_event i)) p c) as (c1 & Hp1 & Hw1); [done|cbn; lia|done|].
      cbn in Hp1. destruct (IH (snd (take_event i), (p, c)) (snd (take_event i)) c1)
        as (i' & c' & H4 & H5 & H6); [done..|rewrite H3; cbn in Hf; lia|].
      rewrite H3 in H4, H5. exists i', c'. done.
Qed.

Lemma getcs_run fuel n s i p c :
  hal_input_pump run s = (i, (p, c)) -> dev_pumps i = [PS2_PUMP] -> ring_ok i -> waiting c = [] ->
  (length (queue i) < fuel)%nat ->
  exists s', getcs run fuel n s = (OK (next_chars n (queue i)), s').
Proof.
  revert s i p c. induction n as [|n IH]; intros s i p c Hp Hd Hr Hw Hf; [by exists s|].
  destruct (getc_run fuel s i p c Hp Hd Hr Hw Hf) as (i1 & c1 & H1 & H2 & H3 & H4 & H5).
  destruct (pump_keys [] i1 p c1) as (c2 & Hp2 & Hw2); [done|cbn; lia|done|]. cbn in Hp2.
  destruct (IH (i1, (p, c1)) i1 p c2) as (s' & Hs'); [done..| |].
  { rewrite H2. assert (Hn : forall q, (length (snd (next_char q)) <= length q)%nat).
    { induction q as [|ev q IHq]; cbn; [done|]. destruct (getc_of ev); cbn; lia. }
    specialize (Hn (queue i)). lia. }
  exists s'. cbn [getcs next_chars]. bstep H1. bstep Hs'. by rewrite H2.
Qed.

(** Events pushed into a ring with room for them. *)
Lemma pushes_queue evs i : ring_ok i -> (length (queue i) + length evs <= 255)%nat ->
  let i' := fold_left (fun i ev => canboot_input_push ev i) evs i in
  ring_ok i' /\ queue i' = queue i ++ evs.
Proof.
  revert i. induction evs as [|ev evs IH]; intros i Hr Hl; cbn; [by rewrite app_nil_r|].
  destruct (push_ok ev i Hr) as [Hr1 Hf]. unfold fifo_of, fifo_push in Hf. cbn [items accepted lost] in Hf.
  cbn in Hl. rewrite (proj2 (Z.ltb_lt _ _)) in Hf by lia. injection Hf as Hq _ _.
  destruct (IH (canboot_input_push ev i) Hr1) as [Hr2 Hq2]; [rewrite Hq, length_app; cbn; lia|].
  split; [exact Hr2|]. rewrite Hq2, Hq, <- app_assoc. done.
Qed.


(** The driver keeps to the calls of the input interface. *)
Lemma ps2_drain_feeds guard s : exists ks, fst (ps2_drain dw dh guard s) = fold_left (feed dw dh) ks (fst s).
Proof.
  revert s. induction guard as [|guard IH]; intros [i [p c]]; [by exists []|]. cbn [ps2_drain].
  destruct (inb I8042_STATUS c) as [st c1]. destruct (negb _); [by exists []|].
  destruct (inb I8042_DATA c1) as [b c2].
  assert (Hs : exists ks, fst ((if g_mouse_enabled p && bit_set st STATUS_AUX
    then process_mouse_byte dw dh b (i, p) else process_scancode b (i, p))) = fold_left (feed dw dh) ks i).
  { destruct (_ && _).
    - unfold process_mouse_byte. destruct (_ && _); [by exists []|]. destruct (_ <? 3); [by exists []|].
      destruct (bit_set _ 0xC0); [by exists []|]. by eexists.
    - unfold process_scancode. destruct (scancode b (snd (i, p))) as [[ev|] p1]; [by exists [SPush ev]|by exists []]. }
  destruct Hs as [ks Hks].
  destruct (if g_mouse_enabled p && bit_set st STATUS_AUX then process_mouse_byte dw dh b (i, p) else process_scancode b (i, p)) as [i1 p1]. cbn [fst] in Hks. subst.
  destruct (IH (fold_left (feed dw dh) ks i, (p1, c2))) as [ks' ->]. exists (ks ++ ks'). cbn. by rewrite fold_left_app.
Qed.

#[export] Instance run_pump_law `{!PumpLaw dw dh other} : PumpLaw dw dh run.
Proof.
  intros fn s. unfold run_pump. destruct (fn =? PS2_PUMP); [apply ps2_drain_feeds|apply pump_feeds].
Qed.
End pump.

(** ** A controller that holds a row of bytes *)
Definition buffered : Type := list (bool * Z).

#[export] Instance buffered_i8042 : I8042 buffered := {
  inb port c :=
    if port =? I8042_STATUS
    then (match c with [] => 0 | (a, _) :: _ => if a : bool then 0x21 else 0x01 end, c)
    else match c with [] => (0, []) | (_, b) :: q => (b, q) end;
  outb _ _ c := c;
}.

#[export] Program Instance buffered_laws : I8042Laws buffered := { waiting := fun c => c }.
Next Obligation.
  intros [|[[] b] q]; cbn; (split; [done|]; split; [done|]); intros ? ? ? [= ? ? ?]; by subst.
Qed.
Next Obligation. intros c a b q ->. done. Qed.

Definition typed (t : list Z) : buffered := (fun b => (false, b)) <$> flat_map strokes t.
Definition kbd_input : input := canboot_input_register_pump PS2_PUMP (hal_input_init boot_input).

