(* ===== verification/Vfs.v ===== *)
(** * The POSIX file-system surface, [fs/vfs.c]

    The primary volume, the current directory, and the POSIX calls over the
    FAT32 driver of [Fat32].  The ext4 and NTFS libraries are not part of the
    repository: they are records of operations on a disk and a state [F] of
    their own.  A C string is the list of its characters. *)
From S2P Require Import Prelude Bytes Text Disk Fat32.

Abbreviation VFS_NONE := 0 (only parsing).
Abbreviation VFS_FAT32 := 1 (only parsing).
Abbreviation VFS_EXT4 := 2 (only parsing).
Abbreviation VFS_NTFS := 3 (only parsing).

Definition ENOENT : Z := 2.
Definition EIO : Z := 5.
Definition ENOMEM : Z := 12.
Definition EFAULT : Z := 14.
Definition EINVAL : Z := 22.
Definition ERANGE : Z := 34.
Definition ENOSYS : Z := 88.
Definition S_IFDIR_0755 : Z := 0x41ED.
Definition S_IFREG_0644 : Z := 0x81A4.

(** ** Paths *)
(** The loop of [normalize] over the path, [comps] the components kept so far. *)
Fixpoint normalize_loop (fuel : nat) (s : list Z) (comps : list (list Z)) : outcome (list (list Z)) :=
  match fuel with
  | O => NOFUEL
  | S k =>
      match skip_slashes s with
      | [] => OK comps
      | s =>
          let (buf, s') := take_comp 31 s in
          if decide (buf = str ".") then normalize_loop k s' comps
          else if decide (buf = str "..") then normalize_loop k s' (removelast comps)
          else normalize_loop k s' (if Z.of_nat (length comps) <? 24 then comps ++ [buf] else comps)
      end
  end.

(** The path written back: a slash before every component. *)
Definition render (comps : list (list Z)) : list Z :=
  match comps with [] => [47] | _ => flat_map (fun c => 47 :: c) comps end.

(** [normalize] on the path in a buffer of [cap] bytes: writing past its end is stuck. *)
Definition normalize (cap : Z) (p : list Z) : outcome (list Z) :=
  match normalize_loop (S (length p)) p [] with
  | OK comps => if cap <? Z.of_nat (length (render comps)) + 1 then STUCK else OK (render comps)
  | ERR => ERR | STUCK => STUCK | NOFUEL => NOFUEL
  end.

(** [resolve(path, out, cap)] in the directory [cwd]. *)
Definition resolve (cwd : list Z) (path : option (list Z)) (cap : Z) : outcome (list Z) :=
  match path with
  | None => OK []
  | Some path =>
      if peek path =? 47 then normalize cap (take (Z.to_nat (cap - 1)) path)
      else if cap <? Z.of_nat (length cwd) + 1 + Z.of_nat (length path) + 1 then OK []
      else normalize cap (cwd ++ (if (Z.of_nat (length cwd) =? 0) || negb (List.last cwd 0 =? 47) then [47] else []) ++ path)
  end.

(** ** State *)
(** The entry points of an external file-system library. *)
Record library (D F : Type) : Type := mkLib {
  lib_open : Z -> Z -> D -> F -> Z * F;
  lib_close : Z -> D -> F -> D * F;
  lib_mkdir : Z -> list Z -> D -> F -> Z * D * F;
  lib_rmdir : Z -> list Z -> D -> F -> Z * D * F;
  lib_delete : Z -> list Z -> D -> F -> Z * D * F;
  lib_rename : Z -> list Z -> list Z -> D -> F -> Z * D * F;
  lib_list : Z -> list Z -> Z -> D -> F -> Z * list Z * F;
}.
Arguments lib_open {D F}. Arguments lib_close {D F}. Arguments lib_mkdir {D F}. Arguments lib_rmdir {D F}.
Arguments lib_delete {D F}. Arguments lib_rename {D F}. Arguments lib_list {D F}.

Record vfs (D F : Type) : Type := mkVfs {
  disks : list D;
  foreign : F;
  g_have : bool;
  g_type : Z;
  g_disk : nat;
  g_start_lba : Z;
  g_size_lba : Z;
  g_cwd : list Z;
  errno : Z;
}.
Arguments mkVfs {D F}. Arguments disks {D F}. Arguments foreign {D F}. Arguments g_have {D F}.
Arguments g_type {D F}. Arguments g_disk {D F}. Arguments g_start_lba {D F}. Arguments g_size_lba {D F}.
Arguments g_cwd {D F}. Arguments errno {D F}.

Section vfs.
Context {D F : Type} `{BlockDevice D}.
Context (hal_disk_init : list D -> list D) (ext4 ntfs3g : library D F).

Definition set_disks (ds : list D) (fo : F) (v : vfs D F) : vfs D F :=
  mkVfs ds fo (g_have v) (g_type v) (g_disk v) (g_start_lba v) (g_size_lba v) (g_cwd v) (errno v).
Definition set_volume (ty : Z) (k : nat) (size : Z) (v : vfs D F) : vfs D F :=
  mkVfs (disks v) (foreign v) true ty k 0 size (g_cwd v) (errno v).
Definition set_cwd (cwd : list Z) (v : vfs D F) : vfs D F :=
  mkVfs (disks v) (foreign v) (g_have v) (g_type v) (g_disk v) (g_start_lba v) (g_size_lba v) cwd (errno v).
Definition set_errno (e : Z) : M (vfs D F) unit := fun v =>
  (OK tt, mkVfs (disks v) (foreign v) (g_have v) (g_type v) (g_disk v) (g_start_lba v) (g_size_lba v) (g_cwd v) e).

(** Run an action of a driver on disk [k]. *)
Definition on_disk {A} (k : nat) (m : M D A) : M (vfs D F) A := fun v =>
  match disks v !! k with
  | None => (STUCK, v)
  | Some d => let (r, d') := m d in (r, set_disks (<[k := d']> (disks v)) (foreign v) v)
  end.

(** The C result of an action that returns 0 or -1. *)
Definition rc (m : M D unit) : M D Z :=
  let! r := attempt m in ret (match r with Some _ => 0 | None => -1 end).

(** ** The primary volume *)
Definition detect_at (lba : Z) : M D Z :=
  let! r := attempt (disk_read 512 lba 1) in
  match r with
  | None => ret VFS_NONE
  | Some buf =>
      if Z.of_nat (length buf) <? 87 then stuck
      else if decide (slice 3 4 buf = str "NTFS") then ret VFS_NTFS
      else if decide (slice 82 5 buf = str "FAT32") then ret VFS_FAT32
      else
          let! r := attempt (disk_read 1024 (u64 (lba + 2)) 2) in
          match r with
          | None => ret VFS_NONE
          | Some sb =>
              let! magic := from_opt (getle 2 56 sb) in
              ret (if magic =? 0xEF53 then VFS_EXT4 else VFS_NONE)
          end
  end.

(** One pass over the disks from number [k]: the first usable one of a wanted type. *)
Fixpoint find_volume (want : Z -> bool) (k : nat) (ds : list D) : outcome (option (Z * nat * Z)) :=
  match ds with
  | [] => OK None
  | d :: ds' =>
      if (bd_kind d =? CANBOOT_DISK_KIND_CDROM) || negb (bd_writable d) then find_volume want (S k) ds'
      else
        match fst (detect_at 0 d) with
        | OK t => if want t then OK (Some (t, k, bd_block_count d)) else find_volume want (S k) ds'
        | ERR => ERR | STUCK => STUCK | NOFUEL => NOFUEL
        end
  end.

Definition primary : M (vfs D F) bool := fun v =>
  if g_have v then (OK (negb (g_type v =? VFS_NONE)), v)
  else
    let ds := (match disks v with [] => hal_disk_init [] | ds => ds end) in
    let v := set_volume VFS_NONE (g_disk v) (g_size_lba v) (set_disks ds (foreign v) v) in
    match find_volume (fun t => t =? VFS_FAT32) 0 ds with
    | OK (Some (t, k, n)) => (OK true, set_volume t k n v)
    | OK None =>
        match find_volume (fun t => (t =? VFS_EXT4) || (t =? VFS_NTFS)) 0 ds with
        | OK (Some (t, k, n)) => (OK true, set_volume t k n v)
        | OK None => (OK false, v)
        | ERR => (ERR, v) | STUCK => (STUCK, v) | NOFUEL => (NOFUEL, v)
        end
    | ERR => (ERR, v) | STUCK => (STUCK, v) | NOFUEL => (NOFUEL, v)
    end.

(** ** Dispatch *)
(** A FAT32 action on the volume; [-1] when it does not open. *)
Definition on_fat {A} (fail : A) (act : canboot_fat32 -> M D A) : M (vfs D F) A :=
  let! v := get in
  on_disk (g_disk v)
    (let! r := attempt canboot_fat32_open in match r with None => ret fail | Some fs => act fs end).

(** An action of an external library between its open and its close. *)
Definition on_lib {A} (lib : library D F) (fail : A) (start size : Z)
    (act : Z -> D -> F -> A * D * F) : M (vfs D F) A := fun v =>
  match disks v !! g_disk v with
  | None => (STUCK, v)
  | Some d =>
      let (h, f1) := lib_open lib start size d (foreign v) in
      if h <? 0 then (OK fail, set_disks (disks v) f1 v)
      else
        let '(r, d2, f2) := act h d f1 in
        let (d3, f3) := lib_close lib h d2 f2 in
        (OK r, set_disks (<[g_disk v := d3]> (disks v)) f3 v)
  end.

(** The shape of the four [vfs_*] functions and of [vfs_list]. *)
Definition dispatch {A} (fail : A) (fat : canboot_fat32 -> M D A) (ext ntfs : Z -> D -> F -> A * D * F)
    : M (vfs D F) A :=
  let! ok := primary in
  if negb ok then ret fail
  else
    let! v := get in
    if g_type v =? VFS_FAT32 then on_fat fail fat
    else if g_type v =? VFS_EXT4 then on_lib ext4 fail (g_start_lba v) (g_size_lba v) ext
    else
      match disks v !! g_disk v with
      | None => stuck
      | Some d => on_lib ntfs3g fail (u64 (g_start_lba v * bd_block_size d)) (u64 (g_size_lba v * bd_block_size d)) ntfs
      end.

Context (fuel : nat).

Definition vfs_mkdir (abspath : list Z) : M (vfs D F) Z :=
  dispatch (-1) (fun fs => rc (canboot_fat32_mkdir fuel fs abspath))
    (fun h => lib_mkdir ext4 h abspath) (fun h => lib_mkdir ntfs3g h abspath).

Definition vfs_rmdir (abspath : list Z) : M (vfs D F) Z :=
  dispatch (-1) (fun fs => rc (canboot_fat32_rmdir fuel fs abspath))
    (fun h => lib_rmdir ext4 h abspath) (fun h => lib_delete ntfs3g h abspath).

Definition vfs_unlink (abspath : list Z) : M (vfs D F) Z :=
  dispatch (-1) (fun fs => rc (canboot_fat32_unlink_path fuel fs abspath))
    (fun h => lib_delete ext4 h abspath) (fun h => lib_delete ntfs3g h abspath).

Definition vfs_rename (oldp newp : list Z) : M (vfs D F) Z :=
  dispatch (-1) (fun fs => rc (canboot_fat32_rename fuel fs oldp newp))
    (fun h => lib_rename ext4 h oldp newp) (fun h => lib_rename ntfs3g h oldp newp).

(** [fat_cb]: append a name to the listing while it fits in [cap]. *)
Definition fat_cb (cap : Z) (name : list Z) (size : Z) (is_dir : bool) (buf : list Z) : bool * list Z :=
  if cap <=? Z.of_nat (length buf) + Z.of_nat (length name) + 2 then (false, buf)
  else (true, buf ++ name ++ (if is_dir then [47] else []) ++ [10]).

(** [vfs_list]: the bytes written, or a negative result. *)
Definition vfs_list (abspath : list Z) (cap : Z) : M (vfs D F) (Z * list Z) :=
  dispatch (-1, [])
    (fun fs =>
       let! r := attempt (canboot_fat32_list_path fuel fs abspath (fat_cb cap) []) in
       ret (match r with Some (_, buf) => (Z.of_nat (length buf), buf) | None => (-1, []) end))
    (fun h d f => let '(n, buf, f) := lib_list ext4 h abspath cap d f in ((n, buf), d, f))
    (fun h d f => let '(n, buf, f) := lib_list ntfs3g h abspath cap d f in ((n, buf), d, f)).

(** ** POSIX entry points *)
(** [resolve] into a local buffer of 256 bytes. *)
Definition resolved (path : option (list Z)) : M (vfs D F) (list Z) := fun v =>
  (resolve (g_cwd v) path 256, v).

(** [if (rc != 0) { errno = e; return -1; } return 0;] *)
Definition check (r e : Z) : M (vfs D F) Z :=
  if r =? 0 then ret 0 else set_errno e ;;! ret (-1).

Definition mkdir (path : option (list Z)) (mode : Z) : M (vfs D F) Z :=
  let! abs := resolved path in let! r := vfs_mkdir abs in check r EIO.

Definition rmdir (path : option (list Z)) : M (vfs D F) Z :=
  let! abs := resolved path in let! r := vfs_rmdir abs in check r EIO.

Definition unlink (path : option (list Z)) : M (vfs D F) Z :=
  let! abs := resolved path in let! r := vfs_unlink abs in check r ENOENT.

Definition rename (oldp newp : option (list Z)) : M (vfs D F) Z :=
  let! a := resolved oldp in let! b := resolved newp in let! r := vfs_rename a b in check r EIO.

Definition chdir (path : option (list Z)) : M (vfs D F) Z :=
  let! abs := resolved path in
  let! r := vfs_list abs 256 in
  if fst r <? 0 then set_errno ENOENT ;;! ret (-1)
  else let! v := get in put (set_cwd (take 255 abs) v) ;;! ret 0.

(** [getcwd] into a buffer of [size] bytes, [None] for a null pointer. *)
Definition getcwd (buf : bool) (size : Z) : M (vfs D F) (option (list Z)) :=
  if negb buf || (size =? 0) then set_errno EINVAL ;;! ret None
  else
    let! v := get in
    if size <? Z.of_nat (length (g_cwd v)) + 1 then set_errno ERANGE ;;! ret None
    else ret (Some (g_cwd v)).

(** [stat]: the result, with [st_mode] and [st_size]; [st] whether the buffer is there. *)
Definition stat (path : option (list Z)) (st : bool) : M (vfs D F) (option (Z * Z)) :=
  if negb st then set_errno EFAULT ;;! ret None
  else
    let! ok := primary in
    if negb ok then set_errno ENOSYS ;;! ret None
    else
      let! abs := resolved path in
      let! r := vfs_list abs 256 in
      if 0 <=? fst r then ret (Some (S_IFDIR_0755, 0))
      else
        let! v := get in
        let! f := (if g_type v =? VFS_FAT32
                   then on_fat None (fun fs =>
                          let! r := attempt (canboot_fat32_read_path fuel fs abs 0) in
                          ret (match r with Some (_, sz) => Some sz | None => None end))
                   else ret None) in
        match f with
        | Some sz => ret (Some (S_IFREG_0644, sz))
        | None => set_errno ENOENT ;;! ret None
        end.

(** ** Directory streams *)
Record dirstream : Type := mkStream { names : list (list Z * bool); pos : Z }.

(** The lines of a listing, at most [room] of them. *)
Fixpoint dir_lines (room : nat) (l : list Z) : list (list Z * bool) :=
  match room, l with
  | S k, _ :: _ =>
      let (line, rest) := span (fun c => negb (c =? 10)) l in
      let is_dir := (0 <? Z.of_nat (length line)) && (List.last line 0 =? 47) in
      (take 31 (if is_dir then removelast line else line), is_dir) :: dir_lines k (drop 1 rest)
  | _, _ => []
  end.

(** [opendir]; [malloc] tells whether the allocation succeeds. *)
Definition opendir (malloc : bool) (path : option (list Z)) : M (vfs D F) (option dirstream) :=
  let! ok := primary in
  if negb ok then set_errno ENOSYS ;;! ret None
  else
    let! abs := resolved path in
    let! r := vfs_list abs 8192 in
    if fst r <? 0 then set_errno ENOENT ;;! ret None
    else if negb malloc then set_errno ENOMEM ;;! ret None
    else ret (Some (mkStream (dir_lines 128 (take (Z.to_nat (fst r)) (snd r))) 0)).
End vfs.

(** The entry [readdir] returns: inode number, whether a directory, name. *)
Definition readdir (d : dirstream) : option (Z * bool * list Z) * dirstream :=
  match names d !! Z.to_nat (pos d) with
  | None => (None, d)
  | Some (n, is_dir) => (Some (pos d + 1, is_dir, n), mkStream (names d) (pos d + 1))
  end.

Definition rewinddir (d : dirstream) : dirstream := mkStream (names d) 0.
