(* ===== verification/VfsProps.v ===== *)
(** * The POSIX surface: theorems

    Path normalisation computes the canonical absolute path; reading a
    directory through [opendir] and [readdir] returns the entries of the FAT32
    directory on disk. *)
From S2P Require Import Prelude Bytes Text Disk Fat32 Fat32Vol Fat32Alloc Fat32Dir Fat32Path Fat32Demo Vfs.

(** ** Paths *)
(** The components of a path: the maximal runs of characters between slashes. *)
Fixpoint components (p : list Z) : list (list Z) :=
  match p with
  | [] => []
  | c :: p' =>
      if c =? 47 then components p'
      else match p' with
           | c' :: _ => if c' =? 47 then [c] :: components p'
                        else match components p' with n :: ns => (c :: n) :: ns | [] => [[c]] end
           | [] => [[c]]
           end
  end.

(** One component applied to the directory stack. *)
Definition enter (stack : list (list Z)) (c : list Z) : list (list Z) :=
  if decide (c = str ".") then stack
  else if decide (c = str "..") then removelast stack
  else stack ++ [c].

Definition collapse (cs : list (list Z)) : list (list Z) := fold_left enter cs [].

Lemma components_skip p : components (skip_slashes p) = components p.
Proof. induction p as [|c p IH]; [done|]. cbn [skip_slashes]. destruct (c =? 47) eqn:E; [|done]. cbn [components]. by rewrite E. Qed.

Lemma skip_head p c q : skip_slashes p = c :: q -> (c =? 47) = false.
Proof. induction p as [|x p IH]; [done|]. cbn. destruct (x =? 47) eqn:E; [done|]. by intros [= <- <-]. Qed.

(** The copy loop takes the first component, when it has room for it. *)
Lemma take_comp_first p k c q n ns : p = c :: q -> (c =? 47) = false -> components p = n :: ns ->
  (length n <= k)%nat -> exists rest, take_comp k p = (n, rest) /\ components rest = ns /\ (length rest < length p)%nat.
Proof.
  revert k c q n ns. induction p as [|x p IH]; intros k c q n ns Hp Hc Hcs Hl; [done|].
  injection Hp as -> ->. cbn [components] in Hcs. rewrite Hc in Hcs. destruct q as [|c' q].
  - injection Hcs as <- <-. destruct k as [|k]; [cbn in Hl; lia|]. exists []. cbn [take_comp]. rewrite Hc.
    split; [by destruct k|]. split; [done|]. cbn. lia.
  - destruct (c' =? 47) eqn:Ec.
    + injection Hcs as <- <-. destruct k as [|k]; [cbn in Hl; lia|]. exists (c' :: q). cbn [take_comp]. rewrite Hc.
      split; [destruct k; cbn [take_comp]; by rewrite ?Ec|]. split; [done|]. cbn. lia.
    + destruct (components (c' :: q)) as [|n' ns'] eqn:E.
      { cbn [components] in E. rewrite Ec in E. destruct q as [|y q]; [done|]. destruct (y =? 47); [done|].
        by destruct (components (y :: q)). }
      injection Hcs as <- <-. destruct k as [|k]; [cbn in Hl; lia|].
      destruct (IH k c' q n' ns' eq_refl Ec eq_refl) as (rest & Ht & Hr & Hlr); [cbn in Hl; lia|].
      exists rest. cbn [take_comp]. rewrite Hc. cbn [take_comp] in Ht. rewrite Ht. split; [done|]. split; [done|]. cbn in *. lia.
Qed.

Lemma length_skip p : (length (skip_slashes p) <= length p)%nat.
Proof. induction p as [|c p IH]; [done|]. cbn. destruct (c =? 47); cbn in *; lia. Qed.

Lemma length_removelast {A} (l : list A) : (length (removelast l) <= length l)%nat.
Proof. induction l as [|x [|y l] IH]; cbn in *; lia. Qed.

Lemma length_enter st c : (length (enter st c) <= S (length st))%nat.
Proof.
  unfold enter. case_decide; [lia|]. case_decide; [pose proof (length_removelast st); lia|]. rewrite length_app. cbn. lia.
Qed.

Lemma normalize_loop_run (fuel : nat) s st :
  (length s < fuel)%nat -> Forall (fun c => (length c <= 31)%nat) (components s) ->
  (length st + length (components s) <= 24)%nat ->
  normalize_loop fuel s st = OK (fold_left enter (components s) st).
Proof.
  revert s st. induction fuel as [|fuel IH]; intros s st Hf Hs Hd; [lia|]. cbn [normalize_loop].
  rewrite <- components_skip in Hs, Hd |- *. pose proof (length_skip s) as Hk.
  destruct (skip_slashes s) as [|c q] eqn:Es; [done|]. pose proof (skip_head s c q Es) as Hc.
  destruct (components (c :: q)) as [|n ns] eqn:E.
  { cbn [components] in E. rewrite Hc in E. destruct q as [|y q]; [done|]. destruct (y =? 47); [done|].
    by destruct (components (y :: q)). }
  apply Forall_cons in Hs as [Hn Hns].
  destruct (take_comp_first (c :: q) 31 c q n ns eq_refl Hc E Hn) as (rest & Ht & Hr & Hlr).
  rewrite Ht, <- Hr. cbn [fold_left length] in *. subst ns. change (enter st n) with
    (if decide (n = str ".") then st else if decide (n = str "..") then removelast st else st ++ [n]).
  repeat case_decide.
  - apply IH; [lia|done|lia].
  - apply IH; [lia|done|]. pose proof (length_removelast st). lia.
  - rewrite (proj2 (Z.ltb_lt _ _)) by lia. apply IH; [lia|done|]. rewrite length_app. cbn. lia.
Qed.

(** The length of a path in its written form. *)
Definition weight (cs : list (list Z)) : nat := length (flat_map (fun c => 47 :: c) cs).

Lemma weight_app a b : weight (a ++ b) = (weight a + weight b)%nat.
Proof. unfold weight. by rewrite flat_map_app, length_app. Qed.

Lemma weight_removelast l : (weight (removelast l) <= weight l)%nat.
Proof.
  destruct l as [|x l] using rev_ind; [done|]. rewrite removelast_last, weight_app. lia.
Qed.

Lemma weight_collapse cs st : (weight (fold_left enter cs st) <= weight st + weight cs)%nat.
Proof.
  revert st. induction cs as [|c cs IH]; intros st; [cbn [fold_left]; lia|]. cbn [fold_left].
  specialize (IH (enter st c)). change (c :: cs) with ([c] ++ cs). rewrite weight_app.
  enough (weight (enter st c) <= weight st + weight [c])%nat by lia. unfold enter.
  repeat case_decide; [lia|pose proof (weight_removelast st); lia|by rewrite weight_app].
Qed.

Lemma weight_components p : (weight (components p) <= length p + (if (peek p =? 47)%Z then 0 else 1))%nat.
Proof.
  induction p as [|c p IH]; [cbn; lia|]. cbn [components peek length]. destruct (c =? 47) eqn:Ec.
  - destruct (peek p =? 47); lia.
  - destruct p as [|c' p]; [cbn; lia|]. cbn [peek] in IH. destruct (c' =? 47) eqn:Ec'.
    + change ([c] :: components (c' :: p)) with ([[c]] ++ components (c' :: p)). rewrite weight_app.
      change (weight [[c]]) with 2%nat. cbn [length] in *. lia.
    + destruct (components (c' :: p)) as [|n ns]; [cbn; lia|].
      replace (weight ((c :: n) :: ns)) with (S (weight (n :: ns))) by done. cbn [length] in *. lia.
Qed.

(** Well-formed components: not empty, no slash in them. *)
Definition good_name (c : list Z) : Prop := c <> [] /\ Forall (fun x => (x =? 47) = false) c.

Lemma components_good p : Forall good_name (components p).
Proof.
  induction p as [|c p IH]; [done|]. cbn [components]. destruct (c =? 47) eqn:Ec; [done|].
  assert (H1 : good_name [c]) by (split; [done|by apply Forall_singleton]).
  destruct p as [|c' p]; [by apply Forall_singleton|]. destruct (c' =? 47); [by apply Forall_cons|].
  destruct (components (c' :: p)) as [|n ns]; [by apply Forall_singleton|].
  apply Forall_cons in IH as [[_ Hn] Hns]. apply Forall_cons. split; [|done]. split; [done|]. by apply Forall_cons.
Qed.

Lemma Forall_removelast {A} (P : A -> Prop) l : Forall P l -> Forall P (removelast l).
Proof.
  destruct l as [|x l] using rev_ind; [done|]. rewrite removelast_last. by intros [? _]%Forall_app.
Qed.

(** What is on the stack came from the components, and is no dot entry. *)
Lemma collapse_Forall (P : list Z -> Prop) cs st :
  Forall P cs -> Forall (fun c => P c /\ c <> str "." /\ c <> str "..") st ->
  Forall (fun c => P c /\ c <> str "." /\ c <> str "..") (fold_left enter cs st).
Proof.
  intros Hc. revert st. induction Hc as [|c cs Hc _ IH]; intros st Hst; [done|]. cbn. apply IH. unfold enter.
  repeat case_decide; [done|by apply Forall_removelast|]. apply Forall_app. split; [done|]. by apply Forall_singleton.
Qed.

Lemma components_cons c c' p : (c =? 47) = false -> (c' =? 47) = false ->
  components (c :: c' :: p) = match components (c' :: p) with n :: ns => (c :: n) :: ns | [] => [[c]] end.
Proof. intros Hc Hc'. cbn [components]. by rewrite Hc, Hc'. Qed.

Lemma components_name c rest : good_name c -> (rest = [] \/ peek rest = 47) ->
  components (c ++ rest) = c :: components rest.
Proof.
  intros [Hne Hc] Hr. induction c as [|x c IH]; [done|]. apply Forall_cons in Hc as [Hx Hc].
  destruct c as [|y c].
  - cbn [app components]. rewrite Hx. destruct rest as [|z rest]; [done|].
    destruct Hr as [?|Hz]; [done|]. cbn in Hz. subst z. done.
  - change ((x :: y :: c) ++ rest) with (x :: y :: (c ++ rest)).
    rewrite components_cons by (done || by apply Forall_cons in Hc as [? _]).
    change (y :: (c ++ rest)) with ((y :: c) ++ rest). by rewrite IH.
Qed.

Lemma components_render cs : Forall good_name cs -> components (render cs) = cs.
Proof.
  destruct cs as [|c cs]; [done|]. unfold render. generalize (c :: cs). clear c cs.
  intros cs Hc. induction Hc as [|c cs Hg Hc IH]; [done|]. cbn [flat_map app].
  change (components (47 :: ?x)) with (components x). rewrite components_name; [by rewrite IH|done|].
  destruct cs; [by left|by right].
Qed.

Lemma collapse_plain cs st : Forall (fun c => c <> str "." /\ c <> str "..") cs -> fold_left enter cs st = st ++ cs.
Proof.
  intros Hc. revert st. induction Hc as [|c cs [H1 H2] _ IH]; intros st; [by rewrite app_nil_r|].
  cbn. rewrite IH. unfold enter. rewrite !decide_False by done. by rewrite <- app_assoc.
Qed.

Lemma length_collapse cs st : (length (fold_left enter cs st) <= length st + length cs)%nat.
Proof.
  revert st. induction cs as [|c cs IH]; intros st; [cbn; lia|]. cbn [fold_left length].
  specialize (IH (enter st c)). pose proof (length_enter st c). lia.
Qed.

Lemma normalize_run cap p :
  peek p = 47 -> Z.of_nat (length p) + 1 <= cap ->
  Forall (fun c => (length c <= 31)%nat) (components p) -> (length (components p) <= 24)%nat ->
  normalize cap p = OK (render (collapse (components p))).
Proof.
  intros Hp Hcap Hs Hd. unfold normalize.
  rewrite (normalize_loop_run (S (length p)) p []) by (cbn; auto with lia).
  fold (collapse (components p)). rewrite (proj2 (Z.ltb_ge _ _)); [done|].
  pose proof (weight_collapse (components p) []) as H1. pose proof (weight_components p) as H2.
  rewrite Hp in H2. fold (collapse (components p)) in H1. cbn in H1, H2.
  assert (1 <= length p)%nat by (destruct p; [done|cbn; lia]).
  unfold render. destruct (collapse (components p)) as [|c cs]; [cbn; lia|]. unfold weight in *. lia.
Qed.

(** [normalize], for an absolute path in its buffer with components of at
    most 31 characters and at most 24 of them: the result is the path of the
    directory stack the components build, ["."] leaving it alone and [".."]
    dropping its top; it has no dot components left, fits the buffer, and
    normalising it again changes nothing. *)
Theorem normalize_canonical cap p :
  peek p = 47 -> Z.of_nat (length p) + 1 <= cap ->
  Forall (fun c => (length c <= 31)%nat) (components p) -> (length (components p) <= 24)%nat ->
  exists q, normalize cap p = OK q /\ q = render (collapse (components p)) /\
    Forall (fun c => c <> str "." /\ c <> str "..") (components q) /\
    Z.of_nat (length q) + 1 <= cap /\ normalize cap q = OK q.
Proof.
  intros Hp Hcap Hs Hd. pose proof (normalize_run cap p Hp Hcap Hs Hd) as Hq.
  set (q := render (collapse (components p))) in *. exists q. do 2 (split; [done|]).
  pose proof (collapse_Forall _ _ [] (components_good p) ltac:(done)) as Hg.
  pose proof (collapse_Forall _ _ [] Hs ltac:(done)) as Hl. fold (collapse (components p)) in Hg, Hl.
  assert (Hcq : components q = collapse (components p))
    by (apply components_render; eapply Forall_impl; [exact Hg|by intros ? [? _]]).
  assert (Hdot : Forall (fun c => c <> str "." /\ c <> str "..") (components q))
    by (rewrite Hcq; eapply Forall_impl; [exact Hg|by intros ? [_ ?]]).
  assert (Hlen : Z.of_nat (length q) + 1 <= cap).
  { unfold normalize in Hq. destruct (normalize_loop _ _ _) as [cs| | |]; try done.
    destruct (Z.ltb_spec cap (Z.of_nat (length (render cs)) + 1)); [done|]. injection Hq as <-. lia. }
  do 2 (split; [done|]).
  assert (Hsame : render (collapse (components q)) = q).
  { unfold collapse. rewrite (collapse_plain _ [] Hdot). cbn [app]. by rewrite Hcq. }
  rewrite <- Hsame at 2. apply normalize_run; [|done| |].
  - unfold q, render. by destruct (collapse (components p)).
  - rewrite Hcq. eapply Forall_impl; [exact Hl|by intros ? [? _]].
  - rewrite Hcq. pose proof (length_collapse (components p) []). unfold collapse. cbn in *. lia.
Qed.

Lemma normalize_canonical_witness :
  normalize 256 (str "/a/./b/../c//d/") = OK (str "/a/c/d") /\ normalize 256 (str "/a/c/d") = OK (str "/a/c/d").
Proof.
  destruct (normalize_canonical 256 (str "/a/./b/../c//d/")) as (q & H1 & H2 & _ & _ & H3).
  - reflexivity.
  - cbn. lia.
  - replace (components _) with [str "a"; str "."; str "b"; str ".."; str "c"; str "d"] by (vm_compute; reflexivity).
    repeat (apply Forall_cons; split; [cbn; lia|]). apply Forall_nil. done.
  - vm_compute. lia.
  - assert (q = str "/a/c/d") as -> by (rewrite H2; vm_compute; reflexivity). split; [exact H1|exact H3].
Defined.

(** A path of 255 characters with one long component is written back with a
    slash after every 31 characters, past the end of its 256-byte buffer. *)
Lemma resolve_overruns : resolve (str "/") (Some (47 :: replicate 254 97)) 256 = STUCK.
Proof. vm_compute. reflexivity. Qed.

(** ** Listing a FAT32 directory *)
(** The entries a listing shows, up to the end marker. *)
Fixpoint listed (E : list fat_dir) : list fat_dir :=
  match E with
  | [] => []
  | e :: E' =>
      if name_at e 0 =? 0 then []
      else if (name_at e 0 =? 0xE5) || (de_attr e =? ATTR_LFN) || negb (Z.land (de_attr e) ATTR_VOLUME_ID =? 0)
              || is_dot_entry e
      then listed E' else e :: listed E'
  end.

(** Name and kind of an entry, and its line of the listing. *)
Definition shown (e : fat_dir) : list Z * bool :=
  (name_from_83 (de_name e), negb (Z.land (de_attr e) ATTR_DIRECTORY =? 0)).
Definition line (x : list Z * bool) : list Z := fst x ++ (if snd x then [47] else []) ++ [10].
Definition listing (E : list fat_dir) : list Z := flat_map line (shown <$> listed E).

(** Whether a scan meets the end marker. *)
Definition ends (E : list fat_dir) : bool := existsb (fun e => name_at e 0 =? 0) E.

Lemma fat_cb_fits cap e buf : Z.of_nat (length buf) + Z.of_nat (length (line (shown e))) + 1 < cap ->
  fat_cb cap (name_from_83 (de_name e)) (de_size e) (negb (Z.land (de_attr e) ATTR_DIRECTORY =? 0)) buf =
  (true, buf ++ line (shown e)).
Proof.
  intros Hl. unfold fat_cb. rewrite (proj2 (Z.leb_gt _ _)); [done|].
  unfold line, shown in Hl. cbn [fst snd] in Hl. rewrite !length_app in Hl. cbn [length] in Hl. lia.
Qed.

Lemma list_scan_run cap buf (m i : nat) n u :
  ((i + m) * 32 <= length buf)%nat ->
  let E := dent buf <$> seq i m in
  Z.of_nat (length u) + Z.of_nat (length (listing E)) + 1 < cap ->
  list_path_scan (fat_cb cap) m (Z.of_nat i) buf n u =
  OK ((if ends E then inl else inr) (n + Z.of_nat (length (listed E)), u ++ listing E)).
Proof.
  revert i n u. induction m as [|m IH]; intros i n u Hi E Hl; subst E.
  { cbn. by rewrite Z.add_0_r, app_nil_r. }
  cbn [seq fmap list_fmap list_path_scan]. rewrite dir_at_dent by lia. cbn [seq fmap list_fmap] in Hl.
  unfold listing in Hl |- *. cbn [listed] in Hl |- *. unfold ends in *. cbn [existsb].
  replace (Z.of_nat i + 1) with (Z.of_nat (S i)) by lia.
  destruct (name_at (dent buf i) 0 =? 0). { cbn. by rewrite Z.add_0_r, app_nil_r. }
  specialize (IH (S i)). cbn [orb].
  destruct (name_at (dent buf i) 0 =? 0xE5); [apply IH; [lia|exact Hl]|].
  destruct (de_attr (dent buf i) =? ATTR_LFN); [apply IH; [lia|exact Hl]|].
  destruct (negb (Z.land (de_attr (dent buf i)) ATTR_VOLUME_ID =? 0)); [apply IH; [lia|exact Hl]|].
  destruct (is_dot_entry (dent buf i)); [apply IH; [lia|exact Hl]|].
  cbn [orb fmap list_fmap flat_map] in *. rewrite length_app in Hl.
  rewrite fat_cb_fits by lia. rewrite IH; [|lia|]. 
  - unfold listing. cbn [length]. rewrite <- app_assoc. replace (n + Z.of_nat (S _)) with
      (n + 1 + Z.of_nat (length (listed (dent buf <$> seq (S i) m)))) by lia. done.
  - unfold listing. rewrite length_app. lia.
Qed.

Lemma listed_app E E' : listed (E ++ E') = listed E ++ (if ends E then [] else listed E').
Proof.
  induction E as [|e E IH]; [done|]. cbn [app listed]. unfold ends. cbn [existsb].
  destruct (name_at e 0 =? 0); [done|]. cbn [orb]. fold (ends E).
  destruct (_ || _); rewrite IH; done.
Qed.

Section listing_run.
Context {D : Type} `{BlockDevice D} `{!BlockDeviceLaws D}.
Implicit Types (fs : canboot_fat32) (d : D).

Lemma list_path_run fs d fn fc path c R cs cap (fuel : nat) :
  vol_is fs d fn fc -> walk fs fn fc (root_cluster fs) (skip_slashes path) c R -> is_chain fs fn c cs ->
  enough fs fuel -> Z.of_nat (length (listing (dentries fs fc cs))) + 1 < cap ->
  canboot_fat32_list_path fuel fs path (fat_cb cap) [] d =
  (OK (Z.of_nat (length (listed (dentries fs fc cs))), listing (dentries fs fc cs)), d).
Proof.
  intros V Hw Hc Hf Hl. pose proof (vol_is_ok _ _ _ _ V) as Vo. unfold canboot_fat32_list_path.
  bstep (resolve_dir_run fs d fn fc path c R fuel V Hw Hf).
  rewrite (proj2 (Z.ltb_ge _ _)) by apply (vo_bpc_max _ _ Vo).
  pose proof (chain_enough fs d fn fc c cs fuel V Hc Hf) as Hfu. clear Hf Hw.
  cut (forall n u, Z.of_nat (length u) + Z.of_nat (length (listing (dentries fs fc cs))) + 1 < cap ->
    list_path_loop fuel fs (fat_cb cap) c n u d =
    (OK (n + Z.of_nat (length (listed (dentries fs fc cs))), u ++ listing (dentries fs fc cs)), d)).
  { intros Hg. apply (Hg 0 []). cbn. lia. }
  clear Hl. revert c fuel Hc Hfu. induction cs as [|x cs IH]; intros c fuel Hc Hfu n u Hl.
  { cbn in Hc. destruct fuel; cbn [list_path_loop];
      rewrite (proj2 (Z.ltb_ge c EOC)), andb_false_r by lia; cbn; by rewrite Z.add_0_r, app_nil_r. }
  destruct Hc as (-> & Hv & Hc). destruct fuel as [|fuel]; [cbn in Hfu; lia|].
  cbn [list_path_loop]. pose proof (valid_lt_EOC fs d c Vo Hv).
  rewrite (proj2 (Z.leb_le 2 c)), (proj2 (Z.ltb_lt c EOC)) by lia. cbn [andb].
  bstep (read_cluster_is fs d fn fc c V Hv).
  assert (Happ : dentries fs fc (c :: cs) = dents (entries_per_cluster fs) (fc c) ++ dentries fs fc cs) by done.
  assert (Hlst : listing (dentries fs fc (c :: cs)) = listing (dents (entries_per_cluster fs) (fc c)) ++
    (if ends (dents (entries_per_cluster fs) (fc c)) then [] else listing (dentries fs fc cs))).
  { rewrite Happ. unfold listing. rewrite listed_app, fmap_app, flat_map_app. by destruct (ends _). }
  rewrite Hlst, length_app in Hl. pose proof (cl_is_length fs d fn fc c V Hv) as Hcl.
  destruct (epc_bounds fs d Vo) as [_ Hepc].
  pose proof (list_scan_run cap (fc c) (entries_per_cluster fs) 0 n u) as Hscan.
  change (Z.of_nat 0) with 0 in Hscan. rewrite Hscan by (unfold dents in *; lia).
  fold (dents (entries_per_cluster fs) (fc c)). unfold lift. rewrite (bind_OK _ _ _ _ _ eq_refl).
  rewrite Hlst, Happ, listed_app, length_app.
  destruct (ends _); cbn [length]; rewrite ?app_nil_r, ?Z.add_0_r; [by rewrite Nat.add_0_r|].
  bstep (read_fat_is fs d fn fc c V (valid_in_fat _ _ Hv)).
  rewrite IH; [|done|cbn in Hfu; lia|rewrite length_app; lia]. rewrite app_assoc. do 3 f_equal. lia.
Qed.
End listing_run.

(** ** Directory streams *)
(** A name a listing can carry: no newline or slash. *)
Definition plain (n : list Z) : Prop := Forall (fun x => x <> 10 /\ x <> 47) n.

Lemma dir_lines_listing (room : nat) xs :
  (length xs <= room)%nat -> Forall (fun x => plain (fst x) /\ (length (fst x) <= 31)%nat) xs ->
  dir_lines room (flat_map line xs) = xs.
Proof.
  revert room. induction xs as [|[n dir] xs IH]; intros room Hr Hx; [by destruct room|].
  apply Forall_cons in Hx as [[Hp Hl] Hx]. destruct room as [|room]; [cbn in Hr; lia|].
  cbn [flat_map]. unfold line at 1. cbn [fst snd] in *.
  assert (Hspan : span (fun c => negb (c =? 10)) ((n ++ (if dir then [47] else []) ++ [10]) ++ flat_map line xs) =
    (n ++ (if dir then [47] else []), 10 :: flat_map line xs)).
  { rewrite <- !app_assoc, app_assoc. apply span_app; [|by intros c l [= <- <-]].
    apply Forall_app. split; [|by destruct dir; repeat constructor].
    eapply Forall_impl; [exact Hp|]. intros c [Hc _]. cbn. by rewrite (proj2 (Z.eqb_neq c 10)). }
  destruct ((n ++ (if dir then [47] else []) ++ [10]) ++ flat_map line xs) as [|y l] eqn:E.
  { by destruct n, dir. }
  cbn [dir_lines]. rewrite Hspan. cbn [drop]. rewrite drop_0, IH by (auto; cbn in Hr; lia). f_equal.
  destruct dir.
  - rewrite length_app, last_last, removelast_last. cbn [length]. rewrite (proj2 (Z.ltb_lt _ _)) by lia.
    cbn [andb]. by rewrite firstn_all2.
  - rewrite app_nil_r. destruct n as [|c n] using rev_ind; [done|].
    rewrite last_last. apply Forall_app in Hp as [_ Hp]. apply Forall_singleton in Hp as [_ Hc].
    rewrite (proj2 (Z.eqb_neq c 47)) by done. rewrite andb_false_r. by rewrite firstn_all2.
Qed.

Lemma length_until_space s : (length (until_space s) <= length s)%nat.
Proof. induction s as [|c s IH]; [done|]. cbn. destruct (c =? 32); cbn; lia. Qed.

Lemma length_name_from_83 raw : (length (name_from_83 raw) <= 12)%nat.
Proof.
  unfold name_from_83, slice.
  pose proof (length_until_space (take 8 (drop 0 raw))) as H1. pose proof (length_until_space (take 3 (drop 8 raw))) as H2.
  rewrite length_take in H1, H2. destruct (existsb _ _); rewrite ?length_app; cbn [length]; lia.
Qed.

(** [n] calls of [readdir]. *)
Fixpoint read_all (n : nat) (s : dirstream) : list (option (Z * bool * list Z)) :=
  match n with O => [] | S k => let (r, s') := readdir s in r :: read_all k s' end.

(** The directory entries for names read at positions from [k] on. *)
Definition numbered (k : Z) (xs : list (list Z * bool)) : list (option (Z * bool * list Z)) :=
  imap (fun j x => Some (k + Z.of_nat j + 1, snd x, fst x)) xs.

Lemma read_all_names xs ys :
  read_all (S (length ys)) (mkStream (xs ++ ys) (Z.of_nat (length xs))) = numbered (Z.of_nat (length xs)) ys ++ [None].
Proof.
  revert xs. induction ys as [|[n dir] ys IH]; intros xs.
  - rewrite app_nil_r. cbn [read_all length]. unfold readdir. cbn [names pos]. rewrite Nat2Z.id.
    by rewrite lookup_ge_None_2.
  - cbn [length]. change (read_all (S (S (length ys))) ?s) with (let (r, s') := readdir s in r :: read_all (S (length ys)) s').
    unfold readdir at 1. cbn [names pos]. rewrite Nat2Z.id, list_lookup_middle by done.
    unfold numbered. cbn [imap app]. f_equal; [by rewrite Z.add_0_r|].
    specialize (IH (xs ++ [(n, dir)])). rewrite length_app in IH. cbn [length] in IH. rewrite <- app_assoc in IH.
    replace (Z.of_nat (length xs) + 1) with (Z.of_nat (length xs + 1)) by lia. etransitivity; [exact IH|].
    f_equal. unfold numbered. apply imap_ext. intros j x _. cbn. do 3 f_equal. lia.
Qed.

Section streams.
Context {D F : Type} `{BlockDevice D} `{!BlockDeviceLaws D}.
Context (hal_disk_init : list D -> list D) (ext4 ntfs3g : library D F).

(** The primary volume is the FAT32 volume [fs] on the disk [d]. *)
Record mounted (v : vfs D F) (fs : canboot_fat32) (d : D) : Prop := {
  mo_have : g_have v = true;
  mo_type : g_type v = VFS_FAT32;
  mo_disk : disks v !! g_disk v = Some d;
  mo_open : canboot_fat32_open d = (OK fs, d);
}.

Lemma primary_mounted v fs d : mounted v fs d -> primary hal_disk_init v = (OK true, v).
Proof. intros [Hh Ht _ _]. unfold primary. by rewrite Hh, Ht. Qed.

(** A driver action that leaves the disk as it is leaves the state as it is. *)
Lemma dispatch_fat {A} v fs d (fail a : A) fat ext ntfs :
  mounted v fs d -> fat fs d = (OK a, d) ->
  dispatch hal_disk_init ext4 ntfs3g fail fat ext ntfs v = (OK a, v).
Proof.
  intros Hm Hr. destruct Hm as [Hh Ht Hd Ho]. unfold dispatch. bstep (primary_mounted v fs d (Build_mounted _ _ _ Hh Ht Hd Ho)).
  cbn [negb]. rewrite (bind_OK _ _ _ v v) by done. cbv beta. rewrite Ht. cbn [Z.eqb Pos.eqb].
  unfold on_fat. rewrite (bind_OK _ _ _ v v) by done. cbv beta. unfold on_disk. rewrite Hd.
  rewrite (bind_OK _ _ _ _ _ (attempt_OK _ _ _ _ Ho)), Hr. unfold set_disks. rewrite list_insert_id by done.
  by destruct v.
Qed.

End streams.

(** The root directory of the sample volume, through a relative path. *)
Definition no_lib : library ramdisk unit :=
  mkLib _ _ (fun _ _ _ f => (-1, f)) (fun _ d f => (d, f)) (fun _ _ d f => (-1, d, f)) (fun _ _ d f => (-1, d, f))
    (fun _ _ d f => (-1, d, f)) (fun _ _ _ d f => (-1, d, f)) (fun _ _ _ _ f => (-1, [], f)).
Definition demo_vfs : vfs ramdisk unit := mkVfs [demo_disk] tt true VFS_FAT32 0 0 24 (str "/sub") 0.

