(* ===== verification/Iso9660.v ===== *)
(** * ISO 9660, [fs/iso9660.c]

    The read-only driver: the primary volume descriptor, lookup in the root
    directory and reading a file.  A lookup is shown to return the first
    record with the name, a read to return the bytes of the extent, and
    opening a volume to take the root directory from the wrong offset of the
    descriptor. *)
From S2P Require Import Prelude Bytes Text Disk.

Abbreviation ISO_BLOCK := 2048 (only parsing).
Abbreviation PVD_LBA := 16 (only parsing).
Abbreviation PVD_TYPE_PRIMARY := 1 (only parsing).

Record canboot_iso : Type := mkIso {
  sectors_per : Z;
  root_lba : Z;
  root_size : Z;
}.

(** Offsets in [struct iso_pvd] and [struct iso_dir_record]. *)
Definition pvd_root_dir : Z := 164.
Definition r_lba_le : Z := 2.
Definition r_size_le : Z := 10.
Definition r_name_len : Z := 32.
Definition r_name : Z := 33.

Definition upcase (c : Z) : Z := if (97 <=? c) && (c <=? 122) then c - 32 else c.

Fixpoint icase_loop (a b : list Z) : bool :=
  match a, b with
  | [], _ => true
  | ca :: a', cb :: b' => if upcase ca =? upcase cb then icase_loop a' b' else false
  | _ :: _, [] => false
  end.

Definition icase_eq (a b : list Z) : bool :=
  if negb (Z.of_nat (length a) =? Z.of_nat (length b)) then false else icase_loop a b.

(** The name without its version suffix. *)
Definition trim_version (name : list Z) : list Z := fst (span (fun c => negb (c =? 59)) name).

(** Whether a directory record carries the name looked for. *)
Definition names (rname name : list Z) : bool :=
  let n := trim_version rname in
  negb (Z.of_nat (length n) =? 0)
  && negb ((Z.of_nat (length n) =? 1) && ((nth 0 n 0 =? 0) || (nth 0 n 0 =? 1)))
  && icase_eq n name.

Section iso.
Context {D : Type} `{BlockDevice D}.

Definition canboot_iso_open : M D canboot_iso :=
  let! d := get in
  if bd_block_size d =? 0 then err
  else
    let sp := ISO_BLOCK / bd_block_size d in
    let sp := if sp =? 0 then 1 else sp in
    let! buf := disk_read ISO_BLOCK (PVD_LBA * sp) sp in
    let! ty := from_opt (getle 1 0 buf) in
    if negb (ty =? PVD_TYPE_PRIMARY) then err
    else if decide (slice 1 5 buf <> str "CD001") then err
    else
      let! lba := from_opt (getle 4 (pvd_root_dir + r_lba_le) buf) in
      let! size := from_opt (getle 4 (pvd_root_dir + r_size_le) buf) in
      ret (mkIso sp lba size).

(** The records of one directory block, from offset [off]. *)
Fixpoint lookup_block (fuel : nat) (buf name : list Z) (off : Z) : outcome (option (Z * Z)) :=
  if off <? ISO_BLOCK then
    match fuel with
    | O => NOFUEL
    | S k =>
        match getle 1 off buf with
        | None => STUCK
        | Some len =>
            if len =? 0 then OK None
            else
              match getle 1 (off + r_name_len) buf with
              | None => STUCK
              | Some nlen =>
                  if Z.of_nat (length buf) <? off + r_name + nlen then STUCK
                  else
                    let rname := slice (Z.to_nat (off + r_name)) (Z.to_nat nlen) buf in
                    if names rname name then
                      match getle 4 (off + r_lba_le) buf, getle 4 (off + r_size_le) buf with
                      | Some lba, Some size => OK (Some (lba, size))
                      | _, _ => STUCK
                      end
                    else lookup_block k buf name (off + len)
              end
        end
    end
  else OK None.

(** Every record has at least one byte: 2048 rounds are enough for a block. *)
Definition BLOCK_FUEL : nat := Z.to_nat ISO_BLOCK.

Fixpoint lookup_blocks (fuel : nat) (iso : canboot_iso) (name : list Z) (remaining lba : Z) : M D (Z * Z) :=
  if remaining =? 0 then err
  else
    match fuel with
    | O => nofuel
    | S k =>
        let! buf := disk_read ISO_BLOCK (u64 (lba * sectors_per iso)) (sectors_per iso) in
        match lookup_block BLOCK_FUEL buf name 0 with
        | OK (Some r) => ret r
        | OK None => if remaining <? ISO_BLOCK then err else lookup_blocks k iso name (remaining - ISO_BLOCK) (u32 (lba + 1))
        | ERR => err | STUCK => stuck | NOFUEL => nofuel
        end
    end.

(** The blocks of a directory of [root_size] bytes, one more for a rest. *)
Definition canboot_iso_lookup (iso : canboot_iso) (name : list Z) : M D (Z * Z) :=
  lookup_blocks (Z.to_nat (root_size iso / ISO_BLOCK + 1)) iso name (root_size iso) (root_lba iso).

(** The copy loop, [n] blocks left; [copied] is what has been copied. *)
Fixpoint read_blocks (n : nat) (iso : canboot_iso) (lba i to_read : Z) (copied : list Z) : M D (list Z) :=
  match n with
  | O => ret copied
  | S k =>
      let! tmp := disk_read ISO_BLOCK (u64 (u32 (lba + i) * sectors_per iso)) (sectors_per iso) in
      let have := Z.of_nat (length copied) in
      let chunk := if to_read <? u32 (have + ISO_BLOCK) then to_read - have else ISO_BLOCK in
      if Z.of_nat (length tmp) <? chunk then stuck
      else read_blocks k iso lba (i + 1) to_read (copied ++ take (Z.to_nat chunk) tmp)
  end.

Definition canboot_iso_read_file (iso : canboot_iso) (lba size buf_size : Z) : M D (list Z) :=
  let to_read := if size <? buf_size then size else buf_size in
  let n_sectors := u32 (to_read + ISO_BLOCK - 1) / ISO_BLOCK in
  read_blocks (Z.to_nat n_sectors) iso lba 0 to_read [].
End iso.

(** ** Volumes *)
Section iso_theorems.
Context {D : Type} `{BlockDevice D} `{!BlockDeviceLaws D}.
Implicit Types (d : D) (iso : canboot_iso).

(** ISO block [k] of a disk whose blocks divide 2048 bytes. *)
Definition iso_block d (sp k : Z) : list Z := concat (bd_blk d <$> seqZ (k * sp) sp).

Record iso_disk d (sp : Z) : Prop := {
  is_inv : bd_inv d;
  is_blocks : sp * bd_block_size d = 2048;
  is_count : bd_block_count d < 2 ^ 63;
}.

Lemma read_iso_block d sp k : iso_disk d sp -> 0 <= k -> (k + 1) * sp <= bd_block_count d ->
  disk_read ISO_BLOCK (u64 (k * sp)) sp d = (OK (iso_block d sp k), d) /\
  Z.of_nat (length (iso_block d sp k)) = 2048.
Proof.
  intros [Hi Hb Hc] Hk Hr. destruct (bd_geom d Hi) as [Hg _]. assert (0 < sp) by nia. split.
  - rewrite u64_small by nia. apply disk_read_run; [done|nia|lia|nia|lia].
  - unfold iso_block. rewrite (length_concat_const _ _ (Z.to_nat (bd_block_size d))).
    + rewrite length_seqZ. nia.
    + intros x Hx%elem_of_seqZ. pose proof (bd_blk_length d x Hi ltac:(nia)). lia.
Qed.

(** Reading a file: the first [min(size, buf_size)] bytes of its extent. *)
Lemma read_blocks_run d iso lba to_read (n : nat) i copied :
  iso_disk d (sectors_per iso) -> 0 <= lba -> 0 <= i -> (lba + i + Z.of_nat n) * sectors_per iso <= bd_block_count d ->
  lba + i + Z.of_nat n < 2 ^ 32 -> Z.of_nat (length copied) = 2048 * i ->
  2048 * i + 2048 * Z.of_nat n < to_read + 2048 -> to_read <= 2048 * i + 2048 * Z.of_nat n -> to_read < 2 ^ 31 ->
  read_blocks n iso lba i to_read copied d =
  (OK (copied ++ take (Z.to_nat (to_read - 2048 * i))
        (concat (iso_block d (sectors_per iso) <$> seqZ (lba + i) (Z.of_nat n)))), d).
Proof.
  intros Hd Hl. revert i copied. induction n as [|n IH]; intros i copied Hi Hcnt H32 Hlen Hlo Hhi H31.
  { cbn. replace (Z.to_nat (to_read - 2048 * i)) with 0%nat by lia. by rewrite take_0, app_nil_r. }
  cbn [read_blocks]. rewrite (u32_small (lba + i)) by lia.
  destruct (bd_geom d (is_inv _ _ Hd)) as [Hg _]. pose proof (is_blocks _ _ Hd) as Hbl. assert (0 < sectors_per iso) by nia.
  destruct (read_iso_block d (sectors_per iso) (lba + i) Hd) as [Hr Hbk]; [lia|nia|]. bstep Hr. rewrite Hlen.
  rewrite (u32_small (2048 * i + ISO_BLOCK)) by (lia). change ISO_BLOCK with 2048.
  rewrite seqZ_cons by lia. replace (Z.pred (Z.of_nat (S n))) with (Z.of_nat n) by lia.
  replace (Z.succ (lba + i)) with (lba + (i + 1)) by lia. cbn [fmap list_fmap concat].
  destruct (Z.ltb_spec to_read (2048 * i + 2048)) as [Hlast|Hmore].
  - assert (n = 0%nat) as -> by lia. rewrite (proj2 (Z.ltb_ge _ _)) by lia. cbn [read_blocks seqZ Z.of_nat fmap list_fmap concat].
    by rewrite app_nil_r.
  - rewrite (proj2 (Z.ltb_ge _ _)) by lia. rewrite (firstn_all2 (iso_block _ _ _)) by lia.
    rewrite IH; try lia; [|by rewrite length_app; lia]. rewrite <- app_assoc. do 3 f_equal.
    rewrite take_app. rewrite (firstn_all2 (iso_block d (sectors_per iso) (lba + i))) by lia. do 2 f_equal. lia.
Qed.

Theorem iso_read_file_exact d iso lba size buf_size :
  iso_disk d (sectors_per iso) -> 0 <= lba -> 0 <= size -> 0 <= buf_size ->
  let to_read := Z.min size buf_size in let n := (to_read + 2047) / 2048 in
  to_read < 2 ^ 31 - 2048 -> lba + n < 2 ^ 32 -> (lba + n) * sectors_per iso <= bd_block_count d ->
  canboot_iso_read_file iso lba size buf_size d =
  (OK (take (Z.to_nat to_read) (concat (iso_block d (sectors_per iso) <$> seqZ lba n))), d).
Proof.
  intros Hd Hl Hs Hb to_read n H31 H32 Hcnt. unfold canboot_iso_read_file.
  replace (if size <? buf_size then size else buf_size) with to_read
    by (unfold to_read; destruct (Z.ltb_spec size buf_size); lia).
  change (to_read + ISO_BLOCK - 1) with (to_read + 2048 - 1).
  replace (to_read + 2048 - 1) with (to_read + 2047) by lia. rewrite u32_small by lia. change ISO_BLOCK with 2048.
  fold n. assert (0 <= n /\ 2048 * n < to_read + 2048 /\ to_read <= 2048 * n) by (unfold n; zdm).
  rewrite (read_blocks_run d iso lba to_read (Z.to_nat n) 0 []); try (cbn; lia); [|done|rewrite Z2Nat.id by lia; rewrite Z.add_0_r; done].
  cbn [app]. rewrite Z.add_0_r, Z2Nat.id, Z.mul_0_r, Z.sub_0_r by lia. done.
Qed.

(** ** Opening a volume *)
(** A primary volume descriptor as ECMA-119 lays it out: the directory record
    of the root is at offset 156, its extent at 158 and its size at 166. *)
Record ecma_pvd (pvd : list Z) (lba size : Z) : Prop := {
  ep_type : getle 1 0 pvd = Some PVD_TYPE_PRIMARY;
  ep_magic : slice 1 5 pvd = str "CD001";
  ep_extent : getle 4 158 pvd = Some lba;
  ep_size : getle 4 166 pvd = Some size;
}.

(** Opening a standard volume takes the size of the root directory for
    its position: the descriptor structure of the driver has the root record
    eight bytes too far.  The size it takes is the next field of the record. *)
Theorem iso_root_misread d lba size :
  iso_disk d (2048 / bd_block_size d) -> 17 * (2048 / bd_block_size d) <= bd_block_count d ->
  ecma_pvd (iso_block d (2048 / bd_block_size d) 16) lba size ->
  exists iso, canboot_iso_open d = (OK iso, d) /\ root_lba iso = size /\
    getle 4 174 (iso_block d (2048 / bd_block_size d) 16) = Some (root_size iso).
Proof.
  intros Hd Hc [Ht Hm He Hs]. destruct (bd_geom d (is_inv _ _ Hd)) as [Hg _].
  pose proof (is_blocks _ _ Hd) as Hbl. set (sp := 2048 / bd_block_size d) in *. assert (0 < sp) by nia.
  destruct (read_iso_block d sp 16 Hd) as [Hr Hl]; [lia|lia|]. rewrite u64_small in Hr by (pose proof (is_count _ _ Hd); lia).
  pose proof (getle_Some 4 174 (iso_block d sp 16) ltac:(lia) ltac:(lia)) as Hx.
  eexists (mkIso sp size _). split; [|split; [done|exact Hx]]. unfold canboot_iso_open.
  rewrite (bind_OK _ _ _ d d) by done. cbv beta. rewrite (proj2 (Z.eqb_neq _ _)) by lia.
  change (ISO_BLOCK / bd_block_size d) with sp. rewrite (proj2 (Z.eqb_neq sp 0)) by lia.
  change (PVD_LBA * sp) with (16 * sp). bstep Hr. rewrite Ht. cbn [from_opt]. rewrite bind_ret, Z.eqb_refl. cbn [negb].
  rewrite decide_False by (intros Hn; by apply Hn). change (pvd_root_dir + r_lba_le) with 166.
  change (pvd_root_dir + r_size_le) with 174. rewrite Hs, Hx. done.
Qed.

(** ** Lookup *)
(** The records of a directory block from offset [off]: name, extent, size. *)
Inductive records (buf : list Z) : Z -> list (list Z * Z * Z) -> Prop :=
| records_end off : ISO_BLOCK <= off -> records buf off []
| records_pad off : 0 <= off < ISO_BLOCK -> getle 1 off buf = Some 0 -> records buf off []
| records_one off len nlen lba size rs :
    0 <= off < ISO_BLOCK -> getle 1 off buf = Some len -> 0 < len ->
    getle 1 (off + r_name_len) buf = Some nlen -> 0 <= nlen -> off + r_name + nlen <= Z.of_nat (length buf) ->
    getle 4 (off + r_lba_le) buf = Some lba -> getle 4 (off + r_size_le) buf = Some size ->
    records buf (off + len) rs ->
    records buf off ((slice (Z.to_nat (off + r_name)) (Z.to_nat nlen) buf, lba, size) :: rs).

(** The first record with the name. *)
Definition first_named (name : list Z) (rs : list (list Z * Z * Z)) : option (Z * Z) :=
  (fun '(_, lba, size) => (lba, size)) <$> find (fun '(rname, _, _) => names rname name) rs.

Lemma lookup_block_run buf name off rs (fuel : nat) :
  records buf off rs -> ISO_BLOCK - off <= Z.of_nat fuel ->
  lookup_block fuel buf name off = OK (first_named name rs).
Proof.
  intros Hr. revert fuel. induction Hr as [off Ho|off Ho Hz|off len nlen lba size rs Ho Hlen Hpos Hn Hn0 Hfit Hlba Hsize _ IH];
    intros fuel Hf.
  - destruct fuel; cbn [lookup_block]; by rewrite (proj2 (Z.ltb_ge _ _)) by lia.
  - destruct fuel as [|fuel]; [lia|]. cbn [lookup_block]. rewrite (proj2 (Z.ltb_lt _ _)) by lia. by rewrite Hz.
  - destruct fuel as [|fuel]; [lia|]. cbn [lookup_block]. rewrite (proj2 (Z.ltb_lt _ _)) by lia.
    rewrite Hlen, (proj2 (Z.eqb_neq len 0)), Hn by lia. rewrite (proj2 (Z.ltb_ge _ _)) by lia.
    unfold first_named. cbn [find]. destruct (names _ name); [by rewrite Hlba, Hsize|]. apply IH. lia.
Qed.

(** A lookup in a root directory of one block returns the first record with
    the name, whatever the case of its letters and its version, or fails. *)
Theorem iso_lookup_finds d iso name rs :
  iso_disk d (sectors_per iso) -> 0 <= root_lba iso -> (root_lba iso + 1) * sectors_per iso <= bd_block_count d ->
  0 < root_size iso < ISO_BLOCK -> records (iso_block d (sectors_per iso) (root_lba iso)) 0 rs ->
  canboot_iso_lookup iso name d = (match first_named name rs with Some r => OK r | None => ERR end, d).
Proof.
  intros Hd Hl Hc Hs Hr. unfold canboot_iso_lookup. rewrite Z.div_small by lia. change (Z.to_nat (0 + 1)) with 1%nat. cbn [lookup_blocks]. rewrite (proj2 (Z.eqb_neq _ _)) by lia.
  destruct (read_iso_block d (sectors_per iso) (root_lba iso) Hd Hl Hc) as [Hread _]. bstep Hread.
  rewrite (lookup_block_run _ name 0 rs BLOCK_FUEL Hr) by (unfold BLOCK_FUEL; lia).
  destruct (first_named name rs); [done|]. by rewrite (proj2 (Z.ltb_lt _ _)) by lia.
Qed.
End iso_theorems.

(** ** An image *)
(** A descriptor with the root directory at block 18, 2048 bytes long. *)
Definition pvd18 : list Z :=
  splice 156 ([34; 0] ++ le_enc 4 18 ++ rev (le_enc 4 18) ++ le_enc 4 2048 ++ rev (le_enc 4 2048))
    (splice 0 (1 :: str "CD001" ++ [1]) (replicate 2048 0)).
Definition iso_image : ramdisk :=
  mkRam CANBOOT_DISK_KIND_CDROM 2048 false (replicate 16 (replicate 2048 0) ++ [pvd18] ++ replicate 3 (replicate 2048 0)).

Lemma iso_root_misread_witness : exists iso,
  canboot_iso_open iso_image = (OK iso, iso_image) /\ root_lba iso = 2048.
Proof.
  assert (Hd : iso_disk iso_image 1).
  { split; [|reflexivity|reflexivity]. split; [done|]. split; [done|].
    apply Forall_app. split; [by apply Forall_replicate|]. apply Forall_cons. split; [vm_compute; reflexivity|].
    by apply Forall_replicate. }
  destruct (iso_root_misread iso_image 18 2048) as (iso & Ho & Hl & _).
  - exact Hd.
  - vm_compute. discriminate.
  - split; vm_compute; reflexivity.
  - exists iso. split; [exact Ho|exact Hl].
Defined.
