(* ===== verification/Boot.v ===== *)
(** * What the loader hands over

    The walk of the Multiboot2 information structure,
    [arch/x86_64/mb2_parse.c], and of the flattened device tree,
    [arch/aarch64/fdt.c].  The structure is the list of its bytes; reading
    past them is stuck.  Both walks are shown to end on every input, and the
    Multiboot2 walk to collect what a well-formed structure says. *)
From S2P Require Import Prelude Bytes Text.

(** ** Multiboot2 *)
Module Mb2.
Abbreviation MB2_TAG_END := 0 (only parsing).
Abbreviation MB2_TAG_CMDLINE := 1 (only parsing).
Abbreviation MB2_TAG_MMAP := 6 (only parsing).
Abbreviation MB2_TAG_FRAMEBUFFER := 8 (only parsing).
Abbreviation MB2_TAG_ACPI_OLD := 14 (only parsing).
Abbreviation MB2_TAG_ACPI_NEW := 15 (only parsing).
Abbreviation CANBOOT_MMAP_MAX := 256 (only parsing).

Abbreviation CANBOOT_FB_NONE := 0 (only parsing).
Abbreviation CANBOOT_FB_RGB := 1 (only parsing).
Abbreviation CANBOOT_FB_TEXT := 2 (only parsing).

(** [enum canboot_mmap_type], from the types of the specification. *)
Definition mmap_type (t : Z) : Z :=
  if t =? 1 then 1 else if t =? 3 then 2 else if t =? 4 then 3 else if t =? 5 then 4 else 0.

Record canboot_fb : Type := mkFb {
  addr : Z; width : Z; height : Z; pitch : Z; bpp : Z; format : Z;
  red_mask_size : Z; red_mask_shift : Z; green_mask_size : Z; green_mask_shift : Z;
  blue_mask_size : Z; blue_mask_shift : Z;
}.

(** [struct boot_info] without its constant header.  The memory map is the list
    of the base, length and type of its entries, [files] the addresses and
    sizes of the files a loader has read. *)
Record boot_info : Type := mkInfo {
  fb : canboot_fb;
  mmap : list (Z * Z * Z);
  acpi_rsdp : Z;
  cmdline_phys : Z;
  files : list (Z * Z);
}.

Definition zero_info : boot_info := mkInfo (mkFb 0 0 0 0 0 0 0 0 0 0 0 0) [] 0 0 [].

(** The framebuffer tag at offset [o]; the masks of an earlier tag stay. *)
Definition fb_tag (mem : list Z) (o : Z) (old : canboot_fb) : option canboot_fb :=
  a ← getle 8 (o + 8) mem; p ← getle 4 (o + 16) mem; w ← getle 4 (o + 20) mem; h ← getle 4 (o + 24) mem;
  b ← getle 1 (o + 28) mem; t ← getle 1 (o + 29) mem;
  if t =? 1 then
    rp ← getle 1 (o + 32) mem; rs ← getle 1 (o + 33) mem; gp ← getle 1 (o + 34) mem;
    gs ← getle 1 (o + 35) mem; bp ← getle 1 (o + 36) mem; bs ← getle 1 (o + 37) mem;
    Some (mkFb a w h p b CANBOOT_FB_RGB rs rp gs gp bs bp)
  else
    Some (mkFb a w h p b (if t =? 2 then CANBOOT_FB_TEXT else CANBOOT_FB_NONE)
            (red_mask_size old) (red_mask_shift old) (green_mask_size old) (green_mask_shift old)
            (blue_mask_size old) (blue_mask_shift old)).

(** The entries of the memory-map tag at [o], [n] of them from [i], [room] slots left. *)
Fixpoint mmap_entries (room : nat) (mem : list Z) (o esz n i : Z) : option (list (Z * Z * Z)) :=
  match room with
  | O => Some []
  | S k =>
      if n <=? i then Some []
      else
        b ← getle 8 (o + 16 + i * esz) mem; l ← getle 8 (o + 16 + i * esz + 8) mem;
        t ← getle 4 (o + 16 + i * esz + 16) mem;
        rest ← mmap_entries k mem o esz n (i + 1); Some ((b, l, mmap_type t) :: rest)
  end.

(** One tag of type [ty] and size [size] at [o], the structure being at [base]. *)
Definition apply_tag (base : Z) (mem : list Z) (o ty size : Z) (out : boot_info) : option boot_info :=
  if ty =? MB2_TAG_FRAMEBUFFER then
    f ← fb_tag mem o (fb out); Some (mkInfo f (mmap out) (acpi_rsdp out) (cmdline_phys out) (files out))
  else if ty =? MB2_TAG_MMAP then
    esz ← getle 4 (o + 8) mem;
    if esz =? 0 then Some out
    else
      es ← mmap_entries (Z.to_nat CANBOOT_MMAP_MAX) mem o esz (u32 (size - 16) / esz) 0;
      Some (mkInfo (fb out) es (acpi_rsdp out) (cmdline_phys out) (files out))
  else if ty =? MB2_TAG_CMDLINE then Some (mkInfo (fb out) (mmap out) (acpi_rsdp out) (base + o + 8) (files out))
  else if (ty =? MB2_TAG_ACPI_OLD) || (ty =? MB2_TAG_ACPI_NEW)
  then Some (mkInfo (fb out) (mmap out) (base + o + 8) (cmdline_phys out) (files out))
  else Some out.

Fixpoint tag_loop (fuel : nat) (base : Z) (mem : list Z) (total o : Z) (out : boot_info) : outcome boot_info :=
  if o <? total then
    match fuel with
    | O => NOFUEL
    | S k =>
        match getle 4 o mem with
        | None => STUCK
        | Some ty =>
            if ty =? MB2_TAG_END then OK out
            else
              match getle 4 (o + 4) mem with
              | None => STUCK
              | Some size =>
                  if size <? 8 then OK out
                  else
                    match apply_tag base mem o ty size out with
                    | None => STUCK
                    | Some out' =>
                        let advance := Z.land (u32 (size + 7)) (u32 (Z.lnot 7)) in
                        if advance =? 0 then OK out' else tag_loop k base mem total (o + advance) out'
                    end
              end
        end
    end
  else OK out.

(** A tag advances the cursor by at least 8: [total / 8 + 1] rounds are enough. *)
Definition mb2_to_boot_info (base : Z) (mem : list Z) : outcome boot_info :=
  match getle 4 0 mem with
  | None => STUCK
  | Some total => tag_loop (Z.to_nat (total / 8 + 1)) base mem total 8 zero_info
  end.

Lemma advance_mod v : Z.land (u32 v) (u32 (Z.lnot 7)) = 8 * (u32 v / 8).
Proof. apply (land_clear_low 32 3); [lia|apply u32_range]. Qed.

Lemma tag_loop_ends (fuel : nat) base mem total o out :
  (total - o) / 8 + 1 <= Z.of_nat fuel -> tag_loop fuel base mem total o out <> NOFUEL.
Proof.
  revert o out. induction fuel as [|fuel IH]; intros o out Hf; cbn [tag_loop].
  { rewrite (proj2 (Z.ltb_ge _ _)) by zdm. done. }
  destruct (o <? total); [|done]. destruct (getle 4 o mem); [|done]. destruct (_ =? MB2_TAG_END); [done|].
  destruct (getle 4 (o + 4) mem) as [size|]; [|done]. destruct (size <? 8); [done|].
  destruct (apply_tag _ _ _ _ _ _); [|done]. rewrite advance_mod.
  destruct (Z.eqb_spec (8 * (u32 (size + 7) / 8)) 0); [done|]. apply IH.
  pose proof (u32_range (size + 7)). zdm.
Qed.

(** *** Well-formed structures *)
(** A framebuffer description with RGB masks, a memory map, the command line,
    an ACPI table pointer, and any other tag. *)
Inductive tag : Type :=
| TFb (f : canboot_fb)
| TMmap (es : list (Z * Z * Z))
| TCmdline (s : list Z)
| TAcpi (table : list Z)
| TOther (ty : Z) (body : list Z).

Definition mmap_bytes (e : Z * Z * Z) : list Z :=
  let '(b, l, t) := e in le_enc 8 b ++ le_enc 8 l ++ le_enc 4 t ++ le_enc 4 0.

Definition tag_type (t : tag) : Z :=
  match t with TFb _ => 8 | TMmap _ => 6 | TCmdline _ => 1 | TAcpi _ => 15 | TOther ty _ => ty end.

Definition tag_body (t : tag) : list Z :=
  match t with
  | TFb f => le_enc 8 (addr f) ++ le_enc 4 (pitch f) ++ le_enc 4 (width f) ++ le_enc 4 (height f) ++
             [bpp f; 1; 0; 0; red_mask_shift f; red_mask_size f; green_mask_shift f; green_mask_size f;
              blue_mask_shift f; blue_mask_size f]
  | TMmap es => le_enc 4 24 ++ le_enc 4 0 ++ flat_map mmap_bytes es
  | TCmdline s => s ++ [0]
  | TAcpi table => table
  | TOther _ body => body
  end.

(** A tag with its header, padded to a multiple of eight bytes. *)
Definition tag_bytes (t : tag) : list Z :=
  let n := Z.of_nat (length (tag_body t)) + 8 in
  le_enc 4 (tag_type t) ++ le_enc 4 n ++ tag_body t ++ replicate (Z.to_nat ((n + 7) / 8 * 8 - n)) 0.

Definition info_bytes (ts : list tag) : list Z :=
  let body := flat_map tag_bytes ts ++ le_enc 4 MB2_TAG_END ++ le_enc 4 8 in
  le_enc 4 (8 + Z.of_nat (length body)) ++ le_enc 4 0 ++ body.

Definition tag_ok (t : tag) : Prop :=
  Z.of_nat (length (tag_body t)) < 2 ^ 24 /\
  match t with
  | TFb f => 0 <= addr f < 2 ^ 64 /\ 0 <= pitch f < 2 ^ 32 /\ 0 <= width f < 2 ^ 32 /\ 0 <= height f < 2 ^ 32 /\
             format f = CANBOOT_FB_RGB
  | TMmap es => (length es <= 256)%nat /\
                Forall (fun '(b, l, t) => 0 <= b < 2 ^ 64 /\ 0 <= l < 2 ^ 64 /\ 0 <= t < 2 ^ 32) es
  | TOther ty _ => 0 <= ty < 2 ^ 32 /\ ty <> 0 /\ ty <> 1 /\ ty <> 6 /\ ty <> 8 /\ ty <> 14 /\ ty <> 15
  | _ => True
  end.

(** What a tag at offset [o] of the structure adds to the boot information. *)
Definition record_tag (base o : Z) (t : tag) (out : boot_info) : boot_info :=
  match t with
  | TFb f => mkInfo f (mmap out) (acpi_rsdp out) (cmdline_phys out) (files out)
  | TMmap es => mkInfo (fb out) ((fun '(b, l, t) => (b, l, mmap_type t)) <$> es) (acpi_rsdp out) (cmdline_phys out) (files out)
  | TCmdline _ => mkInfo (fb out) (mmap out) (acpi_rsdp out) (base + o + 8) (files out)
  | TAcpi _ => mkInfo (fb out) (mmap out) (base + o + 8) (cmdline_phys out) (files out)
  | TOther _ _ => out
  end.

Fixpoint record_tags (base o : Z) (ts : list tag) (out : boot_info) : boot_info :=
  match ts with
  | [] => out
  | t :: ts' => record_tags base (o + Z.of_nat (length (tag_bytes t))) ts' (record_tag base o t out)
  end.

Lemma getle_skip n k (a b : list Z) : 0 <= k -> getle n (Z.of_nat (length a) + k) (a ++ b) = getle n k b.
Proof.
  intros Hk. unfold getle. rewrite length_app.
  replace (0 <=? Z.of_nat (length a) + k) with (0 <=? k) by (destruct (Z.leb_spec 0 k), (Z.leb_spec 0 (Z.of_nat (length a) + k)); lia).
  replace (Z.of_nat (length a) + k + Z.of_nat n <=? Z.of_nat (length a + length b)) with (k + Z.of_nat n <=? Z.of_nat (length b))
    by (destruct (Z.leb_spec (k + Z.of_nat n) (Z.of_nat (length b))), (Z.leb_spec (Z.of_nat (length a) + k + Z.of_nat n) (Z.of_nat (length a + length b))); lia).
  destruct (_ && _); [|done]. do 2 f_equal. unfold slice. rewrite drop_app_ge by lia. do 2 f_equal. lia.
Qed.

Lemma getle_enc n v rest : 0 <= v < 2 ^ (8 * Z.of_nat n) -> getle n 0 (le_enc n v ++ rest) = Some v.
Proof.
  intros Hv. rewrite getle_Some; [|lia|rewrite length_app, length_le_enc; lia]. f_equal. unfold slice. cbn [Z.to_nat].
  rewrite drop_0, take_app_length' by (by rewrite length_le_enc). rewrite le_dec_enc. by apply Z.mod_small.
Qed.

(** A field of a structure given by its bytes. *)
Lemma getle_field n k v X : (k + n <= length X)%nat -> slice k n X = le_enc n v -> 0 <= v < 2 ^ (8 * Z.of_nat n) ->
  getle n (Z.of_nat k) X = Some v.
Proof.
  intros Hl Hs Hv. rewrite getle_Some by lia. rewrite Nat2Z.id, Hs, le_dec_enc. f_equal. by apply Z.mod_small.
Qed.

Lemma getle_byte k v X : slice k 1 X = [v] -> getle 1 (Z.of_nat k) X = Some v.
Proof.
  intros Hs. assert (Hl : (k + 1 <= length X)%nat).
  { assert (length (slice k 1 X) = 1%nat) as Hl by (by rewrite Hs). unfold slice in Hl. rewrite length_take, length_drop in Hl. lia. }
  rewrite getle_Some by lia. rewrite Nat2Z.id, Hs. cbn [le_dec]. f_equal. lia.
Qed.

Lemma mmap_entries_run mem o es (room : nat) i pre post :
  mem = pre ++ flat_map mmap_bytes es ++ post -> Z.of_nat (length pre) = o + 16 + i * 24 -> (length es <= room)%nat ->
  Forall (fun '(b, l, t) => 0 <= b < 2 ^ 64 /\ 0 <= l < 2 ^ 64 /\ 0 <= t < 2 ^ 32) es ->
  mmap_entries room mem o 24 (i + Z.of_nat (length es)) i = Some ((fun '(b, l, t) => (b, l, mmap_type t)) <$> es).
Proof.
  revert room i pre. induction es as [|[[b l] t] es IH]; intros room i pre Hm Hp Hr Hes.
  { destruct room; cbn [mmap_entries length]; [done|]. by rewrite (proj2 (Z.leb_le _ _)) by lia. }
  destruct room as [|room]; [cbn in Hr; lia|]. apply Forall_cons in Hes as [(Hb & Hl & Ht) Hes]. cbn [mmap_entries].
  rewrite (proj2 (Z.leb_gt _ _)) by (cbn [length]; lia).
  set (X := flat_map mmap_bytes ((b, l, t) :: es) ++ post) in *.
  assert (HX : (24 <= length X)%nat) by (unfold X; cbn [flat_map mmap_bytes]; rewrite !length_app, !length_le_enc; lia).
  assert (Hf : forall n k v, (k + n <= 24)%nat -> slice k n X = le_enc n v -> 0 <= v < 2 ^ (8 * Z.of_nat n) ->
    getle n (o + 16 + i * 24 + Z.of_nat k) mem = Some v).
  { intros n k v Hk Hs Hv. rewrite Hm, <- Hp, getle_skip by lia. apply getle_field; [lia|done|done]. }
  pose proof (Hf 8%nat 0%nat b ltac:(lia) eq_refl Hb) as H1. pose proof (Hf 8%nat 8%nat l ltac:(lia) eq_refl Hl) as H2.
  pose proof (Hf 4%nat 16%nat t ltac:(lia) eq_refl Ht) as H3. rewrite Z.add_0_r in H1.
  change (Z.of_nat 8) with 8 in H2. change (Z.of_nat 16) with 16 in H3.
  rewrite H1. cbn [mbind option_bind]. rewrite H2. cbn [mbind option_bind]. rewrite H3. cbn [mbind option_bind].
  replace (i + Z.of_nat (length ((b, l, t) :: es))) with (i + 1 + Z.of_nat (length es)) by (cbn [length]; lia).
  rewrite (IH room (i + 1) (pre ++ mmap_bytes (b, l, t))); [done| | |cbn in Hr; lia|done].
  - rewrite Hm. unfold X. cbn [flat_map]. by rewrite <- !app_assoc.
  - rewrite length_app. cbn [mmap_bytes]. rewrite !length_app, !length_le_enc. lia.
Qed.

Lemma length_tag_bytes t : Z.of_nat (length (tag_bytes t)) = 8 * ((Z.of_nat (length (tag_body t)) + 15) / 8).
Proof. unfold tag_bytes. rewrite !length_app, !length_le_enc, length_replicate. zdm. Qed.

(** Run the next field read of an option computation with its equation. *)
Ltac field H := rewrite H; cbn [mbind option_bind].

Lemma fb_tag_run mem f old pre post :
  mem = pre ++ tag_bytes (TFb f) ++ post -> tag_ok (TFb f) -> fb_tag mem (Z.of_nat (length pre)) old = Some f.
Proof.
  intros Hm (_ & Ha & Hp & Hw & Hh & Hf). set (X := tag_bytes (TFb f) ++ post) in *. set (o := Z.of_nat (length pre)).
  assert (HX : (38 <= length X)%nat)
    by (unfold X, tag_bytes; cbn [tag_body tag_type]; rewrite !length_app, !length_le_enc; cbn [length]; lia).
  assert (H1 : forall n k v, (k + n <= 38)%nat -> slice k n X = le_enc n v -> 0 <= v < 2 ^ (8 * Z.of_nat n) ->
    getle n (o + Z.of_nat k) mem = Some v).
  { intros n k v Hk Hs Hv. rewrite Hm. unfold o. rewrite getle_skip by lia. apply getle_field; [lia|done|done]. }
  assert (H2 : forall k v, slice k 1 X = [v] -> getle 1 (o + Z.of_nat k) mem = Some v).
  { intros k v Hs. rewrite Hm. unfold o. rewrite getle_skip by lia. by apply getle_byte. }
  unfold fb_tag.
  field (H1 8%nat 8%nat (addr f) ltac:(lia) eq_refl Ha : getle 8 (o + 8) mem = _).
  field (H1 4%nat 16%nat (pitch f) ltac:(lia) eq_refl Hp : getle 4 (o + 16) mem = _).
  field (H1 4%nat 20%nat (width f) ltac:(lia) eq_refl Hw : getle 4 (o + 20) mem = _).
  field (H1 4%nat 24%nat (height f) ltac:(lia) eq_refl Hh : getle 4 (o + 24) mem = _).
  field (H2 28%nat (bpp f) eq_refl : getle 1 (o + 28) mem = _). field (H2 29%nat 1 eq_refl : getle 1 (o + 29) mem = _).
  cbn [Z.eqb Pos.eqb].
  field (H2 32%nat (red_mask_shift f) eq_refl : getle 1 (o + 32) mem = _).
  field (H2 33%nat (red_mask_size f) eq_refl : getle 1 (o + 33) mem = _).
  field (H2 34%nat (green_mask_shift f) eq_refl : getle 1 (o + 34) mem = _).
  field (H2 35%nat (green_mask_size f) eq_refl : getle 1 (o + 35) mem = _).
  field (H2 36%nat (blue_mask_shift f) eq_refl : getle 1 (o + 36) mem = _).
  field (H2 37%nat (blue_mask_size f) eq_refl : getle 1 (o + 37) mem = _).
  destruct f; cbn in Hf |- *. by subst.
Qed.

Lemma length_mmap_bytes es : Z.of_nat (length (flat_map mmap_bytes es)) = 24 * Z.of_nat (length es).
Proof.
  induction es as [|[[b l] t] es IH]; [done|]. cbn [flat_map]. rewrite length_app. cbn [mmap_bytes length].
  rewrite !length_app, !length_le_enc. lia.
Qed.

Lemma mmap_tag_run base mem es out pre post :
  mem = pre ++ tag_bytes (TMmap es) ++ post -> tag_ok (TMmap es) ->
  apply_tag base mem (Z.of_nat (length pre)) 6 (Z.of_nat (length (tag_body (TMmap es))) + 8) out =
  Some (record_tag base (Z.of_nat (length pre)) (TMmap es) out).
Proof.
  intros Hm (Hlen & Hn & Hes). unfold apply_tag. cbn [Z.eqb Pos.eqb].
  rewrite Hm at 1. rewrite getle_skip by lia.
  field (getle_field 4 8 24 (tag_bytes (TMmap es) ++ post) : _ -> _ -> _ -> getle 4 8 _ = _); [|
    unfold tag_bytes; cbn [tag_body tag_type]; rewrite !length_app, !length_le_enc; lia|reflexivity|lia].
  cbn [Z.eqb]. set (n := Z.of_nat (length (tag_body (TMmap es))) + 8) in *.
  assert (Hn24 : n = 16 + 24 * Z.of_nat (length es))
    by (unfold n; cbn [tag_body]; rewrite !length_app, !length_le_enc; pose proof (length_mmap_bytes es); lia).
  rewrite u32_small by lia. replace ((n - 16) / 24) with (0 + Z.of_nat (length es)) by zdm.
  rewrite (mmap_entries_run mem (Z.of_nat (length pre)) es _ 0
    (pre ++ le_enc 4 6 ++ le_enc 4 n ++ le_enc 4 24 ++ le_enc 4 0)
    (replicate (Z.to_nat ((n + 7) / 8 * 8 - n)) 0 ++ post)); [done| | |lia|done].
  - rewrite Hm. unfold tag_bytes. cbn [tag_type]. fold n. cbn [tag_body]. by rewrite <- !app_assoc.
  - rewrite !length_app, !length_le_enc. lia.
Qed.

Lemma apply_tag_run base mem t out pre post :
  mem = pre ++ tag_bytes t ++ post -> tag_ok t ->
  apply_tag base mem (Z.of_nat (length pre)) (tag_type t) (Z.of_nat (length (tag_body t)) + 8) out =
  Some (record_tag base (Z.of_nat (length pre)) t out).
Proof.
  intros Hm Ht. destruct t as [f|es|s|tb|ty body]; [|by eapply mmap_tag_run|done|done|].
  - unfold apply_tag. cbn [tag_type Z.eqb Pos.eqb]. by rewrite (fb_tag_run mem f (fb out) pre post).
  - destruct Ht as (_ & Hr & H0 & H1 & H6 & H8 & H14 & H15). unfold apply_tag. cbn [tag_type].
    by rewrite !(proj2 (Z.eqb_neq ty _)) by done.
Qed.

Lemma tag_type_ok t : tag_ok t -> 0 <= tag_type t < 2 ^ 32 /\ tag_type t <> MB2_TAG_END.
Proof. intros [_ Ht]. destruct t; cbn in *; lia. Qed.

Lemma tag_loop_run base mem ts (fuel : nat) out pre :
  mem = pre ++ flat_map tag_bytes ts ++ le_enc 4 MB2_TAG_END ++ le_enc 4 8 -> Forall tag_ok ts -> (length ts < fuel)%nat ->
  tag_loop fuel base mem (Z.of_nat (length mem)) (Z.of_nat (length pre)) out =
  OK (record_tags base (Z.of_nat (length pre)) ts out).
Proof.
  intros Hm Hts. revert fuel out pre Hm. induction Hts as [|t ts Ht _ IH]; intros fuel out pre Hm Hf;
    (destruct fuel as [|fuel]; [lia|]); cbn [tag_loop record_tags].
  - rewrite (proj2 (Z.ltb_lt _ _)) by (rewrite Hm, !length_app, !length_le_enc; lia).
    rewrite Hm at 1. rewrite <- (Z.add_0_r (Z.of_nat (length pre))) at 1. rewrite getle_skip by lia. done.
  - cbn [flat_map] in Hm. rewrite <- app_assoc in Hm. pose proof (length_tag_bytes t) as Hlt.
    destruct (tag_type_ok t Ht) as [Hty Hne]. assert (Hsz : Z.of_nat (length (tag_body t)) < 2 ^ 24) by apply Ht.
    set (post := flat_map tag_bytes ts ++ _) in *. set (X := tag_bytes t ++ post) in *.
    assert (H8 : 8 <= Z.of_nat (length (tag_bytes t))) by (rewrite Hlt; zdm).
    rewrite (proj2 (Z.ltb_lt _ _)) by (rewrite Hm; unfold X; rewrite !length_app; lia).
    assert (Hf1 : getle 4 (Z.of_nat (length pre)) mem = Some (tag_type t)).
    { rewrite Hm, <- (Z.add_0_r (Z.of_nat (length pre))), getle_skip by lia.
      apply (getle_field 4 0); [unfold X; rewrite length_app; lia|reflexivity|lia]. }
    assert (Hf2 : getle 4 (Z.of_nat (length pre) + 4) mem = Some (Z.of_nat (length (tag_body t)) + 8)).
    { rewrite Hm, getle_skip by lia. apply (getle_field 4 4); [unfold X; rewrite length_app; lia|reflexivity|lia]. }
    rewrite Hf1, (proj2 (Z.eqb_neq _ _)), Hf2 by done. rewrite (proj2 (Z.ltb_ge _ _)) by lia.
    rewrite (apply_tag_run base mem t out pre post Hm Ht), advance_mod, (u32_small (_ + 7)) by lia.
    replace (8 * ((Z.of_nat (length (tag_body t)) + 8 + 7) / 8)) with (Z.of_nat (length (tag_bytes t)))
      by (rewrite Hlt; do 2 f_equal; lia).
    rewrite (proj2 (Z.eqb_neq _ _)) by lia. rewrite <- Nat2Z.inj_add, <- length_app.
    apply IH; [|cbn in Hf; lia]. rewrite Hm. unfold X, post. by rewrite <- !app_assoc.
Qed.


Definition demo_tags : list tag :=
  [TCmdline (str "quiet"); TOther 2 (str "GRUB");
   TMmap [(0, 0x9FC00, 1); (0x100000, 0x7EE0000, 1); (0xFFFC0000, 0x40000, 2)];
   TFb (mkFb 0xFD000000 1024 768 4096 32 CANBOOT_FB_RGB 8 16 8 8 8 0); TAcpi (str "RSD PTR ")].


(** The walk of any information structure ends. *)
Theorem mb2_total base mem : mb2_to_boot_info base mem <> NOFUEL.
Proof.
  unfold mb2_to_boot_info. destruct (getle 4 0 mem) as [total|] eqn:E; [|done]. apply tag_loop_ends.
  destruct (Z.le_gt_cases 0 (total / 8 + 1)); zdm.
Qed.
End Mb2.

(** ** The flattened device tree *)
Module Fdt.
Abbreviation FDT_MAGIC := 0xd00dfeed (only parsing).
Abbreviation FDT_BEGIN_NODE := 1 (only parsing).
Abbreviation FDT_END_NODE := 2 (only parsing).
Abbreviation FDT_PROP := 3 (only parsing).
Abbreviation FDT_NOP := 4 (only parsing).
Abbreviation FDT_END := 9 (only parsing).

Definition be32 (v : Z) : Z :=
  Z.lor (Z.lor (Z.shiftl (Z.land v 0x000000FF) 24) (Z.shiftl (Z.land v 0x0000FF00) 8))
    (Z.lor (Z.shiftr (Z.land v 0x00FF0000) 8) (Z.shiftr (Z.land v 0xFF000000) 24)).

(** The big-endian word at offset [o]. *)
Definition word (o : Z) (mem : list Z) : option Z := be32 <$> getle 4 o mem.

(** [str_eq] and [starts_with] of the C string at offset [o] and a literal. *)
Fixpoint str_eq (mem : list Z) (o : Z) (b : list Z) : option bool :=
  c ← getle 1 o mem;
  match b with
  | [] => Some (c =? 0)
  | x :: b' => if c =? x then str_eq mem (o + 1) b' else Some false
  end.

Fixpoint starts_with (mem : list Z) (o : Z) (prefix : list Z) : option bool :=
  match prefix with
  | [] => Some true
  | x :: p' => c ← getle 1 o mem; if c =? x then starts_with mem (o + 1) p' else Some false
  end.

(** The bytes of the C string at [o] with its NUL, [fuel] bytes at most. *)
Fixpoint name_bytes (fuel : nat) (mem : list Z) (o : Z) : option Z :=
  match fuel with
  | O => None
  | S k => c ← getle 1 o mem; if c =? 0 then Some 1 else n ← name_bytes k mem (o + 1); Some (n + 1)
  end.

(** Eight bytes, the most significant first. *)
Fixpoint be_bytes (n : nat) (mem : list Z) (o acc : Z) : option Z :=
  match n with
  | O => Some acc
  | S k => b ← getle 1 o mem; be_bytes k mem (o + 1) (Z.lor (u64 (Z.shiftl acc 8)) b)
  end.

(** The pairs of a [reg] property of [len] bytes at [data], [room] slots left. *)
Fixpoint reg_pairs (room : nat) (mem : list Z) (data len i : Z) : option (list (Z * Z)) :=
  match room with
  | O => Some []
  | S k =>
      if u32 (i + 16) <=? len then
        b ← be_bytes 8 mem (data + i) 0; s ← be_bytes 8 mem (data + i + 8) 0;
        rest ← reg_pairs k mem data len (u32 (i + 16)); Some ((b, s) :: rest)
      else Some []
  end.

(** The state of the walk: the flags by depth, the depth, the pairs found. *)
Record state : Type := mkState { in_memory : list bool; depth : Z; found : list (Z * Z) }.

(** [FDT_BEGIN_NODE] with its name at [p]: the new state and the bytes to skip, or [-1]. *)
Definition begin_node (mem : list Z) (p : Z) (st : state) : option (option (state * Z)) :=
  m1 ← starts_with mem p (str "memory@");
  m2 ← (if m1 : bool then Some true else str_eq mem p (str "memory"));
  let d := depth st + 1 in
  if 16 <=? d then Some None
  else
    n ← name_bytes (S (length mem)) mem p;
    Some (Some (mkState (<[Z.to_nat d := m2]> (in_memory st)) d (found st), 4 * ((n + 3) / 4))).

(** [FDT_PROP] with its header at [p]. *)
Definition property (mem : list Z) (strings max p : Z) (st : state) : option (state * Z) :=
  len ← word p mem; nameoff ← word (p + 4) mem;
  inside ← in_memory st !! Z.to_nat (depth st);
  reg ← (if inside : bool then str_eq mem (strings + nameoff) (str "reg") else Some false);
  pairs ← (if reg : bool then reg_pairs (Z.to_nat (max - Z.of_nat (length (found st)))) mem (p + 8) len 0 else Some []);
  Some (mkState (in_memory st) (depth st) (found st ++ pairs), 8 + 4 * (u32 (len + 3) / 4)).

(** The result of the walk and the pairs written so far. *)
Fixpoint token_loop (fuel : nat) (mem : list Z) (strings max end_ p : Z) (st : state) : outcome (Z * list (Z * Z)) :=
  if p <? end_ then
    match fuel with
    | O => NOFUEL
    | S k =>
        match word p mem with
        | None => STUCK
        | Some tok =>
            let p := p + 4 in
            if tok =? FDT_BEGIN_NODE then
              match begin_node mem p st with
              | None => STUCK
              | Some None => OK (-1, found st)
              | Some (Some (st', n)) => token_loop k mem strings max end_ (p + n) st'
              end
            else if tok =? FDT_END_NODE then
              token_loop k mem strings max end_ p
                (mkState (in_memory st) (if 0 <? depth st then depth st - 1 else depth st) (found st))
            else if tok =? FDT_PROP then
              match property mem strings max p st with
              | None => STUCK
              | Some (st', n) => token_loop k mem strings max end_ (p + n) st'
              end
            else if tok =? FDT_NOP then token_loop k mem strings max end_ p st
            else if tok =? FDT_END then OK (0, found st)
            else OK (-1, found st)
        end
    end
  else OK (0, found st).

(** Every round moves forward by a word: [size / 4 + 1] rounds are enough. *)
Definition canboot_fdt_walk_memory (mem : list Z) (max : Z) : outcome (Z * list (Z * Z)) :=
  match word 0 mem with
  | None => STUCK
  | Some magic =>
      if negb (magic =? FDT_MAGIC) then OK (-1, [])
      else
        match word 12 mem, word 8 mem, word 36 mem with
        | Some strings, Some start, Some size =>
            token_loop (Z.to_nat (size / 4 + 1)) mem strings max (start + size) start
              (mkState (replicate 16 false) 0 [])
        | _, _, _ => STUCK
        end
  end.

Lemma name_bytes_pos fuel mem o n : name_bytes fuel mem o = Some n -> 0 < n.
Proof.
  revert o n. induction fuel as [|fuel IH]; intros o n Hn; [done|]. cbn in Hn.
  destruct (getle 1 o mem) as [c|]; [|done]. cbn in Hn. destruct (c =? 0); [injection Hn as <-; lia|].
  destruct (name_bytes fuel mem (o + 1)) as [m|] eqn:E; [|done]. cbn in Hn. injection Hn as <-. specialize (IH _ _ E). lia.
Qed.

Lemma begin_node_forward mem p st st' n : begin_node mem p st = Some (Some (st', n)) -> 0 <= n.
Proof.
  unfold begin_node. intros Hb. destruct (starts_with mem p (str "memory@")) as [m1|]; [|done]. cbn [mbind option_bind] in Hb.
  destruct (if m1 then Some true else str_eq mem p (str "memory")) as [m2|]; [|done]. cbn [mbind option_bind] in Hb.
  destruct (16 <=? depth st + 1); [done|].
  destruct (name_bytes (S (length mem)) mem p) as [m|] eqn:E; [|done]. cbn [mbind option_bind] in Hb. injection Hb as <- <-.
  pose proof (name_bytes_pos _ _ _ _ E). zdm.
Qed.

Lemma property_forward mem strings max p st st' n : property mem strings max p st = Some (st', n) -> 0 <= n.
Proof.
  unfold property. intros Hp. destruct (word p mem) as [len|]; [|done]. cbn [mbind option_bind] in Hp.
  destruct (word (p + 4) mem) as [o|]; [|done]. cbn [mbind option_bind] in Hp.
  destruct (in_memory st !! _) as [i|]; [|done]. cbn [mbind option_bind] in Hp.
  destruct (if i then _ else _) as [r|]; [|done]. cbn [mbind option_bind] in Hp.
  destruct (if r then _ else _) as [ps|]; [|done]. cbn [mbind option_bind] in Hp. injection Hp as <- <-.
  pose proof (u32_range (len + 3)). zdm.
Qed.

Lemma token_loop_ends (fuel : nat) mem strings max end_ p st :
  (end_ - p) / 4 + 1 <= Z.of_nat fuel -> token_loop fuel mem strings max end_ p st <> NOFUEL.
Proof.
  revert p st. induction fuel as [|fuel IH]; intros p st Hf; cbn [token_loop].
  { rewrite (proj2 (Z.ltb_ge _ _)) by zdm. done. }
  destruct (p <? end_); [|done]. destruct (word p mem) as [tok|]; [|done].
  destruct (tok =? FDT_BEGIN_NODE).
  { destruct (begin_node mem (p + 4) st) as [[[st' n]|]|] eqn:E; [|done..].
    apply begin_node_forward in E. apply IH. zdm. }
  destruct (tok =? FDT_END_NODE); [apply IH; zdm|]. destruct (tok =? FDT_PROP).
  { destruct (property mem strings max (p + 4) st) as [[st' n]|] eqn:E; [|done].
    apply property_forward in E. apply IH. zdm. }
  destruct (tok =? FDT_NOP); [apply IH; zdm|]. by destruct (tok =? FDT_END).
Qed.

(** The walk of any blob ends. *)
Theorem fdt_total mem max : canboot_fdt_walk_memory mem max <> NOFUEL.
Proof.
  unfold canboot_fdt_walk_memory. destruct (word 0 mem) as [magic|]; [|done]. destruct (negb _); [done|].
  destruct (word 12 mem), (word 8 mem) as [start|], (word 36 mem) as [size|]; try done. apply token_loop_ends.
  replace (start + size - start) with size by lia. destruct (Z.le_gt_cases 0 (size / 4 + 1)); lia.
Qed.
End Fdt.
