(* ===== verification/Heap.v ===== *)
(** * The heap, [rt/picolibc_port/syscalls.c]

    [canboot_heap_init] picks the memory [malloc] lives in: the largest piece
    of a usable region of the loader's map that touches nothing in use.
    [sbrk] hands it out, or a static arena before.  Addresses are 64-bit
    numbers. *)
From S2P Require Import Prelude Bytes Boot.
Import Mb2.

Abbreviation CANBOOT_MMAP_USABLE := 1 (only parsing).
Abbreviation CANBOOT_BOOT_FILE_MAX := 4 (only parsing).
Abbreviation CANBOOT_BOOTSTRAP_HEAP := (256 * 1024) (only parsing).

(** [sizeof(struct boot_info)]. *)
Definition SIZEOF_BOOT_INFO : Z := 6416.

Record heap_iv : Type := mkIv { iv_s : Z; iv_e : Z }.

Definition heap_iv_add (cap s e : Z) (iv : list heap_iv) : list heap_iv :=
  if (e <=? s) || (cap <=? Z.of_nat (length iv)) then iv else iv ++ [mkIv s e].

(** The heap variables of the file. *)
Record heap : Type := mkHeap {
  bootstrap_used : Z; heap_base : Z; heap_size : Z; heap_used : Z; heap_ready : bool;
}.

(** What the machine gives: the linker's symbols (0 when absent), the address
    of the boot information, the stack pointer, the end of mapped memory. *)
Record machine : Type := mkMach {
  kernel_start : Z; kernel_end : Z; bi_addr : Z; sp : Z; x86_64 : bool;
}.

Definition ceiling (e : machine) : Z := if x86_64 e then 0x100000000 else u64 (Z.lnot 0).

(** The loop over the loader's files. *)
Fixpoint exclude_files (cap : Z) (fs : list (Z * Z)) (iv : list heap_iv) : list heap_iv :=
  match fs with
  | [] => iv
  | (a, size) :: fs => exclude_files cap fs (if size =? 0 then iv else heap_iv_add cap a (u64 (a + size)) iv)
  end.

Definition exclusions (e : machine) (bi : boot_info) : list heap_iv :=
  let cap := 8 + CANBOOT_BOOT_FILE_MAX in
  let iv := if negb (kernel_start e =? 0) && negb (kernel_end e =? 0)
            then heap_iv_add cap (kernel_start e) (kernel_end e) [] else [] in
  let iv := heap_iv_add cap (bi_addr e) (u64 (bi_addr e + SIZEOF_BOOT_INFO)) iv in
  let iv := if (format (fb bi) =? CANBOOT_FB_RGB) && negb (addr (fb bi) =? 0)
            then heap_iv_add cap (addr (fb bi)) (u64 (addr (fb bi) + u64 (pitch (fb bi) * height (fb bi)))) iv else iv in
  let iv := exclude_files cap (take (Z.to_nat CANBOOT_BOOT_FILE_MAX) (files bi)) iv in
  heap_iv_add cap (u64 (sp e - 512 * 1024)) (u64 (sp e + 64 * 1024)) iv.

(** The inner loop: where the next protected interval cuts the span from
    [cursor] to [ee], and where that interval ends. *)
Definition cut_step (cursor ee : Z) (hit : option (Z * Z)) (iv : heap_iv) : option (Z * Z) :=
  if (iv_e iv <=? cursor) || (ee <=? iv_s iv) then hit
  else
    let s := if iv_s iv <? cursor then cursor else iv_s iv in
    match hit with
    | Some (cut_s, _) => if s <? cut_s then Some (s, iv_e iv) else hit
    | None => Some (s, iv_e iv)
    end.
Definition cut (excl : list heap_iv) (cursor ee : Z) : option (Z * Z) := fold_left (cut_step cursor ee) excl None.

(** The loop over the gaps of one region; [best] is base and length. *)
Fixpoint gaps (fuel : nat) (excl : list heap_iv) (cursor ee : Z) (best : Z * Z) : outcome (Z * Z) :=
  if cursor <? ee then
    match fuel with
    | O => NOFUEL
    | S k =>
        let hit := cut excl cursor ee in
        let gap_end := match hit with Some (cut_s, _) => cut_s | None => ee end in
        let best := if best.2 <? gap_end - cursor then (cursor, gap_end - cursor) else best in
        match hit with
        | None => OK best
        | Some (_, cut_e) => gaps k excl (if cursor <? cut_e then cut_e else u64 (cursor + 1)) ee best
        end
    end
  else OK best.

(** The scan of the memory map.  Each gap but the last ends at a protected
    interval that is then passed for good, so there are at most as many rounds
    as intervals, and one more. *)
Fixpoint scan (excl : list heap_iv) (ceil : Z) (map : list (Z * Z * Z)) (best : Z * Z) : outcome (Z * Z) :=
  match map with
  | [] => OK best
  | (es, l, ty) :: map =>
      if negb (ty =? CANBOOT_MMAP_USABLE) then scan excl ceil map best
      else
        let ee := u64 (es + l) in
        if ceil <=? es then scan excl ceil map best
        else
          let ee := if ceil <? ee then ceil else ee in
          match gaps (S (length excl)) excl es ee best with
          | OK best => scan excl ceil map best
          | ERR => ERR | STUCK => STUCK | NOFUEL => NOFUEL
          end
  end.

(** The page-aligned part of a span. *)
Definition align_span (best : Z * Z) : Z * Z :=
  let aligned := Z.land (u64 (best.1 + 0xFFF)) (u64 (Z.lnot 0xFFF)) in
  let slack := u64 (aligned - best.1) in
  (aligned, if slack <? best.2 then Z.land (best.2 - slack) (u64 (Z.lnot 0xFFF)) else 0).

Definition canboot_heap_init (e : machine) (bi : option boot_info) (h : heap) : outcome heap :=
  match bi with
  | None => OK h
  | Some bi =>
      if heap_ready h then OK h
      else
        match scan (exclusions e bi) (ceiling e) (take (Z.to_nat CANBOOT_MMAP_MAX) (mmap bi)) (0, 0) with
        | OK best =>
            let (aligned, avail) := align_span best in
            OK (if 1024 * 1024 <=? avail then mkHeap (bootstrap_used h) aligned avail 0 true else h)
        | ERR => ERR | STUCK => STUCK | NOFUEL => NOFUEL
        end
  end.

(** [arena] is the address of the static arena; [None] is [(void * )-1] with
    [ENOMEM]. *)
Definition sbrk (arena incr : Z) (h : heap) : option Z * heap :=
  if heap_ready h then
    if incr <? 0 then
      if heap_used h <? u64 (- incr) then (None, h)
      else
        let used := heap_used h - u64 (- incr) in
        (Some (heap_base h + used), mkHeap (bootstrap_used h) (heap_base h) (heap_size h) used true)
    else if u64 (heap_size h - heap_used h) <? incr then (None, h)
    else (Some (heap_base h + heap_used h),
          mkHeap (bootstrap_used h) (heap_base h) (heap_size h) (heap_used h + incr) true)
  else if incr <? 0 then
    if bootstrap_used h <? u64 (- incr) then (None, h)
    else
      let used := bootstrap_used h - u64 (- incr) in
      (Some (arena + used), mkHeap used (heap_base h) (heap_size h) (heap_used h) false)
  else if u64 (CANBOOT_BOOTSTRAP_HEAP - bootstrap_used h) <? incr then (None, h)
  else (Some (arena + bootstrap_used h),
        mkHeap (bootstrap_used h + incr) (heap_base h) (heap_size h) (heap_used h) false).

Definition canboot_heap_bytes_used (h : heap) : Z := if heap_ready h then heap_used h else bootstrap_used h.
Definition canboot_heap_bytes_total (h : heap) : Z := if heap_ready h then heap_size h else CANBOOT_BOOTSTRAP_HEAP.

(** ** Gaps *)
(** No protected interval meets the addresses from [x] to [y]. *)
Definition free_span (excl : list heap_iv) (x y : Z) : Prop :=
  forall a iv, x <= a < y -> iv ∈ excl -> ~ (iv_s iv <= a < iv_e iv).

Definition cut_ok (excl : list heap_iv) (cursor ee : Z) (hit : option (Z * Z)) : Prop :=
  match hit with
  | None => forall iv, iv ∈ excl -> iv_e iv <= cursor \/ ee <= iv_s iv
  | Some (cs, ce) => cursor <= cs < ee /\ cursor < ce /\
      (exists iv, iv ∈ excl /\ iv_e iv = ce /\ cs = Z.max cursor (iv_s iv)) /\
      forall iv, iv ∈ excl -> iv_e iv <= cursor \/ cs <= Z.max cursor (iv_s iv)
  end.

Lemma cut_step_ok excl cursor ee hit iv :
  cursor < ee -> cut_ok excl cursor ee hit -> cut_ok (excl ++ [iv]) cursor ee (cut_step cursor ee hit iv).
Proof.
  intros Hc Hh. unfold cut_step.
  assert (Hin : forall P : heap_iv -> Prop, (forall i, i ∈ excl -> P i) -> P iv -> forall i, i ∈ excl ++ [iv] -> P i).
  { intros P HP Hi i [?|?]%elem_of_app; [auto|]. by apply list_elem_of_singleton in H as ->. }
  assert (Hex : forall P, (exists i, i ∈ excl /\ P i) -> exists i, i ∈ excl ++ [iv] /\ P i).
  { intros P (i & ? & ?). exists i. rewrite elem_of_app. auto. }
  assert (Hmine : iv ∈ excl ++ [iv]) by (apply elem_of_app; right; by constructor).
  destruct (Z.leb_spec (iv_e iv) cursor) as [H1|H1]; cbn [orb];
    [|destruct (Z.leb_spec ee (iv_s iv)) as [H2|H2]; cbn [orb]].
  1, 2: destruct hit as [[cs ce]|]; cbn [cut_ok] in *;
    [destruct Hh as (? & ? & ? & ?); split; [done|]; split; [done|]; split; [by apply Hex|]|]; apply Hin; auto; lia.
  assert (Hs : (if iv_s iv <? cursor then cursor else iv_s iv) = Z.max cursor (iv_s iv)) by
    (destruct (Z.ltb_spec (iv_s iv) cursor); lia).
  cbv zeta. rewrite Hs.
  assert (Hnew : (forall i, i ∈ excl -> iv_e i <= cursor \/ Z.max cursor (iv_s iv) <= Z.max cursor (iv_s i)) ->
    cut_ok (excl ++ [iv]) cursor ee (Some (Z.max cursor (iv_s iv), iv_e iv))).
  { intros Ha. split; [lia|]. split; [lia|]. split; [exists iv; split; [done|]; split; [done|lia]|].
    apply Hin; [done|lia]. }
  destruct hit as [[cs ce]|]; cbn [cut_ok] in Hh.
  - destruct Hh as (? & ? & ? & Hall). destruct (Z.ltb_spec (Z.max cursor (iv_s iv)) cs).
    + apply Hnew. intros i Hi. destruct (Hall i Hi); lia.
    + split; [done|]. split; [done|]. split; [by apply Hex|]. apply Hin; [done|lia].
  - apply Hnew. intros i Hi. destruct (Hh i Hi); lia.
Qed.

Lemma cut_spec excl cursor ee : cursor < ee -> cut_ok excl cursor ee (cut excl cursor ee).
Proof.
  intros Hc. unfold cut. induction excl as [|iv excl IH] using rev_ind; [by intros ? ?%elem_of_nil|].
  rewrite fold_left_app. by apply cut_step_ok.
Qed.

(** The intervals that end after [c]. *)
Fixpoint ahead (c : Z) (excl : list heap_iv) : nat :=
  match excl with [] => 0 | iv :: excl => (if c <? iv_e iv then 1 else 0) + ahead c excl end.

Lemma ahead_le excl c : (ahead c excl <= length excl)%nat.
Proof. induction excl as [|iv excl IH]; cbn [ahead length]; [lia|]. destruct (_ <? _); lia. Qed.

Lemma ahead_mono excl c c' : c <= c' -> (ahead c' excl <= ahead c excl)%nat.
Proof.
  intros Hc. induction excl as [|iv excl IH]; cbn [ahead]; [lia|].
  destruct (Z.ltb_spec c' (iv_e iv)), (Z.ltb_spec c (iv_e iv)); lia.
Qed.

Lemma ahead_lt excl c c' iv : iv ∈ excl -> c < iv_e iv <= c' -> (ahead c' excl < ahead c excl)%nat.
Proof.
  intros Hi Hc. induction excl as [|iv' excl IH]; [by apply elem_of_nil in Hi|].
  cbn [ahead]. apply elem_of_cons in Hi as [->|Hi].
  - pose proof (ahead_mono excl c c' ltac:(lia)).
    destruct (Z.ltb_spec c' (iv_e iv')), (Z.ltb_spec c (iv_e iv')); lia.
  - specialize (IH Hi). destruct (Z.ltb_spec c' (iv_e iv')), (Z.ltb_spec c (iv_e iv')); lia.
Qed.

(** The gaps of one region: the loop ends, keeps the best span or replaces it by
    a longer free one of the region, and is not beaten by any. *)
Lemma gaps_spec excl ee (fuel : nat) : forall cursor best,
  Forall (fun iv => iv_s iv < iv_e iv) excl ->
  (ahead cursor excl < fuel)%nat ->
  exists best', gaps fuel excl cursor ee best = OK best' /\ best.2 <= best'.2 /\
    (best' = best \/ cursor <= best'.1 /\ best'.1 + best'.2 <= ee /\ free_span excl best'.1 (best'.1 + best'.2)) /\
    forall x y, cursor <= x -> y <= ee -> free_span excl x y -> x < y -> y - x <= best'.2.
Proof.
  induction fuel as [|fuel IH]; intros cursor best Hne Hf; [lia|]. cbn [gaps].
  destruct (Z.ltb_spec cursor ee) as [Hlt|Hge]; [|exists best; repeat split; [lia|by left|lia]].
  pose proof (cut_spec excl cursor ee Hlt) as Hcut. cbv zeta.
  set (gap_end := match cut excl cursor ee with Some (cs, _) => cs | None => ee end).
  assert (Hgap : free_span excl cursor gap_end /\ gap_end <= ee).
  { subst gap_end. destruct (cut excl cursor ee) as [[cs ce]|]; cbn in Hcut.
    - destruct Hcut as (? & ? & _ & Hall). split; [|lia]. intros a iv Ha Hi. destruct (Hall iv Hi); lia.
    - split; [|lia]. intros a iv Ha Hi. destruct (Hcut iv Hi); lia. }
  set (best1 := if best.2 <? gap_end - cursor then (cursor, gap_end - cursor) else best).
  assert (Hb1 : best.2 <= best1.2 /\ gap_end - cursor <= best1.2 /\
    (best1 = best \/ cursor <= best1.1 /\ best1.1 + best1.2 <= ee /\ free_span excl best1.1 (best1.1 + best1.2))).
  { subst best1. destruct (Z.ltb_spec best.2 (gap_end - cursor)); cbn [fst snd];
      [|split; [lia|]; split; [lia|by left]].
    split; [lia|]. split; [lia|]. right. replace (cursor + (gap_end - cursor)) with gap_end by lia. split; [lia|]. apply and_comm, Hgap. }
  destruct Hb1 as (Hle & Hgl & Hbest). clearbody best1.
  destruct (cut excl cursor ee) as [[cs ce]|] eqn:Ec; cbn in Hcut; subst gap_end.
  2: { exists best1. repeat split; auto. intros x y ? ? _ ?. lia. }
  destruct Hcut as (Hcs & Hce & (iv & Hi & Hie & His) & _). rewrite (proj2 (Z.ltb_lt _ _) Hce).
  destruct (IH ce best1 Hne) as (best' & -> & H1 & H2 & H3); [pose proof (ahead_lt excl cursor ce iv Hi ltac:(lia)); lia|].
  exists best'. split; [done|]. split; [lia|]. split.
  - destruct H2 as [->|(? & ? & ?)]; [done|]. right. repeat split; auto; lia.
  - intros x y Hx Hy Hfree Hxy. destruct (Z.le_gt_cases y cs); [lia|]. destruct (Z.le_gt_cases ce x); [auto|].
    exfalso. rewrite Forall_forall in Hne. specialize (Hne iv Hi). apply (Hfree (Z.max x cs) iv); [lia|done|lia].
Qed.

(** The spans in usable memory below the end of what is mapped. *)
Definition usable_span (ceil : Z) (map : list (Z * Z * Z)) (x y : Z) : Prop :=
  exists b l, (b, l, CANBOOT_MMAP_USABLE) ∈ map /\ b <= x /\ y <= Z.min ceil (u64 (b + l)).

Lemma usable_span_cons ceil m map x y : usable_span ceil map x y -> usable_span ceil (m :: map) x y.
Proof. intros (b & l & Hin & ?). exists b, l. split; [by right|done]. Qed.

Lemma scan_spec excl ceil map : forall best,
  Forall (fun iv => iv_s iv < iv_e iv) excl ->
  exists best', scan excl ceil map best = OK best' /\ best.2 <= best'.2 /\
    (best' = best \/ usable_span ceil map best'.1 (best'.1 + best'.2) /\ free_span excl best'.1 (best'.1 + best'.2)) /\
    forall x y, usable_span ceil map x y -> free_span excl x y -> x < y -> y - x <= best'.2.
Proof.
  induction map as [|[[b l] ty] map IH]; intros best Hne; cbn [scan].
  { exists best. repeat split; [lia|by left|]. by intros x y (? & ? & ?%elem_of_nil & _). }
  assert (Hskip : (forall x y, x < y -> b <= x -> y <= Z.min ceil (u64 (b + l)) -> ty <> CANBOOT_MMAP_USABLE) ->
    exists best', scan excl ceil map best = OK best' /\ best.2 <= best'.2 /\
    (best' = best \/ usable_span ceil ((b, l, ty) :: map) best'.1 (best'.1 + best'.2) /\ free_span excl best'.1 (best'.1 + best'.2)) /\
    forall x y, usable_span ceil ((b, l, ty) :: map) x y -> free_span excl x y -> x < y -> y - x <= best'.2).
  { intros Hno. destruct (IH best Hne) as (best' & -> & H1 & H2 & H3). exists best'. repeat split; auto.
    - destruct H2 as [->|[? ?]]; [by left|right]. split; [by apply usable_span_cons|done].
    - intros x y (b' & l' & [[= <- <- <-]|Hin]%elem_of_cons & Hb & Hy) Hf Hxy; [by edestruct Hno|].
      apply H3; auto. by exists b', l'. }
  destruct (Z.eqb_spec ty CANBOOT_MMAP_USABLE) as [->|Hty]; cbn [negb]; [|by apply Hskip].
  destruct (Z.leb_spec ceil b) as [Hb|Hb]; [apply Hskip; lia|]. clear Hskip.
  assert (Hmin : (if ceil <? u64 (b + l) then ceil else u64 (b + l)) = Z.min ceil (u64 (b + l))) by
    (destruct (Z.ltb_spec ceil (u64 (b + l))); lia).
  rewrite Hmin.
  destruct (gaps_spec excl (Z.min ceil (u64 (b + l))) (S (length excl)) b best Hne) as (b1 & -> & H1 & H2 & H3);
    [pose proof (ahead_le excl b); lia|].
  destruct (IH b1 Hne) as (best' & -> & H4 & H5 & H6). exists best'. split; [done|]. split; [lia|]. split.
  - destruct H5 as [->|[? ?]]; [|right; split; [by apply usable_span_cons|done]].
    destruct H2 as [->|(? & ? & ?)]; [by left|right]. split; [|done]. exists b, l. split; [by left|done].
  - intros x y (b' & l' & [[= <- <-]|Hin]%elem_of_cons & Hb' & Hy) Hf Hxy; [by etrans; [apply (H3 x y)|]|].
    apply H6; auto. by exists b', l'.
Qed.

(** ** Protected memory *)
Lemma heap_iv_add_ne cap s e iv :
  Forall (fun iv => iv_s iv < iv_e iv) iv -> Forall (fun iv => iv_s iv < iv_e iv) (heap_iv_add cap s e iv).
Proof.
  intros H. unfold heap_iv_add. destruct (Z.leb_spec e s); cbn [orb]; [done|]. destruct (_ <=? _); [done|].
  apply Forall_app. split; [done|]. by constructor.
Qed.

(** The addresses of the intervals. *)
Definition covered (iv : list heap_iv) (a : Z) : Prop := exists i, i ∈ iv /\ iv_s i <= a < iv_e i.

Lemma covered_free excl x y : free_span excl x y <-> forall a, x <= a < y -> ~ covered excl a.
Proof.
  split.
  - intros H a Ha (i & Hi & Hb). by apply (H a i).
  - intros H a i Ha Hi Hb. apply (H a Ha). by exists i.
Qed.

Lemma covered_add cap s e iv a :
  Z.of_nat (length iv) < cap ->
  (covered (heap_iv_add cap s e iv) a <-> covered iv a \/ s <= a < e) /\
  (length (heap_iv_add cap s e iv) <= S (length iv))%nat.
Proof.
  intros Hl. unfold heap_iv_add. rewrite (proj2 (Z.leb_gt _ _) Hl), orb_false_r.
  destruct (Z.leb_spec e s).
  - split; [|lia]. split; [by left|]. intros [?|?]; [done|lia].
  - split; [|rewrite length_app; cbn; lia]. unfold covered. setoid_rewrite elem_of_app.
    setoid_rewrite list_elem_of_singleton. split.
    + intros (i & [Hi| ->] & Hb); [left; by exists i|by right].
    + intros [(i & Hi & Hb)|Hb]; [exists i|exists (mkIv s e)]; auto.
Qed.

Lemma covered_files cap fs a : forall iv,
  Z.of_nat (length iv + length fs) <= cap ->
  (covered (exclude_files cap fs iv) a <->
   covered iv a \/ exists b n, (b, n) ∈ fs /\ n <> 0 /\ b <= a < u64 (b + n)) /\
  (length (exclude_files cap fs iv) <= length iv + length fs)%nat.
Proof.
  induction fs as [|[b n] fs IH]; intros iv Hl; cbn [exclude_files length] in *.
  { split; [|lia]. split; [by left|]. intros [?|(? & ? & ?%elem_of_nil & _)]; done. }
  assert (Hcons : (exists b' n', (b', n') ∈ (b, n) :: fs /\ n' <> 0 /\ b' <= a < u64 (b' + n')) <->
    (n <> 0 /\ b <= a < u64 (b + n)) \/ exists b' n', (b', n') ∈ fs /\ n' <> 0 /\ b' <= a < u64 (b' + n')).
  { setoid_rewrite elem_of_cons. split.
    - intros (b' & n' & [[= -> ->]|?] & ?); [by left|right; eauto].
    - intros [?|(b' & n' & ? & ?)]; eauto 10. }
  rewrite Hcons. destruct (Z.eqb_spec n 0) as [->|Hn].
  - destruct (IH iv) as [-> Hlen]; [lia|]. split; [|lia]. tauto.
  - destruct (covered_add cap b (u64 (b + n)) iv a) as [Hc Hlen]; [lia|].
    destruct (IH (heap_iv_add cap b (u64 (b + n)) iv)) as [-> Hlen']; [lia|]. split; [|lia]. rewrite Hc. tauto.
Qed.

Lemma exclude_files_ne cap fs : forall iv,
  Forall (fun iv => iv_s iv < iv_e iv) iv -> Forall (fun iv => iv_s iv < iv_e iv) (exclude_files cap fs iv).
Proof.
  induction fs as [|[b n] fs IH]; intros iv H; cbn [exclude_files]; [done|].
  apply IH. destruct (_ =? _); [done|by apply heap_iv_add_ne].
Qed.

Lemma exclusions_ne e bi : Forall (fun iv => iv_s iv < iv_e iv) (exclusions e bi).
Proof.
  unfold exclusions. apply heap_iv_add_ne, exclude_files_ne.
  destruct (_ && _); [apply heap_iv_add_ne|]; apply heap_iv_add_ne; destruct (_ && _); try apply heap_iv_add_ne; constructor.
Qed.

(** What must not become heap: the kernel image, the boot information, the
    framebuffer, the loader's files, and the stack from 512 KiB below to 64 KiB
    above its pointer. *)
Definition protected (e : machine) (bi : boot_info) (a : Z) : Prop :=
  kernel_start e <> 0 /\ kernel_end e <> 0 /\ kernel_start e <= a < kernel_end e \/
  bi_addr e <= a < bi_addr e + SIZEOF_BOOT_INFO \/
  format (fb bi) = CANBOOT_FB_RGB /\ addr (fb bi) <> 0 /\
    addr (fb bi) <= a < addr (fb bi) + pitch (fb bi) * height (fb bi) \/
  (exists b n, (b, n) ∈ take (Z.to_nat CANBOOT_BOOT_FILE_MAX) (files bi) /\ b <= a < b + n) \/
  sp e - 512 * 1024 <= a < sp e + 64 * 1024.

(** Nothing the loader reports wraps around the address space. *)
Record loader_ok (e : machine) (bi : boot_info) : Prop := {
  lo_bi : 0 <= bi_addr e < 2 ^ 64 - SIZEOF_BOOT_INFO;
  lo_sp : 512 * 1024 <= sp e < 2 ^ 64 - 64 * 1024;
  lo_fb : 0 <= addr (fb bi) /\ 0 <= pitch (fb bi) * height (fb bi) /\
          addr (fb bi) + pitch (fb bi) * height (fb bi) < 2 ^ 64;
  lo_files : Forall (fun '(b, n) => 0 <= b /\ 0 <= n /\ b + n < 2 ^ 64) (files bi);
  lo_mmap : Forall (fun '(b, l, _) => 0 <= b /\ 0 <= l /\ b + l < 2 ^ 64) (mmap bi);
}.

(** Adding an interval under a condition, as the code does for the kernel and
    the framebuffer. *)
Lemma covered_add_if (c : bool) (C : Prop) cap s e iv a :
  Z.of_nat (length iv) < cap -> (c = true <-> C) ->
  (covered (if c then heap_iv_add cap s e iv else iv) a <-> covered iv a \/ C /\ s <= a < e) /\
  (length (if c then heap_iv_add cap s e iv else iv) <= S (length iv))%nat.
Proof.
  intros Hl HC. destruct c; [|split; [|lia]].
  - destruct (covered_add cap s e iv a Hl) as [-> ?]. split; [tauto|done].
  - split; [by left|]. intros [?|[?%HC _]]; done.
Qed.

Lemma files_nowrap bi fl a :
  Forall (fun '(b, n) => 0 <= b /\ 0 <= n /\ b + n < 2 ^ 64) (files bi) -> fl ⊆ files bi ->
  (exists b n, (b, n) ∈ fl /\ n <> 0 /\ b <= a < u64 (b + n)) <-> exists b n, (b, n) ∈ fl /\ b <= a < b + n.
Proof.
  rewrite Forall_forall. intros Hf Hfl. split.
  - intros (b & n & Hin & Hn & Ha). exists b, n. split; [done|].
    specialize (Hf _ (Hfl _ Hin)). cbn in Hf. rewrite u64_small in Ha; lia.
  - intros (b & n & Hin & Ha). exists b, n. split; [done|].
    specialize (Hf _ (Hfl _ Hin)). cbn in Hf. rewrite u64_small; lia.
Qed.

Lemma exclusions_covered e bi a : loader_ok e bi -> covered (exclusions e bi) a <-> protected e bi a.
Proof.
  intros [Hbi Hsp Hfb Hfiles _]. unfold exclusions, protected. cbv zeta.
  change (8 + CANBOOT_BOOT_FILE_MAX) with 12. set (fl := take _ (files bi)).
  assert (Hfl : (length fl <= 4)%nat) by (unfold fl; rewrite length_take; lia).
  destruct (covered_add_if (negb (kernel_start e =? 0) && negb (kernel_end e =? 0))
    (kernel_start e <> 0 /\ kernel_end e <> 0) 12 (kernel_start e) (kernel_end e) [] a) as [H1 L1];
    [done|by rewrite andb_true_iff, !negb_true_iff, !Z.eqb_neq|].
  set (iv1 := if _ && _ then heap_iv_add 12 (kernel_start e) (kernel_end e) [] else []) in *. clearbody iv1. cbn [length] in L1.
  destruct (covered_add 12 (bi_addr e) (u64 (bi_addr e + SIZEOF_BOOT_INFO)) iv1 a) as [H2 L2]; [lia|].
  set (iv2 := heap_iv_add _ _ _ iv1) in *. clearbody iv2.
  destruct (covered_add_if ((format (fb bi) =? CANBOOT_FB_RGB) && negb (addr (fb bi) =? 0))
    (format (fb bi) = CANBOOT_FB_RGB /\ addr (fb bi) <> 0) 12 (addr (fb bi))
    (u64 (addr (fb bi) + u64 (pitch (fb bi) * height (fb bi)))) iv2 a) as [H3 L3];
    [lia|by rewrite andb_true_iff, negb_true_iff, Z.eqb_neq, Z.eqb_eq|].
  set (iv3 := if _ && _ then heap_iv_add 12 (addr (fb bi)) _ iv2 else iv2) in *. clearbody iv3.
  destruct (covered_files 12 fl a iv3) as [H4 L4]; [lia|].
  set (iv4 := exclude_files _ fl iv3) in *. clearbody iv4.
  destruct (covered_add 12 (u64 (sp e - 512 * 1024)) (u64 (sp e + 64 * 1024)) iv4 a) as [-> _]; [lia|].
  rewrite H4, H3, H2, H1, (files_nowrap bi) by (try apply subseteq_take; done).
  rewrite (u64_small (pitch _ * _)), !u64_small by (unfold SIZEOF_BOOT_INFO in *; lia).
  assert (covered [] a <-> False) as -> by (split; [by intros (? & ?%elem_of_nil & _)|done]).
  split; [intros [[[[[[]|[[? ?] ?]]|?]|[[? ?] ?]]|?]|?]|intros [(? & ? & ?)|[?|[(? & ? & ?)|[?|?]]]]]; auto 10.
Qed.

(** ** Alignment *)
Lemma align_span_spec b l :
  0 <= b -> 0 <= l -> b + l < 2 ^ 64 ->
  let (al, av) := align_span (b, l) in
  al mod 4096 = 0 /\ av mod 4096 = 0 /\ l - 8192 < av /\ (0 < av -> b <= al /\ al + av <= b + l).
Proof.
  intros Hb Hl Hbl. unfold align_span. cbn [fst snd].
  change (u64 (Z.lnot 0xFFF)) with (Z.lnot (Z.ones 12) mod 2 ^ 64).
  rewrite land_clear_low by (try apply u64_range; lia). change (2 ^ 12) with 4096.
  assert (Hm : forall q, (4096 * q) mod 4096 = 0) by (intros q; rewrite Z.mul_comm; apply Z.mod_mul; lia).
  pose proof (Z.div_mod (u64 (b + 0xFFF)) 4096 ltac:(lia)) as Hd.
  pose proof (Z.mod_pos_bound (u64 (b + 0xFFF)) 4096 ltac:(lia)) as Hr.
  set (al := 4096 * _) in *. assert (Hal : al mod 4096 = 0) by apply Hm. clearbody al.
  destruct (Z.lt_ge_cases (b + 0xFFF) (2 ^ 64)) as [Hw|Hw].
  - rewrite u64_small in Hd, Hr by lia. rewrite (u64_small (al - b)) by lia.
    destruct (Z.ltb_spec (al - b) l); [|split; [done|]; split; [done|]; lia].
    rewrite land_clear_low by lia. change (2 ^ 12) with 4096.
    pose proof (Z.div_mod (l - (al - b)) 4096 ltac:(lia)).
    pose proof (Z.mod_pos_bound (l - (al - b)) 4096 ltac:(lia)).
    split; [done|]. split; [apply Hm|]. lia.
  - assert (Hu : u64 (b + 0xFFF) = b + 0xFFF - 2 ^ 64) by (unfold u64; symmetry; apply Z.mod_unique with 1; lia).
    rewrite Hu, Z.mod_small in Hd by lia. assert (al = 0) by lia. subst al.
    assert (u64 (0 - b) = 2 ^ 64 - b) as -> by (unfold u64; symmetry; apply Z.mod_unique with (-1); lia).
    rewrite (proj2 (Z.ltb_ge _ _)) by lia. split; [done|]. split; [done|]. lia.
Qed.

(** ** Growing the heap *)
(** The spans [sbrk] hands out for a sequence of increments. *)
Fixpoint grown (arena : Z) (incs : list Z) (h : heap) : list (Z * Z) :=
  match incs with
  | [] => []
  | n :: incs =>
      let (r, h') := sbrk arena n h in
      match r with Some p => if 0 <? n then [(p, n)] else [] | None => [] end ++ grown arena incs h'
  end.

Lemma grown_inside arena incs : forall h p n,
  heap_ready h = true -> 0 <= heap_used h <= heap_size h -> heap_size h < 2 ^ 64 ->
  Forall (fun n => - 2 ^ 63 <= n < 2 ^ 63) incs -> (p, n) ∈ grown arena incs h ->
  heap_base h <= p /\ p + n <= heap_base h + heap_size h.
Proof.
  induction incs as [|i incs IH]; intros h p n Hr Hu Hs Hi Hin; [by apply elem_of_nil in Hin|].
  apply Forall_cons in Hi as [Hi His]. cbn [grown] in Hin. unfold sbrk in Hin. rewrite Hr in Hin.
  destruct (Z.ltb_spec i 0) as [Hneg|Hpos].
  - rewrite u64_small in Hin by lia. destruct (Z.ltb_spec (heap_used h) (- i)); cbn [app] in Hin; [by apply IH in Hin|].
    rewrite (proj2 (Z.ltb_ge _ _)) in Hin by lia. apply IH in Hin; [done|done|cbn; lia|done|done].
  - rewrite u64_small in Hin by lia. destruct (Z.ltb_spec (heap_size h - heap_used h) i); cbn [app] in Hin; [by apply IH in Hin|].
    apply elem_of_app in Hin as [Hin|Hin]; [|apply IH in Hin; [done|done|cbn; lia|done|done]].
    destruct (0 <? i); [|by apply elem_of_nil in Hin]. apply list_elem_of_singleton in Hin as [= -> ->]. lia.
Qed.

(** A span inside a region the loader reports as usable, below the end of what
    the kernel maps. *)
Definition usable (e : machine) (bi : boot_info) (x y : Z) : Prop :=
  exists b l, (b, l, CANBOOT_MMAP_USABLE) ∈ take (Z.to_nat CANBOOT_MMAP_MAX) (mmap bi) /\
    b <= x /\ y <= b + l /\ y <= ceiling e.

Lemma usable_iff e bi x y : loader_ok e bi ->
  usable_span (ceiling e) (take (Z.to_nat CANBOOT_MMAP_MAX) (mmap bi)) x y <-> usable e bi x y.
Proof.
  intros [_ _ _ _ Hm]. rewrite Forall_forall in Hm. unfold usable, usable_span.
  assert (Hu : forall b l t, (b, l, t) ∈ take (Z.to_nat CANBOOT_MMAP_MAX) (mmap bi) -> u64 (b + l) = b + l).
  { intros b l t Hin. specialize (Hm _ (subseteq_take _ _ _ Hin)). cbn in Hm. rewrite u64_small; lia. }
  split; intros (b & l & Hin & ?); exists b, l; rewrite (Hu _ _ _ Hin) in *; (split; [done|lia]).
Qed.

(** C39.  The heap never overlaps memory in use.  [canboot_heap_init] ends; if it
    takes a region, that is page-aligned, at least 1 MiB, inside usable memory,
    and every byte [sbrk] ever hands out of it, for any sequence of calls, lies
    in it and is none of the kernel's, the boot information's, the
    framebuffer's, a boot file's or the stack's.  It does take one when usable
    memory has a free span of 1 MiB and two pages, and then no free span is
    longer by two pages. *)
Theorem heap_init_safe e bi h arena incs :
  loader_ok e bi -> heap_ready h = false -> Forall (fun n => - 2 ^ 63 <= n < 2 ^ 63) incs ->
  exists h', canboot_heap_init e (Some bi) h = OK h' /\
    (heap_ready h' = true ->
      2 ^ 20 <= heap_size h' /\ heap_base h' mod 4096 = 0 /\ heap_size h' mod 4096 = 0 /\
      usable e bi (heap_base h') (heap_base h' + heap_size h') /\
      forall p n a, (p, n) ∈ grown arena incs h' -> p <= a < p + n ->
        heap_base h' <= a < heap_base h' + heap_size h' /\ ~ protected e bi a) /\
    forall x y, usable e bi x y -> (forall a, x <= a < y -> ~ protected e bi a) -> 2 ^ 20 + 8192 <= y - x ->
      heap_ready h' = true /\ y - x - 8192 < heap_size h'.
Proof.
  intros Hok Hr Hincs. unfold canboot_heap_init. rewrite Hr.
  assert (Hfree : forall x y, free_span (exclusions e bi) x y <-> forall a, x <= a < y -> ~ protected e bi a).
  { intros x y. rewrite covered_free. by setoid_rewrite (exclusions_covered e bi _ Hok). }
  destruct (scan_spec (exclusions e bi) (ceiling e) (take (Z.to_nat CANBOOT_MMAP_MAX) (mmap bi)) (0, 0)
    (exclusions_ne e bi)) as ([b l] & -> & Hl & Hbest & Hmax). cbn [fst snd] in *.
  rewrite usable_iff in Hbest by done. setoid_rewrite usable_iff in Hmax; [|done]. setoid_rewrite Hfree in Hmax. rewrite Hfree in Hbest.
  assert (Hb : 0 <= b /\ b + l < 2 ^ 64).
  { destruct Hbest as [[= -> ->]|[(rb & rl & Hin & ?) _]]; [lia|]. destruct Hok as [_ _ _ _ Hm].
    rewrite Forall_forall in Hm. specialize (Hm _ (subseteq_take _ _ _ Hin)). cbn in Hm. lia. }
  pose proof (align_span_spec b l ltac:(lia) Hl ltac:(lia)) as Hal.
  destruct (align_span (b, l)) as [al av]. destruct Hal as (Ha1 & Ha2 & Ha3 & Ha4).
  eexists. split; [reflexivity|]. change (1024 * 1024) with (2 ^ 20). destruct (Z.leb_spec (2 ^ 20) av) as [Hav|Hav]; cbn [heap_ready heap_base heap_size].
  - destruct Ha4 as [? ?]; [lia|]. destruct Hbest as [[= -> ->]|[(rb & rl & Hin & ?) Hf]]; [lia|]. split.
    + intros _. repeat (split; [done|]). split; [exists rb, rl; split; [done|lia]|].
      intros p n a Hin' Ha. apply grown_inside in Hin'; [|done|cbn; lia|cbn; lia|done]. cbn in Hin'.
      split; [lia|]. apply Hf. lia.
    + intros x y Hu Hxf Hxy. split; [done|]. specialize (Hmax x y Hu Hxf ltac:(lia)). lia.
  - rewrite Hr. split; [done|]. intros x y Hu Hxf Hxy. specialize (Hmax x y Hu Hxf ltac:(lia)). lia.
Qed.

(** A machine of 128 MiB with the kernel from 1 to 3 MiB, a framebuffer above
    memory and a boot file in the middle of it. *)
Definition demo_machine : machine := mkMach 0x100000 0x300000 0x200000 0x2F0000 true.
Definition demo_info : boot_info :=
  mkInfo (mkFb 0xFD000000 1024 768 4096 32 CANBOOT_FB_RGB 8 16 8 8 8 0)
    [(0, 0x9FC00, 1); (0x9FC00, 0x400, 0); (0x100000, 0x7F00000, 1)] 0 0 [(0x2000000, 0x12345)].

Lemma heap_init_safe_witness :
  exists h', canboot_heap_init demo_machine (Some demo_info) (mkHeap 0 0 0 0 false) = OK h' /\
    heap_ready h' = true /\ heap_base h' = 0x2013000 /\
    forall a, (exists p n, (p, n) ∈ grown 0 [4096; 8192; -4096; 100] h' /\ p <= a < p + n) ->
      ~ protected demo_machine demo_info a.
Proof.
  destruct (heap_init_safe demo_machine demo_info (mkHeap 0 0 0 0 false) 0 [4096; 8192; -4096; 100]) as (h' & Hi & Hs & _).
  - split; cbn; repeat constructor; lia.
  - reflexivity.
  - repeat constructor; lia.
  - exists h'. split; [exact Hi|]. vm_compute in Hi. injection Hi as <-. split; [reflexivity|]. split; [reflexivity|].
    intros a (p & n & Hin & Ha). by apply (proj2 (proj2 (proj2 (proj2 (Hs eq_refl)))) p n).
Defined.
