(* ===== verification/AllocGuard.v ===== *)
(** * The allocator guard, [rt/picolibc_port/syscalls.c]

    [malloc], [free], [calloc] and [realloc] run between [alloc_guard_enter]
    and [alloc_guard_leave]: a spinlock that the CPU holding it may enter
    again, because [realloc] and [calloc] call [malloc] and [free].
    Preemption is off in between, so a CPU stands for the thread on it.  The
    CPUs run the two functions one access at a time in any order, over the
    lock words of [Spinlock]. *)
From S2P Require Import Prelude Spinlock.

(** Where a CPU is; [n] counts the calls of the allocator it is in. *)
Inductive gpc : Type :=
| GOut                     (* in no call *)
| GAsk                     (* the owner was another: about to take a ticket *)
| GSpin (ticket : Z)       (* in the loop of [spin_lock] *)
| GLocked                  (* past [spin_lock] *)
| GOwner                   (* [alloc_owner] stored *)
| GIn (n : nat)            (* in the allocator *)
| GStall (n : nat)         (* in the allocator, and about to take a ticket *)
| GZero (n : nat)          (* [alloc_depth] has become 0 *)
| GFree (n : nat).         (* [alloc_owner] reset *)

Record guard : Type := mkGuard {
  alloc_lock : spinlock_t; alloc_owner : Z; alloc_depth : Z; cpus : list gpc;
}.

(** Back in the [n] calls that are left. *)
Definition back (n : nat) : gpc := match n with O => GOut | S _ => GIn n end.

Inductive gstep : guard -> guard -> Prop :=
(* alloc_guard_enter *)
| g_enter l o d ps i :
    ps !! i = Some GOut ->
    gstep (mkGuard l o d ps)
      (if o =? Z.of_nat i then mkGuard l o (u32 (d + 1)) (<[i := GIn 1]> ps)
       else mkGuard l o d (<[i := GAsk]> ps))
| g_enter_again l o d ps i n :
    (* fewer than 2^32 calls are nested *)
    ps !! i = Some (GIn n) -> Z.of_nat n < 2 ^ 32 - 1 ->
    gstep (mkGuard l o d ps)
      (if o =? Z.of_nat i then mkGuard l o (u32 (d + 1)) (<[i := GIn (S n)]> ps)
       else mkGuard l o d (<[i := GStall n]> ps))
| g_ticket l o d ps i ticket l' :
    ps !! i = Some GAsk -> take_ticket l = (ticket, l') ->
    gstep (mkGuard l o d ps) (mkGuard l' o d (<[i := GSpin ticket]> ps))
| g_spin l o d ps i ticket :
    ps !! i = Some (GSpin ticket) ->
    gstep (mkGuard l o d ps) (mkGuard l o d (if served l ticket then <[i := GLocked]> ps else ps))
| g_owner l o d ps i :
    ps !! i = Some GLocked -> gstep (mkGuard l o d ps) (mkGuard l (Z.of_nat i) d (<[i := GOwner]> ps))
| g_depth l o d ps i :
    ps !! i = Some GOwner -> gstep (mkGuard l o d ps) (mkGuard l o 1 (<[i := GIn 1]> ps))
(* alloc_guard_leave *)
| g_leave l o d ps i n :
    ps !! i = Some (GIn (S n)) ->
    gstep (mkGuard l o d ps)
      (mkGuard l o (u32 (d - 1)) (<[i := if u32 (d - 1) =? 0 then GZero n else back n]> ps))
| g_reset l o d ps i n :
    ps !! i = Some (GZero n) -> gstep (mkGuard l o d ps) (mkGuard l (-1) d (<[i := GFree n]> ps))
| g_unlock l o d ps i n :
    ps !! i = Some (GFree n) -> gstep (mkGuard l o d ps) (mkGuard (spin_unlock l) o d (<[i := back n]> ps)).

Definition initial_guard (n : nat) : guard := mkGuard SPINLOCK_INITIALIZER (-1) 0 (replicate n GOut).

Inductive greach (n : nat) : guard -> Prop :=
| greach_init : greach n (initial_guard n)
| greach_step g g' : greach n g -> gstep g g' -> greach n g'.

(** ** The spinlock underneath *)
Definition abs (p : gpc) : pc :=
  match p with
  | GOut | GAsk => Out
  | GSpin t => Spinning t
  | _ => Holding
  end.

(** What the variables say of CPU [i]. *)
Definition pc_ok (o d : Z) (i : nat) (p : gpc) : Prop :=
  match p with
  | GOut | GAsk | GSpin _ => o <> Z.of_nat i
  | GLocked => o = -1
  | GOwner => o = Z.of_nat i
  | GIn n => o = Z.of_nat i /\ d = Z.of_nat n /\ 1 <= d < 2 ^ 32
  | GZero n => o = Z.of_nat i /\ n = O
  | GFree n => o = -1 /\ n = O
  | GStall _ => False
  end.

Record guard_ok (n : nat) (g : guard) : Prop := {
  go_lock : exists k r, reachable n (mkMachine (alloc_lock g) (abs <$> cpus g) k r);
  go_free : alloc_owner g = -1 \/
    exists i p, cpus g !! i = Some p /\ abs p = Holding /\ alloc_owner g = Z.of_nat i;
  go_pcs : forall i p, cpus g !! i = Some p -> pc_ok (alloc_owner g) (alloc_depth g) i p;
}.

(** A CPU that does not hold the lock only has to find another owner. *)
Lemma pc_ok_other o d o' d' j p : abs p <> Holding -> pc_ok o d j p -> o' <> Z.of_nat j -> pc_ok o' d' j p.
Proof. by destruct p. Qed.

Section steps.
Context (n : nat) (Hn : Z.of_nat n < 2 ^ 32).

(** CPU [i] moves without the lock words: from outside it leaves the variables
    alone, from inside it may change them as long as it is the owner or nobody. *)
Lemma guard_quiet l o d ps i p p' o' d' :
  guard_ok n (mkGuard l o d ps) -> ps !! i = Some p -> abs p' = abs p ->
  (o' = o /\ d' = d \/ abs p = Holding /\ (o' = Z.of_nat i \/ o' = -1)) -> pc_ok o' d' i p' ->
  guard_ok n (mkGuard l o' d' (<[i := p']> ps)).
Proof using Hn.
  intros [(k & r & Hr) Hf Hp] Hi Ha Hc Hok. cbn [alloc_lock alloc_owner alloc_depth cpus] in *.
  pose proof (lookup_lt_Some _ _ _ Hi) as Hlt. split; cbn.
  - exists k, r. rewrite list_fmap_insert, Ha, list_insert_id; [done|]. by rewrite list_lookup_fmap, Hi.
  - destruct Hc as [[-> ->]|[Hh [->| ->]]]; [destruct Hf as [|(j & q & Hj & Hq & ->)]; [by left|right]|right|by left].
    + destruct (decide (j = i)) as [->|Hne]; [|exists j, q; by rewrite list_lookup_insert_ne].
      exists i, p'. rewrite list_lookup_insert_eq by done. rewrite Hi in Hj. injection Hj as <-. by rewrite Ha.
    + exists i, p'. by rewrite list_lookup_insert_eq, Ha by done.
  - intros j q Hj. apply list_lookup_insert_Some in Hj as [(<- & <- & _)|[Hne Hj]]; [done|].
    specialize (Hp j q Hj). destruct Hc as [[-> ->]|[Hh Ho]]; [done|].
    apply (pc_ok_other o d); [|done|lia]. intros Hq.
    apply (holder_unique n _ i j Hn Hr); [|done|]; cbn; rewrite list_lookup_fmap, ?Hi, ?Hj; cbn; congruence.
Qed.

(** CPU [i] moves with a step of the lock. *)
Lemma guard_lock l o d ps i p p' l' :
  guard_ok n (mkGuard l o d ps) -> ps !! i = Some p -> pc_ok o d i p' -> o = -1 \/ abs p <> Holding ->
  (forall k r, exists k' r', step (mkMachine l (abs <$> ps) k r) (mkMachine l' (<[i := abs p']> (abs <$> ps)) k' r')) ->
  guard_ok n (mkGuard l' o d (<[i := p']> ps)).
Proof using Type.
  intros [(k & r & Hr) Hf Hp] Hi Hok Ho Hs. cbn [alloc_lock alloc_owner alloc_depth cpus] in *. split; cbn.
  - destruct (Hs k r) as (k' & r' & Hst). exists k', r'. rewrite list_fmap_insert. by eapply reach_step.
  - destruct Ho as [->|Ho]; [by left|]. destruct Hf as [|(j & q & Hj & Hq & ->)]; [by left|right].
    exists j, q. rewrite list_lookup_insert_ne; [done|]. intros ->. congruence.
  - intros j q Hj. apply list_lookup_insert_Some in Hj as [(<- & <- & _)|[Hne Hj]]; auto.
Qed.

(** A CPU that gets through the loop finds no owner. *)
Lemma enter_unowned l o d ps i ticket :
  guard_ok n (mkGuard l o d ps) -> ps !! i = Some (GSpin ticket) -> served l ticket = true -> o = -1.
Proof using Hn.
  intros [(k & r & Hr) Hf Hp] Hi Hs. cbn [alloc_lock alloc_owner alloc_depth cpus] in *.
  destruct Hf as [|(j & q & Hj & Hq & Ho)]; [done|exfalso].
  assert (Hne : i <> j) by (intros ->; rewrite Hi in Hj; injection Hj as <-; done).
  assert (Hi' : (abs <$> ps) !! i = Some (Spinning ticket)) by (by rewrite list_lookup_fmap, Hi).
  apply (holder_unique n (mkMachine l (<[i := Holding]> (abs <$> ps)) k r) i j Hn); [|..|done|].
  - eapply reach_step; [exact Hr|]. by eapply step_enter.
  - cbn. apply list_lookup_insert_eq. by eapply lookup_lt_Some.
  - cbn. rewrite list_lookup_insert_ne, list_lookup_fmap, Hj by done. cbn. congruence.
Qed.

Lemma gstep_ok g g' : guard_ok n g -> gstep g g' -> guard_ok n g'.
Proof using Hn.
  intros Hg Hs. destruct Hs as [l o d ps i Hi|l o d ps i m Hi Hm|l o d ps i t l' Hi Ht|l o d ps i t Hi|l o d ps i Hi
    |l o d ps i Hi|l o d ps i m Hi|l o d ps i m Hi|l o d ps i m Hi];
    pose proof (go_pcs _ _ Hg i _ Hi) as Hok; cbn in Hok.
  - rewrite (proj2 (Z.eqb_neq _ _)) by done. by apply (guard_quiet l o d ps i GOut); auto.
  - destruct Hok as (-> & -> & Hd). rewrite Z.eqb_refl, u32_small by lia.
    apply (guard_quiet l (Z.of_nat i) (Z.of_nat m) ps i (GIn m)); cbn; auto; lia.
  - apply (guard_lock l o d ps i GAsk); auto. intros k r. eexists _, _.
    eapply step_take; [|done]. by rewrite list_lookup_fmap, Hi.
  - destruct (served l t) eqn:Es; [|done]. pose proof (enter_unowned _ _ _ _ _ _ Hg Hi Es) as Ho.
    apply (guard_lock l o d ps i (GSpin t)); auto. intros k r. eexists _, _.
    eapply step_enter; [|done]. by rewrite list_lookup_fmap, Hi.
  - apply (guard_quiet l o d ps i GLocked); cbn; auto.
  - apply (guard_quiet l o d ps i GOwner); cbn; auto. lia.
  - destruct Hok as (-> & -> & Hd). rewrite u32_small by lia.
    apply (guard_quiet l (Z.of_nat i) (Z.of_nat (S m)) ps i (GIn (S m))); auto;
      destruct (Z.eqb_spec (Z.of_nat (S m) - 1) 0), m; cbn; auto; lia.
  - apply (guard_quiet l o d ps i (GZero m)); cbn; auto. tauto.
  - destruct Hok as [-> ->]. apply (guard_lock l (-1) d ps i (GFree 0)); cbn; auto; [lia|]. intros k r. eexists _, _.
    eapply step_unlock. by rewrite list_lookup_fmap, Hi.
Qed.

Lemma greach_ok g : greach n g -> guard_ok n g.
Proof using Hn.
  induction 1 as [|g g' _ IH Hs]; [|by eapply gstep_ok]. split; cbn.
  - exists 0, 0. rewrite fmap_replicate. apply reach_init.
  - by left.
  - intros i p [-> _]%lookup_replicate. cbn. lia.
Qed.
End steps.

(** C11.  The allocator is never in two hands: in every interleaving of the
    CPUs, a CPU inside the allocator is the recorded owner, [alloc_depth] is the
    number of calls it is nested in, no other CPU is inside, and when it calls
    the allocator again it goes on without waiting for its own lock. *)
Theorem alloc_guard_exclusive n g i m :
  Z.of_nat n < 2 ^ 32 -> greach n g -> cpus g !! i = Some (GIn m) ->
  alloc_owner g = Z.of_nat i /\ alloc_depth g = Z.of_nat m /\
  (forall j m', j <> i -> cpus g !! j <> Some (GIn m')) /\
  (forall g', gstep g g' -> forall j m', cpus g' !! j <> Some (GStall m')).
Proof.
  intros Hn Hg Hi. pose proof (greach_ok n Hn g Hg) as Hok. destruct (go_pcs _ _ Hok _ _ Hi) as (Ho & Hd & _).
  split; [done|]. split; [done|]. split.
  - intros j m' Hne Hj. destruct (go_pcs _ _ Hok _ _ Hj) as (Ho' & _). lia.
  - intros g' Hs j m' Hj. exact (go_pcs _ _ (gstep_ok n Hn _ _ Hok Hs) _ _ Hj).
Qed.

(** CPU 0 in a nested call while CPU 1 waits with the next ticket. *)
Definition nested_guard : guard := mkGuard (mkLock 2 0) 0 2 [GIn 2; GSpin 1].

Lemma nested_guard_reachable : greach 2 nested_guard.
Proof.
  assert (H1 := greach_step _ _ _ (greach_init 2) (g_enter (mkLock 0 0) (-1) 0 [GOut; GOut] 0 eq_refl)).
  assert (H2 := greach_step _ _ _ H1 (g_ticket (mkLock 0 0) (-1) 0 [GAsk; GOut] 0 _ _ eq_refl eq_refl)).
  assert (H3 := greach_step _ _ _ H2 (g_spin (mkLock 1 0) (-1) 0 [GSpin 0; GOut] 0 0 eq_refl)).
  assert (H4 := greach_step _ _ _ H3 (g_owner (mkLock 1 0) (-1) 0 [GLocked; GOut] 0 eq_refl)).
  assert (H5 := greach_step _ _ _ H4 (g_depth (mkLock 1 0) 0 0 [GOwner; GOut] 0 eq_refl)).
  assert (H6 := greach_step _ _ _ H5 (g_enter_again (mkLock 1 0) 0 1 [GIn 1; GOut] 0 1 eq_refl ltac:(lia))).
  assert (H7 := greach_step _ _ _ H6 (g_enter (mkLock 1 0) 0 2 [GIn 2; GOut] 1 eq_refl)).
  exact (greach_step _ _ _ H7 (g_ticket (mkLock 1 0) 0 2 [GIn 2; GAsk] 1 _ _ eq_refl eq_refl)).
Qed.

Lemma alloc_guard_exclusive_witness :
  alloc_owner nested_guard = 0 /\ alloc_depth nested_guard = 2 /\
  (forall j m', j <> 0%nat -> cpus nested_guard !! j <> Some (GIn m')) /\
  forall g', gstep nested_guard g' -> forall j m', cpus g' !! j <> Some (GStall m').
Proof.
  apply (alloc_guard_exclusive 2 nested_guard 0 2); [lia|exact nested_guard_reachable|reflexivity].
Defined.
