(* ===== verification/Syscalls.v ===== *)
(** * Files for the C library, [rt/picolibc_port/syscalls.c]

    [open] reads a whole file of a root directory into memory, first from the
    FAT32 disks and then from the ISO volumes; [read] and [lseek] move in that
    copy.  The C library's [malloc] and [free] are arguments, over a heap state
    [F]; an allocated buffer is the list of its bytes, whatever they are.  All
    drivers are linked, as on the full images. *)
From S2P Require Import Prelude Bytes Text Disk Fat32 Fat32Vol Fat32Alloc Fat32Dir Fat32Path Fat32Demo Iso9660 Input.

Definition ENOENT : Z := 2.
Definition EBADF : Z := 9.
Definition ENOMEM : Z := 12.
Definition EISDIR : Z := 21.
Definition EINVAL : Z := 22.
Definition EMFILE : Z := 24.
Definition ESPIPE : Z := 29.
Definition EROFS : Z := 30.
Definition O_ACCMODE : Z := 3.
Definition O_RDONLY : Z := 0.
Definition SEEK_SET : Z := 0.
Definition SEEK_CUR : Z := 1.
Definition SEEK_END : Z := 2.
Definition S_IFREG : Z := 0x8000.
Definition S_IFCHR : Z := 0x2000.

Abbreviation CANBOOT_FILE_FD_BASE := 3 (only parsing).
Abbreviation CANBOOT_MAX_FILES := 8 (only parsing).

(** A signed 64-bit value. *)
Definition s64 (x : Z) : Z := (x + 2 ^ 63) mod 2 ^ 64 - 2 ^ 63.

Record canboot_openfile : Type := mkOpen { used : bool; data : option (list Z); size : Z; pos : Z }.

(** The state: the disks, the heap of the C library, the open files, [errno],
    and what has gone to the console. *)
Record libc (D F : Type) : Type := mkLibc {
  disks : list D; cheap : F; g_files : list canboot_openfile; errno : Z; console : list Z;
}.
Arguments mkLibc {D F}. Arguments disks {D F}. Arguments cheap {D F}. Arguments g_files {D F}.
Arguments errno {D F}. Arguments console {D F}.

Definition to_upper (c : Z) : Z := if (97 <=? c) && (c <=? 122) then c - 32 else c.

Fixpoint name_eq_ci (a b : list Z) : bool :=
  match a, b with
  | [], [] => true
  | x :: a, y :: b => (to_upper x =? to_upper y) && name_eq_ci a b
  | _, _ => false
  end.

(** The context is the size found, if any. *)
Definition fat_size_cb (want name83 : list Z) (sz : Z) (c : option Z) : bool * option Z :=
  if name_eq_ci name83 want then (false, Some sz) else (true, c).

(** What one disk gives: nothing, out of memory, or a buffer and a length. *)
Inductive slurped : Type := Skip | NoMem | Got (buf : list Z) (len : Z).

Section syscalls.
Context {D F : Type} `{BlockDevice D}.
Context (malloc : Z -> F -> option (list Z) * F) (free : option (list Z) -> F -> F).
Abbreviation L := (libc D F).

Definition set_errno (e : Z) : M L unit := fun v =>
  (OK tt, mkLibc (disks v) (cheap v) (g_files v) e (console v)).
Definition set_file (slot : Z) (f : canboot_openfile) : M L unit := fun v =>
  (OK tt, mkLibc (disks v) (cheap v) (<[Z.to_nat slot := f]> (g_files v)) (errno v) (console v)).
Definition alloc (n : Z) : M L (option (list Z)) := fun v =>
  let (r, h) := malloc n (cheap v) in (OK r, mkLibc (disks v) h (g_files v) (errno v) (console v)).
Definition release (b : option (list Z)) : M L unit := fun v =>
  (OK tt, mkLibc (disks v) (free b (cheap v)) (g_files v) (errno v) (console v)).

(** Run an action of a driver on disk [k]. *)
Definition on_disk {A} (k : nat) (m : M D A) : M L A := fun v =>
  match disks v !! k with
  | None => (STUCK, v)
  | Some d => let (r, d') := m d in (r, mkLibc (<[k := d']> (disks v)) (cheap v) (g_files v) (errno v) (console v))
  end.

(** [bs] has been copied into [buf]: keep it, or give it back and go on. *)
Definition keep (buf bs : list Z) (len : Z) : M L slurped :=
  if 0 <? s32 (Z.of_nat (length bs)) then ret (Got (splice 0 bs buf) len)
  else release (Some buf);;! ret Skip.

Definition try_fat (fuel : nat) (name : list Z) (k : nat) : M L slurped :=
  let! v := get in
  if match disks v !! k with Some d => bd_kind d =? CANBOOT_DISK_KIND_CDROM | None => true end then ret Skip
  else
    let! o := on_disk k (attempt canboot_fat32_open) in
    match o with
    | None => ret Skip
    | Some fs =>
        let! c := on_disk k (attempt (canboot_fat32_list_root fuel fs (fat_size_cb name) None)) in
        match c with
        | Some (_, Some sz) =>
            let! b := alloc (if sz =? 0 then 1 else sz) in
            match b with
            | None => ret NoMem
            | Some buf =>
                let! r := on_disk k (attempt (canboot_fat32_read_root_file fuel fs name sz)) in
                match r with
                | Some (bs, got) => keep buf bs got
                | None => release (Some buf);;! ret Skip
                end
            end
        | _ => ret Skip
        end
    end.

Definition try_iso (name : list Z) (k : nat) : M L slurped :=
  let! v := get in
  if match disks v !! k with Some _ => false | None => true end then ret Skip
  else
    let! o := on_disk k (attempt canboot_iso_open) in
    match o with
    | None => ret Skip
    | Some iso =>
        let! r := on_disk k (attempt (canboot_iso_lookup iso name)) in
        match r with
        | None => ret Skip
        | Some (lba, sz) =>
            let! b := alloc (if sz =? 0 then 1 else sz) in
            match b with
            | None => ret NoMem
            | Some buf =>
                let! r := on_disk k (attempt (canboot_iso_read_file iso lba sz sz)) in
                match r with
                | Some bs => keep buf bs sz
                | None => release (Some buf);;! ret Skip
                end
            end
        end
    end.

(** The loop over the disks, [n] left, at disk [k]. *)
Fixpoint try_disks (try : nat -> M L slurped) (n k : nat) : M L slurped :=
  match n with
  | O => ret Skip
  | S n' => let! r := try k in match r with Skip => try_disks try n' (S k) | _ => ret r end
  end.

Definition slurp_boot_file (fuel : nat) (name : list Z) : M L (option (list Z * Z)) :=
  let! v := get in
  let nd := length (disks v) in
  let! r := try_disks (try_fat fuel name) nd 0 in
  match r with
  | Got buf len => ret (Some (buf, len))
  | NoMem => set_errno ENOMEM;;! ret None
  | Skip =>
      let! r := try_disks (try_iso name) nd 0 in
      match r with
      | Got buf len => ret (Some (buf, len))
      | NoMem => set_errno ENOMEM;;! ret None
      | Skip => set_errno ENOENT;;! ret None
      end
  end.

Definition file_for_fd (fd : Z) (v : L) : option canboot_openfile :=
  let slot := fd - CANBOOT_FILE_FD_BASE in
  if (slot <? 0) || (CANBOOT_MAX_FILES <=? slot) then None
  else f ← g_files v !! Z.to_nat slot; if used f then Some f else None.

Definition write (fd : Z) (buf : list Z) : M L Z := fun v =>
  if (fd =? 1) || (fd =? 2)
  then (OK (Z.of_nat (length buf)), mkLibc (disks v) (cheap v) (g_files v) (errno v) (console v ++ buf))
  else (set_errno EBADF;;! ret (-1)) v.

(** [read] on a file; [None] is -1.  Bytes outside the buffer are not there. *)
Definition read (fd count : Z) : M L (option (list Z)) :=
  let! v := get in
  match file_for_fd fd v with
  | None => set_errno EBADF;;! ret None
  | Some f =>
      let avail := u64 (size f - pos f) in
      let n := if count <? avail then count else avail in
      if n =? 0 then ret (Some [])
      else
        let! buf := from_opt (data f) in
        if Z.of_nat (length buf) <? pos f + n then stuck
        else
          set_file (fd - CANBOOT_FILE_FD_BASE) (mkOpen true (data f) (size f) (u64 (pos f + n)));;!
          ret (Some (slice (Z.to_nat (pos f)) (Z.to_nat n) buf))
  end.

(** Socket descriptors belong to [cando_port/net_posix/sockets.c]. *)
Definition close (socket_is : Z -> bool) (socket_close : Z -> M L Z) (fd : Z) : M L Z :=
  if socket_is fd then socket_close fd
  else
    let! v := get in
    match file_for_fd fd v with
    | None => ret 0
    | Some f =>
        release (data f);;!
        set_file (fd - CANBOOT_FILE_FD_BASE) (mkOpen false None (size f) (pos f));;! ret 0
    end.

Definition lseek (fd off whence : Z) : M L Z :=
  let! v := get in
  match file_for_fd fd v with
  | None => set_errno ESPIPE;;! ret (-1)
  | Some f =>
      let base := if whence =? SEEK_SET then Some 0 else if whence =? SEEK_CUR then Some (s64 (pos f))
                  else if whence =? SEEK_END then Some (s64 (size f)) else None in
      match base with
      | None => set_errno EINVAL;;! ret (-1)
      | Some base =>
          let np := s64 (base + off) in
          if np <? 0 then set_errno EINVAL;;! ret (-1)
          else set_file (fd - CANBOOT_FILE_FD_BASE) (mkOpen true (data f) (size f) np);;! ret np
      end
  end.

(** Mode and size; the size of a device is left alone. *)
Definition fstat (fd : Z) (v : L) : Z * option Z :=
  match file_for_fd fd v with
  | Some f => (S_IFREG, Some (s64 (size f)))
  | None => (S_IFCHR, None)
  end.

Definition isatty (fd : Z) : Z := if (fd =? 0) || (fd =? 1) || (fd =? 2) then 1 else 0.

(** The first slot not in use, from [i], [n] slots left. *)
Fixpoint free_slot (n : nat) (i : Z) (v : L) : option Z :=
  match n with
  | O => None
  | S n' =>
      match g_files v !! Z.to_nat i with
      | Some f => if used f then free_slot n' (i + 1) v else Some i
      | None => None
      end
  end.

Definition open (fuel : nat) (path : option (list Z)) (flags : Z) : M L Z :=
  match path with
  | None => set_errno EINVAL;;! ret (-1)
  | Some path =>
      if negb (Z.land flags O_ACCMODE =? O_RDONLY) then set_errno EROFS;;! ret (-1)
      else
        let name := skip_slashes path in
        match name with
        | [] => set_errno EISDIR;;! ret (-1)
        | _ =>
            let! v := get in
            match free_slot (Z.to_nat CANBOOT_MAX_FILES) 0 v with
            | None => set_errno EMFILE;;! ret (-1)
            | Some slot =>
                let! f := from_opt (g_files v !! Z.to_nat slot) in
                set_file slot (mkOpen true None (size f) (pos f));;!
                let! r := slurp_boot_file fuel name in
                match r with
                | None => set_file slot (mkOpen false None (size f) (pos f));;! ret (-1)
                | Some (buf, len) => set_file slot (mkOpen true (Some buf) len 0);;! ret (CANBOOT_FILE_FD_BASE + slot)
                end
            end
        end
  end.
End syscalls.

(** [read] on descriptor 0: up to [count] characters or a newline from the
    keyboard.  [spin] bounds the polls while nothing has been typed. *)
Section stdin.
Context {W : Type} (run_pump : Z -> input * W -> input * W).

Fixpoint wait_char (spin fuel : nat) : M (input * W) Z :=
  match spin with
  | O => nofuel
  | S k =>
      let! c := hal_input_getc run_pump fuel in
      if c <? 0 then wait_char k fuel else ret c
  end.

Fixpoint read_stdin (spin fuel n : nat) (got : list Z) : M (input * W) (list Z) :=
  match n with
  | O => ret got
  | S n' =>
      let! c := hal_input_getc run_pump fuel in
      if c <? 0 then
        if bool_decide (got = []) then
          let! c := wait_char spin fuel in
          if c =? 10 then ret [u8 c] else read_stdin spin fuel n' [u8 c]
        else ret got
      else if c =? 10 then ret (got ++ [u8 c]) else read_stdin spin fuel n' (got ++ [u8 c])
  end.
End stdin.

(** ** Files of a root directory *)
Definition regular (e : fat_dir) : bool :=
  negb (name_at e 0 =? 0xE5) && negb (de_attr e =? ATTR_LFN)
  && (Z.land (de_attr e) (Z.lor ATTR_VOLUME_ID ATTR_DIRECTORY) =? 0).

(** The first regular file with property [P], up to the end marker. *)
Fixpoint first_file (P : fat_dir -> bool) (E : list fat_dir) : option fat_dir :=
  match E with
  | [] => None
  | e :: E' => if name_at e 0 =? 0 then None else if regular e && P e then Some e else first_file P E'
  end.

Definition named_83 (t : list Z) (e : fat_dir) : bool := bool_decide (de_name e = t).
Definition named_ci (name : list Z) (e : fat_dir) : bool := name_eq_ci (name_from_83 (de_name e)) name.

Lemma find_root_body_alt t i e :
  find_root_body t i e =
    if name_at e 0 =? 0 then Some None else if regular e && named_83 t e then Some (Some (i, e)) else None.
Proof.
  unfold find_root_body, regular, named_83.
  destruct (name_at e 0 =? 0), (name_at e 0 =? 0xE5), (de_attr e =? ATTR_LFN),
    (Z.land (de_attr e) (Z.lor ATTR_VOLUME_ID ATTR_DIRECTORY) =? 0); cbn; try done.
  destruct (decide (de_name e = t)); by case_bool_decide.
Qed.

Lemma first_file_scan t E' E : forall i,
  match first_hit (find_root_body t) i E with
  | Some (Some (_, e)) => first_file (named_83 t) (E ++ E') = Some e
  | Some None => first_file (named_83 t) (E ++ E') = None
  | None => first_file (named_83 t) (E ++ E') = first_file (named_83 t) E'
  end.
Proof.
  induction E as [|e E IH]; intros i; [done|]. cbn [first_hit app first_file]. rewrite find_root_body_alt.
  destruct (name_at e 0 =? 0); [done|]. destruct (regular e && named_83 t e); [done|]. apply IH.
Qed.

(** The scan of one cluster for a size: the count does not matter. *)
Lemma list_root_scan_run name buf E' (m : nat) : forall (i : nat) n,
  ((i + m) * 32 <= length buf)%nat ->
  let E := dent buf <$> seq i m in
  exists n', match list_root_scan (fat_size_cb name) m (Z.of_nat i) buf n None with
    | OK (inl r) => r = (n', de_size <$> first_file (named_ci name) (E ++ E'))
    | OK (inr r) => r = (n', None) /\ first_file (named_ci name) (E ++ E') = first_file (named_ci name) E'
    | _ => False
    end.
Proof.
  induction m as [|m IH]; intros i n Hi E; subst E; [by exists n|].
  cbn [seq fmap list_fmap list_root_scan app first_file]. rewrite dir_at_dent by lia.
  replace (Z.of_nat i + 1) with (Z.of_nat (S i)) by lia.
  assert (Hi' : ((S i + m) * 32 <= length buf)%nat) by lia.
  destruct (name_at (dent buf i) 0 =? 0); [by exists n|]. unfold regular.
  destruct (name_at (dent buf i) 0 =? 0xE5); cbn [negb andb]; [by apply IH|].
  destruct (de_attr (dent buf i) =? ATTR_LFN); cbn [negb andb]; [by apply IH|].
  destruct (Z.land (de_attr (dent buf i)) (Z.lor ATTR_VOLUME_ID ATTR_DIRECTORY) =? 0); cbn [negb andb]; [|by apply IH].
  unfold fat_size_cb at 1, named_ci at 1 2 3. destruct (name_eq_ci _ name); [by exists (n + 1)|by apply IH].
Qed.

Section volumes.
Context {D : Type} `{BlockDevice D} `{!BlockDeviceLaws D}.
Implicit Types (fs : canboot_fat32) (d : D).

Lemma dentries_cons fs fc c cs :
  dentries fs fc (c :: cs) = dents (entries_per_cluster fs) (fc c) ++ dentries fs fc cs.
Proof. done. Qed.

Lemma find_root_run fs d fn fc t c cs (fuel : nat) :
  vol_is fs d fn fc -> is_chain fs fn c cs -> (length cs <= fuel)%nat ->
  exists r, find_root_loop fuel fs t c d = (OK r, d) /\
    (fun x => x.1.1) <$> r = first_file (named_83 t) (dentries fs fc cs).
Proof.
  intros V. pose proof (vol_is_ok _ _ _ _ V) as Vo. revert c fuel.
  induction cs as [|x cs IH]; intros c fuel Hc Hf.
  { cbn in Hc. exists None. destruct fuel; cbn [find_root_loop]; by rewrite (proj2 (Z.ltb_ge c EOC)) by lia. }
  destruct Hc as (-> & Hv & Hc). destruct fuel as [|fuel]; [cbn in Hf; lia|].
  cbn [find_root_loop]. pose proof (valid_lt_EOC fs d c Vo Hv). rewrite (proj2 (Z.ltb_lt c EOC)) by lia.
  bstep (read_cluster_is fs d fn fc c V Hv). rewrite (scan_cluster _ fs d fn fc c V Hv).
  unfold lift. rewrite (bind_OK _ _ _ _ _ eq_refl). rewrite dentries_cons.
  pose proof (first_file_scan t (dentries fs fc cs) (dents (entries_per_cluster fs) (fc c)) 0) as Hs.
  destruct (first_hit _ _ _) as [[[j e]|]|].
  - bstep (cluster_lba_run fs d c Vo Hv). bstep (spb_run fs d Vo). eexists. split; [reflexivity|]. by rewrite Hs.
  - exists None. by rewrite Hs.
  - bstep (read_fat_is fs d fn fc c V (valid_in_fat _ _ Hv)). rewrite Hs. apply IH; [done|cbn in Hf; lia].
Qed.

Lemma list_root_run fs d fn fc name c cs (fuel : nat) : forall n,
  vol_is fs d fn fc -> is_chain fs fn c cs -> (length cs <= fuel)%nat ->
  exists n', list_root_loop fuel fs (fat_size_cb name) c n None d =
    (OK (n', de_size <$> first_file (named_ci name) (dentries fs fc cs)), d).
Proof.
  intros n V. pose proof (vol_is_ok _ _ _ _ V) as Vo. revert c fuel n.
  induction cs as [|x cs IH]; intros c fuel n Hc Hf.
  { cbn in Hc. exists n. destruct fuel; cbn [list_root_loop]; by rewrite (proj2 (Z.ltb_ge c EOC)) by lia. }
  destruct Hc as (-> & Hv & Hc). destruct fuel as [|fuel]; [cbn in Hf; lia|].
  cbn [list_root_loop]. pose proof (valid_lt_EOC fs d c Vo Hv). rewrite (proj2 (Z.ltb_lt c EOC)) by lia.
  bstep (read_cluster_is fs d fn fc c V Hv). rewrite dentries_cons.
  pose proof (cl_is_length fs d fn fc c V Hv). destruct (epc_bounds fs d Vo) as [_ Hepc].
  destruct (list_root_scan_run name (fc c) (dentries fs fc cs) (entries_per_cluster fs) 0 n) as (n' & Hs); [lia|].
  change (Z.of_nat 0) with 0 in Hs. fold (dents (entries_per_cluster fs) (fc c)) in Hs.
  destruct (list_root_scan _ _ _ _ _ _) as [[r|r]| | |] eqn:Es; try done; unfold lift; rewrite (bind_OK _ _ _ _ _ eq_refl).
  - exists n'. by rewrite Hs.
  - destruct Hs as [-> ->]. bstep (read_fat_is fs d fn fc c V (valid_in_fat _ _ Hv)). apply IH; [done|cbn in Hf; lia].
Qed.

(** A root file with the name [name] and the content [bytes]. *)
Record root_file fs d (cs : list Z) (name : list Z) (e : fat_dir) (bytes : list Z) : Prop := {
  rf_root : is_chain fs (nxt fs d) (root_cluster fs) cs;
  rf_ci : first_file (named_ci name) (dentries fs (cl fs d) cs) = Some e;
  rf_83 : first_file (named_83 (to_83 name)) (dentries fs (cl fs d) cs) = Some e;
  rf_size : de_size e = Z.of_nat (length bytes);
  rf_bytes : exists fl, is_chain fs (nxt fs d) (entry_first_cluster e) fl /\
               take (length bytes) (concat (cl fs d <$> fl)) = bytes;
}.

Lemma root_file_size fs d cs name e bytes (fuel : nat) :
  vol_ok fs d -> enough fs fuel -> root_file fs d cs name e bytes ->
  exists n, canboot_fat32_list_root fuel fs (fat_size_cb name) None d = (OK (n, Some (Z.of_nat (length bytes))), d).
Proof.
  intros V Hf [Hr Hci _ Hs _]. unfold canboot_fat32_list_root. rewrite (proj2 (Z.ltb_ge _ _)) by apply (vo_bpc_max _ _ V).
  destruct (list_root_run fs d _ _ name _ cs fuel 0 (vol_is_refl fs d V) Hr) as (n & ->).
  - eapply chain_enough; eauto. apply (vol_is_refl fs d V).
  - exists n. by rewrite Hci, <- Hs.
Qed.

Lemma root_file_read fs d cs name e bytes (fuel : nat) :
  vol_ok fs d -> enough fs fuel -> root_file fs d cs name e bytes ->
  Z.of_nat (length bytes) + bytes_per_cluster fs <= 2 ^ 32 ->
  canboot_fat32_read_root_file fuel fs name (Z.of_nat (length bytes)) d = (OK (bytes, Z.of_nat (length bytes)), d).
Proof.
  intros V Hf [Hr _ H83 Hs (fl & Hc & Hb)] H32. pose proof (vol_is_refl fs d V) as Vi.
  pose proof (vo_bpc_max _ _ V) as Hmax. unfold canboot_fat32_read_root_file.
  destruct (find_root_run fs d _ _ (to_83 name) _ cs fuel Vi Hr) as (r & Hfind & He);
    [eapply chain_enough; eauto|]. rewrite H83 in He. destruct r as [[[e' a] b]|]; [|done]. injection He as ->.
  rewrite (bind_OK _ _ _ (Some (e, a, b)) d).
  2: { unfold find_root_entry. by rewrite (proj2 (Z.ltb_ge _ _)) by lia. }
  rewrite Hs, Z.ltb_irrefl, (proj2 (Z.ltb_ge _ _)) by lia.
  rewrite (bind_OK _ _ _ bytes d); [done|].
  rewrite (read_chain_run fs fl d (nxt fs d) (cl fs d)); try done; [|by eapply chain_enough|lia].
  cbn [app]. rewrite Z.sub_0_r, Nat2Z.id. by rewrite Hb.
Qed.
End volumes.

(** ** Descriptors *)
(** What reads of the sizes [counts] return of a stream. *)
Fixpoint portions (counts : list Z) (bytes : list Z) : list (list Z) :=
  match counts with
  | [] => []
  | n :: counts => take (Z.to_nat n) bytes :: portions counts (drop (Z.to_nat n) bytes)
  end.

Section descriptors.
Context {D F : Type} `{BlockDevice D} `{!BlockDeviceLaws D}.
Context (malloc : Z -> F -> option (list Z) * F) (free : option (list Z) -> F -> F).
Implicit Types (v : libc D F) (d : D).

(** Descriptor [3 + slot] is open on [bytes], at position [p]. *)
Definition opened v (slot : nat) (bytes : list Z) (p : Z) : Prop :=
  (slot < 8)%nat /\ g_files v !! slot = Some (mkOpen true (Some bytes) (Z.of_nat (length bytes)) p).

Lemma opened_fd v slot bytes p : opened v slot bytes p ->
  file_for_fd (3 + Z.of_nat slot) v = Some (mkOpen true (Some bytes) (Z.of_nat (length bytes)) p).
Proof.
  intros [Hs Hf]. unfold file_for_fd.
  replace (3 + Z.of_nat slot - 3) with (Z.of_nat slot) by lia.
  rewrite (proj2 (Z.ltb_ge _ _)), (proj2 (Z.leb_gt _ _)), Nat2Z.id by lia. cbn [orb]. rewrite Hf. done.
Qed.

Lemma set_file_opened v slot bytes p q : opened v slot bytes p ->
  exists v', set_file (3 + Z.of_nat slot - CANBOOT_FILE_FD_BASE)
      (mkOpen true (Some bytes) (Z.of_nat (length bytes)) q) v = (OK tt, v') /\
    opened v' slot bytes q /\ disks v' = disks v /\ forall j, j <> slot -> g_files v' !! j = g_files v !! j.
Proof.
  intros [Hs Hf]. eexists. split; [reflexivity|]. cbn [g_files disks].
  replace (Z.to_nat (3 + Z.of_nat slot - CANBOOT_FILE_FD_BASE)) with slot by (lia).
  split; [|split; [done|]].
  - split; [done|]. cbn. apply list_lookup_insert_eq. by eapply lookup_lt_Some.
  - intros j Hj. by apply list_lookup_insert_ne.
Qed.

Lemma read_run v slot bytes p count :
  opened v slot bytes p -> 0 <= p <= Z.of_nat (length bytes) -> Z.of_nat (length bytes) < 2 ^ 63 -> 0 <= count ->
  let out := take (Z.to_nat count) (drop (Z.to_nat p) bytes) in
  exists v', read (3 + Z.of_nat slot) count v = (OK (Some out), v') /\
    opened v' slot bytes (p + Z.of_nat (length out)) /\ disks v' = disks v /\
    forall j, j <> slot -> g_files v' !! j = g_files v !! j.
Proof.
  intros Ho Hp Hl Hc out. unfold read. rewrite (bind_OK _ _ _ v v) by done. cbv beta. rewrite (opened_fd _ _ _ _ Ho).
  cbn [size pos data]. rewrite u64_small by lia. cbv zeta.
  set (n := if count <? Z.of_nat (length bytes) - p then count else Z.of_nat (length bytes) - p).
  assert (Hn : n = Z.of_nat (length out)).
  { unfold n, out. rewrite length_take, length_drop. destruct (Z.ltb_spec count (Z.of_nat (length bytes) - p)); lia. }
  destruct (Z.eqb_spec n 0) as [Hz|Hz].
  { exists v. rewrite Hz in Hn. rewrite <- Hn, Z.add_0_r. destruct out; [done|cbn in Hn; lia]. }
  assert (Hle : 0 <= n /\ p + n <= Z.of_nat (length bytes)) by (rewrite Hn; unfold out; rewrite length_take, length_drop; lia).
  rewrite (bind_OK _ _ _ bytes v) by done. cbv beta. rewrite (proj2 (Z.ltb_ge _ _)), u64_small by lia.
  destruct (set_file_opened v slot bytes p (p + n) Ho) as (v' & Hs & Ho' & Hd & Hoth). bstep Hs.
  exists v'. rewrite <- Hn. split; [|done]. unfold ret, slice. do 3 f_equal. unfold out.
  unfold n. destruct (Z.ltb_spec count (Z.of_nat (length bytes) - p)); [done|].
  rewrite !take_ge; [done|rewrite length_drop; lia..].
Qed.

(** A sequence of reads. *)
Fixpoint reads (fd : Z) (counts : list Z) : M (libc D F) (list (option (list Z))) :=
  match counts with
  | [] => ret []
  | n :: counts => let! r := read fd n in let! rs := reads fd counts in ret (r :: rs)
  end.

Lemma reads_run counts : forall v slot bytes p,
  opened v slot bytes p -> 0 <= p <= Z.of_nat (length bytes) -> Z.of_nat (length bytes) < 2 ^ 63 ->
  Forall (Z.le 0) counts ->
  exists v', reads (3 + Z.of_nat slot) counts v = (OK (Some <$> portions counts (drop (Z.to_nat p) bytes)), v') /\
    disks v' = disks v /\ forall j, j <> slot -> g_files v' !! j = g_files v !! j.
Proof.
  induction counts as [|n counts IH]; intros v slot bytes p Ho Hp Hl Hc; [by exists v|].
  apply Forall_cons in Hc as [Hn Hc]. cbn [reads portions fmap list_fmap].
  destruct (read_run v slot bytes p n Ho Hp Hl Hn) as (v1 & Hr & Ho1 & Hd1 & Hg1). bstep Hr.
  set (out := take _ _) in *. assert (Hlo : (length out <= length bytes - Z.to_nat p)%nat)
    by (unfold out; rewrite length_take, length_drop; lia).
  destruct (IH v1 slot bytes _ Ho1) as (v2 & Hrs & Hd2 & Hg2); [lia|done|done|]. bstep Hrs.
  exists v2. split; [|split; [congruence|]].
  - unfold ret. do 3 f_equal. f_equal. rewrite drop_drop. unfold out. rewrite length_take, length_drop.
    destruct (Nat.le_gt_cases (Z.to_nat n) (length bytes - Z.to_nat p)); [f_equal; f_equal; lia|].
    rewrite !(drop_ge bytes) by lia. done.
  - intros j Hj. rewrite Hg2, Hg1; done.
Qed.
(** Seeking past the end is allowed, and the next read leaves the buffer: the
    difference of size and position wraps around. *)
Lemma seek_past_end_overruns v slot bytes p off :
  opened v slot bytes p -> Z.of_nat (length bytes) < off < 2 ^ 62 -> exists v',
    lseek (3 + Z.of_nat slot) off SEEK_SET v = (OK off, v') /\ read (3 + Z.of_nat slot) 1 v' = (STUCK, v').
Proof.
  intros Ho Hoff. unfold lseek. rewrite (bind_OK _ _ _ v v) by done. cbv beta. rewrite (opened_fd _ _ _ _ Ho).
  change (SEEK_SET =? SEEK_SET) with true. cbv iota zeta.
  assert (s64 (0 + off) = off) as -> by (unfold s64; rewrite Z.mod_small; lia).
  rewrite (proj2 (Z.ltb_ge _ _)) by lia. cbn [data size].
  destruct (set_file_opened v slot bytes p off Ho) as (v' & Hs & Ho' & _). bstep Hs. exists v'. split; [done|].
  unfold read. rewrite (bind_OK _ _ _ v' v') by done. cbv beta. rewrite (opened_fd _ _ _ _ Ho'). cbn [size pos data].
  assert (Hu : u64 (Z.of_nat (length bytes) - off) = Z.of_nat (length bytes) - off + 2 ^ 64)
    by (unfold u64; symmetry; apply Z.mod_unique with (-1); lia).
  cbv zeta. rewrite Hu, (proj2 (Z.ltb_lt _ _)) by lia. change (1 =? 0) with false. cbv iota.
  rewrite (bind_OK _ _ _ bytes v') by done. cbv beta. by rewrite (proj2 (Z.ltb_lt _ _)) by lia.
Qed.

Lemma set_file_run v (slot : nat) f :
  set_file (Z.of_nat slot) f v = (OK tt, mkLibc (disks v) (cheap v) (<[slot := f]> (g_files v)) (errno v) (console v)).
Proof. unfold set_file. by rewrite Nat2Z.id. Qed.

Lemma on_disk_same {A} v k d (m : M D A) r :
  disks v !! k = Some d -> m d = (r, d) -> on_disk k m v = (r, v).
Proof.
  intros Hk Hm. unfold on_disk. rewrite Hk, Hm, list_insert_id by done. by destruct v.
Qed.

(** What [try_fat] gives for a disk with the file. *)
Lemma try_fat_run v k d fs cs name e bytes buf h (fuel : nat) :
  disks v !! k = Some d -> bd_kind d <> CANBOOT_DISK_KIND_CDROM -> canboot_fat32_open d = (OK fs, d) ->
  vol_ok fs d -> enough fs fuel -> root_file fs d cs name e bytes -> 0 < Z.of_nat (length bytes) < 2 ^ 31 ->
  malloc (Z.of_nat (length bytes)) (cheap v) = (Some buf, h) -> length buf = length bytes ->
  try_fat malloc free fuel name k v =
    (OK (Got bytes (Z.of_nat (length bytes))), mkLibc (disks v) h (g_files v) (errno v) (console v)).
Proof.
  intros Hk Hcd Hopen V Hf Hr Hl Hm Hbuf. unfold try_fat. rewrite (bind_OK _ _ _ v v) by done. cbv beta. rewrite Hk.
  rewrite (proj2 (Z.eqb_neq _ _)) by done.
  rewrite (bind_OK _ _ _ (Some fs) v) by (eapply on_disk_same; [done|by apply attempt_OK]).
  destruct (root_file_size fs d cs name e bytes fuel V Hf Hr) as (n & Hn).
  rewrite (bind_OK _ _ _ (Some (n, Some (Z.of_nat (length bytes)))) v) by (eapply on_disk_same; [done|by apply attempt_OK]).
  rewrite (proj2 (Z.eqb_neq _ _)) by lia. set (v1 := mkLibc (disks v) h (g_files v) (errno v) (console v)).
  rewrite (bind_OK _ _ _ (Some buf) v1) by (unfold alloc; by rewrite Hm).
  pose proof (vo_bpc_max _ _ V).
  rewrite (bind_OK _ _ _ (Some (bytes, Z.of_nat (length bytes))) v1).
  2: { eapply on_disk_same; [done|]. apply attempt_OK. eapply root_file_read; eauto. lia. }
  unfold keep. assert (s32 (Z.of_nat (length bytes)) = Z.of_nat (length bytes)) as -> by (unfold s32; rewrite Z.mod_small; lia).
  rewrite (proj2 (Z.ltb_lt _ _)) by lia. unfold ret, splice. do 3 f_equal.
  cbn. by rewrite drop_ge, app_nil_r by lia.
Qed.

Lemma try_disks_first v name fuel n k r v' :
  (forall j, (j < k)%nat -> exists d, disks v !! j = Some d /\ bd_kind d = CANBOOT_DISK_KIND_CDROM) ->
  (k < n)%nat -> try_fat malloc free fuel name k v = (OK r, v') -> r <> Skip ->
  try_disks (try_fat malloc free fuel name) n 0 v = (OK r, v').
Proof.
  intros Hpre Hk Ht Hr. enough (Hg : forall m i, (i + m = k)%nat -> try_disks (try_fat malloc free fuel name) (n - i) i v = (OK r, v')).
  { specialize (Hg k 0%nat eq_refl). by rewrite Nat.sub_0_r in Hg. }
  induction m as [|m IH]; intros i Hi; (destruct (n - i)%nat as [|n'] eqn:En; [lia|]); cbn [try_disks].
  - replace i with k by lia. bstep Ht. by destruct r.
  - rewrite (bind_OK _ _ _ Skip v).
    + replace n' with (n - S i)%nat by lia. apply IH. lia.
    + destruct (Hpre i ltac:(lia)) as (d & Hd & Hc). unfold try_fat. rewrite (bind_OK _ _ _ v v) by done.
      cbv beta. by rewrite Hd, (proj2 (Z.eqb_eq _ _)) by done.
Qed.

Lemma free_slot_spec v n : forall i s, free_slot n i v = Some s -> 0 <= i ->
  i <= s < i + Z.of_nat n /\ exists f, g_files v !! Z.to_nat s = Some f.
Proof.
  induction n as [|n IH]; intros i s Hs Hi; [done|]. cbn [free_slot] in Hs.
  destruct (g_files v !! Z.to_nat i) as [f|] eqn:Ef; [|done]. destruct (used f).
  - apply IH in Hs; [|lia]. split; [lia|apply Hs].
  - injection Hs as <-. split; [lia|by exists f].
Qed.
End descriptors.


(** The file [/a.txt] of the sample volume, behind an empty CD-ROM drive, in
    portions of 4 bytes. *)
Definition demo_cd : ramdisk := mkRam CANBOOT_DISK_KIND_CDROM 2048 false [].
Definition demo_libc : libc ramdisk unit :=
  mkLibc [demo_cd; demo_disk] tt (replicate 8 (mkOpen false None 0 0)) 0 [].

