(* ===== verification/A64.v ===== *)
(** * The A64 instructions of the just-in-time back end

    The subset of the AArch64 instruction set that
    [cando_port/jit/codegen_aarch64.c] emits: the instructions, their 32-bit
    encodings as the architecture manual lays them out, and their effect on
    registers, flags and memory.  Memory is seen as 64-bit words at addresses
    that are multiples of 8.  Floating-point operations work on the 64-bit
    patterns of doubles and are given by the class [F64]. *)
From stdpp Require Import functions.
From S2P Require Import Prelude.

(** ** Doubles *)
Inductive fcmp_result : Type := FLess | FEqual | FGreater | FUnordered.

Class F64 : Type := {
  f_add : Z -> Z -> Z;
  f_sub : Z -> Z -> Z;
  f_mul : Z -> Z -> Z;
  f_div : Z -> Z -> Z;
  f_cmp : Z -> Z -> fcmp_result;
  f_of_int : Z -> Z;
}.

(** ** Instructions

    Register 31 is the stack pointer as a base or in immediate additions, and
    the zero register elsewhere. *)
Inductive instr : Type :=
| LdrD (t n idx : Z) | StrD (t n idx : Z) | LdrX (t n idx : Z) | StrX (t n idx : Z)
| Stp (t1 t2 n imm7 : Z) | Ldp (t1 t2 n imm7 : Z)
| AddImm (d n imm : Z) | SubImm (d n imm : Z) | SubsImmW (d n imm : Z)
| OrrReg (d n m : Z) | AndReg (d n m : Z) | AddReg (d n m : Z) | SubsReg (d n m : Z)
| Movz (d imm hw : Z) | Movk (d imm hw : Z) | MovzW (d imm hw : Z)
| FAdd (d n m : Z) | FSub (d n m : Z) | FMul (d n m : Z) | FDiv (d n m : Z) | FNeg (d n : Z)
| FCmp (n m : Z) | FCmpZero (n : Z)
| CsincW (d n m cond : Z) | Scvtf (d n : Z)
| B (imm26 : Z) | BCond (cond imm19 : Z) | Ret (n : Z) | Blr (n : Z).

(** [w]'s field of [n] bits from bit [lo]. *)
Definition field (lo n w : Z) : Z := w / 2 ^ lo mod 2 ^ n.

(** A field as a two's-complement number. *)
Definition signed (n x : Z) : Z := if x <? 2 ^ (n - 1) then x else x - 2 ^ n.

(** The decoder, by the fixed bits of each encoding. *)
Definition decode (w : Z) : option instr :=
  let rd := field 0 5 w in let rn := field 5 5 w in let rm := field 16 5 w in
  let imm12 := field 10 12 w in let imm16 := field 5 16 w in let hw := field 21 2 w in
  let top10 := w / 2 ^ 22 in let top11 := w / 2 ^ 21 in let top9 := w / 2 ^ 23 in let top22 := w / 2 ^ 10 in
  if top10 =? 0x3F5 then Some (LdrD rd rn imm12)
  else if top10 =? 0x3F4 then Some (StrD rd rn imm12)
  else if top10 =? 0x3E5 then Some (LdrX rd rn imm12)
  else if top10 =? 0x3E4 then Some (StrX rd rn imm12)
  else if top10 =? 0x2A4 then Some (Stp rd (field 10 5 w) rn (signed 7 (field 15 7 w)))
  else if top10 =? 0x2A5 then Some (Ldp rd (field 10 5 w) rn (signed 7 (field 15 7 w)))
  else if top10 =? 0x244 then Some (AddImm rd rn imm12)
  else if top10 =? 0x344 then Some (SubImm rd rn imm12)
  else if top10 =? 0x1C4 then Some (SubsImmW rd rn imm12)
  else if (top11 =? 0x550) && (field 10 6 w =? 0) then Some (OrrReg rd rn rm)
  else if (top11 =? 0x450) && (field 10 6 w =? 0) then Some (AndReg rd rn rm)
  else if (top11 =? 0x458) && (field 10 6 w =? 0) then Some (AddReg rd rn rm)
  else if (top11 =? 0x758) && (field 10 6 w =? 0) then Some (SubsReg rd rn rm)
  else if top9 =? 0x1A5 then Some (Movz rd imm16 hw)
  else if top9 =? 0x1E5 then Some (Movk rd imm16 hw)
  else if (top9 =? 0xA5) && (hw <? 2) then Some (MovzW rd imm16 hw)
  else if (top11 =? 0xF3) && (field 10 6 w =? 0xA) then Some (FAdd rd rn rm)
  else if (top11 =? 0xF3) && (field 10 6 w =? 0xE) then Some (FSub rd rn rm)
  else if (top11 =? 0xF3) && (field 10 6 w =? 0x2) then Some (FMul rd rn rm)
  else if (top11 =? 0xF3) && (field 10 6 w =? 0x6) then Some (FDiv rd rn rm)
  else if (top11 =? 0xF3) && (field 10 6 w =? 0x8) && (rd =? 0) then Some (FCmp rn rm)
  else if (top11 =? 0xF3) && (field 10 6 w =? 0x8) && (rd =? 8) then Some (FCmpZero rn)
  else if top22 =? 0x79850 then Some (FNeg rd rn)
  else if top22 =? 0x79880 then Some (Scvtf rd rn)
  else if (top11 =? 0xD4) && (field 10 2 w =? 1) then Some (CsincW rd rn rm (field 12 4 w))
  else if w / 2 ^ 26 =? 5 then Some (B (signed 26 (field 0 26 w)))
  else if (w / 2 ^ 24 =? 0x54) && (field 4 1 w =? 0) then Some (BCond (field 0 4 w) (signed 19 (field 5 19 w)))
  else if (top22 =? 0x3597C0) && (rd =? 0) then Some (Ret rn)
  else if (top22 =? 0x358FC0) && (rd =? 0) then Some (Blr rn)
  else None.

(** ** State *)
Record nzcv : Type := mkFlags { fN : bool; fZ : bool; fC : bool; fV : bool }.

(** [world] is what called functions keep outside of the memory seen here. *)
Record st (W : Type) : Type := mkSt {
  X : Z -> Z; SP : Z; Dr : Z -> Z; flags : nzcv; mem : Z -> Z; pc : Z; world : W;
}.
Arguments mkSt {W}. Arguments X {W}. Arguments SP {W}. Arguments Dr {W}. Arguments flags {W}.
Arguments mem {W}. Arguments pc {W}. Arguments world {W}.

Section machine.
Context {W : Type} `{F64}.
Implicit Types s : st W.

Definition set_X (n v : Z) s : st W :=
  if n =? 31 then s else mkSt (<[n := v]> (X s)) (SP s) (Dr s) (flags s) (mem s) (pc s) (world s).
Definition set_SP (v : Z) s : st W := mkSt (X s) v (Dr s) (flags s) (mem s) (pc s) (world s).
Definition set_D (n v : Z) s : st W := mkSt (X s) (SP s) (<[n := v]> (Dr s)) (flags s) (mem s) (pc s) (world s).
Definition set_flags (f : nzcv) s : st W := mkSt (X s) (SP s) (Dr s) f (mem s) (pc s) (world s).
Definition set_mem (a v : Z) s : st W := mkSt (X s) (SP s) (Dr s) (flags s) (<[a := v]> (mem s)) (pc s) (world s).
Definition set_pc (a : Z) s : st W := mkSt (X s) (SP s) (Dr s) (flags s) (mem s) a (world s).

(** A register that reads as zero, or as the stack pointer, at 31. *)
Definition xz s (n : Z) : Z := if n =? 31 then 0 else X s n.
Definition xsp s (n : Z) : Z := if n =? 31 then SP s else X s n.
Definition set_xsp (n v : Z) s : st W := if n =? 31 then set_SP v s else set_X n v s.

(** The address of a 64-bit access, if it is aligned; the stack pointer has to
    be a multiple of 16 when it is the base. *)
Definition address s (n off : Z) : option Z :=
  if (n =? 31) && negb (SP s mod 16 =? 0) then None
  else let a := u64 (xsp s n + off) in if a mod 8 =? 0 then Some a else None.

Definition subs_flags (w a b : Z) : nzcv :=
  let r := (a - b) mod 2 ^ w in
  mkFlags (2 ^ (w - 1) <=? r) (r =? 0) (b <=? a)
    (negb (signed w a - signed w b =? signed w r)).

Definition fcmp_flags (c : fcmp_result) : nzcv :=
  match c with
  | FLess => mkFlags true false false false
  | FEqual => mkFlags false true true false
  | FGreater => mkFlags false false true false
  | FUnordered => mkFlags false false true true
  end.

Definition cond_holds (c : Z) (f : nzcv) : bool :=
  let base :=
    match c / 2 with
    | 0 => fZ f
    | 1 => fC f
    | 2 => fN f
    | 3 => fV f
    | 4 => fC f && negb (fZ f)
    | 5 => eqb (fN f) (fV f)
    | 6 => eqb (fN f) (fV f) && negb (fZ f)
    | _ => true
    end in
  if (c mod 2 =? 1) && negb (c =? 15) then negb base else base.

(** One instruction.  [call] gives the effect of the function at an address,
    from its entry to its return; [None] is an access the hardware refuses, or a
    call of something that is no function. *)
Context (call : Z -> option (st W -> st W)).

Definition exec (i : instr) s : option (st W) :=
  let next s := Some (set_pc (pc s + 4) s) in
  match i with
  | LdrD t n idx => a ← address s n (8 * idx); next (set_D t (mem s a) s)
  | StrD t n idx => a ← address s n (8 * idx); next (set_mem a (Dr s t) s)
  | LdrX t n idx => a ← address s n (8 * idx); next (set_X t (mem s a) s)
  | StrX t n idx => a ← address s n (8 * idx); next (set_mem a (xz s t) s)
  | Stp t1 t2 n imm =>
      a ← address s n (8 * imm); next (set_mem (u64 (a + 8)) (xz s t2) (set_mem a (xz s t1) s))
  | Ldp t1 t2 n imm =>
      a ← address s n (8 * imm); next (set_X t2 (mem s (u64 (a + 8))) (set_X t1 (mem s a) s))
  | AddImm d n imm => next (set_xsp d (u64 (xsp s n + imm)) s)
  | SubImm d n imm => next (set_xsp d (u64 (xsp s n - imm)) s)
  | SubsImmW d n imm =>
      let a := u32 (xsp s n) in next (set_flags (subs_flags 32 a imm) (set_X d (u32 (a - imm)) s))
  | OrrReg d n m => next (set_X d (Z.lor (xz s n) (xz s m)) s)
  | AndReg d n m => next (set_X d (Z.land (xz s n) (xz s m)) s)
  | AddReg d n m => next (set_X d (u64 (xz s n + xz s m)) s)
  | SubsReg d n m =>
      next (set_flags (subs_flags 64 (xz s n) (xz s m)) (set_X d (u64 (xz s n - xz s m)) s))
  | Movz d imm hw => next (set_X d (imm * 2 ^ (16 * hw)) s)
  | Movk d imm hw =>
      let old := xz s d in
      next (set_X d (old - field (16 * hw) 16 old * 2 ^ (16 * hw) + imm * 2 ^ (16 * hw)) s)
  | MovzW d imm hw => next (set_X d (imm * 2 ^ (16 * hw)) s)
  | FAdd d n m => next (set_D d (f_add (Dr s n) (Dr s m)) s)
  | FSub d n m => next (set_D d (f_sub (Dr s n) (Dr s m)) s)
  | FMul d n m => next (set_D d (f_mul (Dr s n) (Dr s m)) s)
  | FDiv d n m => next (set_D d (f_div (Dr s n) (Dr s m)) s)
  | FNeg d n => next (set_D d (Z.lxor (Dr s n) (2 ^ 63)) s)
  | FCmp n m => next (set_flags (fcmp_flags (f_cmp (Dr s n) (Dr s m))) s)
  | FCmpZero n => next (set_flags (fcmp_flags (f_cmp (Dr s n) 0)) s)
  | CsincW d n m c =>
      next (set_X d (if cond_holds c (flags s) then u32 (xz s n) else u32 (u32 (xz s m) + 1)) s)
  | Scvtf d n => next (set_D d (f_of_int (s32 (xz s n))) s)
  | B imm => Some (set_pc (pc s + 4 * imm) s)
  | BCond c imm => Some (set_pc (if cond_holds c (flags s) then pc s + 4 * imm else pc s + 4) s)
  | Ret n => Some (set_pc (xz s n) s)
  | Blr n =>
      f ← call (xz s n);
      let s' := f (set_X 30 (pc s + 4) s) in Some (set_pc (pc s + 4) s')
  end.

(** The instruction word at an address of the code [ws], which starts at [base]. *)
Definition fetch (base : Z) (ws : list Z) (a : Z) : option Z :=
  if (base <=? a) && ((a - base) mod 4 =? 0) then ws !! Z.to_nat ((a - base) / 4) else None.

Definition step (base : Z) (ws : list Z) s : option (st W) :=
  w ← fetch base ws (pc s); i ← decode w; exec i s.

(** Running [n] instructions. *)
Fixpoint run (base : Z) (ws : list Z) (n : nat) s : option (st W) :=
  match n with
  | O => Some s
  | S n => s' ← step base ws s; run base ws n s'
  end.
End machine.

(** ** Encodings *)
(** The instruction words, as the emitter puts them together. *)
Definition encode (i : instr) : Z :=
  match i with
  | LdrD t n idx => Z.lor (Z.lor (Z.lor 0xFD400000 (Z.shiftl idx 10)) (Z.shiftl n 5)) t
  | StrD t n idx => Z.lor (Z.lor (Z.lor 0xFD000000 (Z.shiftl idx 10)) (Z.shiftl n 5)) t
  | LdrX t n idx => Z.lor (Z.lor (Z.lor 0xF9400000 (Z.shiftl idx 10)) (Z.shiftl n 5)) t
  | StrX t n idx => Z.lor (Z.lor (Z.lor 0xF9000000 (Z.shiftl idx 10)) (Z.shiftl n 5)) t
  | Stp t1 t2 n imm => Z.lor (Z.lor (Z.lor (Z.lor 0xA9000000 (Z.shiftl (imm mod 2 ^ 7) 15)) (Z.shiftl t2 10)) (Z.shiftl n 5)) t1
  | Ldp t1 t2 n imm => Z.lor (Z.lor (Z.lor (Z.lor 0xA9400000 (Z.shiftl (imm mod 2 ^ 7) 15)) (Z.shiftl t2 10)) (Z.shiftl n 5)) t1
  | AddImm d n imm => Z.lor (Z.lor (Z.lor 0x91000000 (Z.shiftl imm 10)) (Z.shiftl n 5)) d
  | SubImm d n imm => Z.lor (Z.lor (Z.lor 0xD1000000 (Z.shiftl imm 10)) (Z.shiftl n 5)) d
  | SubsImmW d n imm => Z.lor (Z.lor (Z.lor 0x71000000 (Z.shiftl imm 10)) (Z.shiftl n 5)) d
  | OrrReg d n m => Z.lor (Z.lor (Z.lor 0xAA000000 (Z.shiftl m 16)) (Z.shiftl n 5)) d
  | AndReg d n m => Z.lor (Z.lor (Z.lor 0x8A000000 (Z.shiftl m 16)) (Z.shiftl n 5)) d
  | AddReg d n m => Z.lor (Z.lor (Z.lor 0x8B000000 (Z.shiftl m 16)) (Z.shiftl n 5)) d
  | SubsReg d n m => Z.lor (Z.lor (Z.lor 0xEB000000 (Z.shiftl m 16)) (Z.shiftl n 5)) d
  | Movz d imm hw => Z.lor (Z.lor (Z.lor 0xD2800000 (Z.shiftl hw 21)) (Z.shiftl imm 5)) d
  | Movk d imm hw => Z.lor (Z.lor (Z.lor 0xF2800000 (Z.shiftl hw 21)) (Z.shiftl imm 5)) d
  | MovzW d imm hw => Z.lor (Z.lor (Z.lor 0x52800000 (Z.shiftl hw 21)) (Z.shiftl imm 5)) d
  | FAdd d n m => Z.lor (Z.lor (Z.lor 0x1E602800 (Z.shiftl m 16)) (Z.shiftl n 5)) d
  | FSub d n m => Z.lor (Z.lor (Z.lor 0x1E603800 (Z.shiftl m 16)) (Z.shiftl n 5)) d
  | FMul d n m => Z.lor (Z.lor (Z.lor 0x1E600800 (Z.shiftl m 16)) (Z.shiftl n 5)) d
  | FDiv d n m => Z.lor (Z.lor (Z.lor 0x1E601800 (Z.shiftl m 16)) (Z.shiftl n 5)) d
  | FNeg d n => Z.lor (Z.lor 0x1E614000 (Z.shiftl n 5)) d
  | FCmp n m => Z.lor (Z.lor 0x1E602000 (Z.shiftl m 16)) (Z.shiftl n 5)
  | FCmpZero n => Z.lor 0x1E602008 (Z.shiftl n 5)
  | CsincW d n m c => Z.lor (Z.lor (Z.lor (Z.lor 0x1A800400 (Z.shiftl m 16)) (Z.shiftl n 5)) (Z.shiftl c 12)) d
  | Scvtf d n => Z.lor (Z.lor 0x1E620000 (Z.shiftl n 5)) d
  | B imm => Z.lor 0x14000000 (imm mod 2 ^ 26)
  | BCond c imm => Z.lor (Z.lor 0x54000000 (Z.shiftl (imm mod 2 ^ 19) 5)) c
  | Ret n => Z.lor 0xD65F0000 (Z.shiftl n 5)
  | Blr n => Z.lor 0xD63F0000 (Z.shiftl n 5)
  end.


(** Fields in the range of their encodings. *)
Definition reg (n : Z) : bool := (0 <=? n) && (n <? 32).
Definition within (lo hi x : Z) : bool := (lo <=? x) && (x <? hi).
Definition encodable (i : instr) : bool :=
  match i with
  | LdrD t n k | StrD t n k | LdrX t n k | StrX t n k
  | AddImm t n k | SubImm t n k | SubsImmW t n k => reg t && reg n && within 0 4096 k
  | Stp t1 t2 n k | Ldp t1 t2 n k => reg t1 && reg t2 && reg n && within (-64) 64 k
  | OrrReg d n m | AndReg d n m | AddReg d n m | SubsReg d n m
  | FAdd d n m | FSub d n m | FMul d n m | FDiv d n m => reg d && reg n && reg m
  | Movz d k hw | Movk d k hw => reg d && within 0 65536 k && within 0 4 hw
  | MovzW d k hw => reg d && within 0 65536 k && within 0 2 hw
  | FNeg d n | Scvtf d n => reg d && reg n
  | FCmp n m => reg n && reg m
  | FCmpZero n | Ret n | Blr n => reg n
  | CsincW d n m c => reg d && reg n && reg m && within 0 16 c
  | B k => within (- 2 ^ 25) (2 ^ 25) k
  | BCond c k => within 0 16 c && within (- 2 ^ 18) (2 ^ 18) k
  end.

Lemma lor_plus k a b : 0 <= k -> a mod 2 ^ k = 0 -> 0 <= b < 2 ^ k -> Z.lor a b = a + b.
Proof.
  intros Hk Ha Hb. assert (Hl : Z.land a b = 0).
  { apply Z.bits_inj'. intros i Hi. rewrite Z.land_spec, Z.bits_0. destruct (Z.lt_ge_cases i k).
    - by rewrite <- (Z.mod_pow2_bits_low a k i), Ha, Z.bits_0 by lia.
    - rewrite <- (Z.mod_small b (2 ^ k)), Z.mod_pow2_bits_high, andb_false_r by lia. done. }
  by rewrite Z.add_nocarry_lxor, Z.lxor_lor.
Qed.

(** A field put into zero bits. *)
Lemma lor_field k n a v : 0 <= k -> 0 <= n -> 0 <= v < 2 ^ n -> field k n a = 0 ->
  Z.lor a (Z.shiftl v k) = a + v * 2 ^ k.
Proof.
  intros Hk Hn Hv Ha. rewrite <- Z.shiftl_mul_pow2 by lia. assert (Hl : Z.land a (Z.shiftl v k) = 0).
  { apply Z.bits_inj'. intros i Hi. rewrite Z.land_spec, Z.bits_0, Z.shiftl_spec by lia.
    destruct (Z.lt_ge_cases i k); [by rewrite (Z.testbit_neg_r v), andb_false_r by lia|].
    destruct (Z.lt_ge_cases (i - k) n).
    - replace (Z.testbit a i) with (Z.testbit (field k n a) (i - k)); [by rewrite Ha, Z.bits_0|].
      unfold field. rewrite Z.mod_pow2_bits_low, <- Z.shiftr_div_pow2, Z.shiftr_spec by lia. f_equal. lia.
    - rewrite <- (Z.mod_small v (2 ^ n)), Z.mod_pow2_bits_high, andb_false_r by lia. done. }
  by rewrite Z.add_nocarry_lxor, Z.lxor_lor.
Qed.

Ltac zdl := Z.div_mod_to_equations; lia.

(** Words as sums. *)
Ltac put_field k n a v := rewrite (lor_field k n a v) by (first [lia | unfold field; zdl]).
Ltac word_sum :=
  repeat match goal with
  | |- context [Z.lor ?a (Z.shiftl ?v ?k)] =>
      match a with context [Z.lor _ _] => fail 1 | _ => idtac end;
      match k with
      | 10 => first [put_field 10 5 a v | put_field 10 12 a v]
      | 5 => first [put_field 5 5 a v | put_field 5 16 a v | put_field 5 19 a v]
      | 12 => put_field 12 4 a v | 15 => put_field 15 7 a v
      | 16 => put_field 16 5 a v | 21 => put_field 21 2 a v
      end
  | |- context [Z.lor ?a ?b] =>
      match a with context [Z.lor _ _] => fail 1 | _ => idtac end;
      first [ rewrite (lor_plus 5 a b) by zdl | rewrite (lor_plus 4 a b) by zdl | rewrite (lor_plus 26 a b) by zdl ]
  end.

Lemma div_bounds w k : 0 <= k -> 2 ^ k * (w / 2 ^ k) <= w < 2 ^ k * (w / 2 ^ k) + 2 ^ k.
Proof. intros. pose proof (Z.pow_pos_nonneg 2 k). pose proof (Z.div_mod w (2 ^ k)). pose proof (Z.mod_pos_bound w (2 ^ k)). lia. Qed.

(** Decides the tests of [decode] on a word [w] known up to its fields. *)
Ltac decide_tests :=
  repeat match goal with
  | |- context [if ?a =? ?b then _ else _] =>
      first [ rewrite (proj2 (Z.eqb_neq a b)) by lia | rewrite (proj2 (Z.eqb_eq a b)) by lia ]
  | |- context [(?a =? ?b) && _] =>
      first [ rewrite (proj2 (Z.eqb_neq a b)) by lia; cbn [andb] | rewrite (proj2 (Z.eqb_eq a b)) by lia; cbn [andb]
            | rewrite (proj2 (Z.eqb_neq a b)) by (unfold field; subst; zdl); cbn [andb]
            | rewrite (proj2 (Z.eqb_eq a b)) by (unfold field; subst; zdl); cbn [andb] ]
  | |- context [if ?a =? ?b then _ else _] =>
      first [ rewrite (proj2 (Z.eqb_neq a b)) by (unfold field; subst; zdl)
            | rewrite (proj2 (Z.eqb_eq a b)) by (unfold field; subst; zdl) ]
  | |- context [if ?a <? ?b then _ else _] => rewrite (proj2 (Z.ltb_lt a b)) by (unfold field; subst; zdl)
  end.

Lemma signed_mod n x : 0 < n -> - 2 ^ (n - 1) <= x < 2 ^ (n - 1) -> signed n (x mod 2 ^ n) = x.
Proof.
  intros Hn Hx. assert (Hp : 2 ^ n = 2 * 2 ^ (n - 1)) by (rewrite <- Z.pow_succ_r by lia; f_equal; lia).
  unfold signed. destruct (Z.lt_ge_cases x 0).
  - replace (x mod 2 ^ n) with (x + 2 ^ n) by (apply Z.mod_unique with (-1); lia).
    rewrite (proj2 (Z.ltb_ge _ _)); lia.
  - rewrite Z.mod_small, (proj2 (Z.ltb_lt _ _)); lia.
Qed.

(** [decode] on a sum of fields. *)
Ltac decode_sum :=
  let w := fresh "w" in let Ew := fresh "Ew" in
  match goal with |- decode ?x = _ => remember x as w eqn:Ew end;
  unfold decode; cbv zeta;
  pose proof (div_bounds w 22 ltac:(lia)); pose proof (div_bounds w 21 ltac:(lia));
  pose proof (div_bounds w 23 ltac:(lia)); pose proof (div_bounds w 10 ltac:(lia));
  pose proof (div_bounds w 26 ltac:(lia)); pose proof (div_bounds w 24 ltac:(lia));
  generalize dependent (w / 2 ^ 22); generalize dependent (w / 2 ^ 21); generalize dependent (w / 2 ^ 23);
  generalize dependent (w / 2 ^ 10); generalize dependent (w / 2 ^ 26); generalize dependent (w / 2 ^ 24);
  intros; decide_tests;
  do 2 f_equal; try (unfold field; subst; zdl).

(** Decoding an encoded instruction gives it back. *)
Lemma instr_decode_encode i : encodable i = true -> decode (encode i) = Some i.
Proof.
  destruct i; cbn [encodable encode]; unfold reg, within; rewrite ?andb_true_iff, ?Z.leb_le, ?Z.ltb_lt; intros Hf;
    try (pose proof (Z.mod_pos_bound imm7 (2 ^ 7) ltac:(lia)); assert (Hs : signed 7 (imm7 mod 2 ^ 7) = imm7) by (apply signed_mod; lia); revert Hs; generalize dependent (imm7 mod 2 ^ 7); intros u Hu Hs);
    try (pose proof (Z.mod_pos_bound imm26 (2 ^ 26) ltac:(lia)); assert (Hs : signed 26 (imm26 mod 2 ^ 26) = imm26) by (apply signed_mod; lia); revert Hs; generalize dependent (imm26 mod 2 ^ 26); intros u Hu Hs);
    try (pose proof (Z.mod_pos_bound imm19 (2 ^ 19) ltac:(lia)); assert (Hs : signed 19 (imm19 mod 2 ^ 19) = imm19) by (apply signed_mod; lia); revert Hs; generalize dependent (imm19 mod 2 ^ 19); intros u Hu Hs);
    word_sum.
  all: decode_sum.
  all: try (rewrite <- Hs; f_equal; unfold field; subst; zdl).
Qed.

(** Instructions are 32-bit words. *)
Lemma encode_range i : encodable i = true -> 0 <= encode i < 2 ^ 32.
Proof.
  destruct i; cbn [encodable encode]; unfold reg, within; rewrite ?andb_true_iff, ?Z.leb_le, ?Z.ltb_lt; intros Hf;
    try (pose proof (Z.mod_pos_bound imm7 (2 ^ 7) ltac:(lia)); generalize dependent (imm7 mod 2 ^ 7); intros u Hu);
    try (pose proof (Z.mod_pos_bound imm26 (2 ^ 26) ltac:(lia)); generalize dependent (imm26 mod 2 ^ 26); intros u Hu);
    try (pose proof (Z.mod_pos_bound imm19 (2 ^ 19) ltac:(lia)); generalize dependent (imm19 mod 2 ^ 19); intros u Hu);
    word_sum; lia.
Qed.
