(* ===== verification/JitMmu.v ===== *)
(** * Executable memory of the just-in-time back end

    The part of [cando_port/jit/codegen_aarch64.c] that turns freshly written
    bytes into code the CPU may run: [cg_walk_leaf] and [cg_make_rwx] edit the
    translation tables, [aarch64_sync_icache] brings the caches in line.
    System registers and table memory are the state [sys]; barriers and
    maintenance instructions are logged in program order. *)
From stdpp Require Import functions.
From S2P Require Import Prelude.

Inductive event : Type :=
| DcCvau (p : Z) | IcIvau (p : Z) | DsbIsh | DsbIshst | Isb | TlbiVaae1is (x : Z)
| Printf (t0sz wxn desc : Z).

Record sys : Type := mkSys {
  tcr_el1 : Z; ttbr0_el1 : Z; sctlr_el1 : Z; ctr_el0 : Z;
  table_mem : Z -> Z; diag_done : bool; log : list event;
}.

Definition asm (e : event) : M sys unit := fun s =>
  (OK tt, mkSys (tcr_el1 s) (ttbr0_el1 s) (sctlr_el1 s) (ctr_el0 s) (table_mem s) (diag_done s) (log s ++ [e])).
Definition store (a v : Z) : M sys unit := fun s =>
  (OK tt, mkSys (tcr_el1 s) (ttbr0_el1 s) (sctlr_el1 s) (ctr_el0 s) (<[a := v]> (table_mem s)) (diag_done s) (log s)).
Definition set_diag_done : M sys unit := fun s =>
  (OK tt, mkSys (tcr_el1 s) (ttbr0_el1 s) (sctlr_el1 s) (ctr_el0 s) (table_mem s) true (log s)).

(** [for (p = p0; p < stop; p += step)] on a 64-bit [p]. *)
Fixpoint for_step {S : Type} (fuel : nat) (p stop step : Z) (f : Z -> M S unit) : M S unit :=
  if p <? stop then
    match fuel with
    | O => nofuel
    | Datatypes.S k => f p ;;! for_step k (u64 (p + step)) stop step f
    end
  else ret tt.

(** ** Instruction cache *)
Definition dline (ctr : Z) : Z := Z.shiftl 4 (Z.land (Z.shiftr ctr 16) 0xF).
Definition iline (ctr : Z) : Z := Z.shiftl 4 (Z.land ctr 0xF).
Definition align_down (x size : Z) : Z := Z.land x (u64 (Z.lnot (size - 1))).

Definition aarch64_sync_icache (fuel : nat) (start len : Z) : M sys unit :=
  if len =? 0 then ret tt
  else
    let base := start in
    let stop := u64 (base + len) in
    let! s := get in
    let dl := dline (ctr_el0 s) in
    let il := iline (ctr_el0 s) in
    for_step fuel (align_down base dl) stop dl (fun p => asm (DcCvau p)) ;;!
    asm DsbIsh ;;!
    for_step fuel (align_down base il) stop il (fun p => asm (IcIvau p)) ;;!
    asm DsbIsh ;;!
    asm Isb.

(** ** Translation tables *)
Abbreviation PTE_ADDR_MASK := 0x0000FFFFFFFFF000 (only parsing).
Abbreviation PTE_PXN := (Z.shiftl 1 53) (only parsing).
Abbreviation PTE_UXN := (Z.shiftl 1 54) (only parsing).

(** The loop of [cg_walk_leaf] from level [4 - n] on. *)
Fixpoint walk_levels (mem : Z -> Z) (va : Z) (n : nat) (table : Z) : option Z :=
  match n with
  | O => None
  | S k =>
      let level := 3 - Z.of_nat k in
      let shift := 12 + 9 * (3 - level) in
      let idx := Z.land (Z.shiftr va shift) 0x1FF in
      let desc := u64 (table + idx * 8) in
      let d := mem desc in
      if Z.land d 1 =? 0 then None
      else if level =? 3 then Some desc
      else if Z.land d 3 =? 1 then Some desc
      else walk_levels mem va k (Z.land d PTE_ADDR_MASK)
  end.

Definition cg_walk_leaf (va : Z) (s : sys) : option Z :=
  let tcr := tcr_el1 s in
  let t0sz := Z.land tcr 0x3F in
  let tg0 := Z.land (Z.shiftr tcr 14) 0x3 in
  if negb (tg0 =? 0) then None
  else
    let resolved := 64 - t0sz - 12 in
    if resolved <=? 0 then None
    else
      let num_levels := Z.quot (resolved + 8) 9 in
      let num_levels := if num_levels <? 1 then 1 else num_levels in
      let num_levels := if 4 <? num_levels then 4 else num_levels in
      walk_levels (table_mem s) va (Z.to_nat num_levels) (Z.land (ttbr0_el1 s) PTE_ADDR_MASK).

Definition diagnose (addr : Z) : M sys unit :=
  let! s := get in
  if diag_done s then ret tt
  else
    set_diag_done ;;!
    asm (Printf (Z.land (tcr_el1 s) 0x3F) (Z.land (Z.shiftr (sctlr_el1 s) 19) 1)
           match cg_walk_leaf addr s with Some d => table_mem s d | None => 0 end).

(** The descriptor without its execute-never bits. *)
Definition executable (d : Z) : Z := Z.land d (u64 (Z.lnot (Z.lor PTE_PXN PTE_UXN))).

Definition make_page_rwx (p : Z) : M sys unit :=
  let! s := get in
  match cg_walk_leaf p s with
  | None => ret tt
  | Some desc =>
      let d := table_mem s desc in
      let nd := executable d in
      if nd =? d then ret tt
      else store desc nd ;;! asm DsbIshst ;;! asm (TlbiVaae1is (Z.shiftr p 12))
  end.

Definition cg_make_rwx (fuel : nat) (addr len : Z) : M sys unit :=
  if len =? 0 then ret tt
  else
    let base := align_down addr 0x1000 in
    let stop := align_down (u64 (addr + len + 0xFFF)) 0x1000 in
    diagnose addr ;;!
    for_step fuel base stop 0x1000 make_page_rwx ;;!
    asm DsbIsh ;;!
    asm Isb.

(** What [codegen_loop_trace] does with the finished code. *)
Definition publish (fuel : nat) (base len : Z) : M sys unit :=
  cg_make_rwx fuel base len ;;! aarch64_sync_icache fuel base len.

(** ** Loops *)
(** The values a loop takes. *)
Definition points (p stop step : Z) (ps : list Z) : Prop :=
  forall q, q ∈ ps <-> exists k, 0 <= k /\ q = p + k * step /\ q < stop.

Lemma points_nil p stop step : stop <= p -> 0 < step -> points p stop step [].
Proof. intros Hp Hs q. split; [by intros ?%not_elem_of_nil|]. intros (k & Hk & -> & Hq). nia. Qed.

Lemma points_cons p stop step ps : p < stop -> points (p + step) stop step ps -> points p stop step (p :: ps).
Proof.
  intros Hp Hps q. rewrite elem_of_cons, (Hps q). split.
  - intros [->|(k & Hk & -> & Hq)]; [exists 0; lia|]. exists (k + 1). lia.
  - intros (k & Hk & -> & Hq). destruct (decide (k = 0)) as [->|Hne]; [left; lia|]. right. exists (k - 1). lia.
Qed.

(** A loop runs its body at its points, one after the other. *)
Lemma for_step_runs {S} (f : Z -> M S unit) (R : list Z -> S -> S -> Prop) step stop :
  0 < step -> stop + step <= 2 ^ 64 -> (forall s, R [] s s) ->
  (forall p s s1 ps s2, p < stop -> f p s = (OK tt, s1) -> R ps s1 s2 -> R (p :: ps) s s2) ->
  (forall p s, exists s', f p s = (OK tt, s')) ->
  forall fuel p s, 0 <= p -> stop - p <= Z.of_nat fuel * step ->
  exists ps s', for_step fuel p stop step f s = (OK tt, s') /\ points p stop step ps /\ R ps s s'.
Proof.
  intros Hs Hb R0 RS Hf. induction fuel as [|k IH]; intros p s Hp Hk; cbn [for_step].
  - rewrite (proj2 (Z.ltb_ge _ _)) by lia. exists [], s. split; [done|]. split; [apply points_nil; lia|done].
  - destruct (Z.ltb_spec p stop).
    + destruct (Hf p s) as (s1 & Hs1). bstep Hs1. rewrite u64_small by lia.
      destruct (IH (p + step) s1) as (ps & s' & Hr & Hps & HR); [lia|lia|].
      exists (p :: ps), s'. split; [done|]. split; [by apply points_cons|by eapply RS].
    + exists [], s. split; [done|]. split; [apply points_nil; lia|done].
Qed.

Lemma align_down_pow2 x k : 0 <= k < 64 -> 0 <= x < 2 ^ 64 ->
  align_down x (2 ^ k) = 2 ^ k * (x / 2 ^ k).
Proof.
  intros Hk Hx. unfold align_down, u64. rewrite <- land_clear_low with (w := 64) by lia.
  by rewrite Z.ones_equiv, <- Z.sub_1_r.
Qed.

(** The lines of a range cover it. *)
Lemma points_cover x len k ps a : 0 <= k < 64 -> 0 <= x -> x + len <= 2 ^ 64 -> x <= a < x + len ->
  points (align_down x (2 ^ k)) (x + len) (2 ^ k) ps -> exists p, p ∈ ps /\ p <= a < p + 2 ^ k.
Proof.
  intros Hk Hx Hl Ha Hps. rewrite align_down_pow2 in Hps by lia.
  pose proof (Z.pow_pos_nonneg 2 k). exists (2 ^ k * (a / 2 ^ k)). pose proof (Z.mul_div_le a (2 ^ k)).
  pose proof (Z.mul_succ_div_gt a (2 ^ k)). split; [|lia]. apply Hps.
  exists (a / 2 ^ k - x / 2 ^ k). pose proof (Z.div_le_mono x a (2 ^ k)). lia.
Qed.

Definition logged (es : list event) (s : sys) : sys :=
  mkSys (tcr_el1 s) (ttbr0_el1 s) (sctlr_el1 s) (ctr_el0 s) (table_mem s) (diag_done s) (log s ++ es).

Lemma asm_loop (op : Z -> event) fuel base len k s :
  0 <= k < 64 -> 0 <= base -> base + len + 2 ^ k <= 2 ^ 64 -> 0 < len -> len < Z.of_nat fuel ->
  exists ps, for_step fuel (align_down base (2 ^ k)) (base + len) (2 ^ k) (fun p => asm (op p)) s
               = (OK tt, logged (op <$> ps) s) /\
    forall a, base <= a < base + len -> exists p, p ∈ ps /\ p <= a < p + 2 ^ k.
Proof.
  intros Hk Hb He Hl Hf. pose proof (Z.pow_pos_nonneg 2 k).
  destruct (for_step_runs (fun p => asm (op p)) (fun ps s s' => s' = logged (op <$> ps) s) (2 ^ k) (base + len))
    with (fuel := fuel) (p := align_down base (2 ^ k)) (s := s) as (ps & s' & Hr & Hps & ->).
  - lia.
  - lia.
  - intros []. unfold logged. cbn. by rewrite app_nil_r.
  - intros p s0 s1 ps s2 _ [= <-] ->. unfold logged. cbn. by rewrite <- app_assoc.
  - intros p s0. eexists. reflexivity.
  - rewrite align_down_pow2 by lia. pose proof (Z.div_pos base (2 ^ k)). lia.
  - rewrite align_down_pow2 by lia. pose proof (Z.mul_succ_div_gt base (2 ^ k)). nia.
  - exists ps. split; [done|]. intros a Ha. apply (points_cover base len k); [lia..|done].
Qed.

Lemma line_pow2 x : exists k, 2 <= k < 18 /\ Z.shiftl 4 (Z.land x 0xF) = 2 ^ k.
Proof.
  change 0xF with (Z.ones 4). rewrite Z.land_ones by lia. pose proof (Z.mod_pos_bound x (2 ^ 4)).
  exists (2 + x mod 2 ^ 4). rewrite Z.shiftl_mul_pow2, Z.pow_add_r by lia. split; [lia|done].
Qed.

(** [aarch64_sync_icache] cleans every line of the range, waits, invalidates
    every line, waits, and flushes the pipeline. *)
Lemma sync_icache_runs fuel base len s :
  0 <= base -> 0 < len -> base + len + 2 ^ 17 <= 2 ^ 64 -> len < Z.of_nat fuel ->
  exists ds vs, aarch64_sync_icache fuel base len s =
    (OK tt, logged ((DcCvau <$> ds) ++ [DsbIsh] ++ (IcIvau <$> vs) ++ [DsbIsh; Isb]) s) /\
    forall a, base <= a < base + len ->
      (exists p, p ∈ ds /\ p <= a < p + dline (ctr_el0 s)) /\ (exists p, p ∈ vs /\ p <= a < p + iline (ctr_el0 s)).
Proof.
  intros Hb Hl He Hf. unfold aarch64_sync_icache. rewrite (proj2 (Z.eqb_neq len 0)) by lia.
  destruct (line_pow2 (Z.shiftr (ctr_el0 s) 16)) as (kd & Hkd & Ed). destruct (line_pow2 (ctr_el0 s)) as (ki & Hki & Ei).
  unfold bind at 1. cbn [get]. rewrite u64_small by lia. unfold dline, iline in *. rewrite Ed, Ei.
  pose proof (Z.pow_le_mono_r 2 kd 17). pose proof (Z.pow_le_mono_r 2 ki 17).
  destruct (asm_loop DcCvau fuel base len kd s) as (ds & Hd & Cd); [lia..|].
  bstep Hd. unfold bind at 1. cbn [asm]. match goal with |- context [bind _ _ ?s1] => set (s' := s1) end.
  destruct (asm_loop IcIvau fuel base len ki s') as (vs & Hi & Ci); [lia..|].
  exists ds, vs. split; [|by split; [apply Cd|apply Ci]].
  bstep Hi. unfold bind, asm, logged, s'. cbn. by rewrite <- !app_assoc.
Qed.

(** ** Tables *)
(** Descriptors that lost at most their execute-never bits. *)
Definition relaxed (m m' : Z -> Z) : Prop := forall a, m' a = m a \/ m' a = executable (m a).

Lemma executable_land d c : Z.land (u64 (Z.lnot (Z.lor PTE_PXN PTE_UXN))) c = c ->
  Z.land (executable d) c = Z.land d c.
Proof. intros Hc. unfold executable. by rewrite <- Z.land_assoc, Hc. Qed.

Lemma executable_idem d : executable (executable d) = executable d.
Proof. unfold executable at 1. rewrite executable_land; [done|apply Z.land_diag]. Qed.

Lemma executable_no_xn d : Z.land (executable d) (Z.lor PTE_PXN PTE_UXN) = 0.
Proof. unfold executable. rewrite <- Z.land_assoc. apply Z.land_0_r. Qed.

Lemma relaxed_refl m : relaxed m m.
Proof. intros a. by left. Qed.

Lemma relaxed_trans m1 m2 m3 : relaxed m1 m2 -> relaxed m2 m3 -> relaxed m1 m3.
Proof.
  intros H1 H2 a. destruct (H2 a) as [->| ->]; [apply H1|]. right.
  destruct (H1 a) as [->| ->]; [done|]. apply executable_idem.
Qed.

(** They lead the walk to the same places. *)
Lemma walk_levels_relaxed m m' va n : relaxed m m' -> forall table, walk_levels m' va n table = walk_levels m va n table.
Proof.
  intros Hm. induction n as [|n IH]; intros table; cbn [walk_levels]; [done|].
  set (desc := u64 _). assert (Hc : forall c, Z.land (u64 (Z.lnot (Z.lor PTE_PXN PTE_UXN))) c = c ->
    Z.land (m' desc) c = Z.land (m desc) c).
  { intros c Hc. destruct (Hm desc) as [->| ->]; [done|by apply executable_land]. }
  rewrite !Hc by reflexivity. by rewrite IH.
Qed.

Definition same_regs (s s' : sys) : Prop :=
  tcr_el1 s' = tcr_el1 s /\ ttbr0_el1 s' = ttbr0_el1 s /\ ctr_el0 s' = ctr_el0 s.

Lemma walk_leaf_relaxed s s' va : same_regs s s' -> relaxed (table_mem s) (table_mem s') ->
  cg_walk_leaf va s' = cg_walk_leaf va s.
Proof.
  intros (Ht & Hb & _) Hm. unfold cg_walk_leaf. rewrite Ht, Hb.
  case_match; [done|]. case_match; [done|]. by rewrite (walk_levels_relaxed _ _ _ _ Hm).
Qed.

(** The walk does not see the offset in the page. *)
Lemma walk_levels_page m va va' n : va / 2 ^ 12 = va' / 2 ^ 12 -> forall table, walk_levels m va n table = walk_levels m va' n table.
Proof.
  intros Hv. induction n as [|n IH]; intros table; cbn [walk_levels]; [done|].
  replace (Z.shiftr va (12 + 9 * (3 - (3 - Z.of_nat n)))) with (Z.shiftr va' (12 + 9 * (3 - (3 - Z.of_nat n)))); [by rewrite IH|].
  rewrite <- !Z.shiftr_shiftr, !(Z.shiftr_div_pow2 _ 12) by lia. by rewrite Hv.
Qed.

Lemma walk_leaf_page va va' s : va / 2 ^ 12 = va' / 2 ^ 12 -> cg_walk_leaf va s = cg_walk_leaf va' s.
Proof.
  intros Hv. unfold cg_walk_leaf. case_match; [done|]. case_match; [done|]. by apply walk_levels_page.
Qed.

(** What [cg_make_rwx] may do while it works on the pages [ps]. *)
Record edits (ps : list Z) (s s' : sys) : Prop := {
  ed_regs : same_regs s s';
  ed_done : forall p l, p ∈ ps -> cg_walk_leaf p s = Some l -> table_mem s' l = executable (table_mem s l);
  ed_only : forall l, table_mem s' l = table_mem s l \/
    table_mem s' l = executable (table_mem s l) /\ exists p, p ∈ ps /\ cg_walk_leaf p s = Some l;
  ed_log : exists es, log s' = log s ++ es /\
    forall l, table_mem s' l <> table_mem s l -> exists p es1 es2, cg_walk_leaf p s = Some l /\ p ∈ ps /\
      es = es1 ++ [DsbIshst; TlbiVaae1is (Z.shiftr p 12)] ++ es2;
}.

Lemma edits_relaxed ps s s' : edits ps s s' -> relaxed (table_mem s) (table_mem s').
Proof. intros H a. destruct (ed_only _ _ _ H a) as [?|[? _]]; [by left|by right]. Qed.

Lemma edits_nil s : edits [] s s.
Proof.
  split; [done|by intros ?? ?%not_elem_of_nil|by left|]. exists []. split; [by rewrite app_nil_r|done].
Qed.

Lemma edits_app ps qs s s1 s2 : edits ps s s1 -> edits qs s1 s2 -> edits (ps ++ qs) s s2.
Proof.
  intros H1 H2. pose proof (edits_relaxed _ _ _ H1) as R1. pose proof (edits_relaxed _ _ _ H2) as R2.
  assert (Hw : forall p, cg_walk_leaf p s1 = cg_walk_leaf p s) by (intros; apply walk_leaf_relaxed; [apply H1|done]).
  destruct H1 as [(Ha & Hb & Hc) D1 O1 (es1 & L1 & T1)], H2 as [(Ha' & Hb' & Hc') D2 O2 (es2 & L2 & T2)].
  split.
  - repeat split; congruence.
  - intros p l [Hp|Hp]%elem_of_app Hl.
    + destruct (R2 l) as [->| ->]; rewrite (D1 p l Hp Hl); [done|apply executable_idem].
    + rewrite (D2 p l Hp) by (by rewrite Hw). destruct (R1 l) as [->| ->]; [done|apply executable_idem].
  - intros l. destruct (O2 l) as [->|[-> (p & Hp & Hl)]].
    + destruct (O1 l) as [->|[-> (p & Hp & Hl)]]; [by left|right; split; [done|]]. exists p. by rewrite elem_of_app; auto.
    + right. split; [destruct (R1 l) as [->| ->]; [done|apply executable_idem]|].
      exists p. rewrite Hw in Hl. by rewrite elem_of_app; auto.
  - exists (es1 ++ es2). split; [by rewrite L2, L1, app_assoc|]. intros l Hl.
    destruct (decide (table_mem s1 l = table_mem s l)) as [E|N].
    + rewrite <- E in Hl. destruct (T2 l Hl) as (p & e1 & e2 & Hp & Hi & ->). rewrite Hw in Hp.
      exists p, (es1 ++ e1), e2. rewrite elem_of_app. by rewrite <- app_assoc; auto.
    + destruct (T1 l N) as (p & e1 & e2 & Hp & Hi & ->). exists p, e1, (e2 ++ es2).
      rewrite elem_of_app. split_and!; [done|auto|]. by rewrite <- !app_assoc.
Qed.

Lemma edits_logged ps s s' es : edits ps s s' -> edits ps s (logged es s').
Proof.
  intros [R D O (e & L & T)]. split; [done..|]. exists (e ++ es). cbn. split; [by rewrite L, app_assoc|].
  intros l Hl. destruct (T l Hl) as (p & e1 & e2 & Hp & Hi & ->). exists p, e1, (e2 ++ es). by rewrite <- !app_assoc.
Qed.

Lemma make_page_rwx_runs p s : exists s', make_page_rwx p s = (OK tt, s') /\ edits [p] s s'.
Proof.
  unfold make_page_rwx, bind at 1. cbn [get]. destruct (cg_walk_leaf p s) as [desc|] eqn:Hw.
  - destruct (Z.eqb_spec (executable (table_mem s desc)) (table_mem s desc)) as [E|N].
    + exists s. split; [done|]. split; [done| |by left|].
      * intros p' l ->%list_elem_of_singleton Hl. congruence.
      * exists []. by rewrite app_nil_r.
    + eexists. split; [reflexivity|]. split; cbn; [done|..].
      * intros p' l ->%list_elem_of_singleton Hl. rewrite Hw in Hl. injection Hl as <-. by rewrite fn_lookup_insert.
      * intros l. destruct (decide (desc = l)) as [<-|Hne].
        -- right. rewrite fn_lookup_insert. split; [done|]. exists p. by rewrite list_elem_of_singleton.
        -- left. by rewrite fn_lookup_insert_ne.
      * exists [DsbIshst; TlbiVaae1is (Z.shiftr p 12)]. rewrite <- app_assoc. split; [done|]. intros l Hl.
        destruct (decide (desc = l)) as [<-|Hne]; [|by rewrite fn_lookup_insert_ne in Hl].
        exists p, [], []. by rewrite list_elem_of_singleton.
  - exists s. split; [done|]. split; [done| |by left|].
    + intros p' l ->%list_elem_of_singleton Hl. congruence.
    + exists []. by rewrite app_nil_r.
Qed.

Lemma diagnose_runs addr s : exists s', diagnose addr s = (OK tt, s') /\ edits [] s s'.
Proof.
  unfold diagnose, bind at 1. cbn [get]. destruct (diag_done s).
  - exists s. split; [done|apply edits_nil].
  - eexists. split; [reflexivity|]. split; [done|by intros ?? ?%not_elem_of_nil|by left|]. eexists. by split.
Qed.

(** The pages a loop over [len] bytes at [base] visits are those of its bytes. *)
Lemma page_points base len ps : 0 <= base -> 0 < len -> base + len + 2 ^ 17 <= 2 ^ 64 ->
  points (align_down base 0x1000) (align_down (u64 (base + len + 0xFFF)) 0x1000) 0x1000 ps ->
  (forall a, base <= a < base + len -> exists p, p ∈ ps /\ p / 2 ^ 12 = a / 2 ^ 12) /\
  (forall p, p ∈ ps -> exists a, base <= a < base + len /\ p / 2 ^ 12 = a / 2 ^ 12).
Proof.
  intros Hb Hl He Hps. rewrite u64_small in Hps by lia. change 0x1000 with (2 ^ 12) in Hps.
  rewrite !align_down_pow2 in Hps by lia. split.
  - intros a Ha. exists (2 ^ 12 * (a / 2 ^ 12)). split; [|zdm]. apply Hps. exists (a / 2 ^ 12 - base / 2 ^ 12). zdm.
  - intros p (k & Hk & -> & Hp)%Hps. exists (Z.max base (2 ^ 12 * (base / 2 ^ 12) + k * 2 ^ 12)). zdm.
Qed.

Lemma make_rwx_runs fuel base len s :
  0 <= base -> 0 < len -> base + len + 2 ^ 17 <= 2 ^ 64 -> len < Z.of_nat fuel ->
  exists ps s', cg_make_rwx fuel base len s = (OK tt, logged [DsbIsh; Isb] s') /\ edits ps s s' /\
    (forall a, base <= a < base + len -> exists p, p ∈ ps /\ p / 2 ^ 12 = a / 2 ^ 12) /\
    (forall p, p ∈ ps -> exists a, base <= a < base + len /\ p / 2 ^ 12 = a / 2 ^ 12).
Proof.
  intros Hb Hl He Hf. unfold cg_make_rwx. rewrite (proj2 (Z.eqb_neq len 0)) by lia.
  destruct (diagnose_runs base s) as (s1 & Hd & E1). bstep Hd.
  destruct (for_step_runs make_page_rwx edits 0x1000 (align_down (u64 (base + len + 0xFFF)) 0x1000))
    with (fuel := fuel) (p := align_down base 0x1000) (s := s1) as (ps & s2 & Hr & Hps & E2).
  - lia.
  - rewrite u64_small by lia. change 0x1000 with (2 ^ 12) at 1. rewrite align_down_pow2 by lia. zdm.
  - apply edits_nil.
  - intros p s0 s' ps s'' _ Hp He2. destruct (make_page_rwx_runs p s0) as (s3 & Hp' & He1).
    assert (s3 = s') as -> by congruence. by apply (edits_app [p] ps _ s').
  - intros p s0. destruct (make_page_rwx_runs p s0) as (s' & Hp & _). by exists s'.
  - change 0x1000 with (2 ^ 12). rewrite align_down_pow2 by lia. zdm.
  - rewrite u64_small by lia. change 0x1000 with (2 ^ 12) at 1 2. rewrite !align_down_pow2 by lia. zdm.
  - exists ps, s2. bstep Hr. unfold bind, asm, logged. cbn. rewrite <- app_assoc. split; [done|].
    split; [by apply (edits_app [] ps _ s1)|]. by apply page_points.
Qed.

(** C18.  Compiled code is fit to run.  After the calls with which
    [codegen_loop_trace] ends, the descriptor that maps a byte of the code has
    no execute-never bit and is otherwise as it was; every virtual address is
    translated through the same descriptors, and a descriptor that changed
    maps a byte of the code and had its translation invalidated, after a
    barrier and before the final barriers.  Then each byte's line of the data
    cache is cleaned, its line of the instruction cache is invalidated after
    the barrier, and the pipeline is flushed last. *)
Theorem code_published fuel base len s :
  0 <= base -> 0 < len -> base + len + 2 ^ 17 <= 2 ^ 64 -> len < Z.of_nat fuel ->
  exists s' es ds vs, publish fuel base len s = (OK tt, s') /\
    (forall a l, base <= a < base + len -> cg_walk_leaf a s = Some l ->
       table_mem s' l = executable (table_mem s l) /\ Z.land (table_mem s' l) (Z.lor PTE_PXN PTE_UXN) = 0) /\
    (forall va, cg_walk_leaf va s' = cg_walk_leaf va s) /\
    (forall l, table_mem s' l <> table_mem s l -> exists a p es1 es2, base <= a < base + len /\
       p / 2 ^ 12 = a / 2 ^ 12 /\ cg_walk_leaf a s = Some l /\ es = es1 ++ [DsbIshst; TlbiVaae1is (Z.shiftr p 12)] ++ es2) /\
    log s' = log s ++ es ++ [DsbIsh; Isb] ++ (DcCvau <$> ds) ++ [DsbIsh] ++ (IcIvau <$> vs) ++ [DsbIsh; Isb] /\
    forall a, base <= a < base + len ->
      (exists p, p ∈ ds /\ p <= a < p + dline (ctr_el0 s)) /\ (exists p, p ∈ vs /\ p <= a < p + iline (ctr_el0 s)).
Proof.
  intros Hb Hl He Hf. destruct (make_rwx_runs fuel base len s) as (ps & s1 & Hm & Hed & Hin & Hout); [done..|].
  destruct (sync_icache_runs fuel base len (logged [DsbIsh; Isb] s1)) as (ds & vs & Hs & Hc); [done..|].
  assert (Hctr : ctr_el0 (logged [DsbIsh; Isb] s1) = ctr_el0 s) by apply (ed_regs _ _ _ Hed). rewrite Hctr in Hc.
  destruct (ed_log _ _ _ Hed) as (es & Hlog & Htlb). eexists _, es, ds, vs. unfold publish. bstep Hm.
  split; [exact Hs|]. split_and!.
  - intros a l Ha Hw. destruct (Hin a Ha) as (p & Hp & Hpa). rewrite <- (walk_leaf_page _ _ _ Hpa) in Hw.
    cbn. rewrite (ed_done _ _ _ Hed p l Hp Hw). split; [done|apply executable_no_xn].
  - intros va. apply walk_leaf_relaxed; [exact (ed_regs _ _ _ Hed)|exact (edits_relaxed _ _ _ Hed)].
  - intros l Hl'. destruct (Htlb l Hl') as (p & es1 & es2 & Hw & Hp & ->). destruct (Hout p Hp) as (a & Ha & Hpa).
    exists a, p, es1, es2. by rewrite <- (walk_leaf_page _ _ _ Hpa).
  - cbn. by rewrite Hlog, <- !app_assoc.
  - done.
Qed.

(** A page at 0x40001000 mapped by three levels of tables, execute-never. *)
Definition demo_sys : sys :=
  mkSys 25 0x1000 0 0x84448004
    (<[0x1008 := 0x2003]> (<[0x2000 := 0x3003]> (<[0x3008 := 0x60000040001703]> (fun _ => 0)))) true [].

Lemma code_published_witness :
  exists s', publish 65 0x40001000 64 demo_sys = (OK tt, s') /\ cg_walk_leaf 0x40001000 s' = Some 0x3008 /\
    table_mem s' 0x3008 = 0x40001703 /\ exists l, log s' = l ++ [DsbIsh; Isb].
Proof.
  destruct (code_published 65 0x40001000 64 demo_sys) as (s' & es & ds & vs & Hp & Hx & Hw & _ & Hl & _); [lia..|].
  exists s'. assert (Hd : cg_walk_leaf 0x40001000 demo_sys = Some 0x3008) by (vm_compute; reflexivity).
  split; [exact Hp|]. split; [by rewrite Hw|]. split.
  - destruct (Hx 0x40001000 0x3008) as [-> _]; [lia|exact Hd|]. vm_compute. reflexivity.
  - rewrite Hl, !app_assoc. by eexists.
Defined.
