(* ===== verification/Jit.v ===== *)
(** * The AArch64 just-in-time back end, [cando_port/jit/codegen_aarch64.c]

    Every function of the file that emits code.  The code generator [CG] is a
    buffer of bytes with a write position; emission is state passing, and a
    [failed] flag is set instead of returning an error.  The CanDo side (value
    representation, constant pool, native functions, code memory) is given by
    the class [Cando]. *)
From S2P Require Import Prelude Bytes JitMmu.

(** ** The CanDo side *)
(** The operations the file names; all others are refused. *)
Inductive IROp : Type :=
| IR_NOP | IR_LOOP | IR_KNUM | IR_KBOOL | IR_SLOAD | IR_SSTORE
| IR_ADD | IR_SUB | IR_MUL | IR_DIV | IR_MOD | IR_NEG
| IR_EQ | IR_NEQ | IR_LT | IR_LE | IR_GT | IR_GE
| IR_GLOAD | IR_GSTORE | IR_CALL_F1
| IR_GUARD_NUM | IR_GUARD_TRUE | IR_GUARD_FALSE
| IR_OTHER (n : Z).

Inductive IRType : Type := IRT_NUM | IRT_OTHER (n : Z).

(** [sunk] is the flag [IRF_SUNK]. *)
Record IRIns : Type := mkIns { op : IROp; type : IRType; sunk : bool; op1 : Z; op2 : Z }.

Record mcode : Type := mkMcode { mc_base : Z; mc_buf : list Z; mc_written : Z }.

Record CandoTrace : Type := mkTrace {
  ir : list IRIns; consts : Z -> Z; is_function_trace : bool; t_mcode : mcode; mcode_fn : option Z;
}.

Class Cando : Type := {
  IRREF_IS_K : Z -> bool;
  cando_is_number : Z -> bool;
  cando_is_string : Z -> bool;
  cando_as_string : Z -> Z;
  cando_mcode_alloc : Z -> mcode -> option mcode;
  cando_mcode_finalize : mcode -> option mcode;
  cando_mcode_free : mcode -> mcode;
  at_fmod : Z;
  at_gload : Z;
  at_gstore : Z;
  at_replay : Z;
}.

(** The registered native functions of a virtual machine, by index; 0 is NULL. *)
Definition CandoVM : Type := list Z.

(** ** Constants *)
Definition NB_MASK : Z := 0xFFF8000000000000.
Definition NB_CANON_NAN : Z := 0x7FF8000000000000.
Abbreviation D_ONE_BITS := 0x3FF0000000000000 (only parsing).
Abbreviation R_VM := 19 (only parsing).
Abbreviation R_T := 20 (only parsing).
Abbreviation R_FS := 21 (only parsing).
Abbreviation R_VALS := 22 (only parsing).
Abbreviation R_SKIP := 23 (only parsing).
Abbreviation SP_REG := 31 (only parsing).
Abbreviation XZR := 31 (only parsing).
Abbreviation LR_REG := 30 (only parsing).
Abbreviation FP_REG := 29 (only parsing).
Abbreviation CC_EQ := 0 (only parsing).
Abbreviation CC_NE := 1 (only parsing).
Abbreviation CC_MI := 4 (only parsing).
Abbreviation CC_VC := 7 (only parsing).
Abbreviation CC_LS := 9 (only parsing).
Abbreviation CC_GE := 10 (only parsing).
Abbreviation CC_GT := 12 (only parsing).
Abbreviation CG_MAX_GUARDS := 1024 (only parsing).
Abbreviation FRAME_BYTES := 64 (only parsing).

(** ** The code generator

    [buf] is the memory from [base] to [end], [cur] an offset into it;
    [guards] has the offset of each guard's branch and its snapshot. *)
Record CG : Type := mkCG {
  buf : list Z; cur : Z; failed : bool; vm : option CandoVM; cur_snap : Z;
  loopdone_off : list Z; guards : list (Z * Z);
}.

Definition fail (g : CG) : CG := mkCG (buf g) (cur g) true (vm g) (cur_snap g) (loopdone_off g) (guards g).
Definition set_buf (b : list Z) (g : CG) : CG := mkCG b (cur g) (failed g) (vm g) (cur_snap g) (loopdone_off g) (guards g).
Definition set_cur (c : Z) (g : CG) : CG := mkCG (buf g) c (failed g) (vm g) (cur_snap g) (loopdone_off g) (guards g).
Definition set_snap (n : Z) (g : CG) : CG := mkCG (buf g) (cur g) (failed g) (vm g) n (loopdone_off g) (guards g).
Definition add_loopdone (o : Z) (g : CG) : CG :=
  mkCG (buf g) (cur g) (failed g) (vm g) (cur_snap g) (loopdone_off g ++ [o]) (guards g).
Definition add_guard (o snap : Z) (g : CG) : CG :=
  mkCG (buf g) (cur g) (failed g) (vm g) (cur_snap g) (loopdone_off g) (guards g ++ [(o, snap)]).
Definition size (g : CG) : Z := Z.of_nat (length (buf g)).

(** One emission after the other. *)
Definition andthen (f h : CG -> CG) (g : CG) : CG := h (f g).
Declare Scope emit_scope.
Delimit Scope emit_scope with emit.
Notation "f ;; h" := (andthen f h) (at level 100, right associativity) : emit_scope.

Definition cg_w32 (insn : Z) (g : CG) : CG :=
  if failed g then g
  else if size g <? cur g + 4 then fail g
  else set_cur (cur g + 4) (set_buf (splice (Z.to_nat (cur g)) (le_enc 4 insn) (buf g)) g).

Definition cg_off (g : CG) : Z := u32 (cur g).

Definition cg_patch32 (off insn : Z) (g : CG) : CG :=
  if u32 (size g) <? u32 (off + 4) then g
  else set_buf (splice (Z.to_nat off) (le_enc 4 insn) (buf g)) g.

(** ** Instructions *)
Section instructions.
Local Infix "<<" := Z.shiftl (at level 35).
Local Infix ">>" := Z.shiftr (at level 35).
Local Infix "|" := Z.lor (at level 50, left associativity).
Local Infix "&" := Z.land (at level 40).

Definition emit_ldr_d (dt xn idx : Z) (g : CG) : CG :=
  if 4095 <? idx then fail g else cg_w32 (0xFD400000 | idx << 10 | xn << 5 | dt) g.
Definition emit_str_d (dt xn idx : Z) (g : CG) : CG :=
  if 4095 <? idx then fail g else cg_w32 (0xFD000000 | idx << 10 | xn << 5 | dt) g.
Definition emit_ldr_x (xt xn idx : Z) (g : CG) : CG :=
  if 4095 <? idx then fail g else cg_w32 (0xF9400000 | idx << 10 | xn << 5 | xt) g.
Definition emit_str_x (xt xn idx : Z) (g : CG) : CG :=
  if 4095 <? idx then fail g else cg_w32 (0xF9000000 | idx << 10 | xn << 5 | xt) g.
Definition emit_stp (t1 t2 xn imm : Z) : CG -> CG :=
  let imm7 := u32 (Z.quot imm 8 & 0x7F) in cg_w32 (0xA9000000 | imm7 << 15 | t2 << 10 | xn << 5 | t1).
Definition emit_ldp (t1 t2 xn imm : Z) : CG -> CG :=
  let imm7 := u32 (Z.quot imm 8 & 0x7F) in cg_w32 (0xA9400000 | imm7 << 15 | t2 << 10 | xn << 5 | t1).
Definition emit_sub_sp (imm : Z) : CG -> CG := cg_w32 (0xD1000000 | (imm & 0xFFF) << 10 | SP_REG << 5 | SP_REG).
Definition emit_add_sp (imm : Z) : CG -> CG := cg_w32 (0x91000000 | (imm & 0xFFF) << 10 | SP_REG << 5 | SP_REG).
Definition emit_mov_from_sp (xd : Z) : CG -> CG := cg_w32 (0x91000000 | SP_REG << 5 | xd).
Definition emit_mov_reg (xd xn : Z) : CG -> CG := cg_w32 (0xAA0003E0 | xn << 16 | xd).
Definition emit_mov_imm64 (xd v : Z) : CG -> CG :=
  (cg_w32 (0xD2800000 | (v >> 0 & 0xFFFF) << 5 | xd) ;;
   (if (v >> 16 & 0xFFFF) =? 0 then id else cg_w32 (0xF2800000 | 1 << 21 | (v >> 16 & 0xFFFF) << 5 | xd)) ;;
   (if (v >> 32 & 0xFFFF) =? 0 then id else cg_w32 (0xF2800000 | 2 << 21 | (v >> 32 & 0xFFFF) << 5 | xd)) ;;
   (if (v >> 48 & 0xFFFF) =? 0 then id else cg_w32 (0xF2800000 | 3 << 21 | (v >> 48 & 0xFFFF) << 5 | xd)))%emit.
Definition emit_movz_w (wd imm16 : Z) : CG -> CG := cg_w32 (0x52800000 | (imm16 & 0xFFFF) << 5 | wd).
Definition emit_and_reg (xd xn xm : Z) : CG -> CG := cg_w32 (0x8A000000 | xm << 16 | xn << 5 | xd).
Definition emit_cmp_reg (xn xm : Z) : CG -> CG := cg_w32 (0xEB000000 | xm << 16 | xn << 5 | XZR).
Definition emit_add_reg (xd xn xm : Z) : CG -> CG := cg_w32 (0x8B000000 | xm << 16 | xn << 5 | xd).
Definition emit_cmp_w_zero (wn : Z) : CG -> CG := cg_w32 (0x7100001F | wn << 5).
Definition emit_fadd (dd dn dm : Z) : CG -> CG := cg_w32 (0x1E602800 | dm << 16 | dn << 5 | dd).
Definition emit_fsub (dd dn dm : Z) : CG -> CG := cg_w32 (0x1E603800 | dm << 16 | dn << 5 | dd).
Definition emit_fmul (dd dn dm : Z) : CG -> CG := cg_w32 (0x1E600800 | dm << 16 | dn << 5 | dd).
Definition emit_fdiv (dd dn dm : Z) : CG -> CG := cg_w32 (0x1E601800 | dm << 16 | dn << 5 | dd).
Definition emit_fneg (dd dn : Z) : CG -> CG := cg_w32 (0x1E614000 | dn << 5 | dd).
Definition emit_fcmp (dn dm : Z) : CG -> CG := cg_w32 (0x1E602000 | dm << 16 | dn << 5).
Definition emit_fcmp_zero (dn : Z) : CG -> CG := cg_w32 (0x1E602008 | dn << 5).
Definition emit_cset (wd cond : Z) : CG -> CG := cg_w32 (0x1A9F07E0 | (Z.lxor cond 1 & 0xF) << 12 | wd).
Definition emit_scvtf_d_w (dd wn : Z) : CG -> CG := cg_w32 (0x1E620000 | wn << 5 | dd).

Definition emit_b_placeholder (g : CG) : Z * CG := (cg_off g, cg_w32 0x14000000 g).
Definition patch_b (br_off target_off : Z) (g : CG) : CG :=
  let rel := Z.quot (s32 target_off - s32 br_off) 4 in
  cg_patch32 br_off (0x14000000 | (u32 rel & 0x03FFFFFF)) g.
Definition emit_bcond_placeholder (cond : Z) (g : CG) : Z * CG :=
  (cg_off g, cg_w32 (0x54000000 | (cond & 0xF)) g).
(** A byte behind the buffer would be read only where the patch is refused. *)
Definition patch_bcond (br_off target_off : Z) (g : CG) : CG :=
  let rel := Z.quot (s32 target_off - s32 br_off) 4 in
  let cond := default 0 (buf g !! Z.to_nat br_off) & 0xF in
  cg_patch32 br_off (0x54000000 | (u32 rel & 0x7FFFF) << 5 | cond) g.
Definition emit_ret : CG -> CG := cg_w32 0xD65F03C0.
Definition emit_blr (xn : Z) : CG -> CG := cg_w32 (0xD63F0000 | xn << 5).

End instructions.

(** ** Guards, prologue, epilogue *)
Definition cg_emit_guard (cond snap_idx : Z) (g : CG) : CG :=
  if CG_MAX_GUARDS <=? Z.of_nat (length (guards g)) then fail g
  else let (br, g) := emit_bcond_placeholder cond g in add_guard br snap_idx g.

Definition emit_prologue : CG -> CG :=
  (emit_sub_sp FRAME_BYTES ;;
   emit_stp FP_REG LR_REG SP_REG 0 ;;
   emit_stp R_VM R_T SP_REG 16 ;;
   emit_stp R_FS R_VALS SP_REG 32 ;;
   emit_str_x R_SKIP SP_REG (48 / 8) ;;
   emit_mov_from_sp FP_REG ;;
   emit_mov_reg R_VM 0 ;;
   emit_mov_reg R_T 1 ;;
   emit_mov_reg R_SKIP 2 ;;
   emit_mov_reg R_FS 3 ;;
   emit_mov_reg R_VALS 4)%emit.

Definition emit_epilogue : CG -> CG :=
  (emit_ldp FP_REG LR_REG SP_REG 0 ;;
   emit_ldp R_VM R_T SP_REG 16 ;;
   emit_ldp R_FS R_VALS SP_REG 32 ;;
   emit_ldr_x R_SKIP SP_REG (48 / 8) ;;
   emit_add_sp FRAME_BYTES ;;
   emit_ret)%emit.

(** ** Operations *)
Section ops.
Context `{Cando}.
Implicit Types cs : Z -> Z.

Definition emit_knum cs (k_ref i : Z) (g : CG) : CG :=
  if negb (IRREF_IS_K k_ref) then fail g
  else
    let cv := cs k_ref in
    if negb (cando_is_number cv) then fail g
    else (emit_mov_imm64 9 cv ;; emit_str_x 9 R_VALS i)%emit g.

Definition emit_kbool (imm i : Z) : CG -> CG :=
  (emit_mov_imm64 9 (if imm =? 0 then 0 else D_ONE_BITS) ;; emit_str_x 9 R_VALS i)%emit.

Definition emit_sload_num (slot i : Z) (g : CG) : CG :=
  (emit_ldr_x 9 R_FS slot ;;
   emit_mov_imm64 10 NB_MASK ;;
   emit_and_reg 11 9 10 ;;
   emit_cmp_reg 11 10 ;;
   cg_emit_guard CC_EQ (cur_snap g) ;;
   emit_str_x 9 R_VALS i)%emit g.

Definition emit_sstore (slot op2 : Z) (g : CG) : CG :=
  let g := (emit_ldr_d 0 R_VALS op2 ;; emit_fcmp 0 0)%emit g in
  let (br, g) := emit_bcond_placeholder CC_VC g in
  let g := (emit_mov_imm64 9 NB_CANON_NAN ;; emit_str_x 9 R_FS slot)%emit g in
  let (br2, g) := emit_b_placeholder g in
  let normal_off := cg_off g in
  let g := (patch_bcond br normal_off ;; emit_str_d 0 R_FS slot)%emit g in
  let done_off := cg_off g in
  patch_b br2 done_off g.

Definition emit_arith (o : IROp) (a b i : Z) (g : CG) : CG :=
  let g := (emit_ldr_d 0 R_VALS a ;; emit_ldr_d 1 R_VALS b)%emit g in
  match o with
  | IR_ADD => (emit_fadd 0 0 1 ;; emit_str_d 0 R_VALS i)%emit g
  | IR_SUB => (emit_fsub 0 0 1 ;; emit_str_d 0 R_VALS i)%emit g
  | IR_MUL => (emit_fmul 0 0 1 ;; emit_str_d 0 R_VALS i)%emit g
  | IR_DIV => (emit_fdiv 0 0 1 ;; emit_str_d 0 R_VALS i)%emit g
  | _ => fail g
  end.

Definition emit_neg (op1 i : Z) : CG -> CG :=
  (emit_ldr_d 0 R_VALS op1 ;; emit_fneg 0 0 ;; emit_str_d 0 R_VALS i)%emit.

Definition compare_cond (o : IROp) : option Z :=
  match o with
  | IR_EQ => Some CC_EQ
  | IR_NEQ => Some CC_NE
  | IR_LT => Some CC_MI
  | IR_LE => Some CC_LS
  | IR_GT => Some CC_GT
  | IR_GE => Some CC_GE
  | _ => None
  end.

Definition emit_compare (o : IROp) (a b i : Z) (g : CG) : CG :=
  match compare_cond o with
  | None => fail g
  | Some cond =>
      (emit_ldr_d 0 R_VALS a ;;
       emit_ldr_d 1 R_VALS b ;;
       emit_fcmp 0 1 ;;
       emit_cset 9 cond ;;
       emit_scvtf_d_w 0 9 ;;
       emit_str_d 0 R_VALS i)%emit g
  end.

Definition emit_mod (a b i : Z) : CG -> CG :=
  (emit_ldr_d 0 R_VALS a ;;
   emit_ldr_d 1 R_VALS b ;;
   emit_mov_imm64 9 at_fmod ;;
   emit_blr 9 ;;
   emit_str_d 0 R_VALS i)%emit.

Definition emit_gload cs (name_ref i : Z) (g : CG) : CG :=
  if negb (IRREF_IS_K name_ref) then fail g
  else
    let cv := cs name_ref in
    if negb (cando_is_string cv) then fail g
    else
      (emit_mov_reg 0 R_VM ;;
       emit_mov_imm64 1 (cando_as_string cv) ;;
       emit_mov_imm64 9 (u64 (i * 8)) ;;
       emit_add_reg 2 R_VALS 9 ;;
       emit_mov_imm64 9 at_gload ;;
       emit_blr 9 ;;
       emit_cmp_w_zero 0 ;;
       cg_emit_guard CC_NE (cur_snap g))%emit g.

Definition emit_gstore cs (name_ref op2 : Z) (g : CG) : CG :=
  if negb (IRREF_IS_K name_ref) then fail g
  else
    let cv := cs name_ref in
    if negb (cando_is_string cv) then fail g
    else
      (emit_mov_reg 0 R_VM ;;
       emit_mov_imm64 1 (cando_as_string cv) ;;
       emit_ldr_d 0 R_VALS op2 ;;
       emit_mov_imm64 9 at_gstore ;;
       emit_blr 9 ;;
       emit_cmp_w_zero 0 ;;
       cg_emit_guard CC_NE (cur_snap g))%emit g.

(** The function registered under an index. *)
Definition native (vm : option CandoVM) (idx : Z) : option Z :=
  match vm with
  | None => None
  | Some natives =>
      if Z.of_nat (length natives) <=? idx then None
      else match natives !! Z.to_nat idx with
           | Some fn => if fn =? 0 then None else Some fn
           | None => None
           end
  end.

Definition emit_call_f1 (native_idx op2 i : Z) (g : CG) : CG :=
  match native (vm g) native_idx with
  | None => fail g
  | Some fn =>
      (emit_ldr_d 0 R_VALS op2 ;;
       emit_mov_imm64 9 fn ;;
       emit_blr 9 ;;
       emit_str_d 0 R_VALS i)%emit g
  end.

Definition emit_guard_bool (o : IROp) (op1 snap_idx : Z) : CG -> CG :=
  (emit_ldr_d 0 R_VALS op1 ;;
   emit_fcmp_zero 0 ;;
   cg_emit_guard (match o with IR_GUARD_TRUE => CC_EQ | _ => CC_NE end) snap_idx)%emit.

(** ** Traces *)
(** The switch on one operation, number [i] of the trace. *)
Definition emit_ins cs (ins : IRIns) (i : Z) (g : CG) : CG :=
  match op ins with
  | IR_NOP => g
  | IR_KNUM => emit_knum cs (op1 ins) i g
  | IR_KBOOL => emit_kbool (op1 ins) i g
  | IR_SLOAD => match type ins with IRT_NUM => emit_sload_num (op1 ins) i g | _ => fail g end
  | IR_SSTORE => if sunk ins then fail g else emit_sstore (op1 ins) (op2 ins) g
  | IR_ADD | IR_SUB | IR_MUL | IR_DIV => emit_arith (op ins) (op1 ins) (op2 ins) i g
  | IR_MOD => emit_mod (op1 ins) (op2 ins) i g
  | IR_NEG => emit_neg (op1 ins) i g
  | IR_CALL_F1 => emit_call_f1 (op1 ins) (op2 ins) i g
  | IR_GLOAD => match type ins with IRT_NUM => emit_gload cs (op1 ins) i g | _ => fail g end
  | IR_GSTORE => emit_gstore cs (op1 ins) (op2 ins) g
  | IR_EQ | IR_NEQ | IR_LT | IR_LE | IR_GT | IR_GE => emit_compare (op ins) (op1 ins) (op2 ins) i g
  | IR_GUARD_NUM => g
  | IR_GUARD_TRUE | IR_GUARD_FALSE =>
      set_snap (u16 (op2 ins)) (emit_guard_bool (op ins) (op1 ins) (u16 (op2 ins)) g)
  | IR_LOOP =>
      if CG_MAX_GUARDS <=? Z.of_nat (length (loopdone_off g)) then fail g
      else let (o, g) := emit_b_placeholder g in add_loopdone o g
  | IR_OTHER _ => fail g
  end.

Fixpoint emit_body cs (l : list IRIns) (i : Z) (g : CG) : CG :=
  match l with
  | [] => g
  | ins :: l => if failed g then g else emit_body cs l (i + 1) (emit_ins cs ins i g)
  end.

(** The stubs, with the offsets of each and of its branch. *)
Fixpoint emit_stubs (gs : list (Z * Z)) (g : CG) : list (Z * Z) * CG :=
  match gs with
  | [] => ([], g)
  | (_, snap) :: gs =>
      if failed g then ([], g)
      else
        let off := cg_off g in
        let g := emit_movz_w 9 snap g in
        let (b, g) := emit_b_placeholder g in
        let (l, g) := emit_stubs gs g in ((off, b) :: l, g)
  end.

Definition emit_common : CG -> CG :=
  (emit_mov_reg 0 R_VM ;;
   emit_mov_reg 1 R_T ;;
   emit_mov_reg 2 R_VALS ;;
   emit_mov_reg 3 R_FS ;;
   emit_mov_reg 4 9 ;;
   emit_mov_imm64 9 at_replay ;;
   emit_blr 9 ;;
   emit_movz_w 0 1 ;;
   emit_epilogue)%emit.

Fixpoint patch_loopdone (offs : list Z) (target : Z) (g : CG) : CG :=
  match offs with
  | [] => g
  | o :: offs => patch_loopdone offs target (patch_b o target g)
  end.

Fixpoint patch_guards (gs stubs : list (Z * Z)) (common_off : Z) (g : CG) : CG :=
  match gs, stubs with
  | (br_off, _) :: gs, (stub_off, stub_b) :: stubs =>
      patch_guards gs stubs common_off ((patch_bcond br_off stub_off ;; patch_b stub_b common_off)%emit g)
  | _, _ => g
  end.

(** The emission of [codegen_loop_trace], from the empty buffer to the last
    patch; [None] where it gives up. *)
Definition codegen (vm : option CandoVM) cs (l : list IRIns) (buffer : list Z) : option CG :=
  let g := emit_prologue (mkCG buffer 0 false vm 0 [] []) in
  let g := emit_body cs (drop 1 l) 1 g in
  if failed g then None
  else
    let loopdone_target := cg_off g in
    let g := (emit_movz_w 0 0 ;; emit_epilogue)%emit g in
    let (stubs, g) := emit_stubs (guards g) g in
    let common_off := cg_off g in
    let g := emit_common g in
    if failed g then None
    else
      let g := patch_loopdone (loopdone_off g) loopdone_target g in
      let g := patch_guards (guards g) stubs common_off g in
      if failed g then None else Some g.

Definition with_mcode (m : mcode) (fn : option Z) (t : CandoTrace) : CandoTrace :=
  mkTrace (ir t) (consts t) (is_function_trace t) m fn.

(** [fuel] bounds the loops over the pages and cache lines of the code. *)
Definition codegen_loop_trace (fuel : nat) (vm : option CandoVM) (t : CandoTrace) : M sys (bool * CandoTrace) :=
  if Z.of_nat (length (ir t)) =? 0 then ret (false, t)
  else
    let est := u32 (512 + Z.of_nat (length (ir t)) * 96) in
    match cando_mcode_alloc est (t_mcode t) with
    | None => ret (false, t)
    | Some m =>
        let base := mc_base m in
        match codegen vm (consts t) (ir t) (mc_buf m) with
        | None => ret (false, with_mcode (cando_mcode_free m) (mcode_fn t) t)
        | Some g =>
            let m := mkMcode base (buf g) (u32 (cur g)) in
            match cando_mcode_finalize m with
            | None => ret (false, with_mcode (cando_mcode_free m) (mcode_fn t) t)
            | Some m =>
                publish fuel (mc_base m) (mc_written m) ;;!
                ret (true, with_mcode m (Some base) t)
            end
        end
    end.

Definition cando_jit_codegen_trace (fuel : nat) (vm : option CandoVM) (t : option CandoTrace) : M sys (bool * option CandoTrace) :=
  match t with
  | None => ret (false, None)
  | Some t =>
      if is_function_trace t then ret (false, Some t)
      else match mcode_fn t with
           | Some _ => ret (true, Some t)
           | None => let! r := codegen_loop_trace fuel vm t in ret (r.1, Some r.2)
           end
  end.
End ops.
