(* ===== verification/JitEmit.v ===== *)
(** * What the emitter writes

    The emission functions of [Jit] described by the instructions they append:
    [ins_code] is the code of one operation, and [codegen_code] says that
    [codegen] succeeds exactly when every operation has code and the limits are
    kept, and that the buffer then holds the encoded instructions of [image],
    all branches resolved. *)
From S2P Require Import Prelude Bytes A64 JitMmu Jit.

(** ** Code with open branches

    [Guard] branches to the stub of its snapshot, [Close] to the epilogue that
    reports a finished iteration. *)
Inductive item : Type := I (i : instr) | Guard (cond snap : Z) | Close.

Definition word (it : item) : Z :=
  match it with I i => encode i | Guard c _ => encode (BCond c 0) | Close => encode (B 0) end.

Arguments word : simpl never.
Arguments encode : simpl never.
Arguments emit_sstore : simpl never.

Fixpoint guard_offs (k : nat) (its : list item) : list (Z * Z) :=
  match its with
  | [] => []
  | Guard _ snap :: its => (4 * Z.of_nat k, snap) :: guard_offs (S k) its
  | _ :: its => guard_offs (S k) its
  end.
Fixpoint close_offs (k : nat) (its : list item) : list Z :=
  match its with
  | [] => []
  | Close :: its => 4 * Z.of_nat k :: close_offs (S k) its
  | _ :: its => close_offs (S k) its
  end.

(** Code that may be refused, one piece after the other. *)
Definition cat (o1 o2 : option (list item)) : option (list item) := a ← o1; b ← o2; Some (a ++ b).
Infix "⊕" := cat (at level 60, right associativity).
Definition one (i : instr) : option (list item) := Some [I i].
Definition idx (n : Z) (i : instr) : option (list item) := if 4095 <? n then None else Some [I i].
Definition only (b : bool) (o : option (list item)) : option (list item) := if b then o else None.

Definition half (k v : Z) : Z := field (16 * k) 16 v.
Definition mov_imm64 (d v : Z) : list instr :=
  [Movz d (half 0 v) 0] ++ (if half 1 v =? 0 then [] else [Movk d (half 1 v) 1]) ++
  (if half 2 v =? 0 then [] else [Movk d (half 2 v) 2]) ++ (if half 3 v =? 0 then [] else [Movk d (half 3 v) 3]).
Definition imm (d v : Z) : option (list item) := Some (I <$> mov_imm64 d v).

(** The code of one operation. *)
Section code.
Context `{Cando} (vm : option CandoVM) (cs : Z -> Z).

Definition arith (o : IROp) : option instr :=
  match o with
  | IR_ADD => Some (FAdd 0 0 1) | IR_SUB => Some (FSub 0 0 1)
  | IR_MUL => Some (FMul 0 0 1) | IR_DIV => Some (FDiv 0 0 1) | _ => None
  end.

Definition sstore_code (slot v : Z) : option (list item) :=
  idx v (LdrD 0 R_VALS v) ⊕ one (FCmp 0 0) ⊕ one (BCond CC_VC 5) ⊕ imm 9 NB_CANON_NAN ⊕ idx slot (StrX 9 R_FS slot) ⊕
  one (B 2) ⊕ idx slot (StrD 0 R_FS slot).

Definition ins_code (ins : IRIns) (i snap : Z) : option (list item) :=
  let a := op1 ins in let b := op2 ins in
  match op ins with
  | IR_NOP | IR_GUARD_NUM => Some []
  | IR_LOOP => Some [Close]
  | IR_KNUM => only (IRREF_IS_K a && cando_is_number (cs a)) (imm 9 (cs a) ⊕ idx i (StrX 9 R_VALS i))
  | IR_KBOOL => imm 9 (if a =? 0 then 0 else D_ONE_BITS) ⊕ idx i (StrX 9 R_VALS i)
  | IR_SLOAD =>
      match type ins with
      | IRT_NUM =>
          idx a (LdrX 9 R_FS a) ⊕ imm 10 NB_MASK ⊕ one (AndReg 11 9 10) ⊕ one (SubsReg 31 11 10) ⊕
          Some [Guard CC_EQ snap] ⊕ idx i (StrX 9 R_VALS i)
      | _ => None
      end
  | IR_SSTORE => if sunk ins then None else sstore_code a b
  | IR_ADD | IR_SUB | IR_MUL | IR_DIV =>
      idx a (LdrD 0 R_VALS a) ⊕ idx b (LdrD 1 R_VALS b) ⊕
      match arith (op ins) with Some f => one f ⊕ idx i (StrD 0 R_VALS i) | None => None end
  | IR_NEG => idx a (LdrD 0 R_VALS a) ⊕ one (FNeg 0 0) ⊕ idx i (StrD 0 R_VALS i)
  | IR_MOD =>
      idx a (LdrD 0 R_VALS a) ⊕ idx b (LdrD 1 R_VALS b) ⊕ imm 9 at_fmod ⊕ one (Blr 9) ⊕ idx i (StrD 0 R_VALS i)
  | IR_EQ | IR_NEQ | IR_LT | IR_LE | IR_GT | IR_GE =>
      match compare_cond (op ins) with
      | Some c =>
          idx a (LdrD 0 R_VALS a) ⊕ idx b (LdrD 1 R_VALS b) ⊕ one (FCmp 0 1) ⊕ one (CsincW 9 31 31 (Z.lxor c 1)) ⊕
          one (Scvtf 0 9) ⊕ idx i (StrD 0 R_VALS i)
      | None => None
      end
  | IR_GLOAD =>
      match type ins with
      | IRT_NUM =>
          only (IRREF_IS_K a && cando_is_string (cs a))
            (one (OrrReg 0 31 R_VM) ⊕ imm 1 (cando_as_string (cs a)) ⊕ imm 9 (u64 (i * 8)) ⊕ one (AddReg 2 R_VALS 9) ⊕
             imm 9 at_gload ⊕ one (Blr 9) ⊕ one (SubsImmW 31 0 0) ⊕ Some [Guard CC_NE snap])
      | _ => None
      end
  | IR_GSTORE =>
      only (IRREF_IS_K a && cando_is_string (cs a))
        (one (OrrReg 0 31 R_VM) ⊕ imm 1 (cando_as_string (cs a)) ⊕ idx b (LdrD 0 R_VALS b) ⊕
         imm 9 at_gstore ⊕ one (Blr 9) ⊕ one (SubsImmW 31 0 0) ⊕ Some [Guard CC_NE snap])
  | IR_CALL_F1 =>
      match native vm a with
      | Some fn => idx b (LdrD 0 R_VALS b) ⊕ imm 9 fn ⊕ one (Blr 9) ⊕ idx i (StrD 0 R_VALS i)
      | None => None
      end
  | IR_GUARD_TRUE => idx a (LdrD 0 R_VALS a) ⊕ one (FCmpZero 0) ⊕ Some [Guard CC_EQ (u16 b)]
  | IR_GUARD_FALSE => idx a (LdrD 0 R_VALS a) ⊕ one (FCmpZero 0) ⊕ Some [Guard CC_NE (u16 b)]
  | IR_OTHER _ => None
  end.

Definition next_snap (ins : IRIns) (snap : Z) : Z :=
  match op ins with IR_GUARD_TRUE | IR_GUARD_FALSE => u16 (op2 ins) | _ => snap end.

Fixpoint body_code (l : list IRIns) (i snap : Z) : option (list item) :=
  match l with
  | [] => Some []
  | ins :: l => ins_code ins i snap ⊕ body_code l (i + 1) (next_snap ins snap)
  end.
End code.

Definition prologue : list instr :=
  [SubImm 31 31 64; Stp 29 30 31 0; Stp 19 20 31 2; Stp 21 22 31 4; StrX 23 31 6; AddImm 29 31 0;
   OrrReg 19 31 0; OrrReg 20 31 1; OrrReg 23 31 2; OrrReg 21 31 3; OrrReg 22 31 4].
Definition epilogue : list instr :=
  [Ldp 29 30 31 0; Ldp 19 20 31 2; Ldp 21 22 31 4; LdrX 23 31 6; AddImm 31 31 64; Ret 30].
Definition common `{Cando} : list instr :=
  [OrrReg 0 31 19; OrrReg 1 31 20; OrrReg 2 31 22; OrrReg 3 31 21; OrrReg 4 31 9] ++ mov_imm64 9 at_replay ++
  [Blr 9; MovzW 0 1 0] ++ epilogue.

(** ** The state of the generator *)
Definition code_bytes (ws : list Z) : list Z := mjoin (le_enc 4 <$> ws).

Record emitted (vm0 : option CandoVM) (sz : nat) (snap : Z) (g : CG) (ws : list Z) (gs : list (Z * Z)) (ls : list Z) : Prop := {
  em_ok : failed g = false;
  em_cur : cur g = 4 * Z.of_nat (length ws);
  em_buf : exists rest, buf g = code_bytes ws ++ rest;
  em_size : length (buf g) = sz;
  em_vm : vm g = vm0;
  em_snap : cur_snap g = snap;
  em_guards : guards g = gs;
  em_loop : loopdone_off g = ls;
  em_limits : (length gs <= 1024 /\ length ls <= 1024)%nat;
}.

Definition fits (sz : nat) (ws : list Z) (gs : list (Z * Z)) (ls : list Z) (its : list item) : Prop :=
  (4 * (length ws + length its) <= sz)%nat /\
  (length gs + length (guard_offs (length ws) its) <= 1024)%nat /\
  (length ls + length (close_offs (length ws) its) <= 1024)%nat.

(** [m] appends the code [o], or sets [failed] where there is none or the
    limits do not allow it. *)
Definition emits (vm0 : option CandoVM) (sz : nat) (snap : Z) (m : CG -> CG) (snap' : Z) (o : option (list item)) : Prop :=
  (forall g, failed g = true -> failed (m g) = true) /\
  forall g ws gs ls, emitted vm0 sz snap g ws gs ls ->
    match o with
    | None => failed (m g) = true
    | Some its =>
        (fits sz ws gs ls its ->
           emitted vm0 sz snap' (m g) (ws ++ (word <$> its)) (gs ++ guard_offs (length ws) its) (ls ++ close_offs (length ws) its)) /\
        (~ fits sz ws gs ls its -> failed (m g) = true)
    end.

Lemma length_code_bytes ws : length (code_bytes ws) = (4 * length ws)%nat.
Proof.
  induction ws as [|w ws IH]; [done|]. change (code_bytes (w :: ws)) with (le_enc 4 w ++ code_bytes ws).
  rewrite length_app, length_le_enc, IH. cbn. lia.
Qed.

Lemma code_bytes_app a b : code_bytes (a ++ b) = code_bytes a ++ code_bytes b.
Proof. unfold code_bytes. by rewrite fmap_app, join_app. Qed.

Lemma guard_offs_app a b k : guard_offs k (a ++ b) = guard_offs k a ++ guard_offs (k + length a) b.
Proof.
  revert k. induction a as [|[] a IH]; intros k; cbn; rewrite ?Nat.add_0_r; [done|..];
    rewrite IH, <- Nat.add_succ_comm; done.
Qed.
Lemma close_offs_app a b k : close_offs k (a ++ b) = close_offs k a ++ close_offs (k + length a) b.
Proof.
  revert k. induction a as [|[] a IH]; intros k; cbn; rewrite ?Nat.add_0_r; [done|..];
    rewrite IH, <- Nat.add_succ_comm; done.
Qed.

Lemma guard_offs_I k l : guard_offs k (I <$> l) = [].
Proof. revert k. by induction l; cbn. Qed.
Lemma close_offs_I k l : close_offs k (I <$> l) = [].
Proof. revert k. by induction l; cbn. Qed.

Section emission.
Context (vm0 : option CandoVM) (sz : nat) (Hsz : Z.of_nat sz < 2 ^ 31).
Abbreviation emits := (emits vm0 sz).
Abbreviation emitted := (emitted vm0 sz).
Abbreviation fits := (fits sz).

Lemma emits_seq s1 s2 s3 f h o1 o2 : emits s1 f s2 o1 -> emits s2 h s3 o2 -> emits s1 (andthen f h) s3 (o1 ⊕ o2).
Proof.
  intros [Sf Ef] [Sh Eh]. split; [intros g Hg; unfold andthen; auto|]. intros g ws gs ls Hg. unfold andthen.
  specialize (Ef g ws gs ls Hg). destruct o1 as [a|]; cbn; [|by apply Sh].
  destruct Ef as [Ea Na]. assert (Hdec : fits ws gs ls a \/ ~ fits ws gs ls a) by (unfold JitEmit.fits; lia).
  destruct Hdec as [Fa|Fa].
  - specialize (Eh _ _ _ _ (Ea Fa)). destruct o2 as [b|]; cbn; [|exact Eh].
    rewrite fmap_app, guard_offs_app, close_offs_app, !app_assoc.
    rewrite length_app, length_fmap in Eh. unfold JitEmit.fits in *.
    rewrite !length_app, length_fmap in Eh. rewrite !length_app, guard_offs_app, close_offs_app, !length_app.
    destruct Eh as [Eb Nb]. split; intros Hf; [apply Eb|apply Nb]; lia.
  - assert (Hn : failed (h (f g)) = true) by auto. destruct o2 as [b|]; cbn; [|done]. split; [|done].
    intros (H1 & H2 & H3). destruct Fa. revert H1 H2 H3. unfold JitEmit.fits.
    rewrite guard_offs_app, close_offs_app, !length_app. lia.
Qed.

Lemma emitted_room s g ws gs ls : emitted s g ws gs ls -> (4 * length ws <= sz)%nat.
Proof. intros Hg. destruct (em_buf _ _ _ _ _ _ _ Hg) as (rest & Hb). rewrite <- (em_size _ _ _ _ _ _ _ Hg), Hb, length_app, length_code_bytes. lia. Qed.

Lemma emits_nil s : emits s id s (Some []).
Proof.
  split; [done|]. intros g ws gs ls Hg. cbn. rewrite !app_nil_r. split; [done|]. intros Hn. destruct Hn.
  pose proof (emitted_room _ _ _ _ _ Hg). pose proof (em_limits _ _ _ _ _ _ _ Hg). unfold JitEmit.fits. cbn. lia.
Qed.

Lemma emits_none s s' m : (forall g, failed (m g) = true) -> emits s m s' None.
Proof. intros Hm. by split. Qed.

(** A word behind the code. *)
Lemma write_word ws w rest : (4 <= length rest)%nat ->
  splice (4 * length ws) (le_enc 4 w) (code_bytes ws ++ rest) = code_bytes (ws ++ [w]) ++ drop 4 rest.
Proof.
  intros Hr. unfold splice. rewrite length_le_enc, <- (length_code_bytes ws), take_app_length, drop_app_add, code_bytes_app.
  by rewrite <- !app_assoc.
Qed.

Lemma w32_fails w g : size g < cur g + 4 -> failed (cg_w32 w g) = true.
Proof. intros Hs. unfold cg_w32. destruct (failed g) eqn:E; [done|]. by rewrite (proj2 (Z.ltb_lt _ _) Hs). Qed.

Lemma w32_emitted s g ws gs ls w : emitted s g ws gs ls -> (4 * (length ws + 1) <= sz)%nat ->
  emitted s (cg_w32 w g) (ws ++ [w]) gs ls.
Proof.
  intros [H1 H2 (rest & H3) H4 H5 H6 H7 H8 H9] Hr. assert (Hl : (4 <= length rest)%nat).
  { rewrite H3, length_app, length_code_bytes in H4. lia. }
  unfold cg_w32. rewrite H1. unfold size. rewrite H4, (proj2 (Z.ltb_ge _ _)) by lia.
  replace (Z.to_nat (cur g)) with (4 * length ws)%nat by lia. rewrite H3, write_word by done.
  split; cbn; try done.
  - rewrite length_app. cbn. lia.
  - by eexists.
  - rewrite length_app, length_code_bytes, length_app, length_drop. rewrite H3, length_app, length_code_bytes in H4. cbn. lia.
Qed.

Lemma w32_sticky w g : failed g = true -> failed (cg_w32 w g) = true.
Proof. intros Hg. unfold cg_w32. by rewrite Hg. Qed.

(** One instruction word. *)
Lemma emits_w s w i : w = encode i -> emits s (cg_w32 w) s (one i).
Proof.
  intros ->. split; [apply w32_sticky|]. intros g ws gs ls Hg. cbn. rewrite !app_nil_r. split.
  - intros (Hf & _). apply w32_emitted; [done|exact Hf].
  - intros Hn. apply w32_fails. unfold size. rewrite (em_size _ _ _ _ _ _ _ Hg), (em_cur _ _ _ _ _ _ _ Hg).
    pose proof (em_limits _ _ _ _ _ _ _ Hg). unfold JitEmit.fits in Hn. cbn in Hn. lia.
Qed.

Lemma emits_idx s w n i : w = encode i -> emits s (fun g => if 4095 <? n then fail g else cg_w32 w g) s (idx n i).
Proof. intros Hw. unfold idx. destruct (4095 <? n); [by apply emits_none|by apply emits_w]. Qed.

Lemma cg_off_at s g ws gs ls : emitted s g ws gs ls -> cg_off g = 4 * Z.of_nat (length ws).
Proof.
  intros Hg. pose proof (emitted_room _ _ _ _ _ Hg). unfold cg_off. rewrite (em_cur _ _ _ _ _ _ _ Hg), u32_small; lia.
Qed.

Lemma emits_guard s c snap : 0 <= c < 16 -> emits s (cg_emit_guard c snap) s (Some [Guard c snap]).
Proof.
  intros Hc. split.
  { intros g Hg. unfold cg_emit_guard. case_match; [done|]. cbn. by apply w32_sticky. }
  intros g ws gs ls Hg. pose proof (cg_off_at _ _ _ _ _ Hg) as Ho. pose proof (em_limits _ _ _ _ _ _ _ Hg) as Hl.
  unfold cg_emit_guard. rewrite (em_guards _ _ _ _ _ _ _ Hg). cbn. rewrite app_nil_r.
  unfold JitEmit.fits. cbn. destruct (Z.leb_spec 1024 (Z.of_nat (length gs))); [split; [lia|done]|].
  replace (Z.land c 15) with c by (change 15 with (Z.ones 4); rewrite Z.land_ones, Z.mod_small; lia).
  change (word (Guard c snap)) with (Z.lor 0x54000000 c). rewrite Ho. split.
  - intros (Hf & Hg' & _). destruct (w32_emitted _ _ _ _ _ (Z.lor 0x54000000 c) Hg) as [H1 H2 H3 H4 H5 H6 H7 H8 H9]; [lia|].
    split; cbn; try done; [by rewrite H7|]. rewrite length_app. cbn. lia.
  - intros Hn. apply w32_fails. unfold size. rewrite (em_size _ _ _ _ _ _ _ Hg), (em_cur _ _ _ _ _ _ _ Hg). lia.
Qed.

Lemma emits_close s : emits s (fun g =>
    if CG_MAX_GUARDS <=? Z.of_nat (length (loopdone_off g)) then fail g
    else let (o, g) := emit_b_placeholder g in add_loopdone o g) s (Some [Close]).
Proof.
  split.
  { intros g Hg. case_match; [done|]. cbn. by apply w32_sticky. }
  intros g ws gs ls Hg. pose proof (cg_off_at _ _ _ _ _ Hg) as Ho. pose proof (em_limits _ _ _ _ _ _ _ Hg) as Hl.
  rewrite (em_loop _ _ _ _ _ _ _ Hg). cbn. rewrite app_nil_r.
  unfold JitEmit.fits. cbn. destruct (Z.leb_spec 1024 (Z.of_nat (length ls))); [split; [lia|done]|].
  rewrite Ho. split.
  - intros (Hf & _ & Hg'). destruct (w32_emitted _ _ _ _ _ 0x14000000 Hg) as [H1 H2 H3 H4 H5 H6 H7 H8 H9]; [lia|].
    split; cbn; try done; [by rewrite H8|]. rewrite length_app. cbn. lia.
  - intros Hn. apply w32_fails. unfold size. rewrite (em_size _ _ _ _ _ _ _ Hg), (em_cur _ _ _ _ _ _ _ Hg). lia.
Qed.

(** Emission that reads the current snapshot or the virtual machine. *)
Lemma emits_snap s s' (F : Z -> CG -> CG) o : (forall x, emits s (F x) s' (o x)) -> emits s (fun g => F (cur_snap g) g) s' (o s).
Proof.
  intros HF. split; [intros g; apply HF|]. intros g ws gs ls Hg. rewrite (em_snap _ _ _ _ _ _ _ Hg). by apply HF.
Qed.
Lemma emits_vm s s' (F : option CandoVM -> CG -> CG) o : (forall x, emits s (F x) s' (o x)) -> emits s (fun g => F (vm g) g) s' (o vm0).
Proof.
  intros HF. split; [intros g; apply HF|]. intros g ws gs ls Hg. rewrite (em_vm _ _ _ _ _ _ _ Hg). by apply HF.
Qed.

Lemma half_eq k v : 0 <= k -> Z.land (Z.shiftr v (16 * k)) 0xFFFF = half k v.
Proof. intros Hk. change 0xFFFF with (Z.ones 16). rewrite Z.land_ones, Z.shiftr_div_pow2 by lia. done. Qed.

Lemma emits_opt s (b : bool) w i : w = encode i -> emits s (if b then id else cg_w32 w) s (if b then Some [] else one i).
Proof. intros. destruct b; [apply emits_nil|by apply emits_w]. Qed.

Lemma emits_imm s d v : emits s (emit_mov_imm64 d v) s (imm d v).
Proof.
  assert (E0 : Z.land (Z.shiftr v 0) 0xFFFF = half 0 v) by (apply (half_eq 0); lia).
  assert (E1 : Z.land (Z.shiftr v 16) 0xFFFF = half 1 v) by (apply (half_eq 1); lia).
  assert (E2 : Z.land (Z.shiftr v 32) 0xFFFF = half 2 v) by (apply (half_eq 2); lia).
  assert (E3 : Z.land (Z.shiftr v 48) 0xFFFF = half 3 v) by (apply (half_eq 3); lia).
  assert (Ho : imm d v = one (Movz d (half 0 v) 0) ⊕ (if half 1 v =? 0 then Some [] else one (Movk d (half 1 v) 1)) ⊕
    (if half 2 v =? 0 then Some [] else one (Movk d (half 2 v) 2)) ⊕ (if half 3 v =? 0 then Some [] else one (Movk d (half 3 v) 3))).
  { unfold imm, mov_imm64. by destruct (half 1 v =? 0), (half 2 v =? 0), (half 3 v =? 0). }
  rewrite Ho. unfold emit_mov_imm64. rewrite E0, E1, E2, E3.
  eapply emits_seq; [by apply emits_w|]. eapply emits_seq; [|eapply emits_seq].
  all: by apply emits_opt.
Qed.

Lemma emits_ldr_d s t n k : emits s (emit_ldr_d t n k) s (idx k (LdrD t n k)).
Proof. by apply emits_idx. Qed.
Lemma emits_str_d s t n k : emits s (emit_str_d t n k) s (idx k (StrD t n k)).
Proof. by apply emits_idx. Qed.
Lemma emits_ldr_x s t n k : emits s (emit_ldr_x t n k) s (idx k (LdrX t n k)).
Proof. by apply emits_idx. Qed.
Lemma emits_str_x s t n k : emits s (emit_str_x t n k) s (idx k (StrX t n k)).
Proof. by apply emits_idx. Qed.
End emission.

(** Solves [emits] for a sequence of instructions. *)
Ltac emit_solve :=
  lazymatch goal with
  | |- emits ?v ?z ?s (fun g => andthen ?f ?h g) ?s' ?o => change (emits v z s (andthen f h) s' o); emit_solve
  | |- emits _ _ _ (andthen _ _) _ _ => eapply emits_seq; [emit_solve|emit_solve]
  | |- emits _ _ _ (emit_ldr_d _ _ _) _ _ => apply emits_ldr_d
  | |- emits _ _ _ (emit_str_d _ _ _) _ _ => apply emits_str_d
  | |- emits _ _ _ (emit_ldr_x _ _ _) _ _ => apply emits_ldr_x
  | |- emits _ _ _ (emit_str_x _ _ _) _ _ => apply emits_str_x
  | |- emits _ _ _ (emit_mov_imm64 _ _) _ _ => apply emits_imm
  | |- emits _ _ _ (cg_emit_guard _ _) _ _ => apply emits_guard; [assumption|lia]
  | |- _ => apply emits_w; vm_compute; reflexivity
  end.

(** ** Patches *)
Lemma code_bytes_insert ws k w rest : (k < length ws)%nat ->
  splice (4 * k) (le_enc 4 w) (code_bytes ws ++ rest) = code_bytes (<[k := w]> ws) ++ rest.
Proof.
  intros Hk. destruct (lookup_lt_is_Some_2 ws k Hk) as (v & Hv).
  rewrite <- (take_drop_middle ws k v Hv). assert (Hl : length (take k ws) = k) by (rewrite length_take; lia).
  rewrite insert_app_r_alt, Hl, Nat.sub_diag by lia. cbn [insert list_insert].
  rewrite !code_bytes_app. change (code_bytes (v :: drop (S k) ws)) with (le_enc 4 v ++ code_bytes (drop (S k) ws)).
  change (code_bytes (w :: drop (S k) ws)) with (le_enc 4 w ++ code_bytes (drop (S k) ws)).
  assert (Hp : (4 * k = length (code_bytes (take k ws)))%nat) by (rewrite length_code_bytes; lia).
  unfold splice. rewrite length_le_enc, <- !app_assoc, Hp, take_app_length, drop_app_add. done.
Qed.

Lemma patch_failed o w g : failed (cg_patch32 o w g) = failed g.
Proof. unfold cg_patch32. by case_match. Qed.

Section patching.
Context (vm0 : option CandoVM) (sz : nat) (Hsz : Z.of_nat sz < 2 ^ 31).
Abbreviation emitted := (emitted vm0 sz).

Lemma patch_emitted s g ws gs ls k w : emitted s g ws gs ls -> (k < length ws)%nat ->
  emitted s (cg_patch32 (4 * Z.of_nat k) w g) (<[k := w]> ws) gs ls.
Proof.
  intros Hg Hk. pose proof (emitted_room _ _ _ _ _ _ _ Hg) as Hr. destruct Hg as [H1 H2 (rest & H3) H4 H5 H6 H7 H8 H9].
  unfold cg_patch32, size. rewrite H4, !u32_small by lia. rewrite (proj2 (Z.ltb_ge _ _)) by lia.
  replace (Z.to_nat (4 * Z.of_nat k)) with (4 * k)%nat by lia. rewrite H3, code_bytes_insert by done.
  split; cbn; rewrite ?length_insert; try done; [by eexists|].
  rewrite H3 in H4. by rewrite !length_app, !length_code_bytes, ?length_insert in *.
Qed.

(** The displacement of a branch. *)
Lemma patch_rel a b : 0 <= a < 2 ^ 29 -> 0 <= b < 2 ^ 29 -> Z.quot (s32 (4 * b) - s32 (4 * a)) 4 = b - a.
Proof.
  intros Ha Hb. unfold s32. rewrite !Z.mod_small by lia. replace (4 * b + 2 ^ 31 - 2 ^ 31 - (4 * a + 2 ^ 31 - 2 ^ 31)) with ((b - a) * 4) by lia.
  apply Z.quot_mul. lia.
Qed.

Lemma patch_b_emitted s g ws gs ls k (t : nat) : emitted s g ws gs ls -> (k < length ws)%nat -> 4 * Z.of_nat t < 2 ^ 31 ->
  emitted s (patch_b (4 * Z.of_nat k) (4 * Z.of_nat t) g) (<[k := encode (B (Z.of_nat t - Z.of_nat k))]> ws) gs ls.
Proof.
  intros Hg Hk Ht. pose proof (emitted_room _ _ _ _ _ _ _ Hg) as Hr. unfold patch_b. rewrite patch_rel by lia.
  replace (Z.lor 0x14000000 (Z.land (u32 (Z.of_nat t - Z.of_nat k)) 0x03FFFFFF)) with (encode (B (Z.of_nat t - Z.of_nat k)));
    [by apply patch_emitted|]. cbn [encode]. f_equal. change 0x03FFFFFF with (Z.ones 26). rewrite Z.land_ones by lia.
  unfold u32. rewrite Z.mod_mod_divide; [done|]. by exists (2 ^ 6).
Qed.

Lemma patch_bcond_emitted s g ws gs ls k (t : nat) c : emitted s g ws gs ls -> 0 <= c < 16 -> ws !! k = Some (encode (BCond c 0)) ->
  4 * Z.of_nat t < 2 ^ 31 ->
  emitted s (patch_bcond (4 * Z.of_nat k) (4 * Z.of_nat t) g) (<[k := encode (BCond c (Z.of_nat t - Z.of_nat k))]> ws) gs ls.
Proof.
  intros Hg Hc Hw Ht. pose proof (lookup_lt_Some _ _ _ Hw) as Hk. pose proof (emitted_room _ _ _ _ _ _ _ Hg) as Hr.
  unfold patch_bcond. rewrite patch_rel by lia.
  assert (Hn : default 0 (buf g !! Z.to_nat (4 * Z.of_nat k)) = c).
  { destruct (em_buf _ _ _ _ _ _ _ Hg) as (rest & Hb). rewrite Hb, <- (take_drop_middle ws k _ Hw), code_bytes_app.
    replace (Z.to_nat (4 * Z.of_nat k)) with (length (code_bytes (take k ws)) + 0)%nat by (rewrite length_code_bytes, length_take; lia).
    rewrite <- app_assoc, lookup_app_r, Nat.add_comm, Nat.add_sub by lia.
    change (code_bytes (encode (BCond c 0) :: drop (S k) ws)) with (le_enc 4 (Z.lor 0x54000000 c) ++ code_bytes (drop (S k) ws)).
    cbn. change (Z.lor 0x54000000 c mod 256) with (Z.lor 0x54000000 c mod 2 ^ 8).
    rewrite <- Z.land_ones, Z.land_lor_distr_l, !Z.land_ones by lia. change (0x54000000 mod 2 ^ 8) with 0. rewrite Z.lor_0_l, Z.mod_small; lia. }
  rewrite Hn. replace (Z.lor (Z.lor 0x54000000 (Z.shiftl (Z.land (u32 (Z.of_nat t - Z.of_nat k)) 0x7FFFF) 5)) (Z.land c 0xF))
    with (encode (BCond c (Z.of_nat t - Z.of_nat k))); [by apply patch_emitted|].
  cbn [encode]. change 0x7FFFF with (Z.ones 19). change 0xF with (Z.ones 4). rewrite !Z.land_ones, (Z.mod_small c) by lia.
  unfold u32. rewrite Z.mod_mod_divide; [done|]. by exists (2 ^ 13).
Qed.
End patching.

Ltac fits_solve := unfold fits in *; split_and!; rewrite ?length_app in *; cbn in *; lia.

Lemma emits_only vm0 sz s s' (b : bool) m o : emits vm0 sz s m s' o ->
  emits vm0 sz s (fun g => if negb b then fail g else m g) s' (only b o).
Proof. intros Hm. destruct b; [done|by apply emits_none]. Qed.

Section operations.
Context `{Cando} (vm0 : option CandoVM) (sz : nat) (Hsz : Z.of_nat sz < 2 ^ 31) (cs : Z -> Z).
Abbreviation emits := (emits vm0 sz).
Abbreviation emitted := (emitted vm0 sz).

Lemma emits_knum s k i : emits s (emit_knum cs k i) s
  (only (IRREF_IS_K k && cando_is_number (cs k)) (imm 9 (cs k) ⊕ idx i (StrX 9 R_VALS i))).
Proof.
  unfold emit_knum. destruct (IRREF_IS_K k); cbn [negb andb]; [|by apply emits_none].
  apply emits_only. emit_solve.
Qed.

Lemma emits_sload s a i : emits s (emit_sload_num a i) s
  (idx a (LdrX 9 R_FS a) ⊕ imm 10 NB_MASK ⊕ one (AndReg 11 9 10) ⊕ one (SubsReg 31 11 10) ⊕
   Some [Guard CC_EQ s] ⊕ idx i (StrX 9 R_VALS i)).
Proof.
  apply (emits_snap vm0 sz s s (fun x => emit_ldr_x 9 R_FS a ;; emit_mov_imm64 10 NB_MASK ;; emit_and_reg 11 9 10 ;;
    emit_cmp_reg 11 10 ;; cg_emit_guard CC_EQ x ;; emit_str_x 9 R_VALS i)%emit
    (fun x => idx a (LdrX 9 R_FS a) ⊕ imm 10 NB_MASK ⊕ one (AndReg 11 9 10) ⊕ one (SubsReg 31 11 10) ⊕
      Some [Guard CC_EQ x] ⊕ idx i (StrX 9 R_VALS i))).
  intros x. emit_solve.
Qed.

(** The store of a slot up to the branch over the raw store, and its first patch. *)
Definition sstore_cmp (v : Z) : CG -> CG := (emit_ldr_d 0 R_VALS v ;; emit_fcmp 0 0)%emit.
Definition sstore_nan (slot : Z) : CG -> CG :=
  (cg_w32 (Z.lor 0x54000000 (Z.land CC_VC 0xF)) ;; emit_mov_imm64 9 NB_CANON_NAN ;; emit_str_x 9 R_FS slot)%emit.
Definition sstore_patched (slot v : Z) (g : CG) : CG :=
  let g3 := cg_w32 0x14000000 (sstore_nan slot (sstore_cmp v g)) in patch_bcond (cg_off (sstore_cmp v g)) (cg_off g3) g3.

Lemma emit_sstore_eq slot v g : emit_sstore slot v g =
  let g4 := emit_str_d 0 R_FS slot (sstore_patched slot v g) in
  patch_b (cg_off (sstore_nan slot (sstore_cmp v g))) (cg_off g4) g4.
Proof. done. Qed.

Lemma emits_sstore_cmp s v : emits s (sstore_cmp v) s (idx v (LdrD 0 R_VALS v) ⊕ one (FCmp 0 0)).
Proof. unfold sstore_cmp. emit_solve. Qed.

Lemma emits_sstore_nan s slot : emits s (sstore_nan slot) s
  (Some [I (BCond CC_VC 0); I (Movz 9 0 0); I (Movk 9 0x7FF8 3)] ⊕ idx slot (StrX 9 R_FS slot)).
Proof.
  assert (E : emits s (sstore_nan slot) s (one (BCond CC_VC 0) ⊕ imm 9 NB_CANON_NAN ⊕ idx slot (StrX 9 R_FS slot))) by
    (unfold sstore_nan; emit_solve). unfold idx in *. by destruct (4095 <? slot).
Qed.

Lemma emits_sstore_patched s slot v : emits s (sstore_patched slot v) s
  (idx v (LdrD 0 R_VALS v) ⊕ one (FCmp 0 0) ⊕ one (BCond CC_VC 5) ⊕ imm 9 NB_CANON_NAN ⊕ idx slot (StrX 9 R_FS slot) ⊕ one (B 0)).
Proof.
  assert (E3 : emits s (cg_w32 0x14000000) s (one (B 0))) by (by apply emits_w).
  pose proof (emits_seq _ _ _ _ _ _ _ _ _ (emits_seq _ _ _ _ _ _ _ _ _ (emits_sstore_cmp s v) (emits_sstore_nan s slot)) E3) as E.
  assert (Hst : forall g, failed (cg_w32 0x14000000 (sstore_nan slot (sstore_cmp v g))) = true -> failed (sstore_patched slot v g) = true).
  { intros g Hg. unfold sstore_patched, patch_bcond. by rewrite patch_failed. }
  split; [intros g Hg; apply Hst, E, Hg|]. intros g ws gs ls Hg. unfold idx in *.
  change (imm 9 NB_CANON_NAN) with (Some [I (Movz 9 0 0); I (Movk 9 0x7FF8 3)]).
  pose proof (em_limits _ _ _ _ _ _ _ Hg) as Hl. pose proof (proj2 (emits_sstore_cmp s v) _ _ _ _ Hg) as G1.
  pose proof (proj2 E _ _ _ _ Hg) as G3. unfold idx in *. clear E E3.
  destruct (4095 <? v), (4095 <? slot); [by apply Hst..|]. cbn in G1, G3 |- *. rewrite !app_nil_r in *.
  destruct G3 as [G3 N3]. split.
  - intros (Hf & _). cbn in Hf. destruct G1 as [G1 _]. specialize (G1 ltac:(fits_solve)). specialize (G3 ltac:(fits_solve)).
    unfold sstore_patched. unfold andthen in G3.
    rewrite (cg_off_at _ _ Hsz _ _ _ _ _ G1), (cg_off_at _ _ Hsz _ _ _ _ _ G3), !length_app.
    eapply (patch_bcond_emitted vm0 sz Hsz) with (k := (length ws + 2)%nat) (t := (length ws + 7)%nat) (c := CC_VC) in G3;
      [|lia|rewrite lookup_app_r by lia; by rewrite Nat.add_comm, Nat.add_sub|lia].
    rewrite insert_app_r in G3. cbn [insert list_insert] in G3.
    replace (Z.of_nat (length ws + 7) - Z.of_nat (length ws + 2)) with 5 in G3 by lia. exact G3.
  - intros Hn. apply Hst, N3. unfold fits in *. cbn in *. lia.
Qed.

(** The two local branches are patched as soon as their targets are known. *)
Lemma emits_sstore s slot v : emits s (emit_sstore slot v) s (sstore_code slot v).
Proof.
  pose proof (emits_seq _ _ _ _ _ _ _ _ _ (emits_sstore_patched s slot v) (emits_str_d vm0 sz s 0 R_FS slot)) as E.
  assert (Hst : forall g, failed (emit_str_d 0 R_FS slot (sstore_patched slot v g)) = true -> failed (emit_sstore slot v g) = true).
  { intros g Hg. rewrite emit_sstore_eq. unfold patch_b. by rewrite patch_failed. }
  split; [intros g Hg; apply Hst, E, Hg|]. intros g ws gs ls Hg. unfold sstore_code.
  pose proof (em_limits _ _ _ _ _ _ _ Hg) as Hl.
  pose proof (emits_seq _ _ _ _ _ _ _ _ _ (emits_sstore_cmp s v) (emits_sstore_nan s slot)) as E2.
  apply proj2 in E2. specialize (E2 _ _ _ _ Hg).
  pose proof (proj2 E _ _ _ _ Hg) as G. clear E. unfold idx in *.
  change (imm 9 NB_CANON_NAN) with (Some [I (Movz 9 0 0); I (Movk 9 0x7FF8 3)]) in *.
  destruct (4095 <? v), (4095 <? slot); [by apply Hst..|]. cbn in E2, G |- *. rewrite !app_nil_r in *.
  destruct G as [G N]. split; [|intros Hn; apply Hst, N; unfold fits in *; cbn in *; lia].
  intros (Hf & _). cbn in Hf. destruct E2 as [E2 _]. specialize (E2 ltac:(fits_solve)). specialize (G ltac:(fits_solve)).
  rewrite emit_sstore_eq. unfold andthen in *. rewrite (cg_off_at _ _ Hsz _ _ _ _ _ E2), (cg_off_at _ _ Hsz _ _ _ _ _ G), !length_app.
  eapply (patch_b_emitted vm0 sz Hsz) with (k := (length ws + 6)%nat) (t := (length ws + 8)%nat) in G; [|rewrite length_app; cbn; lia|lia].
  rewrite insert_app_r in G. cbn [insert list_insert] in G.
  replace (Z.of_nat (length ws + 8) - Z.of_nat (length ws + 6)) with 2 in G by lia. exact G.
Qed.

Lemma emits_arith s o a b i : emits s (emit_arith o a b i) s
  (idx a (LdrD 0 R_VALS a) ⊕ idx b (LdrD 1 R_VALS b) ⊕ match arith o with Some f => one f ⊕ idx i (StrD 0 R_VALS i) | None => None end).
Proof.
  set (m := match o with IR_ADD => (emit_fadd 0 0 1 ;; emit_str_d 0 R_VALS i)%emit | IR_SUB => (emit_fsub 0 0 1 ;; emit_str_d 0 R_VALS i)%emit
    | IR_MUL => (emit_fmul 0 0 1 ;; emit_str_d 0 R_VALS i)%emit | IR_DIV => (emit_fdiv 0 0 1 ;; emit_str_d 0 R_VALS i)%emit | _ => fail end).
  assert (Hm : emits s m s (match arith o with Some f => one f ⊕ idx i (StrD 0 R_VALS i) | None => None end)).
  { unfold m. destruct o; cbn [arith]; first [by apply emits_none | emit_solve]. }
  assert (E : emits s (emit_ldr_d 0 R_VALS a ;; emit_ldr_d 1 R_VALS b ;; m)%emit s (idx a (LdrD 0 R_VALS a) ⊕ idx b (LdrD 1 R_VALS b) ⊕
    match arith o with Some f => one f ⊕ idx i (StrD 0 R_VALS i) | None => None end)).
  { repeat (eapply emits_seq; [emit_solve|]). exact Hm. }
  by destruct o.
Qed.

Lemma emits_compare s o a b i : emits s (emit_compare o a b i) s
  match compare_cond o with
  | Some c => idx a (LdrD 0 R_VALS a) ⊕ idx b (LdrD 1 R_VALS b) ⊕ one (FCmp 0 1) ⊕ one (CsincW 9 31 31 (Z.lxor c 1)) ⊕
      one (Scvtf 0 9) ⊕ idx i (StrD 0 R_VALS i)
  | None => None
  end.
Proof. unfold emit_compare. destruct o; cbn [compare_cond]; first [by apply emits_none | emit_solve]. Qed.

Lemma emits_gload s k i : emits s (emit_gload cs k i) s
  (only (IRREF_IS_K k && cando_is_string (cs k))
    (one (OrrReg 0 31 R_VM) ⊕ imm 1 (cando_as_string (cs k)) ⊕ imm 9 (u64 (i * 8)) ⊕ one (AddReg 2 R_VALS 9) ⊕
     imm 9 at_gload ⊕ one (Blr 9) ⊕ one (SubsImmW 31 0 0) ⊕ Some [Guard CC_NE s])).
Proof.
  unfold emit_gload. destruct (IRREF_IS_K k); cbn [negb andb]; [|by apply emits_none]. apply emits_only.
  apply (emits_snap vm0 sz s s (fun x => _ ;; _ ;; _ ;; _ ;; _ ;; _ ;; _ ;; cg_emit_guard CC_NE x)%emit
    (fun x => _ ⊕ _ ⊕ _ ⊕ _ ⊕ _ ⊕ _ ⊕ _ ⊕ Some [Guard CC_NE x])). intros x. emit_solve.
Qed.

Lemma emits_gstore s k b : emits s (emit_gstore cs k b) s
  (only (IRREF_IS_K k && cando_is_string (cs k))
    (one (OrrReg 0 31 R_VM) ⊕ imm 1 (cando_as_string (cs k)) ⊕ idx b (LdrD 0 R_VALS b) ⊕
     imm 9 at_gstore ⊕ one (Blr 9) ⊕ one (SubsImmW 31 0 0) ⊕ Some [Guard CC_NE s])).
Proof.
  unfold emit_gstore. destruct (IRREF_IS_K k); cbn [negb andb]; [|by apply emits_none]. apply emits_only.
  apply (emits_snap vm0 sz s s (fun x => _ ;; _ ;; _ ;; _ ;; _ ;; _ ;; cg_emit_guard CC_NE x)%emit
    (fun x => _ ⊕ _ ⊕ _ ⊕ _ ⊕ _ ⊕ _ ⊕ Some [Guard CC_NE x])). intros x. emit_solve.
Qed.

Lemma emits_call_f1 s k b i : emits s (emit_call_f1 k b i) s
  match native vm0 k with
  | Some fn => idx b (LdrD 0 R_VALS b) ⊕ imm 9 fn ⊕ one (Blr 9) ⊕ idx i (StrD 0 R_VALS i)
  | None => None
  end.
Proof.
  apply (emits_vm vm0 sz s s (fun x g => match native x k with None => fail g | Some fn => (_ ;; emit_mov_imm64 9 fn ;; _ ;; _)%emit g end)
    (fun x => match native x k with Some fn => _ ⊕ imm 9 fn ⊕ _ ⊕ _ | None => None end)).
  intros x. destruct (native x k); [emit_solve|by apply emits_none].
Qed.

Lemma emits_set_snap s s' n m o : emits s m s' o -> emits s (fun g => set_snap n (m g)) n o.
Proof.
  intros [Sm Em]. split; [done|]. intros g ws gs ls Hg. specialize (Em _ _ _ _ Hg). destruct o as [its|]; [|done].
  destruct Em as [Ef En]. split; [|done]. intros Hf. by destruct (Ef Hf).
Qed.

Lemma emits_guard_bool s o a b : emits s (emit_guard_bool o a b) s
  (idx a (LdrD 0 R_VALS a) ⊕ one (FCmpZero 0) ⊕ Some [Guard (match o with IR_GUARD_TRUE => CC_EQ | _ => CC_NE end) b]).
Proof. unfold emit_guard_bool. do 2 (eapply emits_seq; [emit_solve|]). destruct o; emit_solve. Qed.

(** One operation. *)
Lemma emits_ins s ins i : emits s (emit_ins cs ins i) (next_snap ins s) (ins_code vm0 cs ins i s).
Proof.
  unfold emit_ins, ins_code, next_snap. destruct (op ins) eqn:Ho; try by apply emits_none.
  - apply emits_nil.
  - by apply emits_close.
  - apply emits_knum.
  - unfold emit_kbool. emit_solve.
  - destruct (type ins); [apply emits_sload|by apply emits_none].
  - destruct (sunk ins); [by apply emits_none|apply emits_sstore].
  - apply emits_arith.
  - apply emits_arith.
  - apply emits_arith.
  - apply emits_arith.
  - unfold emit_mod. emit_solve.
  - unfold emit_neg. emit_solve.
  - apply emits_compare.
  - apply emits_compare.
  - apply emits_compare.
  - apply emits_compare.
  - apply emits_compare.
  - apply emits_compare.
  - destruct (type ins); [apply emits_gload|by apply emits_none].
  - apply emits_gstore.
  - apply emits_call_f1.
  - apply emits_nil.
  - eapply emits_set_snap, emits_guard_bool.
  - eapply emits_set_snap, emits_guard_bool.
Qed.

Fixpoint last_snap (l : list IRIns) (s : Z) : Z :=
  match l with [] => s | ins :: l => last_snap l (next_snap ins s) end.

Lemma emits_body l : forall i s, emits s (emit_body cs l i) (last_snap l s) (body_code vm0 cs l i s).
Proof.
  induction l as [|ins l IH]; intros i s; cbn [emit_body body_code last_snap]; [apply emits_nil|].
  pose proof (emits_seq _ _ _ _ _ _ _ _ _ (emits_ins s ins i) (IH (i + 1) (next_snap ins s))) as [Ss Es]. split.
  - intros g Hg. by rewrite Hg.
  - intros g ws gs ls Hg. rewrite (em_ok _ _ _ _ _ _ _ Hg). by apply Es.
Qed.
End operations.

(** ** The whole code *)
(** Branches resolved: [ld] is the epilogue for finished iterations, [st] the
    first stub; [k] is the position of the first item, [j] the number of guards
    before it. *)
Fixpoint resolve (ld st k j : nat) (its : list item) : list instr :=
  match its with
  | [] => []
  | I i :: its => i :: resolve ld st (S k) j its
  | Guard c _ :: its => BCond c (Z.of_nat (st + 2 * j) - Z.of_nat k) :: resolve ld st (S k) (S j) its
  | Close :: its => B (Z.of_nat ld - Z.of_nat k) :: resolve ld st (S k) j its
  end.

Fixpoint snaps (its : list item) : list Z :=
  match its with [] => [] | Guard _ s :: its => s :: snaps its | _ :: its => snaps its end.

(** The stubs from position [k] on; [c] is the common exit. *)
Fixpoint stubs (c k : nat) (ss : list Z) : list instr :=
  match ss with
  | [] => []
  | s :: ss => MovzW 9 (Z.land s 0xFFFF) 0 :: B (Z.of_nat c - Z.of_nat (S k)) :: stubs c (S (S k)) ss
  end.

Definition loopdone_at (its : list item) : nat := 11 + length its.
Definition stub_at (its : list item) (j : nat) : nat := loopdone_at its + 7 + 2 * j.
Definition common_at (its : list item) : nat := stub_at its (length (snaps its)).

Definition image `{Cando} (its : list item) : list instr :=
  prologue ++ resolve (loopdone_at its) (stub_at its 0) 11 0 its ++ [MovzW 0 0 0] ++ epilogue ++
  stubs (common_at its) (stub_at its 0) (snaps its) ++ common.

(** Items whose closing branches are resolved. *)
Fixpoint shut (ld k : nat) (its : list item) : list item :=
  match its with
  | [] => []
  | Close :: its => I (B (Z.of_nat ld - Z.of_nat k)) :: shut ld (S k) its
  | it :: its => it :: shut ld (S k) its
  end.

Fixpoint open_stubs (ss : list Z) : list instr :=
  match ss with [] => [] | s :: ss => MovzW 9 (Z.land s 0xFFFF) 0 :: B 0 :: open_stubs ss end.
Fixpoint stub_offs (k : nat) (ss : list Z) : list (Z * Z) :=
  match ss with [] => [] | _ :: ss => (4 * Z.of_nat k, 4 * Z.of_nat (S k)) :: stub_offs (S (S k)) ss end.

Lemma guard_offs_snaps k its : (guard_offs k its).*2 = snaps its.
Proof. revert k. induction its as [|[] its IH]; intros k; cbn; [done|..]; by rewrite IH. Qed.

Lemma length_guard_offs k its : length (guard_offs k its) = length (snaps its).
Proof. by rewrite <- (guard_offs_snaps k its), length_fmap. Qed.

Lemma length_resolve ld st its : forall k j, length (resolve ld st k j its) = length its.
Proof. induction its as [|[] its IH]; intros k j; cbn; [done|..]; by rewrite IH. Qed.
Lemma length_stubs c ss : forall k, length (stubs c k ss) = (2 * length ss)%nat.
Proof. induction ss as [|s ss IH]; intros k; cbn; [done|]. rewrite IH. lia. Qed.
Lemma length_shut ld its : forall k, length (shut ld k its) = length its.
Proof. induction its as [|[] its IH]; intros k; cbn; [done|..]; by rewrite IH. Qed.
Lemma length_open_stubs ss : length (open_stubs ss) = (2 * length ss)%nat.
Proof. induction ss as [|s ss IH]; cbn; [done|]. rewrite IH. lia. Qed.

Lemma length_image `{Cando} its :
  length (image its) = (length its + 2 * length (snaps its) + 18 + length common)%nat.
Proof. unfold image. rewrite !length_app, length_resolve, length_stubs. cbn [length prologue epilogue]. lia. Qed.

(** ** Well-formed code *)
Definition item_ok (it : item) : Prop :=
  match it with
  | I i => encodable i = true
  | Guard c s => (c = CC_EQ \/ c = CC_NE) /\ 0 <= s < 2 ^ 16
  | Close => True
  end.
Definition all_ok (o : option (list item)) : Prop := forall l, o = Some l -> Forall item_ok l.

Lemma all_ok_cat o1 o2 : all_ok o1 -> all_ok o2 -> all_ok (o1 ⊕ o2).
Proof.
  intros H1 H2 l. destruct o1 as [a|], o2 as [b|]; cbn; try done. intros [= <-]. apply Forall_app.
  split; [by apply H1|by apply H2].
Qed.
Lemma all_ok_none : all_ok None.
Proof. done. Qed.
Lemma all_ok_one i : encodable i = true -> all_ok (one i).
Proof. intros Hi l [= <-]. by constructor. Qed.
Lemma all_ok_guard c s : (c = CC_EQ \/ c = CC_NE) -> 0 <= s < 2 ^ 16 -> all_ok (Some [Guard c s]).
Proof. intros Hc Hs l [= <-]. by constructor. Qed.
Lemma all_ok_only b o : all_ok o -> all_ok (only b o).
Proof. by destruct b. Qed.
Lemma half_range k v : 0 <= half k v < 65536.
Proof. unfold half, field. pose proof (Z.mod_pos_bound (v / 2 ^ (16 * k)) (2 ^ 16)). lia. Qed.
Lemma encodable_mov d v k : reg d = true -> 0 <= k < 4 -> encodable (Movz d (half k v) k) && encodable (Movk d (half k v) k) = true.
Proof. intros Hd Hk. pose proof (half_range k v). cbn [encodable]. unfold within. rewrite Hd. rewrite !(proj2 (Z.leb_le _ _)), !(proj2 (Z.ltb_lt _ _)) by lia. done. Qed.
Lemma encodable_imm d v : reg d = true -> Forall (fun i => encodable i = true) (mov_imm64 d v).
Proof.
  intros Hd. unfold mov_imm64.
  pose proof (encodable_mov d v 0 Hd ltac:(lia)) as [? _]%andb_prop. pose proof (encodable_mov d v 1 Hd ltac:(lia)) as [_ ?]%andb_prop.
  pose proof (encodable_mov d v 2 Hd ltac:(lia)) as [_ ?]%andb_prop. pose proof (encodable_mov d v 3 Hd ltac:(lia)) as [_ ?]%andb_prop.
  repeat (apply Forall_app; split); try case_match; repeat constructor; done.
Qed.
Lemma all_ok_imm d v : reg d = true -> all_ok (imm d v).
Proof. intros Hd l Hl. assert (l = I <$> mov_imm64 d v) as -> by (unfold imm in Hl; congruence). apply Forall_fmap. by apply encodable_imm. Qed.

(** The instructions with an index. *)
Lemma all_ok_idx n t b : 0 <= n -> reg t = true -> reg b = true ->
  all_ok (idx n (LdrD t b n)) /\ all_ok (idx n (StrD t b n)) /\ all_ok (idx n (LdrX t b n)) /\ all_ok (idx n (StrX t b n)).
Proof.
  intros Hn Ht Hb. unfold idx. destruct (Z.ltb_spec 4095 n); [done|].
  assert (He : reg t && reg b && within 0 4096 n = true).
  { rewrite Ht, Hb. unfold within. by rewrite (proj2 (Z.leb_le _ _)), (proj2 (Z.ltb_lt _ _)) by lia. }
  by split_and!; apply all_ok_one.
Qed.

Ltac all_ok_solve :=
  lazymatch goal with
  | |- all_ok (_ ⊕ _) => apply all_ok_cat; [all_ok_solve|all_ok_solve]
  | |- all_ok None => apply all_ok_none
  | |- all_ok (one _) => apply all_ok_one; reflexivity
  | |- all_ok (imm _ _) => apply all_ok_imm; reflexivity
  | |- all_ok (only _ _) => apply all_ok_only; all_ok_solve
  | |- all_ok (idx _ (_ ?t ?b ?n)) => apply (all_ok_idx n t b); [assumption|reflexivity|reflexivity]
  | |- all_ok (Some [Guard _ _]) => apply all_ok_guard; [auto|first [assumption|apply u16_range]]
  end.

Definition operands_ok (ins : IRIns) : Prop := 0 <= op1 ins < 2 ^ 32 /\ 0 <= op2 ins < 2 ^ 32.

Lemma ins_code_ok `{Cando} vm cs ins i s : operands_ok ins -> 0 <= i -> 0 <= s < 2 ^ 16 -> all_ok (ins_code vm cs ins i s).
Proof.
  intros [[Ha _] [Hb _]] Hi Hs. unfold ins_code. destruct (op ins); cbn [arith compare_cond]; try (repeat case_match; all_ok_solve).
  - intros l [= <-]. constructor.
  - intros l [= <-]. repeat constructor.
  - unfold sstore_code. case_match; all_ok_solve.
  - intros l [= <-]. constructor.
Qed.

Lemma next_snap_range ins s : 0 <= s < 2 ^ 16 -> 0 <= next_snap ins s < 2 ^ 16.
Proof. intros Hs. unfold next_snap. case_match; first [done|apply u16_range]. Qed.

Lemma body_code_ok `{Cando} vm cs l : forall i s, Forall operands_ok l -> 0 <= i -> 0 <= s < 2 ^ 16 -> all_ok (body_code vm cs l i s).
Proof.
  induction l as [|ins l IH]; intros i s Hl Hi Hs; cbn [body_code]; [intros x [= <-]; constructor|].
  apply Forall_cons in Hl as [Ho Hl]. apply all_ok_cat; [by apply ins_code_ok|]. apply IH; [done|lia|by apply next_snap_range].
Qed.

Section whole.
Context `{Cando} (vm0 : option CandoVM) (sz : nat) (Hsz : Z.of_nat sz < 2 ^ 31) (cs : Z -> Z).
Abbreviation emits := (emits vm0 sz).
Abbreviation emitted := (emitted vm0 sz).

Lemma emits_code s m l : emits s m s (Some (I <$> l)) ->
  forall g ws gs ls, emitted s g ws gs ls ->
    ((4 * (length ws + length l) <= sz)%nat -> emitted s (m g) (ws ++ (encode <$> l)) gs ls) /\
    (~ (4 * (length ws + length l) <= sz)%nat -> failed (m g) = true).
Proof.
  intros [_ Em] g ws gs ls Hg. pose proof (em_limits _ _ _ _ _ _ _ Hg) as Hl. destruct (Em _ _ _ _ Hg) as [Ef En].
  unfold fits in *. rewrite guard_offs_I, close_offs_I, length_fmap in *. cbn in Ef, En. rewrite !app_nil_r, <- list_fmap_compose in Ef.
  split; intros Hr; [apply Ef|apply En]; lia.
Qed.

Lemma emits_epilogue s : emits s emit_epilogue s (Some (I <$> epilogue)).
Proof.
  assert (E : emits s emit_epilogue s (one (Ldp 29 30 31 0) ⊕ one (Ldp 19 20 31 2) ⊕ one (Ldp 21 22 31 4) ⊕ idx 6 (LdrX 23 31 6) ⊕
    one (AddImm 31 31 64) ⊕ one (Ret 30))) by (unfold emit_epilogue; emit_solve). exact E.
Qed.
Lemma emits_prologue s : emits s emit_prologue s (Some (I <$> prologue)).
Proof.
  assert (E : emits s emit_prologue s (one (SubImm 31 31 64) ⊕ one (Stp 29 30 31 0) ⊕ one (Stp 19 20 31 2) ⊕ one (Stp 21 22 31 4) ⊕
    idx 6 (StrX 23 31 6) ⊕ one (AddImm 29 31 0) ⊕ one (OrrReg 19 31 0) ⊕ one (OrrReg 20 31 1) ⊕ one (OrrReg 23 31 2) ⊕
    one (OrrReg 21 31 3) ⊕ one (OrrReg 22 31 4))) by (unfold emit_prologue; emit_solve). exact E.
Qed.
Lemma emits_loopdone s : emits s (emit_movz_w 0 0 ;; emit_epilogue)%emit s (Some (I <$> MovzW 0 0 0 :: epilogue)).
Proof.
  change (Some (I <$> MovzW 0 0 0 :: epilogue)) with (one (MovzW 0 0 0) ⊕ Some (I <$> epilogue)).
  eapply emits_seq; [emit_solve|apply emits_epilogue].
Qed.
Lemma emits_common s : emits s emit_common s (Some (I <$> common)).
Proof.
  assert (E : emits s emit_common s (one (OrrReg 0 31 19) ⊕ one (OrrReg 1 31 20) ⊕ one (OrrReg 2 31 22) ⊕ one (OrrReg 3 31 21) ⊕
    one (OrrReg 4 31 9) ⊕ imm 9 at_replay ⊕ one (Blr 9) ⊕ one (MovzW 0 1 0) ⊕ Some (I <$> epilogue))).
  { unfold emit_common. repeat (eapply emits_seq; [emit_solve|]). apply emits_epilogue. }
  unfold common. rewrite !fmap_app. exact E.
Qed.

Lemma emit_stubs_emitted s gs0 : forall g ws gs ls, emitted s g ws gs ls ->
  ((4 * (length ws + 2 * length gs0) <= sz)%nat ->
     exists g', emit_stubs gs0 g = (stub_offs (length ws) gs0.*2, g') /\ emitted s g' (ws ++ (encode <$> open_stubs gs0.*2)) gs ls) /\
  (~ (4 * (length ws + 2 * length gs0) <= sz)%nat -> failed (emit_stubs gs0 g).2 = true).
Proof.
  induction gs0 as [|[o snap] gs0 IH]; intros g ws gs ls Hg; cbn [emit_stubs].
  - split; [|cbn; pose proof (emitted_room _ _ _ _ _ _ _ Hg); lia]. intros _. exists g. cbn. by rewrite app_nil_r.
  - rewrite (em_ok _ _ _ _ _ _ _ Hg). cbn [emit_b_placeholder].
    assert (E1 : emits s (emit_movz_w 9 snap) s (one (MovzW 9 (Z.land snap 0xFFFF) 0))) by (by apply emits_w).
    assert (E2 : emits s (cg_w32 0x14000000) s (one (B 0))) by (by apply emits_w).
    pose proof (emits_seq _ _ _ _ _ _ _ _ _ E1 E2) as E.
    destruct (emits_code s _ [MovzW 9 (Z.land snap 0xFFFF) 0; B 0] E g ws gs ls Hg) as [Ef En].
    destruct (emits_code s _ [MovzW 9 (Z.land snap 0xFFFF) 0] E1 g ws gs ls Hg) as [Ef1 _]. unfold andthen in *.
    set (g2 := cg_w32 0x14000000 (emit_movz_w 9 snap g)) in *. cbn [length] in *.
    assert (Hst : failed g2 = true -> forall gs0, failed (emit_stubs gs0 g2).2 = true).
    { intros Hf [|[] gs1]; cbn; [done|]. by rewrite Hf. }
    destruct (decide (4 * (length ws + 2) <= sz)%nat) as [Hr|Hr].
    + destruct (IH g2 _ gs ls (Ef Hr)) as [If In]. rewrite length_app in *. cbn [length fmap list_fmap] in *.
      destruct (emit_stubs gs0 g2) as [l g'] eqn:Hs. split.
      * intros Hr'. destruct If as (g'' & [= -> ->] & Hg'); [lia|]. exists g''. split; [|by rewrite <- app_assoc in Hg'].
        rewrite (cg_off_at _ _ Hsz _ _ _ _ _ Hg), (cg_off_at _ _ Hsz _ _ _ _ _ (Ef1 ltac:(lia))), length_app.
        cbn. by rewrite Nat.add_1_r, Nat.add_comm.
      * intros Hr'. apply In. lia.
    + split; [lia|]. intros _. specialize (Hst (En Hr) gs0). by destruct (emit_stubs gs0 g2).
Qed.

Lemma patch_loopdone_emitted s ld its : forall pre post g gs ls, 4 * Z.of_nat ld < 2 ^ 31 ->
  emitted s g (pre ++ (word <$> its) ++ post) gs ls ->
  emitted s (patch_loopdone (close_offs (length pre) its) (4 * Z.of_nat ld) g) (pre ++ (word <$> shut ld (length pre) its) ++ post) gs ls.
Proof.
  induction its as [|it its IH]; intros pre post g gs ls Hld Hg; [done|].
  assert (Hk : length (pre ++ [word it]) = S (length pre)) by (rewrite length_app; cbn; lia).
  destruct it as [i|c sn|].
  - specialize (IH (pre ++ [word (I i)]) post g gs ls Hld). rewrite Hk, <- !app_assoc in IH. by apply IH.
  - specialize (IH (pre ++ [word (Guard c sn)]) post g gs ls Hld). rewrite Hk, <- !app_assoc in IH. by apply IH.
  - cbn [close_offs patch_loopdone shut].
    eapply (patch_b_emitted vm0 sz Hsz) with (k := length pre) (t := ld) in Hg; [|rewrite !length_app; cbn; lia|done].
    rewrite insert_app_r_alt, Nat.sub_diag in Hg by lia. cbn [fmap list_fmap app insert list_insert] in Hg.
    specialize (IH (pre ++ [encode (B (Z.of_nat ld - Z.of_nat (length pre)))]) post
      (patch_b (4 * Z.of_nat (length pre)) (4 * Z.of_nat ld) g) gs ls Hld).
    rewrite length_app, Nat.add_1_r, <- !app_assoc in IH. by apply IH in Hg.
Qed.

(** Guards and stubs are patched side by side. *)
Lemma patch_guards_emitted s ld st c its : forall pre mid post g gs ls j, 4 * Z.of_nat c < 2 ^ 31 ->
  (st + 2 * j = length pre + length its + length mid)%nat ->
  Forall (fun it => match it with Guard c _ => 0 <= c < 16 | _ => True end) its ->
  emitted s g (pre ++ (word <$> shut ld (length pre) its) ++ mid ++ (encode <$> open_stubs (snaps its)) ++ post) gs ls ->
  emitted s (patch_guards (guard_offs (length pre) its) (stub_offs (st + 2 * j) (snaps its)) (4 * Z.of_nat c) g)
    (pre ++ (encode <$> resolve ld st (length pre) j its) ++ mid ++ (encode <$> stubs c (st + 2 * j) (snaps its)) ++ post) gs ls.
Proof.
  induction its as [|it its IH]; intros pre mid post g gs ls j Hc Hst Hok Hg; [done|]. apply Forall_cons in Hok as [Hit Hok].
  destruct it as [i|cc sn|].
  - specialize (IH (pre ++ [encode i]) mid post g gs ls j Hc). rewrite length_app, Nat.add_1_r, <- !app_assoc in IH.
    apply IH; [cbn in Hst; lia|done|done].
  - cbn [guard_offs snaps stub_offs patch_guards resolve stubs open_stubs shut] in *. unfold andthen.
    pose proof (emitted_room _ _ _ _ _ _ _ Hg) as Hr. cbn in Hst.
    repeat rewrite ?length_app, ?length_cons, ?length_fmap, ?length_shut in Hr.
    eapply (patch_bcond_emitted vm0 sz Hsz) with (k := length pre) (t := (st + 2 * j)%nat) in Hg; [|exact Hit|by apply list_lookup_middle|cbn in Hst; lia].
    rewrite insert_app_r_alt, Nat.sub_diag in Hg by lia. cbn [fmap list_fmap app insert list_insert] in Hg.
    set (b := encode (BCond cc _)) in Hg. set (A := pre ++ b :: (word <$> shut ld (S (length pre)) its) ++ mid ++ [encode (MovzW 9 (Z.land sn 0xFFFF) 0)]).
    assert (HA : length A = S (st + 2 * j)).
    { unfold A. rewrite length_app. cbn. rewrite !length_app, length_fmap, length_shut. cbn. lia. }
    assert (Hl : forall x, pre ++ b :: (word <$> shut ld (S (length pre)) its) ++ mid ++ encode (MovzW 9 (Z.land sn 0xFFFF) 0) :: x =
      A ++ x) by (intros x; unfold A; by rewrite <- !app_assoc, <- app_comm_cons, <- !app_assoc).
    rewrite Hl in Hg. eapply (patch_b_emitted vm0 sz Hsz) with (k := S (st + 2 * j)) (t := c) in Hg; [|rewrite length_app, HA; cbn; lia|done].
    rewrite <- HA, insert_app_r_alt, HA, Nat.sub_diag in Hg by lia. cbn [insert list_insert] in Hg. unfold A in Hg. clear Hl HA A.
    match type of Hg with JitEmit.emitted _ _ _ ?g' _ _ _ => specialize (IH (pre ++ [b])
      (mid ++ [encode (MovzW 9 (Z.land sn 0xFFFF) 0); encode (B (Z.of_nat c - Z.of_nat (S (st + 2 * j))))]) post g' gs ls (S j) Hc) end.
    rewrite !length_app in IH. cbn [length] in IH. rewrite Nat.add_1_r in IH.
    replace (st + 2 * S j)%nat with (S (S (st + 2 * j))) in IH by lia.
    rewrite <- !app_assoc in IH. cbn [app] in IH.
    rewrite <- app_assoc, <- app_comm_cons, <- !app_assoc in Hg. cbn [app] in Hg. cbn [fmap list_fmap app].
    apply IH; [lia|done|exact Hg].
  - specialize (IH (pre ++ [encode (B (Z.of_nat ld - Z.of_nat (length pre)))]) mid post g gs ls j Hc).
    rewrite length_app, Nat.add_1_r, <- !app_assoc in IH. apply IH; [cbn in Hst; lia|done|done].
Qed.

Lemma patch_b_failed o x g : failed (patch_b o x g) = failed g.
Proof. unfold patch_b. apply patch_failed. Qed.
Lemma patch_bcond_failed o x g : failed (patch_bcond o x g) = failed g.
Proof. unfold patch_bcond. apply patch_failed. Qed.


Lemma emit_stubs_sticky gs g : failed g = true -> failed (emit_stubs gs g).2 = true.
Proof. destruct gs as [|[o sn] gs]; cbn; [done|]. intros Hg. by rewrite Hg. Qed.

(** The parts behind the body. *)
Definition tail_code (g : CG) : list (Z * Z) * Z * CG :=
  let g := (emit_movz_w 0 0 ;; emit_epilogue)%emit g in
  let (st, g) := emit_stubs (guards g) g in (st, cg_off g, emit_common g).

Lemma tail_code_emitted s g ws gs ls : emitted s g ws gs ls ->
  let n := (length ws + 7)%nat in
  let ss := gs.*2 in
  ((4 * (n + 2 * length gs + length common) <= sz)%nat ->
     exists g', tail_code g = (stub_offs n ss, 4 * Z.of_nat (n + 2 * length gs), g') /\
       emitted s g' (ws ++ (encode <$> MovzW 0 0 0 :: epilogue) ++ (encode <$> open_stubs ss) ++ (encode <$> common)) gs ls) /\
  (~ (4 * (n + 2 * length gs + length common) <= sz)%nat -> failed (tail_code g).2 = true).
Proof.
  intros Hg n ss. unfold tail_code. destruct (emits_code s _ _ (emits_loopdone s) g ws gs ls Hg) as [G1 N1].
  set (g1 := (emit_movz_w 0 0 ;; emit_epilogue)%emit g) in *. pose proof (emits_common s) as Ec.
  change (length (MovzW 0 0 0 :: epilogue)) with 7%nat in *.
  destruct (decide (4 * n <= sz)%nat) as [Hn|Hn].
  2: { split; [lia|]. intros _. specialize (N1 Hn). pose proof (emit_stubs_sticky (guards g1) g1 N1) as Hs.
       destruct (emit_stubs (guards g1) g1). by apply Ec. }
  specialize (G1 Hn). rewrite (em_guards _ _ _ _ _ _ _ G1). destruct (emit_stubs_emitted s gs g1 _ gs ls G1) as [G2 N2].
  rewrite length_app, length_fmap in G2, N2. change (length (MovzW 0 0 0 :: epilogue)) with 7%nat in G2, N2. fold n ss in G2, N2.
  destruct (decide (4 * (n + 2 * length gs) <= sz)%nat) as [Hs|Hs].
  2: { split; [lia|]. intros _. specialize (N2 Hs). destruct (emit_stubs gs g1). by apply Ec. }
  destruct (G2 Hs) as (g2 & -> & G3). destruct (emits_code s _ _ Ec g2 _ gs ls G3) as [G4 N4].
  assert (Hl : length ((ws ++ (encode <$> MovzW 0 0 0 :: epilogue)) ++ (encode <$> open_stubs ss)) = (n + 2 * length gs)%nat).
  { rewrite !length_app, !length_fmap, length_open_stubs. unfold ss. rewrite length_fmap. cbn. lia. }
  rewrite Hl in G4, N4. split.
  - intros Hr. eexists. split; [by rewrite (cg_off_at _ _ Hsz _ _ _ _ _ G3), Hl|]. specialize (G4 Hr). by rewrite <- !app_assoc in G4.
  - intros Hr. exact (N4 Hr).
Qed.

Definition allowed (its : list item) : Prop :=
  (4 * length (image its) <= sz)%nat /\ (length (snaps its) <= 1024)%nat /\ (length (close_offs 11 its) <= 1024)%nat.

Lemma codegen_eq l buffer : codegen vm0 cs l buffer =
  let g := (emit_prologue ;; emit_body cs (drop 1 l) 1)%emit (mkCG buffer 0 false vm0 0 [] []) in
  if failed g then None
  else
    let '(st, common_off, g') := tail_code g in
    if failed g' then None
    else
      let g2 := patch_loopdone (loopdone_off g') (cg_off g) g' in
      let g3 := patch_guards (guards g2) st common_off g2 in
      if failed g3 then None else Some g3.
Proof.
  unfold codegen, tail_code, andthen. cbv zeta. case_match; [done|]. by destruct (emit_stubs _ _).
Qed.

Lemma patch_loopdone_guards offs x : forall g, guards (patch_loopdone offs x g) = guards g.
Proof.
  induction offs as [|o offs IH]; intros g; cbn; [done|]. rewrite IH. unfold patch_b, cg_patch32. by case_match.
Qed.

(** All branches patched. *)
Lemma patched_image s g its :
  Forall item_ok its ->
  emitted s g ((encode <$> prologue) ++ (word <$> its) ++ (encode <$> MovzW 0 0 0 :: epilogue) ++
    (encode <$> open_stubs (snaps its)) ++ (encode <$> common)) (guard_offs 11 its) (close_offs 11 its) ->
  emitted s (patch_guards (guard_offs 11 its) (stub_offs (stub_at its 0) (snaps its)) (4 * Z.of_nat (common_at its))
      (patch_loopdone (close_offs 11 its) (4 * Z.of_nat (loopdone_at its)) g))
    (encode <$> image its) (guard_offs 11 its) (close_offs 11 its).
Proof.
  intros Hok Hg. pose proof (emitted_room _ _ _ _ _ _ _ Hg) as Hr. rewrite !length_app, !length_fmap, length_open_stubs in Hr.
  cbn [length prologue epilogue] in Hr.
  apply (patch_loopdone_emitted s (loopdone_at its) its (encode <$> prologue)) in Hg; [|unfold loopdone_at; lia].
  rewrite length_fmap in Hg. change (length prologue) with 11%nat in Hg.
  set (g' := patch_loopdone _ _ g) in *.
  pose proof (patch_guards_emitted s (loopdone_at its) (stub_at its 0) (common_at its) its (encode <$> prologue)
    (encode <$> MovzW 0 0 0 :: epilogue) (encode <$> common) g' (guard_offs 11 its) (close_offs 11 its) 0) as Hp.
  rewrite length_fmap in Hp. change (length prologue) with 11%nat in Hp.
  replace (stub_at its 0 + 2 * 0)%nat with (stub_at its 0) in Hp by lia.
  unfold image. rewrite !fmap_app. apply Hp; [unfold common_at, stub_at, loopdone_at; lia| | |exact Hg].
  - unfold stub_at, loopdone_at. cbn. lia.
  - eapply Forall_impl; [exact Hok|]. intros [|c sn|]; [done| |done]. intros [[->| ->] _]; lia.
Qed.

(** [codegen] writes the image of the trace, or gives up. *)
Lemma codegen_code l buffer : length buffer = sz -> Forall operands_ok l ->
  match body_code vm0 cs (drop 1 l) 1 0 with
  | None => codegen vm0 cs l buffer = None
  | Some its =>
      (allowed its -> exists g rest, codegen vm0 cs l buffer = Some g /\ cur g = 4 * Z.of_nat (length (image its)) /\
         length (buf g) = sz /\ buf g = code_bytes (encode <$> image its) ++ rest) /\
      (~ allowed its -> codegen vm0 cs l buffer = None)
  end.
Proof.
  intros Hb Hl. rewrite codegen_eq. cbv zeta. set (g0 := mkCG buffer 0 false vm0 0 [] []).
  assert (G0 : emitted 0 g0 [] [] []) by (split; cbn; try done; [by exists buffer|lia]).
  pose proof (emits_seq _ _ _ _ _ _ _ _ _ (emits_prologue 0) (emits_body vm0 sz Hsz cs (drop 1 l) 1 0)) as [_ E].
  specialize (E _ _ _ _ G0). set (g1 := (emit_prologue ;; emit_body cs (drop 1 l) 1)%emit g0) in *.
  pose proof (body_code_ok vm0 cs (drop 1 l) 1 0 ltac:(by apply Forall_drop) ltac:(lia) ltac:(lia)) as Hok.
  destruct (body_code vm0 cs (drop 1 l) 1 0) as [its|]; cbn -[prologue app] in E; [|by rewrite E].
  specialize (Hok its eq_refl). destruct E as [G1 N1]. set (s := last_snap (drop 1 l) 0) in *.
  change (length (@nil Z)) with 0%nat in *. rewrite guard_offs_app, close_offs_app, guard_offs_I, close_offs_I in G1.
  unfold fits in G1, N1. rewrite !length_app, guard_offs_app, close_offs_app, guard_offs_I, close_offs_I in G1, N1.
  rewrite length_fmap in G1, N1. change (length prologue) with 11%nat in *. cbn [length app Nat.add] in G1, N1.
  rewrite length_guard_offs in G1, N1. unfold allowed. rewrite length_image.
  destruct (decide ((4 * (11 + length its) <= sz)%nat /\ (length (snaps its) <= 1024)%nat /\ (length (close_offs 11 its) <= 1024)%nat)) as [Hf|Hf].
  2: { rewrite N1 by exact Hf. split; [|done]. intros (? & ?). destruct Hf. lia. }
  specialize (G1 Hf). rewrite (em_ok _ _ _ _ _ _ _ G1), (cg_off_at _ _ Hsz _ _ _ _ _ G1).
  rewrite fmap_app, <- list_fmap_compose in G1 |- *. destruct (tail_code_emitted _ _ _ _ _ G1) as [G2 N2].
  assert (Hlen : length ((word ∘ I <$> prologue) ++ (word <$> its)) = (11 + length its)%nat) by (by rewrite length_app, !length_fmap).
  rewrite Hlen, length_guard_offs, guard_offs_snaps in *.
  destruct (decide (4 * (length its + 2 * length (snaps its) + 18 + length common) <= sz)%nat) as [Hr|Hr].
  2: { specialize (N2 ltac:(lia)). destruct (tail_code g1) as [[st co] g']. cbn in N2. rewrite N2. split; [intros []; lia|done]. }
  split; [|intros Hn; destruct Hn; tauto]. intros _. destruct G2 as (g2 & -> & G3); [lia|].
  rewrite (em_ok _ _ _ _ _ _ _ G3), (em_loop _ _ _ _ _ _ _ G3). rewrite <- app_assoc in G3.
  rewrite patch_loopdone_guards, (em_guards _ _ _ _ _ _ _ G3). change (11 + length its)%nat with (loopdone_at its).
  replace (loopdone_at its + 7)%nat with (stub_at its 0) by (unfold stub_at; lia).
  replace (stub_at its 0 + 2 * length (snaps its))%nat with (common_at its) by (unfold common_at, stub_at; lia).
  pose proof (patched_image _ _ _ Hok G3) as G4. destruct (em_buf _ _ _ _ _ _ _ G4) as (rest & Hrest).
  rewrite (em_ok _ _ _ _ _ _ _ G4). eexists _, rest. split; [reflexivity|].
  rewrite (em_cur _ _ _ _ _ _ _ G4), length_fmap, length_image. split; [done|]. split; [exact (em_size _ _ _ _ _ _ _ G4)|done].
Qed.
End whole.
