(* ===== verification/JitSem.v ===== *)
(** * What compiled traces mean

    The meaning of the trace operations, as the comments of
    [cando_port/jit/codegen_aarch64.c] give it ([ir_run]), the contract of the
    functions compiled code calls ([runtime_ok]), the layout of memory a trace
    runs in, and the machine-level lemmas on the emitted instructions. *)
From stdpp Require Import functions.
From S2P Require Import Prelude Bytes A64 JitMmu Jit JitEmit.

(** ** Operations *)
(** The functions compiled code calls: [fmod], the fast natives by address, the
    global helpers by name, and the replay of a snapshot, which sets frame slots
    and the rest of the virtual machine from [vals] and the slots. *)
Class Runtime (W : Type) : Type := {
  r_fmod : Z -> Z -> Z;
  r_native : Z -> Z -> W -> Z * W;
  r_gload : Z -> W -> option Z * W;
  r_gstore : Z -> Z -> W -> bool * W;
  r_replay : Z -> (Z -> Z) -> (Z -> Z) -> W -> (Z -> Z) * W;
}.

(** IEEE facts the code relies on: the doubles 0 and 1. *)
Class F64Laws `{F64} : Prop := {
  f_of_int_0 : f_of_int 0 = 0;
  f_of_int_1 : f_of_int 1 = D_ONE_BITS;
}.

Record irst (W : Type) : Type := mkIr { vals : Z -> Z; slots : Z -> Z; wld : W }.
Arguments mkIr {W}. Arguments vals {W}. Arguments slots {W}. Arguments wld {W}.

(** [Next] goes on; [Exit] is a failed guard with its snapshot; [Done] a
    finished iteration. *)
Inductive result (W : Type) : Type := Next (r : irst W) | Exit (snap : Z) (r : irst W) | Done (r : irst W) | Unknown.
Arguments Next {W}. Arguments Exit {W}. Arguments Done {W}. Arguments Unknown {W}.

Section meaning.
Context {W : Type} `{F64} `{Cando} `{Runtime W} (vm : option CandoVM) (cs : Z -> Z).
Implicit Types r : irst W.

Definition set_val (i v : Z) r : irst W := mkIr (<[i := v]> (vals r)) (slots r) (wld r).
Definition set_slot (i v : Z) r : irst W := mkIr (vals r) (<[i := v]> (slots r)) (wld r).
Definition set_wld (w : W) r : irst W := mkIr (vals r) (slots r) w.

Definition is_number (v : Z) : bool := negb (Z.land v NB_MASK =? NB_MASK).
Definition is_nan (v : Z) : bool := match f_cmp v v with FUnordered => true | _ => false end.
(** [cando_number] *)
Definition number (v : Z) : Z := if is_nan v then NB_CANON_NAN else v.

Definition arith_op (o : IROp) (a b : Z) : Z :=
  match o with IR_ADD => f_add a b | IR_SUB => f_sub a b | IR_MUL => f_mul a b | _ => f_div a b end.

Definition compare_op (o : IROp) (c : fcmp_result) : bool :=
  match o, c with
  | IR_EQ, FEqual => true
  | IR_NEQ, (FLess | FGreater | FUnordered) => true
  | IR_LT, FLess => true
  | IR_LE, (FLess | FEqual) => true
  | IR_GT, FGreater => true
  | IR_GE, (FGreater | FEqual) => true
  | _, _ => false
  end.
Definition f_bool (b : bool) : Z := if b then D_ONE_BITS else 0.
Definition is_zero (v : Z) : bool := match f_cmp v 0 with FEqual => true | _ => false end.

Definition ir_ins (ins : IRIns) (i snap : Z) r : result W :=
  let a := op1 ins in let b := op2 ins in
  match op ins with
  | IR_NOP | IR_GUARD_NUM => Next r
  | IR_LOOP => Done r
  | IR_KNUM => Next (set_val i (cs a) r)
  | IR_KBOOL => Next (set_val i (f_bool (negb (a =? 0))) r)
  | IR_SLOAD => if is_number (slots r a) then Next (set_val i (slots r a) r) else Exit snap r
  | IR_SSTORE => Next (set_slot a (number (vals r b)) r)
  | IR_ADD | IR_SUB | IR_MUL | IR_DIV => Next (set_val i (arith_op (op ins) (vals r a) (vals r b)) r)
  | IR_MOD => Next (set_val i (r_fmod (vals r a) (vals r b)) r)
  | IR_NEG => Next (set_val i (Z.lxor (vals r a) (2 ^ 63)) r)
  | IR_EQ | IR_NEQ | IR_LT | IR_LE | IR_GT | IR_GE =>
      Next (set_val i (f_bool (compare_op (op ins) (f_cmp (vals r a) (vals r b)))) r)
  | IR_GLOAD =>
      match r_gload (cando_as_string (cs a)) (wld r) with
      | (Some v, w) => Next (set_val i v (set_wld w r))
      | (None, w) => Exit snap (set_wld w r)
      end
  | IR_GSTORE =>
      let (ok, w) := r_gstore (cando_as_string (cs a)) (vals r b) (wld r) in
      if ok then Next (set_wld w r) else Exit snap (set_wld w r)
  | IR_CALL_F1 =>
      match native vm a with
      | Some fn => let (v, w) := r_native fn (vals r b) (wld r) in Next (set_val i v (set_wld w r))
      | None => Unknown
      end
  | IR_GUARD_TRUE => if is_zero (vals r a) then Exit (u16 b) r else Next r
  | IR_GUARD_FALSE => if is_zero (vals r a) then Next r else Exit (u16 b) r
  | IR_OTHER _ => Unknown
  end.

(** A trace from operation [i] on; its end is a finished iteration. *)
Fixpoint ir_run (l : list IRIns) (i snap : Z) r : result W :=
  match l with
  | [] => Done r
  | ins :: l =>
      match ir_ins ins i snap r with
      | Next r' => ir_run l (i + 1) (next_snap ins snap) r'
      | res => res
      end
  end.

(** The operands of an operation are numbers of values and slots. *)
Definition ins_wf (nv ns : Z) (ins : IRIns) : Prop :=
  operands_ok ins /\
  match op ins with
  | IR_SLOAD => op1 ins < ns
  | IR_SSTORE => op1 ins < ns /\ op2 ins < nv
  | IR_ADD | IR_SUB | IR_MUL | IR_DIV | IR_MOD | IR_EQ | IR_NEQ | IR_LT | IR_LE | IR_GT | IR_GE => op1 ins < nv /\ op2 ins < nv
  | IR_NEG | IR_GUARD_TRUE | IR_GUARD_FALSE => op1 ins < nv
  | IR_GSTORE | IR_CALL_F1 => op2 ins < nv
  | _ => True
  end.
End meaning.

(** ** Memory *)
Record layout : Type := mkLayout { vals_at : Z; nvals : Z; slots_at : Z; nslots : Z; stack_top : Z }.

Definition disjoint (a n b m : Z) : Prop := a + n <= b \/ b + m <= a.

Record layout_ok (L : layout) : Prop := {
  lo_vals : 0 <= vals_at L /\ vals_at L mod 8 = 0 /\ vals_at L + 8 * nvals L <= 2 ^ 64;
  lo_slots : 0 <= slots_at L /\ slots_at L mod 8 = 0 /\ slots_at L + 8 * nslots L <= 2 ^ 64;
  lo_stack : 64 <= stack_top L < 2 ^ 64 /\ stack_top L mod 16 = 0;
  lo_vals_slots : disjoint (vals_at L) (8 * nvals L) (slots_at L) (8 * nslots L);
  lo_vals_stack : disjoint (vals_at L) (8 * nvals L) (stack_top L - 64) 64;
  lo_slots_stack : disjoint (slots_at L) (8 * nslots L) (stack_top L - 64) 64;
}.

Definition val_addr (L : layout) (i : Z) : Z := vals_at L + 8 * i.
Definition slot_addr (L : layout) (i : Z) : Z := slots_at L + 8 * i.

(** ** Called functions *)
Section contract.
Context {W : Type} `{F64} `{Cando} `{Runtime W}.
Implicit Types s : st W.

(** The procedure call standard: callee-saved registers and the stack pointer. *)
Definition abi s s' : Prop :=
  SP s' = SP s /\ (forall n, 19 <= n <= 29 -> X s' n = X s n) /\ (forall n, 8 <= n <= 15 -> Dr s' n = Dr s n).

(** Compiled code calls from its frame, with an aligned stack. *)
Definition at_call (L : layout) s : Prop := SP s = stack_top L - 64 /\ SP s mod 16 = 0.

Definition same_vals (L : layout) s s' : Prop := forall i, 0 <= i < nvals L -> mem s' (val_addr L i) = mem s (val_addr L i).
Definition same_slots (L : layout) s s' : Prop := forall i, 0 <= i < nslots L -> mem s' (slot_addr L i) = mem s (slot_addr L i).
(** The frame of the caller. *)
Definition same_frame s s' : Prop := forall a, SP s <= a < SP s + 64 -> mem s' a = mem s a.

Record runtime_ok (call : Z -> option (st W -> st W)) (L : layout) (vm : option CandoVM) (vmp tp : Z) : Prop := {
  rt_fmod : exists f, call at_fmod = Some f /\ forall s, at_call L s ->
    abi s (f s) /\ same_vals L s (f s) /\ same_slots L s (f s) /\ same_frame s (f s) /\
    world (f s) = world s /\ Dr (f s) 0 = r_fmod (Dr s 0) (Dr s 1);
  rt_native : forall k fn, native vm k = Some fn -> exists f, call fn = Some f /\ forall s, at_call L s ->
    abi s (f s) /\ same_vals L s (f s) /\ same_slots L s (f s) /\ same_frame s (f s) /\
    (Dr (f s) 0, world (f s)) = r_native fn (Dr s 0) (world s);
  rt_gload : exists f, call at_gload = Some f /\ forall s i, at_call L s -> X s 0 = vmp ->
    0 <= i < nvals L -> X s 2 = val_addr L i ->
    abi s (f s) /\ same_slots L s (f s) /\ same_frame s (f s) /\
    match r_gload (X s 1) (world s) with
    | (Some v, w) => u32 (X (f s) 0) = 0 /\ world (f s) = w /\
        forall k, 0 <= k < nvals L -> mem (f s) (val_addr L k) = if k =? i then v else mem s (val_addr L k)
    | (None, w) => u32 (X (f s) 0) <> 0 /\ world (f s) = w /\ same_vals L s (f s)
    end;
  rt_gstore : exists f, call at_gstore = Some f /\ forall s, at_call L s -> X s 0 = vmp ->
    abi s (f s) /\ same_vals L s (f s) /\ same_slots L s (f s) /\ same_frame s (f s) /\
    exists ok, r_gstore (X s 1) (Dr s 0) (world s) = (ok, world (f s)) /\ (u32 (X (f s) 0) = 0 <-> ok = true);
  rt_replay : exists f, call at_replay = Some f /\ forall s r, at_call L s -> X s 0 = vmp -> X s 1 = tp ->
    X s 2 = vals_at L -> X s 3 = slots_at L -> wld r = world s ->
    (forall i, 0 <= i < nvals L -> mem s (val_addr L i) = vals r i) ->
    (forall i, 0 <= i < nslots L -> mem s (slot_addr L i) = slots r i) ->
    abi s (f s) /\ same_frame s (f s) /\
    let (sl, w) := r_replay (u32 (X s 4)) (vals r) (slots r) (wld r) in
    world (f s) = w /\ forall i, 0 <= i < nslots L -> mem (f s) (slot_addr L i) = sl i;
}.
End contract.
