(* ===== verification/JitSim.v ===== *)
(** * Running emitted code

    Execution of the encoded instructions, and for each trace operation that
    its code does on the machine what [ir_ins] says. *)
From stdpp Require Import functions.
From S2P Require Import Prelude Bytes A64 JitMmu Jit JitEmit JitSem.

(** Instructions that go on to the next word. *)
Definition straight (i : instr) : bool := match i with B _ | BCond _ _ | Ret _ => false | _ => true end.

Section exec.
Context {W : Type} `{F64} (call : Z -> option (st W -> st W)) (base : Z) (code : list instr).
Context (Hcode : Forall (fun i => encodable i = true) code).
Implicit Types s : st W.

Definition steps s s' : Prop := exists n, run call base (encode <$> code) n s = Some s'.

Lemma steps_refl s : steps s s.
Proof. by exists 0%nat. Qed.

Lemma steps_trans s1 s2 s3 : steps s1 s2 -> steps s2 s3 -> steps s1 s3.
Proof.
  intros [n Hn] [m Hm]. exists (n + m)%nat. revert s1 Hn. induction n as [|n IH]; intros s1 Hn; cbn in *; [congruence|].
  destruct (step call base (encode <$> code) s1) as [s|]; [by apply IH|done].
Qed.

Lemma steps_one s s' k i : code !! k = Some i -> pc s = base + 4 * Z.of_nat k -> exec call i s = Some s' -> steps s s'.
Proof.
  intros Hk Hpc He. exists 1%nat. cbn. unfold step, fetch. rewrite Hpc.
  replace (base + 4 * Z.of_nat k - base) with (Z.of_nat k * 4) by lia. rewrite Z.mod_mul, Z.div_mul by lia.
  rewrite (proj2 (Z.leb_le _ _)) by lia. cbn. rewrite Nat2Z.id, list_lookup_fmap, Hk. cbn.
  rewrite instr_decode_encode by (by eapply Forall_lookup_1 in Hcode). cbn. by rewrite He.
Qed.

Fixpoint exec_seq (l : list instr) s : option (st W) :=
  match l with [] => Some s | i :: l => s' ← exec call i s; exec_seq l s' end.

Lemma exec_seq_app l l' s : exec_seq (l ++ l') s = s' ← exec_seq l s; exec_seq l' s'.
Proof. revert s. induction l as [|i l IH]; intros s; cbn; [done|]. destruct (exec call i s); cbn; [apply IH|done]. Qed.

Definition code_at (k : nat) (l : list instr) : Prop := exists pre post, code = pre ++ l ++ post /\ length pre = k.

Lemma code_at_app k l l' : code_at k (l ++ l') -> code_at k l /\ code_at (k + length l) l'.
Proof.
  intros (pre & post & Hc & <-). rewrite <- app_assoc in Hc. split.
  - by exists pre, (l' ++ post).
  - exists (pre ++ l), post. by rewrite length_app, <- app_assoc.
Qed.

Lemma code_at_cons k i l : code_at k (i :: l) -> code !! k = Some i /\ code_at (S k) l.
Proof.
  intros (pre & post & Hc & <-). split; [rewrite Hc; by apply list_lookup_middle|]. exists (pre ++ [i]), post.
  by rewrite length_app, Nat.add_1_r, <- app_assoc.
Qed.

Lemma pc_set_X n v s : pc (set_X n v s) = pc s.
Proof. unfold set_X. by case_match. Qed.
Lemma pc_set_xsp n v s : pc (set_xsp n v s) = pc s.
Proof. unfold set_xsp. case_match; [done|apply pc_set_X]. Qed.

Lemma exec_pc i s s' : straight i = true -> exec call i s = Some s' -> pc s' = pc s + 4.
Proof.
  intros Hs He. destruct i; try done; cbn [exec] in He; simplify_option_eq; cbn; by rewrite ?pc_set_X, ?pc_set_xsp.
Qed.

(** A run of instructions without branches. *)
Lemma seq_steps l : forall s s' k, code_at k l -> pc s = base + 4 * Z.of_nat k -> forallb straight l = true ->
  exec_seq l s = Some s' -> steps s s' /\ pc s' = base + 4 * Z.of_nat (k + length l).
Proof.
  induction l as [|i l IH]; intros s s' k Hk Hpc Hs He; cbn in He.
  - injection He as <-. split; [apply steps_refl|]. rewrite Hpc. cbn. lia.
  - apply code_at_cons in Hk as [Hi Hk]. cbn in Hs. apply andb_prop in Hs as [Hsi Hs].
    destruct (exec call i s) as [s1|] eqn:E; cbn in He; [|done].
    destruct (IH s1 s' (S k) Hk) as [H1 H2]; [rewrite (exec_pc _ _ _ Hsi E); lia|done..|].
    split; [by eapply steps_trans; [eapply steps_one|]|]. rewrite H2. cbn. lia.
Qed.
End exec.

(** ** Reading an updated state *)
Section reads.
Context {W : Type}.
Implicit Types s : st W.
Lemma X_set_X n v s : n <> 31 -> X (set_X n v s) = <[n := v]> (X s).
Proof. intros Hn. unfold set_X. by rewrite (proj2 (Z.eqb_neq n 31)). Qed.
Lemma X_set_X31 v s : X (set_X 31 v s) = X s.
Proof. done. Qed.
Lemma Dr_set_X n v s : Dr (set_X n v s) = Dr s.
Proof. unfold set_X. by case_match. Qed.
Lemma mem_set_X n v s : mem (set_X n v s) = mem s.
Proof. unfold set_X. by case_match. Qed.
Lemma flags_set_X n v s : flags (set_X n v s) = flags s.
Proof. unfold set_X. by case_match. Qed.
Lemma SP_set_X n v s : SP (set_X n v s) = SP s.
Proof. unfold set_X. by case_match. Qed.
Lemma world_set_X n v s : world (set_X n v s) = world s.
Proof. unfold set_X. by case_match. Qed.
End reads.
#[export] Hint Rewrite @Dr_set_X @mem_set_X @flags_set_X @SP_set_X @world_set_X @X_set_X31 : a64.
#[export] Hint Rewrite @X_set_X using done : a64.

(** Computes what an updated state holds, leaving the states themselves alone. *)
Ltac read1 t :=
  lazymatch t with
  | _ (set_pc _ _) => idtac | _ (set_D _ _ _) => idtac | _ (set_flags _ _) => idtac | _ (set_mem _ _ _) => idtac
  end;
  let t' := eval cbn [X Dr mem flags SP world set_pc set_D set_flags set_mem] in t in change t with t'.
Ltac reads :=
  unfold xz; cbn [Z.eqb Pos.eqb];
  repeat first
    [ progress autorewrite with a64
    | match goal with
      | |- context [X ?s] => read1 (X s)
      | |- context [Dr ?s] => read1 (Dr s)
      | |- context [mem ?s] => read1 (mem s)
      | |- context [flags ?s] => read1 (flags s)
      | |- context [world ?s] => read1 (world s)
      end
    | rewrite fn_lookup_insert
    | rewrite fn_lookup_insert_ne by done ].

(** ** Constants *)
(** [s'] differs from [s] in register [d] and the program counter. *)
Record only_x {W} (d v : Z) (s s' : st W) : Prop := {
  ox_val : X s' d = v;
  ox_ne : forall n, n <> d -> X s' n = X s n;
  ox_sp : SP s' = SP s;
  ox_d : Dr s' = Dr s;
  ox_flags : flags s' = flags s;
  ox_mem : mem s' = mem s;
  ox_world : world s' = world s;
}.

Lemma only_x_trans {W} d v1 v2 (s1 s2 s3 : st W) : only_x d v1 s1 s2 -> only_x d v2 s2 s3 -> only_x d v2 s1 s3.
Proof. intros [] []. split; try congruence. intros n Hn. rewrite ox_ne1 by done. by apply ox_ne0. Qed.

Lemma only_x_set {W} d v (s : st W) x : d <> 31 -> only_x d v s (set_pc x (set_X d v s)).
Proof.
  intros Hd. unfold set_X. rewrite (proj2 (Z.eqb_neq d 31)) by done.
  split; cbn; try done; [apply fn_lookup_insert|]. intros n Hn. by apply fn_lookup_insert_ne.
Qed.

Lemma half_step k v : 0 <= k -> v mod 2 ^ (16 * k) + half k v * 2 ^ (16 * k) = v mod 2 ^ (16 * (k + 1)).
Proof.
  intros Hk. unfold half, field. replace (2 ^ (16 * (k + 1))) with (2 ^ (16 * k) * 2 ^ 16) by (rewrite <- Z.pow_add_r by lia; f_equal; lia).
  pose proof (Z.pow_pos_nonneg 2 (16 * k)). rewrite Z.rem_mul_r by lia. lia.
Qed.

Section constants.
Context {W : Type} `{F64} (call : Z -> option (st W -> st W)).

Lemma exec_movk d v k s : d <> 31 -> 0 <= k -> X s d = v mod 2 ^ (16 * k) ->
  exists s', exec_seq call (if half k v =? 0 then [] else [Movk d (half k v) k]) s = Some s' /\ only_x d (v mod 2 ^ (16 * (k + 1))) s s'.
Proof.
  intros Hd Hk Hx. rewrite <- half_step by done. destruct (Z.eqb_spec (half k v) 0) as [E|N].
  - exists s. rewrite E, Z.mul_0_l, Z.add_0_r. by split.
  - eexists. split; [reflexivity|]. unfold xz. rewrite (proj2 (Z.eqb_neq d 31)), Hx by done.
    replace (field (16 * k) 16 (v mod 2 ^ (16 * k))) with 0.
    + rewrite Z.mul_0_l, Z.sub_0_r. by apply only_x_set.
    + unfold field. rewrite Z.div_small; [done|]. apply Z.mod_pos_bound. lia.
Qed.

(** [emit_mov_imm64] puts any 64-bit value into a register. *)
Lemma exec_imm d v s : d <> 31 -> 0 <= v < 2 ^ 64 ->
  exists s', exec_seq call (mov_imm64 d v) s = Some s' /\ only_x d v s s'.
Proof.
  intros Hd Hv. unfold mov_imm64. cbn [app exec_seq exec mbind option_bind].
  set (s1 := set_pc _ _). assert (O1 : only_x d (v mod 2 ^ (16 * 1)) s s1).
  { replace (v mod 2 ^ (16 * 1)) with (half 0 v * 2 ^ (16 * 0)); [by apply only_x_set|].
    unfold half, field. change (16 * 0) with 0. change (16 * 1) with 16. rewrite Z.pow_0_r, Z.div_1_r. lia. }
  destruct (exec_movk d v 1 s1) as (s2 & E2 & O2); [done|lia|apply O1|]. cbn [Z.add Pos.add] in O2.
  destruct (exec_movk d v 2 s2) as (s3 & E3 & O3); [done|lia|apply O2|].
  destruct (exec_movk d v 3 s3) as (s4 & E4 & O4); [done|lia|apply O3|].
  exists s4. rewrite exec_seq_app, E2. cbn. rewrite exec_seq_app, E3. cbn. split; [done|].
  rewrite (Z.mod_small v) in O4 by (cbn; lia). eauto using only_x_trans.
Qed.
End constants.

Lemma straight_imm d v : forallb straight (mov_imm64 d v) = true.
Proof. unfold mov_imm64. by repeat case_match. Qed.

(** ** The state between operations *)
Section sim.
Context {W : Type} `{F64} `{!F64Laws} `{Cando} `{Runtime W} (call : Z -> option (st W -> st W)).
Context (L : layout) (vm : option CandoVM) (vmp tp : Z) (HL : layout_ok L) (HR : runtime_ok call L vm vmp tp).
Context (s0 : st W).
Implicit Types s : st W.
Implicit Types r : irst W.

Record inv s r : Prop := {
  iv_sp : SP s = stack_top L - 64;
  iv_vm : X s 19 = vmp;
  iv_t : X s 20 = tp;
  iv_fs : X s 21 = slots_at L;
  iv_vals_at : X s 22 = vals_at L;
  iv_vals : forall i, 0 <= i < nvals L -> mem s (val_addr L i) = vals r i;
  iv_slots : forall i, 0 <= i < nslots L -> mem s (slot_addr L i) = slots r i;
  iv_world : world s = wld r;
  iv_saved : mem s (stack_top L - 64) = X s0 29 /\ mem s (stack_top L - 56) = X s0 30 /\
    mem s (stack_top L - 48) = X s0 19 /\ mem s (stack_top L - 40) = X s0 20 /\
    mem s (stack_top L - 32) = X s0 21 /\ mem s (stack_top L - 24) = X s0 22 /\ mem s (stack_top L - 16) = X s0 23;
  iv_x : forall n, 24 <= n <= 28 -> X s n = X s0 n;
  iv_d : forall n, 8 <= n <= 15 -> Dr s n = Dr s0 n;
}.

Lemma inv_pc s r a : inv s r -> inv (set_pc a s) r.
Proof. by intros []. Qed.
Lemma inv_flags s r f : inv s r -> inv (set_flags f s) r.
Proof. by intros []. Qed.
Lemma inv_D s r n v : n < 8 -> inv s r -> inv (set_D n v s) r.
Proof.
  intros Hn []. split; try done. intros k Hk. cbn. rewrite fn_lookup_insert_ne by lia. by apply iv_d0.
Qed.
Lemma inv_X s r n v : n < 19 \/ 30 <= n -> inv s r -> inv (set_X n v s) r.
Proof.
  intros Hn []. unfold set_X. case_match; [done|]. split; try done; cbn.
  1-4: by rewrite fn_lookup_insert_ne by lia.
  intros k Hk. rewrite fn_lookup_insert_ne by lia. by apply iv_x0.
Qed.
Lemma inv_only s s' r n v : n < 19 -> only_x n v s s' -> inv s r -> inv s' r.
Proof.
  intros Hn [] []. split; rewrite ?ox_sp0, ?ox_mem0, ?ox_world0, ?ox_d0; try done.
  1-4: by rewrite ox_ne0 by lia.
  intros k Hk. rewrite ox_ne0 by lia. by apply iv_x0.
Qed.

Lemma addr_facts :
  (forall i, 0 <= i < nvals L -> 0 <= val_addr L i < 2 ^ 64 /\ val_addr L i mod 8 = 0) /\
  (forall i, 0 <= i < nslots L -> 0 <= slot_addr L i < 2 ^ 64 /\ slot_addr L i mod 8 = 0) /\
  (forall i k, 0 <= i < nvals L -> 0 <= k < nslots L -> val_addr L i <> slot_addr L k) /\
  (forall i a, 0 <= i < nvals L -> stack_top L - 64 <= a < stack_top L -> val_addr L i <> a) /\
  (forall i a, 0 <= i < nslots L -> stack_top L - 64 <= a < stack_top L -> slot_addr L i <> a).
Proof.
  destruct HL as [(V1 & V2 & V3) (S1 & S2 & S3) (T1 & T2) D1 D2 D3]. unfold disjoint, val_addr, slot_addr in *.
  split_and!; intros; try lia; split; try lia; rewrite (Z.add_comm _ (8 * i)), (Z.mul_comm 8), <- Z.add_mod_idemp_r, ?V2, ?S2, Z.add_0_r by lia;
    apply Z.mod_mul; lia.
Qed.

Lemma inv_store_val s r i v : 0 <= i < nvals L -> inv s r -> inv (set_mem (val_addr L i) v s) (set_val i v r).
Proof.
  intros Hi []. destruct addr_facts as (_ & _ & A3 & A4 & _). split; try done; cbn.
  - intros k Hk. destruct (decide (i = k)) as [->|Hne]; [by rewrite !fn_lookup_insert|].
    rewrite !fn_lookup_insert_ne by (unfold val_addr; lia). by apply iv_vals0.
  - intros k Hk. rewrite fn_lookup_insert_ne by (by apply A3). by apply iv_slots0.
  - destruct iv_saved0 as (? & ? & ? & ? & ? & ? & ?). split_and!; rewrite fn_lookup_insert_ne by (apply A4; lia); done.
Qed.
Lemma inv_store_slot s r i v : 0 <= i < nslots L -> inv s r -> inv (set_mem (slot_addr L i) v s) (set_slot i v r).
Proof.
  intros Hi []. destruct addr_facts as (_ & _ & A3 & _ & A5). split; try done; cbn.
  - intros k Hk. rewrite fn_lookup_insert_ne by (intros E; by apply (A3 k i)). by apply iv_vals0.
  - intros k Hk. destruct (decide (i = k)) as [->|Hne]; [by rewrite !fn_lookup_insert|].
    rewrite !fn_lookup_insert_ne by (unfold slot_addr; lia). by apply iv_slots0.
  - destruct iv_saved0 as (? & ? & ? & ? & ? & ? & ?). split_and!; rewrite fn_lookup_insert_ne by (apply A5; lia); done.
Qed.

Lemma address_val s r i : inv s r -> 0 <= i < nvals L -> address s 22 (8 * i) = Some (val_addr L i).
Proof.
  intros Hs Hi. destruct addr_facts as (A1 & _). destruct (A1 i Hi) as [Ha Hm]. unfold address, xsp. cbn [Z.eqb Pos.eqb andb].
  rewrite (iv_vals_at _ _ Hs). change (vals_at L + 8 * i) with (val_addr L i). by rewrite u64_small, Hm by done.
Qed.
Lemma address_slot s r i : inv s r -> 0 <= i < nslots L -> address s 21 (8 * i) = Some (slot_addr L i).
Proof.
  intros Hs Hi. destruct addr_facts as (_ & A2 & _). destruct (A2 i Hi) as [Ha Hm]. unfold address, xsp. cbn [Z.eqb Pos.eqb andb].
  rewrite (iv_fs _ _ Hs). change (slots_at L + 8 * i) with (slot_addr L i). by rewrite u64_small, Hm by done.
Qed.

(** ** Straight code *)
Definition wp (l : list instr) s (Q : st W -> Prop) : Prop := exists s', exec_seq call l s = Some s' /\ Q s'.

Lemma wp_nil s (Q : st W -> Prop) : Q s -> wp [] s Q.
Proof. intros HQ. by exists s. Qed.
Lemma wp_step i l s s1 Q : exec call i s = Some s1 -> wp l s1 Q -> wp (i :: l) s Q.
Proof. intros He (s' & Hs & HQ). exists s'. cbn. by rewrite He. Qed.
Lemma wp_imm d v l s Q : d <> 31 -> 0 <= v < 2 ^ 64 -> (forall s1, only_x d v s s1 -> wp l s1 Q) -> wp (mov_imm64 d v ++ l) s Q.
Proof.
  intros Hd Hv Hl. destruct (exec_imm call d v s Hd Hv) as (s1 & E1 & O1). destruct (Hl s1 O1) as (s' & Hs & HQ).
  exists s'. by rewrite exec_seq_app, E1.
Qed.

Lemma wp_ldr_d t i l s r Q : inv s r -> 0 <= i < nvals L -> wp l (set_pc (pc s + 4) (set_D t (vals r i) s)) Q -> wp (LdrD t R_VALS i :: l) s Q.
Proof.
  intros Hs Hi. apply wp_step. cbn [exec]. rewrite (address_val _ _ _ Hs Hi). cbn. by rewrite (iv_vals _ _ Hs i Hi).
Qed.
Lemma wp_str_d t i l s r Q : inv s r -> 0 <= i < nvals L -> wp l (set_pc (pc s + 4) (set_mem (val_addr L i) (Dr s t) s)) Q -> wp (StrD t R_VALS i :: l) s Q.
Proof. intros Hs Hi. apply wp_step. cbn [exec]. by rewrite (address_val _ _ _ Hs Hi). Qed.
Lemma wp_str_x t i l s r Q : inv s r -> 0 <= i < nvals L -> wp l (set_pc (pc s + 4) (set_mem (val_addr L i) (xz s t) s)) Q -> wp (StrX t R_VALS i :: l) s Q.
Proof. intros Hs Hi. apply wp_step. cbn [exec]. by rewrite (address_val _ _ _ Hs Hi). Qed.
Lemma wp_ldr_slot t i l s r Q : inv s r -> 0 <= i < nslots L -> wp l (set_pc (pc s + 4) (set_X t (slots r i) s)) Q -> wp (LdrX t R_FS i :: l) s Q.
Proof.
  intros Hs Hi. apply wp_step. cbn [exec]. rewrite (address_slot _ _ _ Hs Hi). cbn. by rewrite (iv_slots _ _ Hs i Hi), pc_set_X.
Qed.
Lemma wp_str_slot t i l s r Q : inv s r -> 0 <= i < nslots L -> wp l (set_pc (pc s + 4) (set_mem (slot_addr L i) (xz s t) s)) Q -> wp (StrX t R_FS i :: l) s Q.
Proof. intros Hs Hi. apply wp_step. cbn [exec]. by rewrite (address_slot _ _ _ Hs Hi). Qed.
Lemma wp_str_slot_d t i l s r Q : inv s r -> 0 <= i < nslots L -> wp l (set_pc (pc s + 4) (set_mem (slot_addr L i) (Dr s t) s)) Q -> wp (StrD t R_FS i :: l) s Q.
Proof. intros Hs Hi. apply wp_step. cbn [exec]. by rewrite (address_slot _ _ _ Hs Hi). Qed.

(** Keeping the invariant through register changes. *)
Ltac inv_solve :=
  repeat first
    [ assumption
    | apply inv_pc | apply inv_flags
    | apply inv_D; [lia|] | apply inv_X; [lia|]
    | apply inv_store_val; [assumption|] | apply inv_store_slot; [assumption|] ].
Ltac wp_go r :=
  lazymatch goal with
  | |- wp [] _ _ => apply wp_nil
  | |- wp (LdrD _ R_VALS _ :: _) _ _ => eapply (wp_ldr_d _ _ _ _ r); [inv_solve|assumption|]; wp_go r
  | |- wp (StrD _ R_VALS _ :: _) _ _ => eapply (wp_str_d _ _ _ _ r); [inv_solve|assumption|]; wp_go r
  | |- wp (StrX _ R_VALS _ :: _) _ _ => eapply (wp_str_x _ _ _ _ r); [inv_solve|assumption|]; wp_go r
  | |- wp (LdrX _ R_FS _ :: _) _ _ => eapply (wp_ldr_slot _ _ _ _ r); [inv_solve|assumption|]; wp_go r
  | |- wp (_ :: _) _ _ => eapply wp_step; [reflexivity|]; wp_go r
  | _ => idtac
  end.

Lemma wp_neg s r a i : inv s r -> 0 <= a < nvals L -> 0 <= i < nvals L ->
  wp [LdrD 0 R_VALS a; FNeg 0 0; StrD 0 R_VALS i] s (fun s' => inv s' (set_val i (Z.lxor (vals r a) (2 ^ 63)) r)).
Proof. intros Hs Ha Hi. wp_go r. reads. inv_solve. Qed.

Lemma wp_arith s r o f a b i : inv s r -> 0 <= a < nvals L -> 0 <= b < nvals L -> 0 <= i < nvals L -> arith o = Some f ->
  wp [LdrD 0 R_VALS a; LdrD 1 R_VALS b; f; StrD 0 R_VALS i] s (fun s' => inv s' (set_val i (arith_op o (vals r a) (vals r b)) r)).
Proof. intros Hs Ha Hb Hi Ho. destruct o; try discriminate Ho; injection Ho as <-; wp_go r; reads; inv_solve. Qed.

Lemma wp_const s r v i : inv s r -> 0 <= v < 2 ^ 64 -> 0 <= i < nvals L ->
  wp (mov_imm64 9 v ++ [StrX 9 R_VALS i]) s (fun s' => inv s' (set_val i v r)).
Proof.
  intros Hs Hv Hi. apply wp_imm; [done..|]. intros s1 O1. assert (inv s1 r) by (eapply inv_only; [|exact O1|]; [lia|assumption]).
  wp_go r. unfold xz. cbn. rewrite (ox_val _ _ _ _ O1). inv_solve.
Qed.

(** The flags of a comparison and the condition chosen for it. *)
Lemma compare_flags o c x : compare_cond o = Some c ->
  cond_holds (Z.lxor c 1) (fcmp_flags x) = negb (compare_op o x).
Proof. intros Hc. destruct o; try discriminate Hc; injection Hc as <-; destruct x; vm_compute; reflexivity. Qed.

Lemma wp_compare s r o c a b i : inv s r -> 0 <= a < nvals L -> 0 <= b < nvals L -> 0 <= i < nvals L -> compare_cond o = Some c ->
  wp [LdrD 0 R_VALS a; LdrD 1 R_VALS b; FCmp 0 1; CsincW 9 31 31 (Z.lxor c 1); Scvtf 0 9; StrD 0 R_VALS i] s
    (fun s' => inv s' (set_val i (f_bool (compare_op o (f_cmp (vals r a) (vals r b)))) r)).
Proof.
  intros Hs Ha Hb Hi Hc. wp_go r. reads.
  rewrite (compare_flags _ _ _ Hc).
  replace (f_of_int _) with (f_bool (compare_op o (f_cmp (vals r a) (vals r b)))); [inv_solve|].
  destruct (compare_op o _); cbn; [by rewrite f_of_int_1|by rewrite f_of_int_0].
Qed.

(** ** Calls *)
Lemma wp_call f l s Q : call (X s 9) = Some f -> wp l (set_pc (pc s + 4) (f (set_X 30 (pc s + 4) s))) Q -> wp (Blr 9 :: l) s Q.
Proof. intros Hf. apply wp_step. cbn. unfold xz. cbn. by rewrite Hf. Qed.

Lemma sp_aligned s r : inv s r -> at_call L s.
Proof. intros Hs. split; [apply Hs|]. rewrite (iv_sp _ _ Hs). pose proof (lo_stack _ HL) as [_ Hm]. revert Hm. zdl. Qed.

Lemma inv_callee s s' r r' : inv s r -> abi s s' -> same_slots L s s' -> same_frame s s' -> slots r' = slots r -> world s' = wld r' ->
  (forall i, 0 <= i < nvals L -> mem s' (val_addr L i) = vals r' i) -> inv s' r'.
Proof.
  intros [] (A1 & A2 & A3) Hsl Hf Es Ew Hv. unfold same_frame in Hf. rewrite iv_sp0 in Hf. split; try done.
  - by rewrite A1.
  - by rewrite A2 by lia.
  - by rewrite A2 by lia.
  - by rewrite A2 by lia.
  - by rewrite A2 by lia.
  - intros i Hi. rewrite Hsl, Es by done. by apply iv_slots0.
  - by rewrite !Hf by lia.
  - intros n Hn. rewrite A2 by lia. by apply iv_x0.
  - intros n Hn. rewrite A3 by lia. by apply iv_d0.
Qed.

Lemma inv_callee_vals s s' r : inv s r -> abi s s' -> same_vals L s s' -> same_slots L s s' -> same_frame s s' -> inv s' (set_wld (world s') r).
Proof.
  intros Hs Ha Hv Hsl Hf. eapply inv_callee; [exact Hs|done..|]. intros i Hi. rewrite Hv by done. by apply (iv_vals _ _ Hs).
Qed.

Lemma wp_mod s r a b i : inv s r -> 0 <= at_fmod < 2 ^ 64 -> 0 <= a < nvals L -> 0 <= b < nvals L -> 0 <= i < nvals L ->
  wp ([LdrD 0 R_VALS a; LdrD 1 R_VALS b] ++ mov_imm64 9 at_fmod ++ [Blr 9; StrD 0 R_VALS i]) s
    (fun s' => inv s' (set_val i (r_fmod (vals r a) (vals r b)) r)).
Proof.
  intros Hs Hat Ha Hb Hi. cbn [app]. wp_go r. apply wp_imm; [done..|]. intros s1 O1.
  destruct (rt_fmod _ _ _ _ _ HR) as (f & Hc & Hf). eapply wp_call; [by rewrite (ox_val _ _ _ _ O1)|].
  assert (I1 : inv (set_X 30 (pc s1 + 4) s1) r) by (apply inv_X; [lia|]; eapply inv_only; [|exact O1|]; [lia|inv_solve]).
  destruct (Hf _ (sp_aligned _ _ I1)) as (A & V1 & V2 & V3 & V4 & V5). set (s2 := f _) in *.
  assert (I2 : inv s2 r) by (eapply inv_callee; [exact I1|done..| |]; [by rewrite V4, (iv_world _ _ I1)|]; intros; rewrite V1 by done; by apply (iv_vals _ _ I1)).
  wp_go r. cbn [Dr set_pc]. rewrite V5. unfold set_X. cbn [Dr Z.eqb Pos.eqb]. rewrite (ox_d _ _ _ _ O1). reads. inv_solve.
Qed.

Lemma wp_native s r k fn b i : inv s r -> native vm k = Some fn -> 0 <= fn < 2 ^ 64 -> 0 <= b < nvals L -> 0 <= i < nvals L ->
  wp ([LdrD 0 R_VALS b] ++ mov_imm64 9 fn ++ [Blr 9; StrD 0 R_VALS i]) s
    (fun s' => let (v, w) := r_native fn (vals r b) (wld r) in inv s' (set_val i v (set_wld w r))).
Proof.
  intros Hs Hn Hat Hb Hi. cbn [app]. wp_go r. apply wp_imm; [done..|]. intros s1 O1.
  destruct (rt_native _ _ _ _ _ HR k fn Hn) as (f & Hc & Hf). eapply wp_call; [by rewrite (ox_val _ _ _ _ O1)|].
  assert (I1 : inv (set_X 30 (pc s1 + 4) s1) r) by (apply inv_X; [lia|]; eapply inv_only; [|exact O1|]; [lia|inv_solve]).
  destruct (Hf _ (sp_aligned _ _ I1)) as (A & V1 & V2 & V3 & V4). set (s2 := f _) in *.
  pose proof (inv_callee_vals _ _ _ I1 A V1 V2 V3) as I2. wp_go (set_wld (world s2) r). cbn [Dr set_pc].
  revert V4. rewrite (iv_world _ _ I1). unfold set_X. cbn [Dr Z.eqb Pos.eqb]. rewrite (ox_d _ _ _ _ O1). reads. intros <-. inv_solve.
Qed.

(** ** Up to a guard *)
Lemma inv_imm s s1 r d v : d < 19 -> only_x d v s s1 -> inv s r -> inv s1 r.
Proof. intros Hd O. by apply (inv_only _ _ _ _ _ Hd O). Qed.

Lemma subs_w_zero x : fZ (subs_flags 32 (u32 x) 0) = (u32 x =? 0).
Proof. unfold subs_flags. cbn [fZ]. rewrite Z.sub_0_r. f_equal. pose proof (u32_range x). rewrite Z.mod_small; lia. Qed.

Lemma wp_gload s r name i : inv s r -> 0 <= name < 2 ^ 64 -> 0 <= at_gload < 2 ^ 64 -> 0 <= i < nvals L ->
  wp ([OrrReg 0 31 R_VM] ++ mov_imm64 1 name ++ mov_imm64 9 (u64 (i * 8)) ++ [AddReg 2 R_VALS 9] ++ mov_imm64 9 at_gload ++ [Blr 9; SubsImmW 31 0 0]) s
    (fun s' => match r_gload name (wld r) with
               | (Some v, w) => inv s' (set_val i v (set_wld w r)) /\ fZ (flags s') = true
               | (None, w) => inv s' (set_wld w r) /\ fZ (flags s') = false
               end).
Proof.
  intros Hs Hn Hat Hi. cbn [app]. wp_go r. apply wp_imm; [done..|]. intros s1 O1.
  apply wp_imm; [done|apply u64_range|]. intros s2 O2. wp_go r. apply wp_imm; [done..|]. intros s3 O3.
  destruct (rt_gload _ _ _ _ _ HR) as (f & Hc & Hf). eapply wp_call; [by rewrite (ox_val _ _ _ _ O3)|].
  destruct addr_facts as (A1 & _). destruct (A1 i Hi) as [Ha _]. pose proof (lo_vals _ HL) as (Hv & _).
  assert (I2 : inv s2 r) by (eapply inv_imm; [|exact O2|]; [lia|]; eapply inv_imm; [|exact O1|]; [lia|]; inv_solve).
  assert (I3 : inv (set_X 30 (pc s3 + 4) s3) r) by (apply inv_X; [lia|]; eapply inv_imm; [|exact O3|]; [lia|]; inv_solve).
  destruct (Hf (set_X 30 (pc s3 + 4) s3) i (sp_aligned _ _ I3)) as (Ab & V2 & V3 & V4); [|done|..].
  - reads. rewrite (ox_ne _ _ _ _ O3) by done. reads. rewrite (ox_ne _ _ _ _ O2), (ox_ne _ _ _ _ O1) by done. reads.
    rewrite Z.lor_0_l. apply (iv_vm _ _ Hs).
  - reads. rewrite (ox_ne _ _ _ _ O3) by done. reads. rewrite (ox_val _ _ _ _ O2). cbn [Z.eqb Pos.eqb].
    rewrite (iv_vals_at _ _ I2). unfold val_addr in *. rewrite (u64_small (i * 8)) by lia. rewrite u64_small by lia. lia.
  - set (s4 := f _) in *. wp_go r. revert V4. reads. rewrite (ox_ne _ _ _ _ O3) by done. reads.
    rewrite (ox_ne _ _ _ _ O2), (ox_val _ _ _ _ O1), (ox_world _ _ _ _ O3) by done. reads.
    rewrite (ox_world _ _ _ _ O2), (ox_world _ _ _ _ O1). reads. rewrite (iv_world _ _ Hs).
    unfold xsp. cbn [Z.eqb Pos.eqb]. reads. rewrite subs_w_zero. destruct (r_gload name (wld r)) as [[v|] w].
    + intros (Z0 & W0 & V0). rewrite Z0. split; [|done]. apply inv_pc, inv_flags, inv_X; [lia|]. apply inv_pc.
      eapply inv_callee; [exact I3|done..|]. intros k Hk. rewrite V0 by done. cbn.
      destruct (Z.eqb_spec k i) as [->|Hne]; [by rewrite fn_lookup_insert|]. rewrite fn_lookup_insert_ne by done. by apply (iv_vals _ _ I3).
    + intros (Z0 & W0 & V0). rewrite (proj2 (Z.eqb_neq _ _)) by done. split; [|done]. apply inv_pc, inv_flags, inv_X; [lia|]. apply inv_pc.
      eapply inv_callee; [exact I3|done..|]. intros k Hk. rewrite V0 by done. by apply (iv_vals _ _ I3).
Qed.

Lemma wp_gstore s r name b : inv s r -> 0 <= name < 2 ^ 64 -> 0 <= at_gstore < 2 ^ 64 -> 0 <= b < nvals L ->
  wp ([OrrReg 0 31 R_VM] ++ mov_imm64 1 name ++ [LdrD 0 R_VALS b] ++ mov_imm64 9 at_gstore ++ [Blr 9; SubsImmW 31 0 0]) s
    (fun s' => let (ok, w) := r_gstore name (vals r b) (wld r) in inv s' (set_wld w r) /\ fZ (flags s') = ok).
Proof.
  intros Hs Hn Hat Hb. cbn [app]. wp_go r. apply wp_imm; [done..|]. intros s1 O1.
  assert (I1 : inv s1 r) by (eapply inv_imm; [|exact O1|]; [lia|]; inv_solve).
  wp_go r. apply wp_imm; [done..|]. intros s3 O3.
  destruct (rt_gstore _ _ _ _ _ HR) as (f & Hc & Hf). eapply wp_call; [by rewrite (ox_val _ _ _ _ O3)|].
  assert (I3 : inv (set_X 30 (pc s3 + 4) s3) r) by (apply inv_X; [lia|]; eapply inv_imm; [|exact O3|]; [lia|]; inv_solve).
  destruct (Hf (set_X 30 (pc s3 + 4) s3) (sp_aligned _ _ I3)) as (Ab & V1 & V2 & V3 & ok & V4 & V5).
  - reads. rewrite (ox_ne _ _ _ _ O3) by done. reads. rewrite (ox_ne _ _ _ _ O1) by done. reads.
    rewrite Z.lor_0_l. apply (iv_vm _ _ Hs).
  - set (s4 := f _) in *. wp_go r. revert V4. reads. rewrite (ox_ne _ _ _ _ O3), (ox_d _ _ _ _ O3), (ox_world _ _ _ _ O3) by done. reads.
    rewrite (ox_val _ _ _ _ O1), (ox_world _ _ _ _ O1). reads. rewrite (iv_world _ _ Hs). intros ->.
    split; [apply inv_pc, inv_flags, inv_X, inv_pc; [lia|]; by eapply inv_callee_vals|].
    unfold xsp. cbn [Z.eqb Pos.eqb]. reads. rewrite subs_w_zero. destruct (Z.eqb_spec (u32 (X s4 0)) 0) as [E|N]; [symmetry; by apply V5|].
    destruct ok; [|done]. by destruct N; apply V5.
Qed.

Lemma subs_eq a b : 0 <= a < 2 ^ 64 -> 0 <= b < 2 ^ 64 -> fZ (subs_flags 64 a b) = (a =? b).
Proof.
  intros Ha Hb. unfold subs_flags. cbn [fZ]. destruct (Z.eqb_spec a b) as [->|N]; [by rewrite Z.sub_diag|].
  apply Z.eqb_neq. intros E. apply N. revert E. zdl.
Qed.

Lemma land_mask v : 0 <= Z.land v NB_MASK < 2 ^ 64.
Proof.
  split; [apply Z.land_nonneg; right; unfold NB_MASK; lia|].
  replace (Z.land v NB_MASK) with (Z.land v NB_MASK mod 2 ^ 64); [apply Z.mod_pos_bound; lia|].
  by rewrite <- Z.land_ones, <- Z.land_assoc by lia.
Qed.

Lemma wp_sload s r a : inv s r -> 0 <= a < nslots L ->
  wp ([LdrX 9 R_FS a] ++ mov_imm64 10 NB_MASK ++ [AndReg 11 9 10; SubsReg 31 11 10]) s
    (fun s' => inv s' r /\ X s' 9 = slots r a /\ fZ (flags s') = negb (is_number (slots r a))).
Proof.
  intros Hs Ha. cbn [app]. wp_go r. apply wp_imm; [done|unfold NB_MASK; lia|]. intros s1 O1.
  assert (I1 : inv s1 r) by (eapply inv_imm; [|exact O1|]; [lia|]; inv_solve). wp_go r.
  reads. rewrite (ox_ne _ _ _ _ O1), (ox_val _ _ _ _ O1) by done. reads. split; [inv_solve|]. split; [done|].
  rewrite subs_eq; [|apply land_mask|unfold NB_MASK; lia]. unfold is_number. by rewrite negb_involutive.
Qed.

Lemma wp_guard s r a : inv s r -> 0 <= a < nvals L ->
  wp [LdrD 0 R_VALS a; FCmpZero 0] s (fun s' => inv s' r /\ fZ (flags s') = is_zero (vals r a)).
Proof.
  intros Hs Ha. wp_go r. reads. split; [inv_solve|]. unfold is_zero. by destruct (f_cmp (vals r a) 0).
Qed.

Lemma wp_sstore_cmp s r b : inv s r -> 0 <= b < nvals L ->
  wp [LdrD 0 R_VALS b; FCmp 0 0] s (fun s' => inv s' r /\ Dr s' 0 = vals r b /\ fV (flags s') = is_nan (vals r b)).
Proof.
  intros Hs Hb. wp_go r. reads. split; [inv_solve|]. split; [done|]. unfold is_nan. by destruct (f_cmp (vals r b) (vals r b)).
Qed.

(** ** Entry and return *)
(** The state at the call: [CandoTraceStatus fn(vm, t, skip, frame_slots, vals)]. *)
Record entry r : Prop := {
  en_sp : SP s0 = stack_top L;
  en_args : X s0 0 = vmp /\ X s0 1 = tp /\ X s0 3 = slots_at L /\ X s0 4 = vals_at L;
  en_vals : forall i, 0 <= i < nvals L -> mem s0 (val_addr L i) = vals r i;
  en_slots : forall i, 0 <= i < nslots L -> mem s0 (slot_addr L i) = slots r i;
  en_world : world s0 = wld r;
}.

Lemma address_sp s k : SP s = stack_top L - 64 -> 0 <= k < 8 -> address s 31 (8 * k) = Some (stack_top L - 64 + 8 * k).
Proof.
  intros Hs Hk. pose proof (lo_stack _ HL) as [Hr Hm]. unfold address, xsp. cbn [Z.eqb Pos.eqb andb]. rewrite Hs.
  replace ((stack_top L - 64) mod 16) with 0 by (revert Hm; zdl). cbn [Z.eqb negb]. rewrite u64_small by lia.
  replace ((stack_top L - 64 + 8 * k) mod 8) with 0 by (revert Hm; zdl). done.
Qed.

Lemma wp_stp t1 t2 k l s Q : SP s = stack_top L - 64 -> 0 <= k < 7 ->
  wp l (set_pc (pc s + 4) (set_mem (stack_top L - 64 + 8 * k + 8) (xz s t2) (set_mem (stack_top L - 64 + 8 * k) (xz s t1) s))) Q ->
  wp (Stp t1 t2 31 k :: l) s Q.
Proof.
  intros Hs Hk. pose proof (lo_stack _ HL) as [Hr Hm]. apply wp_step. cbn [exec]. rewrite (address_sp s k Hs) by lia. cbn [mbind option_bind].
  by rewrite u64_small by lia.
Qed.

(** The seven saved words. *)
Definition saved s : Prop :=
  mem s (stack_top L - 64) = X s0 29 /\ mem s (stack_top L - 56) = X s0 30 /\
  mem s (stack_top L - 48) = X s0 19 /\ mem s (stack_top L - 40) = X s0 20 /\
  mem s (stack_top L - 32) = X s0 21 /\ mem s (stack_top L - 24) = X s0 22 /\ mem s (stack_top L - 16) = X s0 23.

Ltac slot_eq := first [rewrite fn_lookup_insert_ne by lia; slot_eq |
  match goal with |- <[?a := _]> _ ?b = _ => replace a with b by lia; rewrite fn_lookup_insert; reflexivity end].

Lemma wp_save l (Q : st W -> Prop) : SP s0 = stack_top L ->
  (forall s, SP s = stack_top L - 64 -> saved s -> X s = X s0 -> Dr s = Dr s0 -> world s = world s0 ->
     (forall a, ~ (stack_top L - 64 <= a < stack_top L) -> mem s a = mem s0 a) -> wp l s Q) ->
  wp ([SubImm 31 31 64; Stp 29 30 31 0; Stp 19 20 31 2; Stp 21 22 31 4; StrX 23 31 6] ++ l) s0 Q.
Proof.
  intros Hsp Hl. pose proof (lo_stack _ HL) as [Hr Hm]. cbn [app].
  apply wp_step with (s1 := set_pc (pc s0 + 4) (set_SP (stack_top L - 64) s0)).
  { cbn [exec xsp set_xsp Z.eqb Pos.eqb]. by rewrite Hsp, u64_small by lia. }
  apply wp_stp; [done|lia|]. apply wp_stp; [done|lia|]. apply wp_stp; [done|lia|].
  eapply wp_step; [cbn [exec]; rewrite address_sp by (done || lia); reflexivity|]. apply Hl; clear Hl; try reflexivity.
  - unfold saved. cbn [mem set_pc set_mem set_SP]. unfold xz. cbn [Z.eqb Pos.eqb X set_pc set_mem set_SP]. split_and!; slot_eq.
  - intros a Ha. cbn [mem set_pc set_mem set_SP]. by rewrite !fn_lookup_insert_ne by lia.
Qed.

Lemma wp_mov d n l s Q : d <> 31 -> n <> 31 -> (forall s1, only_x d (X s n) s s1 -> wp l s1 Q) -> wp (OrrReg d 31 n :: l) s Q.
Proof.
  intros Hd Hn Hl. eapply wp_step; [reflexivity|]. apply Hl. replace (Z.lor (xz s 31) (xz s n)) with (X s n); [by apply only_x_set|].
  unfold xz. by rewrite (proj2 (Z.eqb_neq n 31)) by done.
Qed.

Lemma wp_prologue r : entry r -> wp prologue s0 (fun s => inv s r).
Proof.
  intros [Hsp (A0 & A1 & A3 & A4) Hv Hsl Hw]. destruct addr_facts as (_ & _ & _ & F4 & F5).
  apply (wp_save [AddImm 29 31 0; OrrReg 19 31 0; OrrReg 20 31 1; OrrReg 23 31 2; OrrReg 21 31 3; OrrReg 22 31 4]); [done|].
  intros s Hs Sv Ex Ed Ew Em. eapply wp_step; [reflexivity|]. unfold set_xsp. cbn [Z.eqb Pos.eqb].
  pose proof (only_x_set 29 (u64 (xsp s 31 + 0)) s (pc (set_X 29 (u64 (xsp s 31 + 0)) s) + 4) ltac:(done)) as O1.
  set (s1 := set_pc _ _) in *. clearbody s1.
  apply wp_mov; [done..|]. intros s2 O2. apply wp_mov; [done..|]. intros s3 O3. apply wp_mov; [done..|]. intros s4 O4.
  apply wp_mov; [done..|]. intros s5 O5. apply wp_mov; [done..|]. intros s6 O6. apply wp_nil.
  assert (Hx : forall n, n < 19 \/ 24 <= n <= 28 -> X s6 n = X s0 n /\ X s5 n = X s0 n /\ X s4 n = X s0 n /\ X s3 n = X s0 n /\ X s2 n = X s0 n /\ X s1 n = X s0 n).
  { intros n Hn. rewrite (ox_ne _ _ _ _ O6), (ox_ne _ _ _ _ O5), (ox_ne _ _ _ _ O4), (ox_ne _ _ _ _ O3), (ox_ne _ _ _ _ O2), (ox_ne _ _ _ _ O1) by lia. by rewrite Ex. }
  assert (Hmem : mem s6 = mem s) by (destruct O1, O2, O3, O4, O5, O6; congruence).
  assert (Hd : Dr s6 = Dr s0) by (destruct O1, O2, O3, O4, O5, O6; congruence).
  destruct (Hx 0) as (_ & _ & _ & _ & _ & X0); [lia|]. destruct (Hx 1) as (_ & _ & _ & _ & X1 & _); [lia|].
  destruct (Hx 3) as (_ & _ & X3 & _); [lia|]. destruct (Hx 4) as (_ & X4 & _); [lia|]. split; rewrite ?Hmem, ?Hd.
  - destruct O1, O2, O3, O4, O5, O6; congruence.
  - rewrite (ox_ne _ _ _ _ O6), (ox_ne _ _ _ _ O5), (ox_ne _ _ _ _ O4), (ox_ne _ _ _ _ O3), (ox_val _ _ _ _ O2), X0 by lia. done.
  - rewrite (ox_ne _ _ _ _ O6), (ox_ne _ _ _ _ O5), (ox_ne _ _ _ _ O4), (ox_val _ _ _ _ O3), X1 by lia. done.
  - rewrite (ox_ne _ _ _ _ O6), (ox_val _ _ _ _ O5), X3 by lia. done.
  - rewrite (ox_val _ _ _ _ O6), X4. done.
  - intros i Hi. rewrite Em by (intros Hc; by apply (F4 i _ Hi Hc)). by apply Hv.
  - intros i Hi. rewrite Em by (intros Hc; by apply (F5 i _ Hi Hc)). by apply Hsl.
  - rewrite (ox_world _ _ _ _ O6), (ox_world _ _ _ _ O5), (ox_world _ _ _ _ O4), (ox_world _ _ _ _ O3), (ox_world _ _ _ _ O2), (ox_world _ _ _ _ O1). by rewrite Ew.
  - exact Sv.
  - intros n Hn. by apply Hx; right.
  - done.
Qed.

(** [s'] differs from [s] in the registers [t1] and [t2] and the program counter. *)
Lemma wp_ldp t1 t2 k l s Q : SP s = stack_top L - 64 -> 0 <= k < 7 -> t1 <> 31 -> t2 <> 31 -> t1 <> t2 ->
  (forall s', X s' t1 = mem s (stack_top L - 64 + 8 * k) -> X s' t2 = mem s (stack_top L - 64 + 8 * k + 8) ->
     (forall n, n <> t1 -> n <> t2 -> X s' n = X s n) -> SP s' = SP s -> Dr s' = Dr s -> mem s' = mem s -> world s' = world s -> wp l s' Q) ->
  wp (Ldp t1 t2 31 k :: l) s Q.
Proof.
  intros Hs Hk H31 H31' Hne Hl. pose proof (lo_stack _ HL) as [Hr Hm]. eapply wp_step.
  { cbn [exec]. rewrite (address_sp s k Hs) by lia. cbn [mbind option_bind]. rewrite u64_small by lia. reflexivity. }
  pose proof (only_x_set t1 (mem s (stack_top L - 64 + 8 * k)) s 0 H31) as O1.
  pose proof (only_x_set t2 (mem s (stack_top L - 64 + 8 * k + 8)) (set_X t1 (mem s (stack_top L - 64 + 8 * k)) s) 0 H31') as O2.
  apply Hl.
  - exact (eq_trans (ox_ne _ _ _ _ O2 t1 Hne) (ox_val _ _ _ _ O1)).
  - exact (ox_val _ _ _ _ O2).
  - intros n N1 N2. exact (eq_trans (ox_ne _ _ _ _ O2 n N2) (ox_ne _ _ _ _ O1 n N1)).
  - exact (eq_trans (ox_sp _ _ _ _ O2) (ox_sp _ _ _ _ O1)).
  - exact (eq_trans (ox_d _ _ _ _ O2) (ox_d _ _ _ _ O1)).
  - exact (eq_trans (ox_mem _ _ _ _ O2) (ox_mem _ _ _ _ O1)).
  - exact (eq_trans (ox_world _ _ _ _ O2) (ox_world _ _ _ _ O1)).
Qed.

(** Everything the caller wants back. *)
Record restored s s' : Prop := {
  re_sp : SP s' = stack_top L;
  re_x : forall n, 19 <= n <= 30 -> X s' n = X s0 n;
  re_ret : X s' 0 = X s 0;
  re_d : forall n, 8 <= n <= 15 -> Dr s' n = Dr s0 n;
  re_mem : mem s' = mem s;
  re_world : world s' = world s;
}.

Lemma wp_restore s r : inv s r -> wp [Ldp 29 30 31 0; Ldp 19 20 31 2; Ldp 21 22 31 4; LdrX 23 31 6; AddImm 31 31 64] s (restored s).
Proof.
  intros Hs. pose proof (lo_stack _ HL) as [Hr Hm]. destruct (iv_saved _ _ Hs) as (M29 & M30 & M19 & M20 & M21 & M22 & M23).
  apply wp_ldp; [apply Hs|lia|lia..|]. intros s1 A29 A30 N1 P1 D1 M1 W1.
  apply wp_ldp; [rewrite P1; apply Hs|lia|lia..|]. rewrite M1. intros s2 A19 A20 N2 P2 D2 M2 W2.
  apply wp_ldp; [rewrite P2, P1; apply Hs|lia|lia..|]. rewrite M2. intros s3 A21 A22 N3 P3 D3 M3 W3.
  assert (P : SP s3 = stack_top L - 64) by (rewrite P3, P2, P1; apply Hs).
  assert (N : forall n, n < 19 \/ 23 <= n <= 28 -> X s3 n = X s n) by (intros n Hn; rewrite N3, N2, N1 by lia; done).
  eapply wp_step; [cbn [exec]; rewrite (address_sp s3 6 P) by lia; reflexivity|].
  pose proof (only_x_set 23 (mem s3 (stack_top L - 64 + 8 * 6)) s3 (pc (set_X 23 (mem s3 (stack_top L - 64 + 8 * 6)) s3) + 4) ltac:(done)) as O4.
  set (s4 := set_pc _ _) in *. clearbody s4. rewrite M3 in O4. eapply wp_step; [reflexivity|]. apply wp_nil.
  unfold set_xsp, xsp. cbn [Z.eqb Pos.eqb]. split; cbn [SP X Dr mem world set_pc set_SP].
  - rewrite (ox_sp _ _ _ _ O4), P, u64_small by lia. lia.
  - intros n Hn. destruct (decide (n = 23)) as [->|Hne].
    { rewrite (ox_val _ _ _ _ O4), <- M23. f_equal. lia. }
    rewrite (ox_ne _ _ _ _ O4) by done. destruct (decide (24 <= n <= 28)) as [Hc|Hc]; [rewrite N by lia; by apply (iv_x _ _ Hs)|].
    assert (Hcase : n = 19 \/ n = 20 \/ n = 21 \/ n = 22 \/ n = 29 \/ n = 30) by lia.
    destruct Hcase as [->|[->|[->|[->|[->| ->]]]]].
    + rewrite N3, A19, <- M19 by lia. f_equal. lia.
    + rewrite N3, A20, <- M20 by lia. f_equal. lia.
    + rewrite A21, <- M21. f_equal. lia.
    + rewrite A22, <- M22. f_equal. lia.
    + rewrite N3, N2, A29, <- M29 by lia. f_equal. lia.
    + rewrite N3, N2, A30, <- M30 by lia. f_equal. lia.
  - rewrite (ox_ne _ _ _ _ O4), N by lia. done.
  - intros n Hn. rewrite (ox_d _ _ _ _ O4), D3, D2, D1. by apply (iv_d _ _ Hs).
  - rewrite (ox_mem _ _ _ _ O4). congruence.
  - rewrite (ox_world _ _ _ _ O4). congruence.
Qed.

(** ** Side exits *)
Lemma inv_callee_any s s' r : inv s r -> abi s s' -> same_frame s s' ->
  inv s' (mkIr (fun i => mem s' (val_addr L i)) (fun i => mem s' (slot_addr L i)) (world s')).
Proof.
  intros [] (A1 & A2 & A3) Hf. unfold same_frame in Hf. rewrite iv_sp0 in Hf. split; try done.
  - by rewrite A1.
  - by rewrite A2 by lia.
  - by rewrite A2 by lia.
  - by rewrite A2 by lia.
  - by rewrite A2 by lia.
  - by rewrite !Hf by lia.
  - intros n Hn. rewrite A2 by lia. by apply iv_x0.
  - intros n Hn. rewrite A3 by lia. by apply iv_d0.
Qed.

Lemma wp_replay s r sn : inv s r -> X s 9 = sn -> 0 <= sn < 2 ^ 16 -> 0 <= at_replay < 2 ^ 64 ->
  wp ([OrrReg 0 31 19; OrrReg 1 31 20; OrrReg 2 31 22; OrrReg 3 31 21; OrrReg 4 31 9] ++ mov_imm64 9 at_replay ++ [Blr 9; MovzW 0 1 0]) s
    (fun s' => X s' 0 = 1 /\ (exists r', inv s' r') /\
       let (sl, w) := r_replay sn (vals r) (slots r) (wld r) in
       world s' = w /\ forall i, 0 <= i < nslots L -> mem s' (slot_addr L i) = sl i).
Proof.
  intros Hs H9 Hsn Hat. cbn [app]. apply wp_mov; [done..|]. intros s1 O1. apply wp_mov; [done..|]. intros s2 O2.
  apply wp_mov; [done..|]. intros s3 O3. apply wp_mov; [done..|]. intros s4 O4. apply wp_mov; [done..|]. intros s5 O5.
  apply wp_imm; [done..|]. intros s6 O6. destruct (rt_replay _ _ _ _ _ HR) as (f & Hc & Hf).
  eapply wp_call; [by rewrite (ox_val _ _ _ _ O6)|].
  assert (I1 : inv s1 r) by (eapply inv_imm; [|exact O1|]; [lia|done]). assert (I2 : inv s2 r) by (eapply inv_imm; [|exact O2|]; [lia|done]).
  assert (I3 : inv s3 r) by (eapply inv_imm; [|exact O3|]; [lia|done]). assert (I4 : inv s4 r) by (eapply inv_imm; [|exact O4|]; [lia|done]).
  assert (I5 : inv s5 r) by (eapply inv_imm; [|exact O5|]; [lia|done]). assert (I6 : inv s6 r) by (eapply inv_imm; [|exact O6|]; [lia|done]).
  assert (I7 : inv (set_X 30 (pc s6 + 4) s6) r) by (apply inv_X; [lia|done]).
  assert (E : forall n, n < 19 -> n <> 9 -> X (set_X 30 (pc s6 + 4) s6) n = X s5 n).
  { intros n Hn Hn9. reads. rewrite fn_lookup_insert_ne by lia. by rewrite (ox_ne _ _ _ _ O6). }
  destruct (Hf (set_X 30 (pc s6 + 4) s6) r (sp_aligned _ _ I7)) as (Ab & Fr & Hpost).
  - rewrite E, (ox_ne _ _ _ _ O5), (ox_ne _ _ _ _ O4), (ox_ne _ _ _ _ O3), (ox_ne _ _ _ _ O2), (ox_val _ _ _ _ O1) by lia. apply Hs.
  - rewrite E, (ox_ne _ _ _ _ O5), (ox_ne _ _ _ _ O4), (ox_ne _ _ _ _ O3), (ox_val _ _ _ _ O2) by lia. apply I1.
  - rewrite E, (ox_ne _ _ _ _ O5), (ox_ne _ _ _ _ O4), (ox_val _ _ _ _ O3) by lia. apply I2.
  - rewrite E, (ox_ne _ _ _ _ O5), (ox_val _ _ _ _ O4) by lia. apply I3.
  - symmetry. apply (iv_world _ _ I7).
  - apply (iv_vals _ _ I7).
  - apply (iv_slots _ _ I7).
  - assert (H4 : u32 (X (set_X 30 (pc s6 + 4) s6) 4) = sn).
    { rewrite E, (ox_val _ _ _ _ O5), (ox_ne _ _ _ _ O4), (ox_ne _ _ _ _ O3), (ox_ne _ _ _ _ O2), (ox_ne _ _ _ _ O1), H9 by lia. apply u32_small. lia. }
    rewrite H4 in Hpost. set (s7 := f _) in *. pose proof (inv_callee_any _ _ _ I7 Ab Fr) as I8.
    eapply wp_step; [reflexivity|]. apply wp_nil. destruct (r_replay sn _ _ _) as [sl w]. destruct Hpost as [Hw Hsl].
    split; [by reads|]. split; [eexists; apply inv_pc, inv_X, inv_pc; [lia|exact I8]|]. reads. by split.
Qed.
End sim.
