(* ===== verification/JitDemo.v ===== *)
(** * A machine that runs compiled traces

    IEEE doubles by the Standard Library's specification of floating point, a
    CanDo side with one global, the functions compiled code calls, and a trace
    that counts a frame slot up: the setting in which the theorems of
    [JitProps] are applied. *)
From Stdlib Require Import SpecFloat.
From stdpp Require Import functions.
From S2P Require Import Prelude Bytes A64 JitMmu Jit JitEmit JitSem.

(** ** Doubles *)
Definition to_sf (x : Z) : spec_float :=
  let s := 2 ^ 63 <=? x in
  let e := x / 2 ^ 52 mod 2 ^ 11 in
  let m := x mod 2 ^ 52 in
  if e =? 0 then match m with Z.pos p => S754_finite s p (-1074) | _ => S754_zero s end
  else if e =? 2047 then if m =? 0 then S754_infinity s else S754_nan
  else match m + 2 ^ 52 with Z.pos p => S754_finite s p (e - 1075) | _ => S754_nan end.
Definition of_sf (f : spec_float) : Z :=
  let sign (s : bool) := if s then 2 ^ 63 else 0 in
  match f with
  | S754_zero s => sign s
  | S754_infinity s => sign s + 2047 * 2 ^ 52
  | S754_nan => 0x7FF8000000000000
  | S754_finite s m e => sign s + if Z.pos m <? 2 ^ 52 then Z.pos m else (e + 1075) * 2 ^ 52 + (Z.pos m - 2 ^ 52)
  end.

#[export] Instance binary64 : F64 := {
  f_add a b := of_sf (SFadd 53 1024 (to_sf a) (to_sf b));
  f_sub a b := of_sf (SFsub 53 1024 (to_sf a) (to_sf b));
  f_mul a b := of_sf (SFmul 53 1024 (to_sf a) (to_sf b));
  f_div a b := of_sf (SFdiv 53 1024 (to_sf a) (to_sf b));
  f_cmp a b := match SFcompare (to_sf a) (to_sf b) with
               | Some Lt => FLess | Some Eq => FEqual | Some Gt => FGreater | None => FUnordered
               end;
  f_of_int n := of_sf (binary_normalize 53 1024 n 0 false);
}.
#[export] Instance binary64_laws : F64Laws.
Proof. split; vm_compute; reflexivity. Qed.

(** ** The CanDo side *)
#[export] Instance demo_cando : Cando := {
  IRREF_IS_K k := 32768 <=? k;
  cando_is_number v := negb (Z.land v NB_MASK =? NB_MASK);
  cando_is_string v := Z.land v NB_MASK =? NB_MASK;
  cando_as_string v := Z.land v 0xFFFFFFFFFFFF;
  cando_mcode_alloc n m := if (0 <=? n) && (n <? 2 ^ 31) then Some (mkMcode 0x40001000 (replicate (Z.to_nat n) 0) 0) else None;
  cando_mcode_finalize m := Some m;
  cando_mcode_free m := m;
  at_fmod := 0x9000;
  at_gload := 0xA000;
  at_gstore := 0xB000;
  at_replay := 0xC000;
}.

(** The world is the value of the one global; replay puts value 1 into slot 0.
    The trace below calls neither [fmod] nor natives, for which simple functions
    stand. *)
#[export] Instance demo_runtime : Runtime Z := {
  r_fmod a b := of_sf (SFsub 53 1024 (to_sf a) (to_sf b));
  r_native fn a w := (a, w);
  r_gload name w := (if w =? 0 then None else Some w, w);
  r_gstore name v w := (true, v);
  r_replay sn v sl w := (<[0 := v 1]> sl, w + sn);
}.

Definition demo_layout : layout := mkLayout 0x1000 9 0x2000 4 0x4000.

Definition set_world (w : Z) (s : st Z) : st Z := mkSt (X s) (SP s) (Dr s) (flags s) (mem s) (pc s) w.
Definition demo_call (a : Z) : option (st Z -> st Z) :=
  if a =? 0x9000 then Some (fun s => set_D 0 (r_fmod (Dr s 0) (Dr s 1)) s)
  else if a =? 0xA000 then Some (fun s =>
    if world s =? 0 then set_X 0 1 s else set_X 0 0 (set_mem (X s 2) (world s) s))
  else if a =? 0xB000 then Some (fun s => set_world (Dr s 0) (set_X 0 0 s))
  else if a =? 0xC000 then Some (fun s => set_world (world s + u32 (X s 4)) (set_mem (X s 3) (mem s (X s 2 + 8)) s))
  else None.

Lemma demo_layout_ok : layout_ok demo_layout.
Proof. split; unfold disjoint; cbn; repeat split; try lia; reflexivity. Qed.

Lemma demo_store (s : st Z) a v : (0x1000 <= a < 0x1048 \/ 0x2000 <= a < 0x2020) -> at_call demo_layout s ->
  same_frame s (set_mem a v s).
Proof. intros Ha [Hs _] b Hb. cbn in *. rewrite fn_lookup_insert_ne; [done|]. rewrite Hs in Hb. lia. Qed.

Lemma abi_X0 (s : st Z) v : abi s (set_X 0 v s).
Proof. repeat split. intros n Hn. cbn. by rewrite fn_lookup_insert_ne by lia. Qed.

Lemma demo_runtime_ok : runtime_ok demo_call demo_layout None 0x100 0x200.
Proof.
  split.
  - eexists. split; [reflexivity|]. intros s _. repeat split. intros n Hn. cbn. by rewrite fn_lookup_insert_ne by lia.
  - done.
  - eexists. split; [reflexivity|]. intros s i Hc _ Hi H2. cbn. destruct (Z.eqb_spec (world s) 0) as [E|N].
    + split_and!; try done. apply abi_X0.
    + unfold val_addr in *. cbn in H2, Hi. rewrite H2. split_and!; try done.
      * apply abi_X0.
      * intros k Hk. unfold slot_addr. cbn in *. by rewrite fn_lookup_insert_ne by lia.
      * intros b Hb. exact (demo_store s (0x1000 + 8 * i) (world s) ltac:(lia) Hc b Hb).
      * intros k Hk. cbn. destruct (Z.eqb_spec k i) as [->|Hne]; [by rewrite fn_lookup_insert|by rewrite fn_lookup_insert_ne by lia].
  - eexists. split; [reflexivity|]. intros s _ _. split_and!; try done.
    + apply (abi_X0 s).
    + by exists true.
  - eexists. split; [reflexivity|]. intros s r Hc _ _ H2 H3 Hw Hv Hs. cbn in H2, H3. cbn. rewrite H3, Hw. split_and!; try done.
    + intros b Hb. exact (demo_store s 0x2000 (mem s (X s 2 + 8)) ltac:(lia) Hc b Hb).
    + intros i Hi. unfold slot_addr in *. cbn in *. destruct (decide (i = 0)) as [->|Hne].
      * rewrite !fn_lookup_insert. rewrite H2. apply (Hv 1). lia.
      * rewrite !fn_lookup_insert_ne by lia. by apply Hs.
Qed.

(** ** A trace *)
(** Slot 0 is increased by 1; the guard holds while it is below 10. *)
Definition demo_consts (k : Z) : Z := if k =? 32768 then 0x3FF0000000000000 else 0x4024000000000000.
Definition demo_ops : list IRIns :=
  let ins o a b := mkIns o IRT_NUM false a b in
  [ins IR_NOP 0 0; ins IR_SLOAD 0 0; ins IR_KNUM 32768 0; ins IR_ADD 1 2; ins IR_SSTORE 0 3;
   ins IR_KNUM 32769 0; ins IR_LT 3 5; ins IR_GUARD_TRUE 6 7; ins IR_LOOP 0 0].
Definition demo_trace : CandoTrace := mkTrace demo_ops demo_consts false (mkMcode 0 [] 0) None.

(** Called with slot 0 at 3. *)
Definition demo_state : st Z :=
  mkSt (fun n => match n with 0 => 0x100 | 1 => 0x200 | 3 => 0x2000 | 4 => 0x1000 | 30 => 0x7777 | _ => n end)
    0x4000 (fun _ => 0) (mkFlags false false false false) (<[0x2000 := 0x4008000000000000]> (fun _ => 0)) 0x40001000 5.
