(* ===== verification/JitProps.v ===== *)
(** * The just-in-time back end, correct

    Compiled code does what the trace means: one call of the emitted function
    runs one iteration on the values, the frame slots and the rest of the
    virtual machine as [ir_run] says, and returns to its caller with its
    registers restored.  The buffer the generator asks for is always large
    enough. *)
From stdpp Require Import functions.
From S2P Require Import Prelude Bytes A64 JitMmu Jit JitEmit JitSem JitSim JitDemo.

Lemma resolve_I ld st l : forall k j, resolve ld st k j (I <$> l) = l.
Proof. induction l as [|i l IH]; intros k j; cbn; [done|]. f_equal. apply IH. Qed.

Lemma resolve_app ld st a b : forall k j,
  resolve ld st k j (a ++ b) = resolve ld st k j a ++ resolve ld st (k + length a) (j + length (snaps a)) b.
Proof.
  induction a as [|[i|c s|] a IH]; intros k j; cbn; rewrite ?Nat.add_0_r; [done|..]; rewrite IH;
    repeat (f_equal; try lia).
Qed.

Lemma snaps_app a b : snaps (a ++ b) = snaps a ++ snaps b.
Proof. induction a as [|[] a IH]; cbn; [done|..]; by rewrite IH. Qed.
Lemma snaps_I l : snaps (I <$> l) = [].
Proof. by induction l. Qed.

(** Opens the code of an operation. *)
Ltac code_inv H := unfold cat, one, idx, imm, only in H; repeat (case_match; try discriminate H); simplify_option_eq.

(** Addresses and constants are 64-bit words. *)
Record words_ok `{Cando} (vm : option CandoVM) (cs : Z -> Z) : Prop := {
  wo_consts : forall k, 0 <= cs k < 2 ^ 64;
  wo_names : forall k, 0 <= cando_as_string (cs k) < 2 ^ 64;
  wo_natives : forall k fn, native vm k = Some fn -> 0 <= fn < 2 ^ 64;
  wo_helpers : 0 <= at_fmod < 2 ^ 64 /\ 0 <= at_gload < 2 ^ 64 /\ 0 <= at_gstore < 2 ^ 64 /\ 0 <= at_replay < 2 ^ 64;
}.

Local Arguments mov_imm64 : simpl never.

Section run.
Context {W : Type} `{F64} `{!F64Laws} `{Cando} `{Runtime W} (call : Z -> option (st W -> st W)).
Context (L : layout) (vm : option CandoVM) (cs : Z -> Z) (vmp tp : Z) (HL : layout_ok L) (HR : runtime_ok call L vm vmp tp).
Context (HW : words_ok vm cs) (base : Z) (code : list instr) (Hcode : Forall (fun i => encodable i = true) code).
Context (s0 : st W) (ld sb : nat).
Implicit Types s : st W.
Implicit Types r : irst W.
Abbreviation inv := (inv L vmp tp s0).
Abbreviation steps := (steps call base code).
Abbreviation code_at := (code_at code).
Abbreviation at_word := (fun (s : st W) (k : nat) => pc s = base + 4 * Z.of_nat k).

(** Where an operation at [k], with [j] guards before it, leaves the machine. *)
Definition lands (k j : nat) (its : list item) s (res : result W) : Prop :=
  match res with
  | Next r' => exists s', steps s s' /\ inv s' r' /\ at_word s' (k + length its)%nat
  | Exit sn r' => exists s' j', steps s s' /\ inv s' r' /\ snaps its !! j' = Some sn /\ at_word s' (sb + 2 * (j + j'))%nat
  | Done r' => exists s', steps s s' /\ inv s' r' /\ at_word s' ld
  | Unknown => False
  end.

Lemma lands_straight k j l s r' : code_at k l -> at_word s k -> forallb straight l = true ->
  wp call l s (fun s' => inv s' r') -> lands k j (I <$> l) s (Next r').
Proof.
  intros Hk Hpc Hs (s' & He & Hi). destruct (seq_steps call base code Hcode l s s' k Hk Hpc Hs He) as [Hst Hpc'].
  exists s'. by rewrite length_fmap.
Qed.

(** A conditional branch. *)
Lemma branch_steps k c d s : code !! k = Some (BCond c d) -> at_word s k ->
  exists s', steps s s' /\ pc s' = (if cond_holds c (flags s) then base + 4 * (Z.of_nat k + d) else base + 4 * Z.of_nat (S k)) /\
    X s' = X s /\ Dr s' = Dr s /\ (forall r, inv s r -> inv s' r).
Proof.
  intros Hk Hpc. eexists. split; [eapply steps_one; [exact Hcode|exact Hk|exact Hpc|reflexivity]|]. cbn. split; [|do 2 (split; [done|])].
  - rewrite Hpc. destruct (cond_holds c (flags s)); lia.
  - intros r Hr. by apply inv_pc.
Qed.

Lemma cond_EQ f : cond_holds CC_EQ f = fZ f.
Proof. done. Qed.
Lemma cond_NE f : cond_holds CC_NE f = negb (fZ f).
Proof. done. Qed.
Lemma cond_VC f : cond_holds CC_VC f = negb (fV f).
Proof. done. Qed.

(** Code up to a guard, and the code behind it where the guard holds. *)
Lemma lands_guard k j l c sn l2 s r1 r2 (Q : st W -> Prop) (b : bool) :
  code_at k (resolve ld sb k j ((I <$> l) ++ Guard c sn :: (I <$> l2))) -> at_word s k ->
  forallb straight l = true -> forallb straight l2 = true ->
  wp call l s (fun s' => inv s' r1 /\ Q s' /\ cond_holds c (flags s') = b) ->
  (forall s', inv s' r1 -> b = false -> (exists s1, Q s1 /\ X s' = X s1) -> wp call l2 s' (fun s'' => inv s'' r2)) ->
  lands k j ((I <$> l) ++ Guard c sn :: (I <$> l2)) s (if b then Exit sn r1 else Next r2).
Proof.
  intros Hk Hpc Hs Hs2 (s1 & He & I1 & Q1 & Hc) Hnext. rewrite resolve_app, resolve_I, snaps_I, length_fmap in Hk. cbn in Hk.
  rewrite Nat.add_0_r, resolve_I in Hk. apply code_at_app in Hk as [Hk Hg]. apply code_at_cons in Hg as [Hg Hk2].
  destruct (seq_steps call base code Hcode l s s1 k Hk Hpc Hs He) as [St1 P1].
  destruct (branch_steps _ _ _ s1 Hg P1) as (s2 & St2 & P2 & X2 & D2 & I2). rewrite Hc in P2. destruct b.
  - exists s2, 0%nat. split; [by eapply steps_trans|]. split; [by apply I2|]. rewrite snaps_app, snaps_I. split; [done|].
    rewrite P2. lia.
  - destruct (Hnext s2) as (s3 & E3 & I3); [by apply I2|done|by exists s1|].
    destruct (seq_steps call base code Hcode l2 s2 s3 _ Hk2 P2 Hs2 E3) as [St3 P3].
    exists s3. split; [eapply steps_trans; [exact St1|by eapply steps_trans]|]. split; [done|]. rewrite P3, length_app. cbn.
    rewrite !length_fmap. lia.
Qed.

(** The store of a slot: two ways to the same end. *)
Lemma lands_sstore k j slot b s r : 0 <= slot < nslots L -> 0 <= b < nvals L -> inv s r -> at_word s k ->
  let l := [LdrD 0 R_VALS b; FCmp 0 0; BCond CC_VC 5; Movz 9 0 0; Movk 9 0x7FF8 3; StrX 9 R_FS slot; B 2; StrD 0 R_FS slot] in
  code_at k l -> lands k j (I <$> l) s (Next (set_slot slot (number (vals r b)) r)).
Proof.
  intros Hsl Hb Hs Hpc l Hk. apply (code_at_app _ k [LdrD 0 R_VALS b; FCmp 0 0]) in Hk as [Hk1 Hk]. cbn [length] in Hk.
  apply code_at_cons in Hk as [Hbr Hk]. apply (code_at_app _ _ [Movz 9 0 0; Movk 9 0x7FF8 3; StrX 9 R_FS slot]) in Hk as [Hk2 Hk].
  apply code_at_cons in Hk as [Hjmp Hk3]. cbn [length] in *.
  destruct (wp_sstore_cmp call L vmp tp HL s0 s r b Hs Hb) as (s1 & E1 & I1 & D1 & V1).
  destruct (seq_steps call base code Hcode _ s s1 k Hk1 Hpc eq_refl E1) as [St1 P1].
  destruct (branch_steps _ _ _ s1 Hbr P1) as (s2 & St2 & P2 & X2 & D2 & I2). rewrite cond_VC, V1 in P2. unfold number.
  destruct (is_nan (vals r b)); cbn [negb] in P2.
  - destruct (wp_imm call 9 NB_CANON_NAN [StrX 9 R_FS slot] s2 (fun s' => inv s' (set_slot slot NB_CANON_NAN r)))
      as (s3 & E3 & I3); [done|unfold NB_CANON_NAN; lia| |].
    { intros s3 O3. assert (I3 : inv s3 r) by (eapply inv_imm; [|exact O3|]; [lia|by apply I2]).
      eapply (wp_str_slot call L vmp tp HL s0 9 slot [] s3 r); [exact I3|done|]. apply wp_nil. cbn. unfold xz. cbn [Z.eqb Pos.eqb].
      rewrite (ox_val _ _ _ _ O3). by apply inv_pc, inv_store_slot. }
    destruct (seq_steps call base code Hcode [Movz 9 0 0; Movk 9 0x7FF8 3; StrX 9 R_FS slot] s2 s3 _ Hk2 P2 eq_refl E3) as [St3 P3].
    eexists (set_pc _ s3). split; [eapply steps_trans; [exact St1|]; eapply steps_trans; [exact St2|]; eapply steps_trans; [exact St3|];
      eapply steps_one; [exact Hcode|exact Hjmp|exact P3|reflexivity]|]. split; [by apply inv_pc|]. cbn. rewrite P3. cbn. lia.
  - assert (P2' : pc s2 = base + 4 * Z.of_nat (S (S (k + 2) + 3))) by (rewrite P2; lia).
    destruct (wp_str_slot_d call L vmp tp HL s0 0 slot [] s2 r (fun s' => inv s' (set_slot slot (vals r b) r))) as (s3 & E3 & I3);
      [by apply I2|done| |].
    { apply wp_nil. assert (Hd : Dr s2 0 = vals r b) by (by rewrite D2). rewrite Hd. by apply inv_pc, inv_store_slot; [done|done|apply I2]. }
    destruct (seq_steps call base code Hcode [StrD 0 R_FS slot] s2 s3 _ Hk3 P2' eq_refl E3) as [St3 P3].
    exists s3. split; [eapply steps_trans; [exact St1|]; by eapply steps_trans|]. split; [done|]. rewrite P3. cbn. lia.
Qed.

Ltac straight_op Hc l :=
  match type of Hc with _ = Some ?its => assert (its = I <$> l) as -> by (rewrite ?fmap_app; code_inv Hc; reflexivity) end;
  rewrite resolve_I in *.

Lemma lands_arith k j o a b i its s r : 0 <= a < nvals L -> 0 <= b < nvals L -> 0 <= i < nvals L ->
  (idx a (LdrD 0 R_VALS a) ⊕ idx b (LdrD 1 R_VALS b) ⊕ match arith o with Some f => one f ⊕ idx i (StrD 0 R_VALS i) | None => None end) = Some its ->
  code_at k (resolve ld sb k j its) -> at_word s k -> inv s r -> lands k j its s (Next (set_val i (arith_op o (vals r a) (vals r b)) r)).
Proof.
  intros Ha Hb Hi Hc Hk Hpc Hs. destruct (arith o) as [f|] eqn:Ef; [|unfold cat in Hc; simplify_option_eq].
  straight_op Hc [LdrD 0 R_VALS a; LdrD 1 R_VALS b; f; StrD 0 R_VALS i].
  apply lands_straight; [done..| |by apply wp_arith]. by destruct o; simplify_eq/=.
Qed.

Lemma lands_compare k j o a b i its s r : 0 <= a < nvals L -> 0 <= b < nvals L -> 0 <= i < nvals L ->
  match compare_cond o with
  | Some c => idx a (LdrD 0 R_VALS a) ⊕ idx b (LdrD 1 R_VALS b) ⊕ one (FCmp 0 1) ⊕ one (CsincW 9 31 31 (Z.lxor c 1)) ⊕
      one (Scvtf 0 9) ⊕ idx i (StrD 0 R_VALS i)
  | None => None
  end = Some its ->
  code_at k (resolve ld sb k j its) -> at_word s k -> inv s r ->
  lands k j its s (Next (set_val i (f_bool (compare_op o (f_cmp (vals r a) (vals r b)))) r)).
Proof.
  intros Ha Hb Hi Hc Hk Hpc Hs. destruct (compare_cond o) as [c|] eqn:Ec; [|done].
  straight_op Hc [LdrD 0 R_VALS a; LdrD 1 R_VALS b; FCmp 0 1; CsincW 9 31 31 (Z.lxor c 1); Scvtf 0 9; StrD 0 R_VALS i].
  apply lands_straight; [done..|by apply wp_compare].
Qed.

Ltac guard_op Hc l c sn l2 :=
  match type of Hc with _ = Some ?its => assert (its = (I <$> l) ++ Guard c sn :: (I <$> l2)) as -> by
    (rewrite ?fmap_app; code_inv Hc; list_simplifier; reflexivity) end.

Lemma lands_test k j c a sn its s r : (c = CC_EQ \/ c = CC_NE) -> 0 <= a < nvals L ->
  (idx a (LdrD 0 R_VALS a) ⊕ one (FCmpZero 0) ⊕ Some [Guard c sn]) = Some its ->
  code_at k (resolve ld sb k j its) -> at_word s k -> inv s r ->
  lands k j its s (if (if c =? CC_EQ then is_zero (vals r a) else negb (is_zero (vals r a))) then Exit sn r else Next r).
Proof.
  intros Hcc Ha Hc Hk Hpc Hs. guard_op Hc [LdrD 0 R_VALS a; FCmpZero 0] c sn (@nil instr).
  eapply lands_guard with (Q := fun _ => True); [done..| |].
  - destruct (wp_guard call L vmp tp HL s0 s r a Hs Ha) as (s' & E & I' & Z'). exists s'. split; [done|]. split; [done|]. split; [done|].
    destruct Hcc as [->| ->]; [by rewrite cond_EQ|by rewrite cond_NE, Z'].
  - intros s' Hs' _ _. by apply wp_nil.
Qed.

Lemma lands_sload k j a i sn its s r : 0 <= a < nslots L -> 0 <= i < nvals L ->
  (idx a (LdrX 9 R_FS a) ⊕ imm 10 NB_MASK ⊕ one (AndReg 11 9 10) ⊕ one (SubsReg 31 11 10) ⊕ Some [Guard CC_EQ sn] ⊕ idx i (StrX 9 R_VALS i)) = Some its ->
  code_at k (resolve ld sb k j its) -> at_word s k -> inv s r ->
  lands k j its s (if is_number (slots r a) then Next (set_val i (slots r a) r) else Exit sn r).
Proof.
  intros Ha Hi Hc Hk Hpc Hs. guard_op Hc ([LdrX 9 R_FS a] ++ mov_imm64 10 NB_MASK ++ [AndReg 11 9 10; SubsReg 31 11 10]) CC_EQ sn [StrX 9 R_VALS i].
  assert (Hl : lands k j ((I <$> [LdrX 9 R_FS a] ++ mov_imm64 10 NB_MASK ++ [AndReg 11 9 10; SubsReg 31 11 10]) ++ Guard CC_EQ sn :: (I <$> [StrX 9 R_VALS i])) s
    (if negb (is_number (slots r a)) then Exit sn r else Next (set_val i (slots r a) r))).
  { eapply lands_guard with (Q := fun s' => X s' 9 = slots r a); [done|done|by rewrite !forallb_app, straight_imm|done| |].
    - destruct (wp_sload call L vmp tp HL s0 s r a Hs Ha) as (s' & E & I' & X' & Z'). exists s'. by rewrite cond_EQ.
    - intros s' Hs' _ (s1 & Hx & Ex). eapply (wp_str_x call L vmp tp HL s0 9 i [] s' r); [exact Hs'|done|]. apply wp_nil.
      unfold xz. cbn [Z.eqb Pos.eqb]. rewrite Ex, Hx. by apply inv_pc, inv_store_val. }
  by destruct (is_number (slots r a)).
Qed.

Lemma lands_gload k j name i sn its s r : 0 <= name < 2 ^ 64 -> 0 <= at_gload < 2 ^ 64 -> 0 <= i < nvals L ->
  (one (OrrReg 0 31 R_VM) ⊕ imm 1 name ⊕ imm 9 (u64 (i * 8)) ⊕ one (AddReg 2 R_VALS 9) ⊕
     imm 9 at_gload ⊕ one (Blr 9) ⊕ one (SubsImmW 31 0 0) ⊕ Some [Guard CC_NE sn]) = Some its ->
  code_at k (resolve ld sb k j its) -> at_word s k -> inv s r ->
  lands k j its s match r_gload name (wld r) with (Some v, w) => Next (set_val i v (set_wld w r)) | (None, w) => Exit sn (set_wld w r) end.
Proof.
  intros Hn Hat Hi Hc Hk Hpc Hs.
  guard_op Hc ([OrrReg 0 31 R_VM] ++ mov_imm64 1 name ++ mov_imm64 9 (u64 (i * 8)) ++ [AddReg 2 R_VALS 9] ++ mov_imm64 9 at_gload ++ [Blr 9; SubsImmW 31 0 0]) constr:(CC_NE) sn (@nil instr).
  destruct (wp_gload call L vm vmp tp HL HR s0 s r name i Hs Hn Hat Hi) as (s' & E & Hpost).
  destruct (r_gload name (wld r)) as [[v|] w]; destruct Hpost as [I' Z'].
  - eapply lands_guard with (Q := fun _ => True) (b := false); [done|done|by rewrite !forallb_app, !straight_imm|done| |].
    + exists s'. split; [exact E|]. split; [exact I'|]. split; [done|]. by rewrite cond_NE, Z'.
    + intros s'' Hs' _ _. by apply wp_nil.
  - eapply lands_guard with (Q := fun _ => True) (b := true) (r2 := r); [done|done|by rewrite !forallb_app, !straight_imm|done| |done].
    exists s'. split; [exact E|]. split; [exact I'|]. split; [done|]. by rewrite cond_NE, Z'.
Qed.

Lemma lands_gstore k j name b sn its s r : 0 <= name < 2 ^ 64 -> 0 <= at_gstore < 2 ^ 64 -> 0 <= b < nvals L ->
  (one (OrrReg 0 31 R_VM) ⊕ imm 1 name ⊕ idx b (LdrD 0 R_VALS b) ⊕
     imm 9 at_gstore ⊕ one (Blr 9) ⊕ one (SubsImmW 31 0 0) ⊕ Some [Guard CC_NE sn]) = Some its ->
  code_at k (resolve ld sb k j its) -> at_word s k -> inv s r ->
  lands k j its s (let (ok, w) := r_gstore name (vals r b) (wld r) in if ok then Next (set_wld w r) else Exit sn (set_wld w r)).
Proof.
  intros Hn Hat Hb Hc Hk Hpc Hs.
  guard_op Hc ([OrrReg 0 31 R_VM] ++ mov_imm64 1 name ++ [LdrD 0 R_VALS b] ++ mov_imm64 9 at_gstore ++ [Blr 9; SubsImmW 31 0 0]) constr:(CC_NE) sn (@nil instr).
  destruct (wp_gstore call L vm vmp tp HL HR s0 s r name b Hs Hn Hat Hb) as (s' & E & Hpost).
  destruct (r_gstore name (vals r b) (wld r)) as [[|] w]; destruct Hpost as [I' Z'].
  - eapply lands_guard with (Q := fun _ => True) (b := false); [done|done|by rewrite !forallb_app, !straight_imm|done| |].
    + exists s'. split; [exact E|]. split; [exact I'|]. split; [done|]. by rewrite cond_NE, Z'.
    + intros s'' Hs' _ _. by apply wp_nil.
  - eapply lands_guard with (Q := fun _ => True) (b := true) (r2 := r); [done|done|by rewrite !forallb_app, !straight_imm|done| |done].
    exists s'. split; [exact E|]. split; [exact I'|]. split; [done|]. by rewrite cond_NE, Z'.
Qed.

Lemma lands_const k j v i its s r : 0 <= v < 2 ^ 64 -> 0 <= i < nvals L -> (imm 9 v ⊕ idx i (StrX 9 R_VALS i)) = Some its ->
  code_at k (resolve ld sb k j its) -> at_word s k -> inv s r -> lands k j its s (Next (set_val i v r)).
Proof.
  intros Hv Hi Hc Hk Hpc Hs. straight_op Hc (mov_imm64 9 v ++ [StrX 9 R_VALS i]).
  apply lands_straight; [done..| |by apply wp_const]. by rewrite forallb_app, straight_imm.
Qed.

Lemma lands_calls k j ins i its s r : op ins = IR_MOD \/ op ins = IR_CALL_F1 -> ins_code vm cs ins i 0 = Some its -> ins_wf (nvals L) (nslots L) ins ->
  0 <= i < nvals L -> code_at k (resolve ld sb k j its) -> at_word s k -> inv s r -> lands k j its s (ir_ins vm cs ins i 0 r).
Proof.
  intros Hop Hc [[[Ha _] [Hb _]] Hwf] Hi Hk Hpc Hs. destruct (wo_helpers _ _ HW) as (Wf & _). unfold ins_code in Hc. unfold ir_ins.
  destruct Hop as [Eo|Eo]; rewrite Eo in *.
  - straight_op Hc ([LdrD 0 R_VALS (op1 ins); LdrD 1 R_VALS (op2 ins)] ++ mov_imm64 9 at_fmod ++ [Blr 9; StrD 0 R_VALS i]).
    apply lands_straight; [done..| |]; [by rewrite !forallb_app, straight_imm|].
    eapply wp_mod; [exact HL|exact HR|exact Hs|exact Wf|split; [done|apply Hwf]|split; [done|apply Hwf]|exact Hi].
  - destruct (native vm (op1 ins)) as [fn|] eqn:En; [|done].
    straight_op Hc ([LdrD 0 R_VALS (op2 ins)] ++ mov_imm64 9 fn ++ [Blr 9; StrD 0 R_VALS i]).
    assert (Hw : wp call ([LdrD 0 R_VALS (op2 ins)] ++ mov_imm64 9 fn ++ [Blr 9; StrD 0 R_VALS i]) s
      (fun s' => let (v, w) := r_native fn (vals r (op2 ins)) (wld r) in inv s' (set_val i v (set_wld w r)))).
    { eapply wp_native; [exact HL|exact HR|exact Hs|exact En|by eapply wo_natives|done|exact Hi]. }
    destruct (r_native fn _ _) as [v w]. apply lands_straight; [done..| |exact Hw]. by rewrite !forallb_app, straight_imm.
Qed.

Lemma lands_none k j s r : at_word s k -> inv s r -> lands k j [] s (Next r).
Proof. intros Hpc Hs. exists s. cbn. rewrite Nat.add_0_r. split; [apply steps_refl|done]. Qed.

Lemma lands_close k j s r : code_at k (resolve ld sb k j [Close]) -> at_word s k -> inv s r -> lands k j [Close] s (Done r).
Proof.
  intros Hk Hpc Hs. apply code_at_cons in Hk as [Hi _]. eexists (set_pc _ s).
  split; [eapply steps_one; [exact Hcode|exact Hi|exact Hpc|reflexivity]|]. split; [by apply inv_pc|]. cbn. rewrite Hpc. lia.
Qed.

(** One operation. *)
Lemma ins_lands k j ins i snap its s r : ins_code vm cs ins i snap = Some its -> ins_wf (nvals L) (nslots L) ins -> 0 <= i < nvals L ->
  code_at k (resolve ld sb k j its) -> at_word s k -> inv s r -> lands k j its s (ir_ins vm cs ins i snap r).
Proof.
  intros Hc Hwf Hi Hk Hpc Hs. destruct (wo_helpers _ _ HW) as (_ & Wl & Wst & _). pose proof (wo_names _ _ HW (op1 ins)) as Wn.
  assert (Hcall : op ins = IR_MOD \/ op ins = IR_CALL_F1 -> lands k j its s (ir_ins vm cs ins i snap r)).
  { intros Hop. assert (Hc' : ins_code vm cs ins i 0 = Some its) by (unfold ins_code in *; by destruct Hop as [Eo|Eo]; rewrite Eo in *).
    replace (ir_ins vm cs ins i snap r) with (ir_ins vm cs ins i 0 r); [by apply lands_calls|].
    unfold ir_ins. by destruct Hop as [Eo|Eo]; rewrite Eo. }
  destruct Hwf as [[[Ha _] [Hb _]] Hwf]. unfold ins_code in Hc. unfold ir_ins in *. destruct (op ins) eqn:Eo; try discriminate Hc.
  - injection Hc as <-. by apply lands_none.
  - injection Hc as <-. by apply lands_close.
  - destruct (IRREF_IS_K (op1 ins) && cando_is_number (cs (op1 ins))); [|done]. apply lands_const; [apply HW|done..].
  - replace (f_bool (negb (op1 ins =? 0))) with (if op1 ins =? 0 then 0 else D_ONE_BITS) by (by destruct (op1 ins =? 0)).
    apply lands_const; [destruct (op1 ins =? 0); lia|done..].
  - destruct (type ins); [|done]. by apply lands_sload.
  - destruct (sunk ins); [done|]. unfold sstore_code in Hc.
    straight_op Hc [LdrD 0 R_VALS (op2 ins); FCmp 0 0; BCond CC_VC 5; Movz 9 0 0; Movk 9 0x7FF8 3; StrX 9 R_FS (op1 ins); B 2; StrD 0 R_FS (op1 ins)].
    apply lands_sstore; [lia|lia|done..].
  - apply (lands_arith k j IR_ADD); [lia|lia|done..].
  - apply (lands_arith k j IR_SUB); [lia|lia|done..].
  - apply (lands_arith k j IR_MUL); [lia|lia|done..].
  - apply (lands_arith k j IR_DIV); [lia|lia|done..].
  - apply Hcall. auto.
  - straight_op Hc [LdrD 0 R_VALS (op1 ins); FNeg 0 0; StrD 0 R_VALS i]. apply lands_straight; [done..|]. by apply wp_neg.
  - apply (lands_compare k j IR_EQ); [lia|lia|done..].
  - apply (lands_compare k j IR_NEQ); [lia|lia|done..].
  - apply (lands_compare k j IR_LT); [lia|lia|done..].
  - apply (lands_compare k j IR_LE); [lia|lia|done..].
  - apply (lands_compare k j IR_GT); [lia|lia|done..].
  - apply (lands_compare k j IR_GE); [lia|lia|done..].
  - destruct (type ins); [|done]. destruct (_ && _) in Hc; [|done]. by apply lands_gload.
  - destruct (_ && _) in Hc; [|done]. by apply lands_gstore.
  - apply Hcall. auto.
  - injection Hc as <-. by apply lands_none.
  - by apply (lands_test k j CC_EQ); [left|..].
  - pose proof (lands_test k j CC_NE (op1 ins) (u16 (op2 ins)) its s r) as Ht. cbn in Ht. destruct (is_zero (vals r (op1 ins)));
      apply Ht; auto.
Qed.

(** A trace, from one of its operations to its end. *)
Lemma body_lands l : forall k j i snap its s r, body_code vm cs l i snap = Some its -> Forall (ins_wf (nvals L) (nslots L)) l ->
  0 <= i -> i + Z.of_nat (length l) <= nvals L -> code_at k (resolve ld sb k j its) -> (k + length its = ld)%nat -> at_word s k -> inv s r ->
  match ir_run vm cs l i snap r with Next _ => False | res => lands k j its s res end.
Proof.
  induction l as [|ins l IH]; intros k j i snap its s r Hc Hwf Hi Hn Hk Hld Hpc Hs; cbn [ir_run body_code] in *.
  - injection Hc as <-. exists s. split; [apply steps_refl|]. split; [done|]. cbn in Hld. by rewrite Nat.add_0_r in Hld; subst.
  - apply Forall_cons in Hwf as [Hw Hwf]. destruct (ins_code vm cs ins i snap) as [a|] eqn:Ea; [|done].
    destruct (body_code vm cs l (i + 1) (next_snap ins snap)) as [b|] eqn:Eb; [|done]. injection Hc as <-.
    rewrite resolve_app in Hk. apply code_at_app in Hk as [Hka Hkb]. rewrite length_resolve in Hkb. rewrite length_app in Hld. cbn in Hn.
    pose proof (ins_lands k j ins i snap a s r Ea Hw ltac:(lia) Hka Hpc Hs) as Hl.
    destruct (ir_ins vm cs ins i snap r) as [r1|sn r1|r1|]; cbn in Hl |- *.
    + destruct Hl as (s1 & St1 & I1 & P1). specialize (IH _ _ _ _ _ s1 r1 Eb Hwf ltac:(lia) ltac:(lia) Hkb ltac:(lia) P1 I1).
      destruct (ir_run vm cs l (i + 1) (next_snap ins snap) r1) as [|sn r2|r2|]; [done| | |done].
      * destruct IH as (s2 & j' & St2 & I2 & Sn & P2). exists s2, (length (snaps a) + j')%nat. rewrite snaps_app, lookup_app_r, Nat.add_comm, Nat.add_sub by lia.
        split; [by eapply steps_trans|]. split; [done|]. split; [done|]. rewrite P2. lia.
      * destruct IH as (s2 & St2 & I2 & P2). exists s2. split; [by eapply steps_trans|done].
    + destruct Hl as (s1 & j' & St1 & I1 & Sn & P1). exists s1, j'. split; [done|]. split; [done|]. split; [|done].
      rewrite snaps_app. by apply lookup_app_l_Some.
    + done.
    + done.
Qed.

(** ** Leaving the code *)
Definition returned s s' : Prop := restored L s0 s s' /\ pc s' = X s0 30.

Lemma epilogue_returns k s r : code_at k epilogue -> at_word s k -> inv s r -> exists s', steps s s' /\ returned s s'.
Proof.
  intros Hk Hpc Hs. apply (code_at_app _ k [Ldp 29 30 31 0; Ldp 19 20 31 2; Ldp 21 22 31 4; LdrX 23 31 6; AddImm 31 31 64] [Ret 30]) in Hk as [Hk1 Hk2].
  apply code_at_cons in Hk2 as [Hret _]. destruct (wp_restore call L vmp tp HL s0 s r Hs) as (s1 & E1 & R1).
  destruct (seq_steps call base code Hcode _ s s1 k Hk1 Hpc eq_refl E1) as [St1 P1].
  exists (set_pc (xz s1 30) s1). split; [eapply steps_trans; [exact St1|]; eapply steps_one; [exact Hcode|exact Hret|exact P1|reflexivity]|].
  split; [destruct R1; by split|]. cbn. apply (re_x _ _ _ _ R1). lia.
Qed.

Lemma done_returns s r : code_at ld (MovzW 0 0 0 :: epilogue) -> at_word s ld -> inv s r ->
  exists s', steps s s' /\ restored L s0 s' s' /\ pc s' = X s0 30 /\ X s' 0 = 0 /\ mem s' = mem s /\ world s' = world s.
Proof.
  intros Hk Hpc Hs. apply code_at_cons in Hk as [Hm Hk].
  pose proof (steps_one call base code Hcode s (set_pc (pc s + 4) (set_X 0 0 s)) ld _ Hm Hpc eq_refl) as St1.
  destruct (epilogue_returns (S ld) (set_pc (pc s + 4) (set_X 0 0 s)) r Hk) as (s' & St2 & R & P); [cbn; rewrite Hpc; lia|by apply inv_pc, inv_X; [lia|]|].
  exists s'. split; [by eapply steps_trans|]. split; [destruct R; by split|]. split; [done|]. split; [by rewrite (re_ret _ _ _ _ R)|].
  split; [by rewrite (re_mem _ _ _ _ R)|by rewrite (re_world _ _ _ _ R)].
Qed.

Lemma stub_at_code c ss : forall k j sn, code_at k (stubs c k ss) -> ss !! j = Some sn ->
  code !! (k + 2 * j)%nat = Some (MovzW 9 (Z.land sn 0xFFFF) 0) /\
  code !! S (k + 2 * j) = Some (B (Z.of_nat c - Z.of_nat (S (k + 2 * j)))).
Proof.
  induction ss as [|s ss IH]; intros k j sn Hk Hj; [done|]. cbn [stubs] in Hk. apply code_at_cons in Hk as [H3 Hk]. apply code_at_cons in Hk as [H4 Hk].
  destruct j as [|j]; cbn in Hj.
  - injection Hj as ->. by rewrite Nat.mul_0_r, Nat.add_0_r.
  - replace (k + 2 * S j)%nat with (S (S k) + 2 * j)%nat by lia. by apply IH.
Qed.

Lemma exit_returns c k j ss sn s r : 0 <= sn < 2 ^ 16 -> code_at k (stubs c k ss) -> ss !! j = Some sn -> code_at c common ->
  at_word s (k + 2 * j)%nat -> inv s r ->
  exists s', steps s s' /\ restored L s0 s' s' /\ pc s' = X s0 30 /\ X s' 0 = 1 /\
    let (sl, w) := r_replay sn (vals r) (slots r) (wld r) in
    world s' = w /\ forall i, 0 <= i < nslots L -> mem s' (slot_addr L i) = sl i.
Proof.
  intros Hsn Hk Hj Hc Hpc Hs. destruct (stub_at_code c ss k j sn Hk Hj) as [Hm Hb].
  replace (Z.land sn 0xFFFF) with sn in Hm by (change 0xFFFF with (Z.ones 16); rewrite Z.land_ones, Z.mod_small; lia).
  pose proof (steps_one call base code Hcode s (set_pc (pc s + 4) (set_X 9 sn s)) _ _ Hm Hpc) as St1. cbn [exec] in St1.
  rewrite Z.mul_1_r, pc_set_X in St1. specialize (St1 eq_refl). set (s1 := set_pc (pc s + 4) (set_X 9 sn s)) in *.
  assert (P1 : at_word s1 (S (k + 2 * j))) by (unfold s1; cbn; rewrite Hpc; lia).
  pose proof (steps_one call base code Hcode s1 _ _ _ Hb P1 eq_refl) as St2. set (s2 := set_pc _ s1) in St2.
  assert (P2 : at_word s2 c) by (unfold s2; cbn; rewrite Hpc; lia).
  assert (I2 : inv s2 r) by (unfold s2, s1; apply inv_pc, inv_pc, inv_X; [lia|done]).
  set (front := [OrrReg 0 31 19; OrrReg 1 31 20; OrrReg 2 31 22; OrrReg 3 31 21; OrrReg 4 31 9] ++ mov_imm64 9 at_replay ++ [Blr 9; MovzW 0 1 0]).
  assert (Ec : common = front ++ epilogue) by (unfold common, front; by rewrite <- !app_assoc). rewrite Ec in Hc.
  apply code_at_app in Hc as [Hc1 Hc2]. destruct (wo_helpers _ _ HW) as (_ & _ & _ & Wr).
  destruct (wp_replay call L vm vmp tp HL HR s0 s2 r sn I2) as (s3 & E3 & X3 & (r3 & I3) & Hpost); [by unfold s2, s1; reads|done|done|].
  destruct (seq_steps call base code Hcode front s2 s3 c Hc1 P2) as [St3 P3]; [unfold front; by rewrite !forallb_app, straight_imm|exact E3|].
  destruct (epilogue_returns _ s3 r3 Hc2 P3 I3) as (s4 & St4 & R4 & P4).
  exists s4. split; [eapply steps_trans; [exact St1|]; eapply steps_trans; [exact St2|]; by eapply steps_trans|].
  split; [destruct R4; by split|]. split; [done|]. split; [by rewrite (re_ret _ _ _ _ R4)|].
  destruct (r_replay sn _ _ _) as [sl w]. by rewrite (re_world _ _ _ _ R4), (re_mem _ _ _ _ R4).
Qed.
End run.

(** ** The image is code *)
Lemma resolve_ok ld sb n its : forall k j, Forall item_ok its -> (k + length its <= n)%nat -> (sb + 2 * (j + length (snaps its)) <= n)%nat -> (ld <= n)%nat ->
  Z.of_nat n <= 2 ^ 18 -> Forall (fun i => encodable i = true) (resolve ld sb k j its).
Proof.
  induction its as [|it its IH]; intros k j Hok Hk Hj Hld Hn; [constructor|]. apply Forall_cons in Hok as [Hit Hok]. cbn in Hk.
  destruct it as [i|c s|]; cbn [resolve snaps length] in *; constructor; try (apply IH; [done|lia..]); [done| |].
  - destruct Hit as [[->| ->] _]; cbn [encodable]; unfold within;
      rewrite !(proj2 (Z.leb_le _ _)), !(proj2 (Z.ltb_lt _ _)) by lia; done.
  - cbn [encodable]. unfold within. rewrite !(proj2 (Z.leb_le _ _)), !(proj2 (Z.ltb_lt _ _)) by lia. done.
Qed.

Lemma stubs_ok c n ss : forall k, (k + 2 * length ss <= n)%nat -> (c <= n)%nat -> Z.of_nat n <= 2 ^ 18 ->
  Forall (fun i => encodable i = true) (stubs c k ss).
Proof.
  induction ss as [|s ss IH]; intros k Hk Hc Hn; [constructor|]. cbn in Hk. cbn [stubs]. constructor; [|constructor; [|apply IH; lia]].
  - cbn [encodable]. unfold within. change 0xFFFF with (Z.ones 16). rewrite Z.land_ones by lia. pose proof (Z.mod_pos_bound s (2 ^ 16)).
    rewrite !(proj2 (Z.leb_le _ _)), !(proj2 (Z.ltb_lt _ _)) by lia. done.
  - cbn [encodable]. unfold within. rewrite !(proj2 (Z.leb_le _ _)), !(proj2 (Z.ltb_lt _ _)) by lia. done.
Qed.

Lemma image_ok `{Cando} its : Forall item_ok its -> Z.of_nat (length (image its)) <= 2 ^ 18 -> Forall (fun i => encodable i = true) (image its).
Proof.
  intros Hok Hn. pose proof (length_image its) as Hl. unfold image. rewrite !Forall_app. split_and!.
  - by repeat constructor.
  - apply (resolve_ok _ _ (length (image its))); unfold stub_at, loopdone_at; [done|lia..].
  - by repeat constructor.
  - by repeat constructor.
  - apply (stubs_ok _ (length (image its))); unfold common_at, stub_at, loopdone_at; lia.
  - unfold common. rewrite !Forall_app. split_and!; [by repeat constructor|by apply encodable_imm|by repeat constructor..].
Qed.

Lemma snaps_ok its j sn : Forall item_ok its -> snaps its !! j = Some sn -> 0 <= sn < 2 ^ 16.
Proof.
  revert j. induction its as [|[i|c s|] its IH]; intros j Hok Hj; cbn in *; [done|..]; apply Forall_cons in Hok as [Hit Hok]; [by eapply IH| |by eapply IH].
  destruct j as [|j]; cbn in Hj; [injection Hj as <-; apply Hit|by eapply IH].
Qed.

(** ** Room *)
Lemma length_imm d v : (length (mov_imm64 d v) <= 4)%nat.
Proof. unfold mov_imm64. repeat case_match; cbn; lia. Qed.

(** An operation and its stub take at most 24 words. *)
Lemma ins_code_room `{Cando} vm cs ins i s its : ins_code vm cs ins i s = Some its -> (length its + 2 * length (snaps its) <= 24)%nat.
Proof.
  intros Hc. unfold ins_code in Hc.
  destruct (op ins); cbn [arith compare_cond] in Hc; try discriminate Hc; unfold sstore_code in Hc; code_inv Hc; cbn [app snaps length];
    rewrite ?length_app, ?snaps_app, ?snaps_I; cbn [app snaps length];
    repeat (rewrite ?length_app, ?snaps_app, ?snaps_I, ?length_fmap; cbn [app snaps length]);
    repeat match goal with |- context [length (if ?b then ?u else ?v)] =>
      let n := fresh "n" in assert (length (if b then u else v) <= 1)%nat by (destruct b; cbn; lia);
      set (n := length (if b then u else v)) in *; clearbody n end; lia.
Qed.

Lemma body_code_room `{Cando} vm cs l : forall i s its, body_code vm cs l i s = Some its ->
  (length its + 2 * length (snaps its) <= 24 * length l)%nat.
Proof.
  induction l as [|ins l IH]; intros i s its Hc; cbn [body_code] in Hc; [injection Hc as <-; cbn; lia|].
  destruct (ins_code vm cs ins i s) as [a|] eqn:Ea; [|done]. destruct (body_code vm cs l (i + 1) (next_snap ins s)) as [b|] eqn:Eb; [|done].
  injection Hc as <-. rewrite length_app, snaps_app, length_app. pose proof (ins_code_room _ _ _ _ _ _ Ea). pose proof (IH _ _ _ Eb). cbn. lia.
Qed.

(** The estimate of [codegen_loop_trace]. *)
Lemma image_room `{Cando} vm cs l its : l <> [] -> body_code vm cs (drop 1 l) 1 0 = Some its ->
  4 * Z.of_nat (length (image its)) <= 512 + Z.of_nat (length l) * 96.
Proof.
  intros Hl Hc. apply body_code_room in Hc. rewrite length_drop in Hc. rewrite length_image.
  assert (Hcm : (length common <= 17)%nat) by (unfold common; rewrite !length_app; pose proof (length_imm 9 at_replay); cbn; lia).
  destruct l; [done|]. cbn [length] in *. lia.
Qed.

(** ** Whole runs *)
Fixpoint words_of (bs : list Z) : list Z :=
  match bs with b0 :: b1 :: b2 :: b3 :: bs => le_dec [b0; b1; b2; b3] :: words_of bs | _ => [] end.

Lemma words_of_code ws : Forall (fun w => 0 <= w < 2 ^ 32) ws -> words_of (code_bytes ws) = ws.
Proof.
  induction 1 as [|w ws Hw _ IH]; [done|]. change (code_bytes (w :: ws)) with (le_enc 4 w ++ code_bytes ws).
  pose proof (le_dec_enc 4 w) as Hd. cbn [le_enc app words_of] in *. f_equal; [|exact IH].
  rewrite Hd. by apply Z.mod_small.
Qed.

Section whole_run.
Context {W : Type} `{F64} `{!F64Laws} `{Cando} `{Runtime W} (call : Z -> option (st W -> st W)).
Context (L : layout) (vm : option CandoVM) (cs : Z -> Z) (vmp tp : Z) (HL : layout_ok L) (HR : runtime_ok call L vm vmp tp).
Context (HW : words_ok vm cs) (base : Z).

(** The caller's view of a call that started in [s0] and returned in [s]. *)
Record returns (s0 s : st W) : Prop := {
  ret_pc : pc s = X s0 30;
  ret_sp : SP s = SP s0;
  ret_x : forall n, 19 <= n <= 30 -> X s n = X s0 n;
  ret_d : forall n, 8 <= n <= 15 -> Dr s n = Dr s0 n;
}.

(** What the function returns in [w0] and leaves in memory. *)
Definition outcome_of (res : result W) (s : st W) : Prop :=
  match res with
  | Done r => X s 0 = 0 /\ world s = wld r /\
      (forall i, 0 <= i < nvals L -> mem s (val_addr L i) = vals r i) /\
      (forall i, 0 <= i < nslots L -> mem s (slot_addr L i) = slots r i)
  | Exit sn r => X s 0 = 1 /\
      let (sl, w) := r_replay sn (vals r) (slots r) (wld r) in
      world s = w /\ forall i, 0 <= i < nslots L -> mem s (slot_addr L i) = sl i
  | _ => False
  end.

Lemma image_at its : let code := image its in
  code_at code 0 prologue /\ code_at code 11 (resolve (loopdone_at its) (stub_at its 0) 11 0 its) /\
  code_at code (loopdone_at its) (MovzW 0 0 0 :: epilogue) /\
  code_at code (stub_at its 0) (stubs (common_at its) (stub_at its 0) (snaps its)) /\ code_at code (common_at its) common.
Proof.
  intros code. assert (Hat : code_at code 0 (image its)) by (exists [], []; by rewrite app_nil_r).
  unfold image in Hat. apply code_at_app in Hat as [C1 C]. change (0 + length prologue)%nat with 11%nat in C.
  apply code_at_app in C as [C2 C]. rewrite length_resolve in C. change (11 + length its)%nat with (loopdone_at its) in C.
  rewrite app_assoc in C. apply code_at_app in C as [C3 C].
  replace (loopdone_at its + length ([MovzW 0 0 0] ++ epilogue))%nat with (stub_at its 0) in C by (unfold stub_at; cbn; lia).
  apply code_at_app in C as [C4 C5]. rewrite length_stubs in C5.
  replace (stub_at its 0 + 2 * length (snaps its))%nat with (common_at its) in C5 by (unfold common_at, stub_at; lia). done.
Qed.

Lemma trace_runs l its s0 r : body_code vm cs (drop 1 l) 1 0 = Some its -> l <> [] -> Forall (ins_wf (nvals L) (nslots L)) (drop 1 l) ->
  Z.of_nat (length l) <= nvals L -> Z.of_nat (length (image its)) <= 2 ^ 18 -> Forall item_ok its ->
  entry L vmp tp s0 r -> pc s0 = base ->
  exists s, steps call base (image its) s0 s /\ returns s0 s /\ outcome_of (ir_run vm cs (drop 1 l) 1 0 r) s.
Proof.
  intros Hc Hl Hwf Hn Hlen Hok He Hpc. pose proof (image_ok its Hok Hlen) as Hcode. destruct (image_at its) as (C1 & C2 & C3 & C4 & C5).
  destruct (wp_prologue call L vmp tp HL s0 r He) as (s1 & E1 & I1).
  destruct (seq_steps call base _ Hcode prologue s0 s1 0 C1 ltac:(rewrite Hpc; lia) eq_refl E1) as [St1 P1].
  pose proof (body_lands call L vm cs vmp tp HL HR HW base _ Hcode s0 (loopdone_at its) (stub_at its 0) (drop 1 l) 11 0 1 0 its s1 r Hc Hwf
    ltac:(lia) ltac:(rewrite length_drop; destruct l; [done|cbn in *; lia]) C2 eq_refl P1 I1) as Hb.
  destruct (ir_run vm cs (drop 1 l) 1 0 r) as [|sn r'|r'|]; [done| | |done].
  - destruct Hb as (s2 & j & St2 & I2 & Sn & P2). rewrite Nat.add_0_l in P2.
    destruct (exit_returns call L vm cs vmp tp HL HR HW base _ Hcode s0 (common_at its) (stub_at its 0) j (snaps its) sn s2 r')
      as (s3 & St3 & [] & P3 & X3 & Ho); [by eapply snaps_ok|done..|].
    exists s3. split; [eapply steps_trans; [exact St1|]; by eapply steps_trans|]. split; [|done].
    split; [done|by rewrite re_sp, (en_sp _ _ _ _ _ He)|done..].
  - destruct Hb as (s2 & St2 & I2 & P2).
    destruct (done_returns call L vmp tp HL base _ Hcode s0 (loopdone_at its) s2 r' C3 P2 I2) as (s3 & St3 & [] & P3 & X3 & M3 & W3).
    exists s3. split; [eapply steps_trans; [exact St1|]; by eapply steps_trans|]. split.
    + split; [done|by rewrite re_sp, (en_sp _ _ _ _ _ He)|done..].
    + cbn. rewrite M3, W3. split; [done|]. split; [apply I2|]. split; apply I2.
Qed.
End whole_run.

(** ** Traces and their code *)
(** What the allocator of code memory keeps: a block is as long as asked for
    and away from the end of the address space, and [cando_mcode_finalize] leaves
    the bytes alone. *)
Record mcode_ok `{Cando} : Prop := {
  mo_alloc : forall n m m', cando_mcode_alloc n m = Some m' -> n <= Z.of_nat (length (mc_buf m')) < 2 ^ 31 /\
    0 <= mc_base m' /\ mc_base m' + Z.of_nat (length (mc_buf m')) + 2 ^ 17 <= 2 ^ 64;
  mo_finalize : forall m m', cando_mcode_finalize m = Some m' -> m' = m;
}.

(** Every operation has code, and there are at most 1024 guards and loop ends. *)
Definition supported `{Cando} (vm : option CandoVM) (t : CandoTrace) : Prop :=
  exists its, body_code vm (consts t) (drop 1 (ir t)) 1 0 = Some its /\
    (length (snaps its) <= 1024)%nat /\ (length (close_offs 11 its) <= 1024)%nat.

(** A loop trace within the reach of conditional branches. *)
Record loop_trace (t : CandoTrace) : Prop := {
  lt_loop : is_function_trace t = false;
  lt_new : mcode_fn t = None;
  lt_ops : ir t <> [] /\ Forall operands_ok (ir t);
  lt_short : 512 + Z.of_nat (length (ir t)) * 96 <= 2 ^ 20;
}.

#[export] Instance supported_dec `{Cando} vm t : Decision (supported vm t).
Proof.
  unfold supported. destruct (body_code vm (consts t) (drop 1 (ir t)) 1 0) as [its|]; [|right; by intros (its & ? & _)].
  destruct (decide (length (snaps its) <= 1024 /\ length (close_offs 11 its) <= 1024)%nat) as [Hy|Hn].
  - left. by exists its.
  - right. intros (its' & [= <-] & Hy). by apply Hn.
Defined.

Section traces.
Context `{Cando} (HM : mcode_ok) (vm : option CandoVM).

Lemma publish_returns fuel base len sy : 0 <= base -> 0 < len -> base + len + 2 ^ 17 <= 2 ^ 64 -> len < Z.of_nat fuel ->
  exists sy', publish fuel base len sy = (OK tt, sy').
Proof.
  intros Hb Hl He Hf. destruct (make_rwx_runs fuel base len sy) as (ps & s1 & Hm & _); [done..|].
  destruct (sync_icache_runs fuel base len (logged [DsbIsh; Isb] s1)) as (ds & vs & Hs & _); [done..|].
  eexists. unfold publish. bstep Hm. exact Hs.
Qed.

(** The code of a trace in a buffer of the estimated size. *)
Lemma codegen_trace_code t buffer : loop_trace t -> 512 + Z.of_nat (length (ir t)) * 96 <= Z.of_nat (length buffer) < 2 ^ 31 ->
  (supported vm t -> exists its g rest, body_code vm (consts t) (drop 1 (ir t)) 1 0 = Some its /\ Forall item_ok its /\
     codegen vm (consts t) (ir t) buffer = Some g /\ cur g = 4 * Z.of_nat (length (image its)) /\
     length (buf g) = length buffer /\ buf g = code_bytes (encode <$> image its) ++ rest) /\
  (~ supported vm t -> codegen vm (consts t) (ir t) buffer = None).
Proof.
  intros Ht Hb. destruct (lt_ops _ Ht) as [Hne Hops]. pose proof (codegen_code vm (length buffer) ltac:(lia) (consts t) (ir t) buffer eq_refl Hops) as Hc.
  pose proof (body_code_ok vm (consts t) (drop 1 (ir t)) 1 0 ltac:(by apply Forall_drop) ltac:(lia) ltac:(lia)) as Hok.
  unfold supported. destruct (body_code vm (consts t) (drop 1 (ir t)) 1 0) as [its|] eqn:Eb.
  - pose proof (image_room vm (consts t) (ir t) its Hne Eb) as Hr. destruct Hc as [Hy Hn]. split.
    + intros (its' & [= <-] & H1 & H2). destruct Hy as (g & rest & Hg & Hcur & Hlen & Hbuf); [split; [lia|done]|].
      exists its, g, rest. split; [done|]. split; [by apply Hok|done].
    + intros Hs. apply Hn. intros (_ & H1 & H2). destruct Hs. by exists its.
  - split; [by intros (its & ? & _)|done].
Qed.

(** The bytes of a buffer that holds an image. *)
Lemma words_of_image its rest : Forall item_ok its -> Z.of_nat (length (image its)) <= 2 ^ 18 ->
  words_of (take (Z.to_nat (u32 (4 * Z.of_nat (length (image its))))) (code_bytes (encode <$> image its) ++ rest)) = encode <$> image its.
Proof.
  intros Hok Hl. rewrite u32_small by lia.
  replace (Z.to_nat (4 * Z.of_nat (length (image its)))) with (length (code_bytes (encode <$> image its))) by (rewrite length_code_bytes, length_fmap; lia).
  rewrite take_app_length. apply words_of_code. apply Forall_fmap. eapply Forall_impl; [by apply image_ok|]. intros i Hi. by apply encode_range.
Qed.

(** A compiled trace: its entry point and the instructions there. *)
Lemma compiled_code fuel t t' sy sy' : loop_trace t ->
  cando_jit_codegen_trace fuel vm (Some t) sy = (OK (true, Some t'), sy') ->
  exists its base, body_code vm (consts t) (drop 1 (ir t)) 1 0 = Some its /\ Forall item_ok its /\ Z.of_nat (length (image its)) <= 2 ^ 18 /\
    mcode_fn t' = Some base /\ words_of (take (Z.to_nat (mc_written (t_mcode t'))) (mc_buf (t_mcode t'))) = encode <$> image its.
Proof.
  intros Ht Hr. destruct (lt_ops _ Ht) as [Hne Hops]. pose proof (lt_short _ Ht) as Hsh. unfold cando_jit_codegen_trace in Hr. rewrite (lt_loop _ Ht), (lt_new _ Ht) in Hr.
  binv Hr. unfold codegen_loop_trace in Hrun.
  rewrite (proj2 (Z.eqb_neq _ _)) in Hrun by (destruct (ir t); [done|cbn; lia]). cbv zeta in Hrun. rewrite u32_small in Hrun by lia.
  destruct (cando_mcode_alloc _ _) as [m|] eqn:Ea; [|by injection Hrun as <- <-]. destruct (mo_alloc HM _ _ _ Ea) as (Hs & Hb & He).
  destruct (codegen_trace_code t (mc_buf m) Ht Hs) as [Hy Hn].
  destruct (codegen vm (consts t) (ir t) (mc_buf m)) as [g|] eqn:Eg; [|by injection Hrun as <- <-].
  destruct (cando_mcode_finalize _) as [m'|] eqn:Ef; [|by injection Hrun as <- <-]. apply (mo_finalize HM) in Ef as ->.
  destruct (decide (supported vm t)) as [Hsup|Hno]; [|by specialize (Hn Hno)].
  destruct (Hy Hsup) as (its & g' & rest & Hits & Hok & Eg' & Hcur & Hlen & Hbuf). injection Eg' as <-.
  pose proof (image_room vm (consts t) (ir t) its Hne Hits) as Hroom.
  binv Hrun. injection Hrun as <- _. cbn in Hr. injection Hr as <- _. exists its, (mc_base m). cbn [mcode_fn t_mcode mc_written mc_buf with_mcode].
  split; [done|]. split; [done|]. split; [lia|]. split; [done|]. rewrite Hcur, Hbuf. apply words_of_image; [done|lia].
Qed.
End traces.

(** C2.  Compiled code does what the trace means.  When
    [cando_jit_codegen_trace] reports success, a call of the function it set,
    with the arguments of a trace call, any values and frame slots and any
    functions behind the addresses that keep their contracts, returns to its
    caller with the stack pointer and the callee-saved registers as they were.
    It returns 0 and leaves the values, the slots and the rest of the virtual
    machine as the iteration does, or 1 where a guard fails, with the guard's
    snapshot replayed. *)
Theorem jit_code_correct {W} `{F64} `{!F64Laws} `{Cando} `{Runtime W} fuel vm t t' sy sy' (call : Z -> option (st W -> st W)) L vmp tp s0 r :
  mcode_ok -> loop_trace t ->
  cando_jit_codegen_trace fuel vm (Some t) sy = (OK (true, Some t'), sy') ->
  layout_ok L -> runtime_ok call L vm vmp tp -> words_ok vm (consts t) ->
  Forall (ins_wf (nvals L) (nslots L)) (drop 1 (ir t)) -> Z.of_nat (length (ir t)) <= nvals L ->
  entry L vmp tp s0 r -> mcode_fn t' = Some (pc s0) ->
  exists n s, run call (pc s0) (words_of (take (Z.to_nat (mc_written (t_mcode t'))) (mc_buf (t_mcode t')))) n s0 = Some s /\
    returns s0 s /\ outcome_of L (ir_run vm (consts t) (drop 1 (ir t)) 1 0 r) s.
Proof.
  intros HM Ht Hr HL HR HW Hwf Hn He Hfn.
  destruct (compiled_code HM vm fuel t t' sy sy' Ht Hr) as (its & base & Hits & Hok & Hlen & Hfn' & ->).
  rewrite Hfn in Hfn'. injection Hfn' as <-. destruct (lt_ops _ Ht) as [Hne _].
  destruct (trace_runs call L vm (consts t) vmp tp HL HR HW (pc s0) (ir t) its s0 r) as (s & [n Hs] & Hret & Ho); [done..|].
  by exists n, s.
Qed.

(** C12.  The buffer is always large enough.  For a loop trace,
    [cando_jit_codegen_trace] ends; it reports success exactly when every
    operation has native code and there are at most 1024 guards and 1024 loop
    ends; and the code is never longer than the 512 bytes and 96 bytes per
    operation it asks for. *)
Theorem jit_compiles_supported `{Cando} fuel vm t m sy :
  mcode_ok -> loop_trace t -> 2 ^ 20 < Z.of_nat fuel ->
  cando_mcode_alloc (512 + Z.of_nat (length (ir t)) * 96) (t_mcode t) = Some m -> (forall m', cando_mcode_finalize m' <> None) ->
  exists b t' sy', cando_jit_codegen_trace fuel vm (Some t) sy = (OK (b, Some t'), sy') /\ (b = true <-> supported vm t) /\
    (b = true -> 0 < mc_written (t_mcode t') <= 512 + Z.of_nat (length (ir t)) * 96).
Proof.
  intros HM Ht Hf Ha Hfin. destruct (lt_ops _ Ht) as [Hne Hops]. pose proof (lt_short _ Ht) as Hsh.
  destruct (mo_alloc HM _ _ _ Ha) as (Hs & Hb & He). destruct (codegen_trace_code vm t (mc_buf m) Ht Hs) as [Hy Hn].
  unfold cando_jit_codegen_trace. rewrite (lt_loop _ Ht), (lt_new _ Ht). unfold codegen_loop_trace.
  rewrite (proj2 (Z.eqb_neq _ _)) by (destruct (ir t); [done|cbn; lia]). cbv zeta. rewrite u32_small, Ha by lia.
  destruct (decide (supported vm t)) as [Hsup|Hno].
  - destruct (Hy Hsup) as (its & g & rest & Hits & Hok & Hg & Hcur & Hlen & Hbuf). rewrite Hg.
    pose proof (image_room vm (consts t) (ir t) its Hne Hits) as Hroom. pose proof (length_image its) as Hli.
    destruct (cando_mcode_finalize _) as [m'|] eqn:Ef; [|by destruct (Hfin _ Ef)]. apply (mo_finalize HM) in Ef as ->.
    destruct (publish_returns fuel (mc_base m) (u32 (cur g)) sy) as (sy' & Hp); [lia|rewrite Hcur, u32_small; lia..|].
    eexists true, _, sy'. cbn [mc_base mc_written]. unfold bind. rewrite Hp. split; [reflexivity|]. split; [done|]. intros _. cbn.
    rewrite Hcur, u32_small; lia.
  - rewrite (Hn Hno). eexists false, _, sy. split; [reflexivity|]. split; [|done]. split; [done|by intros ?%Hno].
Qed.

(** ** The demonstration trace *)
Lemma demo_mcode_ok : mcode_ok.
Proof.
  split; [|by intros m m' [= <-]]. intros n m m' Hm. cbn in Hm. destruct (Z.leb_spec 0 n); [|done]. destruct (Z.ltb_spec n (2 ^ 31)); [|done].
  injection Hm as <-. cbn [mc_base mc_buf]. rewrite length_replicate. lia.
Qed.
Lemma demo_loop_trace : loop_trace demo_trace.
Proof. split; [done|done|split; [done|]|cbn; lia]. repeat constructor; cbn; lia. Qed.
Lemma demo_words_ok : words_ok None demo_consts.
Proof.
  split; [| |done|cbn; lia].
  - intros k. unfold demo_consts. case_match; lia.
  - intros k. cbn. unfold demo_consts. case_match; vm_compute; split; congruence.
Qed.
Definition demo_values : irst Z := mkIr (fun _ => 0) (<[0 := 0x4008000000000000]> (fun _ => 0)) 5.
Lemma demo_entry : entry demo_layout 0x100 0x200 demo_state demo_values.
Proof.
  split; [done|done| | |done].
  - intros i Hi. unfold val_addr. cbn in *. by rewrite fn_lookup_insert_ne by lia.
  - intros i Hi. unfold slot_addr. cbn in *. destruct (decide (i = 0)) as [->|Hne]; [done|]. by rewrite !fn_lookup_insert_ne by lia.
Qed.

Lemma jit_compiles_supported_witness :
  exists t' sy', cando_jit_codegen_trace (Pos.to_nat 1048577) None (Some demo_trace) demo_sys = (OK (true, Some t'), sy') /\
    mc_written (t_mcode t') <= 512 + 9 * 96.
Proof.
  destruct (jit_compiles_supported (Pos.to_nat 1048577) None demo_trace (mkMcode 0x40001000 (replicate 1376 0) 0) demo_sys)
    as (b & t' & sy' & Hr & Hb & Hw).
  - exact demo_mcode_ok.
  - exact demo_loop_trace.
  - lia.
  - reflexivity.
  - done.
  - assert (Hs : b = true) by (apply Hb; apply (bool_decide_unpack _); vm_compute; exact Logic.I).
    subst b. exists t', sy'. split; [exact Hr|]. apply Hw. reflexivity.
Defined.

(** The run of the generator on the trace, evaluated. *)
Lemma demo_run_ok : match cando_jit_codegen_trace 600 None (Some demo_trace) demo_sys with (OK (true, Some t'), _) => mcode_fn t' = Some 0x40001000 | _ => False end.
Proof. vm_compute. reflexivity. Qed.

Lemma jit_code_correct_witness : exists t' sy' n s,
  cando_jit_codegen_trace 600 None (Some demo_trace) demo_sys = (OK (true, Some t'), sy') /\
  run demo_call 0x40001000 (words_of (take (Z.to_nat (mc_written (t_mcode t'))) (mc_buf (t_mcode t')))) n demo_state = Some s /\
  pc s = 0x7777 /\ SP s = 0x4000 /\ X s 0 = 0 /\ mem s 0x2000 = 0x4010000000000000.
Proof.
  pose proof demo_run_ok as Hok. destruct (cando_jit_codegen_trace 600 None (Some demo_trace) demo_sys) as [o sy'] eqn:Er. destruct o as [[[] [t'|]]| | |]; try contradiction.
  destruct (jit_code_correct 600 None demo_trace t' demo_sys sy' demo_call demo_layout 0x100 0x200 demo_state demo_values)
    as (n & s & Hrun & [Hpc Hsp _ _] & Hout).
  - exact demo_mcode_ok.
  - exact demo_loop_trace.
  - exact Er.
  - exact demo_layout_ok.
  - exact demo_runtime_ok.
  - exact demo_words_ok.
  - repeat constructor; cbn; lia.
  - cbn. lia.
  - exact demo_entry.
  - exact Hok.
  - exists t', sy', n, s. split; [reflexivity|]. split; [exact Hrun|]. split; [exact Hpc|]. split; [exact Hsp|].
    assert (Hres : match ir_run None demo_consts (drop 1 demo_ops) 1 0 demo_values with Done r' => slots r' 0 = 0x4010000000000000 | _ => False end)
      by (vm_compute; reflexivity).
    change (consts demo_trace) with demo_consts in Hout. change (ir demo_trace) with demo_ops in Hout.
    destruct (ir_run None demo_consts (drop 1 demo_ops) 1 0 demo_values) as [|sn r'|r'|]; try contradiction.
    destruct Hout as (H0 & _ & _ & Hs). split; [exact H0|]. rewrite <- Hres. apply (Hs 0). cbn. lia.
Defined.
