(* ===== verification/Display.v ===== *)
(** * Drawing, [hal/display/display.c]

    The framebuffer the loader reported as a display: rectangles, lines,
    images, text and block moves on 32-bit pixels.  The state has the bound
    framebuffer and the memory behind it, as 32-bit words by address; an access
    outside of the framebuffer is stuck, and so is signed overflow. *)
From stdpp Require Import functions.
From S2P Require Import Prelude Bytes Boot.
Import Mb2.

Record disp : Type := mkDisp {
  g_fb : option canboot_fb; g_red_shift : Z; g_green_shift : Z; g_blue_shift : Z; vram : Z -> Z;
}.

(** [for (i = lo; i < hi; i++)]. *)
Fixpoint for_count {S : Type} (n : nat) (i : Z) (f : Z -> M S unit) : M S unit :=
  match n with
  | O => ret tt
  | Datatypes.S n => f i ;;! for_count n (i + 1) f
  end.
Definition for_range {S : Type} (lo hi : Z) (f : Z -> M S unit) : M S unit := for_count (Z.to_nat (hi - lo)) lo f.

(** A signed 32-bit result. *)
Definition int32 (x : Z) : M disp Z := if (- 2 ^ 31 <=? x) && (x <? 2 ^ 31) then ret x else stuck.

Definition canboot_display_bind (fb : option canboot_fb) (s : disp) : disp :=
  match fb with
  | Some f =>
      if negb (format f =? CANBOOT_FB_RGB) || negb (bpp f =? 32)
      then mkDisp None (g_red_shift s) (g_green_shift s) (g_blue_shift s) (vram s)
      else mkDisp (Some f) (red_mask_shift f) (green_mask_shift f) (blue_mask_shift f) (vram s)
  | None => mkDisp None (g_red_shift s) (g_green_shift s) (g_blue_shift s) (vram s)
  end.

Definition hal_display_width (s : disp) : Z := match g_fb s with Some fb => s32 (width fb) | None => 0 end.
Definition hal_display_height (s : disp) : Z := match g_fb s with Some fb => s32 (height fb) | None => 0 end.

(** The shift counts come from the loader; the C shifts are defined below 32. *)
Definition encode_pixel (s : disp) (rgb : Z) : Z :=
  let r := Z.land (Z.shiftr rgb 16) 0xFF in
  let g := Z.land (Z.shiftr rgb 8) 0xFF in
  let b := Z.land rgb 0xFF in
  Z.lor (Z.lor (u32 (Z.shiftl r (g_red_shift s))) (u32 (Z.shiftl g (g_green_shift s)))) (u32 (Z.shiftl b (g_blue_shift s))).

Definition decode_pixel (s : disp) (raw : Z) : Z :=
  let r := Z.land (Z.shiftr raw (g_red_shift s)) 0xFF in
  let g := Z.land (Z.shiftr raw (g_green_shift s)) 0xFF in
  let b := Z.land (Z.shiftr raw (g_blue_shift s)) 0xFF in
  Z.lor (Z.lor (Z.shiftl r 16) (Z.shiftl g 8)) b.

(** The address of [fb_row(y)[x]], and access to it. *)
Definition fb_row (fb : canboot_fb) (y : Z) : Z := u64 (addr fb + y * pitch fb).
Definition pixel_at (fb : canboot_fb) (x y : Z) : Z := fb_row fb y + 4 * x.
Definition inside (fb : canboot_fb) (a : Z) : bool := (addr fb <=? a) && (a + 4 <=? addr fb + pitch fb * height fb).
Definition poke (fb : canboot_fb) (y x raw : Z) : M disp unit := fun s =>
  let a := pixel_at fb x y in
  if inside fb a then (OK tt, mkDisp (g_fb s) (g_red_shift s) (g_green_shift s) (g_blue_shift s) (<[a := raw]> (vram s)))
  else (STUCK, s).
Definition peek (fb : canboot_fb) (y x : Z) : M disp Z := fun s =>
  let a := pixel_at fb x y in if inside fb a then (OK (vram s a), s) else (STUCK, s).

Definition outside (n lim : Z) : bool := (n <? 0) || (s32 lim <=? n).

Definition hal_display_clear (color : Z) : M disp unit :=
  let! s := get in
  match g_fb s with
  | None => ret tt
  | Some fb =>
      let raw := encode_pixel s color in
      for_range 0 (height fb) (fun y => for_range 0 (width fb) (fun x => poke fb (s32 y) x raw))
  end.

Definition hal_display_fill_rect (x0 y0 w h color : Z) : M disp unit :=
  let! s := get in
  match g_fb s with
  | None => ret tt
  | Some fb =>
      if (w <=? 0) || (h <=? 0) then ret tt
      else
        let! x1 := int32 (x0 + w) in
        let! y1 := int32 (y0 + h) in
        let x0 := if x0 <? 0 then 0 else x0 in
        let y0 := if y0 <? 0 then 0 else y0 in
        let x1 := if s32 (width fb) <? x1 then s32 (width fb) else x1 in
        let y1 := if s32 (height fb) <? y1 then s32 (height fb) else y1 in
        let raw := encode_pixel s color in
        for_range y0 y1 (fun y => for_range x0 x1 (fun x => poke fb y x raw))
  end.

Definition hal_display_pixel (x y color : Z) : M disp unit :=
  let! s := get in
  match g_fb s with
  | None => ret tt
  | Some fb =>
      if (x <? 0) || (y <? 0) || (s32 (width fb) <=? x) || (s32 (height fb) <=? y) then ret tt
      else poke fb y x (encode_pixel s color)
  end.

Definition hal_display_get_pixel (x y : Z) : M disp Z :=
  let! s := get in
  match g_fb s with
  | None => ret 0
  | Some fb =>
      if (x <? 0) || (y <? 0) || (s32 (width fb) <=? x) || (s32 (height fb) <=? y) then ret 0
      else let! raw := peek fb y x in ret (decode_pixel s raw)
  end.

(** The loop of the line, from the current point and error term. *)
Fixpoint line_loop (fuel : nat) (fb : canboot_fb) (raw x1 y1 dx dy sx sy x0 y0 err : Z) : M disp unit :=
  match fuel with
  | O => nofuel
  | S k =>
      (if outside x0 (width fb) || outside y0 (height fb) then ret tt else poke fb y0 x0 raw) ;;!
      if (x0 =? x1) && (y0 =? y1) then ret tt
      else
        let! e2 := int32 (2 * err) in
        let! xe := (if dy <=? e2 then let! e := int32 (err + dy) in let! x := int32 (x0 + sx) in ret (x, e) else ret (x0, err)) in
        let! ye := (if e2 <=? dx then let! e := int32 (xe.2 + dx) in let! y := int32 (y0 + sy) in ret (y, e) else ret (y0, xe.2)) in
        line_loop k fb raw x1 y1 dx dy sx sy xe.1 ye.1 ye.2
  end.

Definition hal_display_line (fuel : nat) (x0 y0 x1 y1 color : Z) : M disp unit :=
  let! s := get in
  match g_fb s with
  | None => ret tt
  | Some fb =>
      let! dx := int32 (if x0 <? x1 then x1 - x0 else x0 - x1) in
      let! dy := int32 (if y0 <? y1 then - (y1 - y0) else - (y0 - y1)) in
      let sx := if x0 <? x1 then 1 else -1 in
      let sy := if y0 <? y1 then 1 else -1 in
      let! err := int32 (dx + dy) in
      line_loop fuel fb (encode_pixel s color) x1 y1 dx dy sx sy x0 y0 err
  end.

Definition hal_display_image (x y w h : Z) (src : option (list Z)) : M disp unit :=
  let! s := get in
  match g_fb s, src with
  | Some fb, Some src =>
      if (w <=? 0) || (h <=? 0) then ret tt
      else for_range 0 h (fun row =>
        let! yy := int32 (y + row) in
        if outside yy (height fb) then ret tt
        else for_range 0 w (fun col =>
          let! xx := int32 (x + col) in
          if outside xx (width fb) then ret tt
          else
            let! i := int32 (row * w + col) in
            let! c := from_opt (src !! Z.to_nat i) in
            poke fb yy xx (encode_pixel s c)))
  | _, _ => ret tt
  end.

Definition hal_display_copy_rect (sx sy dx dy w h : Z) : M disp unit :=
  let! s := get in
  match g_fb s with
  | None => ret tt
  | Some fb =>
      if (w <=? 0) || (h <=? 0) then ret tt
      else
        let top_down := dy <=? sy in
        for_range 0 h (fun row =>
          let r := if top_down then row else h - 1 - row in
          let! sy_r := int32 (sy + r) in
          let! dy_r := int32 (dy + r) in
          if outside sy_r (height fb) then ret tt
          else if outside dy_r (height fb) then ret tt
          else
            let left_to_right := dx <=? sx in
            for_range 0 w (fun col =>
              let c := if left_to_right then col else w - 1 - col in
              let! sxc := int32 (sx + c) in
              let! dxc := int32 (dx + c) in
              if outside sxc (width fb) then ret tt
              else if outside dxc (width fb) then ret tt
              else let! raw := peek fb sy_r sxc in poke fb dy_r dxc raw))
  end.

Definition font8x8 : list (list Z) :=
  [[0x00; 0x00; 0x00; 0x00; 0x00; 0x00; 0x00; 0x00]; [0x18; 0x18; 0x18; 0x18; 0x00; 0x00; 0x18; 0x00]; [0x36; 0x36; 0x12; 0x00; 0x00; 0x00; 0x00; 0x00]; [0x36; 0x36; 0x7F; 0x36; 0x7F; 0x36; 0x36; 0x00];
   [0x18; 0x3E; 0x60; 0x3C; 0x06; 0x7C; 0x18; 0x00]; [0x46; 0x66; 0x30; 0x18; 0x0C; 0x66; 0x62; 0x00]; [0x38; 0x6C; 0x38; 0x76; 0xDC; 0xCC; 0x76; 0x00]; [0x06; 0x06; 0x03; 0x00; 0x00; 0x00; 0x00; 0x00];
   [0x18; 0x0C; 0x06; 0x06; 0x06; 0x0C; 0x18; 0x00]; [0x06; 0x0C; 0x18; 0x18; 0x18; 0x0C; 0x06; 0x00]; [0x00; 0x66; 0x3C; 0xFF; 0x3C; 0x66; 0x00; 0x00]; [0x00; 0x18; 0x18; 0x7E; 0x18; 0x18; 0x00; 0x00];
   [0x00; 0x00; 0x00; 0x00; 0x00; 0x18; 0x18; 0x0C]; [0x00; 0x00; 0x00; 0x7E; 0x00; 0x00; 0x00; 0x00]; [0x00; 0x00; 0x00; 0x00; 0x00; 0x18; 0x18; 0x00]; [0x60; 0x30; 0x18; 0x0C; 0x06; 0x03; 0x01; 0x00];
   [0x3C; 0x66; 0x76; 0x7E; 0x6E; 0x66; 0x3C; 0x00]; [0x18; 0x1C; 0x18; 0x18; 0x18; 0x18; 0x7E; 0x00]; [0x3C; 0x66; 0x60; 0x30; 0x0C; 0x06; 0x7E; 0x00]; [0x3C; 0x66; 0x60; 0x38; 0x60; 0x66; 0x3C; 0x00];
   [0x30; 0x38; 0x3C; 0x36; 0x7E; 0x30; 0x30; 0x00]; [0x7E; 0x06; 0x06; 0x3E; 0x60; 0x66; 0x3C; 0x00]; [0x3C; 0x06; 0x06; 0x3E; 0x66; 0x66; 0x3C; 0x00]; [0x7E; 0x60; 0x30; 0x18; 0x0C; 0x0C; 0x0C; 0x00];
   [0x3C; 0x66; 0x66; 0x3C; 0x66; 0x66; 0x3C; 0x00]; [0x3C; 0x66; 0x66; 0x7C; 0x60; 0x60; 0x3C; 0x00]; [0x00; 0x18; 0x18; 0x00; 0x00; 0x18; 0x18; 0x00]; [0x00; 0x18; 0x18; 0x00; 0x00; 0x18; 0x18; 0x0C];
   [0x30; 0x18; 0x0C; 0x06; 0x0C; 0x18; 0x30; 0x00]; [0x00; 0x00; 0x7E; 0x00; 0x7E; 0x00; 0x00; 0x00]; [0x0C; 0x18; 0x30; 0x60; 0x30; 0x18; 0x0C; 0x00]; [0x3C; 0x66; 0x60; 0x30; 0x18; 0x00; 0x18; 0x00];
   [0x3C; 0x66; 0x76; 0x76; 0x06; 0x06; 0x3C; 0x00]; [0x3C; 0x66; 0x66; 0x7E; 0x66; 0x66; 0x66; 0x00]; [0x3E; 0x66; 0x66; 0x3E; 0x66; 0x66; 0x3E; 0x00]; [0x3C; 0x66; 0x06; 0x06; 0x06; 0x66; 0x3C; 0x00];
   [0x1E; 0x36; 0x66; 0x66; 0x66; 0x36; 0x1E; 0x00]; [0x7E; 0x06; 0x06; 0x1E; 0x06; 0x06; 0x7E; 0x00]; [0x7E; 0x06; 0x06; 0x1E; 0x06; 0x06; 0x06; 0x00]; [0x3C; 0x66; 0x06; 0x76; 0x66; 0x66; 0x7C; 0x00];
   [0x66; 0x66; 0x66; 0x7E; 0x66; 0x66; 0x66; 0x00]; [0x3C; 0x18; 0x18; 0x18; 0x18; 0x18; 0x3C; 0x00]; [0x78; 0x30; 0x30; 0x30; 0x30; 0x36; 0x1C; 0x00]; [0x66; 0x36; 0x1E; 0x0E; 0x1E; 0x36; 0x66; 0x00];
   [0x06; 0x06; 0x06; 0x06; 0x06; 0x06; 0x7E; 0x00]; [0x66; 0x7E; 0x7E; 0x6E; 0x66; 0x66; 0x66; 0x00]; [0x66; 0x6E; 0x7E; 0x76; 0x66; 0x66; 0x66; 0x00]; [0x3C; 0x66; 0x66; 0x66; 0x66; 0x66; 0x3C; 0x00];
   [0x3E; 0x66; 0x66; 0x3E; 0x06; 0x06; 0x06; 0x00]; [0x3C; 0x66; 0x66; 0x66; 0x66; 0x3C; 0x60; 0x00]; [0x3E; 0x66; 0x66; 0x3E; 0x1E; 0x36; 0x66; 0x00]; [0x3C; 0x66; 0x06; 0x3C; 0x60; 0x66; 0x3C; 0x00];
   [0x7E; 0x18; 0x18; 0x18; 0x18; 0x18; 0x18; 0x00]; [0x66; 0x66; 0x66; 0x66; 0x66; 0x66; 0x3C; 0x00]; [0x66; 0x66; 0x66; 0x66; 0x66; 0x3C; 0x18; 0x00]; [0x66; 0x66; 0x66; 0x6E; 0x7E; 0x7E; 0x66; 0x00];
   [0x66; 0x66; 0x3C; 0x18; 0x3C; 0x66; 0x66; 0x00]; [0x66; 0x66; 0x66; 0x3C; 0x18; 0x18; 0x18; 0x00]; [0x7E; 0x60; 0x30; 0x18; 0x0C; 0x06; 0x7E; 0x00]; [0x3C; 0x0C; 0x0C; 0x0C; 0x0C; 0x0C; 0x3C; 0x00];
   [0x03; 0x06; 0x0C; 0x18; 0x30; 0x60; 0x40; 0x00]; [0x3C; 0x30; 0x30; 0x30; 0x30; 0x30; 0x3C; 0x00]; [0x18; 0x3C; 0x66; 0x00; 0x00; 0x00; 0x00; 0x00]; [0x00; 0x00; 0x00; 0x00; 0x00; 0x00; 0x00; 0xFF];
   [0x0C; 0x18; 0x30; 0x00; 0x00; 0x00; 0x00; 0x00]; [0x00; 0x00; 0x3C; 0x60; 0x7C; 0x66; 0x7C; 0x00]; [0x06; 0x06; 0x3E; 0x66; 0x66; 0x66; 0x3E; 0x00]; [0x00; 0x00; 0x3C; 0x06; 0x06; 0x06; 0x3C; 0x00];
   [0x60; 0x60; 0x7C; 0x66; 0x66; 0x66; 0x7C; 0x00]; [0x00; 0x00; 0x3C; 0x66; 0x7E; 0x06; 0x3C; 0x00]; [0x70; 0x18; 0x3C; 0x18; 0x18; 0x18; 0x18; 0x00]; [0x00; 0x00; 0x7C; 0x66; 0x66; 0x7C; 0x60; 0x3C];
   [0x06; 0x06; 0x3E; 0x66; 0x66; 0x66; 0x66; 0x00]; [0x18; 0x00; 0x18; 0x18; 0x18; 0x18; 0x18; 0x00]; [0x60; 0x00; 0x60; 0x60; 0x60; 0x60; 0x66; 0x3C]; [0x06; 0x06; 0x36; 0x1E; 0x36; 0x66; 0x66; 0x00];
   [0x18; 0x18; 0x18; 0x18; 0x18; 0x18; 0x18; 0x00]; [0x00; 0x00; 0x66; 0x7E; 0x7E; 0x6E; 0x66; 0x00]; [0x00; 0x00; 0x3E; 0x66; 0x66; 0x66; 0x66; 0x00]; [0x00; 0x00; 0x3C; 0x66; 0x66; 0x66; 0x3C; 0x00];
   [0x00; 0x00; 0x3E; 0x66; 0x66; 0x3E; 0x06; 0x06]; [0x00; 0x00; 0x7C; 0x66; 0x66; 0x7C; 0x60; 0x60]; [0x00; 0x00; 0x3E; 0x66; 0x06; 0x06; 0x06; 0x00]; [0x00; 0x00; 0x7C; 0x06; 0x3C; 0x60; 0x3E; 0x00];
   [0x18; 0x18; 0x3C; 0x18; 0x18; 0x18; 0x18; 0x00]; [0x00; 0x00; 0x66; 0x66; 0x66; 0x66; 0x7C; 0x00]; [0x00; 0x00; 0x66; 0x66; 0x66; 0x3C; 0x18; 0x00]; [0x00; 0x00; 0x66; 0x6E; 0x7E; 0x7E; 0x66; 0x00];
   [0x00; 0x00; 0x66; 0x3C; 0x18; 0x3C; 0x66; 0x00]; [0x00; 0x00; 0x66; 0x66; 0x66; 0x7C; 0x60; 0x3C]; [0x00; 0x00; 0x7E; 0x30; 0x18; 0x0C; 0x7E; 0x00]; [0x18; 0x0C; 0x0C; 0x06; 0x0C; 0x0C; 0x18; 0x00];
   [0x18; 0x18; 0x18; 0x18; 0x18; 0x18; 0x18; 0x00]; [0x18; 0x30; 0x30; 0x60; 0x30; 0x30; 0x18; 0x00]; [0x00; 0x00; 0x76; 0xDC; 0x00; 0x00; 0x00; 0x00];
   [0; 0; 0; 0; 0; 0; 0; 0]].

Definition draw_glyph (s : disp) (fb : canboot_fb) (gl : list Z) (x y fg bg : Z) : M disp unit :=
  for_range 0 8 (fun row =>
    let! yy := int32 (y + row) in
    if outside yy (height fb) then ret tt
    else
      let! bits := from_opt (gl !! Z.to_nat row) in
      for_range 0 8 (fun col =>
        let! xx := int32 (x + col) in
        if outside xx (width fb) then ret tt
        else poke fb yy xx (encode_pixel s (if Z.testbit bits col then fg else bg)))).

(** The characters of a string; [x] moves on by 8 for each, drawn or not. *)
Fixpoint draw_text (s : disp) (fb : canboot_fb) (str : list Z) (x y fg bg : Z) : M disp unit :=
  match str with
  | [] => ret tt
  | c :: str =>
      (if (c <? 0x20) || (0x7E <? c) then ret tt
       else let! gl := from_opt (font8x8 !! Z.to_nat (c - 0x20)) in draw_glyph s fb gl x y fg bg) ;;!
      let! x := int32 (x + 8) in
      draw_text s fb str x y fg bg
  end.

Definition hal_display_text (x y : Z) (str : option (list Z)) (fg bg : Z) : M disp unit :=
  let! s := get in
  match g_fb s, str with
  | Some fb, Some str => draw_text s fb str x y fg bg
  | _, _ => ret tt
  end.

(** The early framebuffer driver of [kernel/fb.c], on raw pixels. *)
Definition fb_drawable (fb : canboot_fb) : bool := negb (addr fb =? 0) && (format fb =? CANBOOT_FB_RGB) && (bpp fb =? 32).

Definition fb_clear (fb : option canboot_fb) (pixel : Z) : M disp unit :=
  match fb with
  | None => ret tt
  | Some fb =>
      if negb (fb_drawable fb) then ret tt
      else for_range 0 (height fb) (fun y => for_range 0 (width fb) (fun x => poke fb y x pixel))
  end.

Definition fb_fill_rect (fb : option canboot_fb) (x0 y0 w h pixel : Z) : M disp unit :=
  match fb with
  | None => ret tt
  | Some fb =>
      if negb (fb_drawable fb) then ret tt
      else if (w <=? 0) || (h <=? 0) then ret tt
      else
        let! x1 := int32 (x0 + w) in
        let! y1 := int32 (y0 + h) in
        let x0 := if x0 <? 0 then 0 else x0 in
        let y0 := if y0 <? 0 then 0 else y0 in
        let x1 := if s32 (width fb) <? x1 then s32 (width fb) else x1 in
        let y1 := if s32 (height fb) <? y1 then s32 (height fb) else y1 in
        for_range y0 y1 (fun y => for_range x0 x1 (fun x => poke fb y x pixel))
  end.
