(* ===== verification/DisplayPaint.v ===== *)
(** * What drawing changes

    The screen as a function of the point, what a call paints over it, and the
    areas, images, texts and single pixels of [Display] as such functions. *)
From stdpp Require Import functions.
From S2P Require Import Prelude Bytes Boot Display.
Import Mb2.

(** ** Painting *)
Record fb_ok (fb : canboot_fb) : Prop := {
  fo_addr : 0 <= addr fb /\ addr fb + pitch fb * height fb <= 2 ^ 64;
  fo_size : 0 <= width fb < 2 ^ 31 /\ 0 <= height fb < 2 ^ 31;
  fo_pitch : 4 * width fb <= pitch fb;
}.

Definition visible (fb : canboot_fb) (x y : Z) : Prop := 0 <= x < width fb /\ 0 <= y < height fb.

(** What the screen shows at a point. *)
Definition shown (fb : canboot_fb) (s : disp) (x y : Z) : Z := vram s (pixel_at fb x y).

(** [s'] is [s] with the colours [f] painted over it, and no other memory
    written. *)
Record painted (fb : canboot_fb) (f : Z -> Z -> option Z) (s s' : disp) : Prop := {
  pa_config : g_fb s' = g_fb s /\ g_red_shift s' = g_red_shift s /\ g_green_shift s' = g_green_shift s /\ g_blue_shift s' = g_blue_shift s;
  pa_in : forall x y, visible fb x y -> shown fb s' x y = default (shown fb s x y) (f x y);
  pa_out : forall a, (forall x y, visible fb x y -> a <> pixel_at fb x y) -> vram s' a = vram s a;
}.

Lemma painted_ext fb f g s s' : (forall x y, visible fb x y -> f x y = g x y) -> painted fb f s s' -> painted fb g s s'.
Proof. intros Hfg [C I O]. split; [done| |done]. intros x y Hv. rewrite <- Hfg by done. by apply I. Qed.

Lemma painted_none fb s : painted fb (fun _ _ => None) s s.
Proof. by split. Qed.

Lemma painted_over fb f g s s1 s2 : painted fb f s s1 -> painted fb g s1 s2 ->
  painted fb (fun x y => match g x y with Some c => Some c | None => f x y end) s s2.
Proof.
  intros [(C1 & C2 & C3 & C4) I1 O1] [(D1 & D2 & D3 & D4) I2 O2]. split; [split_and!; congruence| |].
  - intros x y Hv. rewrite I2, I1 by done. by destruct (g x y).
  - intros a Ha. by rewrite O2, O1.
Qed.

Lemma encode_painted fb f s s' c : painted fb f s s' -> encode_pixel s' c = encode_pixel s c.
Proof. intros [(_ & C2 & C3 & C4) _ _]. unfold encode_pixel. by rewrite C2, C3, C4. Qed.

Lemma pixel_at_eq fb x y : fb_ok fb -> visible fb x y -> pixel_at fb x y = addr fb + y * pitch fb + 4 * x.
Proof. intros [A S P] [Hx Hy]. unfold pixel_at, fb_row. rewrite u64_small; [done|]. nia. Qed.

Lemma pixel_at_inj fb x y x' y' : fb_ok fb -> visible fb x y -> visible fb x' y' -> pixel_at fb x y = pixel_at fb x' y' -> x = x' /\ y = y'.
Proof.
  intros Hfb Hv Hv'. rewrite !pixel_at_eq by done. destruct Hfb as [A S P], Hv as [Hx Hy], Hv' as [Hx' Hy']. intros E.
  assert (y = y') as -> by nia. split; lia.
Qed.

Definition dot (x y c : Z) (x' y' : Z) : option Z := if (x' =? x) && (y' =? y) then Some c else None.

Lemma inside_visible fb x y : fb_ok fb -> visible fb x y -> inside fb (pixel_at fb x y) = true.
Proof.
  intros Hfb Hv. unfold inside. rewrite pixel_at_eq by done. destruct Hfb as [A S P], Hv as [Hx Hy].
  rewrite !(proj2 (Z.leb_le _ _)) by nia. done.
Qed.

Lemma poke_paints fb x y c s : fb_ok fb -> visible fb x y -> exists s', poke fb y x c s = (OK tt, s') /\ painted fb (dot x y c) s s'.
Proof.
  intros Hfb Hv. unfold poke. rewrite inside_visible by done. eexists. split; [done|]. split; [done| |].
  - intros x' y' Hv'. unfold shown, dot. cbn. destruct (Z.eqb_spec x' x) as [->|Hx]; cbn; [destruct (Z.eqb_spec y' y) as [->|Hy]; cbn|].
    + apply fn_lookup_insert.
    + rewrite fn_lookup_insert_ne; [done|]. intros E. apply Hy. by destruct (pixel_at_inj _ _ _ _ _ Hfb Hv Hv' E).
    + rewrite fn_lookup_insert_ne; [done|]. intros E. apply Hx. by destruct (pixel_at_inj _ _ _ _ _ Hfb Hv Hv' E).
  - intros a Ha. cbn. rewrite fn_lookup_insert_ne; [done|]. intros E. by apply (Ha x y Hv).
Qed.

Lemma peek_shown fb x y s : fb_ok fb -> visible fb x y -> peek fb y x s = (OK (shown fb s x y), s).
Proof. intros Hfb Hv. unfold peek. by rewrite inside_visible. Qed.

(** A loop whose rounds paint different points: [key] tells the round. *)
Lemma for_count_paints fb (body : Z -> M disp unit) (F : Z -> Z -> Z -> option Z) (key : Z -> Z -> Z) (P : disp -> Prop) n : forall lo s,
  (forall k s, lo <= k < lo + Z.of_nat n -> P s -> exists s', body k s = (OK tt, s') /\ painted fb (F k) s s' /\ P s') ->
  (forall k x y c, F k x y = Some c -> key x y = k) -> P s ->
  exists s', for_count n lo body s = (OK tt, s') /\ P s' /\
    painted fb (fun x y => if (lo <=? key x y) && (key x y <? lo + Z.of_nat n) then F (key x y) x y else None) s s'.
Proof.
  induction n as [|n IH]; intros lo s Hb Hk HP; cbn [for_count].
  - exists s. split; [done|]. split; [done|]. eapply painted_ext; [|apply painted_none]. intros x y _.
    destruct (Z.leb_spec lo (key x y)); cbn; [|done]. by rewrite (proj2 (Z.ltb_ge _ _)) by lia.
  - destruct (Hb lo s) as (s1 & H1 & P1 & HP1); [lia|done|]. bstep H1.
    destruct (IH (lo + 1) s1) as (s2 & H2 & HP2 & P2); [intros k s' Hk'; apply Hb; lia|done|done|].
    exists s2. split; [done|]. split; [done|]. eapply painted_ext; [|exact (painted_over _ _ _ _ _ _ P1 P2)].
    intros x y _. cbn beta. destruct (F lo x y) as [c|] eqn:E.
    + apply Hk in E as E'. rewrite E'. rewrite (proj2 (Z.leb_gt _ _)), (proj2 (Z.leb_le _ _)), (proj2 (Z.ltb_lt lo (lo + Z.of_nat (S n)))) by lia. cbn. by rewrite E.
    + destruct (decide (key x y = lo)) as [->|Hne].
      * rewrite (proj2 (Z.leb_gt _ _)), (proj2 (Z.leb_le _ _)), (proj2 (Z.ltb_lt lo (lo + Z.of_nat (S n)))) by lia. cbn. by rewrite E.
      * replace (lo + 1 <=? key x y) with (lo <=? key x y) by (destruct (Z.leb_spec lo (key x y)), (Z.leb_spec (lo + 1) (key x y)); lia).
        replace (key x y <? lo + 1 + Z.of_nat n) with (key x y <? lo + Z.of_nat (S n)) by (f_equal; lia). destruct (_ && _); [by destruct (F (key x y) x y)|done].
Qed.

(** ** Areas *)
Definition in_rect (x0 y0 w h x y : Z) : bool := (x0 <=? x) && (x <? x0 + w) && (y0 <=? y) && (y <? y0 + h).

Lemma int32_ok x s : - 2 ^ 31 <= x < 2 ^ 31 -> int32 x s = (OK x, s).
Proof. intros Hx. unfold int32. by rewrite (proj2 (Z.leb_le _ _)), (proj2 (Z.ltb_lt _ _)) by lia. Qed.

Lemma s32_id x : - 2 ^ 31 <= x < 2 ^ 31 -> s32 x = x.
Proof. intros Hx. unfold s32. rewrite Z.mod_small; lia. Qed.

Lemma outside_spec n lim : 0 <= lim < 2 ^ 31 -> outside n lim = negb ((0 <=? n) && (n <? lim)).
Proof.
  intros Hl. unfold outside. rewrite s32_id by lia.
  destruct (Z.leb_spec 0 n), (Z.ltb_spec n lim), (Z.ltb_spec n 0), (Z.leb_spec lim n); done || lia.
Qed.

(** Decides comparisons of integers that appear as booleans in the goal. *)
Ltac zbool :=
  repeat match goal with
  | |- context [?a <=? ?b] => destruct (Z.leb_spec a b)
  | |- context [?a <? ?b] => destruct (Z.ltb_spec a b)
  | |- context [?a =? ?b] => destruct (Z.eqb_spec a b)
  end.

Section areas.
Context (fb : canboot_fb) (Hfb : fb_ok fb).
Abbreviation anything := (fun _ : disp => True).

(** Columns [a] to [b] of row [y], each in the colour [c x]. *)
Lemma row_paints a b y (body : Z -> M disp unit) (c : Z -> option Z) s : 0 <= y < height fb ->
  (forall x s, a <= x < b -> exists s', body x s = (OK tt, s') /\
     painted fb (fun x' y' => if (x' =? x) && (y' =? y) then c x else None) s s') ->
  exists s', for_range a b body s = (OK tt, s') /\
    painted fb (fun x' y' => if (a <=? x') && (x' <? b) && (y' =? y) then c x' else None) s s'.
Proof.
  intros Hy Hb. unfold for_range.
  destruct (for_count_paints fb body (fun x x' y' => if (x' =? x) && (y' =? y) then c x else None) (fun x _ => x) anything (Z.to_nat (b - a)) a s)
    as (s' & Hr & _ & Hp); [|..|done|].
  - intros k s1 Hk _. destruct (Hb k s1) as (s2 & H2 & P2); [lia|]. by exists s2.
  - intros k x' y' c' Hc. destruct (Z.eqb_spec x' k); [done|]. done.
  - exists s'. split; [done|]. eapply painted_ext; [|exact Hp]. intros x' y' _. cbn beta. zbool; cbn; try done; lia.
Qed.

(** Rows [a] to [b], each painted over the columns [l] to [r]. *)
Lemma rows_paint a b l r (body : Z -> M disp unit) (c : Z -> Z -> option Z) s :
  (forall y s, a <= y < b -> exists s', body y s = (OK tt, s') /\
     painted fb (fun x' y' => if (l <=? x') && (x' <? r) && (y' =? y) then c x' y else None) s s') ->
  exists s', for_range a b body s = (OK tt, s') /\
    painted fb (fun x' y' => if (l <=? x') && (x' <? r) && (a <=? y') && (y' <? b) then c x' y' else None) s s'.
Proof.
  intros Hb. unfold for_range.
  destruct (for_count_paints fb body (fun y x' y' => if (l <=? x') && (x' <? r) && (y' =? y) then c x' y else None) (fun _ y => y) anything (Z.to_nat (b - a)) a s)
    as (s' & Hr & _ & Hp); [|..|done|].
  - intros k s1 Hk _. destruct (Hb k s1) as (s2 & H2 & P2); [lia|]. by exists s2.
  - intros k x' y' c' Hc. destruct (Z.eqb_spec y' k); [done|]. by rewrite andb_false_r in Hc.
  - exists s'. split; [done|]. eapply painted_ext; [|exact Hp]. intros x' y' _. cbn beta. zbool; cbn; try done; lia.
Qed.

Lemma clear_paints c s : g_fb s = Some fb -> exists s', hal_display_clear c s = (OK tt, s') /\
  painted fb (fun _ _ => Some (encode_pixel s c)) s s'.
Proof.
  intros Hs. destruct (fo_size _ Hfb) as [Hw Hh]. unfold hal_display_clear. unfold bind at 1. cbn [get]. rewrite Hs.
  destruct (rows_paint 0 (height fb) 0 (width fb) (fun y => for_range 0 (width fb) (fun x => poke fb (s32 y) x (encode_pixel s c)))
    (fun _ _ => Some (encode_pixel s c)) s) as (s' & Hr & Hp).
  - intros y s1 Hy. rewrite s32_id by lia. apply row_paints; [lia|]. intros x s2 Hx. by apply poke_paints.
  - exists s'. split; [done|]. eapply painted_ext; [|exact Hp]. intros x y [Hx Hy]. cbn beta. zbool; cbn; try done; lia.
Qed.

Lemma fb_clear_paints c s : fb_drawable fb = true -> exists s', fb_clear (Some fb) c s = (OK tt, s') /\ painted fb (fun _ _ => Some c) s s'.
Proof.
  intros Hd. unfold fb_clear. rewrite Hd.
  destruct (rows_paint 0 (height fb) 0 (width fb) (fun y => for_range 0 (width fb) (fun x => poke fb y x c)) (fun _ _ => Some c) s) as (s' & Hr & Hp).
  - intros y s1 Hy. apply row_paints; [lia|]. intros x s2 Hx. by apply poke_paints.
  - exists s'. split; [done|]. eapply painted_ext; [|exact Hp]. intros x y [Hx Hy]. cbn beta. zbool; cbn; try done; lia.
Qed.

Lemma fill_rect_paints x0 y0 w h c s : g_fb s = Some fb ->
  - 2 ^ 31 <= x0 -> - 2 ^ 31 <= y0 -> x0 + w < 2 ^ 31 -> y0 + h < 2 ^ 31 ->
  exists s', hal_display_fill_rect x0 y0 w h c s = (OK tt, s') /\
    painted fb (fun x y => if in_rect x0 y0 w h x y then Some (encode_pixel s c) else None) s s'.
Proof.
  intros Hs Hx0 Hy0 Hx1 Hy1. destruct (fo_size _ Hfb) as [Hw Hh]. unfold hal_display_fill_rect. unfold bind at 1. cbn [get]. rewrite Hs.
  destruct (Z.leb_spec w 0); cbn [orb].
  { exists s. split; [done|]. eapply painted_ext; [|apply painted_none]. intros x y _. unfold in_rect. zbool; cbn; try done; lia. }
  destruct (Z.leb_spec h 0).
  { exists s. split; [done|]. eapply painted_ext; [|apply painted_none]. intros x y _. unfold in_rect. zbool; cbn; try done; lia. }
  rewrite (bind_OK _ _ _ _ _ (int32_ok (x0 + w) s ltac:(lia))), (bind_OK _ _ _ _ _ (int32_ok (y0 + h) s ltac:(lia))).
  rewrite !s32_id by lia. set (l := if x0 <? 0 then 0 else x0). set (u := if y0 <? 0 then 0 else y0).
  set (r := if width fb <? x0 + w then width fb else x0 + w). set (d := if height fb <? y0 + h then height fb else y0 + h).
  assert (Hl : 0 <= l /\ 0 <= u /\ r <= width fb /\ d <= height fb) by (unfold l, u, r, d; zbool; lia).
  destruct (rows_paint u d l r (fun y => for_range l r (fun x => poke fb y x (encode_pixel s c))) (fun _ _ => Some (encode_pixel s c)) s) as (s' & Hr & Hp).
  - intros y s1 Hy. apply row_paints; [lia|]. intros x s2 Hx. apply poke_paints; [done|]. split; lia.
  - exists s'. split; [done|]. eapply painted_ext; [|exact Hp]. intros x y [Hx Hy].
    assert (El : (l <= x <-> x0 <= x) /\ (u <= y <-> y0 <= y)) by (unfold l, u; zbool; lia).
    assert (Er : (x < r <-> x < x0 + w) /\ (y < d <-> y < y0 + h)) by (unfold r, d; zbool; lia).
    clearbody l u r d. unfold in_rect. zbool; cbn; try done; lia.
Qed.

(** The same from a point on, as images and glyphs are drawn. *)
Lemma cells_paint o n y (body : Z -> M disp unit) (c : Z -> Z -> option Z) s :
  (forall k s, 0 <= k < n -> exists s', body k s = (OK tt, s') /\
     painted fb (fun x' y' => if (x' =? o + k) && (y' =? y) then c x' y' else None) s s') ->
  exists s', for_range 0 n body s = (OK tt, s') /\
    painted fb (fun x' y' => if (o <=? x') && (x' <? o + n) && (y' =? y) then c x' y' else None) s s'.
Proof.
  intros Hb. unfold for_range.
  destruct (for_count_paints fb body (fun k x' y' => if (x' =? o + k) && (y' =? y) then c x' y' else None) (fun x _ => x - o) anything (Z.to_nat (n - 0)) 0 s)
    as (s' & Hr & _ & Hp); [|..|done|].
  - intros k s1 Hk _. destruct (Hb k s1) as (s2 & H2 & P2); [lia|]. by exists s2.
  - intros k x' y' c' Hc. destruct (Z.eqb_spec x' (o + k)); [lia|done].
  - exists s'. split; [done|]. eapply painted_ext; [|exact Hp]. intros x' y' _. cbn beta. replace (o + (x' - o)) with x' by lia. zbool; cbn; try done; lia.
Qed.

Lemma block_paints ox oy w h (body : Z -> M disp unit) (c : Z -> Z -> option Z) s :
  (forall k s, 0 <= k < h -> exists s', body k s = (OK tt, s') /\
     painted fb (fun x' y' => if (ox <=? x') && (x' <? ox + w) && (y' =? oy + k) then c x' y' else None) s s') ->
  exists s', for_range 0 h body s = (OK tt, s') /\
    painted fb (fun x' y' => if in_rect ox oy w h x' y' then c x' y' else None) s s'.
Proof.
  intros Hb. unfold for_range.
  destruct (for_count_paints fb body (fun k x' y' => if (ox <=? x') && (x' <? ox + w) && (y' =? oy + k) then c x' y' else None) (fun _ y => y - oy) anything (Z.to_nat (h - 0)) 0 s)
    as (s' & Hr & _ & Hp); [|..|done|].
  - intros k s1 Hk _. destruct (Hb k s1) as (s2 & H2 & P2); [lia|]. by exists s2.
  - intros k x' y' c' Hc. destruct (Z.eqb_spec y' (oy + k)); [lia|]. by rewrite andb_false_r in Hc.
  - exists s'. split; [done|]. eapply painted_ext; [|exact Hp]. intros x' y' _. unfold in_rect. cbn beta. replace (oy + (y' - oy)) with y' by lia. zbool; cbn; try done; lia.
Qed.

(** A clipped cell. *)
Lemma cell_paints xx yy m c s : 0 <= yy < height fb -> (forall s, m s = poke fb yy xx c s) ->
  exists s', (if outside xx (width fb) then ret tt else m) s = (OK tt, s') /\ painted fb (dot xx yy c) s s'.
Proof.
  intros Hy Hm. destruct (fo_size _ Hfb) as [Hw Hh]. rewrite outside_spec by lia. destruct (Z.leb_spec 0 xx), (Z.ltb_spec xx (width fb)); cbn [andb negb].
  1: { rewrite Hm. by apply poke_paints. }
  all: exists s; split; [done|]; eapply painted_ext; [|apply painted_none]; intros x y [Hx' Hy']; unfold dot; zbool; cbn; try done; lia.
Qed.

Lemma clipped_row yy m f s : (0 <= yy < height fb -> exists s', m s = (OK tt, s') /\ painted fb f s s') ->
  (forall x y, f x y <> None -> y = yy) ->
  exists s', (if outside yy (height fb) then ret tt else m) s = (OK tt, s') /\ painted fb f s s'.
Proof.
  intros Hm Hf. destruct (fo_size _ Hfb) as [Hw Hh]. rewrite outside_spec by lia. destruct (Z.leb_spec 0 yy), (Z.ltb_spec yy (height fb)); cbn [andb negb].
  1: by apply Hm.
  all: exists s; split; [done|]; eapply painted_ext; [|apply painted_none]; intros x y [Hx' Hy'];
    destruct (f x y) eqn:E; [|done]; assert (y = yy) by (apply (Hf x y); congruence); lia.
Qed.

Definition image_color (s : disp) (src : list Z) (x y w x' y' : Z) : option Z :=
  encode_pixel s <$> src !! Z.to_nat ((y' - y) * w + (x' - x)).

Lemma image_paints x y w h src s : g_fb s = Some fb -> Z.of_nat (length src) = w * h -> w * h < 2 ^ 31 -> 0 < w -> 0 < h ->
  - 2 ^ 31 <= x -> - 2 ^ 31 <= y -> x + w < 2 ^ 31 -> y + h < 2 ^ 31 ->
  exists s', hal_display_image x y w h (Some src) s = (OK tt, s') /\
    painted fb (fun x' y' => if in_rect x y w h x' y' then image_color s src x y w x' y' else None) s s'.
Proof.
  intros Hs Hlen Hwh Hw Hh Hx Hy Hx1 Hy1. unfold hal_display_image. unfold bind at 1. cbn [get]. rewrite Hs.
  rewrite (proj2 (Z.leb_gt w 0)), (proj2 (Z.leb_gt h 0)) by lia. cbn [orb]. apply block_paints. intros row s1 Hrow.
  rewrite (bind_OK _ _ _ _ _ (int32_ok (y + row) s1 ltac:(lia))).
  destruct (clipped_row (y + row) (for_range 0 w (fun col => let! xx := int32 (x + col) in
    if outside xx (width fb) then ret tt else let! i := int32 (row * w + col) in let! c := from_opt (src !! Z.to_nat i) in poke fb (y + row) xx (encode_pixel s c)))
    (fun x' y' => if (x <=? x') && (x' <? x + w) && (y' =? y + row) then image_color s src x y w x' y' else None) s1) as (s2 & H2 & P2).
  - intros Hv. apply cells_paint. intros col s2 Hcol. rewrite (bind_OK _ _ _ _ _ (int32_ok (x + col) s2 ltac:(lia))).
    destruct (lookup_lt_is_Some_2 src (Z.to_nat (row * w + col))) as (c & Hc); [nia|].
    destruct (cell_paints (x + col) (y + row) (let! i := int32 (row * w + col) in let! c := from_opt (src !! Z.to_nat i) in poke fb (y + row) (x + col) (encode_pixel s c)) (encode_pixel s c) s2 Hv) as (s3 & H3 & P3).
    { intros s3. rewrite (bind_OK _ _ _ _ _ (int32_ok (row * w + col) s3 ltac:(nia))), Hc. done. }
    exists s3. split; [done|]. eapply painted_ext; [|exact P3]. intros x' y' _. unfold dot, image_color.
    destruct (Z.eqb_spec x' (x + col)) as [->|]; cbn; [|done]. destruct (Z.eqb_spec y' (y + row)) as [->|]; [|done].
    replace ((y + row - y) * w + (x + col - x)) with (row * w + col) by lia. by rewrite Hc.
  - intros x' y' Hne. destruct (Z.eqb_spec y' (y + row)); [done|]. by rewrite andb_false_r in Hne.
  - by exists s2.
Qed.
End areas.

(** ** Text *)
Section text.
Context (fb : canboot_fb) (Hfb : fb_ok fb).

Definition glyph_color (s : disp) (gl : list Z) (x y fg bg x' y' : Z) : option Z :=
  (fun bits => encode_pixel s (if Z.testbit bits (x' - x) then fg else bg)) <$> gl !! Z.to_nat (y' - y).

Lemma glyph_paints s0 gl x y fg bg s : length gl = 8%nat ->
  - 2 ^ 31 <= x -> x + 8 < 2 ^ 31 -> - 2 ^ 31 <= y -> y + 8 < 2 ^ 31 ->
  exists s', draw_glyph s0 fb gl x y fg bg s = (OK tt, s') /\
    painted fb (fun x' y' => if in_rect x y 8 8 x' y' then glyph_color s0 gl x y fg bg x' y' else None) s s'.
Proof.
  intros Hlen Hx Hx1 Hy Hy1. unfold draw_glyph. apply block_paints. intros row s1 Hrow.
  rewrite (bind_OK _ _ _ _ _ (int32_ok (y + row) s1 ltac:(lia))). apply clipped_row; [done| |].
  - intros Hv. destruct (lookup_lt_is_Some_2 gl (Z.to_nat row)) as (bits & Hbits); [lia|]. rewrite Hbits. unfold bind at 1. cbn.
    apply cells_paint. intros col s2 Hcol. rewrite (bind_OK _ _ _ _ _ (int32_ok (x + col) s2 ltac:(lia))).
    destruct (cell_paints fb Hfb (x + col) (y + row) (poke fb (y + row) (x + col) (encode_pixel s0 (if Z.testbit bits col then fg else bg)))
      (encode_pixel s0 (if Z.testbit bits col then fg else bg)) s2 Hv) as (s3 & H3 & P3); [done|].
    exists s3. split; [done|]. eapply painted_ext; [|exact P3]. intros x' y' _. unfold dot, glyph_color.
    destruct (Z.eqb_spec x' (x + col)) as [->|]; cbn; [|done]. destruct (Z.eqb_spec y' (y + row)) as [->|]; [|done].
    replace (y + row - y) with row by lia. replace (x + col - x) with col by lia. by rewrite Hbits.
  - intros x' y' Hne. destruct (Z.eqb_spec y' (y + row)); [done|]. by rewrite andb_false_r in Hne.
Qed.

(** The colour of a point of a text: bit [(x' - x) mod 8] of a row of the glyph of the character
    it falls into; characters without a glyph leave the screen as it is. *)
Definition text_color (s : disp) (str : list Z) (x y fg bg x' y' : Z) : option Z :=
  if (x <=? x') && (y <=? y') && (y' <? y + 8) then
    c ← str !! Z.to_nat ((x' - x) / 8);
    if (c <? 0x20) || (0x7E <? c) then None
    else gl ← font8x8 !! Z.to_nat (c - 0x20);
         bits ← gl !! Z.to_nat (y' - y);
         Some (encode_pixel s (if Z.testbit bits ((x' - x) mod 8) then fg else bg))
  else None.

Lemma font_glyph c : 0x20 <= c <= 0x7E -> exists gl, font8x8 !! Z.to_nat (c - 0x20) = Some gl /\ length gl = 8%nat.
Proof.
  intros Hc. assert (Forall (fun gl => length gl = 8%nat) font8x8) as Hall by (repeat constructor).
  destruct (lookup_lt_is_Some_2 font8x8 (Z.to_nat (c - 0x20))) as (gl & Hgl); [change (length font8x8) with 96%nat; lia|].
  exists gl. split; [done|]. exact (Forall_lookup_1 _ _ _ _ Hall Hgl).
Qed.

Lemma text_color_cons s c str x y fg bg x' y' :
  text_color s (c :: str) x y fg bg x' y' =
    if in_rect x y 8 8 x' y'
    then if (c <? 0x20) || (0x7E <? c) then None else gl ← font8x8 !! Z.to_nat (c - 0x20); glyph_color s gl x y fg bg x' y'
    else text_color s str (x + 8) y fg bg x' y'.
Proof.
  unfold text_color, in_rect. destruct (Z.leb_spec x x') as [Hx|Hx]; cbn [andb].
  - destruct (Z.ltb_spec x' (x + 8)) as [Hx'|Hx']; cbn [andb].
    + destruct ((y <=? y') && (y' <? y + 8)); [|by rewrite (proj2 (Z.leb_gt (x + 8) x')) by lia].
      rewrite Z.div_small, Z.mod_small by lia. change (Z.to_nat 0) with 0%nat. cbn -[font8x8]. destruct (_ || _); [done|]. destruct (font8x8 !! _) as [gl|]; cbn -[font8x8]; [|done]. unfold glyph_color. by destruct (gl !! _).
    + rewrite (proj2 (Z.leb_le (x + 8) x')) by lia. cbn [andb].
      replace ((x' - x) / 8) with ((x' - (x + 8)) / 8 + 1) by (Z.div_mod_to_equations; lia). replace ((x' - x) mod 8) with ((x' - (x + 8)) mod 8) by (Z.div_mod_to_equations; lia).
      assert (0 <= (x' - (x + 8)) / 8) by (Z.div_mod_to_equations; lia). by rewrite Z2Nat.inj_add, Nat.add_1_r by lia.
  - by rewrite (proj2 (Z.leb_gt (x + 8) x')) by lia.
Qed.

Lemma text_paints s0 str y fg bg : forall x s, - 2 ^ 31 <= y -> y + 8 < 2 ^ 31 -> - 2 ^ 31 <= x ->
  x + 8 * Z.of_nat (length str) < 2 ^ 31 ->
  exists s', draw_text s0 fb str x y fg bg s = (OK tt, s') /\ painted fb (text_color s0 str x y fg bg) s s'.
Proof.
  induction str as [|c str IH]; intros x s Hy Hy1 Hx Hlen; cbn [draw_text].
  - exists s. split; [done|]. eapply painted_ext; [|apply painted_none]. intros x' y' _. unfold text_color. by destruct (_ && _).
  - cbn [length] in Hlen.
    assert (exists s1, (if (c <? 0x20) || (0x7E <? c) then ret tt else let! gl := from_opt (font8x8 !! Z.to_nat (c - 0x20)) in draw_glyph s0 fb gl x y fg bg) s = (OK tt, s1) /\
      painted fb (fun x' y' => if in_rect x y 8 8 x' y' then if (c <? 0x20) || (0x7E <? c) then None else gl ← font8x8 !! Z.to_nat (c - 0x20); glyph_color s0 gl x y fg bg x' y' else None) s s1) as (s1 & H1 & P1).
    { destruct (Z.ltb_spec c 32), (Z.ltb_spec 126 c); cbn [orb].
      4: { destruct (font_glyph c) as (gl & -> & Hgl); [lia|]. apply glyph_paints; [done|lia..]. }
      all: exists s; split; [done|]; eapply painted_ext; [|apply painted_none]; intros; by destruct (in_rect _ _ _ _ _ _). }
    bstep H1. rewrite (bind_OK _ _ _ _ _ (int32_ok (x + 8) s1 ltac:(lia))).
    destruct (IH (x + 8) s1) as (s2 & H2 & P2); [lia..|]. exists s2. split; [done|].
    eapply painted_ext; [|exact (painted_over _ _ _ _ _ _ P1 P2)]. intros x' y' _. cbn beta. rewrite text_color_cons.
    destruct (in_rect x y 8 8 x' y') eqn:E; [|by destruct (text_color _ _ _ _ _ _ _ _)].
    unfold text_color. unfold in_rect in E. rewrite (proj2 (Z.leb_gt (x + 8) x')); [done|]. destruct (Z.ltb_spec x' (x + 8)); [lia|]. by rewrite andb_false_r in E.
Qed.
End text.

(** ** Single pixels *)

(** The channels lie in the 32-bit pixel without overlap. *)
Definition channels_apart (s : disp) : Prop :=
  0 <= g_red_shift s <= 24 /\ 0 <= g_green_shift s <= 24 /\ 0 <= g_blue_shift s <= 24 /\
  8 <= Z.abs (g_red_shift s - g_green_shift s) /\ 8 <= Z.abs (g_red_shift s - g_blue_shift s) /\ 8 <= Z.abs (g_green_shift s - g_blue_shift s).

Lemma land_255_range x : 0 <= Z.land x 255 < 256.
Proof. change 255 with (Z.ones 8). rewrite Z.land_ones by lia. apply Z.mod_pos_bound. lia. Qed.

Lemma testbit_byte x n : 0 <= x < 256 -> n < 0 \/ 8 <= n -> Z.testbit x n = false.
Proof.
  intros Hx [Hn|Hn]; [by apply Z.testbit_neg_r|]. destruct (decide (x = 0)) as [->|]; [apply Z.bits_0|].
  apply Z.bits_above_log2; [lia|]. apply Z.log2_lt_pow2; [lia|]. assert (2 ^ 8 <= 2 ^ n) by (apply Z.pow_le_mono_r; lia). lia.
Qed.

Lemma channel_alone v k x y : 0 <= k -> 0 <= v < 256 ->
  (forall n, 0 <= n < 8 -> Z.testbit x (n + k) = false) -> (forall n, 0 <= n < 8 -> Z.testbit y (n + k) = false) ->
  Z.land (Z.shiftr (Z.lor (Z.lor (Z.shiftl v k) x) y) k) 255 = v.
Proof.
  intros Hk Hv Hx Hy. change 255 with (Z.ones 8). apply Z.bits_inj'. intros n Hn. rewrite Z.land_spec, Z.testbit_ones_nonneg by lia.
  destruct (Z.ltb_spec n 8); [|by rewrite andb_false_r, (testbit_byte v) by lia].
  rewrite andb_true_r, Z.shiftr_spec, !Z.lor_spec, Z.shiftl_spec, Hx, Hy, !orb_false_r by lia. f_equal. lia.
Qed.

Lemma other_channel v k k' : 0 <= k -> 0 <= k' -> 8 <= Z.abs (k - k') -> 0 <= v < 256 -> forall n, 0 <= n < 8 -> Z.testbit (Z.shiftl v k') (n + k) = false.
Proof. intros Hk Hk' Hd Hv n Hn. rewrite Z.shiftl_spec by lia. apply testbit_byte; lia. Qed.

Lemma channel_fits v k : 0 <= k <= 24 -> 0 <= v < 256 -> u32 (Z.shiftl v k) = Z.shiftl v k.
Proof.
  intros Hk Hv. apply u32_small. rewrite Z.shiftl_mul_pow2 by lia. assert (2 ^ 0 <= 2 ^ k <= 2 ^ 24) by (split; apply Z.pow_le_mono_r; lia). nia.
Qed.

Lemma decode_encode_pixel s c : channels_apart s -> decode_pixel s (encode_pixel s c) = Z.land c 0xFFFFFF.
Proof.
  intros (Hr & Hg & Hb & Drg & Drb & Dgb). unfold decode_pixel, encode_pixel. cbv zeta.
  pose proof (land_255_range (Z.shiftr c 16)) as R. pose proof (land_255_range (Z.shiftr c 8)) as G. pose proof (land_255_range c) as B.
  rewrite !channel_fits by done.
  set (r := Z.land (Z.shiftr c 16) 255) in *. set (g := Z.land (Z.shiftr c 8) 255) in *. set (b := Z.land c 255) in *.
  rewrite (channel_alone r) by (done || lia || (apply other_channel; lia)).
  rewrite (Z.lor_comm (Z.shiftl r _) (Z.shiftl g _)), (channel_alone g) by (done || lia || (apply other_channel; lia)).
  rewrite (Z.lor_comm (Z.lor (Z.shiftl g _) _)), Z.lor_assoc, (channel_alone b) by (done || lia || (apply other_channel; lia)).
  subst r g b. change 255 with (Z.ones 8). change 0xFFFFFF with (Z.ones 24). apply Z.bits_inj'. intros n Hn.
  rewrite !Z.lor_spec, !Z.shiftl_spec, !Z.land_spec, (Z.testbit_ones_nonneg 24 n) by lia.
  destruct (decide (16 <= n)); [|destruct (decide (8 <= n))].
  - rewrite !Z.shiftr_spec, !Z.testbit_ones_nonneg by lia. replace (n - 16 + 16) with n by lia. replace (n - 8 + 8) with n by lia.
    zbool; cbn; rewrite ?andb_false_r, ?andb_true_r, ?orb_false_r; done || lia.
  - rewrite !(Z.testbit_neg_r _ (n - 16)), Z.shiftr_spec, !Z.testbit_ones_nonneg by lia. replace (n - 8 + 8) with n by lia.
    zbool; cbn; rewrite ?andb_false_r, ?andb_true_r, ?orb_false_r; done || lia.
  - rewrite !(Z.testbit_neg_r _ (n - 16)), !(Z.testbit_neg_r _ (n - 8)), !Z.testbit_ones_nonneg by lia.
    zbool; cbn; rewrite ?andb_false_r, ?andb_true_r, ?orb_false_r; done || lia.
Qed.

Section pixels.
Context (fb : canboot_fb) (Hfb : fb_ok fb).

Lemma on_screen x y : (x <? 0) || (y <? 0) || (s32 (width fb) <=? x) || (s32 (height fb) <=? y) = false <-> visible fb x y.
Proof.
  destruct (fo_size _ Hfb) as [Hw Hh]. rewrite !s32_id by lia. unfold visible. zbool; cbn; split; done || lia.
Qed.

Lemma pixel_paints x y c s : g_fb s = Some fb -> exists s', hal_display_pixel x y c s = (OK tt, s') /\ painted fb (dot x y (encode_pixel s c)) s s'.
Proof.
  intros Hs. unfold hal_display_pixel. unfold bind. cbn. rewrite Hs. destruct (_ || _) eqn:E.
  - exists s. split; [done|]. eapply painted_ext; [|apply painted_none]. intros x' y' Hv. unfold dot.
    destruct (Z.eqb_spec x' x) as [->|], (Z.eqb_spec y' y) as [->|]; cbn; try done. apply on_screen in Hv. congruence.
  - apply on_screen in E. by apply poke_paints.
Qed.

Lemma get_pixel_shown x y s : g_fb s = Some fb -> visible fb x y -> hal_display_get_pixel x y s = (OK (decode_pixel s (shown fb s x y)), s).
Proof.
  intros Hs Hv. unfold hal_display_get_pixel. unfold bind at 1. cbn. rewrite Hs. rewrite (proj2 (on_screen x y) Hv).
  by rewrite (bind_OK _ _ _ _ _ (peek_shown _ _ _ s Hfb Hv)).
Qed.
End pixels.
