(* ===== verification/DisplayProps.v ===== *)
(** * Block moves, lines and the promises of the display

    An overlapping move as a simultaneous copy, the path of a line, and the
    theorems about [hal/display/display.c] and [kernel/fb.c]. *)
From S2P Require Import Prelude Bytes Boot Display DisplayPaint.
Import Mb2.

(** ** Block moves *)
Lemma for_count_inv (I : Z -> disp -> Prop) (body : Z -> M disp unit) n : forall lo s,
  (forall k s, lo <= k < lo + Z.of_nat n -> I k s -> exists s', body k s = (OK tt, s') /\ I (k + 1) s') -> I lo s ->
  exists s', for_count n lo body s = (OK tt, s') /\ I (lo + Z.of_nat n) s'.
Proof.
  induction n as [|n IH]; intros lo s Hb HI; cbn [for_count].
  - exists s. by rewrite Z.add_0_r.
  - destruct (Hb lo s) as (s1 & H1 & HI1); [lia|done|]. bstep H1.
    destruct (IH (lo + 1) s1) as (s2 & H2 & HI2); [intros; apply Hb; [lia|done]|done|].
    exists s2. split; [done|]. by replace (lo + Z.of_nat (S n)) with (lo + 1 + Z.of_nat n) by lia.
Qed.

Lemma for_range_inv (I : Z -> disp -> Prop) (body : Z -> M disp unit) n s : 0 <= n ->
  (forall k s, 0 <= k < n -> I k s -> exists s', body k s = (OK tt, s') /\ I (k + 1) s') -> I 0 s ->
  exists s', for_range 0 n body s = (OK tt, s') /\ I n s'.
Proof.
  intros Hn Hb HI. destruct (for_count_inv I body (Z.to_nat (n - 0)) 0 s) as (s' & H & H'); [intros; apply Hb; [lia|done]|done|].
  exists s'. split; [done|]. by replace (0 + Z.of_nat (Z.to_nat (n - 0))) with n in H' by lia.
Qed.

Section move.
Context (fb : canboot_fb) (Hfb : fb_ok fb) (sx sy dx dy w h : Z).

(** The round in which index [i] of [n] is handled, going up or down. *)
Definition turn (up : bool) (n i : Z) : Z := if up then i else n - 1 - i.
Definition seen (x y : Z) : bool := (0 <=? x) && (x <? width fb) && (0 <=? y) && (y <? height fb).

(** What the copy has painted after [k] rows and [j] columns of the next one:
    the cells of the rectangle that have had their turn and whose source is on the screen show what the source
    showed before the copy, in [s0]. *)
Definition moved (s0 : disp) (k j x y : Z) : option Z :=
  let r := turn (dy <=? sy) h (y - dy) in
  let c := turn (dx <=? sx) w (x - dx) in
  if in_rect dx dy w h x y && ((r <? k) || (r =? k) && (c <? j)) && seen (x - dx + sx) (y - dy + sy)
  then Some (shown fb s0 (x - dx + sx) (y - dy + sy)) else None.

Definition copied (s0 : disp) (x y : Z) : option Z :=
  if in_rect dx dy w h x y && seen (x - dx + sx) (y - dy + sy) then Some (shown fb s0 (x - dx + sx) (y - dy + sy)) else None.

Lemma seen_visible x y : seen x y = true <-> visible fb x y.
Proof. unfold seen, visible. zbool; cbn; split; done || lia. Qed.

(** The source of the cell whose turn it is has not been painted over. *)
Lemma source_intact s0 k j : let r := turn (dy <=? sy) h k in let c := turn (dx <=? sx) w j in
  moved s0 k j (sx + c) (sy + r) = None.
Proof.
  cbv zeta. unfold moved, turn. destruct (Z.leb_spec dy sy), (Z.leb_spec dx sx); cbv zeta;
    (destruct (_ || _) eqn:E; [|by rewrite andb_false_r]); revert E; zbool; cbn; try done; lia.
Qed.

(** Advancing by one cell: only that cell can differ. *)
Lemma moved_cell s0 k j x y : let r := turn (dy <=? sy) h k in let c := turn (dx <=? sx) w j in
  0 <= k < h -> 0 <= j < w ->
  moved s0 k (j + 1) x y =
    if (x =? dx + c) && (y =? dy + r) && seen (sx + c) (sy + r) then Some (shown fb s0 (sx + c) (sy + r)) else moved s0 k j x y.
Proof.
  cbv zeta. intros Hk Hj. unfold moved. cbv zeta.
  destruct (Z.eqb_spec x (dx + turn (dx <=? sx) w j)) as [->|Hx]; cbn [andb];
    [destruct (Z.eqb_spec y (dy + turn (dy <=? sy) h k)) as [->|Hy]; cbn [andb]|].
  - replace (dx + turn (dx <=? sx) w j - dx) with (turn (dx <=? sx) w j) by lia. replace (dy + turn (dy <=? sy) h k - dy) with (turn (dy <=? sy) h k) by lia.
    rewrite !(Z.add_comm (turn _ _ _) sx), !(Z.add_comm (turn _ _ _) sy).
    destruct (seen _ _); [|by rewrite !andb_false_r]. unfold in_rect, turn. destruct (dx <=? sx), (dy <=? sy); zbool; cbn; try done; lia.
  - replace (turn (dy <=? sy) h (y - dy) =? k) with false; [done|]. symmetry. apply Z.eqb_neq. unfold turn in *. destruct (dy <=? sy); lia.
  - replace (turn (dx <=? sx) w (x - dx) <? j + 1) with (turn (dx <=? sx) w (x - dx) <? j); [done|]. unfold turn in *. destruct (dx <=? sx); zbool; done || lia.
Qed.

Lemma moved_row s0 k x y : moved s0 k w x y = moved s0 (k + 1) 0 x y.
Proof.
  unfold moved. cbv zeta. destruct (in_rect dx dy w h x y) eqn:E; [|done]. cbn [andb].
  replace ((turn (dy <=? sy) h (y - dy) <? k) || (turn (dy <=? sy) h (y - dy) =? k) && (turn (dx <=? sx) w (x - dx) <? w))
    with ((turn (dy <=? sy) h (y - dy) <? k + 1) || (turn (dy <=? sy) h (y - dy) =? k + 1) && (turn (dx <=? sx) w (x - dx) <? 0)); [done|].
  revert E. unfold in_rect, turn. destruct (dx <=? sx), (dy <=? sy); zbool; cbn; try done; lia.
Qed.

Lemma moved_skip s0 k x y : let r := turn (dy <=? sy) h k in 0 <= k < h ->
  ~ (0 <= sy + r < height fb /\ 0 <= dy + r < height fb) -> visible fb x y -> moved s0 k 0 x y = moved s0 (k + 1) 0 x y.
Proof.
  cbv zeta. intros Hk Hr [Hx Hy]. unfold moved. cbv zeta. destruct (decide (turn (dy <=? sy) h (y - dy) = k)) as [E|E].
  - assert (seen (x - dx + sx) (y - dy + sy) = false) as ->; [|by rewrite !andb_false_r].
    unfold seen. rewrite <- E in Hr. unfold turn in *. destruct (dy <=? sy); zbool; cbn; try done; lia.
  - replace (turn (dx <=? sx) w (x - dx) <? 0) with (turn (dx <=? sx) w (x - dx) <? 0) by done.
    destruct (in_rect dx dy w h x y) eqn:R; [|done]. cbn [andb].
    replace ((turn (dy <=? sy) h (y - dy) <? k + 1) || (turn (dy <=? sy) h (y - dy) =? k + 1) && (turn (dx <=? sx) w (x - dx) <? 0))
      with ((turn (dy <=? sy) h (y - dy) <? k) || (turn (dy <=? sy) h (y - dy) =? k) && (turn (dx <=? sx) w (x - dx) <? 0)); [done|].
    revert R E. unfold in_rect, turn. destruct (dx <=? sx), (dy <=? sy); zbool; cbn; try done; lia.
Qed.

Lemma between a n : (0 <=? a) && (a <? n) = true <-> 0 <= a < n.
Proof. zbool; cbn; split; done || lia. Qed.

Lemma not_between a n : (0 <=? a) && (a <? n) = false <-> ~ 0 <= a < n.
Proof. rewrite <- not_true_iff_false. by rewrite between. Qed.

Definition copy_cell (r j : Z) : M disp unit :=
  let c := if dx <=? sx then j else w - 1 - j in
  let! sxc := int32 (sx + c) in
  let! dxc := int32 (dx + c) in
  if outside sxc (width fb) then ret tt
  else if outside dxc (width fb) then ret tt
  else let! raw := peek fb (sy + r) sxc in poke fb (dy + r) dxc raw.

Hypothesis (Hsx : - 2 ^ 31 <= sx /\ sx + w < 2 ^ 31) (Hsy : - 2 ^ 31 <= sy /\ sy + h < 2 ^ 31)
  (Hdx : - 2 ^ 31 <= dx /\ dx + w < 2 ^ 31) (Hdy : - 2 ^ 31 <= dy /\ dy + h < 2 ^ 31).

Lemma copy_cell_moves s0 k j s : let r := turn (dy <=? sy) h k in 0 <= k < h -> 0 <= j < w ->
  0 <= sy + r < height fb -> 0 <= dy + r < height fb -> painted fb (moved s0 k j) s0 s ->
  exists s', copy_cell r j s = (OK tt, s') /\ painted fb (moved s0 k (j + 1)) s0 s'.
Proof.
  cbv zeta. intros Hk Hj Hs Hd P. unfold copy_cell. change (if dx <=? sx then j else w - 1 - j) with (turn (dx <=? sx) w j).
  pose proof (source_intact s0 k j) as Hsrc. cbv zeta in Hsrc. pose proof (fun x y => moved_cell s0 k j x y Hk Hj) as Hcell. cbv zeta in Hcell.
  assert (0 <= turn (dx <=? sx) w j < w) as Hc by (unfold turn; destruct (dx <=? sx); lia).
  set (r := turn (dy <=? sy) h k) in *. set (c := turn (dx <=? sx) w j) in *. destruct (fo_size _ Hfb) as [Hw Hh].
  rewrite (bind_OK _ _ _ _ _ (int32_ok (sx + c) s ltac:(lia))), (bind_OK _ _ _ _ _ (int32_ok (dx + c) s ltac:(lia))), !outside_spec by lia.
  destruct ((0 <=? sx + c) && (sx + c <? width fb)) eqn:Vs; cbn [negb].
  2: { exists s. split; [done|]. eapply painted_ext; [|exact P]. intros x y _. rewrite Hcell. unfold seen. rewrite Vs. cbn. by rewrite andb_false_r. }
  assert (visible fb (sx + c) (sy + r)) as Vsrc by (split; [by apply between|lia]).
  destruct ((0 <=? dx + c) && (dx + c <? width fb)) eqn:Vd; cbn [negb].
  2: { exists s. split; [done|]. eapply painted_ext; [|exact P]. intros x y [Vx _]. rewrite Hcell. destruct (Z.eqb_spec x (dx + c)) as [->|]; [|done].
       by apply not_between in Vd. }
  rewrite (bind_OK _ _ _ _ _ (peek_shown _ _ _ s Hfb Vsrc)).
  destruct (poke_paints fb (dx + c) (dy + r) (shown fb s (sx + c) (sy + r)) s Hfb) as (s' & Hp & P'); [split; [by apply between|lia]|].
  exists s'. split; [done|]. eapply painted_ext; [|exact (painted_over _ _ _ _ _ _ P P')]. intros x y _. cbn beta. rewrite Hcell, (proj2 (seen_visible _ _) Vsrc).
  rewrite (pa_in _ _ _ _ P _ _ Vsrc), Hsrc. cbn [default]. unfold dot. rewrite andb_true_r. destruct ((x =? dx + c) && (y =? dy + r)); reflexivity.
Qed.

Lemma copy_rect_paints s : g_fb s = Some fb -> 0 < w -> 0 < h ->
  exists s', hal_display_copy_rect sx sy dx dy w h s = (OK tt, s') /\ painted fb (copied s) s s'.
Proof.
  intros Hs Hw Hh. unfold hal_display_copy_rect. unfold bind at 1. cbn [get]. rewrite Hs.
  rewrite (proj2 (Z.leb_gt w 0)), (proj2 (Z.leb_gt h 0)) by lia. cbn [orb]. destruct (fo_size _ Hfb) as [Hfw Hfh].
  edestruct (for_range_inv (fun k => painted fb (moved s k 0) s)) as (s' & H & P); [| | |exists s'; split; [exact H|]]; [lia| | |].
  - intros k s1 Hk P1. cbv beta. change (if dy <=? sy then k else h - 1 - k) with (turn (dy <=? sy) h k).
    pose proof (fun x y => moved_skip s k x y Hk) as Hskip. cbv zeta in Hskip. pose proof (fun j => copy_cell_moves s k j) as Hcell. cbv zeta in Hcell.
    assert (0 <= turn (dy <=? sy) h k < h) as Hr by (unfold turn; destruct (dy <=? sy); lia).
    set (r := turn (dy <=? sy) h k) in *. rewrite (bind_OK _ _ _ _ _ (int32_ok (sy + r) s1 ltac:(lia))), (bind_OK _ _ _ _ _ (int32_ok (dy + r) s1 ltac:(lia))), !outside_spec by lia.
    destruct ((0 <=? sy + r) && (sy + r <? height fb)) eqn:Vs; cbn [negb].
    2: { exists s1. split; [done|]. eapply painted_ext; [|exact P1]. intros x y Hv. apply Hskip; [|done]. apply not_between in Vs. lia. }
    destruct ((0 <=? dy + r) && (dy + r <? height fb)) eqn:Vd; cbn [negb].
    2: { exists s1. split; [done|]. eapply painted_ext; [|exact P1]. intros x y Hv. apply Hskip; [|done]. apply not_between in Vd. lia. }
    destruct (for_range_inv (fun j => painted fb (moved s k j) s) (copy_cell r) w s1) as (s2 & H2 & P2); [lia| |done|].
    + intros j s2 Hj P2. apply Hcell; [done|done|by apply between|by apply between|done].
    + exists s2. split; [exact H2|]. eapply painted_ext; [|exact P2]. intros. apply moved_row.
  - eapply painted_ext; [|apply painted_none]. intros x y _. unfold moved. cbv zeta.
    destruct (in_rect dx dy w h x y) eqn:E; [|done]. cbn [andb].
    replace (_ || _) with false; [done|]. revert E. unfold in_rect, turn. destruct (dx <=? sx), (dy <=? sy); zbool; cbn; try done; lia.
  - eapply painted_ext; [|exact P]. intros x y _. unfold moved, copied. cbv zeta.
    destruct (in_rect dx dy w h x y) eqn:E; [|done]. cbn [andb].
    replace (_ || _) with true; [done|]. revert E. unfold in_rect, turn. destruct (dx <=? sx), (dy <=? sy); zbool; cbn; try done; lia.
Qed.
End move.

(** ** Lines *)

(** Each point is a king's move away from the next one. *)
Fixpoint connected (pts : list (Z * Z)) : Prop :=
  match pts with
  | p :: ((q :: _) as t) => Z.abs (p.1 - q.1) <= 1 /\ Z.abs (p.2 - q.2) <= 1 /\ connected t
  | _ => True
  end.

(** At most half a pixel off the line from [(x0, y0)] to [(x1, y1)], measured along the minor axis. *)
Definition near_line (x0 y0 x1 y1 : Z) (p : Z * Z) : Prop :=
  2 * Z.abs ((p.2 - y0) * (x1 - x0) - (p.1 - x0) * (y1 - y0)) <= Z.max (Z.abs (x1 - x0)) (Z.abs (y1 - y0)).

Definition points (raw : Z) (pts : list (Z * Z)) (x y : Z) : option Z := if bool_decide ((x, y) ∈ pts) then Some raw else None.

Lemma path_one raw x y x' y' : points raw [(x, y)] x' y' = dot x y raw x' y'.
Proof.
  unfold points, dot. destruct (Z.eqb_spec x' x) as [->|], (Z.eqb_spec y' y) as [->|]; cbn;
    case_bool_decide as H; rewrite list_elem_of_singleton in H; congruence.
Qed.

Lemma path_cons raw x y pts x' y' : points raw ((x, y) :: pts) x' y' = match points raw pts x' y' with Some c => Some c | None => dot x y raw x' y' end.
Proof.
  rewrite <- path_one. unfold points. destruct (decide ((x', y') ∈ pts)) as [H|H].
  - rewrite !(bool_decide_eq_true_2 _ H), bool_decide_eq_true_2; [done|by right].
  - rewrite !(bool_decide_eq_false_2 _ H). rewrite (bool_decide_ext _ ((x', y') ∈ [(x, y)])); [done|]. rewrite elem_of_cons, list_elem_of_singleton. tauto.
Qed.

Section line.
Context (fb : canboot_fb) (Hfb : fb_ok fb) (raw X0 Y0 a b sx sy : Z).
Context (Ha : 0 <= a <= 2 ^ 29) (Hb : 0 <= b <= 2 ^ 29) (Hsx : sx = 1 \/ sx = -1) (Hsy : sy = 1 \/ sy = -1).
Context (HX : - 2 ^ 31 < X0 < 2 ^ 31 - 1 /\ - 2 ^ 31 < X0 + sx * a < 2 ^ 31 - 1) (HY : - 2 ^ 31 < Y0 < 2 ^ 31 - 1 /\ - 2 ^ 31 < Y0 + sy * b < 2 ^ 31 - 1).

(** [i] steps along x and [j] along y. *)
Definition reached (i j : Z) : Prop := 0 <= i <= a /\ 0 <= j <= b /\ 2 * Z.abs (j * a - i * b) <= Z.max a b.
Definition to_go (i j : Z) : Z := if b <=? a then a - i else b - j.

(** One round of the loop away from the end. *)
Definition goes_x (i j : Z) : bool := - b <=? 2 * ((j + 1) * a - (i + 1) * b).
Definition goes_y (i j : Z) : bool := 2 * ((j + 1) * a - (i + 1) * b) <=? a.

Lemma line_advance i j : reached i j -> ~ (i = a /\ j = b) ->
  let i' := if goes_x i j then i + 1 else i in let j' := if goes_y i j then j + 1 else j in
  reached i' j' /\ to_go i' j' = to_go i j - 1.
Proof.
  cbv zeta. intros (Hi & Hj & Hd) Hne. unfold goes_x, goes_y, reached, to_go.
  assert (i = a -> j * a - i * b <= - a).
  { intros ->. pose proof (Z.mul_le_mono_nonneg_l (j + 1) b a). lia. }
  assert (j = b -> b <= j * a - i * b).
  { intros ->. pose proof (Z.mul_le_mono_nonneg_l (i + 1) a b). lia. }
  replace ((j + 1) * a - (i + 1) * b) with (j * a - i * b + a - b) by lia.
  assert ((j + 1) * a - i * b = j * a - i * b + a) by lia. assert (j * a - (i + 1) * b = j * a - i * b - b) by lia.
  assert ((j + 1) * a - (i + 1) * b = j * a - i * b + a - b) by lia.
  set (D := j * a - i * b) in *. zbool; lia.
Qed.

Lemma reached_err i j : reached i j -> - 3 * 2 ^ 28 <= (j + 1) * a - (i + 1) * b <= 3 * 2 ^ 28.
Proof. intros (Hi & Hj & Hd). lia. Qed.

Lemma reached_at i j : reached i j -> - 2 ^ 31 < X0 + sx * i < 2 ^ 31 - 1 /\ - 2 ^ 31 < Y0 + sy * j < 2 ^ 31 - 1.
Proof. intros (Hi & Hj & Hd). destruct Hsx as [-> | ->], Hsy as [-> | ->]; lia. Qed.

Lemma at_end i j : reached i j -> ((X0 + sx * i =? X0 + sx * a) && (Y0 + sy * j =? Y0 + sy * b) = true <-> i = a /\ j = b).
Proof. intros _. destruct Hsx as [-> | ->], Hsy as [-> | ->]; zbool; cbn; split; done || lia. Qed.

Lemma near_reached i j : reached i j -> near_line X0 Y0 (X0 + sx * a) (Y0 + sy * b) (X0 + sx * i, Y0 + sy * j).
Proof. intros (Hi & Hj & Hd). unfold near_line. cbn. destruct Hsx as [-> | ->], Hsy as [-> | ->]; lia. Qed.

Lemma line_dot x y s : exists s', (if outside x (width fb) || outside y (height fb) then ret tt else poke fb y x raw) s = (OK tt, s') /\ painted fb (dot x y raw) s s'.
Proof.
  destruct (fo_size _ Hfb) as [Hw Hh]. rewrite !outside_spec by lia. destruct (_ || _) eqn:E.
  - exists s. split; [done|]. eapply painted_ext; [|apply painted_none]. intros x' y' [Hx' Hy']. unfold dot. revert E. zbool; cbn; done || lia.
  - apply poke_paints; [done|]. unfold visible. revert E. zbool; cbn; done || lia.
Qed.

Lemma step_x i j s : reached i j ->
  (if goes_x i j then let! e := int32 ((j + 1) * a - (i + 1) * b + - b) in let! x := int32 (X0 + sx * i + sx) in ret (x, e) else ret (X0 + sx * i, (j + 1) * a - (i + 1) * b)) s =
  (OK (X0 + sx * (if goes_x i j then i + 1 else i), (j + 1) * a - ((if goes_x i j then i + 1 else i) + 1) * b), s).
Proof.
  intros HR. pose proof (reached_at i j HR) as [Hx Hy]. pose proof (reached_err i j HR) as He. destruct (goes_x i j); [|done].
  rewrite (bind_OK _ _ _ _ _ (int32_ok ((j + 1) * a - (i + 1) * b + - b) s ltac:(lia))), (bind_OK _ _ _ _ _ (int32_ok (X0 + sx * i + sx) s ltac:(lia))). unfold ret. do 3 f_equal; lia.
Qed.

Lemma step_y i j s : reached i j -> let i' := if goes_x i j then i + 1 else i in
  (if goes_y i j then let! e := int32 ((j + 1) * a - (i' + 1) * b + a) in let! y := int32 (Y0 + sy * j + sy) in ret (y, e) else ret (Y0 + sy * j, (j + 1) * a - (i' + 1) * b)) s =
  (OK (Y0 + sy * (if goes_y i j then j + 1 else j), ((if goes_y i j then j + 1 else j) + 1) * a - (i' + 1) * b), s).
Proof.
  intros HR. pose proof (reached_at i j HR) as [Hx Hy]. pose proof (reached_err i j HR) as He.
  cbv zeta. set (i' := if goes_x i j then i + 1 else i). assert (i' = i \/ i' = i + 1) as Hi' by (subst i'; destruct (goes_x i j); lia). clearbody i'. destruct (goes_y i j); [|done].
  assert (- 2 ^ 31 <= (j + 1) * a - (i' + 1) * b + a < 2 ^ 31) by (destruct Hi' as [-> | ->]; lia).
  rewrite (bind_OK _ _ _ _ _ (int32_ok ((j + 1) * a - (i' + 1) * b + a) s ltac:(done))), (bind_OK _ _ _ _ _ (int32_ok (Y0 + sy * j + sy) s ltac:(lia))). unfold ret. do 3 f_equal; lia.
Qed.

Lemma line_loop_paints fuel : forall i j s, reached i j -> to_go i j < Z.of_nat fuel ->
  exists s' pts, line_loop fuel fb raw (X0 + sx * a) (Y0 + sy * b) a (- b) sx sy (X0 + sx * i) (Y0 + sy * j) ((j + 1) * a - (i + 1) * b) s = (OK tt, s') /\
    painted fb (points raw ((X0 + sx * i, Y0 + sy * j) :: pts)) s s' /\
    last ((X0 + sx * i, Y0 + sy * j) :: pts) = Some (X0 + sx * a, Y0 + sy * b) /\ Z.of_nat (length pts) = to_go i j /\
    connected ((X0 + sx * i, Y0 + sy * j) :: pts) /\ Forall (near_line X0 Y0 (X0 + sx * a) (Y0 + sy * b)) ((X0 + sx * i, Y0 + sy * j) :: pts).
Proof.
  induction fuel as [|fuel IH]; intros i j s HR Hf.
  { destruct HR as (Hi & Hj & _). unfold to_go in Hf. destruct (b <=? a); lia. }
  cbn [line_loop]. destruct (line_dot (X0 + sx * i) (Y0 + sy * j) s) as (s1 & H1 & P1). bstep H1.
  pose proof (near_reached i j HR) as Hnear. pose proof (reached_at i j HR) as [Hx Hy]. pose proof (reached_err i j HR) as He.
  destruct (_ && _) eqn:E.
  { apply at_end in E as [-> ->]; [|done]. exists s1, []. split_and!; [done| |done| |done|by constructor].
    - eapply painted_ext; [|exact P1]. intros x y _. by rewrite path_one.
    - unfold to_go. destruct (b <=? a); cbn; lia. }
  assert (~ (i = a /\ j = b)) as Hne by (rewrite <- at_end by done; congruence). destruct (line_advance i j HR Hne) as [HR' Hgo].
  rewrite (bind_OK _ _ _ _ _ (int32_ok (2 * ((j + 1) * a - (i + 1) * b)) s1 ltac:(lia))).
  change (- b <=? 2 * ((j + 1) * a - (i + 1) * b)) with (goes_x i j). change (2 * ((j + 1) * a - (i + 1) * b) <=? a) with (goes_y i j).
  rewrite (bind_OK _ _ _ _ _ (step_x i j s1 HR)). cbn [fst snd]. rewrite (bind_OK _ _ _ _ _ (step_y i j s1 HR)). cbn [fst snd].
  set (i' := if goes_x i j then i + 1 else i) in *. set (j' := if goes_y i j then j + 1 else j) in *.
  destruct (IH i' j' s1 HR') as (s' & pts & H' & P' & Hl & Hn & Hc & Hnr); [lia|].
  exists s', ((X0 + sx * i', Y0 + sy * j') :: pts). split_and!; [done| |done| | |by constructor].
  - eapply painted_ext; [|exact (painted_over _ _ _ _ _ _ P1 P')]. intros x y _. by rewrite (path_cons raw (X0 + sx * i)).
  - cbn [length]. lia.
  - split_and!; [| |done]; cbn; [subst i'; destruct (goes_x i j), Hsx as [-> | ->]; lia|subst j'; destruct (goes_y i j), Hsy as [-> | ->]; lia].
Qed.
End line.

(** The shifts of the channels are ones the C shift operators are defined for. *)
Definition shifts_defined (s : disp) : Prop := 0 <= g_red_shift s < 32 /\ 0 <= g_green_shift s < 32 /\ 0 <= g_blue_shift s < 32.

(** C32.  Drawing a line ends, after as many rounds as the larger of the two
    distances between its end points and one more, and paints one connected
    path of that many points: it starts at the first end point and ends at the
    last one, each point is a neighbour of the next, each lies at most half a
    pixel off the ideal line along the minor axis, and nothing else on the
    screen or in memory changes.  The error term does not overflow for distances
    up to 2^29. *)
Theorem line_paints fb fuel x0 y0 x1 y1 c s : fb_ok fb -> g_fb s = Some fb -> shifts_defined s ->
  - 2 ^ 31 < x0 < 2 ^ 31 - 1 -> - 2 ^ 31 < y0 < 2 ^ 31 - 1 -> - 2 ^ 31 < x1 < 2 ^ 31 - 1 -> - 2 ^ 31 < y1 < 2 ^ 31 - 1 ->
  Z.abs (x1 - x0) <= 2 ^ 29 -> Z.abs (y1 - y0) <= 2 ^ 29 -> Z.max (Z.abs (x1 - x0)) (Z.abs (y1 - y0)) < Z.of_nat fuel ->
  exists s' pts, hal_display_line fuel x0 y0 x1 y1 c s = (OK tt, s') /\ painted fb (points (encode_pixel s c) pts) s s' /\
    head pts = Some (x0, y0) /\ last pts = Some (x1, y1) /\ Z.of_nat (length pts) = Z.max (Z.abs (x1 - x0)) (Z.abs (y1 - y0)) + 1 /\
    connected pts /\ Forall (near_line x0 y0 x1 y1) pts.
Proof.
  intros Hfb Hs _ Hx0 Hy0 Hx1 Hy1 Hdx Hdy Hf. unfold hal_display_line. unfold bind at 1. cbn [get]. rewrite Hs.
  set (a := if x0 <? x1 then x1 - x0 else x0 - x1). set (sx := if x0 <? x1 then 1 else -1).
  set (b := if y0 <? y1 then y1 - y0 else y0 - y1). set (sy := if y0 <? y1 then 1 else -1).
  replace (if y0 <? y1 then - (y1 - y0) else - (y0 - y1)) with (- b) by (subst b; by destruct (y0 <? y1)).
  assert (x1 = x0 + sx * a /\ a = Z.abs (x1 - x0) /\ (sx = 1 \/ sx = -1)) as (Ex & Ea & Hsx) by (subst a sx; zbool; lia).
  assert (y1 = y0 + sy * b /\ b = Z.abs (y1 - y0) /\ (sy = 1 \/ sy = -1)) as (Ey & Eb & Hsy) by (subst b sy; zbool; lia).
  clearbody a b sx sy. assert (0 <= a /\ 0 <= b) as Hab by lia. rewrite <- Ea, <- Eb in *. clear Ea Eb. subst x1 y1.
  rewrite (bind_OK _ _ _ _ _ (int32_ok a s ltac:(lia))), (bind_OK _ _ _ _ _ (int32_ok (- b) s ltac:(lia))), (bind_OK _ _ _ _ _ (int32_ok (a + - b) s ltac:(lia))).
  destruct (line_loop_paints fb Hfb (encode_pixel s c) x0 y0 a b sx sy ltac:(lia) ltac:(lia) Hsx Hsy ltac:(lia) ltac:(lia) fuel 0 0 s)
    as (s' & pts & H & P & Hl & Hn & Hc & Hnr); [split_and!; lia|unfold to_go; zbool; lia|].
  rewrite !Z.mul_0_r, !Z.add_0_r in *. replace ((0 + 1) * a - (0 + 1) * b) with (a + - b) in H by lia.
  exists s', ((x0, y0) :: pts). split_and!; try done. cbn [length]. unfold to_go in Hn. destruct (Z.leb_spec b a); lia.
Qed.

(** ** The display *)
Definition in_int (lo n : Z) : Prop := - 2 ^ 31 <= lo /\ lo + n < 2 ^ 31.

(** C24.  Drawing does what it says and nothing else.  On a framebuffer that
    fits its memory: a framebuffer of 32-bit RGB is bound and any other is
    refused; clearing gives every visible pixel the colour; a rectangle, an
    image and a text give each visible point inside of them the colour of the
    rectangle, of the image at that point, of the glyph at that point, leave
    every other point as it was, and write no memory outside of the visible
    pixels; a pixel that was set is read back with its 24-bit colour when the
    channels do not overlap.  None of them is stuck (no access outside of the
    framebuffer, no signed overflow) while the area ends below 2^31.  The early
    driver's rectangle is the same routine on an encoded colour. *)
Theorem display_paints fb s :
  fb_ok fb -> g_fb s = Some fb -> shifts_defined s ->
  (forall s0, g_fb (canboot_display_bind (Some fb) s0) = if (format fb =? CANBOOT_FB_RGB) && (bpp fb =? 32) then Some fb else None) /\
  (forall c, exists s', hal_display_clear c s = (OK tt, s') /\ painted fb (fun _ _ => Some (encode_pixel s c)) s s') /\
  (forall x y w h c, in_int x w -> in_int y h ->
     exists s', hal_display_fill_rect x y w h c s = (OK tt, s') /\
       painted fb (fun x' y' => if in_rect x y w h x' y' then Some (encode_pixel s c) else None) s s') /\
  (forall x y w h src, in_int x w -> in_int y h -> 0 < w -> 0 < h -> Z.of_nat (length src) = w * h -> w * h < 2 ^ 31 ->
     exists s', hal_display_image x y w h (Some src) s = (OK tt, s') /\
       painted fb (fun x' y' => if in_rect x y w h x' y' then image_color s src x y w x' y' else None) s s') /\
  (forall x y str fg bg, in_int x (8 * Z.of_nat (length str)) -> in_int y 8 ->
     exists s', hal_display_text x y (Some str) fg bg s = (OK tt, s') /\ painted fb (text_color s str x y fg bg) s s') /\
  (forall x y c, visible fb x y ->
     exists s', hal_display_pixel x y c s = (OK tt, s') /\ painted fb (dot x y (encode_pixel s c)) s s' /\
       (channels_apart s -> hal_display_get_pixel x y s' = (OK (Z.land c 0xFFFFFF), s'))) /\
  (fb_drawable fb = true -> forall x y w h c,
     (exists s', fb_clear (Some fb) c s = (OK tt, s') /\ painted fb (fun _ _ => Some c) s s') /\
     fb_fill_rect (Some fb) x y w h (encode_pixel s c) s = hal_display_fill_rect x y w h c s).
Proof.
  intros Hfb Hs _. split_and!.
  - intros s0. unfold canboot_display_bind. by destruct (_ =? _), (_ =? _).
  - intros c. by apply clear_paints.
  - intros x y w h c [Hx Hx'] [Hy Hy']. by apply fill_rect_paints.
  - intros x y w h src [Hx Hx'] [Hy Hy'] Hw Hh Hl Hwh. by apply image_paints.
  - intros x y str fg bg [Hx Hx'] [Hy Hy']. unfold hal_display_text. unfold bind. cbn [get]. rewrite Hs. by apply text_paints.
  - intros x y c Hv. destruct (pixel_paints fb Hfb x y c s Hs) as (s' & H & P). exists s'. split; [done|]. split; [done|]. intros Hc.
    destruct (pa_config _ _ _ _ P) as (C1 & C2 & C3 & C4). rewrite (get_pixel_shown fb Hfb) by (done || congruence). do 2 f_equal.
    rewrite (pa_in _ _ _ _ P x y Hv). unfold dot. rewrite !Z.eqb_refl. cbn [andb from_option id].
    rewrite <- (decode_encode_pixel s c Hc). unfold decode_pixel. by rewrite C2, C3, C4.
  - intros Hd x y w h c. split; [by apply fb_clear_paints|].
    unfold fb_fill_rect, hal_display_fill_rect. rewrite Hd. unfold bind at 3. cbn [get]. by rewrite Hs.
Qed.

(** C25.  Moving a block of the screen is a simultaneous copy, also when the
    block overlaps its destination: every visible point of the destination
    whose source point is visible shows what the source point showed before the
    call, every other point is unchanged, and no memory outside of the visible
    pixels is written.  The order in which rows and columns are copied reads
    each source pixel before it is painted over. *)
Theorem copy_rect_moves fb sx sy dx dy w h s :
  fb_ok fb -> g_fb s = Some fb -> 0 < w -> 0 < h -> in_int sx w -> in_int sy h -> in_int dx w -> in_int dy h ->
  exists s', hal_display_copy_rect sx sy dx dy w h s = (OK tt, s') /\ painted fb (copied fb sx sy dx dy w h s) s s'.
Proof. intros Hfb Hs Hw Hh Hsx Hsy Hdx Hdy. by apply copy_rect_paints. Qed.

(** ** A small screen *)
Definition demo_fb : canboot_fb := mkFb 0x1000 12 10 64 32 CANBOOT_FB_RGB 8 16 8 8 8 0.
Definition demo_disp : disp := canboot_display_bind (Some demo_fb) (mkDisp None 0 0 0 (fun a => a)).

Lemma demo_fb_ok : fb_ok demo_fb.
Proof. split; vm_compute; intuition congruence. Qed.

Lemma demo_shifts : shifts_defined demo_disp.
Proof. vm_compute. intuition congruence. Qed.

(** The text "A" near the lower right corner is clipped; the pixel of its
    second row that is set shows the foreground. *)
Lemma display_paints_witness :
  (exists s', hal_display_text 7 4 (Some [0x41]) 0xFF0000 0x0000FF demo_disp = (OK tt, s') /\
     shown demo_fb s' 9 4 = 0xFF0000 /\ shown demo_fb s' 7 4 = 0x0000FF /\ shown demo_fb s' 6 4 = pixel_at demo_fb 6 4) /\
  (exists s', hal_display_pixel 2 3 0x12345678 demo_disp = (OK tt, s') /\ hal_display_get_pixel 2 3 s' = (OK 0x345678, s')).
Proof.
  destruct (display_paints demo_fb demo_disp demo_fb_ok eq_refl demo_shifts) as (_ & _ & _ & _ & Ht & Hp & _). split.
  - destruct (Ht 7 4 [0x41] 0xFF0000 0x0000FF) as (s' & H & P); [by split|by split|].
    exists s'. split; [exact H|]. rewrite !(pa_in _ _ _ _ P) by (split; vm_compute; split; congruence). split_and!; vm_compute; reflexivity.
  - destruct (Hp 2 3 0x12345678) as (s' & H & _ & Hg); [split; vm_compute; split; congruence|]. exists s'. split; [exact H|].
    rewrite Hg; [done|]. unfold channels_apart. cbn. lia.
Defined.

(** A block moved down and right by one over itself. *)
Lemma copy_rect_moves_witness : exists s', hal_display_copy_rect 1 1 2 2 6 5 demo_disp = (OK tt, s') /\
  shown demo_fb s' 2 2 = pixel_at demo_fb 1 1 /\ shown demo_fb s' 7 6 = pixel_at demo_fb 6 5 /\ shown demo_fb s' 1 1 = pixel_at demo_fb 1 1.
Proof.
  destruct (copy_rect_moves demo_fb 1 1 2 2 6 5 demo_disp demo_fb_ok eq_refl) as (s' & H & P); try (by split) || lia.
  exists s'. split; [exact H|]. rewrite !(pa_in _ _ _ _ P) by (split; vm_compute; split; congruence). split_and!; vm_compute; reflexivity.
Defined.

Lemma line_paints_witness : exists s' pts, hal_display_line 20 (-2) 1 10 6 0xFFFFFF demo_disp = (OK tt, s') /\
  head pts = Some (-2, 1) /\ last pts = Some (10, 6) /\ length pts = 13%nat /\ connected pts.
Proof.
  destruct (line_paints demo_fb 20 (-2) 1 10 6 0xFFFFFF demo_disp demo_fb_ok eq_refl demo_shifts) as (s' & pts & H & _ & Hh & Hl & Hn & Hc & _); try lia.
  exists s', pts. split; [exact H|]. split; [exact Hh|]. split; [exact Hl|]. split; [lia|exact Hc].
Defined.
