(* ===== verification/Ntfs.v ===== *)
(** * The NTFS reader, [fs/ntfs.c]

    The read-only driver of the root directory: the boot record, MFT records
    with their fixups, mapping pairs, the index of the root directory and the
    data of a file.  The static buffers of the source and its cache of the run
    list of the MFT are part of the state, so what one call leaves in them is
    what the next one finds.  [ERR] is the return of -1 or false. *)
From stdpp Require Import functions.
From S2P Require Import Prelude Bytes Text Disk.

Abbreviation NTFS_OEM := 0x202020205346544e (only parsing).
Abbreviation ATTR_VOLUME_NAME := 0x60 (only parsing).
Abbreviation ATTR_DATA := 0x80 (only parsing).
Abbreviation ATTR_INDEX_ROOT := 0x90 (only parsing).
Abbreviation ATTR_INDEX_ALLOCATION := 0xA0 (only parsing).
Abbreviation ATTR_END := 0xFFFFFFFF (only parsing).
Abbreviation FILENAME_DOS := 2 (only parsing).

(** [struct canboot_ntfs], with its own address. *)
Record canboot_ntfs : Type := mkNtfs {
  self : Z; part_start_lba : Z; bytes_per_sector : Z; sectors_per_cluster : Z; bytes_per_cluster : Z;
  total_sectors : Z; mft_lcn : Z; mft_mirr_lcn : Z; bytes_per_mft_record : Z; label : list Z;
  cluster_count : Z; free_clusters : Z;
}.

(** The static buffers: the run list and record 0 of the MFT, the records of
    the three callers, an index block and the sectors of a run. *)
Inductive buffer : Set := MftRuns | Rec0 | RecOpen | RecWalk | RecRead | Blk | Scratch.
#[global] Instance buffer_eq_dec : EqDecision buffer.
Proof. solve_decision. Defined.

(** Offsets of the fields in the packed structures: [mft_record],
    [attr_header_common], [attr_resident], [attr_nonresident], [index_entry] and
    [file_name_attr], and the sizes of three of them. *)
Abbreviation r_attrs_offset := 20 (only parsing).
Abbreviation h_non_resident := 8 (only parsing).
Abbreviation h_name_len := 9 (only parsing).
Abbreviation ra_value_length := 16 (only parsing).
Abbreviation ra_value_offset := 20 (only parsing).
Abbreviation nr_mapping_pairs_offset := 32 (only parsing).
Abbreviation nr_data_size := 48 (only parsing).
Abbreviation ie_entry_length := 8 (only parsing).
Abbreviation ie_key_length := 10 (only parsing).
Abbreviation ie_flags := 12 (only parsing).
Abbreviation sizeof_index_entry := 16 (only parsing).
Abbreviation fn_size := 48 (only parsing).
Abbreviation fn_name_length := 64 (only parsing).
Abbreviation fn_name_type := 65 (only parsing).
Abbreviation fn_name := 66 (only parsing).
Abbreviation sizeof_file_name := 68 (only parsing).
Abbreviation sizeof_index_root := 16 (only parsing).

Section ntfs.
Context {D : Type} `{BlockDevice D}.

Record statics : Type := mkStatics { nt_disk : D; cached_for_fs : Z; cached_valid : bool; mem : buffer -> list Z }.

Definition fill (b : buffer) (off : Z) (bs : list Z) : M statics unit := fun s =>
  if Z.of_nat (length (mem s b)) <? off + Z.of_nat (length bs) then (STUCK, s)
  else (OK tt, mkStatics (nt_disk s) (cached_for_fs s) (cached_valid s) (<[b := splice (Z.to_nat off) bs (mem s b)]> (mem s))).
Definition contents (b : buffer) : M statics (list Z) := fun s => (OK (mem s b), s).
Definition load (n : nat) (off : Z) (buf : list Z) : M statics Z := from_opt (getle n off buf).

(** A [memcpy] out of a buffer. *)
Definition copy (off n : Z) (buf : list Z) : M statics (list Z) :=
  if (off <? 0) || (Z.of_nat (length buf) <? off + n) then stuck else ret (slice (Z.to_nat off) (Z.to_nat n) buf).

Definition read_sectors (fs : canboot_ntfs) (part_lba n : Z) (b : buffer) : M statics unit := fun s =>
  match disk_read (Z.of_nat (length (mem s b))) (u64 (part_start_lba fs + part_lba)) n (nt_disk s) with
  | (OK bs, _) => fill b 0 bs s
  | (ERR, _) => (ERR, s)
  | (STUCK, _) => (STUCK, s)
  | (NOFUEL, _) => (NOFUEL, s)
  end.

(** The fixups from entry [i] of the update sequence on, [n] of them. *)
Fixpoint usa_loop (n : nat) (i usa_off sector_size : Z) (block : list Z) : option (list Z) :=
  match n with
  | O => Some block
  | S n =>
      v ← getle 2 (usa_off + 2 * i) block;
      block ← putle 2 (u32 (i * sector_size) - 2) v block;
      usa_loop n (i + 1) usa_off sector_size block
  end.

Definition apply_usa (block : list Z) (sector_size : Z) : M statics (list Z) :=
  let! usa_off := load 2 4 block in
  let! usa_cnt := load 2 6 block in
  if usa_cnt <? 1 then ret block
  else from_opt (usa_loop (Z.to_nat (usa_cnt - 1)) 1 usa_off sector_size block).

(** A signed 64-bit value: the two's-complement reading of the low 64 bits. *)
Definition s64 (x : Z) : Z := (x + 2 ^ 63) mod 2 ^ 64 - 2 ^ 63.

(** The bytes from the last one down, then the sign. *)
Definition sread (p : list Z) : Z :=
  let v := foldr (fun b v => s64 (Z.lor (Z.shiftl v 8) b)) 0 p in
  match last p with
  | Some top => if Z.land top 0x80 =? 0 then v
                else fold_left (fun v i => s64 (Z.lor v (Z.shiftl 0xFF (i * 8)))) (seqZ (Z.of_nat (length p)) (8 - Z.of_nat (length p))) v
  | None => v
  end.

(** The walk along mapping pairs; [acc] is what has been copied out. *)
Fixpoint read_runs_loop (fuel : nat) (fs : canboot_ntfs) (runs : list Z) (cur_vcn cur_lcn voff vlen : Z) (acc : list Z) : M statics (list Z) :=
  let bytes_done := Z.of_nat (length acc) in
  let! hdr := load 1 0 runs in
  if (hdr =? 0) || (vlen <=? bytes_done) then ret acc
  else
    match fuel with
    | O => nofuel
    | S k =>
        let runs := drop 1 runs in
        let lo := Z.land hdr 0xF in
        let hi := Z.shiftr hdr 4 in
        if lo =? 0 then ret acc
        else
          let! lenb := copy 0 lo runs in
          let length := sread lenb in
          let runs := drop (Z.to_nat lo) runs in
          let! deltab := (if hi =? 0 then ret [] else copy 0 hi runs) in
          let cur_lcn := if hi =? 0 then cur_lcn else s64 (cur_lcn + sread deltab) in
          let runs := drop (Z.to_nat hi) runs in
          let run_bytes := u64 (length * bytes_per_cluster fs) in
          let run_start_voff := u64 (cur_vcn * bytes_per_cluster fs) in
          if u64 (voff + (vlen - bytes_done)) <=? run_start_voff then ret acc
          else if voff <? u64 (run_start_voff + run_bytes) then
            let in_run := if run_start_voff <? voff then voff - run_start_voff else 0 in
            let take := u64 (run_bytes - in_run) in
            let take := if vlen - bytes_done <? take then vlen - bytes_done else take in
            let! bs :=
              (if hi =? 0 then ret (replicate (Z.to_nat take) 0)
               else if bytes_per_sector fs =? 0 then stuck
               else
                 let byte_lba := u64 (cur_lcn * bytes_per_cluster fs + in_run) in
                 let first_sec_off := byte_lba mod bytes_per_sector fs in
                 let sec_start := byte_lba / bytes_per_sector fs in
                 let to_read := u64 (take + first_sec_off) in
                 let n_sect := u32 (u64 (to_read + bytes_per_sector fs - 1) / bytes_per_sector fs) in
                 let! scratch := contents Scratch in
                 if Z.of_nat (Datatypes.length scratch) <? u32 (n_sect * bytes_per_sector fs) then err
                 else
                   read_sectors fs sec_start n_sect Scratch ;;!
                   let! scratch := contents Scratch in
                   copy first_sec_off take scratch) in
            read_runs_loop k fs runs (u64 (cur_vcn + length)) cur_lcn (u64 (voff + take)) vlen (acc ++ bs)
          else read_runs_loop k fs runs (u64 (cur_vcn + length)) cur_lcn voff vlen acc
    end.

(** Every mapping pair takes two bytes at least. *)
Definition read_runs (fs : canboot_ntfs) (runs : list Z) (voff vlen : Z) : M statics (list Z) :=
  read_runs_loop (length runs) fs runs 0 0 voff vlen [].

(** The walk along the attributes of a record that all routines make: [f] works
    on the attribute at [a] and tells whether the loop is left. *)
Fixpoint attr_loop {X : Type} (fuel : nat) (buf : list Z) (size a : Z) (f : Z -> Z -> X -> M statics (X * bool)) (x : X) : M statics X :=
  if a <? size then
    match fuel with
    | O => nofuel
    | S k =>
        let! type := load 4 a buf in
        if type =? ATTR_END then ret x
        else
          let! r := f type a x in
          if r.2 then ret r.1
          else
            let! len := load 4 (a + 4) buf in
            if len =? 0 then ret r.1 else attr_loop k buf size (a + len) f r.1
    end
  else ret x.

Definition set_cache (self : Z) : M statics unit := fun s => (OK tt, mkStatics (nt_disk s) self true (mem s)).

(** Record 0 is read from the boot record's cluster, and its run list cached. *)
Definition cache_mft_runs (fs : canboot_ntfs) : M statics unit :=
  if bytes_per_sector fs =? 0 then stuck
  else
    let byte_off := u64 (mft_lcn fs * bytes_per_cluster fs) in
    let sec := byte_off / bytes_per_sector fs in
    let n_sect := u32 (bytes_per_mft_record fs + bytes_per_sector fs - 1) / bytes_per_sector fs in
    if 2048 <? bytes_per_mft_record fs then err
    else
      read_sectors fs sec n_sect Rec0 ;;!
      let! rec0 := contents Rec0 in
      let! rec0 := apply_usa rec0 (bytes_per_sector fs) in
      fill Rec0 0 rec0 ;;!
      let! a := load 2 r_attrs_offset rec0 in
      attr_loop (length rec0) rec0 (bytes_per_mft_record fs) a (fun type a _ =>
        if negb (type =? ATTR_DATA) then ret (tt, false)
        else
          let! nonres := load 1 (a + h_non_resident) rec0 in
          if negb (nonres =? 1) then ret (tt, false)
          else
            let! mp := load 2 (a + nr_mapping_pairs_offset) rec0 in
            let! runs := copy (a + mp) 256 rec0 in
            fill MftRuns 0 runs ;;! set_cache (self fs) ;;! ret (tt, true)) tt.

Definition read_mft_record (fs : canboot_ntfs) (rec_no : Z) (out : buffer) : M statics unit :=
  let rest :=
    let! mft_runs := contents MftRuns in
    let! bs := read_runs fs mft_runs (u64 (rec_no * bytes_per_mft_record fs)) (bytes_per_mft_record fs) in
    fill out 0 bs ;;!
    if negb (s32 (Z.of_nat (length bs)) =? s32 (bytes_per_mft_record fs)) then err
    else
      let! r := contents out in
      let! r := apply_usa r (bytes_per_sector fs) in
      fill out 0 r in
  let! s := get in
  if negb (cached_valid s) || negb (cached_for_fs s =? self fs) then
    cache_mft_runs fs ;;!
    let! rec0 := contents Rec0 in
    if rec_no =? 0 then
      let! bs := copy 0 (bytes_per_mft_record fs) rec0 in fill out 0 bs
    else
      let! s := get in
      if negb (cached_valid s) then err else rest
  else rest.

(** UTF-16 units cut down to ASCII. *)
Definition fold_char (u : Z) : Z := if u <? 0x80 then u else 63.
Definition fold_name (off n : Z) (buf : list Z) : M statics (list Z) :=
  if (off <? 0) || (Z.of_nat (length buf) <? off + 2 * n) then stuck
  else ret ((fun i => fold_char (le_dec (slice (Z.to_nat (off + 2 * i)) 2 buf))) <$> seqZ 0 n).

(** The label from the record of $Volume. *)
Definition read_label (fs : canboot_ntfs) (rec : list Z) : M statics (list Z) :=
  let! a := load 2 r_attrs_offset rec in
  attr_loop (length rec) rec (bytes_per_mft_record fs) a (fun type a l =>
    if negb (type =? ATTR_VOLUME_NAME) then ret (l, false)
    else
      let! nonres := load 1 (a + h_non_resident) rec in
      if negb (nonres =? 0) then ret (l, false)
      else
        let! vo := load 2 (a + ra_value_offset) rec in
        let! vl := load 4 (a + ra_value_length) rec in
        let ulen := vl / 2 in
        let ulen := if 128 <? ulen then 128 else ulen in
        let! l := fold_name (a + vo) ulen rec in
        ret (l, true)) [].

Definition set_label (fs : canboot_ntfs) (l : list Z) : canboot_ntfs :=
  mkNtfs (self fs) (part_start_lba fs) (bytes_per_sector fs) (sectors_per_cluster fs) (bytes_per_cluster fs) (total_sectors fs) (mft_lcn fs)
    (mft_mirr_lcn fs) (bytes_per_mft_record fs) l (cluster_count fs) (free_clusters fs).

(** [canboot_ntfs_open] into the structure at [out]. *)
Definition canboot_ntfs_open (part : Z) (out : Z) : M statics canboot_ntfs :=
  let! s := get in
  let! boot := (match disk_read 512 part 1 (nt_disk s) with
                | (OK bs, _) => ret bs | (ERR, _) => err | (STUCK, _) => stuck | (NOFUEL, _) => nofuel end) in
  let! oem := load 8 3 boot in
  if negb (oem =? NTFS_OEM) then err
  else
    let! bps := load 2 11 boot in
    let! spc := load 1 13 boot in
    let! total := load 8 40 boot in
    let! lcn := load 8 48 boot in
    let! mirr := load 8 56 boot in
    let! cpr := load 1 64 boot in
    let bpc := u32 (bps * spc) in
    if spc =? 0 then stuck
    else
      let cpr := if cpr <? 128 then cpr else cpr - 256 in
      if (cpr <=? 0) && (32 <=? - cpr) then stuck
      else
        let rec_size := if 0 <? cpr then u32 (cpr * bpc) else Z.shiftl 1 (- cpr) in
        let fs := mkNtfs out part bps spc bpc total lcn mirr rec_size [] (total / spc) 0 in
        if 2048 <? rec_size then ret fs
        else
          let! r := attempt (read_mft_record fs 3 RecOpen) in
          match r with
          | None => ret fs
          | Some _ =>
              let! rec := contents RecOpen in
              let! l := read_label fs rec in
              ret (set_label fs l)
          end.

(** [struct walk_state]; the callback takes and returns its user data. *)
Record walk_state (U : Type) : Type := mkWalk {
  cb : option (list Z -> Z -> U -> bool * U); user : U; want_name : option (list Z);
  found_mft : Z; found_size : Z; reported : Z; stop : bool;
}.

(** One entry with a file name in its key: reported, or compared. *)
Definition visit_entry {U} (buf : list Z) (p : Z) (st : walk_state U) : M statics (walk_state U * bool) :=
  let fn := p + sizeof_index_entry in
  let! n := load 1 (fn + fn_name_length) buf in
  let! name := fold_name (fn + fn_name) n buf in
  let! ref := load 8 p buf in
  let mft_ref := Z.land ref 0xFFFFFFFFFFFF in
  let! ty := load 1 (fn + fn_name_type) buf in
  if (mft_ref <? 16) || (ty =? FILENAME_DOS) then ret (st, true)
  else
    match want_name _ st with
    | Some w =>
        if decide (cstr name = cstr w) then
          let! size := load 8 (fn + fn_size) buf in
          ret (mkWalk U (cb _ st) (user _ st) (want_name _ st) mft_ref size (reported _ st) true, false)
        else ret (st, true)
    | None =>
        match cb _ st with
        | Some f =>
            let! size := load 8 (fn + fn_size) buf in
            let (go, u) := f (cstr name) size (user _ st) in
            if go then ret (mkWalk U (cb _ st) u (want_name _ st) (found_mft _ st) (found_size _ st) (reported _ st + 1) (stop _ st), true)
            else ret (mkWalk U (cb _ st) u (want_name _ st) (found_mft _ st) (found_size _ st) (reported _ st) true, false)
        | None => ret (st, true)
        end
    end.

(** [walk_entries] on the block that starts at [block] of a buffer and ends at
    [stop_at]. *)
Fixpoint walk_entries_loop {U} (fuel : nat) (buf : list Z) (stop_at p : Z) (st : walk_state U) : M statics (walk_state U) :=
  if p + sizeof_index_entry <=? stop_at then
    match fuel with
    | O => nofuel
    | S k =>
        let! len := load 2 (p + ie_entry_length) buf in
        if len <? sizeof_index_entry then ret st
        else
          let! flags := load 2 (p + ie_flags) buf in
          if negb (Z.land flags 2 =? 0) then ret st
          else
            let! klen := load 2 (p + ie_key_length) buf in
            if klen <? sizeof_file_name then walk_entries_loop k buf stop_at (p + len) st
            else
              let! r := visit_entry buf p st in
              if negb r.2 then ret r.1 else walk_entries_loop k buf stop_at (p + len) r.1
    end
  else ret st.

(** Entries are 16 bytes at least: the loop leaves the buffer before the fuel
    ends. *)
Definition walk_entries {U} (buf : list Z) (block block_size entries_off : Z) (st : walk_state U) : M statics (walk_state U) :=
  walk_entries_loop (Datatypes.S (length buf)) buf (block + block_size) (block + entries_off) st.

(** The attributes of the root directory: its resident entries are walked, and
    the run list and size of the other ones kept. *)
Definition root_attr {U} (rec : list Z) (type a : Z) (x : walk_state U * option (list Z) * Z) : M statics (walk_state U * option (list Z) * Z * bool) :=
  let '(st, runs, alloc_size) := x in
  if type =? ATTR_INDEX_ROOT then
    let! nonres := load 1 (a + h_non_resident) rec in
    if negb (nonres =? 0) then ret (x, false)
    else
      let! vo := load 2 (a + ra_value_offset) rec in
      let ih := a + vo + sizeof_index_root in
      let! eo := load 4 ih rec in
      let! total := load 4 (ih + 4) rec in
      let! st := walk_entries rec ih total eo st in
      ret ((st, runs, alloc_size), stop _ st)
  else if type =? ATTR_INDEX_ALLOCATION then
    let! nonres := load 1 (a + h_non_resident) rec in
    if negb (nonres =? 1) then ret (x, false)
    else
      let! mp := load 2 (a + nr_mapping_pairs_offset) rec in
      let! size := load 8 (a + nr_data_size) rec in
      ret ((st, Some (drop (Z.to_nat (a + mp)) rec), size), false)
  else ret (x, false).

(** The index blocks from offset [off] on. *)
Fixpoint walk_blocks {U} (fuel : nat) (fs : canboot_ntfs) (runs : list Z) (alloc_size off : Z) (st : walk_state U) : M statics (walk_state U) :=
  if (off <? alloc_size) && negb (stop _ st) then
    match fuel with
    | O => nofuel
    | S k =>
        let want := if alloc_size - off <? 4096 then alloc_size - off else 4096 in
        let! r := attempt (read_runs fs runs off want) in
        match r with
        | None => ret st
        | Some bs =>
            fill Blk 0 bs ;;!
            if s32 (Z.of_nat (length bs)) <=? 0 then ret st
            else
              let! b := contents Blk in
              let! b := apply_usa b (bytes_per_sector fs) in
              fill Blk 0 b ;;!
              let! eo := load 4 0x18 b in
              let! total := load 4 (0x18 + 4) b in
              let! st := walk_entries b 0x18 (u32 (total + 0x18)) (u32 (0x18 + eo)) st in
              walk_blocks k fs runs alloc_size (u64 (off + 4096)) st
        end
    end
  else ret st.

Definition walk_root {U} (fuel : nat) (fs : canboot_ntfs) (st : walk_state U) : M statics (walk_state U) :=
  if 2048 <? bytes_per_mft_record fs then err
  else
    read_mft_record fs 5 RecWalk ;;!
    let! rec := contents RecWalk in
    let! a := load 2 r_attrs_offset rec in
    let! x := attr_loop (length rec) rec (bytes_per_mft_record fs) a (root_attr rec) (st, None, 0) in
    let '(st, runs, alloc_size) := x in
    if stop _ st then ret st
    else
      match runs with
      | Some runs => if 0 <? alloc_size then walk_blocks fuel fs runs alloc_size 0 st else ret st
      | None => ret st
      end.

(** The unnamed data of the file: the bytes that fit and the full size. *)
Definition file_data (fs : canboot_ntfs) (rec : list Z) (out_size : Z) : M statics (list Z * Z) :=
  let! a := load 2 r_attrs_offset rec in
  let! r := attr_loop (length rec) rec (bytes_per_mft_record fs) a (fun type a x =>
    if negb (type =? ATTR_DATA) then ret (x, false)
    else
      let! nlen := load 1 (a + h_name_len) rec in
      if negb (nlen =? 0) then ret (x, false)
      else
        let! nonres := load 1 (a + h_non_resident) rec in
        if nonres =? 0 then
          let! vl := load 4 (a + ra_value_length) rec in
          let! vo := load 2 (a + ra_value_offset) rec in
          let n := if out_size <? vl then out_size else vl in
          let! bs := copy (a + vo) n rec in
          ret (Some (bs, vl), true)
        else
          let! size := load 8 (a + nr_data_size) rec in
          let to_read := if out_size <? size then out_size else u32 size in
          let! mp := load 2 (a + nr_mapping_pairs_offset) rec in
          let! bs := read_runs fs (drop (Z.to_nat (a + mp)) rec) 0 to_read in
          if s32 (Z.of_nat (length bs)) <? 0 then err
          else ret (Some (bs, u32 size), true)) None in
  match r with Some r => ret r | None => err end.

Definition canboot_ntfs_read_root_file (fuel : nat) (fs : canboot_ntfs) (name : option (list Z)) (out_size : Z) : M statics (list Z * Z) :=
  match name with
  | None => err
  | Some name =>
      let! st := walk_root fuel fs (mkWalk unit None tt (Some name) 0 0 0 false) in
      if negb (stop _ st) then err
      else if 2048 <? bytes_per_mft_record fs then err
      else
        read_mft_record fs (found_mft _ st) RecRead ;;!
        let! rec := contents RecRead in
        file_data fs rec out_size
  end.

Definition canboot_ntfs_write_root_file : M statics unit := err.

Definition canboot_ntfs_list_root {U} (fuel : nat) (fs : canboot_ntfs) (f : option (list Z -> Z -> U -> bool * U)) (u : U) : M statics (Z * U) :=
  match f with
  | None => err
  | Some f =>
      let! st := walk_root fuel fs (mkWalk U (Some f) u None 0 0 0 false) in
      ret (reported _ st, user _ st)
  end.
End ntfs.
Arguments statics : clear implicits.
