(* ===== verification/NtfsRuns.v ===== *)
(** * Signed fields, fixups and mapping pairs

    The pieces of the NTFS reader against reference definitions: a signed field
    of 1 to 8 bytes, the fixups of a multi-sector block, and the data a list of
    runs stands for. *)
From stdpp Require Import functions.
From S2P Require Import Prelude Bytes Text Disk Ntfs.

(** ** Signed fields *)
Lemma s64_id x : - 2 ^ 63 <= x < 2 ^ 63 -> s64 x = x.
Proof. intros Hx. unfold s64. rewrite Z.mod_small; lia. Qed.

Lemma lor_above v b k : 0 <= k -> 0 <= v < 2 ^ k -> Z.lor v (Z.shiftl b k) = v + b * 2 ^ k.
Proof.
  intros Hk Hv. rewrite Z.shiftl_mul_pow2, <- Z.add_lor_land by lia.
  replace (Z.land v (b * 2 ^ k)) with 0; [lia|]. symmetry. rewrite <- Z.shiftl_mul_pow2 by lia.
  apply Z.bits_inj'. intros i Hi. rewrite Z.bits_0, Z.land_spec, Z.shiftl_spec by lia. destruct (Z.lt_ge_cases i k).
  - rewrite (Z.testbit_neg_r b) by lia. apply andb_false_r.
  - replace v with (v mod 2 ^ k) by (by apply Z.mod_small). by rewrite Z.mod_pow2_bits_high by lia.
Qed.

Lemma sread_bits p : Forall byte_ok p -> (length p <= 8)%nat -> foldr (fun b v => s64 (Z.lor (Z.shiftl v 8) b)) 0 p = s64 (le_dec p).
Proof.
  induction p as [|b p IH]; intros Hp Hl; [done|]. cbn [foldr le_dec]. apply Forall_cons in Hp as [Hb Hp]. cbn in Hl.
  rewrite IH by (done || lia). assert (0 <= le_dec p < 2 ^ 56).
  { pose proof (le_dec_range p Hp). assert (2 ^ (8 * Z.of_nat (length p)) <= 2 ^ 56) by (apply Z.pow_le_mono_r; lia). lia. }
  rewrite (s64_id (le_dec p)) by lia. f_equal. rewrite Z.lor_comm, lor_above by (done || lia). lia.
Qed.

Lemma s64_top v : 0 <= v < 2 ^ 56 -> s64 (v + 255 * 2 ^ 56) = v - 2 ^ 56.
Proof.
  intros Hv. unfold s64. replace (v + 255 * 2 ^ 56 + 2 ^ 63) with (v - 2 ^ 56 + 2 ^ 63 + 1 * 2 ^ 64) by lia.
  rewrite Z_mod_plus_full, Z.mod_small by lia. lia.
Qed.

(** The sign, filled in from byte [n] on. *)
Lemma sign_fill m : forall (n v : Z), 0 <= n -> n + Z.of_nat m = 8 -> (0 < m)%nat -> 0 <= v < 2 ^ (8 * n) ->
  fold_left (fun v i => s64 (Z.lor v (Z.shiftl 0xFF (i * 8)))) (seqZ n (Z.of_nat m)) v = v - 2 ^ (8 * n).
Proof.
  induction m as [|m IH]; intros n v Hn Hm Hpos Hv; [lia|]. rewrite seqZ_cons by lia. cbn [fold_left].
  replace (n * 8) with (8 * n) by lia. rewrite lor_above by lia.
  assert (Hp : 2 ^ (8 * (n + 1)) = 256 * 2 ^ (8 * n)) by (replace (8 * (n + 1)) with (8 * n + 8) by lia; rewrite Z.pow_add_r by lia; lia).
  assert (0 < 2 ^ (8 * n)) by (apply Z.pow_pos_nonneg; lia).
  destruct (decide (m = 0%nat)) as [->|Hm0].
  - replace n with 7 in * by lia. rewrite seqZ_nil by lia. cbn [fold_left]. apply s64_top. exact Hv.
  - assert (2 ^ (8 * (n + 1)) <= 2 ^ 56) by (apply Z.pow_le_mono_r; lia). rewrite s64_id by lia.
    replace (Z.pred (Z.of_nat (S m))) with (Z.of_nat m) by lia. replace (Z.succ n) with (n + 1) by lia. rewrite IH by lia. lia.
Qed.

Lemma last_le_enc n v : last (le_enc (S n) v) = Some ((v / 2 ^ (8 * Z.of_nat n)) mod 256).
Proof.
  revert v. induction n as [|n IH]; intros v; [cbn; by rewrite Z.div_1_r|].
  change (le_enc (S (S n)) v) with (v mod 256 :: le_enc (S n) (v / 256)). rewrite last_cons, IH. do 2 f_equal.
  rewrite Z.div_div by lia. f_equal. replace (8 * Z.of_nat (S n)) with (8 + 8 * Z.of_nat n) by lia. by rewrite Z.pow_add_r by lia.
Qed.

(** The field [sread] decodes. *)
Definition signed_fits (n : nat) (v : Z) : Prop := - 2 ^ (8 * Z.of_nat n - 1) <= v < 2 ^ (8 * Z.of_nat n - 1).

Lemma sread_enc n v : (1 <= n <= 8)%nat -> signed_fits n v -> sread (le_enc n v) = v.
Proof.
  intros Hn Hv. unfold signed_fits in Hv. destruct n as [|n]; [lia|]. unfold sread. rewrite last_le_enc, sread_bits, le_dec_enc, length_le_enc;
    [|apply le_enc_byte_ok|rewrite length_le_enc; lia].
  set (w := 8 * Z.of_nat n) in *. assert (Hp : 2 ^ (8 * Z.of_nat (S n)) = 256 * 2 ^ w).
  { replace (8 * Z.of_nat (S n)) with (8 + w) by (unfold w; lia). rewrite Z.pow_add_r by (unfold w; lia). lia. }
  assert (Hp' : 2 ^ (8 * Z.of_nat (S n) - 1) = 128 * 2 ^ w).
  { replace (8 * Z.of_nat (S n) - 1) with (7 + w) by (unfold w; lia). rewrite Z.pow_add_r by (unfold w; lia). lia. }
  assert (Hw : 0 < 2 ^ w <= 2 ^ 56) by (split; [apply Z.pow_pos_nonneg|apply Z.pow_le_mono_r]; unfold w; lia).
  rewrite Hp' in Hv. rewrite Hp. change 0x80 with (2 ^ 7). rewrite (Z.land_comm _ (2 ^ 7)).
  assert (Hd : - 128 <= v / 2 ^ w < 128) by (Z.div_mod_to_equations; nia).
  destruct (Z.lt_ge_cases v 0) as [Hneg|Hneg].
  - assert (Hm : v mod (256 * 2 ^ w) = v + 256 * 2 ^ w).
    { replace v with (v + 256 * 2 ^ w + (-1) * (256 * 2 ^ w)) at 1 by lia. rewrite Z_mod_plus_full. apply Z.mod_small. lia. }
    assert (Hd' : v / 2 ^ w < 0) by (apply Z.div_lt_upper_bound; lia).
    replace ((v / 2 ^ w) mod 256) with (v / 2 ^ w + 256) by (replace (v / 2 ^ w) with (v / 2 ^ w + 256 + (-1) * 256) at 2 by lia; rewrite Z_mod_plus_full, Z.mod_small; lia).
    replace (Z.land (2 ^ 7) (v / 2 ^ w + 256) =? 0) with false.
    2: { symmetry. apply Z.eqb_neq. intros E. assert (Hb : Z.testbit (Z.land (2 ^ 7) (v / 2 ^ w + 256)) 7 = false) by (by rewrite E).
         rewrite Z.land_spec, Z.pow2_bits_true, andb_true_l, Z.testbit_false in Hb by lia. change (2 ^ 7) with 128 in Hb.
         replace ((v / 2 ^ w + 256) / 128) with 1 in Hb; [done|]. apply Z.div_unique with (v / 2 ^ w + 128); lia. }
    rewrite Hm. destruct (decide (n = 7%nat)) as [->|Hn7].
    + rewrite seqZ_nil by lia. cbn [fold_left]. assert (w = 56) as E by (unfold w; lia). rewrite E in *. unfold s64.
      replace (v + 256 * 2 ^ 56 + 2 ^ 63) with (v + 2 ^ 63 + 1 * 2 ^ 64) by lia. rewrite Z_mod_plus_full, Z.mod_small; lia.
    + assert (2 ^ w <= 2 ^ 48) by (apply Z.pow_le_mono_r; unfold w; lia). rewrite s64_id by lia.
      replace (8 - Z.of_nat (S n)) with (Z.of_nat (7 - n)) by lia. rewrite sign_fill by (try rewrite Hp; lia). lia.
  - rewrite (Z.mod_small v (256 * 2 ^ w)) by lia. replace ((v / 2 ^ w) mod 256) with (v / 2 ^ w) by (symmetry; apply Z.mod_small; split; [apply Z.div_pos; lia|lia]).
    replace (Z.land (2 ^ 7) (v / 2 ^ w) =? 0) with true.
    2: { symmetry. apply Z.eqb_eq. apply Z.bits_inj'. intros i Hi. rewrite Z.land_spec, Z.bits_0. destruct (decide (i = 7)) as [->|Hi7].
         - apply andb_false_iff. right. rewrite Z.testbit_false by lia. by rewrite Z.div_small by (change (2 ^ 7) with 128; split; [apply Z.div_pos; lia|lia]).
         - by rewrite Z.pow2_bits_false by lia. }
    apply s64_id. lia.
Qed.

(** ** Fixups *)

(** [R] is a block of [cnt - 1] sectors whose update sequence array, in front of
    the end of the first sector, holds the last two bytes of each sector. *)
Record usa_ok (ss cnt usa_off : Z) (R : list Z) : Prop := {
  us_off : getle 2 4 R = Some usa_off;
  us_cnt : getle 2 6 R = Some cnt;
  us_range : 1 <= cnt /\ 8 <= usa_off /\ usa_off + 2 * cnt <= ss - 2 /\ cnt * ss < 2 ^ 32;
  us_len : (cnt - 1) * ss <= Z.of_nat (length R);
  us_bytes i : 1 <= i < cnt -> Forall byte_ok (slice (Z.to_nat (i * ss - 2)) 2 R);
  us_saved i : 1 <= i < cnt -> slice (Z.to_nat (usa_off + 2 * i)) 2 R = slice (Z.to_nat (i * ss - 2)) 2 R;
}.

(** [raw] is [R] as it is on the disk: the last two bytes of the sectors from
    number [i] on are used for the sequence number. *)
Definition torn (ss cnt i : Z) (R raw : list Z) : Prop :=
  length raw = length R /\ forall k : nat, (forall i', i <= i' < cnt -> ~ i' * ss - 2 <= Z.of_nat k < i' * ss) -> raw !! k = R !! k.

Lemma slice_agree (R raw : list Z) off n : (forall k : nat, (off <= k < off + n)%nat -> raw !! k = R !! k) -> length raw = length R ->
  slice off n raw = slice off n R.
Proof.
  intros H Hl. apply list_eq. intros i. destruct (decide (i < n)%nat).
  - rewrite !lookup_slice by done. apply H. lia.
  - unfold slice. rewrite !lookup_take_ge; [done|lia..].
Qed.

Lemma usa_step ss cnt usa_off R raw i : usa_ok ss cnt usa_off R -> 1 <= i < cnt -> torn ss cnt i R raw ->
  exists raw', (v ← getle 2 (usa_off + 2 * i) raw; putle 2 (u32 (i * ss) - 2) v raw) = Some raw' /\ torn ss cnt (i + 1) R raw'.
Proof.
  intros [_ _ Hr Hlen Hb Hs] Hi [Hl Ha].
  assert (Hmul : forall i', 1 <= i' -> ss <= i' * ss) by (intros i' Hi'; rewrite <- (Z.mul_1_l ss) at 1; apply Z.mul_le_mono_nonneg_r; lia).
  pose proof (Hmul i ltac:(lia)). assert (i * ss <= (cnt - 1) * ss) by (apply Z.mul_le_mono_nonneg_r; lia).
  assert (Hsl : length (slice (Z.to_nat (i * ss - 2)) 2 R) = 2%nat) by (apply length_slice; lia).
  rewrite getle_Some by lia. cbn [mbind option_bind]. rewrite u32_small by lia. rewrite putle_Some by lia.
  rewrite (slice_agree R raw); [|intros k Hk; apply Ha; intros i' Hi'; specialize (Hmul i'); lia|done].
  rewrite Hs by done. assert (le_enc 2 (le_dec (slice (Z.to_nat (i * ss - 2)) 2 R)) = slice (Z.to_nat (i * ss - 2)) 2 R) as ->.
  { rewrite <- Hsl at 1. apply le_enc_dec. by apply Hb. }
  eexists. split; [done|]. split; [rewrite length_splice; lia|]. intros k Hk.
  destruct (decide (Z.to_nat (i * ss - 2) <= k < Z.to_nat (i * ss - 2) + 2)%nat).
  - rewrite lookup_splice_in, lookup_slice by lia. f_equal. lia.
  - rewrite lookup_splice_out by lia. apply Ha. intros i' Hi' Hk'. destruct (decide (i' = i)) as [->|]; [lia|]. apply (Hk i'); [lia|done].
Qed.

Lemma usa_loop_run ss cnt usa_off R n : forall i raw, usa_ok ss cnt usa_off R -> 1 <= i -> i + Z.of_nat n = cnt -> torn ss cnt i R raw ->
  usa_loop n i usa_off ss raw = Some R.
Proof.
  induction n as [|n IH]; intros i raw Hu Hi Hn Ht; cbn [usa_loop].
  - f_equal. destruct Ht as [Hl Ha]. apply list_eq_lookup_lt; [done|]. intros k _. apply Ha. intros i' Hi'. lia.
  - destruct (usa_step ss cnt usa_off R raw i Hu ltac:(lia) Ht) as (raw' & Hs & Ht').
    destruct (getle 2 (usa_off + 2 * i) raw); [|done]. cbn in Hs |- *. rewrite Hs. cbn. apply IH; (done || lia).
Qed.

Lemma getle_app n off R x v : getle n off R = Some v -> getle n off (R ++ x) = Some v.
Proof.
  unfold getle. rewrite length_app. destruct (Z.leb_spec 0 off), (Z.leb_spec (off + Z.of_nat n) (Z.of_nat (length R))); cbn; try done.
  rewrite (proj2 (Z.leb_le (off + Z.of_nat n) _)) by lia. intros <-. do 2 f_equal. unfold slice. rewrite drop_app_le, take_app_le; [done|rewrite length_drop; lia|lia].
Qed.

Lemma usa_ok_app ss cnt usa_off R x : usa_ok ss cnt usa_off R -> usa_ok ss cnt usa_off (R ++ x).
Proof.
  intros [H1 H2 Hr Hl Hb Hs]. assert (Htail : forall i off, 1 <= i < cnt -> 0 <= off <= i * ss - 2 -> slice (Z.to_nat off) 2 (R ++ x) = slice (Z.to_nat off) 2 R).
  { intros i off Hi Ho. assert (i * ss <= (cnt - 1) * ss) by (apply Z.mul_le_mono_nonneg_r; lia).
    unfold slice. rewrite drop_app_le, take_app_le; [done|rewrite length_drop; lia|lia]. }
  assert (Hss : forall i, 1 <= i < cnt -> ss <= i * ss) by (intros i Hi; rewrite <- (Z.mul_1_l ss) at 1; apply Z.mul_le_mono_nonneg_r; lia).
  split; [by apply getle_app..|done|rewrite length_app; lia| |].
  - intros i Hi. specialize (Hss i Hi). rewrite (Htail i) by lia. by apply Hb.
  - intros i Hi. specialize (Hss i Hi). rewrite !(Htail i) by lia. by apply Hs.
Qed.

Lemma torn_app ss cnt R raw x : (cnt - 1) * ss <= Z.of_nat (length R) -> torn ss cnt 1 R raw -> torn ss cnt 1 (R ++ x) (raw ++ x).
Proof.
  intros Hl [Hlen Ha]. split; [by rewrite !length_app, Hlen|]. intros k Hk. destruct (decide (k < length R)%nat).
  - rewrite !lookup_app_l by lia. by apply Ha.
  - rewrite !lookup_app_r by lia. by rewrite Hlen.
Qed.

Lemma torn_getle ss cnt usa_off R raw n off : usa_ok ss cnt usa_off R -> torn ss cnt 1 R raw -> 0 <= off -> off + Z.of_nat n <= ss - 2 ->
  getle n off raw = getle n off R.
Proof.
  intros [_ _ Hr _ _ _] [Hl Ha] Ho Hn. unfold getle. rewrite Hl. destruct (_ && _) eqn:E; [|done]. do 2 f_equal.
  apply slice_agree; [|done]. intros k Hk. apply Ha. intros i Hi.
  assert (ss <= i * ss) by (rewrite <- (Z.mul_1_l ss) at 1; apply Z.mul_le_mono_nonneg_r; lia). lia.
Qed.

(** Applying the fixups to a block as it is on the disk gives the block. *)
Lemma apply_usa_run {D} ss cnt usa_off R raw (s : statics D) : usa_ok ss cnt usa_off R -> torn ss cnt 1 R raw -> apply_usa raw ss s = (OK R, s).
Proof.
  intros Hu Ht. pose proof Hu as [H1 H2 Hr Hl Hb Hs]. unfold apply_usa, load.
  rewrite (torn_getle _ _ _ _ _ _ _ Hu Ht), H1 by lia. unfold bind at 1. cbn [from_opt ret].
  rewrite (torn_getle _ _ _ _ _ _ _ Hu Ht), H2 by lia. unfold bind at 1. cbn [from_opt ret]. rewrite (proj2 (Z.ltb_ge _ _)) by lia.
  rewrite (usa_loop_run ss cnt usa_off R) by (done || lia). done.
Qed.

(** ** Runs *)
Lemma slice_app_r {A} (l k : list A) off n : (length l <= off)%nat -> slice off n (l ++ k) = slice (off - length l) n k.
Proof. intros. unfold slice. by rewrite drop_app_ge. Qed.

Lemma slice_app_l {A} (l k : list A) off n : (off + n <= length l)%nat -> slice off n (l ++ k) = slice off n l.
Proof. intros. unfold slice. rewrite drop_app_le, take_app_le; [done|rewrite length_drop; lia|lia]. Qed.

(** A slice of a row of blocks lies in the blocks it touches. *)
Lemma slice_blocks (f : Z -> list Z) bs a m k m' j n : 0 < bs -> (forall i, a <= i < a + m -> Z.of_nat (length (f i)) = bs) ->
  0 <= k -> 0 <= m' -> k + m' <= m -> 0 <= j -> 0 <= n -> j + n <= m' * bs ->
  slice (Z.to_nat (k * bs + j)) (Z.to_nat n) (concat (f <$> seqZ a m)) = slice (Z.to_nat j) (Z.to_nat n) (concat (f <$> seqZ (a + k) m')).
Proof.
  intros Hbs Hf Hk Hm' Hkm Hj Hn Hjn.
  assert (Hlen : forall x y, a <= x -> 0 <= y -> x + y <= a + m -> Z.of_nat (length (concat (f <$> seqZ x y))) = y * bs).
  { intros x y Hx Hy Hxy. rewrite (length_concat_const f (seqZ x y) (Z.to_nat bs)); [rewrite length_seqZ; nia|].
    intros i Hi. apply elem_of_seqZ in Hi. specialize (Hf i ltac:(lia)). lia. }
  replace m with (k + (m' + (m - k - m'))) by lia. rewrite (seqZ_app a k), (seqZ_app (a + k) m') by lia. rewrite !fmap_app, !concat_app.
  pose proof (Hlen a k ltac:(lia) Hk ltac:(lia)) as L1. pose proof (Hlen (a + k) m' ltac:(lia) Hm' ltac:(lia)) as L2.
  rewrite slice_app_r by nia. rewrite slice_app_l by nia. f_equal. nia.
Qed.

Definition run : Type := Z * option Z.

(** The mapping pairs of some runs after the cluster [prev], with whatever
    follows their end: for each run a length, and the distance of its first
    cluster from the one of the run before or nothing for a sparse run. *)
Inductive encodes : Z -> list run -> list Z -> Prop :=
| enc_end prev rest : encodes prev [] (0 :: rest)
| enc_sparse prev (lo : nat) len rs bs : (1 <= lo <= 8)%nat -> signed_fits lo len -> encodes prev rs bs ->
    encodes prev ((len, None) :: rs) (Z.of_nat lo :: le_enc lo len ++ bs)
| enc_run prev (lo hi : nat) len lcn rs bs : (1 <= lo <= 8)%nat -> (1 <= hi <= 8)%nat -> signed_fits lo len -> signed_fits hi (lcn - prev) ->
    encodes lcn rs bs -> encodes prev ((len, Some lcn) :: rs) (Z.of_nat lo + 16 * Z.of_nat hi :: le_enc lo len ++ le_enc hi (lcn - prev) ++ bs).

Lemma encodes_app prev rs bs x : encodes prev rs bs -> encodes prev rs (bs ++ x).
Proof. induction 1; cbn; rewrite <- ?app_assoc; by constructor. Qed.

Lemma encodes_length prev rs bs : encodes prev rs bs -> (length rs < length bs)%nat.
Proof. induction 1; cbn; rewrite ?length_app; lia. Qed.

Section runs.
Context {D : Type} `{BlockDevice D} `{!BlockDeviceLaws D}.
Implicit Types (s : statics D) (d : D) (fs : canboot_ntfs).

Record geometry_ok d fs : Prop := {
  ge_inv : bd_inv d;
  ge_block : bd_block_size d = bytes_per_sector fs;
  ge_sector : 0 < bytes_per_sector fs < 2 ^ 16;
  ge_cluster : 0 < sectors_per_cluster fs < 2 ^ 8 /\ bytes_per_cluster fs = bytes_per_sector fs * sectors_per_cluster fs;
  ge_part : 0 <= part_start_lba fs;
  ge_size : bd_block_count d * bytes_per_sector fs < 2 ^ 63;
}.

Definition run_data d fs (r : run) : list Z :=
  match r.2 with
  | Some lcn => concat (bd_blk d <$> seqZ (part_start_lba fs + lcn * sectors_per_cluster fs) (r.1 * sectors_per_cluster fs))
  | None => replicate (Z.to_nat (r.1 * bytes_per_cluster fs)) 0
  end.
Definition runs_data d fs (rs : list run) : list Z := concat (run_data d fs <$> rs).

Definition run_ok d fs (r : run) : Prop :=
  0 < r.1 /\ match r.2 with
             | Some lcn => 0 <= lcn /\ part_start_lba fs + (lcn + r.1) * sectors_per_cluster fs <= bd_block_count d
             | None => True
             end.

Lemma length_run_data d fs r : geometry_ok d fs -> run_ok d fs r -> Z.of_nat (length (run_data d fs r)) = r.1 * bytes_per_cluster fs.
Proof.
  intros [Hi Hb Hs [Hc Hbc] Hp _] [Hl Hr]. unfold run_data. destruct (r.2) as [lcn|]; [|rewrite length_replicate; nia].
  rewrite (length_concat_const _ _ (Z.to_nat (bytes_per_sector fs))); [rewrite length_seqZ; nia|].
  intros i Hin. apply elem_of_seqZ in Hin. pose proof (bd_blk_length d i Hi ltac:(nia)). lia.
Qed.

(** What a read leaves alone: everything but the contents of the scratch buffer. *)
Record quiet s s' : Prop := {
  qu_disk : nt_disk s' = nt_disk s;
  qu_cache : cached_for_fs s' = cached_for_fs s /\ cached_valid s' = cached_valid s;
  qu_mem b : b <> Scratch -> mem s' b = mem s b;
  qu_scratch : length (mem s' Scratch) = length (mem s Scratch);
}.

Lemma quiet_refl s : quiet s s.
Proof. by split. Qed.

Lemma quiet_trans s1 s2 s3 : quiet s1 s2 -> quiet s2 s3 -> quiet s1 s3.
Proof. intros [A [B B'] C E] [A2 [B2 B2'] C2 E2]. split; [congruence|split; congruence|intros b Hb; by rewrite C2, C|congruence]. Qed.

Lemma fill_run (b : buffer) bs s : (length bs <= length (mem s b))%nat ->
  fill b 0 bs s = (OK tt, mkStatics (nt_disk s) (cached_for_fs s) (cached_valid s) (<[b := bs ++ drop (length bs) (mem s b)]> (mem s))).
Proof. intros Hl. unfold fill. rewrite (proj2 (Z.ltb_ge _ _)) by lia. done. Qed.

Lemma read_sectors_run s fs lba n b : geometry_ok (nt_disk s) fs -> 0 <= lba -> 0 <= n -> part_start_lba fs + lba + n <= bd_block_count (nt_disk s) ->
  n * bytes_per_sector fs <= Z.of_nat (length (mem s b)) ->
  let bs := concat (bd_blk (nt_disk s) <$> seqZ (part_start_lba fs + lba) n) in
  Z.of_nat (length bs) = n * bytes_per_sector fs /\
  read_sectors fs lba n b s = (OK tt, mkStatics (nt_disk s) (cached_for_fs s) (cached_valid s) (<[b := bs ++ drop (length bs) (mem s b)]> (mem s))).
Proof.
  intros [Hi Hb Hs Hc Hp Hz] Hl Hn Hr Hcap bs. destruct (bd_geom (nt_disk s) Hi) as [_ Hcnt]. unfold read_sectors. rewrite u64_small by lia.
  assert (Hlen : Z.of_nat (length bs) = n * bytes_per_sector fs).
  { unfold bs. rewrite (length_concat_const _ _ (Z.to_nat (bytes_per_sector fs))); [rewrite length_seqZ; nia|].
    intros i Hin. apply elem_of_seqZ in Hin. pose proof (bd_blk_length (nt_disk s) i Hi ltac:(lia)). lia. }
  split; [done|]. rewrite disk_read_run by (try done; rewrite ?Hb; lia). apply fill_run. unfold bs in *. lia.
Qed.

(** Sectors that the [n] bytes at offset [off] of a run touch, and whether they
    fit into the scratch buffer. *)
Definition touched fs (off n : Z) : Z := (off mod bytes_per_sector fs + n + bytes_per_sector fs - 1) / bytes_per_sector fs.

Lemma touched_spec fs off n k : 0 < bytes_per_sector fs -> 0 <= off -> 0 <= n -> off + n <= k * bytes_per_sector fs ->
  0 <= touched fs off n /\ off mod bytes_per_sector fs + n <= touched fs off n * bytes_per_sector fs /\
  touched fs off n * bytes_per_sector fs <= off mod bytes_per_sector fs + n + bytes_per_sector fs - 1 /\
  off / bytes_per_sector fs + touched fs off n <= k.
Proof.
  intros Hb Ho Hn Hk. unfold touched. set (b := bytes_per_sector fs) in *. clearbody b.
  pose proof (Z.mod_pos_bound off b Hb). pose proof (Z.div_mod off b ltac:(lia)) as E. set (q := off / b) in *. set (r := off mod b) in *.
  pose proof (Z.div_mod (r + n + b - 1) b ltac:(lia)) as E2. pose proof (Z.mod_pos_bound (r + n + b - 1) b Hb). set (t := (r + n + b - 1) / b) in *. set (r2 := (r + n + b - 1) mod b) in *.
  clearbody q r t r2. split_and!; nia.
Qed.

(** The block of code that reads a piece of a run of clusters. *)
Definition read_piece fs (cur_lcn in_run take : Z) : M (statics D) (list Z) :=
  let byte_lba := u64 (cur_lcn * bytes_per_cluster fs + in_run) in
  let first_sec_off := byte_lba mod bytes_per_sector fs in
  let sec_start := byte_lba / bytes_per_sector fs in
  let to_read := u64 (take + first_sec_off) in
  let n_sect := u32 (u64 (to_read + bytes_per_sector fs - 1) / bytes_per_sector fs) in
  let! scratch := contents Scratch in
  if Z.of_nat (length scratch) <? u32 (n_sect * bytes_per_sector fs) then err
  else
    read_sectors fs sec_start n_sect Scratch ;;!
    let! scratch := contents Scratch in
    copy first_sec_off take scratch.

Lemma read_piece_run s fs lcn len off n : geometry_ok (nt_disk s) fs -> run_ok (nt_disk s) fs (len, Some lcn) ->
  0 <= off -> 0 < n < 2 ^ 31 -> off + n <= len * bytes_per_cluster fs -> Z.of_nat (length (mem s Scratch)) = 16384 ->
  exists s', read_piece fs lcn off n s =
      (if touched fs off n * bytes_per_sector fs <=? 16384 then OK (slice (Z.to_nat off) (Z.to_nat n) (run_data (nt_disk s) fs (len, Some lcn))) else ERR, s')
    /\ quiet s s'.
Proof.
  intros HG [Hlen [Hlcn Hend]] Ho Hn Hon Hscr. pose proof HG as [Hi Hb Hs [Hc Hbc] Hp Hz]. destruct (bd_geom (nt_disk s) Hi) as [_ Hcnt]. cbn in Hlen, Hend.
  set (b := bytes_per_sector fs) in *. set (spc := sectors_per_cluster fs) in *.
  destruct (touched_spec fs off n (len * spc)) as (T0 & T1 & T2 & T3); [unfold b in *; lia|lia|lia|rewrite Hbc in Hon; fold b; lia|]. fold b in T1, T2, T3.
  assert (Hroom : (lcn + len) * spc * b <= bd_block_count (nt_disk s) * b) by (apply Z.mul_le_mono_nonneg_r; lia).
  assert (Hby : u64 (lcn * bytes_per_cluster fs + off) = lcn * spc * b + off) by (rewrite Hbc; fold spc b; rewrite u64_small; nia).
  unfold read_piece. cbv zeta. rewrite Hby. fold b. rewrite (Z.add_comm (lcn * spc * b)), Z.mod_add, Z.div_add by lia.
  assert (Hr : 0 <= off mod b < b) by (apply Z.mod_pos_bound; lia).
  replace (u32 (u64 (u64 (n + off mod b) + b - 1) / b)) with (touched fs off n).
  2: { unfold touched. fold b. rewrite (u64_small (n + _)), u64_small, u32_small by (try (apply Z.div_pos; lia); try (split; [apply Z.div_pos|apply Z.div_lt_upper_bound]); nia). f_equal. lia. }
  unfold bind at 1, contents at 1. cbv beta iota. rewrite Hscr, u32_small by nia.
  destruct (Z.leb_spec (touched fs off n * b) 16384) as [Hfit|Hfit]; [|rewrite (proj2 (Z.ltb_lt _ _)) by lia; by exists s].
  rewrite (proj2 (Z.ltb_ge _ _)) by lia.
  destruct (read_sectors_run s fs (off / b + lcn * spc) (touched fs off n) Scratch HG) as [Hl Hrd]; [pose proof (Z.div_pos off b); nia|done|nia|lia|].
  rewrite (bind_OK _ _ _ _ _ Hrd). set (bs := concat _) in *. eexists. unfold bind, contents. cbn [mem]. rewrite fn_lookup_insert. unfold copy.
  rewrite (proj2 (Z.ltb_ge (off mod b) 0)), (proj2 (Z.ltb_ge _ _)) by (rewrite ?length_app, ?length_drop; lia). cbn [orb]. split.
  - unfold ret. rewrite slice_app_l by lia. do 2 f_equal. unfold bs, run_data. cbn [fst snd].
    replace (part_start_lba fs + (off / b + lcn * spc)) with (part_start_lba fs + lcn * spc + off / b) by lia.
    rewrite <- (slice_blocks (bd_blk (nt_disk s)) b _ (len * spc) (off / b)); [|lia|..|lia|lia].
    + f_equal. pose proof (Z.div_mod off b). lia.
    + intros i Hin. rewrite <- Hb. apply bd_blk_length; [done|nia].
    + pose proof (Z.div_pos off b). lia.
    + lia.
    + lia.
    + lia.
  - split; cbn; [done|done|intros b' Hb'; by rewrite fn_lookup_insert_ne|]. rewrite fn_lookup_insert, length_app, length_drop. lia.
Qed.

(** What the loop does with a decoded run, before it goes on with [next]. *)
Definition run_step fs (len : Z) (l : option Z) (v voff vlen : Z) (acc : list Z) (next : Z -> Z -> list Z -> M (statics D) (list Z)) : M (statics D) (list Z) :=
  let bytes_done := Z.of_nat (length acc) in
  let run_bytes := u64 (len * bytes_per_cluster fs) in
  let run_start_voff := u64 (v * bytes_per_cluster fs) in
  if u64 (voff + (vlen - bytes_done)) <=? run_start_voff then ret acc
  else if voff <? u64 (run_start_voff + run_bytes) then
    let in_run := if run_start_voff <? voff then voff - run_start_voff else 0 in
    let take := u64 (run_bytes - in_run) in
    let take := if vlen - bytes_done <? take then vlen - bytes_done else take in
    let! bs := (match l with
                | None => ret (replicate (Z.to_nat take) 0)
                | Some lcn => if bytes_per_sector fs =? 0 then stuck else read_piece fs lcn in_run take
                end) in
    next (u64 (v + len)) (u64 (voff + take)) (acc ++ bs)
  else next (u64 (v + len)) voff acc.

Lemma load_hd n hdr bs s : n = 1%nat -> load n 0 (hdr :: bs) s = (OK hdr, s).
Proof. intros ->. unfold load. rewrite getle_Some by (cbn; lia). change (Z.to_nat 0) with 0%nat. unfold slice. rewrite drop_0. cbn. rewrite (eq_refl : take 0 bs = []). unfold ret. do 2 f_equal. cbn. lia. Qed.

Lemma copy_hd (x y : list Z) n s : n = Z.of_nat (length x) -> copy 0 n (x ++ y) s = (OK x, s).
Proof.
  intros ->. unfold copy. rewrite (proj2 (Z.ltb_ge 0 0)), (proj2 (Z.ltb_ge _ _)) by (rewrite ?length_app; lia). cbn [orb]. unfold ret, slice.
  rewrite Nat2Z.id. change (Z.to_nat 0) with 0%nat. by rewrite drop_0, take_app_length.
Qed.

Lemma header_bits lo hi : 0 <= lo < 16 -> 0 <= hi -> Z.land (lo + 16 * hi) 0xF = lo /\ Z.shiftr (lo + 16 * hi) 4 = hi.
Proof.
  intros Hlo Hhi. change 0xF with (Z.ones 4). rewrite Z.land_ones, Z.shiftr_div_pow2 by lia. change (2 ^ 4) with 16.
  rewrite (Z.mul_comm 16). rewrite Z.mod_add, Z.mod_small, Z.div_add, Z.div_small by lia. lia.
Qed.

Lemma loop_end fuel fs prev v voff vlen acc rest s : read_runs_loop fuel fs (0 :: rest) v prev voff vlen acc s = (OK acc, s).
Proof. destruct fuel; cbn [read_runs_loop]; rewrite (bind_OK _ _ _ _ _ (load_hd 1 0 rest s eq_refl)); done. Qed.

Lemma loop_run fuel fs prev v voff vlen acc (lo hi : nat) len lcn bs s :
  (1 <= lo <= 8)%nat -> (1 <= hi <= 8)%nat -> signed_fits lo len -> signed_fits hi (lcn - prev) -> 0 <= lcn < 2 ^ 63 ->
  read_runs_loop (S fuel) fs (Z.of_nat lo + 16 * Z.of_nat hi :: le_enc lo len ++ le_enc hi (lcn - prev) ++ bs) v prev voff vlen acc s =
  if vlen <=? Z.of_nat (length acc) then (OK acc, s)
  else run_step fs len (Some lcn) v voff vlen acc (fun v voff acc => read_runs_loop fuel fs bs v lcn voff vlen acc) s.
Proof.
  intros Hlo Hhi Hlen Hd Hlcn. destruct (header_bits (Z.of_nat lo) (Z.of_nat hi)) as [H1 H2]; [lia..|]. cbn [read_runs_loop].
  rewrite (bind_OK _ _ _ _ _ (load_hd 1 _ _ s eq_refl)), (proj2 (Z.eqb_neq _ 0)) by lia. cbn [orb]. destruct (_ <=? _); [done|].
  rewrite H1, H2, (proj2 (Z.eqb_neq _ 0)) by lia. rewrite skipn_cons, drop_0.
  rewrite (bind_OK _ _ _ _ _ (copy_hd (le_enc lo len) _ (Z.of_nat lo) s ltac:(by rewrite length_le_enc))). rewrite Nat2Z.id.
  replace (drop lo (le_enc lo len ++ le_enc hi (lcn - prev) ++ bs)) with (le_enc hi (lcn - prev) ++ bs) by (rewrite <- (length_le_enc lo len) at 1; by rewrite drop_app_length).
  rewrite (proj2 (Z.eqb_neq (Z.of_nat hi) 0)) by lia.
  rewrite (bind_OK _ _ _ _ _ (copy_hd (le_enc hi (lcn - prev)) _ (Z.of_nat hi) s ltac:(by rewrite length_le_enc))). rewrite Nat2Z.id.
  replace (drop hi (le_enc hi (lcn - prev) ++ bs)) with bs by (rewrite <- (length_le_enc hi (lcn - prev)) at 1; by rewrite drop_app_length).
  rewrite !sread_enc by done. replace (s64 (prev + (lcn - prev))) with lcn by (rewrite s64_id; lia). reflexivity.
Qed.

Lemma loop_sparse fuel fs prev v voff vlen acc (lo : nat) len bs s : (1 <= lo <= 8)%nat -> signed_fits lo len ->
  read_runs_loop (S fuel) fs (Z.of_nat lo :: le_enc lo len ++ bs) v prev voff vlen acc s =
  if vlen <=? Z.of_nat (length acc) then (OK acc, s)
  else run_step fs len None v voff vlen acc (fun v voff acc => read_runs_loop fuel fs bs v prev voff vlen acc) s.
Proof.
  intros Hlo Hlen. destruct (header_bits (Z.of_nat lo) 0) as [H1 H2]; [lia..|]. rewrite Z.mul_0_r, Z.add_0_r in H1, H2. cbn [read_runs_loop].
  rewrite (bind_OK _ _ _ _ _ (load_hd 1 _ _ s eq_refl)), (proj2 (Z.eqb_neq _ 0)) by lia. cbn [orb]. destruct (_ <=? _); [done|].
  rewrite H1, H2, (proj2 (Z.eqb_neq _ 0)) by lia. rewrite skipn_cons, drop_0.
  rewrite (bind_OK _ _ _ _ _ (copy_hd (le_enc lo len) _ (Z.of_nat lo) s ltac:(by rewrite length_le_enc))). rewrite Nat2Z.id.
  replace (drop lo (le_enc lo len ++ bs)) with bs by (rewrite <- (length_le_enc lo len) at 1; by rewrite drop_app_length).
  change (0 =? 0) with true. cbv iota. rewrite (bind_OK _ _ _ _ _ (eq_refl : ret [] s = (OK [], s))). change (Z.to_nat 0) with 0%nat. rewrite drop_0. rewrite sread_enc by done. reflexivity.
Qed.

Definition piece_fits fs (l : option Z) (off n : Z) : bool :=
  match l with Some _ => touched fs off n * bytes_per_sector fs <=? 16384 | None => true end.

(** Whether each piece of a read fits into the scratch buffer. *)
Fixpoint pieces_fit fs (off n : Z) (rs : list run) : bool :=
  match rs with
  | [] => true
  | (len, l) :: rs =>
      if n <=? 0 then true
      else
        let rb := len * bytes_per_cluster fs in
        if off <? rb then
          let take := Z.min n (rb - off) in piece_fits fs l off take && pieces_fit fs 0 (n - take) rs
        else pieces_fit fs (off - rb) n rs
  end.

Definition runs_size fs (rs : list run) : Z := foldr (fun r n => r.1 * bytes_per_cluster fs + n) 0 rs.

Lemma runs_size_nonneg d fs rs : 0 < bytes_per_cluster fs -> Forall (run_ok d fs) rs -> 0 <= runs_size fs rs.
Proof.
  intros Hb. induction 1 as [|r rs [Hr _] _ IH]; [done|]. change (runs_size fs (r :: rs)) with (r.1 * bytes_per_cluster fs + runs_size fs rs). nia.
Qed.

Lemma run_step_run s fs len l v voff vlen acc next :
  geometry_ok (nt_disk s) fs -> run_ok (nt_disk s) fs (len, l) -> Z.of_nat (length (mem s Scratch)) = 16384 ->
  let start := v * bytes_per_cluster fs in let rb := len * bytes_per_cluster fs in let rem := vlen - Z.of_nat (length acc) in let off := voff - start in
  let take := Z.min rem (rb - off) in
  0 <= v -> 0 <= off -> 0 < rem -> vlen < 2 ^ 31 -> voff + rem < 2 ^ 63 -> start + rb < 2 ^ 63 ->
  exists s', quiet s s' /\ run_step fs len l v voff vlen acc next s =
    if off <? rb then if piece_fits fs l off take then next (v + len) (voff + take) (acc ++ slice (Z.to_nat off) (Z.to_nat take) (run_data (nt_disk s) fs (len, l))) s'
                      else (ERR, s')
    else next (v + len) voff acc s'.
Proof.
  intros HG HR Hscr start rb rem off take Hv Hoff Hrem Hvl Hsz Hst. pose proof HG as [Hi Hb Hs [Hc Hbc] Hp Hz]. pose proof HR as [Hlen _]. cbn in Hlen.
  assert (Hbpc : 0 < bytes_per_cluster fs) by (rewrite Hbc; apply Z.mul_pos_pos; lia).
  assert (Hrb : len <= rb) by (unfold rb; rewrite <- (Z.mul_1_r len) at 1; apply Z.mul_le_mono_nonneg_l; lia).
  assert (Hst' : v <= start) by (unfold start; rewrite <- (Z.mul_1_r v) at 1; apply Z.mul_le_mono_nonneg_l; lia).
  unfold run_step. cbv zeta. fold rem start rb. rewrite (u64_small start), (u64_small rb), (u64_small (voff + rem)), (u64_small (start + rb)) by lia.
  rewrite (proj2 (Z.leb_gt _ _)) by lia. rewrite (u64_small (v + len)) by lia.
  replace (voff <? start + rb) with (off <? rb) by (unfold off; destruct (Z.ltb_spec (voff - start) rb), (Z.ltb_spec voff (start + rb)); lia).
  destruct (Z.ltb_spec off rb) as [Hin|Hin]; [|exists s; split; [apply quiet_refl|done]].
  replace (if start <? voff then voff - start else 0) with off by (unfold off; destruct (Z.ltb_spec start voff); lia).
  rewrite (u64_small (rb - off)) by lia. replace (if rem <? rb - off then rem else rb - off) with take by (unfold take; destruct (Z.ltb_spec rem (rb - off)); lia).
  rewrite (u64_small (voff + take)) by lia. destruct l as [lcn|].
  - rewrite (proj2 (Z.eqb_neq _ 0)) by lia.
    destruct (read_piece_run s fs lcn len off take HG HR Hoff) as (s' & Hrd & Q); [lia|fold rb; lia|done|]. exists s'. split; [done|].
    unfold piece_fits. destruct (_ <=? 16384); [by rewrite (bind_OK _ _ _ _ _ Hrd)|by rewrite (bind_ERR _ _ _ _ Hrd)].
  - exists s. split; [apply quiet_refl|]. unfold piece_fits. rewrite (bind_OK _ _ _ _ _ (eq_refl : ret _ s = (OK (replicate (Z.to_nat take) 0), s))).
    do 2 f_equal. unfold run_data. cbn [fst snd]. fold rb. unfold slice. rewrite drop_replicate, take_replicate. f_equal. lia.
Qed.

Lemma quiet_geometry s s' fs : quiet s s' -> geometry_ok (nt_disk s) fs -> geometry_ok (nt_disk s') fs.
Proof. intros [-> _ _ _]. done. Qed.

Lemma run_ok_quiet s s' fs rs : quiet s s' -> Forall (run_ok (nt_disk s) fs) rs -> Forall (run_ok (nt_disk s') fs) rs.
Proof. intros [-> _ _ _]. done. Qed.

Lemma slice_take_drop {A} (l k : list A) off n : (off <= length l)%nat -> (length l - off <= n)%nat ->
  slice off n (l ++ k) = slice off (length l - off) l ++ slice 0 (n - (length l - off)) k.
Proof.
  intros H1 H2. unfold slice. rewrite drop_app_le, drop_0 by done. rewrite take_app, length_drop. f_equal.
  rewrite !take_ge; [done|rewrite length_drop; lia..].
Qed.

(** The loop from a run on: it copies the bytes at [voff] of the data, or fails
    at the first piece that does not fit. *)
Lemma read_runs_loop_run fs rs : forall prev bs v voff vlen acc s fuel,
  geometry_ok (nt_disk s) fs -> Forall (run_ok (nt_disk s) fs) rs -> Z.of_nat (length (mem s Scratch)) = 16384 -> encodes prev rs bs -> (length rs <= fuel)%nat ->
  let start := v * bytes_per_cluster fs in let rem := vlen - Z.of_nat (length acc) in
  0 <= v -> 0 <= rem -> vlen < 2 ^ 31 -> 0 <= voff -> voff + rem < 2 ^ 63 -> start + runs_size fs rs < 2 ^ 63 ->
  rem = 0 \/ start <= voff -> voff + rem <= start + runs_size fs rs ->
  exists s', quiet s s' /\ read_runs_loop fuel fs bs v prev voff vlen acc s =
    (if pieces_fit fs (voff - start) rem rs then OK (acc ++ slice (Z.to_nat (voff - start)) (Z.to_nat rem) (runs_data (nt_disk s) fs rs)) else ERR, s').
Proof.
  induction rs as [|[len l] rs IH]; intros prev bs v voff vlen acc s fuel HG HRs Hscr He Hf start rem Hv Hrem Hvl Hvo Hsz Htot Hpos Hend.
  { inversion He; subst. cbn in Hend. exists s. split; [apply quiet_refl|]. rewrite loop_end. cbn [pieces_fit]. replace rem with 0 by lia.
    unfold slice. cbn. by rewrite app_nil_r. }
  apply Forall_cons in HRs as [HR HRs]. cbn [length] in Hf. destruct fuel as [|fuel]; [lia|].
  pose proof HG as [_ _ Hs [Hc Hbc] _ Hz]. assert (Hbpc : 0 < bytes_per_cluster fs) by (rewrite Hbc; apply Z.mul_pos_pos; lia).
  change (runs_size fs ((len, l) :: rs)) with (len * bytes_per_cluster fs + runs_size fs rs) in Hend, Htot. set (rb := len * bytes_per_cluster fs) in *.
  assert (Hcons : exists prev' bs', encodes prev' rs bs' /\ read_runs_loop (S fuel) fs bs v prev voff vlen acc s =
    if vlen <=? Z.of_nat (length acc) then (OK acc, s) else run_step fs len l v voff vlen acc (fun v voff acc => read_runs_loop fuel fs bs' v prev' voff vlen acc) s).
  { inversion He; subst; eexists _, _; (split; [eassumption|]); [by apply loop_sparse|]. apply loop_run; try done.
    destruct HR as [Hl [Hlcn Hle]]. cbn in Hl, Hle. split; [done|]. destruct (bd_geom _ (ge_inv _ _ HG)) as [_ Hcnt].
    assert (lcn <= (lcn + len) * sectors_per_cluster fs) by nia. pose proof (ge_part _ _ HG). set (c := bd_block_count (nt_disk s)) in *.
    pose proof (Z.mul_le_mono_nonneg_l 1 (bytes_per_sector fs) c). lia. }
  destruct Hcons as (prev' & bs' & He' & ->). cbn [pieces_fit]. fold rb.
  destruct (Z.leb_spec vlen (Z.of_nat (length acc))) as [Hd|Hd].
  { exists s. split; [apply quiet_refl|]. rewrite (proj2 (Z.leb_le rem 0)) by lia. replace rem with 0 by lia. unfold slice. cbn. by rewrite app_nil_r. }
  rewrite (proj2 (Z.leb_gt rem 0)) by lia. destruct Hpos as [Hpos|Hpos]; [lia|].
  pose proof (runs_size_nonneg _ fs rs Hbpc HRs) as Hrest.
  assert (0 < rb) by (destruct HR as [Hl _]; cbn in Hl; unfold rb; nia).
  destruct (run_step_run s fs len l v voff vlen acc (fun v voff acc => read_runs_loop fuel fs bs' v prev' voff vlen acc) HG HR Hscr) as (s1 & Q1 & ->); try (fold start rem rb; lia).
  fold start rb rem. set (off := voff - start) in *.
  assert (Hlr : Z.of_nat (length (run_data (nt_disk s) fs (len, l))) = rb) by (by apply length_run_data).
  pose proof (quiet_geometry _ _ _ Q1 HG) as HG1. pose proof (run_ok_quiet _ _ _ _ Q1 HRs) as HRs1.
  assert (Hscr1 : Z.of_nat (length (mem s1 Scratch)) = 16384) by (by rewrite (qu_scratch _ _ Q1)).
  assert (Hstart : (v + len) * bytes_per_cluster fs = start + rb) by (unfold start, rb; lia).
  assert (0 <= v + len) by (destruct HR as [Hl _]; cbn in Hl; lia).
  change (runs_data (nt_disk s) fs ((len, l) :: rs)) with (run_data (nt_disk s) fs (len, l) ++ runs_data (nt_disk s) fs rs).
  destruct (Z.ltb_spec off rb) as [Hin|Hin].
  - set (take := Z.min rem (rb - off)). destruct (piece_fits fs l off take); [|by exists s1]. cbn [andb].
    set (piece := slice (Z.to_nat off) (Z.to_nat take) (run_data (nt_disk s) fs (len, l))).
    assert (Hpl : Z.of_nat (length piece) = take) by (unfold piece; rewrite length_slice; lia).
    destruct (IH prev' bs' (v + len) (voff + take) vlen (acc ++ piece) s1 fuel HG1 HRs1 Hscr1 He' ltac:(lia)) as (s2 & Q2 & Hr); try (rewrite ?Hstart, ?length_app; lia).
    exists s2. split; [by eapply quiet_trans|]. cbv beta. rewrite Hr, Hstart, length_app, (qu_disk _ _ Q1).
    replace (vlen - Z.of_nat (length acc + length piece)) with (rem - take) by lia.
    replace (pieces_fit fs (voff + take - (start + rb)) (rem - take) rs) with (pieces_fit fs 0 (rem - take) rs).
    2: { destruct (decide (rem = take)) as [E|E]; [rewrite E, Z.sub_diag; by destruct rs as [|[? ?] ?]|f_equal; lia]. }
    destruct (pieces_fit fs 0 (rem - take) rs); [|reflexivity]. do 2 f_equal. rewrite <- app_assoc. f_equal.
    destruct (decide (rem <= rb - off)) as [E|E].
    + rewrite slice_app_l by lia. unfold piece. replace take with rem by lia. rewrite Z.sub_diag. unfold slice at 2. cbn [Z.to_nat]. by rewrite take_0, app_nil_r.
    + rewrite slice_take_drop by lia. f_equal; [unfold piece; f_equal; lia|]. f_equal; lia.
  - destruct (IH prev' bs' (v + len) voff vlen acc s1 fuel HG1 HRs1 Hscr1 He' ltac:(lia)) as (s2 & Q2 & Hr); try (rewrite ?Hstart; fold rem; lia).
    exists s2. split; [by eapply quiet_trans|]. cbv beta. rewrite Hr, Hstart, (qu_disk _ _ Q1). fold rem. replace (voff - (start + rb)) with (off - rb) by lia.
    destruct (pieces_fit fs (off - rb) rem rs); [|reflexivity]. do 3 f_equal. rewrite slice_app_r by lia. f_equal. lia.
Qed.
End runs.
