(* ===== verification/NtfsProps.v ===== *)
(** * Records, directories and files of an NTFS volume

    What the reader promises about a volume: MFT records are found through the
    cached run list and repaired by their fixups, the root directory is walked
    entry by entry, and a file is read whole. *)
From stdpp Require Import functions.
From S2P Require Import Prelude Bytes Text Disk Ntfs NtfsRuns.

(** ** Attributes *)

(** The attributes of a record from offset [a] on, as types and offsets. *)
Inductive attrs (R : list Z) (size : Z) : Z -> list (Z * Z) -> Prop :=
| at_out a : size <= a -> attrs R size a []
| at_end a : a < size -> getle 4 a R = Some ATTR_END -> attrs R size a []
| at_cons a ty len l : a < size -> getle 4 a R = Some ty -> ty <> ATTR_END -> getle 4 (a + 4) R = Some len -> 0 < len ->
    attrs R size (a + len) l -> attrs R size a ((ty, a) :: l).

Lemma attrs_app R x size a l : attrs R size a l -> attrs (R ++ x) size a l.
Proof. induction 1; [by apply at_out|apply at_end; [done|by apply getle_app]|eapply at_cons; eauto using getle_app]. Qed.

(** What a walk with [f] does on them. *)
Fixpoint attr_fold {D X : Type} (f : Z -> Z -> X -> M (statics D) (X * bool)) (l : list (Z * Z)) (x : X) : M (statics D) X :=
  match l with
  | [] => ret x
  | (ty, a) :: l => let! r := f ty a x in if r.2 then ret r.1 else attr_fold f l r.1
  end.

Lemma load_Some {D} n off buf v (s : statics D) : getle n off buf = Some v -> load n off buf s = (OK v, s).
Proof. unfold load. by intros ->. Qed.

Lemma attr_loop_run {D X} (f : Z -> Z -> X -> M (statics D) (X * bool)) R size a l : attrs R size a l ->
  forall (fuel : nat) x s, size - a <= Z.of_nat fuel -> attr_loop fuel R size a f x s = attr_fold f l x s.
Proof.
  induction 1 as [a Ha|a Ha He|a ty len l Ha Ht Hne Hlen Hpos _ IH]; intros fuel x s Hf.
  - destruct fuel; cbn [attr_loop]; by rewrite (proj2 (Z.ltb_ge _ _)) by lia.
  - destruct fuel as [|fuel]; [lia|]. cbn [attr_loop]. rewrite (proj2 (Z.ltb_lt _ _)) by lia. by rewrite (bind_OK _ _ _ _ _ (load_Some _ _ _ _ s He)).
  - destruct fuel as [|fuel]; [lia|]. cbn [attr_loop attr_fold]. rewrite (proj2 (Z.ltb_lt _ _)) by lia.
    rewrite (bind_OK _ _ _ _ _ (load_Some _ _ _ _ s Ht)), (proj2 (Z.eqb_neq ty _)) by done. unfold bind.
    destruct (f ty a x s) as [[[x' stop]| | |] s']; try done. cbn [fst snd]. destruct stop; [done|].
    rewrite (load_Some _ _ _ _ s' Hlen), (proj2 (Z.eqb_neq len 0)) by lia. apply IH. lia.
Qed.

(** Attributes [f] has nothing to do with. *)
Lemma attr_fold_skip {D X} (f : Z -> Z -> X -> M (statics D) (X * bool)) l k x s :
  Forall (fun p => forall s, f p.1 p.2 x s = (OK (x, false), s)) l -> attr_fold f (l ++ k) x s = attr_fold f k x s.
Proof. induction 1 as [|[ty a] l Hp _ IH]; [done|]. cbn. cbn in Hp. by rewrite (bind_OK _ _ _ _ _ (Hp s)). Qed.

(** ** Directory entries *)
Record dir_entry : Type := mkDirEntry { de_ref : Z; de_kind : Z; de_text : list Z; de_bytes : Z }.

(** The entries from offset [p] up to [stop_at] or the last one. *)
Inductive entries (R : list Z) (stop_at : Z) : Z -> list dir_entry -> Prop :=
| en_out p : stop_at < p + 16 -> entries R stop_at p []
| en_last p len fl : p + 16 <= stop_at -> getle 2 (p + 8) R = Some len -> 16 <= len -> getle 2 (p + 12) R = Some fl -> Z.land fl 2 <> 0 -> entries R stop_at p []
| en_cons p len fl kl n e es : p + 16 <= stop_at -> getle 2 (p + 8) R = Some len -> 16 <= len -> getle 2 (p + 12) R = Some fl -> Z.land fl 2 = 0 ->
    getle 2 (p + 10) R = Some kl -> 68 <= kl -> getle 1 (p + 80) R = Some n -> 0 <= p -> 0 <= n -> p + 82 + 2 * n <= Z.of_nat (length R) ->
    de_text e = ((fun i => fold_char (le_dec (slice (Z.to_nat (p + 82 + 2 * i)) 2 R))) <$> seqZ 0 n) ->
    getle 8 p R = Some (de_ref e) -> getle 1 (p + 81) R = Some (de_kind e) -> getle 8 (p + 64) R = Some (de_bytes e) ->
    entries R stop_at (p + len) es -> entries R stop_at p (e :: es).

Definition mft_no (e : dir_entry) : Z := Z.land (de_ref e) 0xFFFFFFFFFFFF.

(** System files and the short names of files are left out. *)
Definition listed (e : dir_entry) : bool := negb (mft_no e <? 16) && negb (de_kind e =? FILENAME_DOS).

Definition step_entry {U} (st : walk_state U) (e : dir_entry) : walk_state U * bool :=
  if listed e then
    match want_name _ st with
    | Some w =>
        if decide (cstr (de_text e) = cstr w)
        then (mkWalk U (cb _ st) (user _ st) (want_name _ st) (mft_no e) (de_bytes e) (reported _ st) true, false)
        else (st, true)
    | None =>
        match cb _ st with
        | Some f =>
            let (go, u) := f (cstr (de_text e)) (de_bytes e) (user _ st) in
            if go then (mkWalk U (cb _ st) u (want_name _ st) (found_mft _ st) (found_size _ st) (reported _ st + 1) (stop _ st), true)
            else (mkWalk U (cb _ st) u (want_name _ st) (found_mft _ st) (found_size _ st) (reported _ st) true, false)
        | None => (st, true)
        end
    end
  else (st, true).

Fixpoint walk_list {U} (es : list dir_entry) (st : walk_state U) : walk_state U :=
  match es with
  | [] => st
  | e :: es => let (st, go) := step_entry st e in if go then walk_list es st else st
  end.

Lemma visit_entry_run {D U} R p n e (st : walk_state U) (s : statics D) :
  getle 1 (p + 80) R = Some n -> 0 <= p -> 0 <= n -> p + 82 + 2 * n <= Z.of_nat (length R) ->
  de_text e = ((fun i => fold_char (le_dec (slice (Z.to_nat (p + 82 + 2 * i)) 2 R))) <$> seqZ 0 n) ->
  getle 8 p R = Some (de_ref e) -> getle 1 (p + 81) R = Some (de_kind e) -> getle 8 (p + 64) R = Some (de_bytes e) ->
  visit_entry R p st s = (OK (step_entry st e), s).
Proof.
  intros Hn Hp Hn0 Hlen Htext Href Hkind Hsize. unfold visit_entry. cbv zeta.
  replace (p + 16 + 64) with (p + 80) by lia. replace (p + 16 + 66) with (p + 82) by lia. replace (p + 16 + 65) with (p + 81) by lia. replace (p + 16 + 48) with (p + 64) by lia.
  rewrite (bind_OK _ _ _ _ _ (load_Some _ _ _ _ s Hn)). unfold fold_name.
  rewrite (proj2 (Z.ltb_ge (p + 82) 0)), (proj2 (Z.ltb_ge _ _)) by lia. cbn [orb]. rewrite <- Htext. rewrite bind_ret.
  rewrite (bind_OK _ _ _ _ _ (load_Some _ _ _ _ s Href)), (bind_OK _ _ _ _ _ (load_Some _ _ _ _ s Hkind)).
  unfold step_entry, listed. fold (mft_no e). rewrite <- negb_orb. destruct (_ || _); [done|]. cbn [negb].
  destruct (want_name _ st) as [w|].
  - case_decide; [|done]. by rewrite (bind_OK _ _ _ _ _ (load_Some _ _ _ _ s Hsize)).
  - destruct (cb _ st) as [f|]; [|done]. rewrite (bind_OK _ _ _ _ _ (load_Some _ _ _ _ s Hsize)). destruct (f _ _ _) as [[] u]; done.
Qed.

Lemma walk_entries_run {D U} R stop_at p es : entries R stop_at p es -> forall (fuel : nat) (st : walk_state U) (s : statics D),
  Z.of_nat (length R) - p < Z.of_nat fuel -> 0 <= p -> walk_entries_loop fuel R stop_at p st s = (OK (walk_list es st), s).
Proof.
  assert (Hin : forall n off v, getle n off R = Some v -> off + Z.of_nat n <= Z.of_nat (length R)).
  { intros n off v Hv. destruct (Z.le_gt_cases (off + Z.of_nat n) (Z.of_nat (length R))); [done|]. rewrite getle_None in Hv; [done|lia]. }
  induction 1 as [p Hp|p len fl Hp Hl Hl16 Hf Hf2|p len fl kl n e es Hp Hl Hl16 Hfl Hf2 Hk Hk68 Hn Hp0 Hn0 Hlen Htext Href Hkind Hsize _ IH]; intros fuel st s Hfuel Hp'.
  - destruct fuel; cbn [walk_entries_loop]; by rewrite (proj2 (Z.leb_gt _ _)) by lia.
  - pose proof (Hin _ _ _ Hl). destruct fuel as [|fuel]; [lia|]. cbn [walk_entries_loop].
    rewrite (proj2 (Z.leb_le _ _)), (bind_OK _ _ _ _ _ (load_Some _ _ _ _ s Hl)), (proj2 (Z.ltb_ge _ _)), (bind_OK _ _ _ _ _ (load_Some _ _ _ _ s Hf)) by lia.
    by rewrite (proj2 (Z.eqb_neq _ 0)) by done.
  - destruct fuel as [|fuel]; [lia|]. cbn [walk_entries_loop walk_list].
    rewrite (proj2 (Z.leb_le _ _)), (bind_OK _ _ _ _ _ (load_Some _ _ _ _ s Hl)), (proj2 (Z.ltb_ge len _)), (bind_OK _ _ _ _ _ (load_Some _ _ _ _ s Hfl)) by lia.
    rewrite (proj2 (Z.eqb_eq _ 0)) by done. cbn [negb]. rewrite (bind_OK _ _ _ _ _ (load_Some _ _ _ _ s Hk)), (proj2 (Z.ltb_ge kl _)) by lia.
    rewrite (bind_OK _ _ _ _ _ (visit_entry_run R p n e st s Hn Hp0 Hn0 Hlen Htext Href Hkind Hsize)).
    destruct (step_entry st e) as [st' []]; cbn [fst snd negb]; [|done]. apply IH; lia.
Qed.

Lemma entries_app R x stop_at p es : entries R stop_at p es -> entries (R ++ x) stop_at p es.
Proof.
  induction 1 as [p Hp|p len fl Hp Hl Hl16 Hf Hf2|p len fl kl n e es Hp Hl Hl16 Hfl Hf2 Hk Hk68 Hn Hp0 Hn0 Hlen Htext Href Hkind Hsize _ IH].
  - by apply en_out.
  - eapply en_last; eauto using getle_app.
  - eapply (en_cons _ _ p len fl kl n); eauto using getle_app; [rewrite length_app; lia|]. rewrite Htext. apply list_fmap_ext. intros i y Hy.
    apply lookup_seqZ in Hy as [-> Hi]. rewrite slice_app_l by lia. done.
Qed.

(** ** Records *)
Section volume.
Context {D : Type} `{BlockDevice D} `{!BlockDeviceLaws D}.
Implicit Types (s : statics D) (d : D) (fs : canboot_ntfs).

Definition buffer_size (b : buffer) : Z := match b with MftRuns => 256 | Blk => 4096 | Scratch => 16384 | _ => 2048 end.

(** The static buffers have their sizes, and the run list of the MFT of this
    volume is cached. *)
Record mounted s fs (mruns : list run) : Prop := {
  mo_geometry : geometry_ok (nt_disk s) fs;
  mo_record : 0 < bytes_per_mft_record fs <= 2048;
  mo_buffers b : Z.of_nat (length (mem s b)) = buffer_size b;
  mo_cached : cached_valid s = true /\ cached_for_fs s = self fs;
  mo_runs : encodes 0 mruns (mem s MftRuns) /\ Forall (run_ok (nt_disk s) fs) mruns /\ runs_size fs mruns < 2 ^ 62;
}.

(** Record [n] of the MFT is [R], on the disk with its fixups applied. *)
Record mft_holds d fs (mruns : list run) (n : Z) (R : list Z) : Prop := {
  mh_range : 0 <= n /\ (n + 1) * bytes_per_mft_record fs <= runs_size fs mruns;
  mh_length : Z.of_nat (length R) = bytes_per_mft_record fs;
  mh_fits : pieces_fit fs (n * bytes_per_mft_record fs) (bytes_per_mft_record fs) mruns = true;
  mh_usa : exists cnt usa_off, usa_ok (bytes_per_sector fs) cnt usa_off R /\
    torn (bytes_per_sector fs) cnt 1 R (slice (Z.to_nat (n * bytes_per_mft_record fs)) (Z.to_nat (bytes_per_mft_record fs)) (runs_data d fs mruns));
}.

(** Only the scratch buffer and [b] change. *)
Record writes_only (b : buffer) s s' : Prop := {
  wo_disk : nt_disk s' = nt_disk s;
  wo_cache : cached_for_fs s' = cached_for_fs s /\ cached_valid s' = cached_valid s;
  wo_mem b' : b' <> Scratch -> b' <> b -> mem s' b' = mem s b';
  wo_length b' : length (mem s' b') = length (mem s b');
}.

Lemma quiet_writes b s s' : quiet s s' -> writes_only b s s'.
Proof.
  intros [Q1 Q2 Q3 Q4]. split; [done..|by intros; apply Q3|]. intros b'. destruct (decide (b' = Scratch)) as [->|]; [done|by rewrite Q3].
Qed.

Lemma writes_trans b s1 s2 s3 : writes_only b s1 s2 -> writes_only b s2 s3 -> writes_only b s1 s3.
Proof.
  intros [A [B B'] C E] [A2 [B2 B2'] C2 E2]. split; [congruence|split; congruence|intros b' H1 H2; by rewrite C2, C|intros b'; by rewrite E2].
Qed.

Lemma fill_writes b bs s : (length bs <= length (mem s b))%nat ->
  exists s', fill b 0 bs s = (OK tt, s') /\ writes_only b s s' /\ mem s' b = bs ++ drop (length bs) (mem s b).
Proof.
  intros Hl. rewrite fill_run by done. eexists. split; [done|]. split; cbn; [|apply fn_lookup_insert].
  split; cbn; [done..|intros b' _ Hb; by rewrite fn_lookup_insert_ne|]. intros b'. destruct (decide (b' = b)) as [->|].
  - rewrite fn_lookup_insert, length_app, length_drop. lia.
  - by rewrite fn_lookup_insert_ne.
Qed.

Lemma mounted_writes b s s' fs mruns : b <> MftRuns -> mounted s fs mruns -> writes_only b s s' -> mounted s' fs mruns.
Proof.
  intros Hb [G R B [C1 C2] (E & O & S)] [W1 [W2 W3] W4 W5]. split; [by rewrite W1|done|intros b'; by rewrite W5|split; congruence|].
  rewrite W1, W4 by done. done.
Qed.

Lemma length_runs_data s fs rs : geometry_ok (nt_disk s) fs -> Forall (run_ok (nt_disk s) fs) rs -> Z.of_nat (length (runs_data (nt_disk s) fs rs)) = runs_size fs rs.
Proof.
  intros HG. induction 1 as [|r rs Hr _ IH]; [done|]. change (runs_data (nt_disk s) fs (r :: rs)) with (run_data (nt_disk s) fs r ++ runs_data (nt_disk s) fs rs).
  change (runs_size fs (r :: rs)) with (r.1 * bytes_per_cluster fs + runs_size fs rs). rewrite length_app, Nat2Z.inj_add, IH, length_run_data by done. done.
Qed.

Lemma read_runs_run s fs rs bs voff vlen : geometry_ok (nt_disk s) fs -> Forall (run_ok (nt_disk s) fs) rs -> Z.of_nat (length (mem s Scratch)) = 16384 ->
  encodes 0 rs bs -> 0 <= voff -> 0 <= vlen < 2 ^ 31 -> voff + vlen <= runs_size fs rs -> runs_size fs rs < 2 ^ 62 ->
  exists s', quiet s s' /\ read_runs fs bs voff vlen s =
    (if pieces_fit fs voff vlen rs then OK (slice (Z.to_nat voff) (Z.to_nat vlen) (runs_data (nt_disk s) fs rs)) else ERR, s').
Proof.
  intros HG HR Hscr He Hvo Hvl Hend Hsz. pose proof (encodes_length _ _ _ He).
  destruct (read_runs_loop_run fs rs 0 bs 0 voff vlen [] s (length bs) HG HR Hscr He) as (s' & Q & Hr); try (cbn [length]; lia).
  exists s'. split; [done|]. unfold read_runs. rewrite Hr. cbn [length]. by rewrite Z.mul_0_l, !Z.sub_0_r.
Qed.

Lemma drop_short {A} (l k : list A) n : length l = n -> drop n (l ++ k) = k.
Proof. intros <-. apply drop_app_length. Qed.

Lemma read_mft_record_run s fs mruns n R out : mounted s fs mruns -> mft_holds (nt_disk s) fs mruns n R -> (n + 1) * bytes_per_mft_record fs < 2 ^ 63 ->
  out <> Scratch -> out <> MftRuns -> buffer_size out = 2048 ->
  exists s', read_mft_record fs n out s = (OK tt, s') /\ mounted s' fs mruns /\ writes_only out s s' /\ exists x, mem s' out = R ++ x.
Proof.
  intros Hm [[Hn Hend] Hlen Hfit (cnt & usa_off & Hu & Ht)] Hsz Ho Ho' Hob. pose proof Hm as [HG Hrec HB [Hcv Hcf] (He & HR & Hrs)].
  set (rsz := bytes_per_mft_record fs) in *. assert (0 <= n * rsz) by nia.
  unfold read_mft_record. unfold bind at 1. cbn [get]. rewrite Hcv, Hcf, Z.eqb_refl. cbn [negb orb]. unfold bind at 1, contents at 1. cbv beta iota. fold rsz.
  rewrite u64_small by lia. destruct (read_runs_run s fs mruns (mem s MftRuns) (n * rsz) rsz HG HR) as (s1 & Q1 & Hr); [by rewrite (HB Scratch)|done|lia|lia|lia|lia|].
  rewrite Hfit in Hr. rewrite (bind_OK _ _ _ _ _ Hr). set (raw := slice _ _ _) in *.
  assert (Hraw : Z.of_nat (length raw) = rsz).
  { destruct Ht as [Htl _]. rewrite Htl. done. }
  destruct (fill_writes out raw s1) as (s2 & Hf2 & W2 & M2); [rewrite (qu_mem _ _ Q1) by done; specialize (HB out); lia|].
  rewrite (bind_OK _ _ _ _ _ Hf2). rewrite Hraw, Z.eqb_refl. cbn [negb]. unfold bind at 1, contents at 1. cbv beta iota. rewrite M2.
  set (x := drop (length raw) (mem s1 out)) in *.
  rewrite (bind_OK _ _ _ _ _ (apply_usa_run _ cnt usa_off (R ++ x) (raw ++ x) s2 (usa_ok_app _ _ _ _ _ Hu) (torn_app _ _ _ _ x (us_len _ _ _ _ Hu) Ht))).
  assert (HlR : length (R ++ x) = length (mem s2 out)) by (rewrite M2, !length_app; lia).
  destruct (fill_writes out (R ++ x) s2) as (s3 & Hf3 & W3 & M3); [lia|]. exists s3. split; [done|].
  assert (W : writes_only out s s3) by (eapply writes_trans; [by apply quiet_writes|by eapply writes_trans]).
  split; [by eapply mounted_writes|]. split; [done|]. exists x. rewrite M3, HlR, drop_all. apply app_nil_r.
Qed.

(** ** The root directory *)

(** [R] is the record of a directory whose entries [es] are all in its index
    root. *)
Inductive root_index fs (R : list Z) (es : list dir_entry) : Prop :=
| root_index_intro a0 l1 a l2 vo eo total :
    getle 2 r_attrs_offset R = Some a0 -> 0 <= a0 -> attrs R (bytes_per_mft_record fs) a0 (l1 ++ (ATTR_INDEX_ROOT, a) :: l2) ->
    Forall (fun p => p.1 <> ATTR_INDEX_ROOT /\ p.1 <> ATTR_INDEX_ALLOCATION) (l1 ++ l2) ->
    getle 1 (a + h_non_resident) R = Some 0 -> getle 2 (a + ra_value_offset) R = Some vo ->
    getle 4 (a + vo + sizeof_index_root) R = Some eo -> getle 4 (a + vo + sizeof_index_root + 4) R = Some total ->
    0 <= a + vo + sizeof_index_root + eo ->
    entries R (a + vo + sizeof_index_root + total) (a + vo + sizeof_index_root + eo) es -> root_index fs R es.

Lemma root_attr_other {U} rec (x : walk_state U * option (list Z) * Z) (l : list (Z * Z)) :
  Forall (fun p => p.1 <> ATTR_INDEX_ROOT /\ p.1 <> ATTR_INDEX_ALLOCATION) l ->
  Forall (fun p => forall s, root_attr rec p.1 p.2 x s = (OK (x, false), s)) l.
Proof.
  intros Hl. eapply Forall_impl; [exact Hl|]. intros [ty a] [H1 H2] s. cbn in *. unfold root_attr. destruct x as [[st runs] n].
  by rewrite (proj2 (Z.eqb_neq _ _)), (proj2 (Z.eqb_neq ty ATTR_INDEX_ALLOCATION)) by done.
Qed.

Lemma walk_root_run {U} s fs mruns R es (fuel : nat) (st : walk_state U) : mounted s fs mruns -> mft_holds (nt_disk s) fs mruns 5 R -> root_index fs R es ->
  exists s', walk_root fuel fs st s = (OK (walk_list es st), s') /\ mounted s' fs mruns /\ nt_disk s' = nt_disk s.
Proof.
  intros Hm Hh [a0 l1 a l2 vo eo total Ha0 Ha0' Hat Hoth Hres Hvo Heo Htot Hpos Hes]. pose proof Hm as [HG Hrec HB _ (_ & _ & Hrs)]. apply Forall_app in Hoth as [Ho1 Ho2].
  unfold walk_root. rewrite (proj2 (Z.ltb_ge _ _)) by lia.
  destruct (read_mft_record_run s fs mruns 5 R RecWalk Hm Hh) as (s1 & Hr & Hm1 & W1 & x & Hx); [pose proof (mh_range _ _ _ _ _ Hh); lia|done..|].
  rewrite (bind_OK _ _ _ _ _ Hr). unfold bind at 1, contents at 1. cbv beta iota. rewrite Hx.
  rewrite (bind_OK _ _ _ _ _ (load_Some _ _ _ _ s1 (getle_app _ _ _ x _ Ha0))).
  exists s1. split; [|split; [done|by rewrite (wo_disk _ _ _ W1)]].
  assert (Hfold : attr_loop (length (R ++ x)) (R ++ x) (bytes_per_mft_record fs) a0 (root_attr (R ++ x)) (st, None, 0) s1 = (OK (walk_list es st, None, 0), s1)).
  { rewrite (attr_loop_run _ _ _ _ _ (attrs_app _ x _ _ _ Hat)); [|rewrite length_app; pose proof (mh_length _ _ _ _ _ Hh); lia].
    rewrite attr_fold_skip by (by apply root_attr_other). cbn [attr_fold].
    assert (Hroot : root_attr (R ++ x) ATTR_INDEX_ROOT a (st, None, 0) s1 = (OK (walk_list es st, None, 0, stop _ (walk_list es st)), s1)).
    { unfold root_attr. rewrite Z.eqb_refl.
      rewrite (bind_OK _ _ _ _ _ (load_Some _ _ _ _ s1 (getle_app _ _ _ x _ Hres))). cbn [Z.eqb negb].
      rewrite (bind_OK _ _ _ _ _ (load_Some _ _ _ _ s1 (getle_app _ _ _ x _ Hvo))), (bind_OK _ _ _ _ _ (load_Some _ _ _ _ s1 (getle_app _ _ _ x _ Heo))),
        (bind_OK _ _ _ _ _ (load_Some _ _ _ _ s1 (getle_app _ _ _ x _ Htot))). unfold walk_entries.
      by rewrite (bind_OK _ _ _ _ _ (walk_entries_run _ _ _ _ (entries_app _ x _ _ _ Hes) (S (length (R ++ x))) st s1 ltac:(lia) Hpos)). }
    rewrite (bind_OK _ _ _ _ _ Hroot). cbn [fst snd]. destruct (stop _ (walk_list es st)); [done|].
    rewrite <- (app_nil_r l2), attr_fold_skip by (by apply root_attr_other). done. }
  rewrite (bind_OK _ _ _ _ _ Hfold). by destruct (stop _ (walk_list es st)).
Qed.

(** ** Files *)

(** The unnamed data of a record: its bytes in the record, or in runs whose
    pieces the reader can buffer. *)
Inductive stream_at d fs (R : list Z) (out_size a : Z) (data : list Z) : Prop :=
| in_record vo : getle 1 (a + h_non_resident) R = Some 0 -> getle 4 (a + ra_value_length) R = Some (Z.of_nat (length data)) ->
    getle 2 (a + ra_value_offset) R = Some vo -> 0 <= a + vo -> a + vo + Z.of_nat (length data) <= Z.of_nat (length R) ->
    data = slice (Z.to_nat (a + vo)) (length data) R -> stream_at d fs R out_size a data
| in_runs mp rs : getle 1 (a + h_non_resident) R = Some 1 -> getle 8 (a + nr_data_size) R = Some (Z.of_nat (length data)) ->
    getle 2 (a + nr_mapping_pairs_offset) R = Some mp -> a + mp <= Z.of_nat (length R) -> encodes 0 rs (drop (Z.to_nat (a + mp)) R) ->
    Forall (run_ok d fs) rs -> runs_size fs rs < 2 ^ 62 -> Z.of_nat (length data) <= runs_size fs rs ->
    data = take (length data) (runs_data d fs rs) -> pieces_fit fs 0 (Z.min out_size (Z.of_nat (length data))) rs = true ->
    stream_at d fs R out_size a data.

Inductive file_holds d fs (R : list Z) (out_size : Z) (data : list Z) : Prop :=
| file_holds_intro a0 l1 a l2 :
    getle 2 r_attrs_offset R = Some a0 -> 0 <= a0 -> attrs R (bytes_per_mft_record fs) a0 (l1 ++ (ATTR_DATA, a) :: l2) ->
    Forall (fun p => p.1 <> ATTR_DATA \/ exists k, getle 1 (p.2 + h_name_len) R = Some k /\ k <> 0) l1 ->
    getle 1 (a + h_name_len) R = Some 0 -> stream_at d fs R out_size a data -> file_holds d fs R out_size data.

Lemma file_data_run s fs R x out_size data : geometry_ok (nt_disk s) fs -> Z.of_nat (length (mem s Scratch)) = 16384 ->
  Z.of_nat (length R) = bytes_per_mft_record fs ->
  file_holds (nt_disk s) fs R out_size data -> 0 <= out_size < 2 ^ 31 -> Z.of_nat (length data) < 2 ^ 32 ->
  exists s', quiet s s' /\ file_data fs (R ++ x) out_size s = (OK (take (Z.to_nat out_size) data, Z.of_nat (length data)), s').
Proof.
  intros HG Hscr Hlen [a0 l1 a l2 Ha0 Ha0' Hat Hl1 Hname Hst] Hout Hdata. unfold file_data.
  rewrite (bind_OK _ _ _ _ _ (load_Some _ _ _ _ s (getle_app _ _ _ x _ Ha0))).
  match goal with |- exists s', _ /\ bind (attr_loop _ _ _ _ ?g _) _ _ = _ => set (f := g) end.
  enough (exists s', quiet s s' /\ f ATTR_DATA a None s = (OK (Some (take (Z.to_nat out_size) data, Z.of_nat (length data)), true), s')) as (s' & Q & Hf).
  { exists s'. split; [done|]. rewrite (bind_OK _ _ _ (Some (take (Z.to_nat out_size) data, Z.of_nat (length data))) s'); [done|]. rewrite (attr_loop_run _ _ _ _ _ (attrs_app _ x _ _ _ Hat)) by (rewrite length_app; lia).
    rewrite attr_fold_skip; [cbn [attr_fold]; by rewrite (bind_OK _ _ _ _ _ Hf)|]. eapply Forall_impl; [exact Hl1|]. intros [ty a'] Hp s1. cbn in *. unfold f.
    destruct (Z.eqb_spec ty ATTR_DATA) as [->|]; [|done]. destruct Hp as [|(k & Hk & Hk0)]; [done|]. cbn [negb].
    rewrite (bind_OK _ _ _ _ _ (load_Some _ _ _ _ s1 (getle_app _ _ _ x _ Hk))). by rewrite (proj2 (Z.eqb_neq k 0)). }
  unfold f. rewrite Z.eqb_refl. cbn [negb]. rewrite (bind_OK _ _ _ _ _ (load_Some _ _ _ _ s (getle_app _ _ _ x _ Hname))). cbn [Z.eqb negb].
  destruct Hst as [vo Hres Hvl Hvo Hpos Hin Heq|mp rs Hres Hsz Hmp Hin He HR Hrs Hle Heq Hfit].
  - rewrite (bind_OK _ _ _ _ _ (load_Some _ _ _ _ s (getle_app _ _ _ x _ Hres))). cbn [Z.eqb].
    rewrite (bind_OK _ _ _ _ _ (load_Some _ _ _ _ s (getle_app _ _ _ x _ Hvl))), (bind_OK _ _ _ _ _ (load_Some _ _ _ _ s (getle_app _ _ _ x _ Hvo))).
    exists s. split; [apply quiet_refl|]. unfold copy. rewrite (proj2 (Z.ltb_ge (a + vo) 0)), (proj2 (Z.ltb_ge _ _)) by (rewrite ?length_app; destruct (Z.ltb_spec out_size (Z.of_nat (length data))); lia).
    cbn [orb]. rewrite bind_ret. unfold ret. do 5 f_equal. rewrite slice_app_l by (destruct (Z.ltb_spec out_size (Z.of_nat (length data))); lia).
    transitivity (take (Z.to_nat out_size) (slice (Z.to_nat (a + vo)) (length data) R)); [|by rewrite <- Heq]. unfold slice. rewrite take_take. f_equal. destruct (Z.ltb_spec out_size (Z.of_nat (length data))); lia.
  - rewrite (bind_OK _ _ _ _ _ (load_Some _ _ _ _ s (getle_app _ _ _ x _ Hres))). cbn [Z.eqb].
    rewrite (bind_OK _ _ _ _ _ (load_Some _ _ _ _ s (getle_app _ _ _ x _ Hsz))), (bind_OK _ _ _ _ _ (load_Some _ _ _ _ s (getle_app _ _ _ x _ Hmp))).
    rewrite (u32_small (Z.of_nat (length data))) by lia.
    replace (if out_size <? Z.of_nat (length data) then out_size else Z.of_nat (length data)) with (Z.min out_size (Z.of_nat (length data))) by (destruct (Z.ltb_spec out_size (Z.of_nat (length data))); lia).
    rewrite drop_app_le by lia. destruct (read_runs_run s fs rs (drop (Z.to_nat (a + mp)) R ++ x) 0 (Z.min out_size (Z.of_nat (length data))) HG HR Hscr (encodes_app _ _ _ _ He)) as (s' & Q & Hr); [lia..|].
    rewrite Hfit in Hr. exists s'. split; [done|]. rewrite (bind_OK _ _ _ _ _ Hr). pose proof (length_runs_data s fs rs HG HR) as Hlr.
    rewrite length_slice by lia. rewrite (proj2 (Z.ltb_ge _ _)) by (unfold s32; rewrite Z.mod_small; lia). unfold ret. do 5 f_equal.
    transitivity (take (Z.to_nat out_size) (take (length data) (runs_data (nt_disk s) fs rs))); [|by rewrite <- Heq].
    change (Z.to_nat 0) with 0%nat. unfold slice. rewrite drop_0, take_take. f_equal. lia.
Qed.

(** ** The first record *)

(** The boot record's cluster holds record 0 of the MFT, whose data is the MFT:
    the runs [mruns]. *)
Inductive mft_boot d fs (mruns : list run) : Prop :=
| mft_boot_intro R n_sect cnt usa_off a0 l1 a l2 mp :
    n_sect = (bytes_per_mft_record fs + bytes_per_sector fs - 1) / bytes_per_sector fs -> n_sect * bytes_per_sector fs <= 2048 ->
    0 <= mft_lcn fs -> part_start_lba fs + mft_lcn fs * sectors_per_cluster fs + n_sect <= bd_block_count d ->
    usa_ok (bytes_per_sector fs) cnt usa_off R ->
    torn (bytes_per_sector fs) cnt 1 R (concat (bd_blk d <$> seqZ (part_start_lba fs + mft_lcn fs * sectors_per_cluster fs) n_sect)) ->
    getle 2 r_attrs_offset R = Some a0 -> 0 <= a0 -> attrs R (bytes_per_mft_record fs) a0 (l1 ++ (ATTR_DATA, a) :: l2) ->
    Forall (fun p => p.1 <> ATTR_DATA \/ exists k, getle 1 (p.2 + h_non_resident) R = Some k /\ k <> 1) l1 ->
    getle 1 (a + h_non_resident) R = Some 1 -> getle 2 (a + nr_mapping_pairs_offset) R = Some mp -> 0 <= a + mp -> a + mp + 256 <= 2048 ->
    a + mp <= Z.of_nat (length R) -> encodes 0 mruns (take 256 (drop (Z.to_nat (a + mp)) R)) -> mft_boot d fs mruns.

(** A volume that can be mounted, and the buffers to do it with. *)
Record mountable d fs (mruns : list run) : Prop := {
  ma_geometry : geometry_ok d fs;
  ma_record : 0 < bytes_per_mft_record fs <= 2048;
  ma_boot : mft_boot d fs mruns;
  ma_runs : Forall (run_ok d fs) mruns /\ runs_size fs mruns < 2 ^ 62;
}.

Definition buffers_ok s : Prop := forall b, Z.of_nat (length (mem s b)) = buffer_size b.

Lemma cache_mft_runs_run s fs mruns : buffers_ok s -> mountable (nt_disk s) fs mruns ->
  exists s', cache_mft_runs fs s = (OK tt, s') /\ mounted s' fs mruns /\ nt_disk s' = nt_disk s.
Proof.
  intros HB [HG Hrec [R n_sect cnt usa_off a0 l1 a l2 mp -> Hcap Hlcn Hend Hu Ht Ha0 Ha0' Hat Hl1 Hres Hmp Hpos Hfit Hin He] [HR Hrs]].
  pose proof HG as [Hi Hb Hs [Hc Hbc] Hp Hz]. destruct (bd_geom _ Hi) as [_ Hcnt]. unfold cache_mft_runs. rewrite (proj2 (Z.eqb_neq _ 0)) by lia.
  set (n := (bytes_per_mft_record fs + bytes_per_sector fs - 1) / bytes_per_sector fs) in *. assert (Hn : 0 <= n) by (apply Z.div_pos; lia).
  set (b := bytes_per_sector fs) in *. set (spc := sectors_per_cluster fs) in *.
  assert (mft_lcn fs * spc * b <= bd_block_count (nt_disk s) * b) by (apply Z.mul_le_mono_nonneg_r; lia).
  replace (u64 (mft_lcn fs * bytes_per_cluster fs) / b) with (mft_lcn fs * spc).
  2: { rewrite Hbc. replace (mft_lcn fs * (b * spc)) with (mft_lcn fs * spc * b) by lia. rewrite u64_small by nia. by rewrite Z.div_mul by lia. }
  rewrite u32_small by lia. fold n. rewrite (proj2 (Z.ltb_ge _ _)) by lia.
  destruct (read_sectors_run s fs (mft_lcn fs * spc) n Rec0 HG) as [Hl Hrd]; [nia|lia|lia|rewrite (HB Rec0); exact Hcap|].
  rewrite (bind_OK _ _ _ _ _ Hrd). set (raw := concat _) in *. unfold bind at 1, contents at 1. cbn [mem]. rewrite fn_lookup_insert.
  set (s1 := mkStatics _ _ _ _). set (x := drop (length raw) (mem s Rec0)) in *.
  rewrite (bind_OK _ _ _ _ _ (apply_usa_run _ cnt usa_off (R ++ x) (raw ++ x) s1 (usa_ok_app _ _ _ _ _ Hu) (torn_app _ _ _ _ x (us_len _ _ _ _ Hu) Ht))).
  assert (HlR : length R = length raw) by (by destruct Ht as [-> _]). pose proof (HB Rec0) as HB0. cbn in HB0.
  assert (Hlx : Z.of_nat (length (R ++ x)) = 2048) by (unfold x; rewrite length_app, length_drop; fold b in Hl; lia).
  assert (HB1 : buffers_ok s1).
  { intros b'. unfold s1. cbn [mem]. destruct (decide (b' = Rec0)) as [->|]; [rewrite fn_lookup_insert|rewrite fn_lookup_insert_ne by done; apply HB].
    rewrite length_app, <- HlR. rewrite length_app in Hlx. exact Hlx. }
  destruct (fill_writes Rec0 (R ++ x) s1) as (s2 & Hf2 & W2 & _); [pose proof (HB1 Rec0 : _ = 2048); lia|]. rewrite (bind_OK _ _ _ _ _ Hf2).
  rewrite (bind_OK _ _ _ _ _ (load_Some _ _ _ _ s2 (getle_app _ _ _ x _ Ha0))).
  rewrite (attr_loop_run _ _ _ _ _ (attrs_app _ x _ _ _ Hat)) by lia. rewrite attr_fold_skip.
  2: { eapply Forall_impl; [exact Hl1|]. intros [ty a'] Hp' s3. cbn in *. destruct (Z.eqb_spec ty ATTR_DATA) as [->|]; [|done]. destruct Hp' as [|(k & Hk & Hk1)]; [done|]. cbn [negb].
       rewrite (bind_OK _ _ _ _ _ (load_Some _ _ _ _ s3 (getle_app _ _ _ x _ Hk))). by rewrite (proj2 (Z.eqb_neq k 1)). }
  cbn [attr_fold]. rewrite Z.eqb_refl. cbn [negb].
  assert (Hruns : exists y, slice (Z.to_nat (a + mp)) (Z.to_nat 256) (R ++ x) = take 256 (drop (Z.to_nat (a + mp)) R) ++ y).
  { unfold slice. rewrite drop_app_le by lia. change (Z.to_nat 256) with 256%nat. rewrite take_app. eauto. }
  destruct Hruns as (y & Hruns). set (runs := slice (Z.to_nat (a + mp)) (Z.to_nat 256) (R ++ x)) in *.
  assert (Hlr : Z.of_nat (length runs) = 256) by (unfold runs; rewrite length_slice; lia).
  destruct (fill_writes MftRuns runs s2) as (s3 & Hf3 & W3 & M3).
  { rewrite (wo_length _ _ _ W2). pose proof (HB1 MftRuns : _ = 256). lia. }
  exists (mkStatics (nt_disk s3) (self fs) true (mem s3)). split; [|split].
  - rewrite (bind_OK _ _ _ (tt, true) (mkStatics (nt_disk s3) (self fs) true (mem s3))); [done|].
    rewrite (bind_OK _ _ _ _ _ (load_Some _ _ _ _ s2 (getle_app _ _ _ x _ Hres))). cbn [Z.eqb Pos.eqb negb].
    rewrite (bind_OK _ _ _ _ _ (load_Some _ _ _ _ s2 (getle_app _ _ _ x _ Hmp))). unfold copy.
    rewrite (proj2 (Z.ltb_ge (a + mp) 0)), (proj2 (Z.ltb_ge _ _)) by lia. cbn [orb]. fold runs. rewrite bind_ret. by rewrite (bind_OK _ _ _ _ _ Hf3).
  - split; cbn [nt_disk cached_valid cached_for_fs mem].
    + by rewrite (wo_disk _ _ _ W3), (wo_disk _ _ _ W2).
    + done.
    + intros b'. rewrite (wo_length _ _ _ W3), (wo_length _ _ _ W2). apply HB1.
    + done.
    + rewrite (wo_disk _ _ _ W3), (wo_disk _ _ _ W2), M3. split; [|done]. rewrite Hruns, <- app_assoc. by apply encodes_app.
  - cbn. by rewrite (wo_disk _ _ _ W3), (wo_disk _ _ _ W2).
Qed.

(** The first read of a record caches the runs and goes on with them. *)
Lemma read_mft_record_first s fs mruns n out : buffers_ok s -> mountable (nt_disk s) fs mruns -> cached_valid s = false \/ cached_for_fs s <> self fs -> n <> 0 ->
  exists s', mounted s' fs mruns /\ nt_disk s' = nt_disk s /\ read_mft_record fs n out s = read_mft_record fs n out s'.
Proof.
  intros HB Hm Hc Hn. destruct (cache_mft_runs_run s fs mruns HB Hm) as (s' & Hr & Hm' & Hd). exists s'. split; [done|]. split; [done|].
  pose proof (mo_cached _ _ _ Hm') as [Hv Hf]. unfold read_mft_record. set (rest := bind (contents MftRuns) _). transitivity (rest s').
  - rewrite (bind_OK get _ s s s eq_refl). replace (negb (cached_valid s) || negb (cached_for_fs s =? self fs)) with true.
    2: { destruct Hc as [->|Hc]; [done|]. rewrite (proj2 (Z.eqb_neq _ _) Hc). by rewrite orb_true_r. }
    rewrite (bind_OK _ _ _ _ _ Hr). unfold bind at 1, contents at 1. rewrite (proj2 (Z.eqb_neq n 0)) by done.
    rewrite (bind_OK get _ s' s' s' eq_refl). by rewrite Hv.
  - symmetry. rewrite (bind_OK get _ s' s' s' eq_refl). by rewrite Hv, Hf, Z.eqb_refl.
Qed.

(** ** Mounting *)

(** The boot record describes the volume [fs], as far as the reader takes it
    from there. *)
Inductive boot_holds (boot : list Z) fs : Prop :=
| boot_holds_intro cpr c :
    getle 8 3 boot = Some NTFS_OEM -> getle 2 11 boot = Some (bytes_per_sector fs) -> getle 1 13 boot = Some (sectors_per_cluster fs) ->
    getle 8 40 boot = Some (total_sectors fs) -> getle 8 48 boot = Some (mft_lcn fs) -> getle 8 56 boot = Some (mft_mirr_lcn fs) ->
    getle 1 64 boot = Some cpr -> c = (if cpr <? 128 then cpr else cpr - 256) ->
    bytes_per_mft_record fs = (if 0 <? c then c * bytes_per_cluster fs else 2 ^ (- c)) -> -32 < c ->
    cluster_count fs = total_sectors fs / sectors_per_cluster fs -> free_clusters fs = 0 -> bytes_per_sector fs <= 512 -> boot_holds boot fs.

(** The record of $Volume with its label, cut at 128 characters. *)
Inductive label_holds fs (R : list Z) (l : list Z) : Prop :=
| label_holds_intro a0 l1 a l2 vo vl :
    getle 2 r_attrs_offset R = Some a0 -> 0 <= a0 -> attrs R (bytes_per_mft_record fs) a0 (l1 ++ (ATTR_VOLUME_NAME, a) :: l2) ->
    Forall (fun p => p.1 <> ATTR_VOLUME_NAME) l1 -> getle 1 (a + h_non_resident) R = Some 0 -> getle 2 (a + ra_value_offset) R = Some vo ->
    getle 4 (a + ra_value_length) R = Some vl -> 0 <= vl -> 0 <= a + vo -> a + vo + 2 * Z.min 128 (vl / 2) <= Z.of_nat (length R) ->
    l = ((fun i => fold_char (le_dec (slice (Z.to_nat (a + vo + 2 * i)) 2 R))) <$> seqZ 0 (Z.min 128 (vl / 2))) -> label_holds fs R l.

Lemma read_label_run s fs R x l : Z.of_nat (length R) = bytes_per_mft_record fs -> label_holds fs R l -> read_label fs (R ++ x) s = (OK l, s).
Proof.
  intros Hlen [a0 l1 a l2 vo vl Ha0 Ha0' Hat Hl1 Hres Hvo Hvl Hvl0 Hpos Hin Hl]. unfold read_label.
  rewrite (bind_OK _ _ _ _ _ (load_Some _ _ _ _ s (getle_app _ _ _ x _ Ha0))), (attr_loop_run _ _ _ _ _ (attrs_app _ x _ _ _ Hat)) by (rewrite length_app; lia).
  rewrite attr_fold_skip.
  2: { eapply Forall_impl; [exact Hl1|]. intros [ty a'] Hp s1. cbn in *. by rewrite (proj2 (Z.eqb_neq _ _) Hp). }
  cbn [attr_fold]. rewrite Z.eqb_refl. cbn [negb]. rewrite (bind_OK _ _ _ (l, true) s); [done|].
  rewrite (bind_OK _ _ _ _ _ (load_Some _ _ _ _ s (getle_app _ _ _ x _ Hres))). cbn [Z.eqb negb].
  rewrite (bind_OK _ _ _ _ _ (load_Some _ _ _ _ s (getle_app _ _ _ x _ Hvo))), (bind_OK _ _ _ _ _ (load_Some _ _ _ _ s (getle_app _ _ _ x _ Hvl))).
  replace (if 128 <? vl / 2 then 128 else vl / 2) with (Z.min 128 (vl / 2)) by (destruct (Z.ltb_spec 128 (vl / 2)); lia).
  unfold fold_name. rewrite (proj2 (Z.ltb_ge (a + vo) 0)), (proj2 (Z.ltb_ge _ _)) by (rewrite ?length_app; lia). cbn [orb]. rewrite bind_ret. unfold ret. do 3 f_equal.
  rewrite Hl. apply list_fmap_ext. intros i y Hy. apply lookup_seqZ in Hy as [-> Hi]. by rewrite slice_app_l by lia.
Qed.

Lemma mounted_label s fs mruns l : mounted s fs mruns -> mounted s (set_label fs l) mruns.
Proof. intros [[G1 G2 G3 G4 G5 G6] R B C (E & O & S)]. split; [by split|done|done|done|]. done. Qed.

(** A volume whose files are listed in its root directory. *)
Record ntfs_volume d fs (mruns : list run) (es : list dir_entry) : Prop := {
  nv_mount : mountable d (set_label fs []) mruns;
  nv_boot : boot_holds (bd_blk d (part_start_lba fs)) fs;
  nv_label : exists R, mft_holds d (set_label fs []) mruns 3 R /\ label_holds (set_label fs []) R (label fs);
  nv_root : exists R, mft_holds d fs mruns 5 R /\ root_index fs R es;
}.

Lemma open_run s fs mruns es : buffers_ok s -> ntfs_volume (nt_disk s) fs mruns es -> cached_valid s = false \/ cached_for_fs s <> self fs ->
  exists s', canboot_ntfs_open (part_start_lba fs) (self fs) s = (OK fs, s') /\ mounted s' fs mruns /\ nt_disk s' = nt_disk s.
Proof.
  intros HB [Hm [cpr c Hoem Hbps Hspc Htot Hlcn Hmirr Hcpr -> Hrsz Hc Hcc Hfc H512] (R3 & H3 & Hlab) _] Hcache.
  pose proof Hm as [[Hi Hb Hs [Hsp Hbc] Hp Hz] Hrec [? n_sect ? ? ? ? ? ? ? -> Hcap Hl0 Hend _ _ _ _ _ _ _ _ _ _ _ _] _]. cbn in Hb, Hs, Hsp, Hbc, Hp, Hz, Hrec, Hcap, Hl0, Hend.
  assert (Hpart : part_start_lba fs < bd_block_count (nt_disk s)).
  { assert (0 < (bytes_per_mft_record fs + bytes_per_sector fs - 1) / bytes_per_sector fs) by (apply Z.div_str_pos; lia). nia. }
  unfold canboot_ntfs_open. rewrite (bind_OK get _ s s s eq_refl). rewrite disk_read_one by (done || lia). rewrite bind_ret.
  rewrite (bind_OK _ _ _ _ _ (load_Some _ _ _ _ s Hoem)), Z.eqb_refl. cbn [negb].
  rewrite (bind_OK _ _ _ _ _ (load_Some _ _ _ _ s Hbps)), (bind_OK _ _ _ _ _ (load_Some _ _ _ _ s Hspc)), (bind_OK _ _ _ _ _ (load_Some _ _ _ _ s Htot)),
    (bind_OK _ _ _ _ _ (load_Some _ _ _ _ s Hlcn)), (bind_OK _ _ _ _ _ (load_Some _ _ _ _ s Hmirr)), (bind_OK _ _ _ _ _ (load_Some _ _ _ _ s Hcpr)).
  rewrite (proj2 (Z.eqb_neq _ 0)) by lia. set (c := if cpr <? 128 then cpr else cpr - 256) in *.
  replace ((c <=? 0) && (32 <=? - c)) with false by (symmetry; apply andb_false_iff; right; apply Z.leb_gt; lia).
  rewrite (u32_small (bytes_per_sector fs * _)) by nia. rewrite <- Hbc.
  replace (if 0 <? c then u32 (c * bytes_per_cluster fs) else Z.shiftl 1 (- c)) with (bytes_per_mft_record fs).
  2: { rewrite Hrsz. destruct (Z.ltb_spec 0 c); [rewrite u32_small; lia|]. rewrite Z.shiftl_mul_pow2; lia. }
  assert (Hmk : mkNtfs (self fs) (part_start_lba fs) (bytes_per_sector fs) (sectors_per_cluster fs) (bytes_per_cluster fs) (total_sectors fs) (mft_lcn fs)
    (mft_mirr_lcn fs) (bytes_per_mft_record fs) [] (total_sectors fs / sectors_per_cluster fs) 0 = set_label fs []) by (unfold set_label; by rewrite Hcc, Hfc).
  rewrite Hmk. rewrite (proj2 (Z.ltb_ge _ _)) by lia.
  destruct (read_mft_record_first s (set_label fs []) mruns 3 RecOpen HB Hm Hcache ltac:(done)) as (s1 & Hm1 & Hd1 & Hr1).
  destruct (read_mft_record_run s1 (set_label fs []) mruns 3 R3 RecOpen Hm1) as (s2 & Hr2 & Hm2 & W2 & x & Hx); [by rewrite Hd1|cbn; lia|done..|].
  rewrite <- Hr1 in Hr2. rewrite (bind_OK _ _ _ _ _ (attempt_OK _ _ _ _ Hr2)). unfold bind at 1, contents at 1. cbv beta iota. rewrite Hx.
  rewrite (bind_OK _ _ _ _ _ (read_label_run s2 _ R3 x _ (mh_length _ _ _ _ _ H3) Hlab)). exists s2.
  assert (Hfs : set_label (set_label fs []) (label fs) = fs) by (by destruct fs). split; [unfold ret; by rewrite Hfs|].
  split; [rewrite <- Hfs; by apply mounted_label|by rewrite (wo_disk _ _ _ W2)].
Qed.

(** ** What the callers see *)

(** The entries a listing reports, until the callback has enough. *)
Fixpoint report {U} (f : list Z -> Z -> U -> bool * U) (es : list dir_entry) (u : U) : Z * U :=
  match es with
  | [] => (0, u)
  | e :: es =>
      if listed e then
        let (go, u) := f (cstr (de_text e)) (de_bytes e) u in
        if go then let (n, u) := report f es u in (n + 1, u) else (0, u)
      else report f es u
  end.

Lemma walk_list_report {U} (f : list Z -> Z -> U -> bool * U) es : forall st, want_name _ st = None -> cb _ st = Some f ->
  (reported _ (walk_list es st), user _ (walk_list es st)) = let (n, u) := report f es (user _ st) in (reported _ st + n, u).
Proof.
  induction es as [|e es IH]; intros st Hw Hcb; [cbn; by rewrite Z.add_0_r|]. cbn [walk_list report]. unfold step_entry. rewrite Hw, Hcb.
  destruct (listed e); [|by apply IH]. destruct (f _ _ _) as [[] u] eqn:E; cbn [fst snd].
  - rewrite IH by done. cbn. destruct (report f es u) as [n u']. f_equal. lia.
  - cbn. by rewrite Z.add_0_r.
Qed.

(** The entry a name is looked up to. *)
Definition lookup_name (name : list Z) (es : list dir_entry) : option dir_entry :=
  find (fun e => listed e && bool_decide (cstr (de_text e) = cstr name)) es.

Lemma walk_list_find name es : forall st : walk_state unit, want_name _ st = Some name -> stop _ st = false ->
  match lookup_name name es with
  | Some e => stop _ (walk_list es st) = true /\ found_mft _ (walk_list es st) = mft_no e
  | None => stop _ (walk_list es st) = false
  end.
Proof.
  induction es as [|e es IH]; intros st Hw Hs; [done|]. cbn [walk_list lookup_name find]. unfold step_entry. rewrite Hw.
  destruct (listed e); cbn [andb]; [|by apply IH]. case_decide as Hd; [rewrite bool_decide_eq_true_2 by done|rewrite bool_decide_eq_false_2 by done; by apply IH]. done.
Qed.
End volume.

(** ** The reader *)
Section reader.
Context {D : Type} `{BlockDevice D} `{!BlockDeviceLaws D}.
Implicit Types (s : statics D) (fs : canboot_ntfs).

(** The fixups of a multi-sector block undo what is done to it on the way
    to the disk: from the block with the last two bytes of each sector replaced
    by anything, [apply_usa] restores the block. *)
Theorem ntfs_fixups_restore ss cnt usa_off R raw s : usa_ok ss cnt usa_off R -> torn ss cnt 1 R raw -> apply_usa raw ss s = (OK R, s).
Proof. apply apply_usa_run. Qed.

(** C29.  Reading through mapping pairs is reading the data they stand for: for
    the encoding of any list of runs, sparse ones included, the bytes at an
    offset of the concatenated clusters and zeros are returned, and nothing but
    the scratch buffer changes.  The read fails exactly when some piece of it in
    one run touches more sectors than the scratch buffer of 16 KiB holds; no
    read goes outside of the runs or overruns the buffer. *)
Theorem ntfs_read_runs_exact s fs rs bs voff vlen :
  geometry_ok (nt_disk s) fs -> Forall (run_ok (nt_disk s) fs) rs -> Z.of_nat (length (mem s Scratch)) = 16384 -> encodes 0 rs bs ->
  0 <= voff -> 0 <= vlen < 2 ^ 31 -> voff + vlen <= runs_size fs rs -> runs_size fs rs < 2 ^ 62 ->
  exists s', quiet s s' /\ read_runs fs bs voff vlen s =
    (if pieces_fit fs voff vlen rs then OK (slice (Z.to_nat voff) (Z.to_nat vlen) (runs_data (nt_disk s) fs rs)) else ERR, s').
Proof. apply read_runs_run. Qed.

End reader.
