(* ===== verification/NtfsDemo.v ===== *)
(** * A small NTFS volume

    Forty sectors behind two others: a boot record, an MFT of seventeen records
    in one run, and the file HELLO.TXT of 700 bytes in two runs.  It has all the
    hypotheses of the theorems about the reader. *)
From stdpp Require Import functions.
From S2P Require Import Prelude Bytes Text Disk Ntfs NtfsRuns NtfsProps.

(** Fields written into an empty block. *)
Definition block_of (n : nat) (fields : list (Z * list Z)) : list Z :=
  foldr (fun f b => splice (Z.to_nat f.1) f.2 b) (replicate n 0) fields.
Definition at_off (off : Z) (fields : list (Z * list Z)) : list (Z * list Z) := (fun f => (off + f.1, f.2)) <$> fields.

(** An MFT record with its header, update sequence array and attributes. *)
Definition demo_record (attributes : list (Z * list Z)) : list Z :=
  block_of 1024 ([(4, le_enc 2 48); (6, le_enc 2 3); (20, le_enc 2 56); (48, [7; 0])] ++ attributes).

(** The record as it is on the disk: the sequence number at the end of each sector. *)
Definition tear (R : list Z) : list Z := splice 510 [7; 0] (splice 1022 [7; 0] R).

Definition nonresident (size : Z) (pairs : list Z) : list (Z * list Z) :=
  [(0, le_enc 4 ATTR_DATA); (4, le_enc 4 80); (8, [1; 0]); (32, le_enc 2 64); (48, le_enc 8 size); (64, pairs); (80, le_enc 4 ATTR_END)].

Definition utf16 (l : list Z) : list Z := concat ((fun c => [c; 0]) <$> l).

Definition demo_R0 : list Z := demo_record (at_off 56 (nonresident (34 * 512) [0x11; 34; 1; 0])).
Definition demo_R3 : list Z := demo_record (at_off 56
  [(0, le_enc 4 ATTR_VOLUME_NAME); (4, le_enc 4 32); (16, le_enc 4 6); (20, le_enc 2 24); (24, utf16 (str "VOL")); (32, le_enc 4 ATTR_END)]).
Definition demo_R5 : list Z := demo_record (at_off 56
  [(0, le_enc 4 ATTR_INDEX_ROOT); (4, le_enc 4 192); (16, le_enc 4 160); (20, le_enc 2 32);
   (48, le_enc 4 16); (52, le_enc 4 136);
   (64, le_enc 8 16); (72, le_enc 2 104); (74, le_enc 2 84); (128, le_enc 8 700); (144, [9; 1]); (146, utf16 (str "HELLO.TXT"));
   (168, le_enc 8 0); (176, le_enc 2 16); (180, le_enc 2 2); (192, le_enc 4 ATTR_END)]).
Definition demo_R16 : list Z := demo_record (at_off 56 (nonresident 700 [0x11; 1; 36; 0x11; 1; 2; 0])).

Definition demo_boot : list Z :=
  block_of 512 [(3, le_enc 8 NTFS_OEM); (11, le_enc 2 512); (13, [1]); (40, le_enc 8 40); (48, le_enc 8 1); (56, le_enc 8 1); (64, [246])].

Definition empty_record : list Z := replicate 1024 0.
Definition demo_mft : list Z :=
  tear demo_R0 ++ empty_record ++ empty_record ++ tear demo_R3 ++ empty_record ++ tear demo_R5 ++ concat (replicate 10 empty_record) ++ tear demo_R16.

Definition zero_sector : list Z := replicate 512 0.
Definition demo_ntfs_disk : ramdisk :=
  mkRam CANBOOT_DISK_KIND_AHCI 512 true
    ([zero_sector; zero_sector; demo_boot] ++ chunks 34 512 demo_mft ++ [zero_sector; replicate 512 65; zero_sector; replicate 512 66; zero_sector]).

Definition demo_fs : canboot_ntfs := mkNtfs 0x5000 2 512 1 512 40 1 1 1024 (str "VOL") 40 0.
Definition demo_statics : statics ramdisk := mkStatics demo_ntfs_disk 0 false (fun b => replicate (Z.to_nat (buffer_size b)) 0).

Lemma torn_check ss cnt R raw : length raw = length R ->
  forallb (fun k => existsb (fun i => (i * ss - 2 <=? k) && (k <? i * ss)) (seqZ 1 (cnt - 1)) || bool_decide (raw !! Z.to_nat k = R !! Z.to_nat k)) (seqZ 0 (Z.of_nat (length R))) = true ->
  torn ss cnt 1 R raw.
Proof.
  intros Hl Hf. split; [done|]. intros k Hk. destruct (decide (k < length R)%nat); [|by rewrite !lookup_ge_None_2 by lia].
  rewrite forallb_forall in Hf. specialize (Hf (Z.of_nat k)). rewrite Nat2Z.id in Hf. apply orb_true_iff in Hf as [Hf|Hf]; [|by apply bool_decide_eq_true_1 in Hf|by apply list_elem_of_In, elem_of_seqZ; lia].
  apply existsb_exists in Hf as (i & Hi & Hik). apply list_elem_of_In, elem_of_seqZ in Hi. exfalso. apply (Hk i); lia.
Qed.

Lemma demo_usa attributes : let R := demo_record attributes in
  getle 2 4 R = Some 48 -> getle 2 6 R = Some 3 -> length R = 1024%nat -> slice 50 2 R = slice 510 2 R -> slice 52 2 R = slice 1022 2 R ->
  Forall byte_ok (slice 510 2 R) -> Forall byte_ok (slice 1022 2 R) -> usa_ok 512 3 48 R.
Proof.
  intros R H1 H2 Hl S1 S2 B1 B2. split; [done|done|lia|rewrite Hl; lia| |]; intros i Hi; assert (i = 1 \/ i = 2) as [-> | ->] by lia; done.
Qed.

Lemma demo_inv : bd_inv demo_ntfs_disk.
Proof. apply rd_ok_dec. vm_compute. reflexivity. Qed.

Definition demo_fs0 : canboot_ntfs := set_label demo_fs [].

Lemma demo_geometry : geometry_ok demo_ntfs_disk demo_fs0.
Proof. split; [exact demo_inv|vm_compute; intuition congruence..]. Qed.

Ltac demo_usa_tac := apply demo_usa; try (vm_compute; reflexivity); vm_compute; repeat constructor; discriminate.
Ltac demo_torn_tac := apply torn_check; vm_compute; reflexivity.
(** Fields and numbers of the image, evaluated. *)
Ltac field :=
  lazymatch goal with
  | |- _ = _ => vm_compute; reflexivity
  | |- _ < _ => vm_compute; reflexivity
  | |- _ <= _ => vm_compute; discriminate
  | |- _ <> _ => vm_compute; discriminate
  end.

Lemma encodes_eq prev rs bs bs' : bs = bs' -> encodes prev rs bs' -> encodes prev rs bs.
Proof. by intros ->. Qed.

Definition demo_runs : list run := [(34, Some 1)].

Lemma demo_runs_ok fs : fs = demo_fs0 \/ fs = demo_fs -> Forall (run_ok demo_ntfs_disk fs) demo_runs.
Proof. intros [-> | ->]; (constructor; [vm_compute; intuition congruence|constructor]). Qed.

Lemma demo_pairs rest : encodes 0 demo_runs ([0x11; 34; 1; 0] ++ rest).
Proof. apply (enc_run 0 1 1 34 1 [] (0 :: rest)); [lia|lia|vm_compute; intuition congruence|vm_compute; intuition congruence|constructor]. Qed.

Lemma demo_attr_data : attrs demo_R0 1024 56 ([] ++ (ATTR_DATA, 56) :: []).
Proof.
  apply (at_cons demo_R0 1024 56 ATTR_DATA 80 []); [lia|vm_compute; reflexivity|discriminate|vm_compute; reflexivity|lia|].
  apply at_end; [lia|vm_compute; reflexivity].
Qed.

Lemma demo_mountable : mountable demo_ntfs_disk demo_fs0 demo_runs.
Proof.
  split; [exact demo_geometry|vm_compute; intuition congruence| |split; [apply demo_runs_ok; by left|vm_compute; reflexivity]].
  apply (mft_boot_intro _ _ _ demo_R0 2 3 48 56 [] 56 [] 64); try field.
  - demo_usa_tac.
  - demo_torn_tac.
  - exact demo_attr_data.
  - constructor.
  - eapply encodes_eq; [|exact (demo_pairs (drop 4 (take 256 (drop 120 demo_R0))))]. vm_compute. reflexivity.
Qed.

(** A record of the MFT. *)
Lemma demo_holds fs n attributes : fs = demo_fs0 \/ fs = demo_fs -> let R := demo_record attributes in
  0 <= n < 17 -> length R = 1024%nat -> usa_ok 512 3 48 R -> torn 512 3 1 R (slice (Z.to_nat (n * 1024)) 1024 (runs_data demo_ntfs_disk fs demo_runs)) ->
  mft_holds demo_ntfs_disk fs demo_runs n R.
Proof.
  intros Hfs R Hn Hl Hu Ht. assert (Hfit : forallb (fun n => pieces_fit fs (n * 1024) 1024 demo_runs) (seqZ 0 17) = true) by (destruct Hfs as [-> | ->]; vm_compute; reflexivity).
  assert (bytes_per_mft_record fs = 1024 /\ bytes_per_sector fs = 512 /\ runs_size fs demo_runs = 17408) as (E1 & E2 & E3) by (destruct Hfs as [-> | ->]; vm_compute; done).
  split; rewrite ?E1, ?E2, ?E3; [lia|by rewrite Hl| |by exists 3, 48].
  rewrite forallb_forall in Hfit. apply (Hfit n), list_elem_of_In, elem_of_seqZ. lia.
Qed.

Definition demo_entry : dir_entry := mkDirEntry 16 1 (str "HELLO.TXT") 700.

Lemma demo_root_index : root_index demo_fs demo_R5 [demo_entry].
Proof.
  apply (root_index_intro _ _ _ 56 [] 56 [] 32 16 136); try field.
  - apply (at_cons demo_R5 1024 56 ATTR_INDEX_ROOT 192 []); [lia|vm_compute; reflexivity|discriminate|vm_compute; reflexivity|lia|].
    apply at_end; [lia|vm_compute; reflexivity].
  - constructor.
  - apply (en_cons demo_R5 240 120 104 0 84 9 demo_entry []); try field.
    apply (en_last demo_R5 240 224 16 2); field.
Qed.

Lemma demo_label : label_holds demo_fs0 demo_R3 (label demo_fs).
Proof.
  apply (label_holds_intro _ _ _ 56 [] 56 [] 24 6); try field.
  - apply (at_cons demo_R3 1024 56 ATTR_VOLUME_NAME 32 []); [lia|vm_compute; reflexivity|discriminate|vm_compute; reflexivity|lia|].
    apply at_end; [lia|vm_compute; reflexivity].
  - constructor.
Qed.

Lemma demo_volume : ntfs_volume demo_ntfs_disk demo_fs demo_runs [demo_entry].
Proof.
  split; [exact demo_mountable| | |].
  - apply (boot_holds_intro _ _ 246 (-10)); field.
  - exists demo_R3. split; [|exact demo_label]. apply demo_holds; [by left|lia|vm_compute; reflexivity|demo_usa_tac|demo_torn_tac].
  - exists demo_R5. split; [|exact demo_root_index]. apply demo_holds; [by right|lia|vm_compute; reflexivity|demo_usa_tac|demo_torn_tac].
Qed.

Definition demo_file_runs : list run := [(1, Some 36); (1, Some 38)].
Definition demo_data : list Z := replicate 512 65 ++ replicate 188 66.

Lemma demo_file out_size : out_size = 600 -> file_holds demo_ntfs_disk demo_fs demo_R16 out_size demo_data.
Proof.
  intros ->. apply (file_holds_intro _ _ _ _ _ 56 [] 56 []); try field.
  - apply (at_cons demo_R16 1024 56 ATTR_DATA 80 []); [lia|vm_compute; reflexivity|discriminate|vm_compute; reflexivity|lia|].
    apply at_end; [lia|vm_compute; reflexivity].
  - constructor.
  - apply (in_runs _ _ _ _ _ _ 64 demo_file_runs); try field.
    + apply (encodes_eq _ _ _ ([0x11; 1; 36; 0x11; 1; 2; 0] ++ drop 127 demo_R16)); [vm_compute; reflexivity|].
      apply (enc_run 0 1 1 1 36 [(1, Some 38)] ([0x11; 1; 2; 0] ++ drop 127 demo_R16)); [lia|lia|vm_compute; intuition congruence|vm_compute; intuition congruence|].
      apply (enc_run 36 1 1 1 38 [] (0 :: drop 127 demo_R16)); [lia|lia|vm_compute; intuition congruence|vm_compute; intuition congruence|constructor].
    + repeat constructor; vm_compute; intuition congruence.
Qed.

Lemma demo_buffers : buffers_ok demo_statics.
Proof. intros b. unfold demo_statics. cbn [mem]. rewrite length_replicate. by destruct b. Qed.


(** Fixups of the record of the file. *)
Lemma ntfs_fixups_restore_witness : apply_usa (tear demo_R16) 512 demo_statics = (OK demo_R16, demo_statics).
Proof. apply (ntfs_fixups_restore 512 3 48); [demo_usa_tac|demo_torn_tac]. Defined.

(** A read across both runs of the file. *)
Lemma ntfs_read_runs_exact_witness : exists s',
  read_runs demo_fs [0x11; 1; 36; 0x11; 1; 2; 0] 500 100 demo_statics = (OK (replicate 12 65 ++ replicate 88 66), s').
Proof.
  destruct (ntfs_read_runs_exact demo_statics demo_fs demo_file_runs [0x11; 1; 36; 0x11; 1; 2; 0] 500 100) as (s' & _ & Hr).
  - split; [exact demo_inv|vm_compute; intuition congruence..].
  - repeat constructor; vm_compute; intuition congruence.
  - exact (demo_buffers Scratch).
  - apply (enc_run 0 1 1 1 36 [(1, Some 38)] [0x11; 1; 2; 0]); [lia|lia|vm_compute; intuition congruence|vm_compute; intuition congruence|].
    apply (enc_run 36 1 1 1 38 [] [0]); [lia|lia|vm_compute; intuition congruence|vm_compute; intuition congruence|constructor].
  - lia.
  - lia.
  - vm_compute. discriminate.
  - vm_compute. reflexivity.
  - exists s'. rewrite Hr. vm_compute. reflexivity.
Defined.

(** ** An index block

    The same volume with the entry of the file in an index block, as NTFS lays it
    out: the entries follow the index header at offset 0x18 by its
    [entries_offset].  The reader starts 0x18 bytes further on, inside of the
    first entry, and does not find the file. *)
Definition demo_R5_large : list Z := demo_record (at_off 56
  ([(0, le_enc 4 ATTR_INDEX_ROOT); (4, le_enc 4 80); (16, le_enc 4 48); (20, le_enc 2 32); (48, le_enc 4 16); (52, le_enc 4 32); (72, le_enc 2 16); (76, le_enc 2 2);
    (80, le_enc 4 ATTR_INDEX_ALLOCATION); (84, le_enc 4 80); (88, [1; 0]); (112, le_enc 2 64); (128, le_enc 8 4096); (144, [0x11; 8; 39; 0]); (160, le_enc 4 ATTR_END)])).

Definition demo_index_block : list Z :=
  block_of 4096 [(0, str "INDX"); (4, le_enc 2 40); (6, le_enc 2 9); (24, le_enc 4 40); (28, le_enc 4 160);
    (64, le_enc 8 16); (72, le_enc 2 104); (74, le_enc 2 84); (128, le_enc 8 700); (144, [9; 1]); (146, utf16 (str "HELLO.TXT")); (176, le_enc 2 16); (180, le_enc 2 2)].

Definition demo_large_disk : ramdisk :=
  mkRam CANBOOT_DISK_KIND_AHCI 512 true
    ([zero_sector; zero_sector; demo_boot] ++
     chunks 34 512 (tear demo_R0 ++ empty_record ++ empty_record ++ tear demo_R3 ++ empty_record ++ tear demo_R5_large ++ concat (replicate 10 empty_record) ++ tear demo_R16) ++
     [zero_sector; replicate 512 65; zero_sector; replicate 512 66] ++ chunks 8 512 demo_index_block).

Definition demo_large_read (name : list Z) : outcome (list Z * Z) :=
  match canboot_ntfs_open 2 0x5000 (mkStatics demo_large_disk 0 false (fun b => replicate (Z.to_nat (buffer_size b)) 0)) with
  | (OK fs, s) => fst (canboot_ntfs_read_root_file 2 fs (Some name) 600 s)
  | _ => STUCK
  end.

(** With the offset of the index header counted from the start of the block, the
    entries would be found. *)
Lemma index_block_missed :
  demo_large_read (str "HELLO.TXT") = ERR /\ entries demo_index_block (0x18 + 160) (0x18 + 40) [demo_entry].
Proof.
  split; [vm_compute; reflexivity|]. apply (en_cons demo_index_block _ 64 104 0 84 9 demo_entry []); try field.
  apply (en_last demo_index_block _ 168 16 2); field.
Qed.
