(* ===== verification/Rtc.v ===== *)
(** * The real-time clock, [arch/x86_64/rtc.c]

    The CMOS clock behind two I/O ports, read until two samples agree, and the
    Unix time computed from it.  The ports are an argument of the model.  The
    theorems are about a clock that ticks while it is read: a reading is the
    calendar time of one moment during the call. *)
From S2P Require Import Prelude Bytes Text.

(** The I/O ports. *)
Class Ports (S : Type) : Type := {
  outb : Z -> Z -> S -> S;
  inb : Z -> S -> Z * S;
}.

Abbreviation CMOS_INDEX := 0x70 (only parsing).
Abbreviation CMOS_DATA := 0x71 (only parsing).
Abbreviation STATUS_A_UIP := 0x80 (only parsing).
Abbreviation STATUS_B_24H := 0x02 (only parsing).
Abbreviation STATUS_B_BIN := 0x04 (only parsing).

(** [struct canboot_datetime]. *)
Record canboot_datetime : Type := mkDatetime { year : Z; month : Z; day : Z; hour : Z; minute : Z; second : Z }.
#[global] Instance canboot_datetime_eq_dec : EqDecision canboot_datetime.
Proof. solve_decision. Defined.

(** The seven registers of a sample: [sec], [min], [hour], [day], [mon], [yr]
    and [cent]. *)
Record sample : Type := mkSample { r_sec : Z; r_min : Z; r_hour : Z; r_day : Z; r_mon : Z; r_yr : Z; r_cent : Z }.
#[global] Instance sample_eq_dec : EqDecision sample.
Proof. solve_decision. Defined.

Section rtc.
Context {S : Type} `{Ports S}.

Definition cmos_read (reg : Z) : M S Z := fun s =>
  let (v, s) := inb CMOS_DATA (outb CMOS_INDEX (Z.land reg 0x7F) s) in (OK v, s).

Definition update_in_progress : M S Z := let! v := cmos_read 0x0A in ret (Z.land v STATUS_A_UIP).

(** [while (guard-- && update_in_progress()) { }]. *)
Fixpoint wait_update (guard : nat) : M S unit :=
  match guard with
  | O => ret tt
  | Datatypes.S guard => let! u := update_in_progress in if u =? 0 then ret tt else wait_update guard
  end.
Definition GUARD : nat := Z.to_nat 1000000.

Definition read_sample : M S sample :=
  let! sec := cmos_read 0x00 in
  let! min := cmos_read 0x02 in
  let! hour := cmos_read 0x04 in
  let! day := cmos_read 0x07 in
  let! mon := cmos_read 0x08 in
  let! yr := cmos_read 0x09 in
  let! cent := cmos_read 0x32 in
  ret (mkSample sec min hour day mon yr cent).

(** The loop that samples until two samples agree; [tries] ends it at 17. *)
Fixpoint sample_loop (fuel : nat) (tries : Z) (last : sample) : M S sample :=
  match fuel with
  | O => nofuel
  | Datatypes.S fuel =>
      wait_update GUARD ;;!
      let! cur := read_sample in
      let tries := tries + 1 in
      if 16 <? tries then ret cur
      else if decide (cur = last) then ret cur
      else sample_loop fuel tries cur
  end.

Definition bcd_to_bin (v : Z) : Z := u8 (Z.land v 0x0F + Z.shiftr v 4 * 10).

(** What the registers say, given status register B. *)
Definition decode_sample (stb : Z) (r : sample) : option canboot_datetime :=
  let h24 := negb (Z.land stb STATUS_B_24H =? 0) in
  let pm := negb h24 && negb (Z.land (r_hour r) 0x80 =? 0) in
  let hour := if pm then Z.land (r_hour r) 0x7F else r_hour r in
  let dec := if Z.land stb STATUS_B_BIN =? 0 then bcd_to_bin else id in
  let sec := dec (r_sec r) in
  let min := dec (r_min r) in
  let hour := dec hour in
  let day := dec (r_day r) in
  let mon := dec (r_mon r) in
  let yr := dec (r_yr r) in
  let cent := dec (r_cent r) in
  let hour :=
    if h24 then hour
    else if pm && negb (hour =? 12) then u8 (hour + 12)
    else if negb pm && (hour =? 12) then 0 else hour in
  let year := if (19 <=? cent) && (cent <=? 21) then cent * 100 + yr else 2000 + yr in
  if (mon <? 1) || (12 <? mon) || (day <? 1) || (31 <? day) || (23 <? hour) || (59 <? min) || (59 <? sec) || (year <? 1970) || (2200 <? year)
  then None else Some (mkDatetime year mon day hour min sec).

Definition canboot_rtc_read : M S canboot_datetime :=
  wait_update GUARD ;;!
  let! r := sample_loop 17 0 (mkSample 0 0 0 0 0 0 0) in
  let! stb := cmos_read 0x0B in
  match decode_sample stb r with Some t => ret t | None => err end.

Definition leap (y : Z) : bool := (y mod 4 =? 0) && negb (y mod 100 =? 0) || (y mod 400 =? 0).
Definition mdays : list Z := [31; 28; 31; 30; 31; 30; 31; 31; 30; 31; 30; 31].

Definition days_from_civil (y m d : Z) : Z :=
  let days := fold_left (fun days yr => days + (if leap yr then 366 else 365)) (seqZ 1970 (y - 1970)) 0 in
  let days := fold_left (fun days mo => days + default 0 (mdays !! Z.to_nat (mo - 1)) + (if (mo =? 2) && leap y then 1 else 0)) (seqZ 1 (m - 1)) days in
  u64 (days + (d - 1)).

Definition canboot_wall_epoch : M S Z :=
  let! t := attempt canboot_rtc_read in
  match t with
  | None => ret 0
  | Some t => ret (u64 (days_from_civil (year t) (month t) (day t) * 86400 + hour t * 3600 + minute t * 60 + second t))
  end.
End rtc.

(** ** The calendar *)
Definition month_length (y m : Z) : Z := default 0 (mdays !! Z.to_nat (m - 1)) + (if (m =? 2) && leap y then 1 else 0).

Definition civil_ok (c : canboot_datetime) : Prop :=
  1970 <= year c <= 2199 /\ 1 <= month c <= 12 /\ 1 <= day c <= month_length (year c) (month c) /\ 0 <= hour c <= 23 /\ 0 <= minute c <= 59 /\ 0 <= second c <= 59.

(** The next second of the Gregorian calendar. *)
Definition next_second (c : canboot_datetime) : canboot_datetime :=
  let '(mkDatetime y m d h mi s) := c in
  if s <? 59 then mkDatetime y m d h mi (s + 1)
  else if mi <? 59 then mkDatetime y m d h (mi + 1) 0
  else if h <? 23 then mkDatetime y m d (h + 1) 0 0
  else if d <? month_length y m then mkDatetime y m (d + 1) 0 0 0
  else if m <? 12 then mkDatetime y (m + 1) 1 0 0 0
  else mkDatetime (y + 1) 1 1 0 0 0.

(** The Unix time [canboot_wall_epoch] computes from a date and time. *)
Definition epoch_of (t : canboot_datetime) : Z :=
  u64 (days_from_civil (year t) (month t) (day t) * 86400 + hour t * 3600 + minute t * 60 + second t).

Definition year_start (y : Z) : Z := fold_left (fun days yr => days + (if leap yr then 366 else 365)) (seqZ 1970 (y - 1970)) 0.
Definition month_start (y m : Z) (days : Z) : Z := fold_left (fun days mo => days + default 0 (mdays !! Z.to_nat (mo - 1)) + (if (mo =? 2) && leap y then 1 else 0)) (seqZ 1 (m - 1)) days.

Lemma seqZ_snoc m n : 0 <= n -> seqZ m (n + 1) = seqZ m n ++ [m + n].
Proof. intros Hn. rewrite seqZ_app by lia. by rewrite (seqZ_cons (m + n) 1), (seqZ_nil _ (Z.pred 1)) by lia. Qed.

Lemma year_start_next y : 1970 <= y -> year_start (y + 1) = year_start y + (if leap y then 366 else 365).
Proof.
  intros Hy. unfold year_start. replace (y + 1 - 1970) with (y - 1970 + 1) by lia. rewrite seqZ_snoc, fold_left_app by lia. cbn [fold_left].
  replace (1970 + (y - 1970)) with y by lia. done.
Qed.

Lemma month_start_next y m days : 1 <= m -> month_start y (m + 1) days = month_start y m days + month_length y m.
Proof.
  intros Hm. unfold month_start, month_length. replace (m + 1 - 1) with (m - 1 + 1) by lia. rewrite seqZ_snoc, fold_left_app by lia. cbn [fold_left].
  replace (1 + (m - 1)) with m by lia. lia.
Qed.

Lemma month_start_total y days : month_start y 12 days + 31 = days + (if leap y then 366 else 365).
Proof.
  assert (month_start y 2 days = month_start y 1 days + 31) by exact (month_start_next y 1 days ltac:(lia)).
  assert (month_start y 3 days = month_start y 2 days + (28 + (if leap y then 1 else 0))) by exact (month_start_next y 2 days ltac:(lia)).
  assert (month_start y 4 days = month_start y 3 days + 31) by exact (month_start_next y 3 days ltac:(lia)).
  assert (month_start y 5 days = month_start y 4 days + 30) by exact (month_start_next y 4 days ltac:(lia)).
  assert (month_start y 6 days = month_start y 5 days + 31) by exact (month_start_next y 5 days ltac:(lia)).
  assert (month_start y 7 days = month_start y 6 days + 30) by exact (month_start_next y 6 days ltac:(lia)).
  assert (month_start y 8 days = month_start y 7 days + 31) by exact (month_start_next y 7 days ltac:(lia)).
  assert (month_start y 9 days = month_start y 8 days + 31) by exact (month_start_next y 8 days ltac:(lia)).
  assert (month_start y 10 days = month_start y 9 days + 30) by exact (month_start_next y 9 days ltac:(lia)).
  assert (month_start y 11 days = month_start y 10 days + 31) by exact (month_start_next y 10 days ltac:(lia)).
  assert (month_start y 12 days = month_start y 11 days + 30) by exact (month_start_next y 11 days ltac:(lia)).
  change (month_start y 1 days) with days in *. destruct (leap y); lia.
Qed.

Lemma month_length_range y m : 1 <= m <= 12 -> 28 <= month_length y m <= 31.
Proof.
  intros Hm. unfold month_length. assert (Hc : forall m, 0 <= m < 12 -> 28 <= default 0 (mdays !! Z.to_nat m) <= 31 /\ (m = 1 -> default 0 (mdays !! Z.to_nat m) = 28)).
  { apply (below_check 12 (fun m => 28 <= default 0 (mdays !! Z.to_nat m) <= 31 /\ (m = 1 -> default 0 (mdays !! Z.to_nat m) = 28))). vm_compute. reflexivity. }
  destruct (Hc (m - 1)) as [Hr Hf]; [lia|]. destruct (Z.eqb_spec m 2) as [->|]; [rewrite Hf in * by lia|]; destruct (leap y); cbn; lia.
Qed.

Lemma starts_bound y m : 1970 <= y <= 2200 -> 1 <= m <= 12 -> 0 <= year_start y /\ year_start y <= month_start y m (year_start y) <= 366 * 231.
Proof.
  intros Hy Hm.
  assert (Hys : forall n : nat, Z.of_nat n <= 230 -> 0 <= year_start (1970 + Z.of_nat n) <= 366 * Z.of_nat n).
  { induction n as [|n IH]; intros Hn; [done|]. replace (1970 + Z.of_nat (S n)) with (1970 + Z.of_nat n + 1) by lia. rewrite year_start_next by lia.
    specialize (IH ltac:(lia)). destruct (leap _); lia. }
  specialize (Hys (Z.to_nat (y - 1970)) ltac:(lia)). replace (1970 + Z.of_nat (Z.to_nat (y - 1970))) with y in Hys by lia.
  assert (Hms : forall n : nat, Z.of_nat n <= 11 -> year_start y + 28 * Z.of_nat n <= month_start y (1 + Z.of_nat n) (year_start y) <= year_start y + 31 * Z.of_nat n).
  { induction n as [|n IH]; intros Hn; [change (month_start y (1 + Z.of_nat 0) (year_start y)) with (year_start y); lia|]. replace (1 + Z.of_nat (S n)) with (1 + Z.of_nat n + 1) by lia. rewrite month_start_next by lia.
    specialize (IH ltac:(lia)). pose proof (month_length_range y (1 + Z.of_nat n) ltac:(lia)). lia. }
  specialize (Hms (Z.to_nat (m - 1)) ltac:(lia)). replace (1 + Z.of_nat (Z.to_nat (m - 1))) with m in Hms by lia. lia.
Qed.

Lemma days_eq y m d : 1970 <= y <= 2200 -> 1 <= m <= 12 -> 1 <= d <= 31 -> days_from_civil y m d = month_start y m (year_start y) + (d - 1).
Proof. intros Hy Hm Hd. pose proof (starts_bound y m Hy Hm). unfold days_from_civil. fold (year_start y). fold (month_start y m (year_start y)). rewrite u64_small; lia. Qed.

Lemma epoch_eq c : 1970 <= year c <= 2200 -> 1 <= month c <= 12 -> 1 <= day c <= 31 -> 0 <= hour c <= 23 -> 0 <= minute c <= 59 -> 0 <= second c <= 59 ->
  epoch_of c = (month_start (year c) (month c) (year_start (year c)) + (day c - 1)) * 86400 + hour c * 3600 + minute c * 60 + second c.
Proof. intros. unfold epoch_of. rewrite days_eq by done. pose proof (starts_bound (year c) (month c)). rewrite u64_small; lia. Qed.

Lemma epoch_next c : civil_ok c -> epoch_of (next_second c) = epoch_of c + 1.
Proof.
  destruct c as [y m d h mi s]. intros (Hy & Hm & Hd & Hh & Hmi & Hs). cbn in *. pose proof (month_length_range y m Hm).
  rewrite (epoch_eq (mkDatetime y m d h mi s)) by (cbn; lia). cbn.
  destruct (Z.ltb_spec s 59); [rewrite epoch_eq by (cbn; lia); cbn; lia|]. destruct (Z.ltb_spec mi 59); [rewrite epoch_eq by (cbn; lia); cbn; lia|].
  destruct (Z.ltb_spec h 23); [rewrite epoch_eq by (cbn; lia); cbn; lia|]. destruct (Z.ltb_spec d (month_length y m)); [rewrite epoch_eq by (cbn; lia); cbn; lia|].
  destruct (Z.ltb_spec m 12); rewrite epoch_eq by (cbn; lia); cbn -[month_start year_start].
  - rewrite month_start_next by lia. lia.
  - replace m with 12 in * by lia. change (month_length y 12) with 31 in *. rewrite year_start_next by lia.
    change (month_start (y + 1) 1 (year_start y + (if leap y then 366 else 365))) with (year_start y + (if leap y then 366 else 365)).
    pose proof (month_start_total y (year_start y)). lia.
Qed.

(** ** A clock that ticks while it is read *)

(** The data mode and hour mode of the clock, status register B. *)
Record mode : Type := mkMode { binary : bool; h24 : bool }.
Definition status_b (m : mode) : Z := (if h24 m then STATUS_B_24H else 0) + (if binary m then STATUS_B_BIN else 0).

(** A number in a register: binary or two decimal digits. *)
Definition reg_of (m : mode) (v : Z) : Z := if binary m then v else v / 10 * 16 + v mod 10.

(** The hour register: 1 to 12 with the afternoon in bit 7, or 0 to 23. *)
Definition hour_reg (m : mode) (h : Z) : Z :=
  if h24 m then reg_of m h
  else reg_of m (if h mod 12 =? 0 then 12 else h mod 12) + (if h <? 12 then 0 else 0x80).

Definition registers (m : mode) (c : canboot_datetime) : sample :=
  mkSample (reg_of m (second c)) (reg_of m (minute c)) (hour_reg m (hour c)) (reg_of m (day c)) (reg_of m (month c)) (reg_of m (year c mod 100)) (reg_of m (year c / 100)).

(** Decoding a number. *)
Lemma decode_reg m v : 0 <= v < 100 -> (if Z.land (status_b m) STATUS_B_BIN =? 0 then bcd_to_bin else id) (reg_of m v) = v.
Proof.
  destruct m as [[] h]; intros Hv; [by destruct h|].
  assert (Hall : forall v, 0 <= v < 100 -> bcd_to_bin (v / 10 * 16 + v mod 10) = v).
  { apply (below_check 100 (fun v => bcd_to_bin (v / 10 * 16 + v mod 10) = v)). vm_compute. reflexivity. }
  destruct h; cbn; by apply Hall.
Qed.

(** The hour as it is decoded, in each of the four modes. *)
Definition hour_back (m : mode) (h : Z) : Z :=
  let h24' := negb (Z.land (status_b m) STATUS_B_24H =? 0) in
  let pm := negb h24' && negb (Z.land (hour_reg m h) 0x80 =? 0) in
  let hr := (if Z.land (status_b m) STATUS_B_BIN =? 0 then bcd_to_bin else id) (if pm then Z.land (hour_reg m h) 0x7F else hour_reg m h) in
  if h24' then hr else if pm && negb (hr =? 12) then u8 (hr + 12) else if negb pm && (hr =? 12) then 0 else hr.

Lemma decode_hour m h : 0 <= h < 24 -> hour_back m h = h.
Proof. revert h. apply (below_check 24 (fun h => hour_back m h = h)). destruct m as [[] []]; vm_compute; reflexivity. Qed.

Lemma decode_registers m c : civil_ok c -> decode_sample (status_b m) (registers m c) = Some c.
Proof.
  destruct c as [y mo d h mi s]. intros (Hy & Hm & Hd & Hh & Hmi & Hs). cbn in Hy, Hm, Hd, Hh, Hmi, Hs. pose proof (month_length_range y mo Hm).
  unfold decode_sample, registers. cbn [r_sec r_min r_hour r_day r_mon r_yr r_cent second minute hour day month year].
  pose proof (decode_hour m h ltac:(lia)) as Eh. unfold hour_back in Eh. cbv zeta in Eh |- *.
  set (dec := if Z.land (status_b m) STATUS_B_BIN =? 0 then bcd_to_bin else id) in *. 
  assert (Hdec : forall v, 0 <= v < 100 -> dec (reg_of m v) = v) by (intros; by apply decode_reg).
  rewrite !Eh, !Hdec by (Z.div_mod_to_equations; lia).
  assert (Hc : 19 <= y / 100 <= 21) by (Z.div_mod_to_equations; lia). rewrite !(proj2 (Z.leb_le _ _)) by lia. cbn [andb].
  replace (y / 100 * 100 + y mod 100) with y by (Z.div_mod_to_equations; lia). rewrite !(proj2 (Z.ltb_ge _ _)) by lia. done.
Qed.

(** The time after [n] ticks. *)
Definition clock_at (c0 : canboot_datetime) (n : nat) : canboot_datetime := Nat.iter n next_second c0.

Lemma clock_second c0 n m : civil_ok c0 -> (forall k, (k <= n + m)%nat -> civil_ok (clock_at c0 k)) ->
  second (clock_at c0 (n + m)) = (second (clock_at c0 n) + Z.of_nat m) mod 60.
Proof.
  intros H0 Hok. induction m as [|m IH].
  - rewrite Nat.add_0_r, Z.add_0_r. symmetry. apply Z.mod_small. specialize (Hok n ltac:(lia)). destruct Hok as (_ & _ & _ & _ & _ & Hs). lia.
  - replace (n + S m)%nat with (S (n + m)) by lia. change (clock_at c0 (S (n + m))) with (next_second (clock_at c0 (n + m))).
    specialize (IH ltac:(intros; apply Hok; lia)). assert (E : second (next_second (clock_at c0 (n + m))) = (second (clock_at c0 (n + m)) + 1) mod 60).
    { destruct (Hok (n + m)%nat ltac:(lia)) as (_ & _ & _ & _ & _ & Hs). destruct (clock_at c0 (n + m)) as [y mo d h mi s]. cbn in *.
      destruct (Z.ltb_spec s 59); [cbn; symmetry; apply Z.mod_small; lia|]. replace s with 59 by lia. by repeat case_match. }
    rewrite E, IH, Zplus_mod_idemp_l. f_equal. lia.
Qed.

Lemma epoch_clock c0 n : (forall k, (k <= n)%nat -> civil_ok (clock_at c0 k)) -> epoch_of (clock_at c0 n) = epoch_of c0 + Z.of_nat n.
Proof.
  induction n as [|n IH]; intros Hok; [cbn; lia|]. change (clock_at c0 (S n)) with (next_second (clock_at c0 n)).
  rewrite epoch_next by (apply Hok; lia). rewrite IH by (intros; apply Hok; lia). lia.
Qed.

Section clock.
(** The [k]-th read of the data port is made [T k] ticks after [c0]; [uip] is what
    status register A reads as.  The state is the register selected and the
    number of reads made. *)
Context (m : mode) (c0 : canboot_datetime) (T : nat -> nat) (uip : nat -> Z).

Definition register_at (idx : Z) (k : nat) : Z :=
  let r := registers m (clock_at c0 (T k)) in
  if idx =? 0 then r_sec r else if idx =? 2 then r_min r else if idx =? 4 then r_hour r else if idx =? 7 then r_day r
  else if idx =? 8 then r_mon r else if idx =? 9 then r_yr r else if idx =? 0x32 then r_cent r
  else if idx =? 0x0A then uip k else if idx =? 0x0B then status_b m else 0.

#[local] Instance clock_ports : Ports (Z * nat) := {
  outb p v s := if p =? CMOS_INDEX then (v, s.2) else s;
  inb p s := if p =? CMOS_DATA then (register_at s.1 s.2, (s.1, Datatypes.S s.2)) else (0, s);
}.

Context (H : nat) (Hmono : forall i j, (i <= j)%nat -> (T i <= T j)%nat) (Hbound : forall k, (T k <= H)%nat).
Context (Hok : forall n, (n <= H)%nat -> civil_ok (clock_at c0 n)).

Lemma cmos_read_run reg idx k : 0 <= reg < 128 -> cmos_read reg (idx, k) = (OK (register_at reg k), (reg, S k)).
Proof. intros Hr. unfold cmos_read. cbn. change 0x7F with (Z.ones 7). rewrite Z.land_ones, Z.mod_small by lia. done. Qed.

Lemma wait_update_run n : forall idx k, exists idx' k', (k <= k')%nat /\ wait_update n (idx, k) = (OK tt, (idx', k')).
Proof.
  induction n as [|n IH]; intros idx k; [by exists idx, k|]. cbn [wait_update]. unfold update_in_progress at 1, bind at 1 2.
  rewrite cmos_read_run by lia. cbn [ret]. destruct (_ =? 0); [exists 0x0A, (S k); split; [lia|done]|].
  destruct (IH 0x0A (S k)) as (idx' & k' & Hk & Hr). exists idx', k'. split; [lia|done].
Qed.

(** The sample whose seven reads start with number [a]. *)
Definition sample_at (a : nat) : sample :=
  mkSample (r_sec (registers m (clock_at c0 (T a)))) (r_min (registers m (clock_at c0 (T (1 + a))))) (r_hour (registers m (clock_at c0 (T (2 + a)))))
    (r_day (registers m (clock_at c0 (T (3 + a))))) (r_mon (registers m (clock_at c0 (T (4 + a))))) (r_yr (registers m (clock_at c0 (T (5 + a)))))
    (r_cent (registers m (clock_at c0 (T (6 + a))))).

Lemma read_sample_run idx k : read_sample (idx, k) = (OK (sample_at k), (0x32, (7 + k)%nat)).
Proof.
  unfold read_sample. do 7 (erewrite bind_OK by (apply cmos_read_run; lia)). reflexivity.
Qed.

(** Without a tick the sample is the calendar time. *)
Lemma sample_clean a t : T a = t -> T (6 + a) = t -> sample_at a = registers m (clock_at c0 t).
Proof.
  intros Ha Hb. unfold sample_at. assert (forall i, (a <= i <= 6 + a)%nat -> T i = t) as E.
  { intros i Hi. pose proof (Hmono a i ltac:(lia)). pose proof (Hmono i (6 + a) ltac:(lia)). lia. }
  rewrite !E by lia. by destruct (registers m (clock_at c0 t)).
Qed.

Lemma reg_of_inj x y : 0 <= x < 60 -> 0 <= y < 60 -> reg_of m x = reg_of m y -> x = y.
Proof. intros Hx Hy E. rewrite <- (decode_reg m x), <- (decode_reg m y) by lia. by rewrite E. Qed.

(** Two samples with the same seconds less than a minute apart: no tick. *)
Lemma same_seconds a b : (a <= b)%nat -> (T b < T a + 60)%nat -> r_sec (sample_at a) = r_sec (sample_at b) -> T a = T b.
Proof.
  intros Hab Hlt E. pose proof (Hmono a b Hab). cbn in E. pose proof (Hbound b).
  assert (Hs : forall k, 0 <= second (clock_at c0 (T k)) < 60) by (intros k; destruct (Hok (T k) (Hbound k)) as (_ & _ & _ & _ & _ & Hs); lia).
  apply reg_of_inj in E; [|apply Hs..]. pose proof (clock_second c0 (T a) (T b - T a) (Hok 0%nat ltac:(lia)) ltac:(intros; apply Hok; lia)) as Hc.
  replace (T a + (T b - T a))%nat with (T b) in Hc by lia. rewrite <- E in Hc. specialize (Hs a). Z.div_mod_to_equations. lia.
Qed.

(** What is left of the budget of ticks after the sample at [a]: every sample
    that disagrees with the one before uses some of it. *)
Definition slack (a e : nat) : Z := 2 * (Z.of_nat (T e) - Z.of_nat (T (6 + a))) + (if decide (T (6 + a) = T a) then 0 else 1).

Lemma slack_falls a b e : (6 + a < b)%nat -> (6 + b <= e)%nat -> sample_at a <> sample_at b -> slack b e <= slack a e - 1.
Proof.
  intros Hab Hbe Hne. unfold slack. pose proof (Hmono a (6 + a) ltac:(lia)). pose proof (Hmono (6 + a) b ltac:(lia)). pose proof (Hmono b (6 + b) ltac:(lia)).
  repeat case_decide; try lia. destruct (decide (T b = T a)) as [E|E]; [|lia].
  exfalso. apply Hne. rewrite (sample_clean a (T a)), (sample_clean b (T a)); congruence.
Qed.

Lemma sample_loop_run n : forall tries a idx k, tries + Z.of_nat n = 17 -> (1 <= n)%nat -> (7 + a <= k)%nat ->
  exists r idx' k', (k <= k')%nat /\ sample_loop n tries (sample_at a) (idx, k) = (OK r, (idx', k')) /\
    (slack a k' < Z.of_nat n - 1 -> (T k' < T a + 60)%nat -> exists t, (T a <= t <= T k')%nat /\ r = registers m (clock_at c0 t)).
Proof.
  induction n as [|n IH]; intros tries a idx k Htr Hn Hak; [lia|]. cbn [sample_loop].
  destruct (wait_update_run GUARD idx k) as (i1 & b & Hb & Hw). rewrite (bind_OK _ _ _ _ _ Hw), (bind_OK _ _ _ _ _ (read_sample_run i1 b)).
  destruct (Z.ltb_spec 16 (tries + 1)) as [Hlast|Hmore].
  { exists (sample_at b), 0x32, (7 + b)%nat. split; [lia|]. split; [done|]. replace n with 0%nat by lia. intros Hs _.
    assert (0 <= slack a (7 + b)) by (unfold slack; pose proof (Hmono (6 + a) (7 + b) ltac:(lia)); case_decide; lia). lia. }
  case_decide as Heq.
  - exists (sample_at b), 0x32, (7 + b)%nat. split; [lia|]. split; [done|]. intros _ Ht. exists (T a).
    pose proof (Hmono a b ltac:(lia)). pose proof (Hmono b (7 + b) ltac:(lia)). split; [lia|]. rewrite Heq.
    assert (E : T a = T b) by (apply same_seconds; [lia|lia|by rewrite Heq]).
    apply sample_clean; [done|]. pose proof (Hmono a (6 + a) ltac:(lia)). pose proof (Hmono (6 + a) b ltac:(lia)). lia.
  - destruct (IH (tries + 1) b 0x32 (7 + b)%nat ltac:(lia) ltac:(lia) ltac:(lia)) as (r & i2 & k' & Hk' & Hr & Hp).
    exists r, i2, k'. split; [lia|]. split; [done|]. intros Hs Ht. pose proof (slack_falls a b k' ltac:(lia) ltac:(lia) ltac:(congruence)).
    pose proof (Hmono a b ltac:(lia)). destruct Hp as (t & Hrange & ->); [lia|lia|]. exists t. split; [lia|done].
Qed.

(** The first sample is never taken for a repetition of the initial zeros. *)
Lemma sample_not_zero a : sample_at a <> mkSample 0 0 0 0 0 0 0.
Proof.
  intros E. assert (Em : r_mon (sample_at a) = 0) by (by rewrite E). cbn in Em.
  destruct (Hok (T (4 + a)) (Hbound _)) as (_ & Hm & _). rewrite <- (decode_reg m (month (clock_at c0 (T (4 + a))))) in Hm by lia.
  change (T (S (S (S (S a))))) with (T (4 + a)) in Em. rewrite Em in Hm.
  assert (E0 : (if Z.land (status_b m) STATUS_B_BIN =? 0 then bcd_to_bin else id) 0 = 0) by (destruct m as [[] []]; vm_compute; reflexivity). rewrite E0 in Hm. lia.
Qed.

Lemma rtc_read_run idx k : exists r idx' k', (k <= k')%nat /\ canboot_rtc_read (idx, k) = (r, (idx', k')) /\ (r = ERR \/ exists t, r = OK t) /\
  ((T k' <= T k + 7)%nat -> exists t, (T k <= t <= T k')%nat /\ r = OK (clock_at c0 t)).
Proof.
  unfold canboot_rtc_read. destruct (wait_update_run GUARD idx k) as (i1 & k1 & Hk1 & Hw1). rewrite (bind_OK _ _ _ _ _ Hw1).
  change 17%nat with (S 16). cbn [sample_loop]. destruct (wait_update_run GUARD i1 k1) as (i2 & a & Ha & Hw2).
  assert (Hfirst : exists r idx' k', (7 + a <= k')%nat /\ sample_loop 17 0 (mkSample 0 0 0 0 0 0 0) (i1, k1) = (OK r, (idx', k')) /\
    ((T k' <= T a + 7)%nat -> exists t, (T a <= t <= T k')%nat /\ r = registers m (clock_at c0 t))).
  { change 17%nat with (S 16). cbn [sample_loop]. rewrite (bind_OK _ _ _ _ _ Hw2), (bind_OK _ _ _ _ _ (read_sample_run i2 a)).
    rewrite (proj2 (Z.ltb_ge _ _)) by lia. rewrite decide_False by apply sample_not_zero.
    destruct (sample_loop_run 16 (0 + 1) a 0x32 (7 + a) ltac:(lia) ltac:(lia) ltac:(lia)) as (r & i3 & k3 & Hk3 & Hr & Hp). exists r, i3, k3. split; [done|]. split; [done|].
    intros Ht. apply Hp; [|lia]. pose proof (Hmono a (6 + a) ltac:(lia)). unfold slack. case_decide; lia. }
  destruct Hfirst as (r & i3 & k3 & Hk3 & Hr & Hp). change 17%nat with (S 16) in Hr. cbn [sample_loop] in Hr. rewrite (bind_OK _ _ _ _ _ Hr).
  rewrite (bind_OK _ _ _ _ _ (cmos_read_run 0x0B i3 k3 ltac:(lia))). change (register_at 0x0B k3) with (status_b m).
  assert (Hex : exists r', match decode_sample (status_b m) r with Some t => ret t | None => err end (0x0B, S k3) = (r', (0x0B, S k3)) /\ (r' = ERR \/ exists t, r' = OK t) /\
    (forall t, decode_sample (status_b m) r = Some t -> r' = OK t)).
  { destruct (decode_sample (status_b m) r) as [t|]; eexists; (split; [done|]); (split; [eauto|]); intros t' Ht'; by simplify_eq. }
  destruct Hex as (r' & Hr' & Hshape & Hdec). exists r', 0x0B, (S k3). split; [lia|]. split; [exact Hr'|]. split; [done|]. intros Ht.
  pose proof (Hmono k a ltac:(lia)). pose proof (Hmono k3 (S k3) ltac:(lia)). destruct Hp as (t & Hrange & ->); [lia|]. exists t. split; [lia|].
  apply Hdec, decode_registers, Hok. pose proof (Hbound k3). lia.
Qed.
End clock.

Definition unix0 : canboot_datetime := mkDatetime 1970 1 1 0 0 0.

(** C33.  Reading the clock while it ticks.  Whatever the data and hour modes,
    whatever status register A says and whenever the clock ticks between two
    reads, reading it ends; if it has ticked seven times at most by then, the
    result is the calendar time of one moment during the call, never a mixture
    of the registers before and after a tick, and the wall clock is the Unix
    time of such a moment.  The calendar is the Gregorian one: Unix time is the
    number of seconds since the start of 1970, for every date up to 2199. *)
Theorem rtc_reads_one_moment m c0 (T : nat -> nat) uip H idx k :
  (forall i j, (i <= j)%nat -> (T i <= T j)%nat) -> (forall i, (T i <= H)%nat) -> (forall n, (n <= H)%nat -> civil_ok (clock_at c0 n)) ->
  (exists r idx' k', @canboot_rtc_read _ (clock_ports m c0 T uip) (idx, k) = (r, (idx', k')) /\ (k <= k')%nat /\
     ((T k' <= T k + 7)%nat -> exists t, (T k <= t <= T k')%nat /\ r = OK (clock_at c0 t))) /\
  (exists e idx' k', @canboot_wall_epoch _ (clock_ports m c0 T uip) (idx, k) = (OK e, (idx', k')) /\ (k <= k')%nat /\
     ((T k' <= T k + 7)%nat -> exists t, (T k <= t <= T k')%nat /\ e = epoch_of c0 + Z.of_nat t)) /\
  (forall n, (forall i, (i <= n)%nat -> civil_ok (clock_at unix0 i)) -> epoch_of (clock_at unix0 n) = Z.of_nat n).
Proof.
  intros Hmono Hbound Hok. destruct (rtc_read_run m c0 T uip H Hmono Hbound Hok idx k) as (r & idx' & k' & Hk & Hr & Hshape & Hp). split_and!.
  - by exists r, idx', k'.
  - unfold canboot_wall_epoch, attempt, bind. rewrite Hr. destruct Hshape as [-> | (c & ->)].
    + exists 0, idx', k'. split; [done|]. split; [done|]. intros Ht. by destruct (Hp Ht) as (t & _ & ?).
    + exists (epoch_of c), idx', k'. split; [done|]. split; [done|]. intros Ht. destruct (Hp Ht) as (t & Hrange & E). exists t. split; [done|].
      simplify_eq. apply epoch_clock. intros i Hi. apply Hok. specialize (Hbound k'). lia.
  - intros n Hn. rewrite epoch_clock by done. done.
Qed.

(** A clock in 12-hour BCD mode two seconds before March 2026 that ticks every
    nine reads, three times. *)
Lemma rtc_reads_one_moment_witness : exists e s',
  @canboot_wall_epoch _ (clock_ports (mkMode false false) (mkDatetime 2026 2 28 23 59 58) (fun k => Nat.min 3 (k / 9)) (fun _ => 0)) (0, 0%nat) = (OK e, s') /\
  1772323198 <= e <= 1772323201.
Proof.
  destruct (rtc_reads_one_moment (mkMode false false) (mkDatetime 2026 2 28 23 59 58) (fun k => Nat.min 3 (k / 9)) (fun _ => 0) 3 0 0) as (_ & (e & i & k' & Hr & _ & Hp) & _).
  - intros i j Hij. pose proof (Nat.Div0.div_le_mono i j 9 Hij). lia.
  - intros i. lia.
  - intros n Hn. destruct n as [|[|[|[|n]]]]; [vm_compute; intuition congruence..|lia].
  - exists e, (i, k'). split; [exact Hr|]. destruct Hp as (t & Ht & ->); [lia|]. change (epoch_of (mkDatetime 2026 2 28 23 59 58)) with 1772323198. lia.
Defined.
