(* ===== verification/Xhci.v ===== *)
(** * The USB host controller, [hal/usb/xhci.c]

    The driver and the controller share memory: rings of transfer request
    blocks (TRBs) with a cycle bit that tells who owns an entry, the buffers
    the blocks point to, and the contexts.  The controller itself is a
    parameter, the class [Controller]: registers, and what it does to the
    shared memory between two accesses of the driver.  A ring is a list of
    blocks under its name, all other memory is bytes at addresses; the
    addresses the linker gives to the static objects are the class [Layout].
    Messages on the console and [canboot_cpu_relax] are left out. *)
From stdpp Require Import functions.
From S2P Require Import Prelude Bytes Input.

Abbreviation CANBOOT_EV_SRC_USB_HID := 3 (only parsing).
Abbreviation OP_USBCMD := 0x00 (only parsing).
Abbreviation OP_USBSTS := 0x04 (only parsing).
Abbreviation USBCMD_RUN := 1 (only parsing).
Abbreviation USBCMD_HCRST := 2 (only parsing).
Abbreviation USBSTS_HCH := 1 (only parsing).
Abbreviation USBSTS_CNR := 0x800 (only parsing).
Abbreviation PORTSC_CCS := 1 (only parsing).
Abbreviation PORTSC_PED := 2 (only parsing).
Abbreviation PORTSC_PR := 0x10 (only parsing).
Abbreviation PORTSC_PP := 0x200 (only parsing).
Abbreviation PORTSC_PRC := 0x200000 (only parsing).
Abbreviation IR0_ERDP := 0x18 (only parsing).
Abbreviation TRB_TYPE t := (Z.shiftl (Z.land t 0x3F) 10) (only parsing).
Abbreviation TRB_GET_TYPE c := (Z.land (Z.shiftr c 10) 0x3F) (only parsing).
Abbreviation TRB_CYCLE := 1 (only parsing).
Abbreviation TRB_NORMAL := 1 (only parsing).
Abbreviation TRB_SETUP := 2 (only parsing).
Abbreviation TRB_DATA := 3 (only parsing).
Abbreviation TRB_STATUS := 4 (only parsing).
Abbreviation TRB_LINK := 6 (only parsing).
Abbreviation TRB_ENABLE_SLOT := 9 (only parsing).
Abbreviation TRB_ADDRESS_DEV := 11 (only parsing).
Abbreviation TRB_CONFIG_EP := 12 (only parsing).
Abbreviation TRB_EV_TRANSFER := 32 (only parsing).
Abbreviation TRB_EV_CMD_COMPL := 33 (only parsing).
Abbreviation TRB_EV_PORT_CHG := 34 (only parsing).
Abbreviation TRB_IOC := 0x20 (only parsing).
Abbreviation TRB_IDT := 0x40 (only parsing).
Abbreviation TRB_LINK_TC := 2 (only parsing).
Abbreviation CC_SUCCESS := 1 (only parsing).
Abbreviation CC_SHORT_PKT := 13 (only parsing).
Abbreviation RING_SZ := 16 (only parsing).
Abbreviation EVT_SZ := 64 (only parsing).
Abbreviation MAX_SLOTS := 16 (only parsing).
Abbreviation MAX_DEV := 4%nat (only parsing).
Abbreviation USB_NONE := 0 (only parsing).
Abbreviation USB_KEYBOARD := 1 (only parsing).
Abbreviation USB_MOUSE := 2 (only parsing).
Abbreviation USB_MSC := 3 (only parsing).

(** ** Data *)
Record trb : Type := mkTrb { param : Z; status : Z; control : Z }.

(** A place in a ring: index and cycle state. *)
Record cursor : Type := mkCursor { idx : Z; cycle : Z }.

(** The parts of [struct usb_dev] for the interrupt endpoint and the bulk
    endpoints, and the structure itself. *)
Record int_ep : Type := mkIntEp { int_epaddr : Z; int_dci : Z; int_mps : Z; int_pending : bool; int_at : cursor; last : list Z }.
Record bulk_ep : Type := mkBulkEp { bulk_in_dci : Z; bulk_out_dci : Z; bulk_in_mps : Z; bulk_out_mps : Z; bin_at : cursor; bout_at : cursor }.
Record usb_dev : Type := mkDev { used : bool; kind : Z; slot : Z; port : Z; speed : Z; intr : int_ep; ep0_at : cursor; bulk : bulk_ep }.

(** The rings: of commands, of events, and four for each device. *)
Inductive ring_name : Set := CmdRing | EvtRing | Ep0Ring (i : nat) | IntRing (i : nat) | BinRing (i : nat) | BoutRing (i : nat).
#[global] Instance ring_name_eq_dec : EqDecision ring_name.
Proof. solve_decision. Defined.

(** Where the static objects are. *)
Class Layout : Type := {
  ring_at : ring_name -> Z; g_report : nat -> Z; g_dev_ctx : nat -> Z; g_scratch_bufs : nat -> Z;
  g_dcbaa : Z; g_erst : Z; g_scratch_arr : Z; g_descbuf : Z; g_input_ctx : Z; g_setupbuf : Z;
}.

(** The memory the controller can reach. *)
Record dma : Type := mkDma { rings : ring_name -> list trb; ram : Z -> Z }.

(** The controller: reading and writing its registers, and its work. *)
Class Controller (H : Type) : Type := {
  hc_rd : Z -> H -> Z * H;
  hc_wr : Z -> Z -> H -> H;
  hc_run : dma -> H -> dma * H;
}.

(** The register bases and the size of a context. *)
Record mmio : Type := mkMmio { g_cap : Z; g_op : Z; g_rt : Z; g_db : Z; g_ctx_bytes : Z }.

Record xhci (H : Type) : Type := mkXhci {
  hc : H; mem : dma; g_dev : list usb_dev; cmd_at : cursor; evt_at : cursor; bases : mmio;
  g_evt_lock : bool; g_initialized : bool; g_hid_present : bool; inp : input;
}.
Arguments mkXhci {H}. Arguments hc {H}. Arguments mem {H}. Arguments g_dev {H}. Arguments cmd_at {H}. Arguments evt_at {H}. Arguments bases {H}.
Arguments g_evt_lock {H}. Arguments g_initialized {H}. Arguments g_hid_present {H}. Arguments inp {H}.

(** ** Memory *)
Definition fetch (n a : Z) (m : Z -> Z) : list Z := (fun i => m (a + i)) <$> seqZ 0 n.
Definition store (a : Z) (bs : list Z) (m : Z -> Z) : Z -> Z := fun x =>
  if (a <=? x) && (x <? a + Z.of_nat (length bs)) then default 0 (bs !! Z.to_nat (x - a)) else m x.

(** ** Ring helpers *)
Definition cycle_bit (c : Z) : Z := if c =? 0 then 0 else TRB_CYCLE.

Definition ring_link (at_ : Z) (cyc : Z) (ring : list trb) : option (list trb) :=
  match ring !! 15%nat with
  | None => None
  | Some _ => Some (<[15%nat := mkTrb at_ 0 (Z.lor (Z.lor (TRB_TYPE TRB_LINK) TRB_LINK_TC) (cycle_bit cyc))]> ring)
  end.

Definition push_trb (ring : list trb) (c : cursor) (p st ctl : Z) : option (list trb * cursor) :=
  match ring !! Z.to_nat (idx c), ring !! 15%nat with
  | Some _, Some _ =>
      let ring := <[Z.to_nat (idx c) := mkTrb p st (Z.lor ctl (cycle_bit (cycle c)))]> ring in
      let i := u32 (idx c + 1) in
      if i =? RING_SZ - 1 then
        match ring !! 15%nat with
        | Some l => Some (<[15%nat := mkTrb (param l) (status l) (Z.lor (Z.land (control l) 0xFFFFFFFE) (cycle_bit (cycle c)))]> ring,
                          mkCursor 0 (Z.lxor (cycle c) 1))
        | None => None
        end
      else Some (ring, mkCursor i (cycle c))
  | _, _ => None
  end.

Section driver.
Context {H : Type} `{Controller H} `{Layout}.
Variables (disp_w disp_h : Z).
Abbreviation X := (xhci H).

Definition set_mem (m : dma) (s : X) : X :=
  mkXhci (hc s) m (g_dev s) (cmd_at s) (evt_at s) (bases s) (g_evt_lock s) (g_initialized s) (g_hid_present s) (inp s).
Definition set_hc (h : H) (s : X) : X :=
  mkXhci h (mem s) (g_dev s) (cmd_at s) (evt_at s) (bases s) (g_evt_lock s) (g_initialized s) (g_hid_present s) (inp s).
Definition set_devs (l : list usb_dev) (s : X) : X :=
  mkXhci (hc s) (mem s) l (cmd_at s) (evt_at s) (bases s) (g_evt_lock s) (g_initialized s) (g_hid_present s) (inp s).
Definition set_cmd_at (c : cursor) (s : X) : X :=
  mkXhci (hc s) (mem s) (g_dev s) c (evt_at s) (bases s) (g_evt_lock s) (g_initialized s) (g_hid_present s) (inp s).
Definition set_evt_at (c : cursor) (s : X) : X :=
  mkXhci (hc s) (mem s) (g_dev s) (cmd_at s) c (bases s) (g_evt_lock s) (g_initialized s) (g_hid_present s) (inp s).
Definition set_bases (b : mmio) (s : X) : X :=
  mkXhci (hc s) (mem s) (g_dev s) (cmd_at s) (evt_at s) b (g_evt_lock s) (g_initialized s) (g_hid_present s) (inp s).
Definition set_lock (b : bool) (s : X) : X :=
  mkXhci (hc s) (mem s) (g_dev s) (cmd_at s) (evt_at s) (bases s) b (g_initialized s) (g_hid_present s) (inp s).
Definition set_flags (i h : bool) (s : X) : X :=
  mkXhci (hc s) (mem s) (g_dev s) (cmd_at s) (evt_at s) (bases s) (g_evt_lock s) i h (inp s).
Definition set_inp (i : input) (s : X) : X :=
  mkXhci (hc s) (mem s) (g_dev s) (cmd_at s) (evt_at s) (bases s) (g_evt_lock s) (g_initialized s) (g_hid_present s) i.
Definition modify (f : X -> X) : M X unit := fun s => (OK tt, f s).

(** The controller works while the driver does. *)
Definition elapse : M X unit := modify (fun s => let '(m, h) := hc_run (mem s) (hc s) in set_mem m (set_hc h s)).

(** ** MMIO helpers *)
Definition rd32 (b o : Z) : M X Z :=
  elapse ;;! fun s => let '(v, h) := hc_rd (b + o) (hc s) in (OK v, set_hc h s).
Definition wr32 (b o v : Z) : M X unit := modify (fun s => set_hc (hc_wr (b + o) v (hc s)) s).
Definition wr64 (b o v : Z) : M X unit := wr32 b o (u32 v) ;;! wr32 b (o + 4) (u32 (Z.shiftr v 32)).

(** ** Accesses to the static objects *)
Definition store_at (a : Z) (bs : list Z) : M X unit :=
  modify (fun s => set_mem (mkDma (rings (mem s)) (store a bs (ram (mem s)))) s).
Definition fetch_at (n a : Z) : M X (list Z) := fun s => (OK (fetch n a (ram (mem s))), s).
Definition put_ring (r : ring_name) (l : list trb) : M X unit :=
  modify (fun s => set_mem (mkDma (<[r := l]> (rings (mem s))) (ram (mem s))) s).
Definition dev (i : nat) : M X usb_dev := fun s => from_opt (g_dev s !! i) s.
Definition put_dev (i : nat) (d : usb_dev) : M X unit := modify (fun s => set_devs (<[i := d]> (g_dev s)) s).
Definition link (r : ring_name) (cyc : Z) : M X unit :=
  let! s := get in let! l := from_opt (ring_link (ring_at r) cyc (rings (mem s) r)) in put_ring r l.
Definition push (r : ring_name) (c : cursor) (p st ctl : Z) : M X cursor :=
  let! s := get in let! (l, c') := from_opt (push_trb (rings (mem s) r) c p st ctl) in put_ring r l ;;! ret c'.

(** [for (spin = 0; spin < limit; spin++)] around [body], which leaves the
    loop with a result. *)
Fixpoint spin_until {A} (fuel : nat) (spin limit : Z) (body : M X (option A)) : M X (option A) :=
  if limit <=? spin then ret None
  else match fuel with
  | O => nofuel
  | S f => let! r := body in match r with Some a => ret (Some a) | None => spin_until f (spin + 1) limit body end
  end.

(** ** The event ring *)
Definition poll_event : M X (option trb) :=
  elapse ;;!
  let! s := get in
  let! e := from_opt (rings (mem s) EvtRing !! Z.to_nat (idx (evt_at s))) in
  if negb (Z.land (control e) TRB_CYCLE =? cycle_bit (cycle (evt_at s))) then ret None
  else
    let i := u32 (idx (evt_at s) + 1) in
    let c := if i =? EVT_SZ then mkCursor 0 (Z.lxor (cycle (evt_at s)) 1) else mkCursor i (cycle (evt_at s)) in
    modify (set_evt_at c) ;;!
    wr64 (g_rt (bases s)) (0x20 + IR0_ERDP) (Z.lor (ring_at EvtRing + 16 * idx c) 8) ;;!
    ret (Some e).

Definition dev_by_slot (sl : Z) : M X (option nat) := fun s =>
  (OK (fst <$> list_find (fun d => used d = true /\ slot d = sl) (take MAX_DEV (g_dev s))), s).

Definition ring_cmd_doorbell : M X unit := let! s := get in wr32 (g_db (bases s)) 0 0.
Definition ring_slot_doorbell (sl dci : Z) : M X unit := let! s := get in wr32 (g_db (bases s)) (4 * sl) dci.

(** ** HID keyboard usage -> CanBoot key *)
Definition hid_to_code (usage : Z) (shift : bool) : Z :=
  if (0x04 <=? usage) && (usage <=? 0x1D) then
    let c := 97 + (usage - 0x04) in if shift then c - 32 else c
  else if (0x1E <=? usage) && (usage <=? 0x27) then
    default 0 ((if shift then str "!@#$%^&*()" else str "1234567890") !! Z.to_nat (usage - 0x1E))
  else if usage =? 0x28 then CANBOOT_KEY_ENTER
  else if usage =? 0x29 then CANBOOT_KEY_ESC
  else if usage =? 0x2A then CANBOOT_KEY_BACKSP
  else if usage =? 0x2B then CANBOOT_KEY_TAB
  else if usage =? 0x2C then 32
  else if usage =? 0x2D then if shift then 95 else 45
  else if usage =? 0x2E then if shift then 43 else 61
  else if usage =? 0x4F then CANBOOT_KEY_RIGHT
  else if usage =? 0x50 then CANBOOT_KEY_LEFT
  else if usage =? 0x51 then CANBOOT_KEY_DOWN
  else if usage =? 0x52 then CANBOOT_KEY_UP
  else 0.

(** The six usages of a report. *)
Definition usages (rep : list Z) : list Z := slice 2 6 rep.
Definition report_has (rep : list Z) (usage : Z) : bool := existsb (fun u => u =? usage) (usages rep).

(** One of the two loops of [emit_keys]: an event for each usage of [rep]
    that [other] does not have. *)
Definition key_events (ty : Z) (shift : bool) (rep other : list Z) : list canboot_event :=
  (fun u => mkEvent ty CANBOOT_EV_SRC_USB_HID (hid_to_code u shift) u 0 0 0) <$>
    filter (fun u => u <> 0 /\ report_has other u = false /\ hid_to_code u shift <> 0) (usages rep).

Definition push_all (evs : list canboot_event) (i : input) : input := fold_left (fun i ev => canboot_input_push ev i) evs i.

Definition set_intr (e : int_ep) (d : usb_dev) : usb_dev := mkDev (used d) (kind d) (slot d) (port d) (speed d) e (ep0_at d) (bulk d).

Definition emit_keys (di : nat) : M X unit :=
  let! d := dev di in
  let! rep := fetch_at 8 (g_report di) in
  let shift := negb (Z.land (default 0 (rep !! 0%nat)) 0x22 =? 0) in
  let e := intr d in
  modify (fun s => set_inp (push_all (key_events CANBOOT_EV_KEY_DOWN shift rep (last e)) (inp s)) s) ;;!
  modify (fun s => set_inp (push_all (key_events CANBOOT_EV_KEY_UP shift (last e) rep) (inp s)) s) ;;!
  put_dev di (set_intr (mkIntEp (int_epaddr e) (int_dci e) (int_mps e) (int_pending e) (int_at e) rep) d).

Definition s8 (x : Z) : Z := (x + 2 ^ 7) mod 2 ^ 8 - 2 ^ 7.

Definition emit_mouse (di : nat) : M X unit :=
  let! d := dev di in
  let! rep := fetch_at 4 (g_report di) in
  let b i := default 0 (rep !! i) in
  let buttons := b 0%nat in
  let dx := s8 (b 1%nat) in
  let dy := s8 (b 2%nat) in
  let wheel := if 4 <=? int_mps (intr d) then s8 (b 3%nat) else 0 in
  modify (fun s =>
    let m := pointer (inp s) in
    let m := if (dx =? 0) && (dy =? 0) then m else canboot_input_mouse_move_rel disp_w disp_h dx dy m in
    let m := canboot_input_mouse_button CANBOOT_MOUSE_LEFT (negb (Z.land buttons 1 =? 0)) m in
    let m := canboot_input_mouse_button CANBOOT_MOUSE_RIGHT (negb (Z.land buttons 2 =? 0)) m in
    let m := canboot_input_mouse_button CANBOOT_MOUSE_MIDDLE (negb (Z.land buttons 4 =? 0)) m in
    set_inp (set_pointer (if wheel =? 0 then m else canboot_input_mouse_wheel wheel m) (inp s)) s).

Definition queue_report (di : nat) : M X unit :=
  let! d := dev di in
  store_at (g_report di) (replicate 8 0) ;;!
  let! c := push (IntRing di) (int_at (intr d)) (g_report di) (int_mps (intr d)) (Z.lor (TRB_TYPE TRB_NORMAL) TRB_IOC) in
  let e := intr d in
  ring_slot_doorbell (slot d) (int_dci e) ;;!
  put_dev di (set_intr (mkIntEp (int_epaddr e) (int_dci e) (int_mps e) true c (last e)) d).

(** The slot, the endpoint and the completion code of a transfer event. *)
Definition ev_slot (ev : trb) : Z := Z.land (Z.shiftr (control ev) 24) 0xFF.
Definition ev_ep (ev : trb) : Z := Z.land (Z.shiftr (control ev) 16) 0x1F.
Definition ev_cc (ev : trb) : Z := Z.land (Z.shiftr (status ev) 24) 0xFF.
Definition cc_good (cc : Z) : bool := (cc =? CC_SUCCESS) || (cc =? CC_SHORT_PKT).

Definition route_hid_event (ev : trb) : M X unit :=
  let! o := dev_by_slot (ev_slot ev) in
  match o with
  | None => ret tt
  | Some di =>
      let! d := dev di in
      if kind d =? USB_MSC then ret tt
      else
        (if cc_good (ev_cc ev) then if kind d =? USB_MOUSE then emit_mouse di else emit_keys di else ret tt) ;;!
        let! d := dev di in
        let e := intr d in
        put_dev di (set_intr (mkIntEp (int_epaddr e) (int_dci e) (int_mps e) false (int_at e) (last e)) d) ;;!
        queue_report di
  end.

(** ** The lock: taking it while it is held would spin forever *)
Definition spin_lock_irqsave : M X unit := let! s := get in if g_evt_lock s then nofuel else modify (set_lock true).
Definition spin_unlock_irqrestore : M X unit := modify (set_lock false).

(** ** HAL input pump *)
Fixpoint pump_events (fuel : nat) : M X unit :=
  match fuel with
  | O => nofuel
  | S f =>
      let! o := poll_event in
      match o with
      | None => ret tt
      | Some ev => (if TRB_GET_TYPE (control ev) =? TRB_EV_TRANSFER then route_hid_event ev else ret tt) ;;! pump_events f
      end
  end.

(** The loop over the devices, from [i] for [n]. *)
Fixpoint rearm (n i : nat) : M X unit :=
  match n with
  | O => ret tt
  | S n' =>
      let! d := dev i in
      (if used d && negb (kind d =? USB_MSC) && negb (int_pending (intr d)) then queue_report i else ret tt) ;;!
      rearm n' (S i)
  end.

Definition usb_hid_pump (fuel : nat) : M X unit :=
  let! s := get in
  if negb (g_hid_present s) then ret tt
  else spin_lock_irqsave ;;! pump_events fuel ;;! rearm MAX_DEV 0 ;;! spin_unlock_irqrestore.

(** ** Bulk transfer (mass storage): the residue of the transfer *)
Definition set_bulk (b : bulk_ep) (d : usb_dev) : usb_dev := mkDev (used d) (kind d) (slot d) (port d) (speed d) (intr d) (ep0_at d) b.

Definition push_bulk (di : nat) (dci buf len : Z) : M X unit :=
  let! d := dev di in
  let b := bulk d in
  let ctl := Z.lor (TRB_TYPE TRB_NORMAL) TRB_IOC in
  if dci =? bulk_in_dci b then
    let! c := push (BinRing di) (bin_at b) buf len ctl in
    put_dev di (set_bulk (mkBulkEp (bulk_in_dci b) (bulk_out_dci b) (bulk_in_mps b) (bulk_out_mps b) c (bout_at b)) d)
  else
    let! c := push (BoutRing di) (bout_at b) buf len ctl in
    put_dev di (set_bulk (mkBulkEp (bulk_in_dci b) (bulk_out_dci b) (bulk_in_mps b) (bulk_out_mps b) (bin_at b) c) d).

(** One round of the wait: the completion of this transfer, or nothing. *)
Definition bulk_round (sl dci : Z) : M X (option (bool * Z)) :=
  let! o := poll_event in
  match o with
  | None => ret None
  | Some ev =>
      if negb (TRB_GET_TYPE (control ev) =? TRB_EV_TRANSFER) then ret None
      else if (ev_slot ev =? sl) && (ev_ep ev =? dci) then ret (Some (cc_good (ev_cc ev), Z.land (status ev) 0xFFFFFF))
      else route_hid_event ev ;;! ret None
  end.

Definition canboot_xhci_bulk (fuel : nat) (sl dci buf len : Z) : M X Z :=
  let! o := dev_by_slot sl in
  match o with
  | None => err
  | Some di =>
      let! d := dev di in
      if negb (kind d =? USB_MSC) then err
      else
        spin_lock_irqsave ;;!
        push_bulk di dci buf len ;;!
        ring_slot_doorbell sl dci ;;!
        let! r := spin_until fuel 0 200000000 (bulk_round sl dci) in
        spin_unlock_irqrestore ;;!
        match r with Some (true, residue) => ret residue | _ => err end
  end.
End driver.
