(* ===== verification/XhciInit.v ===== *)
(** * Bringing up the USB host controller, [hal/usb/xhci.c]

    Commands and control transfers, the enumeration of the root ports, the
    walk over the configuration descriptor of a device that decides what it
    is, the configuration of its endpoints, and the bring-up of the controller
    itself.  The list of PCI devices is an argument. *)
From S2P Require Import Prelude Bytes Input Xhci.

(** What the walk over the descriptors collects. *)
Record desc_scan : Type := mkScan {
  iface_no : Z; cur_class : Z; cur_proto : Z;
  hid : option (Z * Z * Z * Z);
  msc_in : option (Z * Z); msc_out : option (Z * Z);
}.

Record pci_dev : Type := mkPciDev { class_code : Z; subclass : Z; prog_if : Z; bar0 : Z }.

Definition zero_dev : usb_dev :=
  mkDev false USB_NONE 0 0 0 (mkIntEp 0 0 0 false (mkCursor 0 0) (replicate 8 0)) (mkCursor 0 0) (mkBulkEp 0 0 0 0 (mkCursor 0 0) (mkCursor 0 0)).

Definition mps_for_speed (sp : Z) : Z := if sp =? 3 then 64 else if sp =? 4 then 512 else 8.

(** An endpoint descriptor: the first interrupt IN endpoint of a HID
    interface with its interface, and the last bulk endpoints of a storage
    interface. *)
Definition scan_endpoint (addr attr mps : Z) (w : desc_scan) : desc_scan :=
  let is_in := negb (Z.land addr 0x80 =? 0) in
  if (cur_class w =? 0x03) && is_in && (Z.land attr 3 =? 3) && bool_decide (hid w = None) then
    mkScan (iface_no w) (cur_class w) (cur_proto w)
      (Some (addr, if (mps =? 0) || (8 <? mps) then 8 else mps, iface_no w, cur_proto w)) (msc_in w) (msc_out w)
  else if (cur_class w =? 0x08) && (Z.land attr 3 =? 2) then
    let ep := Some (addr, if mps =? 0 then 512 else mps) in
    if is_in then mkScan (iface_no w) (cur_class w) (cur_proto w) (hid w) ep (msc_out w)
    else mkScan (iface_no w) (cur_class w) (cur_proto w) (hid w) (msc_in w) ep
  else w.

(** [desc] is [g_descbuf]; reading past it is stuck. *)
Fixpoint scan_loop (fuel : nat) (desc : list Z) (total i : Z) (w : desc_scan) : option desc_scan :=
  match fuel with
  | O => None
  | S f =>
      if total <=? i + 1 then Some w
      else
        let b k := desc !! Z.to_nat (i + k) in
        match b 0, b 1 with
        | Some len, Some typ =>
            if len =? 0 then Some w
            else if typ =? 0x04 then
              match b 2, b 5, b 7 with
              | Some n, Some c, Some p => scan_loop f desc total (i + len) (mkScan n c p (hid w) (msc_in w) (msc_out w))
              | _, _, _ => None
              end
            else if typ =? 0x05 then
              match b 2, b 3, b 4, b 5 with
              | Some addr, Some attr, Some lo, Some hi =>
                  scan_loop f desc total (i + len) (scan_endpoint addr attr (Z.lor lo (Z.shiftl hi 8)) w)
              | _, _, _, _ => None
              end
            else scan_loop f desc total (i + len) w
        | _, _ => None
        end
  end.

Section init.
Context {H : Type} `{Controller H} `{Layout}.
Variables (disp_w disp_h : Z) (fuel : nat).
Abbreviation X := (xhci H).

(** ** Commands: the event of the completion, [None] at the timeout *)
Definition wait_cmd : M X (option trb) :=
  spin_until fuel 0 50000000 (
    let! o := poll_event in
    match o with
    | Some ev => if TRB_GET_TYPE (control ev) =? TRB_EV_CMD_COMPL then ret (Some ev) else ret None
    | None => ret None
    end).

Definition wait_xfer : M X Z :=
  let! r := spin_until fuel 0 50000000 (
    let! o := poll_event in
    match o with
    | Some ev => if TRB_GET_TYPE (control ev) =? TRB_EV_TRANSFER then ret (Some (ev_cc ev)) else ret None
    | None => ret None
    end) in
  ret (default 0 r).

(** The completion code and the slot of the event; without an event the slot
    is read from an uninitialised block. *)
Definition do_command (p ctl : Z) (want_slot : bool) : M X (Z * Z) :=
  let! s := get in
  let! c := push CmdRing (cmd_at s) p 0 ctl in
  modify (set_cmd_at c) ;;!
  ring_cmd_doorbell ;;!
  let! r := wait_cmd in
  match r with
  | Some ev => ret (ev_cc ev, ev_slot ev)
  | None => if want_slot then stuck else ret (0, 0)
  end.

Definition set_ep0 (c : cursor) (d : usb_dev) : usb_dev := mkDev (used d) (kind d) (slot d) (port d) (speed d) (intr d) c (bulk d).

Definition push_ep0 (di : nat) (p st ctl : Z) : M X unit :=
  let! d := dev di in
  let! c := push (Ep0Ring di) (ep0_at d) p st ctl in
  put_dev di (set_ep0 c d).

Definition control_xfer (di : nat) (bmRequestType bRequest wValue wIndex wLength data : Z) : M X Z :=
  let s := [bmRequestType; bRequest; u8 wValue; u8 (Z.shiftr wValue 8); u8 wIndex; u8 (Z.shiftr wIndex 8); u8 wLength; u8 (Z.shiftr wLength 8)] in
  store_at g_setupbuf s ;;!
  let setup := le_dec s in
  let is_in := negb (Z.land bmRequestType 0x80 =? 0) in
  let trt := if wLength =? 0 then 0 else if is_in then 3 else 2 in
  push_ep0 di setup 8 (Z.lor (Z.lor (TRB_TYPE TRB_SETUP) TRB_IDT) (Z.shiftl trt 16)) ;;!
  (if wLength =? 0 then ret tt
   else push_ep0 di data wLength (Z.lor (TRB_TYPE TRB_DATA) (if is_in then 0x10000 else 0))) ;;!
  push_ep0 di 0 0 (Z.lor (Z.lor (TRB_TYPE TRB_STATUS) (if negb (wLength =? 0) && is_in then 0 else 0x10000)) TRB_IOC) ;;!
  let! d := dev di in
  ring_slot_doorbell (slot d) 1 ;;!
  wait_xfer.

(** ** Contexts: word [w] of entry [i] of the input context *)
Definition ctx_put (i w v : Z) : M X unit :=
  let! s := get in store_at (g_input_ctx + i * g_ctx_bytes (bases s) + 4 * w) (le_enc 4 v).
Definition clear_input_ctx : M X unit := store_at g_input_ctx (replicate 2112 0).

Definition set_ep_ctx (dci eptype mps ring : Z) : M X unit :=
  ctx_put (dci + 1) 0 (if eptype =? 7 then Z.shiftl 3 16 else 0) ;;!
  ctx_put (dci + 1) 1 (Z.lor (Z.lor (Z.shiftl eptype 3) (Z.shiftl mps 16)) (Z.shiftl 3 1)) ;;!
  ctx_put (dci + 1) 2 (Z.lor (u32 ring) 1) ;;!
  ctx_put (dci + 1) 3 (u32 (Z.shiftr ring 32)) ;;!
  ctx_put (dci + 1) 4 mps.

(** ** Ports *)
Definition port_sc (p : Z) : Z := 0x400 + (p - 1) * 0x10.

Definition reset_port (p : Z) : M X bool :=
  let! s := get in
  let op := g_op (bases s) in
  let! sc := rd32 op (port_sc p) in
  if Z.land sc PORTSC_CCS =? 0 then ret false
  else
    let! sc := rd32 op (port_sc p) in
    wr32 op (port_sc p) (Z.lor (Z.lor (Z.land sc 0xFF89FFFF) PORTSC_PR) PORTSC_PP) ;;!
    spin_until fuel 0 5000000 (let! v := rd32 op (port_sc p) in ret (if Z.land v PORTSC_PRC =? 0 then None else Some tt)) ;;!
    let! sc := rd32 op (port_sc p) in
    wr32 op (port_sc p) (Z.lor (Z.land sc 0xFFBDFFFF) PORTSC_PRC) ;;!
    let! v := rd32 op (port_sc p) in
    ret (negb (Z.land v PORTSC_PED =? 0)).

Definition set_ident (sl po sp : Z) (d : usb_dev) : usb_dev := mkDev (used d) (kind d) sl po sp (intr d) (ep0_at d) (bulk d).

(** The total length of the configuration descriptor, 0 on failure. *)
Definition address_and_get_config (di : nat) (p : Z) : M X Z :=
  let! s := get in
  let! v := rd32 (g_op (bases s)) (port_sc p) in
  let sp := Z.land (Z.shiftr v 10) 0xF in
  let! d := dev di in
  put_dev di (set_ident (slot d) (port d) sp d) ;;!
  let! (cc, sl) := do_command 0 (TRB_TYPE TRB_ENABLE_SLOT) true in
  if negb (cc =? CC_SUCCESS) || (sl =? 0) then ret 0
  else
    let! d := dev di in
    put_dev di (set_ident sl (port d) (speed d) d) ;;!
    store_at (g_dev_ctx di) (replicate 2048 0) ;;!
    store_at (g_dcbaa + 8 * sl) (le_enc 8 (g_dev_ctx di)) ;;!
    clear_input_ctx ;;!
    ctx_put 0 1 3 ;;!
    ctx_put 1 0 (Z.lor (Z.shiftl 1 27) (Z.shiftl sp 20)) ;;!
    ctx_put 1 1 (u32 (Z.shiftl p 16)) ;;!
    ctx_put 2 1 (Z.lor (Z.lor (Z.shiftl 4 3) (Z.shiftl (mps_for_speed sp) 16)) (Z.shiftl 3 1)) ;;!
    let! d := dev di in
    put_dev di (set_ep0 (mkCursor 0 1) d) ;;!
    link (Ep0Ring di) 1 ;;!
    ctx_put 2 2 (Z.lor (u32 (ring_at (Ep0Ring di))) 1) ;;!
    ctx_put 2 3 (u32 (Z.shiftr (ring_at (Ep0Ring di)) 32)) ;;!
    let! (cc, _) := do_command g_input_ctx (Z.lor (TRB_TYPE TRB_ADDRESS_DEV) (Z.shiftl sl 24)) false in
    if negb (cc =? CC_SUCCESS) then ret 0
    else
      store_at g_descbuf (replicate 512 0) ;;!
      let! cc := control_xfer di 0x80 0x06 0x0200 0 9 g_descbuf in
      if negb (cc =? CC_SUCCESS) then ret 0
      else
        let! len := fetch_at 2 (g_descbuf + 2) in
        let total := le_dec len in
        let total := if 512 <? total then 512 else total in
        let! cc := control_xfer di 0x80 0x06 0x0200 0 total g_descbuf in
        if negb (cc =? CC_SUCCESS) then ret 0 else ret total.

Definition set_kind (k : Z) (d : usb_dev) : usb_dev := mkDev (used d) k (slot d) (port d) (speed d) (intr d) (ep0_at d) (bulk d).

Definition configure_hid (di : nat) (cfg_value iface proto : Z) : M X bool :=
  let! cc := control_xfer di 0x00 0x09 cfg_value 0 0 0 in
  if negb (cc =? CC_SUCCESS) then ret false
  else
    control_xfer di 0x21 0x0B 0 iface 0 0 ;;!
    let! d := dev di in
    let e := intr d in
    let dci := Z.land (int_epaddr e) 0x0F * 2 + 1 in
    put_dev di (set_intr (mkIntEp (int_epaddr e) dci (int_mps e) (int_pending e) (mkCursor 0 1) (last e)) d) ;;!
    clear_input_ctx ;;!
    ctx_put 0 1 (Z.lor 1 (Z.shiftl 1 dci)) ;;!
    ctx_put 1 0 (Z.lor (Z.shiftl dci 27) (Z.shiftl (speed d) 20)) ;;!
    ctx_put 1 1 (u32 (Z.shiftl (port d) 16)) ;;!
    link (IntRing di) 1 ;;!
    set_ep_ctx dci 7 (int_mps e) (ring_at (IntRing di)) ;;!
    let! (cc, _) := do_command g_input_ctx (Z.lor (TRB_TYPE TRB_CONFIG_EP) (Z.shiftl (slot d) 24)) false in
    if negb (cc =? CC_SUCCESS) then ret false
    else let! d := dev di in put_dev di (set_kind (if proto =? 2 then USB_MOUSE else USB_KEYBOARD) d) ;;! ret true.

Definition configure_msc (di : nat) (cfg_value in_ep in_mps out_ep out_mps : Z) : M X bool :=
  let! cc := control_xfer di 0x00 0x09 cfg_value 0 0 0 in
  if negb (cc =? CC_SUCCESS) then ret false
  else
    let! d := dev di in
    let in_dci := Z.land in_ep 0x0F * 2 + 1 in
    let out_dci := Z.land out_ep 0x0F * 2 in
    let max_dci := if out_dci <? in_dci then in_dci else out_dci in
    put_dev di (set_bulk (mkBulkEp in_dci out_dci in_mps out_mps (mkCursor 0 1) (mkCursor 0 1)) d) ;;!
    clear_input_ctx ;;!
    ctx_put 0 1 (Z.lor (Z.lor 1 (Z.shiftl 1 in_dci)) (Z.shiftl 1 out_dci)) ;;!
    ctx_put 1 0 (Z.lor (Z.shiftl max_dci 27) (Z.shiftl (speed d) 20)) ;;!
    ctx_put 1 1 (u32 (Z.shiftl (port d) 16)) ;;!
    link (BinRing di) 1 ;;!
    link (BoutRing di) 1 ;;!
    set_ep_ctx in_dci 6 in_mps (ring_at (BinRing di)) ;;!
    set_ep_ctx out_dci 2 out_mps (ring_at (BoutRing di)) ;;!
    let! (cc, _) := do_command g_input_ctx (Z.lor (TRB_TYPE TRB_CONFIG_EP) (Z.shiftl (slot d) 24)) false in
    if negb (cc =? CC_SUCCESS) then ret false
    else let! d := dev di in put_dev di (set_kind USB_MSC d) ;;! ret true.

(** The device is in use on port [p]. *)
Definition bind_dev (di : nat) (p : Z) (clear_last : bool) : M X bool :=
  let! d := dev di in
  let e := intr d in
  let e := if clear_last then mkIntEp (int_epaddr e) (int_dci e) (int_mps e) (int_pending e) (int_at e) (replicate 8 0) else e in
  put_dev di (mkDev true (kind d) (slot d) p (speed d) e (ep0_at d) (bulk d)) ;;! ret true.

Definition enumerate (di : nat) (p : Z) : M X bool :=
  let! total := address_and_get_config di p in
  if total =? 0 then ret false
  else
    let! desc := fetch_at 512 g_descbuf in
    let! cfg_value := from_opt (desc !! 5%nat) in
    let! w := from_opt (scan_loop 513 desc total 0 (mkScan 0 0 0 None None None)) in
    let! d := dev di in
    (match hid w with
     | Some (addr, mps, _, _) =>
         let e := intr d in put_dev di (set_intr (mkIntEp addr (int_dci e) mps (int_pending e) (int_at e) (last e)) d)
     | None => ret tt
     end) ;;!
    match msc_in w, msc_out w, hid w with
    | Some (in_ep, in_mps), Some (out_ep, out_mps), _ =>
        let! ok := configure_msc di cfg_value in_ep in_mps out_ep out_mps in
        if negb ok then ret false else bind_dev di p false
    | _, _, Some (_, _, iface, proto) =>
        let! ok := configure_hid di cfg_value iface proto in
        if negb ok then ret false else bind_dev di p true
    | _, _, _ => ret false
    end.

Definition alloc_dev : M X (option nat) := fun s => (OK (fst <$> list_find (fun d => used d = false) (take MAX_DEV (g_dev s))), s).

(** The loop over the root ports, from [p] for [n]. *)
Fixpoint enumerate_ports (n : nat) (p : Z) : M X unit :=
  match n with
  | O => ret tt
  | S n' =>
      let! s := get in
      let! v := rd32 (g_op (bases s)) (port_sc p) in
      if Z.land v PORTSC_CCS =? 0 then enumerate_ports n' (p + 1)
      else
        let! up := reset_port p in
        if negb up then enumerate_ports n' (p + 1)
        else
          let! o := alloc_dev in
          match o with
          | None => ret tt
          | Some di =>
              let! ok := enumerate di p in
              (if ok then ret tt else put_dev di zero_dev) ;;!
              enumerate_ports n' (p + 1)
          end
  end.

(** Arming the HID devices, from [i] for [n]: whether there is one. *)
Fixpoint arm (n i : nat) : M X bool :=
  match n with
  | O => ret false
  | S n' =>
      let! d := dev i in
      if negb (used d) || (kind d =? USB_MSC) then arm n' (S i)
      else queue_report i ;;! arm n' (S i) ;;! ret true
  end.

(** The number that stands for the pointer to [usb_hid_pump]. *)
Definition XHCI_PUMP : Z := 2.

(** Stopping and resetting the controller, its tables and its rings. *)
Definition start_controller (maxslots : Z) : M X unit :=
  let! s := get in
  let op := g_op (bases s) in
  let rt := g_rt (bases s) in
  let cap := g_cap (bases s) in
  wr32 op OP_USBCMD 0 ;;!
  spin_until fuel 0 10000000 (let! v := rd32 op OP_USBSTS in ret (if Z.land v USBSTS_HCH =? 0 then None else Some tt)) ;;!
  wr32 op OP_USBCMD USBCMD_HCRST ;;!
  spin_until fuel 0 50000000 (
    let! v := rd32 op OP_USBCMD in
    if negb (Z.land v USBCMD_HCRST =? 0) then ret None
    else let! v := rd32 op OP_USBSTS in ret (if Z.land v USBSTS_CNR =? 0 then Some tt else None)) ;;!
  wr32 op 0x38 (if maxslots <? MAX_SLOTS then maxslots else MAX_SLOTS) ;;!
  store_at g_dcbaa (replicate 2048 0) ;;!
  let! hcs2 := rd32 cap 0x08 in
  let spb := Z.lor (Z.land (Z.shiftr hcs2 27) 0x1F) (Z.shiftl (Z.land (Z.shiftr hcs2 21) 0x1F) 5) in
  let spb := if 8 <? spb then 8 else spb in
  (if spb =? 0 then ret tt
   else
     store_at g_scratch_arr (concat ((fun i => le_enc 8 (g_scratch_bufs i)) <$> seq 0 (Z.to_nat spb))) ;;!
     store_at g_dcbaa (le_enc 8 g_scratch_arr)) ;;!
  wr64 op 0x30 g_dcbaa ;;!
  put_ring CmdRing (replicate 16 (mkTrb 0 0 0)) ;;!
  modify (set_cmd_at (mkCursor 0 1)) ;;!
  link CmdRing 1 ;;!
  wr64 op 0x18 (Z.lor (ring_at CmdRing) 1) ;;!
  put_ring EvtRing (replicate 64 (mkTrb 0 0 0)) ;;!
  modify (set_evt_at (mkCursor 0 1)) ;;!
  store_at g_erst (le_enc 8 (ring_at EvtRing) ++ le_enc 4 EVT_SZ ++ le_enc 4 0) ;;!
  wr32 rt (0x20 + 0x08) 1 ;;!
  wr64 rt (0x20 + IR0_ERDP) (ring_at EvtRing) ;;!
  wr64 rt (0x20 + 0x10) g_erst ;;!
  wr32 rt (0x20 + 0x00) 0 ;;!
  wr32 op OP_USBCMD USBCMD_RUN ;;!
  spin_until fuel 0 10000000 (let! v := rd32 op OP_USBSTS in ret (if Z.land v USBSTS_HCH =? 0 then Some tt else None)) ;;!
  ret tt.

Definition canboot_xhci_ensure_init (devs : list pci_dev) : M X bool :=
  let! s := get in
  if g_initialized s then ret true
  else
    match list_find (fun d => class_code d = 0x0C /\ subclass d = 0x03 /\ prog_if d = 0x30) devs with
    | None => ret false
    | Some (_, pd) =>
        modify (set_devs (replicate MAX_DEV zero_dev)) ;;!
        if bar0 pd =? 0 then ret false
        else
          let cap := bar0 pd in
          let! v := rd32 cap 0x00 in
          let op := cap + Z.land v 0xFF in
          let! rtsoff := rd32 cap 0x18 in
          let! dboff := rd32 cap 0x14 in
          let! hcc := rd32 cap 0x10 in
          modify (set_bases (mkMmio cap op (cap + Z.land rtsoff 0xFFFFFFE0) (cap + Z.land dboff 0xFFFFFFFC) (if Z.land hcc 4 =? 0 then 32 else 64))) ;;!
          let! hcs1 := rd32 cap 0x04 in
          start_controller (Z.land hcs1 0xFF) ;;!
          enumerate_ports (Z.to_nat (Z.land (Z.shiftr hcs1 24) 0xFF)) 1 ;;!
          let! any_hid := arm MAX_DEV 0 in
          let! s := get in
          (if any_hid then
             modify (set_flags (g_initialized s) true) ;;!
             modify (fun s => set_inp (canboot_input_register_pump XHCI_PUMP (inp s)) s)
           else ret tt) ;;!
          let! s := get in
          modify (set_flags true (g_hid_present s)) ;;! ret true
    end.

Definition canboot_usb_hid_init (devs : list pci_dev) : M X bool :=
  canboot_xhci_ensure_init devs ;;! let! s := get in ret (g_hid_present s).
Definition canboot_usb_hid_present : M X bool := let! s := get in ret (g_hid_present s).

(** ** Mass-storage device accessors *)
Definition is_msc (d : usb_dev) : bool := used d && (kind d =? USB_MSC).
Definition msc_devs (s : X) : list usb_dev := filter (fun d => is_msc d = true) (take MAX_DEV (g_dev s)).
Definition canboot_xhci_msc_count : M X Z := let! s := get in ret (Z.of_nat (length (msc_devs s))).
Definition canboot_xhci_msc_get (i : Z) : M X (option (Z * Z * Z)) :=
  let! s := get in
  ret ((fun d => (slot d, bulk_in_dci (bulk d), bulk_out_dci (bulk d))) <$> (if i <? 0 then None else msc_devs s !! Z.to_nat i)).
End init.

(** A descriptor whose two-byte header ends with the buffer is read past the
    buffer. *)
Example scan_overruns : scan_loop 513 ([255; 0] ++ replicate 253 0 ++ [255; 0] ++ replicate 253 0 ++ [9; 4]) 512 0 (mkScan 0 0 0 None None None) = None.
Proof. vm_compute. reflexivity. Qed.
