(* ===== verification/UsbStorage.v ===== *)
(** * USB mass storage, [hal/disk/usb_storage.c]

    SCSI commands in the bulk-only transport over [canboot_xhci_bulk]: a
    command block goes out, data moves through the bounce buffer, a status
    block comes back.  [ERR] is a return of -1 or false. *)
From S2P Require Import Prelude Bytes Disk Input Xhci XhciInit.

Abbreviation CBW_SIG := 0x43425355 (only parsing).
Abbreviation CSW_SIG := 0x53425355 (only parsing).
Abbreviation SCSI_TEST_UNIT_READY := 0x00 (only parsing).
Abbreviation SCSI_REQUEST_SENSE := 0x03 (only parsing).
Abbreviation SCSI_INQUIRY := 0x12 (only parsing).
Abbreviation SCSI_READ_CAPACITY10 := 0x25 (only parsing).
Abbreviation SCSI_READ10 := 0x28 (only parsing).
Abbreviation SCSI_WRITE10 := 0x2A (only parsing).
Abbreviation BOUNCE_BYTES := 8192 (only parsing).
Abbreviation MSC_MAX := 4 (only parsing).

Record msc : Type := mkMsc { m_slot : Z; in_dci : Z; out_dci : Z; block_size : Z; block_count : Z }.

(** What the driver puts into a [struct canboot_disk]: the number in its
    name, its geometry and the [struct msc] it points to. *)
Record usb_disk : Type := mkUsbDisk { u_name : Z; u_kind : Z; u_block_size : Z; u_block_count : Z; u_writable : bool; driver_priv : nat }.

(** The addresses of the static buffers. *)
Class StorageLayout : Type := { g_cbw : Z; g_csw : Z; g_bounce : Z }.

Record storage (H : Type) : Type := mkStorage { usb : xhci H; g_msc : list msc; g_tag : Z; disks : Registry.registry usb_disk }.
Arguments mkStorage {H}. Arguments usb {H}. Arguments g_msc {H}. Arguments g_tag {H}. Arguments disks {H}.

Definition put_be32 (v : Z) : list Z := [u8 (Z.shiftr v 24); u8 (Z.shiftr v 16); u8 (Z.shiftr v 8); u8 v].
Definition get_be32 (p : list Z) : Z :=
  let b i := default 0 (p !! i) in
  Z.lor (Z.lor (Z.lor (Z.shiftl (b 0%nat) 24) (Z.shiftl (b 1%nat) 16)) (Z.shiftl (b 2%nat) 8)) (b 3%nat).

(** The 31 bytes of [g_cbw]. *)
Definition cbw_bytes (tag : Z) (cdb : list Z) (data_in : bool) (dlen : Z) : list Z :=
  [u8 CBW_SIG; u8 (Z.shiftr CBW_SIG 8); u8 (Z.shiftr CBW_SIG 16); u8 (Z.shiftr CBW_SIG 24);
   u8 tag; u8 (Z.shiftr tag 8); u8 (Z.shiftr tag 16); u8 (Z.shiftr tag 24);
   u8 dlen; u8 (Z.shiftr dlen 8); u8 (Z.shiftr dlen 16); u8 (Z.shiftr dlen 24);
   if data_in then 0x80 else 0x00; 0; Z.land (Z.of_nat (length cdb)) 0x1F]
  ++ cdb ++ replicate (16 - length cdb) 0.

Section storage.
Context {H : Type} `{Controller H} `{Layout} `{StorageLayout}.
Variables (disp_w disp_h : Z) (fuel : nat).
Abbreviation U := (storage H).

Definition lift {A} (m : M (xhci H) A) : M U A := fun s =>
  let '(r, x) := m (usb s) in (r, mkStorage x (g_msc s) (g_tag s) (disks s)).
Definition xbulk (m : msc) (dci buf len : Z) : M U Z := lift (canboot_xhci_bulk disp_w disp_h fuel (m_slot m) dci buf len).
Definition next_tag : M U Z := fun s => (OK (g_tag s), mkStorage (usb s) (g_msc s) (u32 (g_tag s + 1)) (disks s)).

Definition bot_xfer (m : msc) (cdb : list Z) (data_in : bool) (data dlen : Z) : M U Z :=
  let! tag := next_tag in
  lift (store_at g_cbw (cbw_bytes tag cdb data_in dlen)) ;;!
  xbulk m (out_dci m) g_cbw 31 ;;!
  (if dlen =? 0 then ret 0 else xbulk m (if data_in then in_dci m else out_dci m) data dlen) ;;!
  xbulk m (in_dci m) g_csw 13 ;;!
  let! csw := lift (fetch_at 13 g_csw) in
  let sig := le_dec (slice 0 4 csw) in
  let rtag := le_dec (slice 4 4 csw) in
  if negb (sig =? CSW_SIG) || negb (rtag =? tag) then err
  else from_opt (csw !! 12%nat).

Definition request_sense (m : msc) : M U unit :=
  attempt (bot_xfer m [SCSI_REQUEST_SENSE; 0; 0; 0; 18; 0] true g_bounce 18) ;;! ret tt.

Fixpoint unit_ready_loop (n : nat) (m : msc) : M U bool :=
  match n with
  | O => ret false
  | S n' =>
      let! o := attempt (bot_xfer m [SCSI_TEST_UNIT_READY; 0; 0; 0; 0; 0] false 0 0) in
      match o with
      | None => ret false
      | Some st => if st =? 0 then ret true else request_sense m ;;! unit_ready_loop n' m
      end
  end.
Definition unit_ready : msc -> M U bool := unit_ready_loop 16.

(** The geometry: [None] is a return of false. *)
Definition read_capacity (m : msc) : M U (option (Z * Z)) :=
  let! o := attempt (bot_xfer m [SCSI_READ_CAPACITY10; 0; 0; 0; 0; 0; 0; 0; 0; 0] true g_bounce 8) in
  match o with
  | Some 0 =>
      let! b := lift (fetch_at 8 g_bounce) in
      let last_lba := get_be32 (slice 0 4 b) in
      let blksz := get_be32 (slice 4 4 b) in
      if (blksz <? 512) || (4096 <? blksz) then ret None else ret (Some (blksz, last_lba + 1))
  | _ => ret None
  end.

Definition rw_cdb (write : bool) (lba chunk : Z) : list Z :=
  [if write then SCSI_WRITE10 else SCSI_READ10; 0] ++ put_be32 (u32 lba) ++ [0; u8 (Z.shiftr chunk 8); u8 chunk; 0].

(** The loop of [rw10] for a read: the bytes put into [buf]. *)
Fixpoint read_loop (n : nat) (m : msc) (lba nblk : Z) : M U (list Z) :=
  if nblk =? 0 then ret []
  else match n with
  | O => nofuel
  | S n' =>
      let per := BOUNCE_BYTES / block_size m in
      let chunk := if nblk <? per then nblk else per in
      let bytes := u32 (chunk * block_size m) in
      let! st := bot_xfer m (rw_cdb false lba chunk) true g_bounce bytes in
      if negb (st =? 0) then err
      else
        let! p := lift (fetch_at bytes g_bounce) in
        let! rest := read_loop n' m (u64 (lba + chunk)) (nblk - chunk) in
        ret (p ++ rest)
  end.

(** The loop of [rw10] for a write of the bytes [p]. *)
Fixpoint write_loop (n : nat) (m : msc) (lba nblk : Z) (p : list Z) : M U unit :=
  if nblk =? 0 then ret tt
  else match n with
  | O => nofuel
  | S n' =>
      let per := BOUNCE_BYTES / block_size m in
      let chunk := if nblk <? per then nblk else per in
      let bytes := u32 (chunk * block_size m) in
      if Z.of_nat (length p) <? bytes then stuck
      else
        lift (store_at g_bounce (take (Z.to_nat bytes) p)) ;;!
        let! st := bot_xfer m (rw_cdb true lba chunk) false g_bounce bytes in
        if negb (st =? 0) then err
        else write_loop n' m (u64 (lba + chunk)) (nblk - chunk) (drop (Z.to_nat bytes) p)
  end.

(** [priv] is [d->driver_priv], the number of a [struct msc]; dividing by a
    block size of zero is stuck. *)
Definition the_msc (priv : nat) : M U msc := fun s => from_opt (g_msc s !! priv) s.
Definition usb_read (priv : nat) (lba n : Z) : M U (list Z) :=
  let! m := the_msc priv in if block_size m =? 0 then stuck else read_loop (Z.to_nat n) m lba n.
Definition usb_write (priv : nat) (lba n : Z) (buf : list Z) : M U unit :=
  let! m := the_msc priv in if block_size m =? 0 then stuck else write_loop (Z.to_nat n) m lba n buf.

Definition put_msc (i : nat) (m : msc) : M U unit := fun s => (OK tt, mkStorage (usb s) (<[i := m]> (g_msc s)) (g_tag s) (disks s)).
Definition register (d : usb_disk) : M U bool := fun s =>
  let '(b, r) := Registry.canboot_disk_register (Some d) (disks s) in (OK b, mkStorage (usb s) (g_msc s) (g_tag s) r).

(** The body of the loop over the devices. *)
Definition probe_msc (i : nat) : M U bool :=
  put_msc i (mkMsc 0 0 0 0 0) ;;!
  let! o := lift (canboot_xhci_msc_get (Z.of_nat i)) in
  match o with
  | None => ret false
  | Some (sl, din, dout) =>
      let m := mkMsc sl din dout 0 0 in
      put_msc i m ;;!
      attempt (bot_xfer m [SCSI_INQUIRY; 0; 0; 0; 36; 0] true g_bounce 36) ;;!
      let! ready := unit_ready m in
      if negb ready then ret false
      else
        let! cap := read_capacity m in
        match cap with
        | None => ret false
        | Some (bs, n) =>
            put_msc i (mkMsc sl din dout bs n) ;;!
            register (mkUsbDisk (Z.of_nat i) CANBOOT_DISK_KIND_VIRTIO_BLK bs n true i)
        end
  end.

Fixpoint probe_loop (n i : nat) : M U bool :=
  match n with
  | O => ret false
  | S n' => let! any := probe_msc i in let! rest := probe_loop n' (S i) in ret (any || rest)
  end.

Definition canboot_usb_storage_init (devs : list pci_dev) : M U bool :=
  let! up := lift (canboot_xhci_ensure_init fuel devs) in
  if negb up then ret false
  else
    let! n := lift canboot_xhci_msc_count in
    probe_loop (Z.to_nat (if MSC_MAX <? n then MSC_MAX else n)) 0.
End storage.
