(* ===== verification/UsbSpec.v ===== *)
(** * What the USB drivers rely on

    The documented behaviour of the hardware below [hal/usb/xhci.c] and
    [hal/disk/usb_storage.c], as hypotheses of the theorems about them.  A
    controller of the xHCI specification takes the transfer blocks whose cycle
    bit is its own from the rings of its endpoints, follows link blocks, moves
    data between the buffers and the device, and posts events into the event
    ring as long as there is room behind the driver's dequeue pointer
    ([hc_step]); it answers a doorbell within a bounded number of polls
    ([ChipLaws]).  A disk of the bulk-only transport answers the SCSI commands
    READ(10) and WRITE(10) ([DiskLaws]).  How the controller interleaves its
    endpoints and what else it posts is left open. *)
From stdpp Require Import functions relations.
From S2P Require Import Prelude Bytes Disk Input Xhci XhciInit UsbStorage.

(** ** The device at the other end of the bulk endpoints *)
Class Target (T : Type) : Type := { t_out : list Z -> T -> T; t_in : Z -> T -> list Z * T }.

(** ** The controller *)
Inductive direction : Set := Out | In | Interrupt.
Record endpoint : Type := mkEndpoint { e_slot : Z; e_dci : Z; e_ring : ring_name; e_dir : direction }.

(** The enqueue pointer of the event ring, the two halves of the event ring
    dequeue pointer register, the dequeue pointers of the transfer rings and the
    device. *)
Record chip (T : Type) : Type := mkChip { enq : cursor; erdp_lo : Z; erdp_hi : Z; deq : ring_name -> cursor; tgt : T }.
Arguments mkChip {T}. Arguments enq {T}. Arguments erdp_lo {T}. Arguments erdp_hi {T}. Arguments deq {T}. Arguments tgt {T}.

Definition trb_type (t : trb) : Z := control t / 2 ^ 10 mod 64.
Definition trb_cycle (t : trb) : Z := control t mod 2.
Definition trb_len (t : trb) : Z := status t mod 2 ^ 17.

Section spec.
Context {T : Type} `{Target T} `{Layout}.
Variable eps : list endpoint.

(** A link block with the right cycle bit leads to the start of its ring, and
    toggles the cycle state if its toggle bit is set. *)
Definition follow (r : ring_name) (ring : list trb) (c : cursor) : cursor :=
  match ring !! Z.to_nat (idx c) with
  | Some l =>
      if (trb_type l =? TRB_LINK) && (trb_cycle l =? cycle c) && (param l =? ring_at r)
      then mkCursor 0 (if Z.odd (control l / 2) then 1 - cycle c else cycle c) else c
  | None => c
  end.

(** The next transfer block of a ring, if the driver has passed it on. *)
Definition ready (m : dma) (c : chip T) (r : ring_name) : option (cursor * trb) :=
  let cur := follow r (rings m r) (deq c r) in
  match rings m r !! Z.to_nat (idx cur) with
  | Some t => if (trb_type t =? TRB_NORMAL) && (trb_cycle t =? cycle cur) then Some (cur, t) else None
  | None => None
  end.

Definition event_room (c : chip T) : Prop :=
  ring_at EvtRing + 16 * ((idx (enq c) + 1) mod EVT_SZ) <> (erdp_hi c * 2 ^ 32 + erdp_lo c) / 16 * 16.

Definition post (p st ctl : Z) (m : dma) (c : chip T) : dma * chip T :=
  let e := enq c in
  (mkDma (<[EvtRing := <[Z.to_nat (idx e) := mkTrb p st (ctl + cycle e)]> (rings m EvtRing)]> (rings m)) (ram m),
   mkChip (if idx e + 1 =? EVT_SZ then mkCursor 0 (1 - cycle e) else mkCursor (idx e + 1) (cycle e)) (erdp_lo c) (erdp_hi c) (deq c) (tgt c)).

(** The block [t] at [cur] is done: the transfer event, with the bytes that
    were not transferred, and the next block. *)
Definition complete (e : endpoint) (cur : cursor) (t : trb) (cc residue : Z) (m : dma) (c : chip T) : dma * chip T :=
  post (ring_at (e_ring e) + 16 * idx cur) (cc * 2 ^ 24 + residue) (e_slot e * 2 ^ 24 + e_dci e * 2 ^ 16 + TRB_EV_TRANSFER * 2 ^ 10)
    m (mkChip (enq c) (erdp_lo c) (erdp_hi c) (<[e_ring e := mkCursor (idx cur + 1) (cycle cur)]> (deq c)) (tgt c)).

Definition set_tgt (t : T) (c : chip T) : chip T := mkChip (enq c) (erdp_lo c) (erdp_hi c) (deq c) t.
Definition set_ram (f : Z -> Z) (m : dma) : dma := mkDma (rings m) f.

(** Data going into memory: [bs] for a block of [len] bytes. *)
Definition deliver (e : endpoint) (cur : cursor) (t : trb) (bs : list Z) (m : dma) (c : chip T) : dma * chip T :=
  let short := trb_len t - Z.of_nat (length bs) in
  complete e cur t (if short =? 0 then CC_SUCCESS else CC_SHORT_PKT) short (set_ram (store (param t) bs (ram m)) m) c.

Inductive hc_step : dma * chip T -> dma * chip T -> Prop :=
| bulk_out_step m c e cur t : e ∈ eps -> e_dir e = Out -> ready m c (e_ring e) = Some (cur, t) -> event_room c ->
    hc_step (m, c) (complete e cur t CC_SUCCESS 0 m (set_tgt (t_out (fetch (trb_len t) (param t) (ram m)) (tgt c)) c))
| bulk_in_step m c e cur t bs d : e ∈ eps -> e_dir e = In -> ready m c (e_ring e) = Some (cur, t) -> event_room c ->
    t_in (trb_len t) (tgt c) = (bs, d) -> Z.of_nat (length bs) <= trb_len t ->
    hc_step (m, c) (deliver e cur t bs m (set_tgt d c))
| interrupt_step m c e cur t bs : e ∈ eps -> e_dir e = Interrupt -> ready m c (e_ring e) = Some (cur, t) -> event_room c ->
    Z.of_nat (length bs) <= trb_len t ->
    hc_step (m, c) (deliver e cur t bs m c)
| other_event_step m c p st ctl : event_room c -> ctl mod 2 = 0 -> ctl / 2 ^ 10 mod 64 <> TRB_EV_TRANSFER ->
    hc_step (m, c) (post p st ctl m c).

(** What a controller with its registers at [rt] and [db] promises.  [patience]
    bounds the polls until the next block of a ring is taken, in a ring whose
    link does not lead back to the same place. *)
Class ChipLaws (H : Type) `{Controller H} (rt db : Z) (bound : nat) : Type := {
  chip_of : H -> chip T;
  patience : H -> ring_name -> nat;
  run_safe : forall m h m' h', hc_run m h = (m', h') -> rtc hc_step (m, chip_of h) (m', chip_of h');
  run_live : forall m h m' h' e cur t, hc_run m h = (m', h') -> e ∈ eps -> event_room (chip_of h) -> ready m (chip_of h) (e_ring e) = Some (cur, t) ->
    deq (chip_of h) (e_ring e) <> mkCursor (idx cur + 1) (cycle cur) ->
    deq (chip_of h') (e_ring e) <> deq (chip_of h) (e_ring e) \/ (patience h' (e_ring e) < patience h (e_ring e))%nat;
  run_patience : forall m h m' h' r, hc_run m h = (m', h') -> ~ event_room (chip_of h) -> (patience h' r <= patience h r)%nat;
  erdp_low : forall v h, chip_of (hc_wr (rt + 0x38) v h) = mkChip (enq (chip_of h)) v (erdp_hi (chip_of h)) (deq (chip_of h)) (tgt (chip_of h));
  erdp_high : forall v h, chip_of (hc_wr (rt + 0x3C) v h) = mkChip (enq (chip_of h)) (erdp_lo (chip_of h)) v (deq (chip_of h)) (tgt (chip_of h));
  erdp_patience : forall a v h r, a = rt + 0x38 \/ a = rt + 0x3C -> (patience (hc_wr a v h) r <= patience h r)%nat;
  doorbell : forall k v h, 0 <= k < 256 -> chip_of (hc_wr (db + 4 * k) v h) = chip_of h;
  doorbell_rung : forall e h, e ∈ eps -> (patience (hc_wr (db + 4 * e_slot e) (e_dci e) h) (e_ring e) <= bound)%nat;
  doorbell_other : forall e h r, e ∈ eps -> r <> e_ring e -> (patience (hc_wr (db + 4 * e_slot e) (e_dci e) h) r <= patience h r)%nat;
}.

(** ** The disk: command and status blocks of the bulk-only transport *)
Definition be4 (v : Z) : list Z := rev (le_enc 4 v).
Definition command_block (tag dlen : Z) (to_host : bool) (cdb : list Z) : list Z :=
  str "USBC" ++ le_enc 4 tag ++ le_enc 4 dlen ++ [if to_host then 128 else 0; 0; Z.of_nat (length cdb)] ++ cdb ++ replicate (16 - length cdb) 0.
Definition status_block (tag residue st : Z) : list Z := str "USBS" ++ le_enc 4 tag ++ le_enc 4 residue ++ [st].
Definition cdb10 (op lba n : Z) : list Z := [op; 0] ++ be4 lba ++ [0] ++ [n / 256; n mod 256] ++ [0].

(** [holds t d]: the device waits for a command and has the blocks of [d]. *)
Class DiskLaws : Type := {
  holds : T -> ramdisk -> Prop;
  read_command : forall t d tag lba n data, holds t d -> 0 <= tag < 2 ^ 32 -> 0 <= lba < 2 ^ 32 -> 0 < n < 2 ^ 16 -> rd_read d lba n = Some data ->
    exists t1 t2 t3, t_out (command_block tag (n * rd_bs d) true (cdb10 0x28 lba n)) t = t1 /\ t_in (n * rd_bs d) t1 = (data, t2) /\
      t_in 13 t2 = (status_block tag 0 0, t3) /\ holds t3 d;
  write_command : forall t d d' tag lba n data, holds t d -> 0 <= tag < 2 ^ 32 -> 0 <= lba < 2 ^ 32 -> 0 < n < 2 ^ 16 -> rd_write d lba n data = Some d' ->
    exists t1 t2 t3, t_out (command_block tag (n * rd_bs d) false (cdb10 0x2A lba n)) t = t1 /\ t_out data t1 = t2 /\
      t_in 13 t2 = (status_block tag 0 0, t3) /\ holds t3 d';
}.
End spec.
Arguments chip_of {T _ _ eps H _ rt db bound _} _.
Arguments patience {T _ _ eps H _ rt db bound _} _ _.
Arguments run_safe {T _ _ eps H _ rt db bound _} _ _ _ _ _.
Arguments run_live {T _ _ eps H _ rt db bound _} _ _ _ _ _ _ _ _ _ _ _ _.
Arguments run_patience {T _ _ eps H _ rt db bound _} _ _ _ _ _ _ _.
Arguments erdp_low {T _ _ eps H _ rt db bound _} _ _.
Arguments erdp_high {T _ _ eps H _ rt db bound _} _ _.
Arguments erdp_patience {T _ _ eps H _ rt db bound _} _ _ _ _ _.
Arguments doorbell {T _ _ eps H _ rt db bound _} _ _ _ _.
Arguments doorbell_rung {T _ _ eps H _ rt db bound _} _ _ _.
Arguments doorbell_other {T _ _ eps H _ rt db bound _} _ _ _ _ _.
