(* ===== verification/UsbRings.v ===== *)
(** * Rings and buffers shared with the controller

    The event ring holds the events between the driver's index and the
    controller's, told apart by their cycle bit ([evt_ring]); a transfer ring is
    idle, or holds the block the driver has just put there ([idle], [loaded]).
    The lemmas say how polling, posting, putting and taking a block move
    between these. *)
From stdpp Require Import functions relations.
From S2P Require Import Prelude Bytes Disk Input Xhci XhciInit UsbStorage UsbSpec.

(** ** Memory *)
Lemma fetch_length n a m : length (fetch n a m) = Z.to_nat n.
Proof. unfold fetch. by rewrite length_fmap, length_seqZ. Qed.

Lemma fetch_ext n a m m' : (forall x, a <= x < a + n -> m x = m' x) -> fetch n a m = fetch n a m'.
Proof.
  intros E. unfold fetch. apply list_fmap_ext. intros i x Hx. apply lookup_seqZ in Hx as [-> Hi]. apply E. lia.
Qed.

Lemma fetch_store a bs m : fetch (Z.of_nat (length bs)) a (store a bs m) = bs.
Proof.
  apply list_eq_lookup_lt; [rewrite fetch_length; lia|]. rewrite fetch_length. intros i Hi. unfold fetch.
  rewrite list_lookup_fmap, (lookup_seqZ_lt 0) by lia. cbn. unfold store.
  rewrite (proj2 (Z.leb_le _ _)), (proj2 (Z.ltb_lt _ _)) by lia. cbn [andb]. replace (Z.to_nat _) with i by lia.
  destruct (lookup_lt_is_Some_2 bs i) as [b ->]; [lia|done].
Qed.

Lemma store_out a bs m x : x < a \/ a + Z.of_nat (length bs) <= x -> store a bs m x = m x.
Proof. intros Hx. unfold store. destruct (Z.leb_spec a x), (Z.ltb_spec x (a + Z.of_nat (length bs))); try done. lia. Qed.

Lemma store_ext a bs m m' x : m x = m' x -> store a bs m x = store a bs m' x.
Proof. intros E. unfold store. by destruct (_ && _). Qed.

(** ** Bits of a control word *)
Lemma land_1 x : Z.land x 1 = x mod 2.
Proof. apply (Z.land_ones x 1). lia. Qed.

Lemma lor_low y b : 0 <= y -> b = 0 \/ b = 1 -> Z.lor (2 * y) b = 2 * y + b.
Proof. intros Hy [-> | ->]; [by rewrite Z.lor_0_r, Z.add_0_r|]. by destruct y. Qed.

Lemma set_cycle c b : 0 <= c < 2 ^ 32 -> b = 0 \/ b = 1 -> Z.lor (Z.land c 0xFFFFFFFE) b = 2 * (c / 2) + b.
Proof.
  intros Hc Hb. pose proof (land_clear_low 32 1 c ltac:(lia) Hc) as E. change (Z.lnot (Z.ones 1) mod 2 ^ 32) with 0xFFFFFFFE in E.
  rewrite E. apply lor_low; [|done]. change (2 ^ 1) with 2. apply Z.div_pos; lia.
Qed.

Lemma cycle_bit_id c : c = 0 \/ c = 1 -> cycle_bit c = c.
Proof. by intros [-> | ->]. Qed.
Lemma flip_cycle c : c = 0 \/ c = 1 -> Z.lxor c 1 = 1 - c.
Proof. by intros [-> | ->]. Qed.

Lemma pushed_control c : c = 0 \/ c = 1 -> Z.lor (Z.lor (TRB_TYPE TRB_NORMAL) TRB_IOC) (cycle_bit c) = 1056 + c.
Proof. by intros [-> | ->]. Qed.

(** ** The event ring *)
Definition cur64 (k : Z) : cursor := mkCursor (k mod 64) (1 - (k / 64) mod 2).

(** [evs] are the events between the driver at [a] and the controller at [q]. *)
Record evt_ring (ring : list trb) (a q : cursor) (evs : list trb) (k : Z) : Prop := {
  er_length : length ring = 64%nat;
  er_driver : a = cur64 k;
  er_chip : q = cur64 (k + Z.of_nat (length evs));
  er_count : (length evs <= 63)%nat;
  er_used : forall i ev, evs !! i = Some ev -> ring !! Z.to_nat ((k + Z.of_nat i) mod 64) = Some ev /\ trb_cycle ev = cycle (cur64 (k + Z.of_nat i));
  er_free : forall i, Z.of_nat (length evs) <= i < 64 -> exists t, ring !! Z.to_nat ((k + i) mod 64) = Some t /\ trb_cycle t = 1 - cycle (cur64 (k + i));
}.

Lemma cur64_cycle k : cycle (cur64 k) = 0 \/ cycle (cur64 k) = 1.
Proof. cbn. pose proof (Z.mod_pos_bound (k / 64) 2 ltac:(lia)). lia. Qed.

Lemma cur64_next k : cur64 (k + 1) = if k mod 64 + 1 =? 64 then mkCursor 0 (1 - cycle (cur64 k)) else mkCursor (k mod 64 + 1) (cycle (cur64 k)).
Proof.
  unfold cur64. cbn [cycle]. pose proof (Z.mod_pos_bound k 64 ltac:(lia)).
  destruct (Z.eqb_spec (k mod 64 + 1) 64) as [E|E].
  - assert ((k + 1) mod 64 = 0 /\ (k + 1) / 64 = k / 64 + 1) as [-> ->] by (Z.div_mod_to_equations; lia). f_equal. Z.div_mod_to_equations. lia.
  - assert ((k + 1) mod 64 = k mod 64 + 1 /\ (k + 1) / 64 = k / 64) as [-> ->] by (Z.div_mod_to_equations; lia). done.
Qed.

Lemma cur64_lap k : cycle (cur64 (k + 64)) = 1 - cycle (cur64 k).
Proof. cbn. replace ((k + 64) / 64) with (k / 64 + 1) by (Z.div_mod_to_equations; lia). Z.div_mod_to_equations. lia. Qed.

Lemma mod64_inj k i j : 0 <= i < 64 -> 0 <= j < 64 -> (k + i) mod 64 = (k + j) mod 64 -> i = j.
Proof. intros. Z.div_mod_to_equations. lia. Qed.

(** Taking the oldest event. *)
Lemma evt_ring_take ring a q ev evs k : evt_ring ring a q (ev :: evs) k -> evt_ring ring (cur64 (k + 1)) q evs (k + 1).
Proof.
  intros [? ? -> Hc Hu Hf]. cbn [length] in *. split; [done..|f_equal; lia|lia| |].
  - intros i x Hx. replace (k + 1 + Z.of_nat i) with (k + Z.of_nat (S i)) by lia. by apply Hu.
  - intros i Hi. destruct (decide (i = 63)) as [->|]; [|replace (k + 1 + i) with (k + (i + 1)) by lia; apply Hf; lia].
    replace (k + 1 + 63) with (k + 64) by lia. destruct (Hu 0%nat ev eq_refl) as [Hx Hy]. rewrite Z.add_0_r in Hx, Hy.
    exists ev. rewrite cur64_lap. split; [|lia]. rewrite <- Hx. do 2 f_equal. Z.div_mod_to_equations. lia.
Qed.

(** Posting an event. *)
Lemma evt_ring_post ring a q evs k p st ctl : evt_ring ring a q evs k -> (length evs <= 62)%nat -> ctl mod 2 = 0 ->
  evt_ring (<[Z.to_nat (idx q) := mkTrb p st (ctl + cycle q)]> ring) a
    (if idx q + 1 =? EVT_SZ then mkCursor 0 (1 - cycle q) else mkCursor (idx q + 1) (cycle q)) (evs ++ [mkTrb p st (ctl + cycle q)]) k.
Proof.
  intros [Hl ? -> Hc Hu Hf] Hlen Hctl. set (n := length evs) in *. pose proof (cur64_cycle (k + Z.of_nat n)) as Hcy.
  pose proof (Z.mod_pos_bound (k + Z.of_nat n) 64 ltac:(lia)) as Hm.
  split; rewrite ?length_insert, ?length_app; [done..| |cbn; lia| |].
  - symmetry. etrans; [|apply cur64_next]. f_equal. cbn. lia.
  - intros i ev Hi. destruct (decide (i = n)) as [->|Hne].
    + rewrite lookup_app_r, Nat.sub_diag in Hi by lia. cbn in Hi. simplify_eq. split; [apply list_lookup_insert_eq; cbn; lia|].
      unfold trb_cycle. simpl control. cbn [cycle cur64] in Hcy |- *. Z.div_mod_to_equations. lia.
    + pose proof (lookup_lt_Some _ _ _ Hi) as Hi'. rewrite length_app in Hi'. cbn in Hi'. rewrite lookup_app_l in Hi by lia.
      destruct (Hu i ev Hi) as [Hx ?]. split; [|done]. rewrite list_lookup_insert_ne; [done|]. cbn [idx cur64]. intros E.
      apply Hne. pose proof (Z.mod_pos_bound (k + Z.of_nat i) 64 ltac:(lia)). assert (E' : (k + Z.of_nat n) mod 64 = (k + Z.of_nat i) mod 64) by lia.
      apply mod64_inj in E'; lia.
  - cbn [length]. intros i Hi. destruct (Hf i ltac:(lia)) as (t & Hx & ?). exists t. split; [|done]. rewrite list_lookup_insert_ne; [done|].
    cbn [idx cur64]. intros E. pose proof (Z.mod_pos_bound (k + i) 64 ltac:(lia)).
    assert (E' : (k + Z.of_nat n) mod 64 = (k + i) mod 64) by lia. apply mod64_inj in E'; lia.
Qed.

(** What the driver sees at its index. *)
Lemma evt_ring_head ring a q evs k : evt_ring ring a q evs k ->
  exists e, ring !! Z.to_nat (idx a) = Some e /\ (Z.land (control e) TRB_CYCLE =? cycle_bit (cycle a)) = bool_decide (evs <> []) /\ (forall ev evs', evs = ev :: evs' -> e = ev).
Proof.
  intros [? -> ? ? Hu Hf]. rewrite cycle_bit_id by apply cur64_cycle. destruct evs as [|ev evs].
  - destruct (Hf 0 ltac:(cbn; lia)) as (t & Hx & Hy). rewrite Z.add_0_r in Hx, Hy. exists t. split; [done|]. split; [|done].
    rewrite land_1. fold (trb_cycle t). rewrite Hy, bool_decide_false by auto. pose proof (cur64_cycle k). apply Z.eqb_neq. lia.
  - destruct (Hu 0%nat ev eq_refl) as [Hx Hy]. rewrite Z.add_0_r in Hx, Hy. exists ev. split; [done|]. split; [|intros; by simplify_eq].
    rewrite land_1. fold (trb_cycle ev). rewrite Hy, Z.eqb_refl. by rewrite bool_decide_true.
Qed.

(** Where the driver's index goes. *)
Lemma evt_next k :
  (let i := u32 (idx (cur64 k) + 1) in if i =? EVT_SZ then mkCursor 0 (Z.lxor (cycle (cur64 k)) 1) else mkCursor i (cycle (cur64 k))) = cur64 (k + 1).
Proof.
  cbv zeta. rewrite flip_cycle by apply cur64_cycle. rewrite cur64_next. cbn [idx cur64]. pose proof (Z.mod_pos_bound k 64 ltac:(lia)).
  by rewrite u32_small by lia.
Qed.

(** ** Transfer rings *)
Section transfer.
Context `{Layout}.

Definition bit_at (p : cursor) (j : nat) : Z := if Z.of_nat j <? idx p then cycle p else 1 - cycle p.

Record link_ok (r : ring_name) (l : trb) : Prop := {
  lk_range : 0 <= control l < 2 ^ 32; lk_type : trb_type l = TRB_LINK; lk_toggle : Z.odd (control l / 2) = true; lk_param : param l = ring_at r;
}.

(** The blocks of this lap before the driver's index, those of the last lap
    from there on, and the link at the end. *)
Record ring_shape (r : ring_name) (ring : list trb) (p : cursor) : Prop := {
  rs_length : length ring = 16%nat;
  rs_idx : 0 <= idx p < 15;
  rs_cycle : cycle p = 0 \/ cycle p = 1;
  rs_slot : forall j t, (j < 15)%nat -> ring !! j = Some t -> trb_type t <> TRB_LINK /\ trb_cycle t = bit_at p j;
  rs_link : forall l, ring !! 15%nat = Some l -> link_ok r l;
}.

(** The controller, at [q], has taken everything. *)
Definition idle (r : ring_name) (ring : list trb) (p q : cursor) : Prop :=
  ring_shape r ring p /\
  (q = p \/ (idx p = 0 /\ q = mkCursor 15 (1 - cycle p) /\ forall l, ring !! 15%nat = Some l -> trb_cycle l = 1 - cycle p)).

(** It has [t] at [cur] to take, after which it has taken everything. *)
Record loaded (r : ring_name) (ring : list trb) (p q cur : cursor) (t : trb) : Prop := {
  ld_follow : follow r ring q = cur;
  ld_block : ring !! Z.to_nat (idx cur) = Some t;
  ld_type : trb_type t = TRB_NORMAL;
  ld_cycle : trb_cycle t = cycle cur;
  ld_next : idle r ring p (mkCursor (idx cur + 1) (cycle cur));
}.

Lemma idle_follow r ring p q : idle r ring p q -> follow r ring q = p.
Proof.
  intros [[Hl Hi Hc Hs Hk] Hq]. unfold follow. destruct Hq as [-> | (Hp & -> & Hcy)].
  - destruct (lookup_lt_is_Some_2 ring (Z.to_nat (idx p))) as [t Ht]; [lia|]. rewrite Ht.
    destruct (Hs (Z.to_nat (idx p)) t ltac:(lia) Ht) as [Hty _]. by rewrite (proj2 (Z.eqb_neq _ _) Hty).
  - cbn [idx cycle]. destruct (lookup_lt_is_Some_2 ring 15) as [l Hlk]; [lia|]. change (Z.to_nat 15) with 15%nat. rewrite Hlk.
    destruct (Hk l Hlk) as [_ Hty Ho Hpa]. rewrite Hty, (Hcy l Hlk), Hpa, !Z.eqb_refl, Ho. cbn [andb].
    destruct p as [i c]; cbn in *. f_equal; lia.
Qed.

Lemma idle_not_ready {T} (m : dma) (c : chip T) r p : idle r (rings m r) p (deq c r) -> ready m c r = None.
Proof.
  intros Hid. unfold ready. rewrite (idle_follow _ _ _ _ Hid). destruct Hid as [[Hl Hi Hc Hs Hk] _].
  destruct (lookup_lt_is_Some_2 (rings m r) (Z.to_nat (idx p))) as [t Ht]; [lia|]. rewrite Ht.
  destruct (Hs (Z.to_nat (idx p)) t ltac:(lia) Ht) as [_ Hb]. rewrite Hb. unfold bit_at. rewrite (proj2 (Z.ltb_ge _ _)) by lia.
  rewrite (proj2 (Z.eqb_neq (1 - cycle p) _)) by lia. by rewrite andb_false_r.
Qed.

Lemma loaded_ready {T} (m : dma) (c : chip T) r p cur t : loaded r (rings m r) p (deq c r) cur t -> ready m c r = Some (cur, t).
Proof. intros [Hf Hb Ht Hc _]. unfold ready. by rewrite Hf, Hb, Ht, Hc, !Z.eqb_refl. Qed.

(** Taking a block moves the controller. *)
Lemma loaded_moves r ring p q cur t : loaded r ring p q cur t -> q <> mkCursor (idx cur + 1) (cycle cur).
Proof.
  intros [Hf Hb _ _ [[Hl _ _ Hs _] _]] Eq. unfold follow in Hf. destruct (ring !! Z.to_nat (idx q)) as [l|] eqn:El; [|rewrite <- Hf in Eq; destruct q; cbn in Eq; simplify_eq; lia].
  destruct (Z.eqb_spec (trb_type l) TRB_LINK) as [Ht|]; cbn [andb] in Hf; [|rewrite <- Hf in Eq; destruct q; cbn in Eq; simplify_eq; lia].
  destruct (_ && _) in Hf; [|rewrite <- Hf in Eq; destruct q; cbn in Eq; simplify_eq; lia].
  rewrite <- Hf in Eq. rewrite Eq in El. cbn in El. by destruct (Hs 1%nat l ltac:(lia) El).
Qed.

Lemma normal_type c : c = 0 \/ c = 1 -> (1056 + c) / 2 ^ 10 mod 64 = TRB_NORMAL /\ (1056 + c) mod 2 = c.
Proof. by intros [-> | ->]. Qed.

Lemma link_touched r l b : link_ok r l -> b = 0 \/ b = 1 ->
  let l' := mkTrb (param l) (status l) (Z.lor (Z.land (control l) 0xFFFFFFFE) b) in link_ok r l' /\ trb_cycle l' = b.
Proof.
  intros [Hr Ht Ho Hp] Hb. cbv zeta. unfold trb_cycle, trb_type in *. rewrite set_cycle by done.
  assert (E : (2 * (control l / 2) + b) / 2 = control l / 2) by (Z.div_mod_to_equations; lia).
  assert (E' : (2 * (control l / 2) + b) / 2 ^ 10 = control l / 2 ^ 10).
  { change (2 ^ 10) with (2 * 512). rewrite <- !Z.div_div by lia. by rewrite E. }
  split; [split; unfold trb_type; cbn [control param]|cbn [control]]; [Z.div_mod_to_equations; lia|by rewrite E'|by rewrite E|done|Z.div_mod_to_equations; lia].
Qed.

(** The blocks of this lap reach one further after a block is put. *)
Lemma put_slots r ring p t : ring_shape r ring p -> trb_type t = TRB_NORMAL -> trb_cycle t = cycle p -> forall j u, (j < 15)%nat ->
  <[Z.to_nat (idx p) := t]> ring !! j = Some u -> trb_type u <> TRB_LINK /\ trb_cycle u = if Z.of_nat j <=? idx p then cycle p else 1 - cycle p.
Proof.
  intros [Hl Hi Hc Hs Hk] Htt Htc j u Hj Hu. destruct (decide (j = Z.to_nat (idx p))) as [->|Hne].
  - rewrite list_lookup_insert_eq in Hu by lia. simplify_eq. rewrite Htt, Htc. split; [done|]. by rewrite (proj2 (Z.leb_le _ _)) by lia.
  - rewrite list_lookup_insert_ne in Hu by done. destruct (Hs j u Hj Hu) as [? ->]. split; [done|]. unfold bit_at.
    destruct (Z.ltb_spec (Z.of_nat j) (idx p)), (Z.leb_spec (Z.of_nat j) (idx p)); done || lia.
Qed.

(** The ring and the index after a block with the control word of a transfer
    is put at [p]. *)
Lemma push_idle r ring p q buf len : idle r ring p q ->
  exists ring' p', push_trb ring p buf len (Z.lor (TRB_TYPE TRB_NORMAL) TRB_IOC) = Some (ring', p') /\
    loaded r ring' p' q p (mkTrb buf len (1056 + cycle p)).
Proof.
  intros Hid. pose proof (idle_follow _ _ _ _ Hid) as Hf. destruct Hid as [Hsh Hq]. pose proof Hsh as [Hl Hi Hc Hs Hk].
  destruct (lookup_lt_is_Some_2 ring (Z.to_nat (idx p))) as [t0 Ht0]; [lia|]. destruct (lookup_lt_is_Some_2 ring 15) as [l Hlk]; [lia|].
  unfold push_trb. rewrite Ht0, Hlk, pushed_control, u32_small by (done || lia). cbv zeta.
  set (t := mkTrb buf len (1056 + cycle p)). destruct (normal_type (cycle p) Hc) as [Htt Htc].
  set (ring1 := <[Z.to_nat (idx p) := t]> ring).
  assert (Hlk1 : ring1 !! 15%nat = Some l) by (unfold ring1; by rewrite list_lookup_insert_ne by lia).
  pose proof (put_slots _ _ _ t Hsh Htt Htc) as Hslot. fold ring1 in Hslot.
  destruct (Z.eqb_spec (idx p + 1) (RING_SZ - 1)) as [Hw|Hw].
  - rewrite Hlk1, flip_cycle by done. eexists _, _. split; [done|]. rewrite cycle_bit_id by done.
    destruct (link_touched r l (cycle p) (Hk l Hlk) Hc) as [Hlok Hlc]. set (l' := mkTrb (param l) _ _) in *.
    assert (Hb : <[15%nat := l']> ring1 !! Z.to_nat (idx p) = Some t).
    { rewrite list_lookup_insert_ne by lia. unfold ring1. apply list_lookup_insert_eq. lia. }
    split; [|exact Hb|done|done|].
    + destruct Hq as [-> | (? & ? & ?)]; [|lia]. unfold follow. rewrite Hb. unfold trb_type. cbn [control t]. by rewrite Htt.
    + split.
      * split; cbn [idx cycle]; [by unfold ring1; rewrite !length_insert|lia|lia| |].
        -- intros j u Hj Hu. rewrite list_lookup_insert_ne in Hu by lia. destruct (Hslot j u Hj Hu) as [? ->]. split; [done|].
           unfold bit_at. cbn [idx cycle]. rewrite (proj2 (Z.leb_le _ _)), (proj2 (Z.ltb_ge _ _)) by lia. lia.
        -- intros x Hx. rewrite list_lookup_insert_eq in Hx by (unfold ring1; rewrite length_insert; lia). by simplify_eq.
      * right. cbn [idx cycle]. split; [done|]. split; [f_equal; lia|]. intros x Hx.
        rewrite list_lookup_insert_eq in Hx by (unfold ring1; rewrite length_insert; lia). simplify_eq. lia.
  - eexists _, _. split; [done|]. assert (Hb : ring1 !! Z.to_nat (idx p) = Some t) by (apply list_lookup_insert_eq; lia).
    split; [|exact Hb|done|done|].
    + destruct Hq as [-> | (Hp0 & -> & Hcy)].
      * unfold follow. rewrite Hb. unfold trb_type. cbn [control t]. by rewrite Htt.
      * etrans; [|exact Hf]. unfold follow. cbn [idx]. change (Z.to_nat 15) with 15%nat. by rewrite Hlk1, Hlk.
    + split; [|by left]. split; cbn [idx cycle]; [by unfold ring1; rewrite length_insert|lia|done| |].
      * intros j u Hj Hu. destruct (Hslot j u Hj Hu) as [? ->]. split; [done|]. unfold bit_at. cbn [idx cycle].
        destruct (Z.leb_spec (Z.of_nat j) (idx p)), (Z.ltb_spec (Z.of_nat j) (idx p + 1)); done || lia.
      * intros x Hx. rewrite Hlk1 in Hx. simplify_eq. by apply Hk.
Qed.

(** The ring of an interrupt endpoint: every block in it is for the report
    buffer, whoever owns it. *)
Record report_ring (ring : list trb) (p : cursor) (buf len : Z) : Prop := {
  rr_length : length ring = 16%nat;
  rr_idx : 0 <= idx p < 15;
  rr_cycle : cycle p = 0 \/ cycle p = 1;
  rr_slot : forall j t, (j < 15)%nat -> ring !! j = Some t -> trb_type t = TRB_NORMAL -> param t = buf /\ status t = len;
  rr_link : forall l, ring !! 15%nat = Some l -> 0 <= control l < 2 ^ 32 /\ trb_type l = TRB_LINK;
}.

Lemma push_report ring p buf len : report_ring ring p buf len ->
  exists ring' p', push_trb ring p buf len (Z.lor (TRB_TYPE TRB_NORMAL) TRB_IOC) = Some (ring', p') /\ report_ring ring' p' buf len.
Proof.
  intros [Hl Hi Hc Hs Hk]. destruct (lookup_lt_is_Some_2 ring (Z.to_nat (idx p))) as [t0 Ht0]; [lia|]. destruct (lookup_lt_is_Some_2 ring 15) as [l Hlk]; [lia|].
  unfold push_trb. rewrite Ht0, Hlk, u32_small by lia. cbv zeta. set (t := mkTrb buf len _). set (ring1 := <[Z.to_nat (idx p) := t]> ring).
  assert (Hlk1 : ring1 !! 15%nat = Some l) by (unfold ring1; by rewrite list_lookup_insert_ne by lia).
  assert (Hslot : forall j u, (j < 15)%nat -> ring1 !! j = Some u -> trb_type u = TRB_NORMAL -> param u = buf /\ status u = len).
  { intros j u Hj Hu. destruct (decide (j = Z.to_nat (idx p))) as [->|Hne]; unfold ring1 in Hu.
    - rewrite list_lookup_insert_eq in Hu by lia. by simplify_eq.
    - rewrite list_lookup_insert_ne in Hu by done. eauto. }
  destruct (Z.eqb_spec (idx p + 1) (RING_SZ - 1)) as [Hw|Hw].
  - rewrite Hlk1, flip_cycle by done. eexists _, _. split; [done|]. split; cbn [idx cycle]; [by unfold ring1; rewrite !length_insert|lia|lia| |].
    + intros j u Hj Hu. rewrite list_lookup_insert_ne in Hu by lia. eauto.
    + intros x Hx. rewrite list_lookup_insert_eq in Hx by (unfold ring1; rewrite length_insert; lia). simplify_eq. unfold trb_type. cbn [control].
      destruct (Hk l Hlk) as [Hr Hty]. rewrite cycle_bit_id, set_cycle by done. split; [Z.div_mod_to_equations; lia|].
      rewrite <- Hty. unfold trb_type. change (2 ^ 10) with (2 * 512). rewrite <- !Z.div_div by lia. do 2 f_equal. Z.div_mod_to_equations. lia.
  - eexists _, _. split; [done|]. split; cbn [idx cycle]; [by unfold ring1; rewrite length_insert|lia|done|done|].
    intros x Hx. rewrite Hlk1 in Hx. simplify_eq. by apply Hk.
Qed.

(** Rings as the bring-up leaves them. *)
Definition fresh_ring (r : ring_name) : list trb := replicate 15 (mkTrb 0 0 0) ++ [mkTrb (ring_at r) 0 6147].

Lemma fresh_link r : ring_link (ring_at r) 1 (replicate 16 (mkTrb 0 0 0)) = Some (fresh_ring r).
Proof. done. Qed.

Lemma fresh_slot r j t : fresh_ring r !! j = Some t -> (j < 15)%nat -> t = mkTrb 0 0 0.
Proof. unfold fresh_ring. intros Hj Hlt. rewrite lookup_app_l in Hj by done. by apply lookup_replicate in Hj as [-> _]. Qed.

Lemma fresh_idle r : idle r (fresh_ring r) (mkCursor 0 1) (mkCursor 0 1).
Proof.
  split; [|by left]. split; cbn [idx cycle]; [done|lia|by right| |].
  - intros j t Hj Ht. rewrite (fresh_slot r j t Ht Hj). split; [done|]. unfold bit_at. cbn [idx cycle]. by rewrite (proj2 (Z.ltb_ge _ _)) by lia.
  - intros l Hl. cbn in Hl. simplify_eq. by split.
Qed.

Lemma fresh_report r buf len : report_ring (fresh_ring r) (mkCursor 0 1) buf len.
Proof.
  split; cbn [idx cycle]; [done|lia|by right| |].
  - intros j t Hj Ht Hty. rewrite (fresh_slot r j t Ht Hj) in Hty. done.
  - intros l Hl. cbn in Hl. by simplify_eq.
Qed.

Lemma fresh_evt : evt_ring (replicate 64 (mkTrb 0 0 0)) (mkCursor 0 1) (mkCursor 0 1) [] 0.
Proof.
  split; [done|done|done|cbn; lia|done|]. cbn [length]. intros i Hi. exists (mkTrb 0 0 0). rewrite Z.add_0_l. split.
  - rewrite Z.mod_small by lia. by apply lookup_replicate_2; lia.
  - cbn. rewrite Z.div_small by lia. done.
Qed.
End transfer.
