(* ===== verification/UsbBulk.v ===== *)
(** * Bulk transfers over the shared rings

    The invariant of a machine with one USB disk and any number of keyboards
    and mice ([core]), kept by every step of the controller and by the driver,
    and the run of [canboot_xhci_bulk] under it: however the controller
    interleaves the transfer with reports and other events, the data moves as
    between the driver and the device alone. *)
From stdpp Require Import functions relations.
From S2P Require Import Prelude Bytes Disk Input Xhci XhciInit UsbStorage UsbSpec UsbRings.

#[global] Instance direction_eq_dec : EqDecision direction.
Proof. solve_decision. Defined.
#[global] Instance endpoint_eq_dec : EqDecision endpoint.
Proof. solve_decision. Defined.

(** ** Fields of an event *)
Lemma event_control s d b : 0 <= s < 256 -> 0 <= d < 32 -> b = 0 \/ b = 1 ->
  let c := s * 2 ^ 24 + d * 2 ^ 16 + TRB_EV_TRANSFER * 2 ^ 10 + b in
  TRB_GET_TYPE c = TRB_EV_TRANSFER /\ Z.land (Z.shiftr c 24) 0xFF = s /\ Z.land (Z.shiftr c 16) 0x1F = d.
Proof.
  intros Hs Hd Hb c. rewrite !Z.shiftr_div_pow2 by lia. change 0x3F with (Z.ones 6). change 0xFF with (Z.ones 8). change 0x1F with (Z.ones 5).
  rewrite !Z.land_ones by lia. unfold c. repeat split; Z.div_mod_to_equations; lia.
Qed.

Lemma event_status cc res : 0 <= cc < 256 -> 0 <= res < 2 ^ 24 -> Z.land (Z.shiftr (cc * 2 ^ 24 + res) 24) 0xFF = cc /\ Z.land (cc * 2 ^ 24 + res) 0xFFFFFF = res.
Proof.
  intros Hc Hr. rewrite Z.shiftr_div_pow2 by lia. change 0xFFFFFF with (Z.ones 24). change 0xFF with (Z.ones 8).
  rewrite !Z.land_ones by lia. split; Z.div_mod_to_equations; lia.
Qed.

Lemma get_type c b : c mod 2 = 0 -> b = 0 \/ b = 1 -> TRB_GET_TYPE (c + b) = c / 2 ^ 10 mod 64.
Proof.
  intros Hc Hb. rewrite Z.shiftr_div_pow2 by lia. change 0x3F with (Z.ones 6). rewrite Z.land_ones by lia. f_equal. Z.div_mod_to_equations. lia.
Qed.

Section bulk.
Context {T : Type} `{Target T} `{Layout}.
Variables (eps : list endpoint) (di : nat) (sl din dout : Z).

Definition in_ep : endpoint := mkEndpoint sl din (BinRing di) In.
Definition out_ep : endpoint := mkEndpoint sl dout (BoutRing di) Out.

(** The endpoints of the controller: those of the disk and the interrupt
    endpoints of other devices. *)
Record config : Prop := {
  cf_dci : din <> dout;
  cf_in : in_ep ∈ eps;
  cf_out : out_ep ∈ eps;
  cf_range : forall e, e ∈ eps -> 0 <= e_slot e < 256 /\ 0 <= e_dci e < 32;
  cf_eps : forall e, e ∈ eps -> e = in_ep \/ e = out_ep \/ (e_dir e = Interrupt /\ e_slot e <> sl /\ exists j, e_ring e = IntRing j);
  cf_evt : ring_at EvtRing mod 16 = 0 /\ 0 <= ring_at EvtRing /\ ring_at EvtRing + 1024 <= 2 ^ 64;
}.

(** The table of devices. *)
Record machine (devs : list usb_dev) : Prop := {
  mc_length : length devs = 4%nat;
  mc_disk : exists d, devs !! di = Some d /\ used d = true /\ kind d = USB_MSC /\ slot d = sl /\ bulk_in_dci (bulk d) = din /\ bulk_out_dci (bulk d) = dout;
  mc_other : forall j d, devs !! j = Some d -> used d = true -> slot d = sl -> j = di;
  mc_hid : forall j d, devs !! j = Some d -> used d = true -> kind d <> USB_MSC ->
    mkEndpoint (slot d) (int_dci (intr d)) (IntRing j) Interrupt ∈ eps /\ 0 <= int_mps (intr d) <= 8;
  mc_int : forall e j, e ∈ eps -> e_ring e = IntRing j -> exists d, devs !! j = Some d /\ used d = true /\ kind d <> USB_MSC;
}.

Definition hid_area (a : Z) : Prop := exists j, (j < 4)%nat /\ g_report j <= a < g_report j + 64.
Definition agree (f g : Z -> Z) : Prop := forall a, ~ hid_area a -> f a = g a.

Definition at_of (e : endpoint) (d : usb_dev) : cursor := if decide (e = in_ep) then bin_at (bulk d) else bout_at (bulk d).

(** [ld] is the transfer the controller has not taken yet, [evs] are the
    events the driver has not seen yet. *)
Record core (devs : list usb_dev) (ev_at : cursor) (m : dma) (c : chip T) (ld : option (endpoint * cursor * trb)) (evs : list trb) : Prop := {
  co_machine : machine devs;
  co_evt : exists k, evt_ring (rings m EvtRing) ev_at (enq c) evs k;
  co_erdp : (erdp_hi c * 2 ^ 32 + erdp_lo c) / 16 * 16 = ring_at EvtRing + 16 * idx ev_at;
  co_int : forall j d, devs !! j = Some d -> used d = true -> kind d <> USB_MSC -> report_ring (rings m (IntRing j)) (int_at (intr d)) (g_report j) (int_mps (intr d));
  co_bulk : forall d e, devs !! di = Some d -> e = in_ep \/ e = out_ep ->
    match ld with
    | Some (e', cur, t) => if decide (e' = e) then loaded (e_ring e) (rings m (e_ring e)) (at_of e d) (deq c (e_ring e)) cur t
                           else idle (e_ring e) (rings m (e_ring e)) (at_of e d) (deq c (e_ring e))
    | None => idle (e_ring e) (rings m (e_ring e)) (at_of e d) (deq c (e_ring e))
    end;
}.

(** An event that is not the end of a transfer with the disk. *)
Definition foreign (ev : trb) : Prop := TRB_GET_TYPE (control ev) = TRB_EV_TRANSFER -> ev_slot ev <> sl.
(** The end of the transfer on [e]. *)
Definition ours (e : endpoint) (residue : Z) (ev : trb) : Prop :=
  TRB_GET_TYPE (control ev) = TRB_EV_TRANSFER /\ ev_slot ev = sl /\ ev_ep ev = e_dci e /\ cc_good (ev_cc ev) = true /\ Z.land (status ev) 0xFFFFFF = residue.

Lemma room_length devs ev_at m c ld evs : core devs ev_at m c ld evs -> event_room c <-> (length evs <= 62)%nat.
Proof.
  intros [_ [k [? -> Hq ? _ _]] He _ _]. unfold event_room. rewrite He, Hq. cbn [idx cur64].
  pose proof (Z.mod_pos_bound (k + Z.of_nat (length evs)) 64 ltac:(lia)). pose proof (Z.mod_pos_bound k 64 ltac:(lia)).
  split; intros Hx; [destruct (decide (length evs = 63%nat)) as [E|]; [|lia]; exfalso; apply Hx; rewrite E|intros E]; Z.div_mod_to_equations; lia.
Qed.

(** Posting an event keeps the rest. *)
Lemma core_post devs ev_at m c ld evs p st ctl m' c' : core devs ev_at m c ld evs -> event_room c -> ctl mod 2 = 0 ->
  post p st ctl m c = (m', c') -> core devs ev_at m' c' ld (evs ++ [mkTrb p st (ctl + cycle (enq c))]).
Proof.
  intros Hco Hroom Hctl Hp. pose proof (proj1 (room_length _ _ _ _ _ _ Hco) Hroom) as Hlen. destruct Hco as [Hm [k Hk] He Hi Hb].
  unfold post in Hp. simplify_eq. split; [done| |done| |]; cbn [rings enq deq].
  - exists k. rewrite fn_lookup_insert. by apply evt_ring_post.
  - intros. rewrite fn_lookup_insert_ne by done. eauto.
  - intros d e Hd He'. rewrite fn_lookup_insert_ne by (by destruct He' as [-> | ->]). by apply Hb.
Qed.

Lemma core_ram devs ev_at m c ld evs f : core devs ev_at m c ld evs -> core devs ev_at (set_ram f m) c ld evs.
Proof. by intros []. Qed.
Lemma core_tgt devs ev_at m c ld evs t : core devs ev_at m c ld evs -> core devs ev_at m (set_tgt t c) ld evs.
Proof. by intros []. Qed.

(** Moving on in the ring of an interrupt endpoint. *)
Lemma core_deq_int devs ev_at m c ld evs j q : core devs ev_at m c ld evs ->
  core devs ev_at m (mkChip (enq c) (erdp_lo c) (erdp_hi c) (<[IntRing j := q]> (deq c)) (tgt c)) ld evs.
Proof.
  intros [Hm Hk He Hi Hb]. split; [done..|]. intros d e Hd He'. cbn [deq]. rewrite fn_lookup_insert_ne by (by destruct He' as [-> | ->]). by apply Hb.
Qed.

(** Taking the block of the transfer. *)
Lemma core_deq_bulk devs ev_at m c e cur t evs : (e = in_ep \/ e = out_ep) -> core devs ev_at m c (Some (e, cur, t)) evs ->
  core devs ev_at m (mkChip (enq c) (erdp_lo c) (erdp_hi c) (<[e_ring e := mkCursor (idx cur + 1) (cycle cur)]> (deq c)) (tgt c)) None evs.
Proof.
  intros Hbulk [Hm Hk He Hi Hb]. split; [done..|]. intros d e' Hd He'. cbn [deq]. specialize (Hb d e' Hd He'). cbn in Hb.
  destruct (decide (e = e')) as [->|Hne].
  - rewrite fn_lookup_insert. by destruct Hb.
  - rewrite fn_lookup_insert_ne; [done|]. destruct Hbulk as [-> | ->], He' as [-> | ->]; done.
Qed.

(** What a transfer does: the device and the memory after it, and the bytes
    that were not transferred. *)
Definition effect (e : endpoint) (buf len : Z) (t : T) (f : Z -> Z) : T * (Z -> Z) * Z :=
  match e_dir e with
  | In => let '(bs, t') := t_in len t in (t', store buf bs f, len - Z.of_nat (length bs))
  | _ => (t_out (fetch len buf f) t, f, 0)
  end.

Lemma cc_range b : 0 <= (if b : bool then CC_SUCCESS else CC_SHORT_PKT) < 256.
Proof. by destruct b. Qed.
Lemma cc_ok b : cc_good (if b : bool then CC_SUCCESS else CC_SHORT_PKT) = true.
Proof. by destruct b. Qed.

(** A transfer event that is posted. *)
Lemma complete_core devs ev_at m c ld evs e cur t b res m' c' : config -> e ∈ eps -> 0 <= res < 2 ^ 24 ->
  core devs ev_at m (mkChip (enq c) (erdp_lo c) (erdp_hi c) (<[e_ring e := mkCursor (idx cur + 1) (cycle cur)]> (deq c)) (tgt c)) ld evs ->
  event_room c -> complete e cur t (if b : bool then CC_SUCCESS else CC_SHORT_PKT) res m c = (m', c') ->
  exists ev, core devs ev_at m' c' ld (evs ++ [ev]) /\ ram m' = ram m /\ tgt c' = tgt c /\ deq c' = <[e_ring e := mkCursor (idx cur + 1) (cycle cur)]> (deq c) /\
    TRB_GET_TYPE (control ev) = TRB_EV_TRANSFER /\ ev_slot ev = e_slot e /\ ev_ep ev = e_dci e /\ cc_good (ev_cc ev) = true /\ Z.land (status ev) 0xFFFFFF = res.
Proof.
  intros Hcf He Hres Hco Hroom Hc. unfold complete in Hc.
  set (ctl := e_slot e * 2 ^ 24 + e_dci e * 2 ^ 16 + TRB_EV_TRANSFER * 2 ^ 10) in *.
  assert (Hctl : ctl mod 2 = 0) by (unfold ctl; Z.div_mod_to_equations; lia).
  assert (Hcy : cycle (enq c) = 0 \/ cycle (enq c) = 1) by (destruct (co_evt _ _ _ _ _ _ Hco) as [k [_ _ Hq _ _ _]]; cbn in Hq; rewrite Hq; apply cur64_cycle).
  destruct (cf_range Hcf e He) as [Hs Hd]. destruct (event_control _ _ _ Hs Hd Hcy) as (E1 & E2 & E3).
  destruct (event_status _ _ (cc_range b) Hres) as [E4 E5].
  eexists. split; [eapply (core_post _ _ _ _ _ _ _ _ ctl); [exact Hco|exact Hroom|exact Hctl|exact Hc]|]. unfold post in Hc. simplify_eq.
  cbn [ram tgt deq enq]. do 3 (split; [done|]). unfold ev_slot, ev_ep, ev_cc. cbn [control status]. rewrite E4. by rewrite cc_ok.
Qed.

(** The only transfer a controller can take from the disk's rings. *)
Lemma ready_loaded devs ev_at m c ld evs e cur t : core devs ev_at m c ld evs -> e = in_ep \/ e = out_ep -> ready m c (e_ring e) = Some (cur, t) -> ld = Some (e, cur, t).
Proof.
  intros Hco He Hr. destruct (mc_disk _ (co_machine _ _ _ _ _ _ Hco)) as (d & Hd & _). pose proof (co_bulk _ _ _ _ _ _ Hco d e Hd He) as Hb.
  destruct ld as [[[e' cur'] t']|]; [case_decide as Ee|]; try (rewrite (idle_not_ready _ _ _ _ Hb) in Hr; done).
  subst e'. rewrite (loaded_ready _ _ _ _ _ _ Hb) in Hr. by simplify_eq.
Qed.

Lemma ready_report m (c : chip T) j p buf len cur t : report_ring (rings m (IntRing j)) p buf len -> ready m c (IntRing j) = Some (cur, t) -> param t = buf /\ status t = len.
Proof.
  intros [Hl _ _ Hs Hk] Hr. unfold ready in Hr. set (q := follow _ _ _) in Hr.
  destruct (rings m (IntRing j) !! Z.to_nat (idx q)) as [u|] eqn:E; [|done].
  destruct (Z.eqb_spec (trb_type u) TRB_NORMAL) as [Ht|]; [|done]. destruct (_ =? _); [|done]. cbn in Hr. injection Hr as Hq ->. rewrite Hq in E.
  pose proof (lookup_lt_Some _ _ _ E). destruct (decide (Z.to_nat (idx cur) = 15%nat)) as [E15|].
  - rewrite E15 in E. destruct (Hk _ E) as [_ Hty]. by rewrite Ht in Hty.
  - eapply Hs; [|exact E|exact Ht]. lia.
Qed.

Lemma trb_len_range t : 0 <= trb_len t < 2 ^ 17.
Proof. unfold trb_len. apply Z.mod_pos_bound. lia. Qed.

Lemma agree_trans f g h : agree f g -> agree g h -> agree f h.
Proof. intros E1 E2 a Ha. rewrite E1, E2; done. Qed.

Lemma agree_report f j bs : (j < 4)%nat -> Z.of_nat (length bs) <= 64 -> agree f (store (g_report j) bs f).
Proof.
  intros Hj Hl a Ha. rewrite store_out; [done|]. destruct (decide (g_report j <= a < g_report j + Z.of_nat (length bs))); [|lia].
  exfalso. apply Ha. exists j. split; [done|lia].
Qed.

(** A step that has nothing to do with the transfer, and the step that takes
    it. *)
Definition quiet_step (devs : list usb_dev) (ev_at : cursor) (ld : option (endpoint * cursor * trb)) (evs : list trb) (m : dma) (c : chip T) (m' : dma) (c' : chip T) : Prop :=
  exists ev, core devs ev_at m' c' ld (evs ++ [ev]) /\ foreign ev /\ tgt c' = tgt c /\ agree (ram m) (ram m') /\
    forall e, e = in_ep \/ e = out_ep -> deq c' (e_ring e) = deq c (e_ring e).
Definition taken_step (devs : list usb_dev) (ev_at : cursor) (ld : option (endpoint * cursor * trb)) (evs : list trb) (m : dma) (c : chip T) (m' : dma) (c' : chip T) : Prop :=
  exists e cur t ev res, ld = Some (e, cur, t) /\ core devs ev_at m' c' None (evs ++ [ev]) /\ ours e res ev /\
    effect e (param t) (trb_len t) (tgt c) (ram m) = (tgt c', ram m', res).

Lemma bulk_taken devs ev_at m c ld evs e cur t b res f d m' c' : config -> e ∈ eps -> e = in_ep \/ e = out_ep -> core devs ev_at m c ld evs ->
  ready m c (e_ring e) = Some (cur, t) -> event_room c -> 0 <= res < 2 ^ 24 -> effect e (param t) (trb_len t) (tgt c) (ram m) = (d, f, res) ->
  complete e cur t (if b : bool then CC_SUCCESS else CC_SHORT_PKT) res (set_ram f m) (set_tgt d c) = (m', c') -> taken_step devs ev_at ld evs m c m' c'.
Proof.
  intros Hcf He Hbulk Hco Hr Hroom Hres Heff Hc. pose proof (ready_loaded _ _ _ _ _ _ _ _ _ Hco Hbulk Hr) as ->.
  apply (core_deq_bulk _ _ _ _ _ _ _ _ Hbulk), (core_ram _ _ _ _ _ _ f), (core_tgt _ _ _ _ _ _ d) in Hco.
  destruct (complete_core _ _ _ (set_tgt d c) _ _ _ _ _ _ _ _ _ Hcf He Hres Hco Hroom Hc) as (ev & Hco' & Hram & Htgt & _ & E1 & E2 & E3 & E4 & E5).
  exists e, cur, t, ev, res. split; [done|]. split; [done|]. split; [|by rewrite Hram, Htgt].
  split; [done|]. rewrite E2. split; [by destruct Hbulk as [-> | ->]|done].
Qed.

Lemma step_core devs ev_at m c ld evs m' c' : config -> core devs ev_at m c ld evs -> hc_step eps (m, c) (m', c') ->
  quiet_step devs ev_at ld evs m c m' c' \/ taken_step devs ev_at ld evs m c m' c'.
Proof.
  intros Hcf Hco Hst. remember (m, c) as w eqn:Ew. remember (m', c') as w' eqn:Ew'.
  destruct Hst as [? ? e cur t He Hdir Hr Hroom|? ? e cur t bs d He Hdir Hr Hroom Ht Hlen|? ? e cur t bs He Hdir Hr Hroom Hlen|? ? p st ctl Hroom Hctl Hty]; injection Ew as -> ->.
  - right. assert (e = out_ep) as -> by (destruct (cf_eps Hcf e He) as [-> | [-> | (E & _)]]; [done|done|congruence]).
    eapply (bulk_taken _ _ _ _ _ _ out_ep cur t true 0 (ram m)); [done|done|by right|done|done|done|lia|done|]. rewrite <- Ew'. by destruct m.
  - right. assert (e = in_ep) as -> by (destruct (cf_eps Hcf e He) as [-> | [-> | (E & _)]]; [done|done|congruence]).
    pose proof (trb_len_range t). unfold deliver in Ew'. eapply (bulk_taken _ _ _ _ _ _ in_ep cur t); [done|done|by left|done|done|done| | |exact Ew']; [lia|].
    unfold effect. cbn [e_dir in_ep]. by rewrite Ht.
  - left. destruct (cf_eps Hcf e He) as [-> | [-> | (_ & Hsl & j & Hj)]]; [done|done|].
    destruct (mc_int _ (co_machine _ _ _ _ _ _ Hco) e j He Hj) as (d & Hd & Hu & Hk). pose proof (co_int _ _ _ _ _ _ Hco j d Hd Hu Hk) as Hrr.
    rewrite Hj in Hr. destruct (ready_report _ _ _ _ _ _ _ _ Hrr Hr) as [Hp Hs].
    destruct (mc_hid _ (co_machine _ _ _ _ _ _ Hco) j d Hd Hu Hk) as [_ Hmps].
    assert (Htl : trb_len t = int_mps (intr d)) by (unfold trb_len; rewrite Hs; apply Z.mod_small; lia).
    assert (j < 4)%nat by (apply lookup_lt_Some in Hd; by rewrite (mc_length _ (co_machine _ _ _ _ _ _ Hco)) in Hd).
    apply (core_deq_int _ _ _ _ _ _ j (mkCursor (idx cur + 1) (cycle cur))), (core_ram _ _ _ _ _ _ (store (param t) bs (ram m))) in Hco. rewrite <- Hj in Hco.
    assert (Hres : 0 <= trb_len t - Z.of_nat (length bs) < 2 ^ 24) by (pose proof (trb_len_range t); lia). unfold deliver in Ew'.
    destruct (complete_core _ _ _ c _ _ _ _ t _ _ _ _ Hcf He Hres Hco Hroom Ew') as (ev & Hco' & Hram & Htgt & Hdeq & E1 & E2 & _).
    exists ev. split; [done|]. split; [intros _; congruence|]. split; [done|]. split.
    + rewrite Hram, Hp. apply agree_report; lia.
    + intros e' He'. rewrite Hdeq, Hj. rewrite fn_lookup_insert_ne; [done|]. by destruct He' as [-> | ->].
  - left. eexists. split; [eapply core_post; done|]. split; [|by unfold post in Ew'; simplify_eq].
    unfold foreign. cbn [control]. rewrite get_type; [done|done|].
    destruct (co_evt _ _ _ _ _ _ Hco) as [k [_ _ -> _ _ _]]. apply cur64_cycle.
Qed.

(** ** Waiting for a transfer *)
Definition clean (buf len : Z) : Prop := forall a, buf <= a < buf + len -> ~ hid_area a.

Lemma effect_agree e buf len t f g t' g' r : clean buf len -> agree f g -> effect e buf len t g = (t', g', r) ->
  exists f', effect e buf len t f = (t', f', r) /\ agree f' g'.
Proof.
  intros Hcl Hag. assert (Hf : fetch len buf f = fetch len buf g) by (apply fetch_ext; intros a Ha; apply Hag, Hcl, Ha).
  unfold effect. rewrite Hf. destruct (e_dir e); [|destruct (t_in len t) as [bs d]|]; intros ?; simplify_eq; eexists; (split; [done|]); [done| |done].
  intros a Ha. by apply store_ext, Hag.
Qed.

(** The controller has not taken the transfer [e] yet, or its end is among
    the events, behind [evs1]. *)
Record before (e : endpoint) (buf len : Z) (t0 : T) (f0 : Z -> Z) (devs : list usb_dev) (ev_at : cursor) (m : dma) (c : chip T) (evs : list trb) : Prop := {
  bf_core : exists cur t, core devs ev_at m c (Some (e, cur, t)) evs /\ param t = buf /\ trb_len t = len;
  bf_foreign : Forall foreign evs;
  bf_tgt : tgt c = t0;
  bf_ram : agree f0 (ram m);
}.
Record after (e : endpoint) (buf len : Z) (t0 : T) (f0 : Z -> Z) (res : Z) (devs : list usb_dev) (ev_at : cursor) (m : dma) (c : chip T) (evs1 : list trb) (ev : trb) (evs2 : list trb) : Prop := {
  af_core : core devs ev_at m c None (evs1 ++ ev :: evs2);
  af_foreign : Forall foreign (evs1 ++ evs2);
  af_ours : ours e res ev;
  af_effect : exists f, effect e buf len t0 f0 = (tgt c, f, res) /\ agree f (ram m);
}.

Lemma step_before e buf len t0 f0 devs ev_at m c evs m' c' : config -> e = in_ep \/ e = out_ep -> clean buf len ->
  before e buf len t0 f0 devs ev_at m c evs -> hc_step eps (m, c) (m', c') ->
  (exists x, before e buf len t0 f0 devs ev_at m' c' (evs ++ x) /\ deq c' (e_ring e) = deq c (e_ring e)) \/
  (exists res ev, after e buf len t0 f0 res devs ev_at m' c' evs ev []).
Proof.
  intros Hcf He Hcl [(cur & t & Hco & Hp & Hl) Hfo Ht Hr] Hst.
  destruct (step_core _ _ _ _ _ _ _ _ Hcf Hco Hst) as [(ev & Hco' & Hfe & Htg & Hag & Hdq)|(e' & cur' & t' & ev & res & E & Hco' & Ho & Hef)].
  - left. exists [ev]. split; [|by apply Hdq]. split; [by exists cur, t|apply Forall_app; auto|congruence|by eapply agree_trans].
  - right. simplify_eq. exists res, ev. destruct (effect_agree _ _ _ _ _ _ _ _ _ Hcl Hr Hef) as (f' & Hf' & Hag).
    split; [done|by rewrite app_nil_r|done|by exists f'].
Qed.

Lemma step_after e buf len t0 f0 res devs ev_at m c evs1 ev evs2 m' c' : config ->
  after e buf len t0 f0 res devs ev_at m c evs1 ev evs2 -> hc_step eps (m, c) (m', c') ->
  exists x, after e buf len t0 f0 res devs ev_at m' c' evs1 ev (evs2 ++ x).
Proof.
  intros Hcf [Hco Hfo Ho (f & Hf & Hag)] Hst.
  destruct (step_core _ _ _ _ _ _ _ _ Hcf Hco Hst) as [(ev' & Hco' & Hfe & Htg & Hag' & _)|(? & ? & ? & ? & ? & ? & _)]; [|done].
  exists [ev']. split; [by rewrite <- app_assoc in Hco'| |done|].
  - rewrite app_assoc. apply Forall_app; auto.
  - exists f. rewrite Htg. split; [done|by eapply agree_trans].
Qed.

Lemma steps_after e buf len t0 f0 res devs ev_at evs1 ev w w' : config -> rtc (hc_step eps) w w' -> forall evs2,
  after e buf len t0 f0 res devs ev_at (fst w) (snd w) evs1 ev evs2 -> exists x, after e buf len t0 f0 res devs ev_at (fst w') (snd w') evs1 ev (evs2 ++ x).
Proof.
  intros Hcf. induction 1 as [[m c]|[m c] [m1 c1] w' Hst _ IH]; intros evs2 Haf; [exists []; by rewrite app_nil_r|]. cbn [fst snd] in *.
  destruct (step_after _ _ _ _ _ _ _ _ _ _ _ _ _ _ _ Hcf Haf Hst) as [x Hx]. destruct (IH _ Hx) as [y Hy]. exists (x ++ y). by rewrite app_assoc.
Qed.

Lemma steps_before e buf len t0 f0 devs ev_at w w' : config -> e = in_ep \/ e = out_ep -> clean buf len -> rtc (hc_step eps) w w' -> forall evs,
  before e buf len t0 f0 devs ev_at (fst w) (snd w) evs ->
  (exists x, before e buf len t0 f0 devs ev_at (fst w') (snd w') (evs ++ x) /\ deq (snd w') (e_ring e) = deq (snd w) (e_ring e)) \/
  (exists res x ev evs2, after e buf len t0 f0 res devs ev_at (fst w') (snd w') (evs ++ x) ev evs2).
Proof.
  intros Hcf He Hcl. induction 1 as [[m c]|[m c] [m1 c1] w' Hst Hrt IH]; intros evs Hbf; [left; exists []; by rewrite app_nil_r|]. cbn [fst snd] in *.
  destruct (step_before _ _ _ _ _ _ _ _ _ _ _ _ Hcf He Hcl Hbf Hst) as [(x & Hx & Hd)|(res & ev & Haf)].
  - destruct (IH _ Hx) as [(y & Hy & Hd')|(res & y & ev & evs2 & Hy)].
    + left. exists (x ++ y). rewrite app_assoc. split; [done|congruence].
    + right. exists res, (x ++ y), ev, evs2. by rewrite app_assoc.
  - right. destruct (steps_after _ _ _ _ _ _ _ _ _ _ _ _ Hcf Hrt [] Haf) as [x Hx]. exists res, [], ev, x. by rewrite app_nil_r.
Qed.
End bulk.
