(* ===== verification/UsbDriver.v ===== *)
(** * The run of a bulk transfer

    What the driver does to the invariant of [UsbBulk]: polling, routing a
    report that arrives in the middle of a transfer, and the transfer itself. *)
From stdpp Require Import functions relations.
From S2P Require Import Prelude Bytes Disk Input Xhci XhciInit UsbStorage UsbSpec UsbRings UsbBulk.

Lemma lor_8 y : 0 <= y -> Z.lor (16 * y) 8 = 16 * y + 8.
Proof. intros Hy. by destruct y. Qed.

Lemma erdp_split v : 0 <= v < 2 ^ 64 -> u32 (Z.shiftr v 32) * 2 ^ 32 + u32 v = v.
Proof. intros Hv. rewrite Z.shiftr_div_pow2 by lia. unfold u32. Z.div_mod_to_equations. lia. Qed.

Section driver.
Context {T H : Type} `{Target T} `{Layout} `{Controller H}.
Variables (eps : list endpoint) (di : nat) (sl din dout rt db : Z) (bound : nat) (disp_w disp_h : Z).
Context `{!ChipLaws eps H rt db bound}.
Hypothesis Hcf : config eps di sl din dout.

Definition in_core (s : xhci H) (ld : option (endpoint * cursor * trb)) (evs : list trb) : Prop :=
  core eps di sl din dout (g_dev s) (evt_at s) (mem s) (chip_of (hc s)) ld evs.

(** A change that has nothing to do with the transfer. *)
Record benign (s s' : xhci H) : Prop := {
  bn_core : forall ld evs, in_core s ld evs -> in_core s' ld evs;
  bn_chip : chip_of (hc s') = chip_of (hc s);
  bn_ram : agree (ram (mem s)) (ram (mem s'));
  bn_fixed : bases s' = bases s /\ evt_at s' = evt_at s /\ g_evt_lock s' = g_evt_lock s;
  bn_patience : forall r, r = BinRing di \/ r = BoutRing di -> (patience (hc s') r <= patience (hc s) r)%nat;
}.

Lemma benign_refl s : benign s s.
Proof. by split. Qed.
Lemma benign_trans s1 s2 s3 : benign s1 s2 -> benign s2 s3 -> benign s1 s3.
Proof.
  intros [C1 K1 R1 (F1 & F2 & F3) P1] [C2 K2 R2 (G1 & G2 & G3) P2].
  split; [auto|congruence|by eapply agree_trans|split_and!; congruence|]. intros r Hr. etrans; [by apply P2|by apply P1].
Qed.

(** A device of the interrupt kind whose ring and endpoint state change. *)
Lemma core_intr devs ev_at m (c : chip T) ld evs m' j d e' : core eps di sl din dout devs ev_at m c ld evs ->
  devs !! j = Some d -> used d = true -> kind d <> USB_MSC -> int_dci e' = int_dci (intr d) -> int_mps e' = int_mps (intr d) ->
  (forall r, r <> IntRing j -> rings m' r = rings m r) -> report_ring (rings m' (IntRing j)) (int_at e') (g_report j) (int_mps e') ->
  core eps di sl din dout (<[j := set_intr e' d]> devs) ev_at m' c ld evs.
Proof.
  intros [[Hl (dd & Hdd & Hdu & Hdk & Hds) Hot Hh Hin] Hev Her Hi Hb] Hd Hu Hk Hdci Hmps Hrings Hrr.
  assert (Hj : j <> di) by (intros ->; simplify_eq). pose proof (lookup_lt_Some _ _ _ Hd) as Hlt.
  assert (Hlook : forall i x, <[j := set_intr e' d]> devs !! i = Some x -> (i = j /\ x = set_intr e' d) \/ (i <> j /\ devs !! i = Some x)).
  { intros i x. destruct (decide (i = j)) as [->|]; [rewrite list_lookup_insert_eq by done|rewrite list_lookup_insert_ne by done]; intros; simplify_eq; auto. }
  split.
  - split; [by rewrite length_insert|exists dd; by rewrite list_lookup_insert_ne by done| | |].
    + intros i x Hx. destruct (Hlook i x Hx) as [[-> ->]|[_ Hx']]; [|eauto]. cbn. intros _ ?. by apply (Hot j d).
    + intros i x Hx. destruct (Hlook i x Hx) as [[-> ->]|[_ Hx']]; [|eauto]. cbn. intros _ _. rewrite Hdci, Hmps. by apply Hh.
    + intros e i He Hr. destruct (Hin e i He Hr) as (x & Hx & ? & ?). destruct (decide (i = j)) as [->|].
      * exists (set_intr e' d). rewrite list_lookup_insert_eq by done. done.
      * exists x. by rewrite list_lookup_insert_ne by done.
  - by rewrite (Hrings EvtRing) by done.
  - done.
  - intros i x Hx. destruct (Hlook i x Hx) as [[-> ->]|[Hne Hx']]; [done|]. rewrite Hrings by congruence. eauto.
  - intros x e Hx He. destruct (Hlook di x Hx) as [[-> _]|[_ Hx']]; [done|]. specialize (Hb x e Hx' He).
    rewrite Hrings by (by destruct He as [-> | ->]). done.
Qed.

Lemma put_dev_benign s ld evs j d e' f : in_core s ld evs -> g_dev s !! j = Some d -> used d = true -> kind d <> USB_MSC ->
  int_dci e' = int_dci (intr d) -> int_mps e' = int_mps (intr d) -> int_at e' = int_at (intr d) ->
  benign s (set_devs (<[j := set_intr e' d]> (g_dev s)) (set_inp f s)).
Proof.
  intros Hco Hd Hu Hk E1 E2 E3. split; [|done..]. intros ld' evs' Hco'. eapply (core_intr _ _ (mem s)); try done.
  rewrite E2, E3. by apply (co_int _ _ _ _ _ _ _ _ _ _ _ Hco').
Qed.

(** Reports: the input state changes, and what the device remembers. *)
Lemma emit_run s ld evs j d : in_core s ld evs -> g_dev s !! j = Some d -> used d = true -> kind d <> USB_MSC ->
  exists s' d', (if kind d =? USB_MOUSE then emit_mouse disp_w disp_h j else emit_keys j) s = (OK tt, s') /\ benign s s' /\
    g_dev s' !! j = Some d' /\ used d' = true /\ kind d' = kind d /\ slot d' = slot d.
Proof.
  intros Hco Hd Hu Hk. pose proof (lookup_lt_Some _ _ _ Hd). destruct (kind d =? USB_MOUSE).
  - unfold emit_mouse, dev, bind, fetch_at. rewrite Hd. cbn. eexists _, d. split; [done|]. split; [by split|done].
  - unfold emit_keys, dev, bind, fetch_at. rewrite Hd. cbn. eexists _, _. split; [done|]. split; [|cbn; by rewrite list_lookup_insert_eq].
    by eapply (put_dev_benign s).
Qed.

Lemma queue_report_run s ld evs j d : in_core s ld evs -> g_dev s !! j = Some d -> used d = true -> kind d <> USB_MSC -> g_db (bases s) = db ->
  exists s', queue_report j s = (OK tt, s') /\ benign s s'.
Proof.
  intros Hco Hd Hu Hk Hdb. pose proof (co_int _ _ _ _ _ _ _ _ _ _ _ Hco j d Hd Hu Hk) as Hrr. destruct (push_report _ _ _ _ Hrr) as (ring' & p' & Hp & Hrr').
  destruct (mc_hid _ _ _ _ _ _ (co_machine _ _ _ _ _ _ _ _ _ _ _ Hco) j d Hd Hu Hk) as [He Hmps].
  destruct (cf_range _ _ _ _ _ Hcf _ He) as [Hs _]. cbn [e_slot] in Hs.
  unfold queue_report, dev, store_at, push, put_ring, ring_slot_doorbell, wr32, put_dev, bind, get, modify. rewrite Hd. cbn. rewrite Hp. cbn. rewrite Hdb.
  eexists. split; [done|]. split; cbn.
  - intros ld' evs' Hco'. unfold in_core. cbn. rewrite doorbell by done. eapply core_intr; try done.
    + intros r Hr. cbn. by rewrite fn_lookup_insert_ne by done.
    + cbn. by rewrite fn_lookup_insert.
  - by apply doorbell.
  - assert (j < 4)%nat. { apply lookup_lt_Some in Hd. by rewrite (mc_length _ _ _ _ _ _ (co_machine _ _ _ _ _ _ _ _ _ _ _ Hco)) in Hd. }
    by apply (agree_report _ j (replicate 8 0)).
  - done.
  - intros r Hr. apply (doorbell_other _ _ _ He). by destruct Hr as [-> | ->].
Qed.

Lemma dev_by_slot_run (s : xhci H) x : exists o, dev_by_slot x s = (OK o, s) /\
  match o with Some j => exists d, g_dev s !! j = Some d /\ used d = true /\ slot d = x | None => True end.
Proof.
  unfold dev_by_slot. eexists. split; [done|]. destruct (list_find _ _) as [[j d]|] eqn:E; [|done]. cbn.
  apply list_find_Some in E as (Hj & [Hu Hs] & _). exists d. apply lookup_take_Some in Hj as [Hj _]. done.
Qed.

(** A report, or an event of a device nobody waits for. *)
Lemma route_run s ld evs ev : in_core s ld evs -> g_db (bases s) = db -> exists s', route_hid_event disp_w disp_h ev s = (OK tt, s') /\ benign s s'.
Proof.
  intros Hco Hdb. unfold route_hid_event. destruct (dev_by_slot_run s (ev_slot ev)) as (o & Ho & Hdev). bstep Ho.
  destruct o as [j|]; [|exists s; split; [done|apply benign_refl]]. destruct Hdev as (d & Hd & Hu & Hs).
  assert (Hget : dev j s = (OK d, s)) by (unfold dev; by rewrite Hd). bstep Hget.
  destruct (Z.eqb_spec (kind d) USB_MSC) as [Hk|Hk]; [exists s; split; [done|apply benign_refl]|].
  assert (exists s1 d1, (if cc_good (ev_cc ev) then if kind d =? USB_MOUSE then emit_mouse disp_w disp_h j else emit_keys j else ret tt) s = (OK tt, s1) /\
    benign s s1 /\ g_dev s1 !! j = Some d1 /\ used d1 = true /\ kind d1 = kind d /\ slot d1 = slot d) as (s1 & d1 & Hem & Hb1 & Hd1 & Hu1 & Hk1 & _).
  { destruct (cc_good _); [by eapply emit_run|]. exists s, d. split; [done|]. split; [apply benign_refl|done]. }
  bstep Hem. assert (Hget1 : dev j s1 = (OK d1, s1)) by (unfold dev; by rewrite Hd1). bstep Hget1.
  set (e := intr d1). set (s2 := set_devs (<[j := set_intr (mkIntEp (int_epaddr e) (int_dci e) (int_mps e) false (int_at e) (last e)) d1]> (g_dev s1)) s1).
  assert (Hput : put_dev j (set_intr (mkIntEp (int_epaddr e) (int_dci e) (int_mps e) false (int_at e) (last e)) d1) s1 = (OK tt, s2)) by done. bstep Hput.
  assert (Hb2 : benign s1 s2).
  { pose proof (put_dev_benign s1 ld evs j d1 (mkIntEp (int_epaddr e) (int_dci e) (int_mps e) false (int_at e) (last e)) (inp s1)) as Hb.
    replace (set_inp (inp s1) s1) with s1 in Hb by (by destruct s1). apply Hb; try done; [by apply Hb1|by rewrite Hk1]. }
  pose proof (lookup_lt_Some _ _ _ Hd1) as Hlt.
  destruct (queue_report_run s2 ld evs j (set_intr (mkIntEp (int_epaddr e) (int_dci e) (int_mps e) false (int_at e) (last e)) d1)) as (s3 & Hq & Hb3).
  - by apply Hb2, Hb1.
  - unfold s2. cbn. by rewrite list_lookup_insert_eq.
  - done.
  - cbn. by rewrite Hk1.
  - destruct (bn_fixed _ _ Hb1) as (E & _). cbn. by rewrite E.
  - exists s3. split; [done|]. eapply benign_trans; [exact Hb1|]. by eapply benign_trans.
Qed.

(** ** Polling *)
Record polled (s s' : xhci H) : Prop := {
  pl_state : mem s' = mem s /\ g_dev s' = g_dev s /\ bases s' = bases s /\ g_evt_lock s' = g_evt_lock s;
  pl_chip : tgt (chip_of (hc s')) = tgt (chip_of (hc s));
  pl_patience : forall r, (patience (hc s') r <= patience (hc s) r)%nat;
}.

Lemma poll_run s ld evs s1 : elapse s = (OK tt, s1) -> in_core s1 ld evs -> g_rt (bases s1) = rt ->
  exists s2, polled s1 s2 /\ in_core s2 ld (tail evs) /\ poll_event s = (OK (head evs), s2).
Proof.
  intros Hel Hco Hrt. destruct (co_evt _ _ _ _ _ _ _ _ _ _ _ Hco) as [k Hk]. destruct (evt_ring_head _ _ _ _ _ Hk) as (e & He & Hbit & Hev).
  pose proof (er_driver _ _ _ _ _ Hk) as Hat. unfold poll_event. bstep Hel. unfold bind, get. rewrite He. cbn [from_opt ret]. rewrite Hbit.
  destruct evs as [|ev evs]; [by exists s1; split; [split|]|]. rewrite bool_decide_true by done. cbn [negb].
  rewrite Hat, evt_next. rewrite (Hev ev evs eq_refl). cbn [head tail].
  set (v := Z.lor (ring_at EvtRing + 16 * idx (cur64 (k + 1))) 8). destruct (cf_evt _ _ _ _ _ Hcf) as (Hal & Hlo & Hhi).
  pose proof (Z.mod_pos_bound (k + 1) 64 ltac:(lia)) as Hm.
  assert (Hv : v = ring_at EvtRing + 16 * ((k + 1) mod 64) + 8).
  { unfold v. cbn [idx cur64]. replace (ring_at EvtRing + 16 * ((k + 1) mod 64)) with (16 * (ring_at EvtRing / 16 + (k + 1) mod 64)) by (Z.div_mod_to_equations; lia).
    apply lor_8. Z.div_mod_to_equations. lia. }
  eexists. split; [|split; [|done]]; cbn; rewrite Hrt.
  - split; cbn; [done|by rewrite erdp_high, erdp_low|]. intros r. etrans; apply erdp_patience; auto.
  - unfold in_core. cbn. rewrite erdp_high, erdp_low. cbn. destruct Hco as [Hmc _ _ Hi Hb]. split; [done|exists (k + 1); by eapply evt_ring_take| |done|done].
    cbn [erdp_hi erdp_lo]. rewrite erdp_split by (rewrite Hv; lia). rewrite Hv. cbn [idx cur64]. Z.div_mod_to_equations. lia.
Qed.

Section transfer.
Variables (e : endpoint) (buf len : Z) (t0 : T) (f0 : Z -> Z).
Hypothesis He : e = in_ep di sl din \/ e = out_ep di sl dout.
Hypothesis Hclean : clean buf len.

Abbreviation bef s evs := (before eps di sl din dout e buf len t0 f0 (g_dev s) (evt_at s) (mem s) (chip_of (hc s)) evs).
Abbreviation aft s res evs1 ev evs2 := (after eps di sl din dout e buf len t0 f0 res (g_dev s) (evt_at s) (mem s) (chip_of (hc s)) evs1 ev evs2).

(** At most [n] more polls until the end of the transfer is seen. *)
Definition waits (s : xhci H) (n : nat) : Prop :=
  (exists evs, bef s evs /\ (patience (hc s) (e_ring e) + (if decide (length evs = 63%nat) then 1 else 0) + 64 <= n)%nat) \/
  (exists res evs1 ev evs2, aft s res evs1 ev evs2 /\ (length evs1 + 1 <= n)%nat).

(** The transfer is over. *)
Definition finished (s : xhci H) (res : Z) : Prop :=
  exists evs f, in_core s None evs /\ Forall (foreign sl) evs /\ effect e buf len t0 f0 = (tgt (chip_of (hc s)), f, res) /\ agree f (ram (mem s)).

Definition framed (s s' : xhci H) : Prop := bases s' = bases s /\ g_evt_lock s' = g_evt_lock s.

Lemma evs_bound s ld evs : in_core s ld evs -> (length evs <= 63)%nat.
Proof. intros Hco. destruct (co_evt _ _ _ _ _ _ _ _ _ _ _ Hco) as [k Hk]. apply Hk. Qed.

Lemma elapse_run s n : waits s (S n) -> exists s1, elapse s = (OK tt, s1) /\ framed s s1 /\
  ((exists evs, bef s1 evs /\ (patience (hc s1) (e_ring e) + 64 <= n)%nat) \/
   (exists res evs1 ev evs2, aft s1 res evs1 ev evs2 /\ (length evs1 <= n)%nat)).
Proof.
  intros Hw. unfold elapse, modify. destruct (hc_run (mem s) (hc s)) as [m' h'] eqn:Hrun. eexists. split; [done|]. split; [done|]. cbn.
  pose proof (run_safe _ _ _ _ Hrun) as Hst. destruct Hw as [(evs & Hbf & Hn)|(res & evs1 & ev & evs2 & Haf & Hn)].
  - destruct (bf_core _ _ _ _ _ _ _ _ _ _ _ _ _ _ _ Hbf) as (cur & t & Hco & _).
    pose proof (evs_bound s _ _ Hco) as Hbd. destruct (mc_disk _ _ _ _ _ _ (co_machine _ _ _ _ _ _ _ _ _ _ _ Hco)) as (d & Hd & _).
    pose proof (co_bulk _ _ _ _ _ _ _ _ _ _ _ Hco d e Hd He) as Hb. cbn in Hb. rewrite decide_True in Hb by done.
    assert (Hep : e ∈ eps) by (destruct He as [-> | ->]; apply Hcf).
    destruct (steps_before _ _ _ _ _ _ _ _ _ _ _ _ _ _ Hcf He Hclean Hst evs Hbf) as [(x & Hx & Hdq)|(res & x & ev & evs2 & Haf)]; cbn [fst snd] in *.
    + left. exists (evs ++ x). split; [done|]. pose proof (room_length _ _ _ _ _ _ _ _ _ _ _ Hco) as Hroom.
      case_decide; [pose proof (run_patience _ _ _ _ (e_ring e) Hrun ltac:(rewrite Hroom; lia)); lia|].
      destruct (run_live _ _ _ _ e _ _ Hrun Hep ltac:(rewrite Hroom; lia) (loaded_ready _ _ _ _ _ _ Hb) (loaded_moves _ _ _ _ _ _ Hb)) as [?|?]; [done|lia].
    + right. exists res, (evs ++ x), ev, evs2. split; [done|].
      pose proof (co_evt _ _ _ _ _ _ _ _ _ _ _ (af_core _ _ _ _ _ _ _ _ _ _ _ _ _ _ _ _ _ _ Haf)) as [k Hk].
      apply er_count in Hk. rewrite length_app in Hk. cbn in Hk. lia.
  - right. destruct (steps_after _ _ _ _ _ _ _ _ _ _ _ _ _ _ _ _ _ Hcf Hst evs2 Haf) as [x Hx]. cbn [fst snd] in *. exists res, evs1, ev, (evs2 ++ x). split; [done|lia].
Qed.

Lemma framed_trans s1 s2 s3 : framed s1 s2 -> framed s2 s3 -> framed s1 s3.
Proof. intros [? ?] [? ?]. split; congruence. Qed.
Lemma benign_framed s s' : benign s s' -> framed s s'.
Proof. by intros [_ _ _ (? & _ & ?) _]. Qed.
Lemma polled_framed s s' : polled s s' -> framed s s'.
Proof. by intros [(_ & _ & ? & ?) _ _]. Qed.

Lemma bef_benign s s' evs : bef s evs -> benign s s' -> bef s' evs.
Proof.
  intros [(cur & t & Hco & Hp & Hl) Hf Ht Hr] [Hbc Hch Hag _ _]. split; [exists cur, t; split; [by apply Hbc|done]|done|by rewrite Hch|by eapply agree_trans].
Qed.
Lemma aft_benign s s' res evs1 ev evs2 : aft s res evs1 ev evs2 -> benign s s' -> aft s' res evs1 ev evs2.
Proof.
  intros [Hco Hf Ho (f & Hef & Hr)] [Hbc Hch Hag _ _]. split; [by apply Hbc|done|done|]. exists f. rewrite Hch. split; [done|by eapply agree_trans].
Qed.

(** Polling in either phase. *)
Lemma bef_poll s s1 evs : elapse s = (OK tt, s1) -> g_rt (bases s1) = rt -> bef s1 evs ->
  exists s2, polled s1 s2 /\ bef s2 (tail evs) /\ poll_event s = (OK (head evs), s2).
Proof.
  intros Hel Hrt [(cur & t & Hco & Hp & Hl) Hf Ht Hr]. destruct (poll_run _ _ _ _ Hel Hco Hrt) as (s2 & Hpl & Hco2 & Hpoll). exists s2. split; [done|]. split; [|done].
  destruct Hpl as [(Em & _) Htg _]. split; [by exists cur, t|destruct evs; [done|by inversion Hf]|by rewrite Htg|by rewrite Em].
Qed.
Lemma aft_poll s s1 res evs1 ev evs2 : elapse s = (OK tt, s1) -> g_rt (bases s1) = rt -> aft s1 res evs1 ev evs2 ->
  exists s2, polled s1 s2 /\ match evs1 with
    | [] => finished s2 res /\ poll_event s = (OK (Some ev), s2)
    | x :: evs1' => aft s2 res evs1' ev evs2 /\ foreign sl x /\ poll_event s = (OK (Some x), s2)
    end.
Proof.
  intros Hel Hrt [Hco Hf Ho (f & Hef & Hr)]. destruct (poll_run _ _ _ _ Hel Hco Hrt) as (s2 & Hpl & Hco2 & Hpoll). exists s2. split; [done|].
  destruct Hpl as [(Em & _) Htg _]. destruct evs1 as [|x evs1]; cbn in *.
  - split; [|done]. exists evs2, f. by rewrite Em, Htg.
  - inversion Hf. split; [|done]. split; [done..|]. exists f. by rewrite Em, Htg.
Qed.

(** A foreign event is routed, and the transfer goes on. *)
Lemma foreign_round s s2 ld evs x : poll_event s = (OK (Some x), s2) -> foreign sl x -> in_core s2 ld evs -> g_db (bases s2) = db ->
  exists s3, bulk_round disp_w disp_h sl (e_dci e) s = (OK None, s3) /\ benign s2 s3.
Proof.
  intros Hp Hf Hco Hdb. unfold bulk_round. bstep Hp. destruct (Z.eqb_spec (TRB_GET_TYPE (control x)) TRB_EV_TRANSFER) as [E|E]; cbn [negb].
  - rewrite (proj2 (Z.eqb_neq _ _) (Hf E)). cbn [andb]. destruct (route_run s2 ld evs x Hco Hdb) as (s3 & Hr & Hb). bstep Hr. by exists s3.
  - exists s2. split; [done|apply benign_refl].
Qed.

Lemma bulk_round_run s n : waits s (S n) -> g_rt (bases s) = rt -> g_db (bases s) = db ->
  exists s', framed s s' /\ ((exists res, bulk_round disp_w disp_h sl (e_dci e) s = (OK (Some (true, res)), s') /\ finished s' res) \/
                             (bulk_round disp_w disp_h sl (e_dci e) s = (OK None, s') /\ waits s' n)).
Proof.
  intros Hw Hrt Hdb. destruct (elapse_run s n Hw) as (s1 & Hel & Hfr & Hcase). pose proof Hfr as [Hba _].
  destruct Hcase as [(evs & Hbf & Hn)|(res & evs1 & ev & evs2 & Haf & Hn)].
  - destruct (bef_poll s s1 evs Hel ltac:(congruence) Hbf) as (s2 & Hpl & Hbf2 & Hp). pose proof (polled_framed _ _ Hpl) as Hfr2. pose proof (pl_patience _ _ Hpl (e_ring e)).
    assert (Hlt : (length (tail evs) <= 62)%nat).
    { destruct (bf_core _ _ _ _ _ _ _ _ _ _ _ _ _ _ _ Hbf) as (? & ? & Hco & _). pose proof (evs_bound s1 _ _ Hco). destruct evs; cbn in *; lia. }
    destruct evs as [|x evs]; cbn [head tail] in *.
    + exists s2. split; [by eapply framed_trans|]. right. unfold bulk_round. bstep Hp. split; [done|]. left. exists []. split; [done|]. rewrite decide_False by done. lia.
    + destruct (bf_core _ _ _ _ _ _ _ _ _ _ _ _ _ _ _ Hbf2) as (cur & t & Hco2 & _). pose proof (bf_foreign _ _ _ _ _ _ _ _ _ _ _ _ _ _ _ Hbf) as Hfo. inversion Hfo; subst.
      destruct (foreign_round s s2 (Some (e, cur, t)) evs x Hp) as (s3 & Hr & Hb); [done|exact Hco2|destruct Hfr2; congruence|].
      exists s3. split; [eapply framed_trans; [done|]; eapply framed_trans; [done|by apply benign_framed]|]. right. split; [done|]. left. exists evs.
      split; [by eapply bef_benign|]. rewrite decide_False by lia. pose proof (bn_patience _ _ Hb (e_ring e)) as Hpa. destruct He as [-> | ->]; cbn in *; specialize (Hpa ltac:(auto)); lia.
  - destruct (aft_poll s s1 res evs1 ev evs2 Hel ltac:(congruence) Haf) as (s2 & Hpl & Hcase). pose proof (polled_framed _ _ Hpl) as Hfr2. destruct evs1 as [|x evs1].
    + destruct Hcase as [Hfin Hp]. exists s2. split; [by eapply framed_trans|]. left. exists res. split; [|done]. unfold bulk_round. bstep Hp.
      destruct (af_ours _ _ _ _ _ _ _ _ _ _ _ _ _ _ _ _ _ _ Haf) as (E1 & E2 & E3 & E4 & E5). rewrite E1, E2, E3, E4, E5, !Z.eqb_refl. done.
    + destruct Hcase as (Haf2 & Hfo & Hp). destruct (foreign_round s s2 _ _ x Hp Hfo (af_core _ _ _ _ _ _ _ _ _ _ _ _ _ _ _ _ _ _ Haf2)) as (s3 & Hr & Hb); [destruct Hfr2; congruence|].
      exists s3. split; [eapply framed_trans; [done|]; eapply framed_trans; [done|by apply benign_framed]|]. right. split; [done|]. right. exists res, evs1, ev, evs2.
      split; [by eapply aft_benign|]. cbn in Hn. lia.
Qed.

Lemma wait_loop_run n : forall s fuel spin, waits s n -> g_rt (bases s) = rt -> g_db (bases s) = db -> (n <= fuel)%nat -> spin + Z.of_nat n <= 200000000 ->
  exists s' res, spin_until fuel spin 200000000 (bulk_round disp_w disp_h sl (e_dci e)) s = (OK (Some (true, res)), s') /\ finished s' res /\ framed s s'.
Proof.
  induction n as [|n IH]; intros s fuel spin Hw Hrt Hdb Hfuel Hspin.
  - destruct Hw as [(? & _ & ?)|(? & ? & ? & ? & _ & ?)]; lia.
  - destruct fuel as [|fuel]; [lia|]. cbn [spin_until]. rewrite (proj2 (Z.leb_gt _ _)) by lia.
    destruct (bulk_round_run s n Hw Hrt Hdb) as (s1 & Hfr & [(res & Hr & Hfin)|[Hr Hw1]]); bstep Hr.
    + by exists s1, res.
    + pose proof Hfr as [Hba _]. destruct (IH s1 fuel (spin + 1) Hw1) as (s' & res & Hrun & Hfin & Hfr'); [congruence..|lia|lia|].
      exists s', res. split; [done|]. split; [done|]. by eapply framed_trans.
Qed.
End transfer.

(** ** The whole transfer *)
Record usb_ready (s : xhci H) (t : T) : Prop := {
  ur_core : exists evs, in_core s None evs /\ Forall (foreign sl) evs;
  ur_tgt : tgt (chip_of (hc s)) = t;
  ur_rt : g_rt (bases s) = rt;
  ur_db : g_db (bases s) = db;
  ur_lock : g_evt_lock s = false;
}.

Lemma disk_by_slot s ld evs : in_core s ld evs -> exists d, dev_by_slot sl s = (OK (Some di), s) /\ g_dev s !! di = Some d /\ used d = true /\ kind d = USB_MSC /\
  slot d = sl /\ bulk_in_dci (bulk d) = din /\ bulk_out_dci (bulk d) = dout.
Proof.
  intros Hco. pose proof (co_machine _ _ _ _ _ _ _ _ _ _ _ Hco) as [Hl (d & Hd & Hu & Hk & Hs & Hi & Ho) Hot _ _]. exists d. split; [|done].
  unfold dev_by_slot. rewrite firstn_all2 by lia. destruct (list_find _ (g_dev s)) as [[j x]|] eqn:E.
  - apply list_find_Some in E as (Hj & [Hu' Hs'] & _). by rewrite (Hot j x Hj Hu' Hs').
  - apply list_find_None in E. rewrite Forall_lookup in E. destruct (E di d Hd). done.
Qed.

(** Putting the block into the ring of [e]. *)
Lemma core_push devs ev_at m (c : chip T) evs e d b ring' p' t : (e = in_ep di sl din \/ e = out_ep di sl dout) ->
  core eps di sl din dout devs ev_at m c None evs -> devs !! di = Some d -> bulk_in_dci b = din -> bulk_out_dci b = dout ->
  (if decide (e = in_ep di sl din) then bin_at b = p' /\ bout_at b = bout_at (bulk d) else bout_at b = p' /\ bin_at b = bin_at (bulk d)) ->
  loaded (e_ring e) ring' p' (deq c (e_ring e)) (at_of di sl din e d) t ->
  core eps di sl din dout (<[di := set_bulk b d]> devs) ev_at (mkDma (<[e_ring e := ring']> (rings m)) (ram m)) c (Some (e, at_of di sl din e d, t)) evs.
Proof.
  intros He [[Hl (dd & Hdd & Hdu & Hdk & Hds & _) Hot Hh Hin] Hev Her Hi Hb] Hd Hbi Hbo Hat Hld. assert (dd = d) as -> by congruence. pose proof (lookup_lt_Some _ _ _ Hd) as Hlt.
  assert (Hlook : forall i x, <[di := set_bulk b d]> devs !! i = Some x -> (i = di /\ x = set_bulk b d) \/ (i <> di /\ devs !! i = Some x)).
  { intros i x. destruct (decide (i = di)) as [->|]; [rewrite list_lookup_insert_eq by done|rewrite list_lookup_insert_ne by done]; intros; simplify_eq; auto. }
  split.
  - split; [by rewrite length_insert|exists (set_bulk b d); by rewrite list_lookup_insert_eq by done| | |].
    + intros i x Hx. destruct (Hlook i x Hx) as [[-> ->]|[_ Hx']]; [done|eauto].
    + intros i x Hx. destruct (Hlook i x Hx) as [[-> ->]|[_ Hx']]; [done|eauto].
    + intros e' i He' Hr. destruct (Hin e' i He' Hr) as (x & Hx & ? & Hk). exists x. rewrite list_lookup_insert_ne; [done|]. intros ->. by simplify_eq.
  - cbn. by rewrite fn_lookup_insert_ne by (by destruct He as [-> | ->]).
  - done.
  - intros i x Hx. destruct (Hlook i x Hx) as [[-> ->]|[Hne Hx']]; [done|]. cbn. rewrite fn_lookup_insert_ne by (by destruct He as [-> | ->]). eauto.
  - intros x e' Hx He'. destruct (Hlook di x Hx) as [[_ ->]|[? _]]; [|done]. cbn [rings]. destruct (decide (e = e')) as [<-|Ee].
    + rewrite fn_lookup_insert. replace (at_of di sl din e (set_bulk b d)) with p'; [done|]. unfold at_of. cbn. case_decide; symmetry; apply Hat.
    + specialize (Hb d e' Hd He'). cbn in Hb. rewrite fn_lookup_insert_ne by (by destruct He as [-> | ->], He' as [-> | ->]).
      replace (at_of di sl din e' (set_bulk b d)) with (at_of di sl din e' d); [done|]. unfold at_of. cbn.
      destruct He as [-> | ->], He' as [-> | ->]; try done.
      * rewrite decide_True in Hat by done. rewrite !decide_False by done. symmetry. apply Hat.
      * rewrite decide_False in Hat by done. rewrite !decide_True by done. symmetry. apply Hat.
Qed.

Lemma push_bulk_run s evs e buf len : (e = in_ep di sl din \/ e = out_ep di sl dout) -> in_core s None evs ->
  exists s' cur t, push_bulk di (e_dci e) buf len s = (OK tt, s') /\ in_core s' (Some (e, cur, t)) evs /\ param t = buf /\ status t = len /\
    hc s' = hc s /\ ram (mem s') = ram (mem s) /\ framed s s'.
Proof.
  intros He Hco. destruct (disk_by_slot s None evs Hco) as (d & _ & Hd & _ & _ & _ & Hi & Ho).
  pose proof (co_bulk _ _ _ _ _ _ _ _ _ _ _ Hco d e Hd He) as Hid. cbn in Hid. destruct (push_idle _ _ _ _ buf len Hid) as (ring' & p' & Hp & Hld).
  assert (Hdci : (e_dci e =? bulk_in_dci (bulk d)) = bool_decide (e = in_ep di sl din)).
  { rewrite Hi. destruct He as [-> | ->]; cbn; [rewrite Z.eqb_refl; by rewrite bool_decide_true|]. rewrite bool_decide_false by done.
    apply Z.eqb_neq. intros E. by apply (cf_dci _ _ _ _ _ Hcf). }
  unfold push_bulk, dev, push, put_ring, put_dev, bind, get, modify. rewrite Hd. cbn -[Z.lor Z.shiftl Z.land push_trb]. rewrite Hdci.
  destruct He as [-> | ->]; [rewrite bool_decide_true by done|rewrite bool_decide_false by done]; unfold at_of in Hp; cbn [e_ring in_ep out_ep] in Hp.
  - rewrite decide_True in Hp by done. rewrite Hp. eexists _, _, (mkTrb buf len _). split; [reflexivity|]. split; [|done]. unfold in_core. cbn.
    eapply (core_push _ _ (mem s) _ _ (in_ep di sl din) d _ ring' p'); try done; [by left|by rewrite decide_True].
  - rewrite decide_False in Hp by done. rewrite Hp. eexists _, _, (mkTrb buf len _). split; [reflexivity|]. split; [|done]. unfold in_core. cbn.
    eapply (core_push _ _ (mem s) _ _ (out_ep di sl dout) d _ ring' p'); try done; [by right|by rewrite decide_False].
Qed.

Lemma in_core_lock s ld evs b : in_core s ld evs -> in_core (set_lock b s) ld evs.
Proof. done. Qed.

Lemma bulk_run fuel e buf len s t t' f' res : (e = in_ep di sl din \/ e = out_ep di sl dout) -> clean buf len -> 0 <= len < 2 ^ 17 ->
  (bound + 65 <= fuel)%nat -> Z.of_nat bound + 65 <= 200000000 -> usb_ready s t -> effect e buf len t (ram (mem s)) = (t', f', res) ->
  exists s', canboot_xhci_bulk disp_w disp_h fuel sl (e_dci e) buf len s = (OK res, s') /\ usb_ready s' t' /\ agree f' (ram (mem s')).
Proof.
  intros He Hcl Hlen Hfuel Hspin [(evs & Hco & Hfo) Ht Hrt Hdb Hlk] Hef.
  destruct (disk_by_slot s None evs Hco) as (d & Hby & Hd & Hu & Hk & Hs & _). unfold canboot_xhci_bulk. bstep Hby.
  assert (Hget : dev di s = (OK d, s)) by (unfold dev; by rewrite Hd). bstep Hget. rewrite Hk, Z.eqb_refl. cbn [negb].
  assert (Hlock : spin_lock_irqsave s = (OK tt, set_lock true s)) by (unfold spin_lock_irqsave, bind, get; rewrite Hlk; reflexivity). bstep Hlock.
  destruct (push_bulk_run (set_lock true s) evs e buf len He (in_core_lock _ _ _ true Hco)) as (s1 & cur & t1 & Hpush & Hco1 & Hp & Hst & Hhc & Hram & [Hba _]). bstep Hpush. cbn in Hhc, Hram, Hba.
  set (s2 := set_hc (hc_wr (db + 4 * sl) (e_dci e) (hc s1)) s1).
  assert (Hbell : ring_slot_doorbell sl (e_dci e) s1 = (OK tt, s2)) by (unfold ring_slot_doorbell, bind, get; cbn; by rewrite Hba, Hdb). bstep Hbell.
  assert (Hep : e ∈ eps) by (destruct He as [-> | ->]; apply Hcf). assert (Hsl : e_slot e = sl) by (by destruct He as [-> | ->]).
  assert (Hchip : chip_of (hc s2) = chip_of (hc s)) by (cbn; rewrite Hhc; apply doorbell; rewrite <- Hsl; by apply (cf_range _ _ _ _ _ Hcf)).
  assert (Htl : trb_len t1 = len) by (unfold trb_len; rewrite Hst; by apply Z.mod_small).
  destruct (wait_loop_run e buf len t (ram (mem s)) He Hcl (bound + 65) s2 fuel 0) as (s3 & res3 & Hrun & (evs3 & f3 & Hco3 & Hfo3 & Hef3 & Hag3) & [Hb3 _]).
  - left. exists evs. split.
    + split; [|done|by rewrite Hchip|by cbn; rewrite Hram]. exists cur, t1. split; [|done]. unfold in_core in Hco1. rewrite Hchip, <- Hhc. exact Hco1.
    + pose proof (doorbell_rung e (hc s1) Hep) as Hpa. rewrite Hsl in Hpa. cbn. case_decide; lia.
  - cbn. by rewrite Hba.
  - cbn. by rewrite Hba.
  - done.
  - lia.
  - bstep Hrun. rewrite Hef in Hef3. simplify_eq. eexists. split; [done|]. split; [|done]. cbn in Hb3. split; cbn; [by exists evs3|done|by rewrite Hb3, Hba|by rewrite Hb3, Hba|done].
Qed.
End driver.
