(* ===== verification/UsbProps.v ===== *)
(** * A USB disk is a block device

    The driver of [hal/disk/usb_storage.c] over the host controller driver, on
    hardware that keeps the laws of [UsbSpec]: [usb_read] and [usb_write] answer
    what the block device interface promises. *)
From stdpp Require Import functions relations.
From S2P Require Import Prelude Bytes Disk Input Xhci XhciInit UsbStorage UsbSpec UsbRings UsbBulk UsbDriver.

(** ** Command blocks *)
Lemma le4_bytes v : [u8 v; u8 (Z.shiftr v 8); u8 (Z.shiftr v 16); u8 (Z.shiftr v 24)] = le_enc 4 v.
Proof.
  cbn [le_enc]. rewrite !Z.shiftr_div_pow2, !Z.div_div by lia. done.
Qed.

Lemma cbw_is_command_block tag cdb b dlen : (length cdb <= 16)%nat -> cbw_bytes tag cdb b dlen = command_block tag dlen b cdb.
Proof.
  intros Hl. unfold cbw_bytes, command_block. rewrite <- !le4_bytes. change 0x1F with (Z.ones 5). rewrite Z.land_ones, Z.mod_small by lia. done.
Qed.

Lemma rw_cdb_is_cdb10 w lba n : 0 <= lba < 2 ^ 32 -> 0 <= n < 2 ^ 16 -> rw_cdb w lba n = cdb10 (if w then 0x2A else 0x28) lba n.
Proof.
  intros Hl Hn. unfold rw_cdb, cdb10, be4, put_be32. rewrite u32_small, <- le4_bytes by lia. rewrite (Z.shiftr_div_pow2 n 8) by lia.
  change (2 ^ 8) with 256. rewrite (u8_small (n / 256)) by (Z.div_mod_to_equations; lia). by destruct w.
Qed.

Lemma length_cdb10 op lba n : length (cdb10 op lba n) = 10%nat.
Proof. unfold cdb10, be4. by rewrite !length_app, length_rev, length_le_enc. Qed.

Lemma length_command_block tag dlen b op lba n : length (command_block tag dlen b (cdb10 op lba n)) = 31%nat.
Proof. unfold command_block. by rewrite !length_app, !length_le_enc, length_replicate, length_cdb10. Qed.

Lemma length_status_block tag res st : length (status_block tag res st) = 13%nat.
Proof. unfold status_block. by rewrite !length_app, !length_le_enc. Qed.

Lemma status_fields tag res st : 0 <= tag < 2 ^ 32 -> let csw := status_block tag res st in
  le_dec (slice 0 4 csw) = CSW_SIG /\ le_dec (slice 4 4 csw) = tag /\ csw !! 12%nat = Some st.
Proof.
  intros Ht csw. unfold csw, status_block. split; [done|]. split.
  - change (slice 4 4 (str "USBS" ++ ?r)) with (take 4 r). rewrite take_app_length' by (by rewrite length_le_enc). rewrite le_dec_enc. by apply Z.mod_small.
  - done.
Qed.

(** ** Runs of blocks *)
Lemma rd_read_app d lba a b bs1 bs2 : 0 <= lba -> 0 <= a -> 0 <= b -> lba + (a + b) <= rd_count d ->
  rd_read d lba a = Some bs1 -> rd_read d (lba + a) b = Some bs2 -> rd_read d lba (a + b) = Some (bs1 ++ bs2).
Proof.
  intros ? ? ? ?. rewrite !rd_read_blk by lia. intros [= <-] [= <-]. rewrite seqZ_app, fmap_app, concat_app by lia. done.
Qed.

Lemma chunks_app a b k data : chunks (a + b) k data = chunks a k (take (a * k) data) ++ chunks b k (drop (a * k) data).
Proof.
  revert data. induction a as [|a IH]; intros data; [done|]. cbn. rewrite IH, take_take, Nat.min_l, drop_drop by lia. f_equal. f_equal.
  f_equal. rewrite skipn_firstn_comm. f_equal. lia.
Qed.

Lemma splice_splice {A} o (a b l : list A) : (o + length a <= length l)%nat -> splice (o + length a) b (splice o a l) = splice o (a ++ b) l.
Proof.
  intros Hl. assert (E : splice o a l = (take o l ++ a) ++ drop (o + length a) l) by (unfold splice; by rewrite app_assoc).
  assert (Hx : length (take o l ++ a) = (o + length a)%nat) by (rewrite length_app, length_take; lia).
  unfold splice at 1. rewrite E, take_app_length', drop_app_ge, Hx, drop_drop by lia. unfold splice. rewrite length_app, <- !app_assoc. do 4 f_equal. lia.
Qed.

Lemma rd_write_app d d1 d2 lba a b data : 0 <= a -> 0 <= b -> 0 < rd_bs d ->
  rd_write d lba a (take (Z.to_nat (a * rd_bs d)) data) = Some d1 -> rd_write d1 (lba + a) b (drop (Z.to_nat (a * rd_bs d)) data) = Some d2 ->
  rd_write d lba (a + b) data = Some d2.
Proof.
  intros Ha Hb Hbs. unfold rd_write, rd_in_range, rd_count. match goal with |- (if ?b then _ else _) = _ -> _ => destruct b eqn:E1; [|done] end. intros [= <-]. cbn [rd_bs rd_writable rd_blocks rd_kind].
  match goal with |- (if ?b then _ else _) = _ -> _ => destruct b eqn:E2; [|done] end. intros [= <-].
  rewrite !andb_true_iff, !Z.leb_le, Z.eqb_eq in E1. rewrite !andb_true_iff, !Z.leb_le, Z.eqb_eq in E2. destruct E1 as [[[[? ?] ?] Hw] Hl1], E2 as [[[[? ?] Hr] _] Hl2].
  rewrite length_splice in Hr by (rewrite length_chunks; lia). rewrite length_take in Hl1. rewrite length_drop in Hl2.
  replace (_ && _ && _ && _ && _) with true by (symmetry; rewrite !andb_true_iff, !Z.leb_le, Z.eqb_eq; split_and!; [lia..|done|nia]).
  do 2 f_equal. replace (Z.to_nat (lba + a)) with (Z.to_nat lba + length (chunks (Z.to_nat a) (Z.to_nat (rd_bs d)) (take (Z.to_nat (a * rd_bs d)) data)))%nat by (rewrite length_chunks; lia).
  rewrite splice_splice by (rewrite length_chunks; lia). f_equal. replace (Z.to_nat (a + b)) with (Z.to_nat a + Z.to_nat b)%nat by lia.
  rewrite chunks_app. by rewrite <- !Z2Nat.inj_mul by lia.
Qed.

Lemma length_blocks d lba n : rd_ok d -> 0 <= lba -> 0 <= n -> lba + n <= rd_count d -> Z.of_nat (length (concat (rd_blk d <$> seqZ lba n))) = n * rd_bs d.
Proof.
  intros Hd ? ? ?. pose proof Hd as (Hbs & _ & _). rewrite (length_concat_const _ _ (Z.to_nat (rd_bs d))); [rewrite length_seqZ; lia|].
  intros x Hx. apply elem_of_seqZ in Hx. pose proof (bd_blk_length d x Hd) as Hl. cbn in Hl. lia.
Qed.

(** ** The transport *)
Section storage.
Context {T H : Type} `{Target T} `{Layout} `{Controller H} `{StorageLayout}.
Variables (eps : list endpoint) (di : nat) (sl din dout rt db : Z) (bound : nat) (disp_w disp_h : Z) (fuel : nat).
Context `{!ChipLaws eps H rt db bound} `{!DiskLaws}.

(** The buffers of the driver are apart from each other and from the report
    buffers. *)
Record buffers_apart : Prop := {
  ba_cbw : clean g_cbw 31; ba_csw : clean g_csw 13; ba_bounce : clean g_bounce BOUNCE_BYTES;
  ba_cbw_bounce : g_cbw + 31 <= g_bounce \/ g_bounce + BOUNCE_BYTES <= g_cbw;
  ba_csw_bounce : g_csw + 13 <= g_bounce \/ g_bounce + BOUNCE_BYTES <= g_csw;
}.
Hypothesis Hcf : config eps di sl din dout.
Hypothesis Hba : buffers_apart.
Hypothesis Hfuel : (bound + 65 <= fuel)%nat.
Hypothesis Hbound : Z.of_nat bound + 65 <= 200000000.

Abbreviation ready_for u t := (usb_ready eps di sl din dout rt db bound (usb u) t).
Abbreviation memory u := (ram (mem (usb u))).

Definition kept (u u' : storage H) : Prop := g_msc u' = g_msc u /\ disks u' = disks u.

Definition is_disk (m : msc) : Prop := m_slot m = sl /\ in_dci m = din /\ out_dci m = dout.

Lemma agree_sym f g : agree f g -> agree g f.
Proof. intros E a Ha. symmetry. by apply E. Qed.

Lemma xbulk_run u m e buf len t f t' f' res : is_disk m -> e = in_ep di sl din \/ e = out_ep di sl dout -> clean buf len -> 0 <= len < 2 ^ 17 -> ready_for u t ->
  agree f (memory u) -> effect e buf len t f = (t', f', res) ->
  exists u', xbulk disp_w disp_h fuel m (e_dci e) buf len u = (OK res, u') /\ ready_for u' t' /\ agree f' (memory u') /\ kept u u' /\ g_tag u' = g_tag u.
Proof.
  intros (Hs & _) He Hcl Hlen Hr Hag Hef. destruct (effect_agree e buf len t (memory u) f t' f' res Hcl (agree_sym _ _ Hag) Hef) as (g & Hef' & Hag').
  destruct (bulk_run eps di sl din dout rt db bound disp_w disp_h Hcf fuel e buf len (usb u) t t' g res He Hcl Hlen Hfuel Hbound Hr Hef') as (s' & Hrun & Hr' & Hag2).
  unfold xbulk, lift. rewrite Hs, Hrun. eexists. split; [done|]. cbn. split; [done|]. split; [|done]. eapply agree_trans; [apply agree_sym, Hag'|done].
Qed.

Lemma ready_store u t a bs : ready_for u t -> exists u', lift (store_at a bs) u = (OK tt, u') /\ ready_for u' t /\ memory u' = store a bs (memory u) /\ kept u u' /\ g_tag u' = g_tag u.
Proof.
  intros [(evs & Hco & Hfo) Ht Hrt Hdb Hlk]. eexists. split; [done|]. split; [|done]. split; try done. exists evs. split; [|done]. by destruct Hco.
Qed.

(** One transaction with a data stage. *)
Lemma bot_run u m cdb to_host dlen t t2 f2 t3 r2 st : is_disk m -> ready_for u t -> length cdb = 10%nat -> 0 < dlen <= BOUNCE_BYTES -> 0 <= g_tag u < 2 ^ 32 ->
  effect (if to_host : bool then in_ep di sl din else out_ep di sl dout) g_bounce dlen (t_out (command_block (g_tag u) dlen to_host cdb) t)
    (store g_cbw (command_block (g_tag u) dlen to_host cdb) (memory u)) = (t2, f2, r2) ->
  t_in 13 t2 = (status_block (g_tag u) 0 st, t3) ->
  exists u', bot_xfer disp_w disp_h fuel m cdb to_host g_bounce dlen u = (OK st, u') /\ ready_for u' t3 /\
    agree (store g_csw (status_block (g_tag u) 0 st) f2) (memory u') /\ kept u u' /\ g_tag u' = u32 (g_tag u + 1).
Proof.
  intros Hm Hr Hcdb Hdl Htag Hef Hst. set (tag := g_tag u) in *. set (cmd := command_block tag dlen to_host cdb) in *.
  assert (Hcmd : length cmd = 31%nat) by (unfold cmd, command_block; by rewrite !length_app, !length_le_enc, length_replicate, Hcdb).
  unfold bot_xfer. set (u1 := mkStorage (usb u) (g_msc u) (u32 (tag + 1)) (disks u)). assert (Hx1 : next_tag u = (OK tag, u1)) by done. bstep Hx1.
  rewrite cbw_is_command_block by lia. fold cmd. destruct (ready_store u1 t g_cbw cmd Hr) as (u2 & Hx2 & Hr2 & Hm2 & Hk2 & Ht2). bstep Hx2.
  pose proof Hm as (Hs & Hdi & Hdo).
  destruct (xbulk_run u2 m (out_ep di sl dout) g_cbw 31 t (memory u2) (t_out cmd t) (memory u2) 0) as (u3 & Hx3 & Hr3 & Hm3 & Hk3 & Ht3); [done|by right|apply Hba|lia|done|done| |].
  { unfold effect. cbn. rewrite Hm2. replace 31 with (Z.of_nat (length cmd)) by lia. by rewrite fetch_store. }
  cbn [e_dci out_ep] in Hx3. rewrite Hdo. bstep Hx3. rewrite (proj2 (Z.eqb_neq dlen 0)) by lia. rewrite Hm2 in Hm3.
  assert (Hcb : clean g_bounce dlen) by (intros a Ha; apply (ba_bounce Hba); lia).
  destruct (xbulk_run u3 m (if to_host then in_ep di sl din else out_ep di sl dout) g_bounce dlen _ _ _ _ _ Hm ltac:(destruct to_host; auto) Hcb ltac:(lia) Hr3 Hm3 Hef) as (u4 & Hx4 & Hr4 & Hm4 & Hk4 & Ht4).
  replace (if to_host then in_dci m else dout) with (e_dci (if to_host then in_ep di sl din else out_ep di sl dout)) by (destruct to_host; done). bstep Hx4.
  destruct (xbulk_run u4 m (in_ep di sl din) g_csw 13 t2 f2 t3 (store g_csw (status_block tag 0 st) f2) 0) as (u5 & Hx5 & Hr5 & Hm5 & Hk5 & Ht5); [done|by left|apply Hba|lia|done|done| |].
  { unfold effect. cbn [e_dir in_ep]. rewrite Hst, length_status_block. done. }
  cbn [e_dci in_ep] in Hx5. rewrite Hdi. bstep Hx5.
  assert (Hcsw : fetch 13 g_csw (memory u5) = status_block tag 0 st).
  { etrans; [|apply (fetch_store g_csw (status_block tag 0 st) f2)]. rewrite length_status_block. apply fetch_ext. intros a Ha. symmetry. apply Hm5, (ba_csw Hba), Ha. }
  assert (Hx6 : lift (fetch_at 13 g_csw) u5 = (OK (status_block tag 0 st), u5)) by (unfold lift, fetch_at; rewrite Hcsw; by destruct u5). bstep Hx6.
  destruct (status_fields tag 0 st Htag) as (E1 & E2 & E3). rewrite E1, E2, E3, !Z.eqb_refl. exists u5. split; [done|]. split; [done|]. split; [done|].
  split; [|by rewrite Ht5, Ht4, Ht3, Ht2]. unfold kept in *. cbn in *. intuition congruence.
Qed.

(** ** Requests *)
Record disk_ok (m : msc) (d : ramdisk) : Prop := {
  dk_msc : is_disk m; dk_size : block_size m = rd_bs d; dk_range : 512 <= rd_bs d <= 4096; dk_rd : rd_ok d; dk_count : rd_count d <= 2 ^ 32; dk_writable : rd_writable d = true;
}.

(** The device has the blocks of [d] and waits for a command. *)
Definition serves (u : storage H) (d : ramdisk) : Prop := (exists t, ready_for u t /\ holds t d) /\ 0 <= g_tag u < 2 ^ 32.

(** The blocks of one command. *)
Lemma chunk_range m d nblk : disk_ok m d -> 0 < nblk ->
  let per := BOUNCE_BYTES / block_size m in let chunk := if nblk <? per then nblk else per in
  0 < chunk <= nblk /\ chunk < 2 ^ 16 /\ 0 < chunk * rd_bs d <= BOUNCE_BYTES /\ u32 (chunk * block_size m) = chunk * rd_bs d.
Proof.
  intros [_ Hs Hr _ _ _] Hn. cbv zeta. rewrite Hs.
  assert (Hp : 1 <= BOUNCE_BYTES / rd_bs d <= BOUNCE_BYTES) by (split; [apply Z.div_le_lower_bound|apply Z.div_le_upper_bound]; nia).
  assert (Hm : BOUNCE_BYTES / rd_bs d * rd_bs d <= BOUNCE_BYTES) by (rewrite Z.mul_comm; apply Z.mul_div_le; lia).
  destruct (Z.ltb_spec nblk (BOUNCE_BYTES / rd_bs d)); (split; [lia|]); (split; [lia|]); rewrite u32_small by nia; nia.
Qed.

Lemma read_chunk u m d lba n data : disk_ok m d -> serves u d -> 0 <= lba < 2 ^ 32 -> 0 < n < 2 ^ 16 -> 0 < n * rd_bs d <= BOUNCE_BYTES -> lba + n <= rd_count d ->
  rd_read d lba n = Some data ->
  exists u', bot_xfer disp_w disp_h fuel m (rw_cdb false lba n) true g_bounce (n * rd_bs d) u = (OK 0, u') /\ serves u' d /\ kept u u' /\
    fetch (n * rd_bs d) g_bounce (memory u') = data.
Proof.
  intros Hd [(t & Hr & Hh) Htag] Hlba Hn Hlen Hend Hrd. pose proof Hd as [Hm Hs Hbs Hok _ _].
  assert (Hdata : Z.of_nat (length data) = n * rd_bs d) by (rewrite rd_read_blk in Hrd by lia; injection Hrd as <-; apply length_blocks; done || lia).
  destruct (read_command t d (g_tag u) lba n data Hh Htag Hlba Hn Hrd) as (t1 & t2 & t3 & Ho & Hi & Hc & Hh3). rewrite rw_cdb_is_cdb10 by lia.
  set (f0 := store g_cbw (command_block (g_tag u) (n * rd_bs d) true (cdb10 0x28 lba n)) (memory u)).
  destruct (bot_run u m (cdb10 0x28 lba n) true (n * rd_bs d) t t2 (store g_bounce data f0) t3 0 0) as (u' & Hx & Hr' & Hag & Hk & Htg); try done.
  { unfold effect. cbn [e_dir in_ep]. rewrite Ho, Hi, Hdata, Z.sub_diag. done. }
  exists u'. split; [done|]. split; [split; [by exists t3|rewrite Htg; apply u32_range]|]. split; [done|].
  etrans; [|apply (fetch_store g_bounce data f0)]. rewrite Hdata. apply fetch_ext. intros a Ha. rewrite <- Hag by (apply (ba_bounce Hba); lia).
  apply store_out. rewrite length_status_block. pose proof (ba_csw_bounce Hba). lia.
Qed.

Lemma write_chunk u m d d' lba n data : disk_ok m d -> serves u d -> 0 <= lba < 2 ^ 32 -> 0 < n < 2 ^ 16 -> 0 < n * rd_bs d <= BOUNCE_BYTES ->
  Z.of_nat (length data) = n * rd_bs d -> fetch (n * rd_bs d) g_bounce (memory u) = data -> rd_write d lba n data = Some d' ->
  exists u', bot_xfer disp_w disp_h fuel m (rw_cdb true lba n) false g_bounce (n * rd_bs d) u = (OK 0, u') /\ serves u' d' /\ kept u u'.
Proof.
  intros Hd [(t & Hr & Hh) Htag] Hlba Hn Hlen Hdata Hf Hrd. pose proof Hd as [Hm Hs Hbs Hok _ _].
  destruct (write_command t d d' (g_tag u) lba n data Hh Htag Hlba Hn Hrd) as (t1 & t2 & t3 & Ho & Hi & Hc & Hh3). rewrite rw_cdb_is_cdb10 by lia.
  set (cmd := command_block (g_tag u) (n * rd_bs d) false (cdb10 0x2A lba n)) in *.
  assert (Hf0 : fetch (n * rd_bs d) g_bounce (store g_cbw cmd (memory u)) = data).
  { rewrite <- Hf. apply fetch_ext. intros a Ha. apply store_out. unfold cmd. rewrite length_command_block. pose proof (ba_cbw_bounce Hba). lia. }
  destruct (bot_run u m (cdb10 0x2A lba n) false (n * rd_bs d) t t2 (store g_cbw cmd (memory u)) t3 0 0) as (u' & Hx & Hr' & Hag & Hk & Htg); try done.
  { unfold effect. cbn [e_dir out_ep]. fold cmd. rewrite Hf0, Ho, Hi. done. }
  exists u'. split; [done|]. split; [split; [by exists t3|rewrite Htg; apply u32_range]|done].
Qed.

Lemma kept_trans u1 u2 u3 : kept u1 u2 -> kept u2 u3 -> kept u1 u3.
Proof. intros [? ?] [? ?]. split; congruence. Qed.

Lemma read_loop_run m d n : disk_ok m d -> forall u lba nblk, serves u d -> 0 <= lba -> 0 <= nblk <= Z.of_nat n -> lba + nblk <= rd_count d ->
  exists u' bs, read_loop disp_w disp_h fuel n m lba nblk u = (OK bs, u') /\ rd_read d lba nblk = Some bs /\ serves u' d /\ kept u u'.
Proof.
  intros Hd. pose proof (dk_count _ _ Hd). induction n as [|n IH]; intros u lba nblk Hu Hlba Hn Hend.
  { replace nblk with 0 by lia. exists u, []. split; [done|]. rewrite rd_read_blk by lia. done. }
  cbn [read_loop]. destruct (Z.eqb_spec nblk 0) as [->|Hnz]; [exists u, []; split; [done|]; rewrite rd_read_blk by lia; done|].
  destruct (chunk_range m d nblk Hd ltac:(lia)) as (Hc & Hc16 & Hcb & ->). set (chunk := if _ <? _ then _ else _) in *.
  destruct (read_chunk u m d lba chunk _ Hd Hu ltac:(lia) ltac:(lia) Hcb ltac:(lia) (rd_read_blk d lba chunk ltac:(lia) ltac:(lia) ltac:(lia))) as (u1 & Hx & Hu1 & Hk1 & Hf). bstep Hx. cbn [Z.eqb negb].
  assert (Hg : lift (fetch_at (chunk * rd_bs d) g_bounce) u1 = (OK (concat (rd_blk d <$> seqZ lba chunk)), u1)) by (unfold lift, fetch_at; rewrite Hf; by destruct u1). bstep Hg.
  rewrite u64_small by lia. destruct (IH u1 (lba + chunk) (nblk - chunk) Hu1) as (u2 & bs & Hr & Hrd & Hu2 & Hk2); [lia..|]. bstep Hr.
  eexists u2, _. split; [done|]. split; [|split; [done|by eapply kept_trans]].
  replace nblk with (chunk + (nblk - chunk)) at 1 by lia. eapply rd_read_app; [lia..| |exact Hrd]. apply rd_read_blk; lia.
Qed.

Lemma rd_write_none d lba : 0 <= lba <= rd_count d -> rd_writable d = true -> rd_write d lba 0 [] = Some d.
Proof.
  intros Hl Hw. unfold rd_write, rd_in_range. rewrite !(proj2 (Z.leb_le _ _)), Hw by lia. cbn. f_equal. change (chunks (Z.to_nat 0) _ _) with (@nil (list Z)).
  unfold splice. cbn. rewrite Nat.add_0_r, take_drop, <- Hw. by destruct d.
Qed.

(** Writing keeps the geometry. *)
Lemma disk_ok_write m d d' : disk_ok m d -> rd_ok d' -> same_geometry d d' -> disk_ok m d'.
Proof.
  intros [Hm Hs Hr Hok Hc Hw] Hok' (_ & E1 & E2 & E3). cbn in E1, E2, E3. split; [done|congruence|by rewrite E1|done|by rewrite E2|congruence].
Qed.

Lemma write_loop_run m n : forall d u lba nblk data, disk_ok m d -> serves u d -> 0 <= lba -> 0 <= nblk <= Z.of_nat n -> lba + nblk <= rd_count d ->
  Z.of_nat (length data) = nblk * rd_bs d ->
  exists u' d', write_loop disp_w disp_h fuel n m lba nblk data u = (OK tt, u') /\ rd_write d lba nblk data = Some d' /\ serves u' d' /\ disk_ok m d' /\ kept u u'.
Proof.
  assert (Hzero : forall d u lba data, disk_ok m d -> serves u d -> 0 <= lba <= rd_count d -> Z.of_nat (length data) = 0 * rd_bs d ->
    exists u' d', ret tt u = (OK tt, u') /\ rd_write d lba 0 data = Some d' /\ serves u' d' /\ disk_ok m d' /\ kept u u').
  { intros d u lba data Hd Hu Hlba Hlen. destruct data; [|cbn in Hlen; lia]. exists u, d. split; [done|]. split; [|done]. apply rd_write_none; [lia|apply Hd]. }
  induction n as [|n IH]; intros d u lba nblk data Hd Hu Hlba Hn Hend Hlen; [replace nblk with 0 in * by lia; apply Hzero; done || lia|].
  pose proof (dk_count _ _ Hd). pose proof (dk_range _ _ Hd). cbn [write_loop]. destruct (Z.eqb_spec nblk 0) as [->|Hnz]; [apply Hzero; done || lia|].
  destruct (chunk_range m d nblk Hd ltac:(lia)) as (Hc & Hc16 & Hcb & ->). set (chunk := if _ <? _ then _ else _) in *.
  assert (chunk * rd_bs d <= nblk * rd_bs d) by (apply Z.mul_le_mono_nonneg_r; lia).
  assert (Hp : Z.of_nat (length (take (Z.to_nat (chunk * rd_bs d)) data)) = chunk * rd_bs d) by (rewrite length_take; lia).
  rewrite (proj2 (Z.ltb_ge _ _)) by lia. set (p := take _ data) in *.
  destruct (rd_write_blk d lba chunk p (dk_rd _ _ Hd) (dk_writable _ _ Hd) Hlba ltac:(lia) ltac:(lia) Hp) as (d1 & Hw1 & Hok1 & Hg1 & _).
  assert (Hd1 : disk_ok m d1) by (by eapply disk_ok_write). assert (rd_bs d1 = rd_bs d /\ rd_count d1 = rd_count d) as [Eb Ec] by (split; apply Hg1).
  destruct Hu as [(t & Hr & Hh) Htag]. destruct (ready_store u t g_bounce p Hr) as (u1 & Hst & Hr1 & Hm1 & Hk1 & Ht1). bstep Hst.
  destruct (write_chunk u1 m d d1 lba chunk p Hd) as (u2 & Hx & Hu2 & Hk2); try done; try lia.
  { split; [by exists t|by rewrite Ht1]. }
  { rewrite Hm1, <- Hp. apply fetch_store. }
  bstep Hx. cbn [Z.eqb negb]. rewrite u64_small by lia.
  destruct (IH d1 u2 (lba + chunk) (nblk - chunk) (drop (Z.to_nat (chunk * rd_bs d)) data) Hd1 Hu2) as (u3 & d2 & Hrun & Hw2 & Hu3 & Hd2 & Hk3); [lia|lia|lia|rewrite length_drop, Eb; lia|].
  exists u3, d2. split; [done|]. split; [|split; [done|]; split; [done|]; eapply kept_trans; [done|by eapply kept_trans]].
  replace nblk with (chunk + (nblk - chunk)) by lia. eapply rd_write_app; [lia|lia|lia|exact Hw1|exact Hw2].
Qed.

(** The disk behind [driver_priv]: its [struct msc] and the device. *)
Definition usb_disk_has (priv : nat) (u : storage H) (d : ramdisk) : Prop := (exists m, g_msc u !! priv = Some m /\ disk_ok m d) /\ serves u d.

(** C10.  A USB disk is a block device.  On a controller that keeps the rules of
    xHCI and answers a doorbell within [bound] polls, and a disk that answers
    READ(10) and WRITE(10), every request inside of the disk succeeds: a read
    returns the blocks the disk has, a write leaves the disk the block device
    would become, and the driver is ready for the next request.  This holds
    whatever reports of keyboards and mice and other events the controller
    mixes in, for any number of blocks (the request is cut into commands of
    8 KiB), across every wrap of the transfer rings and of the event ring. *)
Theorem usb_disk_is_block_device priv u d lba n : usb_disk_has priv u d -> 0 <= lba -> 0 <= n -> lba + n <= bd_block_count d ->
  (exists u' bs, usb_read disp_w disp_h fuel priv lba n u = (OK bs, u') /\ bd_read d lba n = Some bs /\ usb_disk_has priv u' d) /\
  (forall buf, Z.of_nat (length buf) = n * bd_block_size d ->
     exists u' d', usb_write disp_w disp_h fuel priv lba n buf u = (OK tt, u') /\ bd_write d lba n buf = Some d' /\ usb_disk_has priv u' d').
Proof.
  intros [(m & Hm & Hd) Hu] Hlba Hn Hend. pose proof (dk_range _ _ Hd). assert (Hg : the_msc priv u = (OK m, u)) by (unfold the_msc; by rewrite Hm).
  assert (Hnz : (block_size m =? 0) = false) by (apply Z.eqb_neq; rewrite (dk_size _ _ Hd); lia). split.
  - destruct (read_loop_run m d (Z.to_nat n) Hd u lba n Hu Hlba ltac:(lia) Hend) as (u' & bs & Hr & Hrd & Hu' & Hk & _).
    exists u', bs. unfold usb_read. bstep Hg. rewrite Hnz. split; [done|]. split; [done|]. split; [|done]. exists m. by rewrite Hk.
  - intros buf Hb. destruct (write_loop_run m (Z.to_nat n) d u lba n buf Hd Hu Hlba ltac:(lia) Hend Hb) as (u' & d' & Hr & Hw & Hu' & Hd' & Hk & _).
    exists u', d'. unfold usb_write. bstep Hg. rewrite Hnz. split; [done|]. split; [done|]. split; [|done]. exists m. by rewrite Hk.
Qed.
End storage.
