(* ===== verification/UsbDemo.v ===== *)
(** * A machine with a USB disk and a keyboard

    A controller that serves its endpoints in turn, a disk of the bulk-only
    transport and a keyboard that sends a report whenever it is asked: they keep
    the laws of [UsbSpec], and the drivers run on them. *)
From stdpp Require Import functions relations.
From S2P Require Import Prelude Bytes Disk Input Xhci XhciInit UsbStorage UsbSpec UsbRings UsbBulk UsbDriver UsbProps.

#[local] Instance demo_layout : Layout := {
  ring_at := fun r => match r with
    | CmdRing => 0x1000 | EvtRing => 0x2000 | Ep0Ring i => 0x3000 + 256 * Z.of_nat i | IntRing i => 0x4000 + 256 * Z.of_nat i
    | BinRing i => 0x5000 + 256 * Z.of_nat i | BoutRing i => 0x6000 + 256 * Z.of_nat i end;
  g_report := fun i => 0x7000 + 64 * Z.of_nat i; g_dev_ctx := fun i => 0x8000 + 2048 * Z.of_nat i; g_scratch_bufs := fun i => 0x20000 + 4096 * Z.of_nat i;
  g_dcbaa := 0x10000; g_erst := 0x10800; g_scratch_arr := 0x11000; g_descbuf := 0x12000; g_input_ctx := 0x13000; g_setupbuf := 0x14000;
}.
#[local] Instance demo_buffers : StorageLayout := { g_cbw := 0xC000; g_csw := 0xC040; g_bounce := 0xE000 }.

(** ** The disk *)
Inductive bot_phase : Type := Waiting | Sending (data : list Z) (tag : Z) | Receiving (lba n tag : Z) | Reporting (tag : Z).
Record bot : Type := mkBot { content : ramdisk; phase : bot_phase }.

Definition command (bs : list Z) : Z * Z * Z * Z :=
  (le_dec (slice 4 4 bs), default 0 (bs !! 15%nat), le_dec (rev (slice 17 4 bs)), default 0 (bs !! 22%nat) * 256 + default 0 (bs !! 23%nat)).

#[local] Instance bot_target : Target bot := {
  t_out := fun bs t =>
    match phase t with
    | Waiting =>
        let '(tag, op, lba, n) := command bs in
        mkBot (content t) (if op =? 0x28 then Sending (default [] (rd_read (content t) lba n)) tag else if op =? 0x2A then Receiving lba n tag else Reporting tag)
    | Receiving lba n tag => mkBot (default (content t) (rd_write (content t) lba n bs)) (Reporting tag)
    | _ => t
    end;
  t_in := fun len t =>
    match phase t with
    | Sending data tag => (take (Z.to_nat len) data, mkBot (content t) (Reporting tag))
    | Reporting tag => (take (Z.to_nat len) (status_block tag 0 0), mkBot (content t) Waiting)
    | _ => ([], t)
    end;
}.

Lemma command_parsed tag dlen b op lba n : 0 <= tag < 2 ^ 32 -> 0 <= lba < 2 ^ 32 -> command (command_block tag dlen b (cdb10 op lba n)) = (tag, op, lba, n).
Proof.
  intros Ht Hl. unfold command.
  replace (slice 4 4 _) with (le_enc 4 tag) by done. replace (slice 17 4 _) with (be4 lba) by done. unfold be4. rewrite rev_involutive, !le_dec_enc, !Z.mod_small by done.
  cbn. f_equal. Z.div_mod_to_equations. lia.
Qed.

Lemma rd_write_ok d d' lba n data : rd_ok d -> rd_write d lba n data = Some d' -> rd_ok d'.
Proof.
  intros Hd Hw. pose proof Hw as E. unfold rd_write, rd_in_range in E. destruct (_ && _) eqn:Eb in E; [|done].
  rewrite !andb_true_iff, !Z.leb_le, Z.eqb_eq in Eb. destruct Eb as [[[[? ?] ?] ?] ?].
  destruct (rd_write_blk d lba n data) as (d1 & Hd1 & ? & _); try done. by rewrite Hw in Hd1; simplify_eq.
Qed.

#[local] Program Instance bot_laws : DiskLaws := { holds t d := phase t = Waiting /\ content t = d /\ rd_ok d }.
Next Obligation.
  intros [c ph] d tag lba n data (Hp & Hc & Hok) Ht Hl Hn Hr. cbn [phase content] in *. subst c ph. cbn -[command command_block cdb10 rd_read]. rewrite command_parsed by done.
  cbn -[rd_read]. rewrite Hr. exists (mkBot d (Sending data tag)), (mkBot d (Reporting tag)), (mkBot d Waiting). split; [done|]. split; [|done]. cbn [t_in bot_target phase content]. f_equal. apply firstn_all2.
  unfold rd_read in Hr. destruct (rd_in_range d lba n) eqn:E; [|done]. unfold rd_in_range in E. rewrite !andb_true_iff, !Z.leb_le in E.
  assert (Hr' : rd_read d lba n = Some data) by (unfold rd_read, rd_in_range; by rewrite !(proj2 (Z.leb_le _ _)) by lia).
  rewrite rd_read_blk in Hr' by lia. injection Hr' as <-. pose proof (length_blocks d lba n Hok). lia.
Qed.
Next Obligation.
  intros [c ph] d d' tag lba n data (Hp & Hc & Hok) Ht Hl Hn Hw. cbn [phase content] in *. subst c ph. cbn -[command command_block cdb10 rd_write]. rewrite command_parsed by done.
  cbn -[rd_write]. eexists _, _, _. split; [done|]. split; [done|]. cbn -[rd_write]. rewrite Hw. split; [done|].
  cbn. split; [done|]. split; [done|]. by eapply rd_write_ok.
Qed.

(** ** The controller *)
Definition demo_eps : list endpoint := [mkEndpoint 1 3 (IntRing 0) Interrupt; in_ep 1 2 3; out_ep 1 2 4].
Record demo_hc : Type := mkDemo { dchip : chip bot; turn : nat }.

Definition room_b (c : chip bot) : bool := negb (ring_at EvtRing + 16 * ((idx (enq c) + 1) mod EVT_SZ) =? (erdp_hi c * 2 ^ 32 + erdp_lo c) / 16 * 16).
Definition serve (e : endpoint) (m : dma) (c : chip bot) : dma * chip bot :=
  match ready m c (e_ring e) with
  | None => (m, c)
  | Some (cur, t) =>
      match e_dir e with
      | Out => complete e cur t CC_SUCCESS 0 m (set_tgt (t_out (fetch (trb_len t) (param t) (ram m)) (tgt c)) c)
      | In => let '(bs, d) := t_in (trb_len t) (tgt c) in deliver e cur t bs m (set_tgt d c)
      | Interrupt => deliver e cur t (take (Z.to_nat (trb_len t)) [0; 0; 4; 0; 0; 0; 0; 0]) m c
      end
  end.

#[local] Instance demo_controller : Controller demo_hc := {
  hc_rd := fun _ h => (0, h);
  hc_wr := fun a v h =>
    let c := dchip h in
    if a =? 0x100038 then mkDemo (mkChip (enq c) v (erdp_hi c) (deq c) (tgt c)) (turn h)
    else if a =? 0x10003C then mkDemo (mkChip (enq c) (erdp_lo c) v (deq c) (tgt c)) (turn h) else h;
  hc_run := fun m h =>
    if room_b (dchip h) then
      match demo_eps !! (turn h mod 3)%nat with
      | Some e => let '(m', c') := serve e m (dchip h) in (m', mkDemo c' (S (turn h)))
      | None => (m, h)
      end
    else (m, h);
}.

Lemma room_b_spec c : room_b c = true <-> event_room c.
Proof. unfold room_b, event_room. by rewrite negb_true_iff, Z.eqb_neq. Qed.

Lemma t_in_short len t : 0 <= len -> Z.of_nat (length (fst (t_in len t))) <= len.
Proof. intros Hl. cbn. destruct (phase t); cbn; rewrite ?length_take; lia. Qed.

Lemma serve_step e m c : e ∈ demo_eps -> event_room c -> rtc (hc_step demo_eps) (m, c) (serve e m c).
Proof.
  intros He Hroom. unfold serve. destruct (ready m c (e_ring e)) as [[cur t]|] eqn:Hr; [|done]. pose proof (trb_len_range t) as Hl. destruct (e_dir e) eqn:Hd.
  - apply rtc_once. by apply bulk_out_step.
  - pose proof (t_in_short (trb_len t) (tgt c) ltac:(lia)) as Hs. destruct (t_in (trb_len t) (tgt c)) as [bs d] eqn:Ht. apply rtc_once. by eapply bulk_in_step.
  - apply rtc_once. apply interrupt_step; try done. rewrite length_take. lia.
Qed.

Lemma serve_moves e m c cur t : ready m c (e_ring e) = Some (cur, t) -> deq (snd (serve e m c)) (e_ring e) = mkCursor (idx cur + 1) (cycle cur).
Proof.
  intros Hr. unfold serve. rewrite Hr. destruct (e_dir e); [|destruct (t_in (trb_len t) (tgt c)) as [bs d]|]; cbn [snd complete deliver post deq]; apply fn_lookup_insert.
Qed.

Definition position (r : ring_name) : nat := match r with IntRing _ => 0 | BinRing _ => 1 | _ => 2 end.
Definition demo_patience (h : demo_hc) (r : ring_name) : nat := (position r + 3 - turn h mod 3) mod 3.

Lemma demo_position e i : e ∈ demo_eps -> demo_eps !! (i mod 3)%nat = Some e <-> position (e_ring e) = (i mod 3)%nat.
Proof.
  intros He. pose proof (Nat.mod_upper_bound i 3 ltac:(lia)) as Hm. unfold demo_eps in He. rewrite !elem_of_cons, elem_of_nil in He.
  destruct (i mod 3)%nat as [|[|[|k]]]; [..|lia]; destruct He as [-> | [-> | [-> | []]]]; cbn; split; intros; simplify_eq; done.
Qed.

Lemma patience_next p i : (p < 3)%nat -> p <> (i mod 3)%nat -> ((p + 3 - S i mod 3) mod 3 < (p + 3 - i mod 3) mod 3)%nat.
Proof.
  intros Hp Hne. pose proof (Nat.mod_upper_bound i 3 ltac:(lia)) as Hm. 
  assert ((S i mod 3 = (i mod 3 + 1) mod 3)%nat) as -> by (rewrite Nat.Div0.add_mod_idemp_l; f_equal; lia).
  destruct (i mod 3)%nat as [|[|[|k]]]; [..|lia]; destruct p as [|[|[|p]]]; try lia; vm_compute; lia.
Qed.

#[local] Program Instance demo_laws : ChipLaws demo_eps demo_hc 0x100000 0x200000 2 := { chip_of := dchip; patience := demo_patience }.
Next Obligation.
  intros m h m' h' Hrun. cbn [hc_run demo_controller] in Hrun. destruct (room_b (dchip h)) eqn:Hroom; [|by simplify_eq]. apply room_b_spec in Hroom.
  destruct (demo_eps !! _) as [e|] eqn:He; [|by simplify_eq]. pose proof (serve_step e m (dchip h) ltac:(by eapply list_elem_of_lookup_2) Hroom) as Hst.
  destruct (serve e m (dchip h)) as [m1 c1]. by simplify_eq.
Qed.
Next Obligation.
  intros m h m' h' e cur t Hrun He Hroom Hr Hne. cbn [hc_run demo_controller] in Hrun. rewrite (proj2 (room_b_spec _) Hroom) in Hrun.
  destruct (decide (position (e_ring e) = (turn h mod 3)%nat)) as [Ep|Ep].
  - left. rewrite (proj2 (demo_position e (turn h) He) Ep) in Hrun. pose proof (serve_moves _ _ _ _ _ Hr) as Hd. destruct (serve e m (dchip h)) as [m1 c1]. simplify_eq. cbn in *. congruence.
  - right. pose proof (Nat.mod_upper_bound (turn h) 3 ltac:(lia)) as Hm.
    assert (exists e', demo_eps !! (turn h mod 3)%nat = Some e') as [e' He'] by (apply lookup_lt_is_Some_2; cbn; lia). rewrite He' in Hrun.
    destruct (serve e' m (dchip h)) as [m1 c1]. simplify_eq. unfold demo_patience. cbn [turn]. apply patience_next; [|done]. destruct (e_ring e); cbn; lia.
Qed.
Next Obligation.
  intros m h m' h' r Hrun Hroom. cbn [hc_run demo_controller] in Hrun. destruct (room_b (dchip h)) eqn:E; [by apply room_b_spec in E|]. by simplify_eq.
Qed.
Next Obligation. done. Qed.
Next Obligation. done. Qed.
Next Obligation. intros a v h r _. unfold demo_patience. cbn. destruct (a =? 0x100038); [done|]. by destruct (a =? 0x10003C). Qed.
Next Obligation. intros k v h Hk. cbn. by rewrite !(proj2 (Z.eqb_neq _ _)) by lia. Qed.
Next Obligation.
  intros e h _. unfold demo_patience. pose proof (Nat.mod_upper_bound (position (e_ring e) + 3 - turn (hc_wr (0x200000 + 4 * e_slot e) (e_dci e) h) mod 3) 3 ltac:(lia)). lia.
Qed.
Next Obligation.
  intros e h r _ _. unfold demo_patience. cbn [hc_wr demo_controller]. set (a := _ + _). destruct (a =? 0x100038); [done|]. by destruct (a =? 0x10003C).
Qed.

(** ** The machine: a keyboard in slot 1, the disk in slot 2 *)
Definition demo_disk : ramdisk := mkRam CANBOOT_DISK_KIND_VIRTIO_BLK 512 true ((fun i => replicate 512 i) <$> seqZ 0 20).
Definition demo_devs : list usb_dev :=
  [mkDev true USB_KEYBOARD 1 1 3 (mkIntEp 0x81 3 8 false (mkCursor 0 1) (replicate 8 0)) (mkCursor 0 1) (mkBulkEp 0 0 0 0 (mkCursor 0 0) (mkCursor 0 0));
   mkDev true USB_MSC 2 2 3 (mkIntEp 0 0 0 false (mkCursor 0 0) (replicate 8 0)) (mkCursor 0 1) (mkBulkEp 3 4 512 512 (mkCursor 0 1) (mkCursor 0 1)); zero_dev; zero_dev].
Definition demo_idle : xhci demo_hc :=
  mkXhci (mkDemo (mkChip (mkCursor 0 1) 0x2000 0 (fun _ => mkCursor 0 1) (mkBot demo_disk Waiting)) 0)
    (mkDma (fun r => match r with EvtRing => replicate 64 (mkTrb 0 0 0) | _ => fresh_ring r end) (fun _ => 0))
    demo_devs (mkCursor 0 1) (mkCursor 0 1) (mkMmio 0 0 0x100000 0x200000 32) false true true
    (mkInput (replicate 256 (mkEvent 0 0 0 0 0 0 0)) 0 0 0 0 [XHCI_PUMP] (mkMouse 0 0 0 0 false false)).

(** With a report of the keyboard on its way. *)
Definition demo_usb : storage demo_hc := mkStorage (snd (queue_report 0 demo_idle)) [mkMsc 2 3 4 512 20] 1 (Registry.mkRegistry []).

Lemma demo_config : config demo_eps 1 2 3 4.
Proof.
  split; [done|unfold demo_eps; rewrite !elem_of_cons; auto|unfold demo_eps; rewrite !elem_of_cons; auto| | |cbn; split; [done|lia]]; intros e He; unfold demo_eps in He;
    rewrite !elem_of_cons, elem_of_nil in He; destruct He as [-> | [-> | [-> | []]]]; cbn; try lia; [|by left|by right; left].
  right. right. split; [done|]. split; [done|]. by exists 0%nat.
Qed.

Lemma demo_idle_core : in_core demo_eps 1 2 3 4 0x100000 0x200000 2 demo_idle None [].
Proof.
  split.
  - split; [done|by eexists| | |].
    + intros [|[|[|[|j]]]] d Hd Hu Hs; cbn in Hd; simplify_eq; done.
    + intros [|[|[|[|j]]]] d Hd Hu Hk; cbn in Hd; simplify_eq; try done. cbn. split; [unfold demo_eps; rewrite !elem_of_cons; auto|lia].
    + intros e j He Hr. unfold demo_eps in He. rewrite !elem_of_cons, elem_of_nil in He. destruct He as [-> | [-> | [-> | []]]]; cbn in Hr; simplify_eq. by eexists.
  - exists 0. apply fresh_evt.
  - done.
  - intros [|[|[|[|j]]]] d Hd Hu Hk; cbn in Hd; simplify_eq; try done. apply fresh_report.
  - intros d e Hd [-> | ->]; cbn in Hd; simplify_eq; apply fresh_idle.
Qed.

Lemma demo_buffers_apart : buffers_apart.
Proof. split; try (cbn; lia); intros a Ha (j & Hj & Hr); cbn in Ha, Hr; lia. Qed.

Lemma demo_has_disk : usb_disk_has demo_eps 1 2 3 4 0x100000 0x200000 2 0 demo_usb demo_disk.
Proof.
  split; [eexists; split; [done|]; split; try done; by apply rd_ok_dec; vm_compute|]. split; [|cbn; lia]. exists (mkBot demo_disk Waiting).
  destruct (queue_report_run demo_eps 1 2 3 4 0x100000 0x200000 2 demo_config demo_idle None [] 0 _ demo_idle_core eq_refl eq_refl ltac:(done) eq_refl) as (s' & Hq & Hb).
  split; [|split; [done|]; split; [done|]; apply rd_ok_dec; by vm_compute]. unfold demo_usb. cbn [usb]. rewrite Hq. cbn [snd].
  destruct Hb as [Hc Hch _ (E1 & _ & E3) _]. split; [exists []; split; [by apply Hc, demo_idle_core|done]|by rewrite Hch|by rewrite E1|by rewrite E1|by rewrite E3].
Qed.

(** Blocks 1 to 18 in two commands, with a report of the keyboard in between. *)
Lemma usb_disk_is_block_device_witness : exists u', usb_read 0 0 100 0 1 18 demo_usb = (OK (concat ((fun i => replicate 512 i) <$> seqZ 1 18)), u').
Proof.
  destruct (usb_disk_is_block_device demo_eps 1 2 3 4 0x100000 0x200000 2 0 0 100 demo_config demo_buffers_apart ltac:(lia) ltac:(lia)
    0 demo_usb demo_disk 1 18 demo_has_disk ltac:(lia) ltac:(lia) ltac:(vm_compute; discriminate)) as [(u' & bs & Hr & Hb & _) _].
  exists u'. rewrite Hr. do 2 f_equal. apply (inj Some). rewrite <- Hb. vm_compute. reflexivity.
Defined.
