(* ===== verification/UsbHid.v ===== *)
(** * Keyboards on USB

    A boot keyboard reports the keys that are down; [emit_keys] turns the
    difference of two reports into events.  Whatever sequence of reports
    arrives, the events of each key alternate, and end with the state the key
    has in the last report. *)
From stdpp Require Import functions relations.
From S2P Require Import Prelude Bytes Disk Input Xhci XhciInit UsbStorage UsbSpec UsbRings UsbDemo.

(** ** One key *)
Definition keyed (u : Z) : Prop := hid_to_code u false <> 0.

Lemma keyed_shift u b : 0 <= u < 256 -> hid_to_code u b <> 0 <-> keyed u.
Proof.
  intros Hu. unfold keyed. destruct b; [|done].
  assert (E : forallb (fun u => eqb (hid_to_code u true =? 0) (hid_to_code u false =? 0)) (seqZ 0 256) = true) by (vm_compute; reflexivity).
  rewrite forallb_forall in E. specialize (E u). rewrite <- list_elem_of_In, elem_of_seqZ in E. apply eqb_prop in E; [|lia].
  destruct (Z.eqb_spec (hid_to_code u true) 0), (Z.eqb_spec (hid_to_code u false) 0); done.
Qed.

(** Down and up in turn, from one state of the key to another. *)
Inductive alternates : bool -> list Z -> bool -> Prop :=
| alt_nil b : alternates b [] b
| alt_down l b : alternates true l b -> alternates false (CANBOOT_EV_KEY_DOWN :: l) b
| alt_up l b : alternates false l b -> alternates true (CANBOOT_EV_KEY_UP :: l) b.

Lemma alternates_app a l b k c : alternates a l b -> alternates b k c -> alternates a (l ++ k) c.
Proof. induction 1; [done| |]; intros; constructor; auto. Qed.

(** The changes of key [u] in a list of events. *)
Definition changes (u : Z) (evs : list canboot_event) : list Z := type <$> filter (fun ev => raw ev = u) evs.

Lemma changes_app u a b : changes u (a ++ b) = changes u a ++ changes u b.
Proof. unfold changes. by rewrite filter_app, fmap_app. Qed.

(** A report of eight bytes, in which no key occurs twice. *)
Definition report_ok (rep : list Z) : Prop := length rep = 8%nat /\ Forall byte_ok rep /\ NoDup (filter (fun u => u <> 0) (usages rep)).

Lemma filter_one (P : Z -> Prop) `{!forall x, Decision (P x)} u (l : list Z) : u <> 0 -> NoDup (filter (fun u => u <> 0) l) ->
  filter (fun x => x = u) (filter P l) = if decide (u ∈ l /\ P u) then [u] else [].
Proof.
  intros Hu. induction l as [|x l IH]; [cbn; intros _; rewrite decide_False by (intros [E _]; by apply elem_of_nil in E); done|].
  intros Hnd. assert (Hl : NoDup (filter (fun u => u <> 0) l)) by (rewrite filter_cons in Hnd; case_decide; [by apply NoDup_cons in Hnd as [_ ?]|done]).
  specialize (IH Hl). destruct (decide (x = u)) as [->|Hne].
  - assert (Hni : u ∉ l). { rewrite filter_cons_True in Hnd by done. apply NoDup_cons in Hnd as [Hn _]. intros Hin. apply Hn. by apply list_elem_of_filter. }
    rewrite decide_False in IH by tauto. destruct (decide (P u)).
    + rewrite !filter_cons_True by done. rewrite IH, decide_True; [done|]. split; [left|done].
    + rewrite filter_cons_False by done. rewrite IH, decide_False; [done|tauto].
  - assert (E : filter (fun x => x = u) (filter P (x :: l)) = filter (fun x => x = u) (filter P l)).
    { rewrite (filter_cons P). destruct (decide (P x)); [by rewrite filter_cons_False|done]. }
    rewrite E, IH. apply decide_ext. rewrite elem_of_cons. intuition congruence.
Qed.

Lemma filter_raw (f : Z -> canboot_event) u (l : list Z) : (forall x, raw (f x) = x) -> filter (fun ev => raw ev = u) (f <$> l) = f <$> filter (fun x => x = u) l.
Proof.
  intros Hf. induction l as [|x l IH]; [done|]. rewrite fmap_cons, !filter_cons, Hf, IH. by destruct (decide (x = u)).
Qed.

Lemma changes_keys u ty shift rep other : report_ok rep -> keyed u -> 0 <= u < 256 -> u <> 0 ->
  changes u (key_events ty shift rep other) = if decide (u ∈ usages rep /\ report_has other u = false) then [ty] else [].
Proof.
  intros (_ & _ & Hnd) Hk Hr Hu. unfold changes, key_events. rewrite filter_raw by done. rewrite filter_one by done.
  pose proof (proj2 (keyed_shift u shift Hr) Hk). destruct (decide (u ∈ usages rep /\ report_has other u = false)) as [[? ?]|Hn].
  - by rewrite decide_True.
  - rewrite decide_False; [done|tauto].
Qed.

Lemma report_has_elem rep u : report_has rep u = bool_decide (u ∈ usages rep).
Proof.
  unfold report_has. apply Bool.eq_iff_eq_true. rewrite existsb_exists, bool_decide_eq_true. setoid_rewrite <- list_elem_of_In. setoid_rewrite Z.eqb_eq. split; [intros (v & ? & ->); done|intros ?; by exists u].
Qed.

(** The events of one report after another. *)
Definition report_events (old rep : list Z) : list canboot_event :=
  let shift := negb (Z.land (default 0 (rep !! 0%nat)) 0x22 =? 0) in
  key_events CANBOOT_EV_KEY_DOWN shift rep old ++ key_events CANBOOT_EV_KEY_UP shift old rep.

Lemma report_changes old rep u : report_ok old -> report_ok rep -> keyed u -> 0 < u < 256 ->
  alternates (report_has old u) (changes u (report_events old rep)) (report_has rep u).
Proof.
  intros Ho Hr Hk Hu. unfold report_events. rewrite changes_app, !changes_keys by (done || lia). rewrite !report_has_elem.
  destruct (decide (u ∈ usages old)), (decide (u ∈ usages rep)); rewrite ?(bool_decide_true (u ∈ _)), ?(bool_decide_false (u ∈ _)) by done.
  all: repeat case_decide; try (exfalso; intuition congruence); repeat constructor.
Qed.

(** ** The driver *)
Section keyboard.
Context {H : Type} `{Controller H} `{Layout}.
Variables (disp_w disp_h : Z) (di : nat) (ev : trb).

(** Device [di] is a keyboard in the slot of the event, whose last report was
    [old]. *)
Record keyboard (s : xhci H) (d : usb_dev) (old : list Z) : Prop := {
  kb_dev : g_dev s !! di = Some d;
  kb_max : (di < 4)%nat;
  kb_used : used d = true;
  kb_kind : kind d = USB_KEYBOARD;
  kb_slot : slot d = ev_slot ev;
  kb_first : forall j x, (j < di)%nat -> g_dev s !! j = Some x -> ~ (used x = true /\ slot x = ev_slot ev);
  kb_last : last (intr d) = old;
  kb_ring : report_ring (rings (mem s) (IntRing di)) (int_at (intr d)) (g_report di) (int_mps (intr d));
}.

(** The controller stores each report and posts the event for it. *)
Fixpoint reported (reps : list (list Z)) : M (xhci H) unit :=
  match reps with
  | [] => ret tt
  | rep :: reps' => store_at (g_report di) rep ;;! route_hid_event disp_w disp_h ev ;;! reported reps'
  end.

Lemma push_all_app a b i : push_all (a ++ b) i = push_all b (push_all a i).
Proof. unfold push_all. apply fold_left_app. Qed.

Lemma keyboard_by_slot s d old : keyboard s d old -> dev_by_slot (ev_slot ev) s = (OK (Some di), s).
Proof.
  intros [Hd Hm Hu _ Hs Hf _ _]. unfold dev_by_slot. do 2 f_equal. apply fmap_Some. exists (di, d). split; [|done].
  apply list_find_Some. split_and!; [by rewrite lookup_take_lt|done|done|]. intros j x Hj Hlt. rewrite lookup_take_lt in Hj by lia. by apply (Hf j x).
Qed.

Lemma report_run s d old rep : keyboard s d old -> length rep = 8%nat -> cc_good (ev_cc ev) = true ->
  exists s' d', (store_at (g_report di) rep ;;! route_hid_event disp_w disp_h ev) s = (OK tt, s') /\ keyboard s' d' rep /\ inp s' = push_all (report_events old rep) (inp s).
Proof.
  intros Hkb Hl Hcc. pose proof Hkb as [Hd Hm Hu Hk Hs Hf Hla Hr]. pose proof (lookup_lt_Some _ _ _ Hd) as Hlt.
  set (s1 := set_mem (mkDma (rings (mem s)) (store (g_report di) rep (ram (mem s)))) s). assert (Hst : store_at (g_report di) rep s = (OK tt, s1)) by done. bstep Hst.
  assert (Hkb1 : keyboard s1 d old) by done. unfold route_hid_event. rewrite (bind_OK _ _ _ _ _ (keyboard_by_slot _ _ _ Hkb1)).
  assert (Hg : dev di s1 = (OK d, s1)) by (unfold dev; cbn; by rewrite Hd). bstep Hg. rewrite Hk, Hcc. change (USB_KEYBOARD =? USB_MSC) with false. change (USB_KEYBOARD =? USB_MOUSE) with false. cbv iota.
  set (d1 := set_intr (mkIntEp (int_epaddr (intr d)) (int_dci (intr d)) (int_mps (intr d)) (int_pending (intr d)) (int_at (intr d)) rep) d).
  set (s2 := set_devs (<[di := d1]> (g_dev s1)) (set_inp (push_all (report_events old rep) (inp s)) s1)).
  assert (Hem : emit_keys di s1 = (OK tt, s2)).
  { unfold emit_keys. bstep Hg. assert (Hfe : fetch_at 8 (g_report di) s1 = (OK rep, s1)).
    { unfold fetch_at. cbn. replace 8 with (Z.of_nat (length rep)) by lia. by rewrite fetch_store. }
    bstep Hfe. unfold s2, report_events. rewrite push_all_app, <- Hla. done. }
  bstep Hem. assert (Hg2 : dev di s2 = (OK d1, s2)) by (unfold dev; cbn; by rewrite list_lookup_insert_eq). bstep Hg2. cbn [intr d1 set_intr int_epaddr int_dci int_mps int_at last].
  set (d2 := set_intr _ d1). set (s3 := set_devs (<[di := d2]> (g_dev s2)) s2). assert (Hput : put_dev di d2 s2 = (OK tt, s3)) by done. bstep Hput.
  destruct (push_report _ _ _ _ Hr) as (ring' & p' & Hp & Hrr). unfold queue_report. assert (Hg3 : dev di s3 = (OK d2, s3)) by (unfold dev; cbn; by rewrite list_lookup_insert_eq by (by rewrite length_insert)). bstep Hg3.
  unfold store_at, push, put_ring, ring_slot_doorbell, wr32, put_dev, bind, get, modify. cbn -[push_all report_events Z.lor]. cbn -[push_trb] in Hp. rewrite Hp. cbn -[push_all report_events].
  eexists _, _. split; [done|]. cbn -[push_all report_events]. split; [|done]. split; cbn -[push_all report_events]; [by rewrite list_lookup_insert_eq by (by rewrite !length_insert)|done..| |done|by rewrite fn_lookup_insert].
  intros j x Hj Hx. rewrite !list_lookup_insert_ne in Hx by lia. by apply (Hf j x).
Qed.

(** C23.  USB keyboards report every key press and release once.  For any
    sequence of reports of a boot keyboard (no key twice in a report), the
    driver pushes a list of events in which the events of each key that has a
    code alternate between down and up: a key goes down only when it was up and
    up only when it was down, and at the end it is down exactly if the last
    report has it, whatever shift keys were pressed in between.  The endpoint is
    armed again after each report. *)
Theorem usb_keys_follow_reports s d old reps : keyboard s d old -> report_ok old -> Forall report_ok reps -> cc_good (ev_cc ev) = true ->
  exists s' d' evs, reported reps s = (OK tt, s') /\ keyboard s' d' (default old (list.last reps)) /\ inp s' = push_all evs (inp s) /\
    forall u, 0 < u < 256 -> keyed u -> alternates (report_has old u) (changes u evs) (report_has (default old (list.last reps)) u).
Proof.
  intros Hkb Ho Hall Hcc. revert s d old Hkb Ho. induction Hall as [|rep reps Hr Hall IH]; intros s d old Hkb Ho.
  - exists s, d, []. split; [done|]. split; [done|]. split; [done|]. intros. constructor.
  - destruct (report_run s d old rep Hkb (proj1 Hr) Hcc) as (s1 & d1 & Hrun & Hkb1 & Hi1). destruct (IH s1 d1 rep Hkb1 Hr) as (s2 & d2 & evs & Hrun2 & Hkb2 & Hi2 & Halt).
    assert (El : default old (list.last (rep :: reps)) = default rep (list.last reps)) by (destruct reps; [done|]; rewrite last_cons_cons; by destruct (list.last _) eqn:E; [|apply last_None in E]).
    exists s2, d2, (report_events old rep ++ evs). rewrite El. split.
    + cbn [reported]. binv Hrun. destruct a. bstep Hrun0. bstep Hrun. done.
    + split; [done|]. split; [by rewrite push_all_app, <- Hi1|]. intros u Hu Hk. rewrite changes_app. eapply alternates_app; [by apply report_changes|by apply Halt].
Qed.
End keyboard.

(** ** The keyboard of the machine of [UsbDemo] *)
#[local] Existing Instance demo_layout.
#[local] Existing Instance demo_controller.
Definition demo_event : trb := mkTrb 0 (2 ^ 24) (2 ^ 24 + 3 * 2 ^ 16 + 32 * 2 ^ 10 + 1).
Definition demo_reports : list (list Z) := [[0; 0; 4; 0; 0; 0; 0; 0]; [2; 0; 4; 5; 0; 0; 0; 0]; [0; 0; 5; 0; 0; 0; 0; 0]; [0; 0; 0; 0; 0; 0; 0; 0]].

Lemma usb_keys_follow_reports_witness : exists s' evs, reported 0 0 0 demo_event demo_reports demo_idle = (OK tt, s') /\ inp s' = push_all evs (inp demo_idle) /\
  alternates false (changes 4 evs) false /\ alternates false (changes 5 evs) false.
Proof.
  assert (Hok : Forall report_ok (replicate 8 0 :: demo_reports)).
  { unfold demo_reports. repeat (apply Forall_cons; split); try apply Forall_nil; try done.
    all: split_and!; [done|repeat (apply Forall_cons; split; [unfold byte_ok; lia|]); by apply Forall_nil|refine (bool_decide_unpack _ _); vm_compute; exact I]. }
  apply Forall_cons in Hok as [Ho Hall].
  destruct (usb_keys_follow_reports 0 0 0 demo_event demo_idle (nth 0 demo_devs zero_dev) (replicate 8 0) demo_reports) as (s' & d' & evs & Hrun & _ & Hi & Halt).
  - split; try done; [lia|intros j x Hj; lia|apply fresh_report].
  - exact Ho.
  - exact Hall.
  - vm_compute. reflexivity.
  - assert (El : default (replicate 8 0) (list.last demo_reports) = replicate 8 0) by (vm_compute; reflexivity). rewrite El in Halt.
    assert (E4 : report_has (replicate 8 0) 4 = false) by (vm_compute; reflexivity). assert (E5 : report_has (replicate 8 0) 5 = false) by (vm_compute; reflexivity).
    pose proof (Halt 4 ltac:(lia) ltac:(vm_compute; discriminate)) as H4. pose proof (Halt 5 ltac:(lia) ltac:(vm_compute; discriminate)) as H5.
    rewrite E4 in H4. rewrite E5 in H5. exists s', evs. split; [exact Hrun|]. split; [exact Hi|]. split; [exact H4|exact H5].
Defined.
