(* ===== verification/UsbSafe.v ===== *)
(** * Bulk transfers on any hardware

    Whatever the controller does to the shared memory, the driver stays inside
    of its rings and tables, a bulk transfer comes back after a bounded number
    of polls, and it gives the lock back. *)
From stdpp Require Import functions relations.
From S2P Require Import Prelude Bytes Disk Input Xhci XhciInit UsbStorage UsbSpec UsbRings UsbDemo.

Definition in_ring (c : cursor) : Prop := 0 <= idx c < 15.

Lemma push_trb_safe ring c p st ctl : length ring = 16%nat -> in_ring c -> exists ring' c', push_trb ring c p st ctl = Some (ring', c') /\ length ring' = 16%nat /\ in_ring c'.
Proof.
  unfold in_ring. intros Hl Hc. destruct (lookup_lt_is_Some_2 ring (Z.to_nat (idx c))) as [t Ht]; [lia|]. destruct (lookup_lt_is_Some_2 ring 15) as [l Hlk]; [lia|].
  unfold push_trb. rewrite Ht, Hlk, u32_small by lia. cbv zeta. rewrite list_lookup_insert_ne, Hlk by lia. destruct (Z.eqb_spec (idx c + 1) (RING_SZ - 1)).
  - eexists _, _. split; [done|]. rewrite !length_insert. cbn. lia.
  - eexists _, _. split; [done|]. rewrite length_insert. cbn. lia.
Qed.

Section safe.
Context {H : Type} `{Controller H} `{Layout}.
Variables (disp_w disp_h : Z).

(** The controller cannot change the size of the memory. *)
Hypothesis Hsize : forall m h m' h' r, hc_run m h = (m', h') -> length (rings m' r) = length (rings m r).

Definition dev_wf (d : usb_dev) : Prop := in_ring (int_at (intr d)) /\ in_ring (bin_at (bulk d)) /\ in_ring (bout_at (bulk d)).

Record xhci_wf (s : xhci H) : Prop := {
  wf_devs : length (g_dev s) = 4%nat;
  wf_evt : length (rings (mem s) EvtRing) = 64%nat;
  wf_evt_at : 0 <= idx (evt_at s) < 64;
  wf_rings : forall r, r <> EvtRing -> length (rings (mem s) r) = 16%nat;
  wf_dev : forall j d, g_dev s !! j = Some d -> dev_wf d;
}.

(** From a well-formed state, [m] ends in one, with a result in [Q], and does
    not touch the lock. *)
Definition safe {A} (m : M (xhci H) A) (Q : A -> Prop) : Prop :=
  forall s, xhci_wf s -> exists a s', m s = (OK a, s') /\ xhci_wf s' /\ g_evt_lock s' = g_evt_lock s /\ Q a.

Lemma safe_bind {A B} (m : M (xhci H) A) (k : A -> M (xhci H) B) Q R : safe m Q -> (forall a, Q a -> safe (k a) R) -> safe (bind m k) R.
Proof.
  intros Hm Hk s Hs. destruct (Hm s Hs) as (a & s1 & E & Hs1 & L1 & Ha). destruct (Hk a Ha s1 Hs1) as (b & s2 & E2 & Hs2 & L2 & Hb).
  exists b, s2. rewrite (bind_OK _ _ _ _ _ E). split; [done|]. split; [done|]. split; [congruence|done].
Qed.
Lemma safe_ret {A} (a : A) (Q : A -> Prop) : Q a -> safe (ret a) Q.
Proof. intros Ha s Hs. by exists a, s. Qed.
Lemma safe_modify f : (forall s, xhci_wf s -> xhci_wf (f s) /\ g_evt_lock (f s) = g_evt_lock s) -> safe (modify f) (fun _ => True).
Proof. intros Hf s Hs. exists tt, (f s). by destruct (Hf s Hs). Qed.
Lemma safe_get : safe get xhci_wf.
Proof. intros s Hs. by exists s, s. Qed.
Lemma safe_weaken {A} (m : M (xhci H) A) (Q R : A -> Prop) : safe m Q -> (forall a, Q a -> R a) -> safe m R.
Proof. intros Hm HQ s Hs. destruct (Hm s Hs) as (a & s' & E & ? & ? & ?). exists a, s'. auto. Qed.

Lemma elapse_safe : safe elapse (fun _ => True).
Proof.
  apply safe_modify. intros s [? ? ? Hr ?]. destruct (hc_run (mem s) (hc s)) as [m h] eqn:E. split; [|done].
  split; cbn; [done|by rewrite (Hsize _ _ _ _ _ E)|done| |done]. intros r Hne. by rewrite (Hsize _ _ _ _ _ E), Hr.
Qed.
Lemma wr32_safe b o v : safe (wr32 b o v) (fun _ => True).
Proof. apply safe_modify. by intros s []. Qed.
Lemma store_at_safe a bs : safe (store_at a bs) (fun _ => True).
Proof. apply safe_modify. by intros s []. Qed.
Lemma fetch_at_safe n a : safe (fetch_at n a) (fun _ => True).
Proof. intros s Hs. by eexists _, s. Qed.
Lemma doorbell_safe sl dci : safe (ring_slot_doorbell sl dci) (fun _ => True).
Proof. eapply safe_bind; [apply safe_get|]. intros. apply wr32_safe. Qed.

Lemma dev_safe i : (i < 4)%nat -> safe (dev i) dev_wf.
Proof.
  intros Hi s Hs. destruct (lookup_lt_is_Some_2 (g_dev s) i) as [d Hd]; [rewrite (wf_devs s Hs); lia|]. exists d, s. unfold dev. rewrite Hd. split; [done|]. split; [done|]. split; [done|]. by apply (wf_dev s Hs i).
Qed.
Lemma put_dev_safe i d : dev_wf d -> safe (put_dev i d) (fun _ => True).
Proof.
  intros Hd. apply safe_modify. intros s [Hl ? ? ? Hw]. split; [|done]. split; cbn; [by rewrite length_insert|done..|]. intros j x Hx.
  apply list_lookup_insert_Some in Hx as [(_ & <- & _)|[_ Hx]]; [done|by apply (Hw j)].
Qed.
Lemma push_safe r c p st ctl : r <> EvtRing -> in_ring c -> safe (push r c p st ctl) in_ring.
Proof.
  intros Hr Hc s Hs. destruct (push_trb_safe (rings (mem s) r) c p st ctl (wf_rings s Hs r Hr) Hc) as (ring' & c' & E & Hl & Hc').
  unfold push, bind, get, put_ring, modify. rewrite E. exists c'. eexists. split; [reflexivity|]. split; [|done]. destruct Hs as [? ? ? Hrs ?].
  split; cbn; [done|by rewrite fn_lookup_insert_ne|done| |done]. intros x Hx. destruct (decide (r = x)) as [<-|]; [by rewrite fn_lookup_insert|rewrite fn_lookup_insert_ne by done; auto].
Qed.
Lemma dev_by_slot_safe sl : safe (dev_by_slot sl) (fun o => match o with Some i => (i < 4)%nat | None => True end).
Proof.
  intros s Hs. eexists _, s. split; [done|]. split; [done|]. split; [done|]. destruct (list_find _ _) as [[i d]|] eqn:E; [|done]. cbn.
  apply list_find_Some in E as (Hi & _). apply lookup_lt_Some in Hi. rewrite length_take in Hi. lia.
Qed.

Lemma poll_event_safe : safe poll_event (fun _ => True).
Proof.
  eapply safe_bind; [apply elapse_safe|]. intros _ _. intros s Hs. unfold bind at 1, get. destruct (lookup_lt_is_Some_2 (rings (mem s) EvtRing) (Z.to_nat (idx (evt_at s)))) as [e He]; [rewrite (wf_evt s Hs); pose proof (wf_evt_at s Hs); lia|].
  rewrite He. unfold bind at 1. cbn [from_opt ret]. destruct (negb _); [by exists None, s|]. clear He. pose proof (wf_evt_at s Hs) as Ha. rewrite u32_small by lia.
  set (c := if _ =? _ then _ else _). assert (Hc : 0 <= idx c < 64) by (unfold c; destruct (Z.eqb_spec (idx (evt_at s) + 1) EVT_SZ); cbn; lia).
  eexists _, _. split; [reflexivity|]. split; [|done]. by destruct Hs.
Qed.

Lemma emit_keys_safe i : (i < 4)%nat -> safe (emit_keys i) (fun _ => True).
Proof.
  intros Hi. eapply safe_bind; [by apply dev_safe|]. intros d Hd. eapply safe_bind; [apply fetch_at_safe|]. intros rep _.
  eapply safe_bind; [apply safe_modify; by intros s []|]. intros _ _. eapply safe_bind; [apply safe_modify; by intros s []|]. intros _ _. by apply put_dev_safe.
Qed.
Lemma emit_mouse_safe i : (i < 4)%nat -> safe (emit_mouse disp_w disp_h i) (fun _ => True).
Proof.
  intros Hi. eapply safe_bind; [by apply dev_safe|]. intros d Hd. eapply safe_bind; [apply fetch_at_safe|]. intros rep _. apply safe_modify. by intros s [].
Qed.
Lemma queue_report_safe i : (i < 4)%nat -> safe (queue_report i) (fun _ => True).
Proof.
  intros Hi. eapply safe_bind; [by apply dev_safe|]. intros d (Hd & Hb). eapply safe_bind; [apply store_at_safe|]. intros _ _.
  eapply safe_bind; [by apply push_safe|]. intros c Hc. eapply safe_bind; [apply doorbell_safe|]. intros _ _. by apply put_dev_safe.
Qed.
Lemma route_safe ev : safe (route_hid_event disp_w disp_h ev) (fun _ => True).
Proof.
  eapply safe_bind; [apply dev_by_slot_safe|]. intros [i|] Hi; [|by apply safe_ret]. eapply safe_bind; [by apply dev_safe|]. intros d Hd.
  destruct (_ =? _); [by apply safe_ret|]. eapply (safe_bind _ _ (fun _ => True)).
  - destruct (cc_good _); [|by apply safe_ret]. destruct (_ =? _); [by apply emit_mouse_safe|by apply emit_keys_safe].
  - intros _ _. eapply safe_bind; [by apply dev_safe|]. intros d1 Hd1. eapply safe_bind; [by apply put_dev_safe|]. intros _ _. by apply queue_report_safe.
Qed.
Lemma bulk_round_safe sl dci : safe (bulk_round disp_w disp_h sl dci) (fun o => match o with Some (_, r) => 0 <= r < 2 ^ 24 | None => True end).
Proof.
  eapply safe_bind; [apply poll_event_safe|]. intros [ev|] _; [|by apply safe_ret]. destruct (negb _); [by apply safe_ret|]. destruct (_ && _).
  - apply safe_ret. change 0xFFFFFF with (Z.ones 24). rewrite Z.land_ones by lia. apply Z.mod_pos_bound. lia.
  - eapply safe_bind; [apply route_safe|]. intros _ _. by apply safe_ret.
Qed.
Lemma push_bulk_safe i dci buf len : (i < 4)%nat -> safe (push_bulk i dci buf len) (fun _ => True).
Proof.
  intros Hi. eapply safe_bind; [by apply dev_safe|]. intros d (Hd & Hb1 & Hb2). cbv zeta. destruct (dci =? bulk_in_dci (bulk d)); (eapply safe_bind; [by apply push_safe|]); intros c Hc; by apply put_dev_safe.
Qed.

Lemma spin_safe {A} (body : M (xhci H) (option A)) Q fuel : safe body (fun o => match o with Some a => Q a | None => True end) -> forall spin limit,
  limit - spin <= Z.of_nat fuel -> safe (spin_until fuel spin limit body) (fun o => match o with Some a => Q a | None => True end).
Proof.
  intros Hb. induction fuel as [|fuel IH]; intros spin limit Hf; cbn [spin_until]; destruct (Z.leb_spec limit spin); try (by apply safe_ret); [lia|].
  eapply safe_bind; [exact Hb|]. intros [a|] Ha; [by apply safe_ret|]. apply IH. lia.
Qed.

(** C22.  A bulk transfer always comes back.  On any controller, whatever it
    writes into the rings and the buffers and even if it never answers, a bulk
    transfer with a well-formed driver ends after at most 200 million polls, with
    success and the number of bytes left or with an error; the indices stay
    inside of the rings, and the lock is free again. *)
Theorem bulk_always_returns fuel sl dci buf len s : xhci_wf s -> g_evt_lock s = false -> 200000000 <= Z.of_nat fuel ->
  exists r s', canboot_xhci_bulk disp_w disp_h fuel sl dci buf len s = (r, s') /\ (r = ERR \/ exists residue, r = OK residue /\ 0 <= residue < 2 ^ 24) /\
    xhci_wf s' /\ g_evt_lock s' = false.
Proof.
  intros Hs Hl Hf. unfold canboot_xhci_bulk. destruct (dev_by_slot_safe sl s Hs) as (o & s0 & E0 & Hs0 & L0 & Ho). bstep E0. destruct o as [i|]; [|exists ERR, s0; split; [done|]; split; [by left|split; [done|congruence]]].
  destruct (dev_safe i Ho s0 Hs0) as (d & s1 & E1 & Hs1 & L1 & Hd). bstep E1. destruct (negb _); [exists ERR, s1; split; [done|]; split; [by left|split; [done|congruence]]|].
  assert (E2 : spin_lock_irqsave s1 = (OK tt, set_lock true s1)) by (unfold spin_lock_irqsave, bind, get; by rewrite L1, L0, Hl). bstep E2.
  assert (Hs2 : xhci_wf (set_lock true s1)) by (by destruct Hs1).
  destruct (push_bulk_safe i dci buf len Ho _ Hs2) as ([] & s3 & E3 & Hs3 & _ & _). bstep E3. destruct (doorbell_safe sl dci s3 Hs3) as ([] & s4 & E4 & Hs4 & _ & _). bstep E4.
  destruct (spin_safe (bulk_round disp_w disp_h sl dci) (fun x => 0 <= snd x < 2 ^ 24) fuel) with (spin := 0) (limit := 200000000) (s := s4) as (r & s5 & E5 & Hs5 & _ & Hr); [|lia|done|].
  { eapply safe_weaken; [apply bulk_round_safe|]. by intros [[? ?]|]. }
  bstep E5. assert (E6 : spin_unlock_irqrestore s5 = (OK tt, set_lock false s5)) by done. bstep E6. assert (Hs6 : xhci_wf (set_lock false s5)) by (by destruct Hs5).
  destruct r as [[[] res]|]; eexists _, _; (split; [reflexivity|]); (split; [|done]); [right; by exists res|by left|by left].
Qed.
End safe.

(** ** The machine of [UsbDemo] *)
#[local] Existing Instance demo_layout.
#[local] Existing Instance demo_controller.

Lemma serve_size e m c r : length (rings (fst (serve e m c)) r) = length (rings m r).
Proof.
  unfold serve. destruct (ready m c (e_ring e)) as [[cur t]|]; [|done]. destruct (e_dir e); [|destruct (UsbSpec.t_in (trb_len t) (tgt c)) as [bs d]|]; cbn;
    (destruct (decide (EvtRing = r)) as [<-|]; [rewrite fn_lookup_insert; apply length_insert|by rewrite fn_lookup_insert_ne]).
Qed.

Lemma bulk_always_returns_witness : exists r s', canboot_xhci_bulk 0 0 (Z.to_nat 200000000) 2 3 0xE000 512 demo_idle = (r, s') /\ g_evt_lock s' = false.
Proof.
  destruct (bulk_always_returns 0 0) with (fuel := Z.to_nat 200000000) (sl := 2) (dci := 3) (buf := 0xE000) (len := 512) (s := demo_idle) as (r & s' & E & _ & _ & Hl).
  - intros m h m' h' r Hrun. cbn [hc_run demo_controller] in Hrun. destruct (room_b (dchip h)); [|by simplify_eq]. destruct (demo_eps !! _) as [e|]; [|by simplify_eq].
    pose proof (serve_size e m (dchip h) r) as Hs. destruct (serve e m (dchip h)). by simplify_eq.
  - split; [done|done|cbn; lia|by intros []|]. intros [|[|[|[|j]]]] d Hd; cbn in Hd; simplify_eq; split_and!; unfold in_ring; cbn; lia.
  - done.
  - rewrite Z2Nat.id by lia. lia.
  - exists r, s'. by split.
Defined.
